(* ===== verification/_CoqProject ===== *)
-Q . S2P
Prelude.v
Json.v
Regex.v
Strings.v
Dtoa.v
DtoaSpec.v
JsonDump.v
JsonDumpSpec.v
JsonParser.v
JsonUtf8.v
FloatSpec.v
DtoaCorrect.v
FloatText.v
JsonParserSpec.v
JsonRoundtrip.v
Validator.v
OrtcValidate.v
OrtcContracts.v
OrtcValidated.v
H264.v
Ortc.v
OrtcMatch.v
OrtcExtended.v
OrtcDerived.v
MediaSection.v
MediaSectionSpec.v
AnswerSection.v
SdpGrammar.v
SdpWriter.v
RemoteSdp.v
RemoteSdpInv.v
SdpUtils.v
SdpUtilsSpec.v
SdpParser.v
SdpLines.v
SdpRules.v
SdpNamed.v
SdpDocument.v
SdpRoundtrip.v
SdpWriterSpec.v
SdpParserSpec.v
SdpCapabilities.v
PeerConnection.v
Handler.v
Transport.v
SendTransport.v
RecvTransport.v
Device.v
SdpParams.v
SdpCapabilitiesSpec.v
HandlerFrame.v
HandlerSpec.v
SendHandlerSpec.v
TransportSpec.v
RecvTransportSpec.v
DeviceSpec.v
Fastjson.v
RoomStore.v
Droid.v
DroidSpec.v
Capture.v
RtcEngine.v
RtcEngineInv.v
RtcEngineCalm.v
RtcEngineMoves.v
RtcEngineSound.v
RtcEngineSteps.v
RtcEngineConsumers.v
RtcEngineDestroy.v
RtcEngineQueue.v
RtcEngineSample.v
RtcEngineSpec.v
