(* ===== verification/Prelude.v ===== *)
(** * Verification of rtc-client-android

    The program is an Android client for video calls through a mediasoup server.  An engine
    in Java (com/zeewain/rtc) joins a room, publishes the camera and the microphone and takes
    the consumers that the server announces.  It uses a Java API (org/mediasoup/droid) whose
    native code (src/rtc-sdk/src/main/jni) drives libmediasoupclient, a C++ library
    (src/rtc-sdk/deps/libmediasoupclient) which negotiates media with the server and
    configures a webrtc peer connection through SDP.  This library models all of these
    layers; webrtc, Android, the server and fastjson are parameters.

    ** How the parts interact

    The engine's worker thread runs tasks: a join loads the Device with the router's RTP
    capabilities, which ortc.cpp validates and intersects with the native ones, and creates a
    sending and a receiving transport from the ICE, DTLS and SCTP parameters of the server.
    Producing and consuming go through the Java API as JSON text, which json::parse and dump
    read and write.  A transport validates its arguments and hands them to a handler, which
    keeps a RemoteSdp: an answer section for every producer, an offer section for every
    consumer.  The handler passes the SDP text that sdptransform writes to the peer connection
    and parses the local description back.  The engine keeps its consumers in mConsumers and
    in the room store that the user interface observes.

    ** The files

    Foundations:
    - Prelude.v: outcomes of code ([result]: a value, an exception, undefined behaviour),
      computations on an object passed by reference ([M S A], in which the writes made before
      an exception stay), predicates that computations preserve ([preserves], database
      [preserve]), ASCII case, decimal text, fixed-width integers, the tactic [run] and its
      rewrite database [msc_run].
    - Json.v: nlohmann::json values (deps/libsdptransform/include/json.hpp).  A non-const
      [operator[]] inserts null for a missing key, the const one is undefined behaviour there.
    - Regex.v: std::regex in its ECMAScript grammar, a backtracking matcher and the relation
      it decides.  Strings.v: lemmas on strings.

    JSON text (json.hpp):
    - Dtoa.v, JsonDump.v: the serializer with the Grisu2 printer of doubles; DtoaSpec.v (its
      loops end), DtoaCorrect.v (its digits are right), FloatText.v (its text is read back) and
      JsonDumpSpec.v: its proofs.
    - JsonParser.v: lexer and parser; JsonUtf8.v, FloatSpec.v, JsonParserSpec.v and
      JsonRoundtrip.v: its proofs and the round trip with the serializer.

    Negotiation:
    - Validator.v: the interface [Validator v accept norm] of a validator and the calculus of
      its steps.  OrtcValidate.v: the [ortc::validate*] functions; OrtcContracts.v: an instance
      of the interface for each; OrtcValidated.v: what the validators establish.
    - H264.v: webrtc's profile-level-id parser, printer and answer
      (api/video_codecs/h264_profile_level_id.cc, media/base/sdp_video_format_utils.cc).
    - Ortc.v: the rest of src/ortc.cpp; OrtcMatch.v, OrtcExtended.v, OrtcDerived.v: its proofs.

    SDP:
    - SdpGrammar.v, SdpWriter.v, SdpParser.v: deps/libsdptransform/src (grammar.cpp, writer.cpp,
      parser.cpp).  SdpLines.v, SdpRules.v, SdpNamed.v, SdpDocument.v, SdpRoundtrip.v: the round
      trip; SdpParserSpec.v, SdpWriterSpec.v: what the parser gives and the writer leaves out.
    - MediaSection.v: src/sdp/MediaSection.cpp; MediaSectionSpec.v, AnswerSection.v: its proofs.
    - RemoteSdp.v: src/sdp/RemoteSdp.cpp; RemoteSdpInv.v: its invariant and the abstract session
      it refines.
    - SdpUtils.v, SdpCapabilities.v: src/sdp/Utils.cpp, src/scalabilityMode.cpp and
      include/Utils.hpp; SdpUtilsSpec.v, SdpParams.v, SdpCapabilitiesSpec.v: their proofs.

    Handlers, transports, device (src/*.cpp of libmediasoupclient):
    - PeerConnection.v: PeerConnection.cpp over the class [Webrtc], which lists the operations
      of webrtc that are called, on a state [World].
    - Handler.v: Handler.cpp; HandlerFrame.v, HandlerSpec.v, SendHandlerSpec.v: its proofs.
    - Transport.v, SendTransport.v, RecvTransport.v: Transport.cpp, Producer.cpp, Consumer.cpp,
      DataProducer.cpp, DataConsumer.cpp.  The objects live in a store that the maps of the
      transport point into; TransportSpec.v, RecvTransportSpec.v: the proofs.
    - Device.v: Device.cpp; DeviceSpec.v: its proofs.

    The Java side:
    - Fastjson.v: null strings and the accessors of JSONObject over the class [Fastjson].
    - Droid.v: org/mediasoup/droid with its native code; DroidSpec.v: what each call does to
      the maps, the flags and the listeners.
    - RoomStore.v: lv/RoomStore.java and the model classes.  Capture.v: PeerConnectionUtils.java
      over the class [Capture].
    - RtcEngine.v: RtcEngineEx.java and RtcEngineImpl.java.  [act] is one step: a call of the
      application, a task of the worker or of the main thread, the listener of a future, a
      message of the server, or a callback of webrtc.
    - RtcEngineInv.v: the invariant, on a summary of the state; RtcEngineCalm.v: what leaves
      the summary alone; RtcEngineMoves.v: the changes of the summary that keep it;
      RtcEngineSound.v, RtcEngineSteps.v, RtcEngineConsumers.v, RtcEngineDestroy.v,
      RtcEngineQueue.v: each operation makes one of these changes; RtcEngineSample.v: a run;
      RtcEngineSpec.v: the theorems.

    Functions keep their names.  A constructor [X::X] is [X_init] on the object under
    construction or [X_new]; the methods of a Java class [X] over native code are [JX_...];
    loop bodies and branches of long functions are definitions of their own.

    ** What the theorems show

    - Validation: each validator returns exactly on the values its predicate describes, leaves
      their normal form, and throws a MediaSoupClientTypeError on everything else, without
      undefined behaviour; normal forms are stable, except for SCTP stream parameters.
    - Negotiation: on validated capabilities whose RTX codecs have an apt and whose profile
      identifiers are strings or integers, getExtendedRtpCapabilities returns exactly the codecs
      and extensions that a specification on the two lists gives, the sending parameters are
      those of the first codec of the kind, and what is derived is valid again.  Some
      capabilities outside that set pass validation and make negotiation undefined.
    - H.264: printing and parsing are inverse and the answer has the common profile with the
      right level.
    - JSON text: json::parse ends on every text with a well-formed value or one of two
      exceptions, and reads back what dump writes, finite doubles bit for bit; the integer
      printer equals the decimal text; Grisu2 ends with at most 17 digits, which make a number
      strictly between the boundaries of the double.
    - SDP: on every text the parser gives a session of the shapes of the grammar or throws
      out_of_range; it reads back what the writer writes, entries of the rules that are read
      back, which leaves out eight of them.  The media object of a section is the one spelled
      out in the specification, with the codecs, feedback, extensions and streams of its
      parameters.  Every sequence of calls of a RemoteSdp refines a list of slots, in which only
      GetSdp may fail; GetSdp increases the version modulo 2^32 and changes nothing else.
    - Handlers and transports, whatever webrtc answers: the remote SDP of a receiving handler
      refines the abstract session, failed calls included; an open consumer has an open section
      of its own; closing a transport closes every producer and tells each listener once, when
      the producers were given different ids; stream ids stay below the announced number of
      streams.
    - Device: Load composes the native capabilities, validation and negotiation.
    - Engine: in every state that a run reaches before the engine is destroyed, mConsumers, the
      room store, the producers and the transports agree; the task of a destroy returns and leaves
      the transports with their producers and consumers closed and disposed, but the room store
      as it is; a destroy that was asked for is carried out unless an earlier task ends the
      process; a join gives two open transports; turning the camera or the microphone off
      closes and forgets exactly its producer.  A join that is rejected with code 1 or 1000, or a
      second join, ends the process.

    ** Assumptions

    - [Webrtc], [Capture], [DataChannels], [Services], [Fastjson] are classes without laws: the
      theorems hold for every behaviour of these parties.  HandlerSpec.v and RecvTransportSpec.v
      use [LastingMids], that the mid of a transceiver stays once it is set until webrtc stops the
      transceiver, takes the mid away and gives it no other (pc/sdp_offer_answer.cc), and
      the theorems on a transport take the callback of its listener as given.
    - Callbacks into the application are recorded; the application does not call back from
      inside of them.  A step of the engine is atomic: the threads interleave between steps.
    - The theorems on runs of the engine are about servers that give no id twice to objects of
      the same kind; [engine_reachable] says so.
    - A [long] has 64 bits, as on the 64 bit Android ABIs ([isInt] of sdptransform's parser.cpp
      reads one); on a 32 bit ABI integers beyond 32 bits would be read as floating point.
    - The C locale (a decimal point in numbers); the conversion of decimal text to a double
      is the correctly rounded one.

    ** Bounds and fuel

    Repetition in the regular expression matcher runs with the length of the target as fuel,
    the parser of JSON text with one more than the length of the text and scan_string with the
    length of its input: every round reads a character, and [json_parse_correct] shows that the
    fuel never runs out.  The loops of Grisu2 and of the integer printer have fuel for the
    largest 64 bit values ([grisu2_correct], [dump_integer_correct]).  The decimal exponent
    of a float is searched downwards from 39 in at most 100 steps: a float lies between 10^-45
    and 10^39.  Integers are kept at their width by [uint] and [sint].

    ** Not modelled

    - webrtc beyond H264.v (media engine, ICE, DTLS, SCTP, its threads), Android and the
      server: parameters.
    - The observers that only log, the log messages, the text of exceptions of json.hpp and the
      text of statistics; peerConnectionOptions beyond the servers.
    - The theorems on answer sections are about calls without codec options, as the engine makes
      them; the options themselves are modelled.
    - The instance of RtcEngine.java, RtcFactory.java, ClientFactory.java, MediasoupClient.java
      and Logger.java: start-up and logging; one engine is modelled.  PeerConnection.java with
      peerconnection_jni.cpp, which only tests use.  The support code of JNI.  NetworkUtils.java
      and CommonUtils.java, queries of Android and a random string.
    - The tests and the other libraries under src/rtc-sdk/deps. *)

From stdpp Require Export base list option strings pretty.
From Stdlib Require Export ZArith Lia.

#[global] Open Scope Z_scope.
#[global] Arguments String.append : simpl nomatch.

(** ** Outcomes of C++ code

    A call returns a value, throws, or has undefined behaviour. *)

(** The exceptions the modelled code throws.  The first four are the classes of
    MediaSoupClientErrors.hpp; the next ones are those of nlohmann::json and of the
    C++ standard library that the code lets through; then those of the Java code.
    [ProcessAborted] is no exception: a failed CHECK, or a C++ exception that leaves
    native code, ends the process. *)
Inductive exn :=
| MediaSoupClientError (description : string)
| MediaSoupClientTypeError (description : string)
| MediaSoupClientUnsupportedError (description : string)
| MediaSoupClientInvalidStateError (description : string)
| JsonTypeError (id : Z)
| JsonOutOfRange (id : Z)
| JsonParseError (id : Z)
| StdInvalidArgument
| StdBadFunctionCall
| StdOutOfRange
| MediasoupException (cause : exn)
| IllegalStateException (message : string)
| NullPointerException
| JSONException
| ExecutionException
| RuntimeException (message : string)
| ProcessAborted.

Abbreviation TypeError := MediaSoupClientTypeError.
Abbreviation UnsupportedError := MediaSoupClientUnsupportedError.
Abbreviation InvalidStateError := MediaSoupClientInvalidStateError.

#[export] Instance exn_eq_dec : EqDecision exn.
Proof. solve_decision. Defined.

(** Catchable as [MediaSoupClientError&], the base class of the other three. *)
Definition is_MediaSoupClientError (e : exn) : bool :=
  match e with
  | MediaSoupClientError _ | MediaSoupClientTypeError _
  | MediaSoupClientUnsupportedError _ | MediaSoupClientInvalidStateError _ => true
  | _ => false
  end.

(** Catchable as [std::exception&] *)
Definition is_std_exception (e : exn) : bool :=
  match e with
  | MediasoupException _ | IllegalStateException _ | NullPointerException | JSONException
  | ExecutionException | RuntimeException _ | ProcessAborted => false
  | _ => true
  end.

Inductive result (A : Type) :=
| Ok (a : A)
| Throw (e : exn)
| Undef.
Arguments Ok {A} a.
Arguments Throw {A} e.
Arguments Undef {A}.

Definition result_bind {A B} (m : result A) (f : A -> result B) : result B :=
  match m with
  | Ok a => f a
  | Throw e => Throw e
  | Undef => Undef
  end.

(** ** Computations over a mutable object

    [M S A] runs on an object of type [S] passed by non-const reference; the
    object keeps the writes made before an exception was thrown. *)
Definition M (S A : Type) : Type := S -> result A * S.

Section Monad.
Context {S : Type}.

Definition ret {A} (a : A) : M S A := fun s => (Ok a, s).
Definition bind {A B} (m : M S A) (f : A -> M S B) : M S B :=
  fun s =>
    match m s with
    | (Ok a, s') => f a s'
    | (Throw e, s') => (Throw e, s')
    | (Undef, s') => (Undef, s')
    end.
Definition throw {A} (e : exn) : M S A := fun s => (Throw e, s).
Definition lift {A} (r : result A) : M S A := fun s => (r, s).
Definition get : M S S := fun s => (Ok s, s).
Definition put (s : S) : M S unit := fun _ => (Ok tt, s).

(** [if (b) throw e;] *)
Definition throw_if (b : bool) (e : exn) : M S unit :=
  if b then throw e else ret tt.
(** [if (b) m;] *)
Definition when (b : bool) (m : M S unit) : M S unit :=
  if b then m else ret tt.
End Monad.

Declare Scope msc_scope.
Delimit Scope msc_scope with msc.

Notation "'let!' x := m 'in' k" := (bind m (fun x => k))
  (at level 10, x name, m at level 100, k at level 200) : msc_scope.
Notation "'do!' m 'in' k" := (bind m (fun _ => k))
  (at level 10, m at level 100, k at level 200) : msc_scope.
Notation "'let?' x := m 'in' k" := (result_bind m (fun x => k))
  (at level 10, x name, m at level 100, k at level 200) : msc_scope.
#[global] Open Scope msc_scope.

Ltac destruct_exists := repeat match goal with H : exists _, _ |- _ => destruct H end.

Create HintDb msc.
Create Rewrite HintDb msc_run.

(** ** Running computations *)

Section MonadLemmas.
Context {S : Type}.
Implicit Types (s : S) (b : bool).

Lemma bind_ok {A B} (m : M S A) (f : A -> M S B) s (c : B) s2 :
  bind m f s = (Ok c, s2) <->
  exists a s1, m s = (Ok a, s1) /\ f a s1 = (Ok c, s2).
Proof.
  unfold bind. destruct (m s) as [[] ?]; split; intros; destruct_and?;
    destruct_exists; destruct_and?; simplify_eq; eauto.
Qed.

Lemma bind_of_ok {A B} (m : M S A) (f : A -> M S B) s a s1 :
  m s = (Ok a, s1) -> bind m f s = f a s1.
Proof. unfold bind. by intros ->. Qed.

Lemma bind_of_throw {A B} (m : M S A) (f : A -> M S B) s e s1 :
  m s = (Throw e, s1) -> bind m f s = (Throw e, s1).
Proof. unfold bind. by intros ->. Qed.

Lemma run_bind_ret {A B} (a : A) (f : A -> M S B) s : bind (ret a) f s = f a s.
Proof. reflexivity. Qed.
Lemma run_bind_get {B} (f : S -> M S B) s : bind get f s = f s s.
Proof. reflexivity. Qed.
Lemma run_bind_put {B} s1 (f : unit -> M S B) s : bind (put s1) f s = f tt s1.
Proof. reflexivity. Qed.
Lemma run_bind_throw_if {B} b e (f : unit -> M S B) s :
  bind (throw_if b e) f s = if b then (Throw e, s) else f tt s.
Proof. by destruct b. Qed.
Lemma run_bind_when {B} b (m : M S unit) (f : unit -> M S B) s :
  bind (when b m) f s = if b then bind m f s else f tt s.
Proof. by destruct b. Qed.
Lemma run_bind_bind {A B C} (m : M S A) (f : A -> M S B) (g : B -> M S C) s :
  bind (bind m f) g s = bind m (fun a => bind (f a) g) s.
Proof. unfold bind. by destruct (m s) as [[] ?]. Qed.
Lemma run_throw_if b e s :
  throw_if b e s = if b then (Throw e, s) else (Ok tt, s).
Proof. by destruct b. Qed.
Lemma run_when b (m : M S unit) s : when b m s = if b then m s else (Ok tt, s).
Proof. by destruct b. Qed.
End MonadLemmas.

#[export] Hint Rewrite @run_bind_ret @run_bind_get @run_bind_put @run_bind_throw_if
  @run_bind_bind @run_throw_if : msc_run.

(** ** Predicates that a computation preserves, however it ends *)

Create HintDb preserve.

Section Preserves.
Context {S : Type} (P : S -> Prop).

Definition preserves {A} (m : M S A) : Prop := forall s, P s -> P (snd (m s)).

Lemma preserves_bind {A B} (m : M S A) (f : A -> M S B) :
  preserves m -> (forall a, preserves (f a)) -> preserves (bind m f).
Proof.
  intros Hm Hf s Hs. specialize (Hm s Hs). unfold bind.
  destruct (m s) as [[a|e|] s']; simpl in *; [by apply Hf|done..].
Qed.
Lemma preserves_ret {A} (a : A) : preserves (ret a).
Proof. by intros s. Qed.
Lemma preserves_lift {A} (r : result A) : preserves (lift r).
Proof. by intros s. Qed.
Lemma preserves_throw {A} e : preserves (A := A) (throw e).
Proof. by intros s. Qed.
Lemma preserves_get : preserves get.
Proof. by intros s. Qed.
Lemma preserves_throw_if b e : preserves (throw_if b e).
Proof. by destruct b; intros s. Qed.
Lemma preserves_when b (m : M S unit) : preserves m -> preserves (when b m).
Proof. by destruct b; [|intros _ s]. Qed.
End Preserves.

#[export] Hint Resolve preserves_bind preserves_ret preserves_lift preserves_throw preserves_get
  preserves_throw_if preserves_when : preserve.

(** Goes through a sequence of computations that preserve the predicate. *)
Ltac preserve :=
  first [ solve [eauto with preserve]
        | apply preserves_bind; [preserve|intros ?; preserve]
        | idtac ].

(** Executes the straight-line prefix of a computation in the goal. *)
Ltac run := autorewrite with msc_run; simpl.
Tactic Notation "run" "in" hyp(H) := autorewrite with msc_run in H; simpl in H.

(** Splits on the conditions of the goal, keeping the equation. *)
Ltac split_if :=
  match goal with
  | |- context [if ?b then _ else _] => destruct b eqn:?
  end.

(** ** Strings *)

Definition ascii_lower (c : Ascii.ascii) : Ascii.ascii :=
  let n := Ascii.N_of_ascii c in
  if ((65 <=? n) && (n <=? 90))%N then Ascii.ascii_of_N (n + 32) else c.

(** [std::transform(s.begin(), s.end(), s.begin(), ::tolower)] *)
Fixpoint tolower (s : string) : string :=
  match s with
  | EmptyString => EmptyString
  | String c s => String (ascii_lower c) (tolower s)
  end.

(** [std::to_string] *)
Definition to_string (z : Z) : string := pretty z.

Lemma ascii_lower_idem c : ascii_lower (ascii_lower c) = ascii_lower c.
Proof. by destruct c as [[] [] [] [] [] [] [] []]. Qed.

Lemma tolower_idem s : tolower (tolower s) = tolower s.
Proof. induction s; simpl; [done|]. by rewrite ascii_lower_idem, IHs. Qed.

Lemma tolower_app s t : tolower (s +:+ t) = tolower s +:+ tolower t.
Proof. induction s; simpl; [done|]. by rewrite IHs. Qed.

Lemma tolower_length s : String.length (tolower s) = String.length s.
Proof. induction s; simpl; congruence. Qed.

(** The order of [std::map] keys. *)
Definition str_lt (a b : string) : Prop := String.compare a b = Lt.

Lemma str_compare_refl s : String.compare s s = Eq.
Proof.
  induction s as [|c s IH]; simpl; [done|].
  unfold Ascii.compare. by rewrite N.compare_refl.
Qed.

Lemma str_lt_trans a b c : str_lt a b -> str_lt b c -> str_lt a c.
Proof.
  unfold str_lt. revert b c.
  induction a as [|x a IH]; intros [|y b] [|z c]; simpl; try done.
  unfold Ascii.compare.
  destruct (N.compare_spec (Ascii.N_of_ascii x) (Ascii.N_of_ascii y)),
    (N.compare_spec (Ascii.N_of_ascii y) (Ascii.N_of_ascii z)),
    (N.compare_spec (Ascii.N_of_ascii x) (Ascii.N_of_ascii z));
    try done; try lia; eauto.
Qed.

Lemma str_lt_irrefl a : ~ str_lt a a.
Proof. unfold str_lt. by rewrite str_compare_refl. Qed.

Lemma str_gt_lt a b : String.compare a b = Gt -> str_lt b a.
Proof. unfold str_lt. rewrite String.compare_antisym. by destruct (String.compare b a). Qed.

Lemma str_compare_spec a b :
  CompareSpec (a = b) (str_lt a b) (str_lt b a) (String.compare a b).
Proof.
  destruct (String.compare a b) eqn:E; constructor.
  - by apply String.compare_eq_iff.
  - done.
  - by apply str_gt_lt.
Qed.

(** Strings that agree are cut at the same place into the same parts. *)
Lemma str_app_inj (a b c d : string) :
  String.length a = String.length b -> a +:+ c = b +:+ d -> a = b /\ c = d.
Proof.
  revert b. induction a as [|x a IH]; intros [|y b] Hl H; simpl in *; try done.
  injection H as -> H. injection Hl as Hl. by destruct (IH b Hl H) as [-> ->].
Qed.

(** ** Lists *)

Lemma forallb_Forall {A} (p : A -> bool) l :
  forallb p l = true -> Forall (fun x => p x = true) l.
Proof. rewrite forallb_forall, List.Forall_forall. done. Qed.

(** ** Machine integers *)

(** [static_cast<uintN_t>] and [static_cast<intN_t>] of an integer. *)
Definition uint (w : Z) (z : Z) : Z := z mod 2 ^ w.
Definition sint (w : Z) (z : Z) : Z := (z + 2 ^ (w - 1)) mod 2 ^ w - 2 ^ (w - 1).

Lemma uint_range w z : 0 <= w -> 0 <= uint w z < 2 ^ w.
Proof. intros. apply Z.mod_pos_bound. lia. Qed.

Lemma uint_small w z : 0 <= z < 2 ^ w -> uint w z = z.
Proof. apply Z.mod_small. Qed.

Lemma sint_small w z : 0 < w -> - 2 ^ (w - 1) <= z < 2 ^ (w - 1) -> sint w z = z.
Proof.
  intros Hw Hz. unfold sint.
  assert (2 ^ w = 2 * 2 ^ (w - 1)) by (rewrite <- Z.pow_succ_r by lia; f_equal; lia).
  rewrite Z.mod_small; lia.
Qed.
