(* ===== verification/Json.v ===== *)
(** * JSON values

    The part of nlohmann::json 3.7.3 (libsdptransform/include/json.hpp) that the
    media stack uses: the value type, the type predicates, element access,
    modifiers, conversions and comparison.  An object is a [std::map] ordered by
    key, modelled by an association list kept in that order; numbers carry the
    alternative (signed, unsigned, floating point) the library stores. *)

From S2P Require Import Prelude.
From Stdlib Require Export SpecFloat.

(** ** The value type *)

Inductive json :=
| JNull
| JBool (b : bool)
| JInt (z : Z)                         (* number_integer, int64_t *)
| JUInt (n : Z)                        (* number_unsigned, uint64_t *)
| JFloat (f : spec_float)              (* number_float, double *)
| JString (s : string)
| JArray (l : list json)
| JObject (m : list (string * json)).

Section json_induction.
Variable P : json -> Prop.
Hypothesis Hnull : P JNull.
Hypothesis Hbool : forall b, P (JBool b).
Hypothesis Hint : forall z, P (JInt z).
Hypothesis Huint : forall n, P (JUInt n).
Hypothesis Hfloat : forall f, P (JFloat f).
Hypothesis Hstring : forall s, P (JString s).
Hypothesis Harray : forall l, Forall P l -> P (JArray l).
Hypothesis Hobject : forall m, Forall (fun kv => P kv.2) m -> P (JObject m).

Fixpoint json_rect' (j : json) : P j :=
  match j with
  | JNull => Hnull
  | JBool b => Hbool b
  | JInt z => Hint z
  | JUInt n => Huint n
  | JFloat f => Hfloat f
  | JString s => Hstring s
  | JArray l =>
      Harray l ((fix go l : Forall P l :=
        match l with
        | [] => Forall_nil_2 P
        | x :: l => Forall_cons_2 P x l (json_rect' x) (go l)
        end) l)
  | JObject m =>
      Hobject m ((fix go m : Forall (fun kv : string * json => P kv.2) m :=
        match m with
        | [] => Forall_nil_2 _
        | kv :: m =>
            Forall_cons_2 (fun kv : string * json => P kv.2) kv m
              (json_rect' kv.2) (go m)
        end) m)
  end.
End json_induction.

(** ** Objects *)

Fixpoint obj_find (k : string) (m : list (string * json)) : option json :=
  match m with
  | [] => None
  | (k', v) :: m => if String.eqb k k' then Some v else obj_find k m
  end.

Fixpoint obj_insert (k : string) (v : json) (m : list (string * json)) :
    list (string * json) :=
  match m with
  | [] => [(k, v)]
  | (k', v') :: m' =>
      match String.compare k k' with
      | Lt => (k, v) :: m
      | Eq => (k, v) :: m'
      | Gt => (k', v') :: obj_insert k v m'
      end
  end.

Definition obj_erase (k : string) (m : list (string * json)) : list (string * json) :=
  base.filter (fun kv => kv.1 <> k) m.

(** Writes to the value bound to [k], through a reference to it. *)
Fixpoint obj_replace (k : string) (v : json) (m : list (string * json)) :
    list (string * json) :=
  match m with
  | [] => []
  | (k', v') :: m =>
      if String.eqb k k' then (k', v) :: m else (k', v') :: obj_replace k v m
  end.

(** ** Observers *)

Definition is_null (j : json) : bool := match j with JNull => true | _ => false end.
Definition is_boolean (j : json) : bool := match j with JBool _ => true | _ => false end.
Definition is_number_integer (j : json) : bool :=
  match j with JInt _ | JUInt _ => true | _ => false end.
Definition is_number_unsigned (j : json) : bool :=
  match j with JUInt _ => true | _ => false end.
Definition is_number_float (j : json) : bool :=
  match j with JFloat _ => true | _ => false end.
Definition is_number (j : json) : bool := is_number_integer j || is_number_float j.
Definition is_string (j : json) : bool := match j with JString _ => true | _ => false end.
Definition is_array (j : json) : bool := match j with JArray _ => true | _ => false end.
Definition is_object (j : json) : bool := match j with JObject _ => true | _ => false end.

(** [j.find(k)]: [None] is [j.end()]. *)
Definition find (k : string) (j : json) : option json :=
  match j with JObject m => obj_find k m | _ => None end.

Definition contains (k : string) (j : json) : bool := bool_decide (is_Some (find k j)).

(** [it != j.end()] and the value at [it] satisfies [p]. *)
Definition it_is (p : json -> bool) (it : option json) : bool :=
  match it with Some v => p v | None => false end.
(** [it == j.end()] or the value at [it] satisfies [p]. *)
Definition it_none_or (p : json -> bool) (it : option json) : bool :=
  match it with Some v => p v | None => true end.

Lemma it_is_negb p it : it_is (negb ∘ p) it = negb (it_none_or p it).
Proof. by destruct it. Qed.

(** [it->is_string() && !it->get<std::string>().empty()] *)
Definition is_nonempty_string (j : json) : bool :=
  match j with JString s => negb (String.eqb s "") | _ => false end.

Definition empty (j : json) : bool :=
  match j with
  | JNull => true
  | JArray l => bool_decide (l = [])
  | JObject m => bool_decide (m = [])
  | _ => false
  end.

Definition size (j : json) : nat :=
  match j with
  | JNull => 0
  | JArray l => length l
  | JObject m => length m
  | _ => 1
  end.

(** The values a range-based for loop or [begin(), end()] goes through. *)
Definition elems (j : json) : list json :=
  match j with
  | JNull => []
  | JArray l => l
  | JObject m => m.*2
  | _ => [j]
  end.

(** [j.items()] and the [key(), value()] of iterators. *)
Definition items (j : json) : list (string * json) :=
  match j with
  | JNull => []
  | JArray l => imap (fun i v => (pretty (N.of_nat i), v)) l
  | JObject m => m
  | _ => [(""%string, j)]
  end.

(** ** Const element access *)

(** [const_reference operator[](key) const]: a missing key is undefined. *)
Definition cget (k : string) (j : json) : result json :=
  match j with
  | JObject m => match obj_find k m with Some v => Ok v | None => Undef end
  | _ => Throw (JsonTypeError 305)
  end.

(** [const_reference operator[](size_type idx) const] *)
Definition cget_idx (i : nat) (j : json) : result json :=
  match j with
  | JArray l => match l !! i with Some v => Ok v | None => Undef end
  | _ => Throw (JsonTypeError 305)
  end.

(** [const_reference at(key) const] *)
Definition at_ (k : string) (j : json) : result json :=
  match j with
  | JObject m =>
      match obj_find k m with Some v => Ok v | None => Throw (JsonOutOfRange 403) end
  | _ => Throw (JsonTypeError 304)
  end.

(** ** Conversions *)

Definition get_string (j : json) : result string :=
  match j with JString s => Ok s | _ => Throw (JsonTypeError 302) end.

Definition get_bool (j : json) : result bool :=
  match j with JBool b => Ok b | _ => Throw (JsonTypeError 302) end.

(** Truncation towards zero of a finite double. *)
Definition float_trunc (f : spec_float) : option Z :=
  match f with
  | S754_zero _ => Some 0
  | S754_finite s m e =>
      let a := if 0 <=? e then Z.pos m * 2 ^ e else Z.pos m / 2 ^ (- e) in
      Some (if s then - a else a)
  | S754_infinity _ | S754_nan => None
  end.

(** A floating point to integer conversion is undefined out of range. *)
Definition float_cast (lo hi : Z) (f : spec_float) : result Z :=
  match float_trunc f with
  | Some z => if (lo <=? z) && (z <=? hi) then Ok z else Undef
  | None => Undef
  end.

(** [get<uintW_t>()], for a type other than the library's own number types: a
    boolean converts too. *)
Definition get_uint (w : Z) (j : json) : result Z :=
  match j with
  | JUInt n => Ok (uint w n)
  | JInt z => Ok (uint w z)
  | JFloat f => float_cast 0 (2 ^ w - 1) f
  | JBool b => Ok (if b then 1 else 0)
  | _ => Throw (JsonTypeError 302)
  end.

(** [get<int32_t>()] and [get<int>()] *)
Definition get_int32 (j : json) : result Z :=
  match j with
  | JUInt n => Ok (sint 32 n)
  | JInt z => Ok (sint 32 z)
  | JFloat f => float_cast (- 2 ^ 31) (2 ^ 31 - 1) f
  | JBool b => Ok (if b then 1 else 0)
  | _ => Throw (JsonTypeError 302)
  end.

(** [get<int64_t>()]: the library's [number_integer_t]. *)
Definition get_int64 (j : json) : result Z :=
  match j with
  | JUInt n => Ok (sint 64 n)
  | JInt z => Ok z
  | JFloat f => float_cast (- 2 ^ 63) (2 ^ 63 - 1) f
  | _ => Throw (JsonTypeError 302)
  end.

(** ** Comparison *)

(** [static_cast<double>] of an integer. *)
Definition to_double (z : Z) : spec_float := binary_normalize 53 1024 z 0 false.

(** [operator==] *)
Fixpoint json_eq (a b : json) : bool :=
  match a, b with
  | JNull, JNull => true
  | JBool x, JBool y => Bool.eqb x y
  | JString x, JString y => String.eqb x y
  | JInt x, JInt y => x =? y
  | JUInt x, JUInt y => x =? y
  | JFloat x, JFloat y => SFeqb x y
  | JInt x, JFloat y => SFeqb (to_double x) y
  | JFloat x, JInt y => SFeqb x (to_double y)
  | JUInt x, JFloat y => SFeqb (to_double x) y
  | JFloat x, JUInt y => SFeqb x (to_double y)
  | JUInt x, JInt y => sint 64 x =? y
  | JInt x, JUInt y => x =? sint 64 y
  | JArray l, JArray l' =>
      (fix go (l l' : list json) : bool :=
        match l, l' with
        | [], [] => true
        | x :: l, y :: l' => json_eq x y && go l l'
        | _, _ => false
        end) l l'
  | JObject m, JObject m' =>
      (fix go (m m' : list (string * json)) : bool :=
        match m, m' with
        | [], [] => true
        | (k, x) :: m, (k', y) :: m' => String.eqb k k' && json_eq x y && go m m'
        | _, _ => false
        end) m m'
  | _, _ => false
  end.

(** ** Modifiers *)

(** The object a [operator[](key)] writes to: null becomes an empty object. *)
Definition as_object (j : json) : option (list (string * json)) :=
  match j with JNull => Some [] | JObject m => Some m | _ => None end.

(** The array a [operator[](idx)] or [push_back] writes to. *)
Definition as_array (j : json) : option (list json) :=
  match j with JNull => Some [] | JArray l => Some l | _ => None end.

(** [j[k] = v] *)
Definition set_key (k : string) (v : json) : M json unit := fun j =>
  match as_object j with
  | Some m => (Ok tt, JObject (obj_insert k v m))
  | None => (Throw (JsonTypeError 305), j)
  end.

(** Runs [f] on [j[k]] by reference: a missing key is first bound to null. *)
Definition at_key {A} (k : string) (f : M json A) : M json A := fun j =>
  match as_object j with
  | Some m =>
      let m := match obj_find k m with Some _ => m | None => obj_insert k JNull m end in
      let '(r, v) := f (default JNull (obj_find k m)) in
      (r, JObject (obj_replace k v m))
  | None => (Throw (JsonTypeError 305), j)
  end.

(** Runs [f] on the value an iterator obtained by [j.find(k)] points to. *)
Definition at_it {A} (k : string) (f : M json A) : M json A := fun j =>
  match j with
  | JObject m =>
      match obj_find k m with
      | Some v => let '(r, v') := f v in (r, JObject (obj_replace k v' m))
      | None => (Undef, j)
      end
  | _ => (Undef, j)
  end.

(** Runs [f] on [j[i]] by reference: the array is first filled up with nulls. *)
Definition at_idx {A} (i : nat) (f : M json A) : M json A := fun j =>
  match as_array j with
  | Some l =>
      let l := l ++ replicate (S i - length l) JNull in
      let '(r, v) := f (default JNull (l !! i)) in
      (r, JArray (<[i := v]> l))
  | None => (Throw (JsonTypeError 305), j)
  end.

(** [j.push_back(v)] *)
Definition push_back (v : json) : M json unit := fun j =>
  match as_array j with
  | Some l => (Ok tt, JArray (l ++ [v]))
  | None => (Throw (JsonTypeError 308), j)
  end.

(** [j.erase(k)] *)
Definition erase_key (k : string) : M json unit := fun j =>
  match j with
  | JObject m => (Ok tt, JObject (obj_erase k m))
  | _ => (Throw (JsonTypeError 307), j)
  end.

(** The loop of [for (auto& x : l) f(x)], stopping at the first exception. *)
Fixpoint each (f : M json unit) (l : list json) : result unit * list json :=
  match l with
  | [] => (Ok tt, [])
  | x :: l =>
      match f x with
      | (Ok _, x') => let '(r, l') := each f l in (r, x' :: l')
      | (r, x') => (r, x' :: l)
      end
  end.

(** [for (auto& x : j) f(x)]: the elements of an array, the values of an object,
    nothing for null, the value itself for the other types. *)
Definition for_each (f : M json unit) : M json unit := fun j =>
  match j with
  | JArray l => let '(r, l') := each f l in (r, JArray l')
  | JObject m => let '(r, l') := each f (m.*2) in (r, JObject (zip (m.*1) l'))
  | JNull => (Ok tt, JNull)
  | _ => f j
  end.

#[global] Arguments set_key : simpl never.
#[global] Arguments at_key : simpl never.
#[global] Arguments at_it : simpl never.
#[global] Arguments at_idx : simpl never.
#[global] Arguments push_back : simpl never.
#[global] Arguments erase_key : simpl never.
#[global] Arguments for_each : simpl never.

(** An object literal [{ {k1, v1}, {k2, v2}, ... }]. *)
Definition jobj (l : list (string * json)) : json :=
  JObject (foldl (fun m kv => obj_insert kv.1 kv.2 m) [] l).

(** ** Well-formedness: sorted objects, numbers within their 64 bits *)

Fixpoint sorted_keys (m : list (string * json)) : bool :=
  match m with
  | (k, _) :: (((k', _) :: _) as m') =>
      match String.compare k k' with Lt => sorted_keys m' | _ => false end
  | _ => true
  end.

Fixpoint json_wf (j : json) : bool :=
  match j with
  | JInt z => (- 2 ^ 63 <=? z) && (z <? 2 ^ 63)
  | JUInt n => (0 <=? n) && (n <? 2 ^ 64)
  | JArray l => forallb json_wf l
  | JObject m => sorted_keys m && forallb (fun kv => json_wf kv.2) m
  | _ => true
  end.

(** ** Conditional writes, as functions on objects *)

(** [if (b) m[k] = v;] *)
Definition obj_set_if (b : bool) (k : string) (v : json) (m : list (string * json)) :
    list (string * json) := if b then obj_insert k v m else m.

(** [m[k] = f(m[k])] for a key that is bound *)
Definition obj_update (k : string) (f : json -> json) (m : list (string * json)) :
    list (string * json) :=
  match obj_find k m with Some v => obj_replace k (f v) m | None => m end.

Definition on_object (f : list (string * json) -> list (string * json)) (j : json) : json :=
  match j with JObject m => JObject (f m) | _ => j end.

Definition object_with (p : list (string * json) -> bool) (j : json) : bool :=
  match j with JObject m => p m | _ => false end.

(** ** Laws of objects *)

Create Rewrite HintDb json.

Lemma obj_find_insert k k' v m :
  obj_find k (obj_insert k' v m) = if String.eqb k k' then Some v else obj_find k m.
Proof.
  induction m as [|[k1 v1] m IH]; simpl; [done|].
  destruct (str_compare_spec k' k1) as [->|Hlt|Hlt]; simpl.
  - by destruct (String.eqb k k1).
  - done.
  - rewrite IH. destruct (String.eqb_spec k k1), (String.eqb_spec k k'); subst; try done.
    by apply str_lt_irrefl in Hlt.
Qed.

Lemma obj_find_erase k k' m :
  obj_find k (obj_erase k' m) = if String.eqb k k' then None else obj_find k m.
Proof.
  unfold obj_erase. induction m as [|[k1 v1] m IH]; simpl; [by destruct (String.eqb k k')|].
  rewrite filter_cons. case_decide as Hk; simpl in *.
  - rewrite IH. destruct (String.eqb_spec k k1), (String.eqb_spec k k'); congruence.
  - rewrite IH. destruct (String.eqb_spec k k1), (String.eqb_spec k k');
      congruence.
Qed.

Lemma obj_insert_insert k v v' m :
  obj_insert k v (obj_insert k v' m) = obj_insert k v m.
Proof.
  induction m as [|[k1 v1] m IH]; simpl; [by rewrite str_compare_refl|].
  destruct (String.compare k k1) eqn:E; simpl; rewrite ?str_compare_refl, ?E; [done..|].
  by rewrite IH.
Qed.

Lemma obj_find_replace k k' v m :
  obj_find k (obj_replace k' v m) =
  if String.eqb k k' then (fun _ => v) <$> obj_find k m else obj_find k m.
Proof.
  induction m as [|[k1 v1] m IH]; simpl; [by destruct (String.eqb k k')|].
  destruct (String.eqb_spec k' k1) as [->|Hne]; simpl; [by destruct (String.eqb k k1)|].
  rewrite IH. destruct (String.eqb_spec k k1), (String.eqb_spec k k'); congruence.
Qed.

Lemma obj_find_set_if b k k' v m :
  obj_find k (obj_set_if b k' v m) =
  if String.eqb k k' then (if b then Some v else obj_find k m) else obj_find k m.
Proof. unfold obj_set_if. destruct b; [apply obj_find_insert|by destruct (String.eqb k k')]. Qed.

Lemma obj_find_update k k' f m :
  obj_find k (obj_update k' f m) =
  if String.eqb k k' then f <$> obj_find k m else obj_find k m.
Proof.
  unfold obj_update. destruct (obj_find k' m) eqn:E.
  - rewrite obj_find_replace. destruct (String.eqb_spec k k') as [->|]; [|done]. by rewrite E.
  - destruct (String.eqb_spec k k') as [->|]; [|done]. by rewrite E.
Qed.

Lemma obj_replace_id k v m : obj_find k m = Some v -> obj_replace k v m = m.
Proof.
  induction m as [|[k1 v1] m IH]; simpl; [done|].
  destruct (String.eqb k k1); [naive_solver|]. intros. by rewrite IH.
Qed.

Lemma obj_update_id k f m v :
  obj_find k m = Some v -> f v = v -> obj_update k f m = m.
Proof. unfold obj_update. intros Hf Hv. rewrite Hf, Hv. by apply obj_replace_id. Qed.

#[export] Hint Rewrite obj_find_insert obj_find_erase obj_find_replace obj_find_set_if
  obj_find_update obj_insert_insert : json.

(** Computes the lookups of the goal in objects built by the modifiers. *)
Ltac lookups := repeat (progress (autorewrite with json; simpl)).
Tactic Notation "lookups" "in" hyp(H) :=
  repeat (progress (autorewrite with json in H; simpl in H)).

Lemma sorted_keys_cons k v m :
  sorted_keys ((k, v) :: m) = true <->
  sorted_keys m = true /\ Forall (fun kv => str_lt k kv.1) m.
Proof.
  revert k v. induction m as [|[k1 v1] m IH]; intros k v; simpl; [naive_solver|].
  rewrite Forall_cons. simpl. fold (str_lt k k1).
  destruct (str_compare_spec k k1) as [->|Hlt|Hlt].
  - split; [done|]. intros (_ & H & _). by apply str_lt_irrefl in H.
  - change (sorted_keys ((k1, v1) :: m) = true <->
      sorted_keys ((k1, v1) :: m) = true /\ str_lt k k1 /\ Forall (fun kv => str_lt k kv.1) m).
    split; [|tauto]. intros H. split_and!; [done..|].
    apply IH in H as [_ H]. eapply Forall_impl; [done|].
    intros kv ?. by eapply str_lt_trans.
  - split; [done|]. intros (_ & H & _). exfalso.
    eapply str_lt_irrefl, str_lt_trans; eassumption.
Qed.

Lemma obj_insert_Forall (P : string * json -> Prop) k v m :
  P (k, v) -> Forall P m -> Forall P (obj_insert k v m).
Proof.
  intros Hk. induction 1 as [|[k1 v1] m ?? IH]; simpl; [by constructor|].
  destruct (String.compare k k1); repeat constructor; done.
Qed.

Lemma sorted_keys_insert k v m :
  sorted_keys m = true -> sorted_keys (obj_insert k v m) = true.
Proof.
  induction m as [|[k1 v1] m IH]; intros Hm; simpl; [done|].
  destruct (str_compare_spec k k1) as [->|Hlt|Hlt].
  - apply sorted_keys_cons in Hm as [? ?]. by apply sorted_keys_cons.
  - apply sorted_keys_cons. split; [done|]. constructor; [done|].
    apply sorted_keys_cons in Hm as [_ H]. eapply Forall_impl; [done|].
    intros kv ?. by eapply str_lt_trans.
  - apply sorted_keys_cons in Hm as [Hs Hf]. apply sorted_keys_cons. split; [auto|].
    by apply obj_insert_Forall.
Qed.

Lemma obj_replace_Forall (P : string * json -> Prop) k v m :
  (forall k', P (k', v)) -> Forall P m -> Forall P (obj_replace k v m).
Proof.
  intros Hv. induction 1 as [|[k1 v1] m ?? IH]; simpl; [by constructor|].
  destruct (String.eqb k k1); by constructor.
Qed.

Lemma sorted_keys_replace k v m :
  sorted_keys (obj_replace k v m) = sorted_keys m.
Proof.
  induction m as [|[k1 v1] m IH]; simpl; [done|].
  destruct (String.eqb k k1); destruct m as [|[k2 v2] m]; simpl in *; [done..|].
  destruct (String.eqb k k2); by rewrite IH.
Qed.

Lemma obj_erase_Forall (P : string * json -> Prop) k m :
  Forall P m -> Forall P (obj_erase k m).
Proof.
  unfold obj_erase. induction 1; simpl; [constructor|].
  rewrite filter_cons. case_decide; [by constructor|done].
Qed.

Lemma sorted_keys_erase k m :
  sorted_keys m = true -> sorted_keys (obj_erase k m) = true.
Proof.
  induction m as [|[k1 v1] m IH]; intros Hm; [done|].
  apply sorted_keys_cons in Hm as [Hs Hf].
  unfold obj_erase. rewrite filter_cons. case_decide; [|auto].
  apply sorted_keys_cons. split; [auto|]. by apply (obj_erase_Forall _ k).
Qed.

(** Writing back the value a sorted object already binds changes nothing. *)
Lemma obj_insert_id k v m :
  sorted_keys m = true -> obj_find k m = Some v -> obj_insert k v m = m.
Proof.
  induction m as [|[k1 v1] m IH]; intros Hm; simpl; [done|].
  destruct (String.eqb_spec k k1) as [->|Hne].
  - intros [= ->]. by rewrite str_compare_refl.
  - intros Hf. apply sorted_keys_cons in Hm as [Hs Ha].
    destruct (str_compare_spec k k1) as [->|Hlt|Hlt]; [done| |by rewrite IH].
    exfalso. clear IH Hs. induction m as [|[k2 v2] m IH]; [done|].
    apply Forall_cons in Ha as [Hk Ha]. simpl in *.
    destruct (String.eqb_spec k k2) as [->|]; [|auto].
    eapply str_lt_irrefl, str_lt_trans; eassumption.
Qed.

Lemma obj_erase_id k m : obj_find k m = None -> obj_erase k m = m.
Proof.
  unfold obj_erase. induction m as [|[k1 v1] m IH]; simpl; [done|].
  rewrite filter_cons. destruct (String.eqb_spec k k1); [done|].
  intros. rewrite decide_True by (simpl; congruence). by rewrite IH.
Qed.

Lemma obj_find_Forall (P : json -> Prop) k v m :
  Forall (fun kv => P kv.2) m -> obj_find k m = Some v -> P v.
Proof.
  induction 1 as [|[k1 v1] m ?? IH]; simpl; [done|].
  destruct (String.eqb k k1); naive_solver.
Qed.

(** ** Preservation of well-formedness *)

Lemma json_wf_object m :
  json_wf (JObject m) = true <->
  sorted_keys m = true /\ Forall (fun kv => json_wf kv.2 = true) m.
Proof.
  simpl. rewrite andb_true_iff. rewrite forallb_forall, <- List.Forall_forall. done.
Qed.

Lemma json_wf_array l : json_wf (JArray l) = true <-> Forall (fun j => json_wf j = true) l.
Proof. simpl. by rewrite forallb_forall, <- List.Forall_forall. Qed.

Lemma json_wf_insert k v m :
  json_wf (JObject m) = true -> json_wf v = true ->
  json_wf (JObject (obj_insert k v m)) = true.
Proof.
  rewrite !json_wf_object. intros [? ?] ?. split; [by apply sorted_keys_insert|].
  by apply obj_insert_Forall.
Qed.

Lemma json_wf_erase k m :
  json_wf (JObject m) = true -> json_wf (JObject (obj_erase k m)) = true.
Proof.
  rewrite !json_wf_object. intros [? ?].
  split; [by apply sorted_keys_erase|by apply obj_erase_Forall].
Qed.

Lemma json_wf_find k j v : json_wf j = true -> find k j = Some v -> json_wf v = true.
Proof.
  destruct j; simpl find; try done. rewrite json_wf_object. intros [_ ?].
  by apply (obj_find_Forall (fun j => json_wf j = true)).
Qed.

Lemma json_wf_set_if b k v m :
  json_wf (JObject m) = true -> json_wf v = true ->
  json_wf (JObject (obj_set_if b k v m)) = true.
Proof. destruct b; simpl obj_set_if; [apply json_wf_insert|done]. Qed.

Lemma json_wf_update k f m :
  json_wf (JObject m) = true ->
  (forall v, obj_find k m = Some v -> json_wf v = true -> json_wf (f v) = true) ->
  json_wf (JObject (obj_update k f m)) = true.
Proof.
  intros Hm Hf. unfold obj_update. destruct (obj_find k m) as [v|] eqn:E; [|done].
  pose proof (json_wf_find k (JObject m) v Hm E) as Hv.
  apply json_wf_object in Hm as [Hs Hm]. apply json_wf_object.
  rewrite sorted_keys_replace. split; [done|]. apply obj_replace_Forall; [|done].
  intros k'. simpl. auto.
Qed.

#[export] Hint Resolve json_wf_insert json_wf_erase json_wf_find json_wf_set_if : msc.

(** ** Running modifiers *)

Lemma run_set_key k v m : set_key k v (JObject m) = (Ok tt, JObject (obj_insert k v m)).
Proof. reflexivity. Qed.
Lemma run_bind_set_key {B} k v m (f : unit -> M json B) :
  bind (set_key k v) f (JObject m) = f tt (JObject (obj_insert k v m)).
Proof. reflexivity. Qed.
Lemma run_when_set b k v m :
  when b (set_key k v) (JObject m) = (Ok tt, JObject (obj_set_if b k v m)).
Proof. by destruct b. Qed.
Lemma run_bind_when_set {B} b k v m (f : unit -> M json B) :
  bind (when b (set_key k v)) f (JObject m) = f tt (JObject (obj_set_if b k v m)).
Proof. by destruct b. Qed.
Lemma run_when_erase o k m :
  obj_find k m = o ->
  when (bool_decide (is_Some o)) (erase_key k) (JObject m) = (Ok tt, JObject (obj_erase k m)).
Proof.
  intros <-. case_bool_decide as H; [done|]. rewrite obj_erase_id; [done|].
  by apply eq_None_not_Some.
Qed.
Lemma run_at_it {A} k (f : M json A) m v r v' :
  obj_find k m = Some v -> f v = (r, v') ->
  at_it k f (JObject m) = (r, JObject (obj_replace k v' m)).
Proof. intros Hk Hf. unfold at_it. by rewrite Hk, Hf. Qed.

#[export] Hint Rewrite @run_set_key @run_bind_set_key @run_when_set @run_bind_when_set
  : msc_run.
#[global] Arguments json_wf : simpl never.
