(* ===== verification/Regex.v ===== *)
(** * ECMAScript regular expressions

    The matching the code asks of std::regex: a backtracking matcher in
    continuation-passing style that tries alternatives from left to right and
    repetitions greedily, and records the sub-matches.  [rel] is its declarative
    counterpart. *)

From S2P Require Import Prelude.

Inductive regex :=
| REps
| RChar (p : Ascii.ascii -> bool)
| RSeq (r1 r2 : regex)
| RAlt (r1 r2 : regex)
| RStar (r : regex)
| ROpt (r : regex)
| RGroup (i : nat) (r : regex)
| RBol
| REol.

Definition RPlus (r : regex) : regex := RSeq r (RStar r).

(** Sub-matches, the latest first. *)
Abbreviation captures := (list (nat * string)).

(** What was read of [s] when [s'] is left. *)
Definition consumed (s s' : string) : string :=
  String.substring 0 (String.length s - String.length s') s.

Definition shorter (s' s : string) : bool := Nat.ltb (String.length s') (String.length s).

(** [n] is the length of the whole target, where [^] holds. *)
Fixpoint rmatch {A} (n : nat) (r : regex) (s : string) (c : captures)
    (k : string -> captures -> option A) : option A :=
  match r with
  | REps => k s c
  | RChar p =>
      match s with
      | String a s' => if p a then k s' c else None
      | EmptyString => None
      end
  | RSeq r1 r2 => rmatch n r1 s c (fun s' c' => rmatch n r2 s' c' k)
  | RAlt r1 r2 =>
      match rmatch n r1 s c k with
      | Some x => Some x
      | None => rmatch n r2 s c k
      end
  | RStar r =>
      (fix go (fuel : nat) (s : string) (c : captures) : option A :=
        match fuel with
        | O => k s c
        | S fuel =>
            match rmatch n r s c
                    (fun s' c' => if shorter s' s then go fuel s' c' else None) with
            | Some x => Some x
            | None => k s c
            end
        end) (String.length s) s c
  | ROpt r =>
      match rmatch n r s c (fun s' c' => if shorter s' s then k s' c' else None) with
      | Some x => Some x
      | None => k s c
      end
  | RGroup i r => rmatch n r s c (fun s' c' => k s' ((i, consumed s s') :: c'))
  | RBol => if Nat.eqb (String.length s) n then k s c else None
  | REol => match s with EmptyString => k s c | _ => None end
  end.

(** [std::regex_match(s, match, r)]: the sub-matches, [None] for no match. *)
Definition regex_match (r : regex) (s : string) : option captures :=
  rmatch (String.length s) r s []
    (fun s' c => match s' with EmptyString => Some c | _ => None end).

(** [match[i].str()]: empty for a group that did not take part. *)
Definition sub (i : nat) (c : captures) : string :=
  match base.filter (fun p => p.1 = i) c with
  | (_, s) :: _ => s
  | [] => ""
  end.

(** [std::regex_search(s, match, r)]: what precedes the match, what follows it,
    and the sub-matches. *)
Fixpoint search_from (n : nat) (r : regex) (pre : string) (s : string) :
    option (string * string * captures) :=
  match rmatch n r s [] (fun s' c => Some (s', c)) with
  | Some (s', c) => Some (pre, s', c)
  | None =>
      match s with
      | EmptyString => None
      | String a s' => search_from n r (pre +:+ String a "") s'
      end
  end.

Definition regex_search (r : regex) (s : string) : option (string * string * captures) :=
  search_from (String.length s) r "" s.

(** ** Pattern notation *)

Definition ch (a : Ascii.ascii) : regex := RChar (Ascii.eqb a).
Definition ch_i (a : Ascii.ascii) : regex :=
  RChar (fun b => Ascii.eqb (ascii_lower a) (ascii_lower b)).

Fixpoint lit (s : string) : regex :=
  match s with EmptyString => REps | String a s => RSeq (ch a) (lit s) end.
(** A literal under the [icase] flag. *)
Fixpoint lit_i (s : string) : regex :=
  match s with EmptyString => REps | String a s => RSeq (ch_i a) (lit_i s) end.

(** A sequence, and an alternative, of several patterns. *)
Definition seqs (l : list regex) : regex := foldr RSeq REps l.
Fixpoint alts (l : list regex) : regex :=
  match l with
  | [] => RChar (fun _ => false)
  | [r] => r
  | r :: l => RAlt r (alts l)
  end.

Definition code_in (lo hi : N) (a : Ascii.ascii) : bool :=
  let n := Ascii.N_of_ascii a in (N.leb lo n && N.leb n hi).

Definition is_digit : Ascii.ascii -> bool := code_in 48 57.
Definition is_space (a : Ascii.ascii) : bool := code_in 9 13 a || code_in 32 32 a.
Definition is_word (a : Ascii.ascii) : bool :=
  is_digit a || code_in 65 90 a || code_in 97 122 a || code_in 95 95 a.
(** [.] excludes the line terminators. *)
Definition is_dot (a : Ascii.ascii) : bool := negb (code_in 10 10 a || code_in 13 13 a).
Definition one_of (s : string) (a : Ascii.ascii) : bool :=
  existsb (Ascii.eqb a) (String.list_ascii_of_string s).

(** ** Declarative semantics *)

Inductive rel (n : nat) : regex -> string -> captures -> string -> captures -> Prop :=
| rel_eps s c : rel n REps s c s c
| rel_char p a s c : p a = true -> rel n (RChar p) (String a s) c s c
| rel_seq r1 r2 s c s1 c1 s2 c2 :
    rel n r1 s c s1 c1 -> rel n r2 s1 c1 s2 c2 -> rel n (RSeq r1 r2) s c s2 c2
| rel_alt_l r1 r2 s c s' c' : rel n r1 s c s' c' -> rel n (RAlt r1 r2) s c s' c'
| rel_alt_r r1 r2 s c s' c' : rel n r2 s c s' c' -> rel n (RAlt r1 r2) s c s' c'
| rel_star_done r s c : rel n (RStar r) s c s c
| rel_star_more r s c s1 c1 s2 c2 :
    rel n r s c s1 c1 -> shorter s1 s = true ->
    rel n (RStar r) s1 c1 s2 c2 -> rel n (RStar r) s c s2 c2
| rel_opt_none r s c : rel n (ROpt r) s c s c
| rel_opt_some r s c s' c' :
    rel n r s c s' c' -> shorter s' s = true -> rel n (ROpt r) s c s' c'
| rel_group i r s c s' c' :
    rel n r s c s' c' -> rel n (RGroup i r) s c s' ((i, consumed s s') :: c')
| rel_bol s c : String.length s = n -> rel n RBol s c s c
| rel_eol c : rel n REol "" c "" c.

(** A match the engine reports is a match of the declarative semantics. *)
Lemma rmatch_sound {A} n r s c (k : string -> captures -> option A) x :
  rmatch n r s c k = Some x -> exists s' c', rel n r s c s' c' /\ k s' c' = Some x.
Proof.
  revert s c k. induction r as [|p|r1 IH1 r2 IH2|r1 IH1 r2 IH2|r IH|r IH|i r IH| |];
    intros s c k; simpl.
  - eauto using rel.
  - destruct s as [|a s]; [done|]. destruct (p a) eqn:?; [|done]. eauto using rel.
  - intros (s1 & c1 & ? & H)%IH1. apply IH2 in H as (s2 & c2 & ? & ?). eauto using rel.
  - destruct (rmatch n r1 s c k) eqn:E.
    + intros [= <-]. apply IH1 in E as (? & ? & ? & ?). eauto using rel.
    + intros (? & ? & ? & ?)%IH2. eauto using rel.
  - generalize (String.length s) as fuel. intros fuel. revert s c.
    induction fuel as [|fuel IHf]; intros s c; [eauto using rel|].
    destruct (rmatch n r s c _) eqn:E; [|eauto using rel]. intros [= <-].
    apply IH in E as (s1 & c1 & ? & H). destruct (shorter s1 s) eqn:?; [|done].
    apply IHf in H as (? & ? & ? & ?). eauto using rel.
  - destruct (rmatch n r s c _) eqn:E; [|eauto using rel]. intros [= <-].
    apply IH in E as (s1 & c1 & ? & H). destruct (shorter s1 s) eqn:?; [|done].
    eauto using rel.
  - intros (s1 & c1 & ? & ?)%IH. eauto using rel.
  - destruct (Nat.eqb_spec (String.length s) n); [|done]. eauto using rel.
  - destruct s; [|done]. eauto using rel.
Qed.

(** The engine finds a match whenever there is one the continuation accepts. *)
Lemma rmatch_complete {A} n r s c s' c' (k : string -> captures -> option A) :
  rel n r s c s' c' -> is_Some (k s' c') -> is_Some (rmatch n r s c k).
Proof.
  revert s c s' c' k. induction r as [|p|r1 IH1 r2 IH2|r1 IH1 r2 IH2|r IH|r IH|i r IH| |];
    intros s c s' c' k Hrel Hk; simpl.
  - by inversion Hrel; subst.
  - inversion Hrel as [|? ? ? ? Hp| | | | | | | | | |]; subst. by rewrite Hp.
  - inversion Hrel; subst. eapply IH1; [done|]. simpl. by eapply IH2.
  - destruct (rmatch n r1 s c k) eqn:E; [done|]. inversion Hrel; subst; [|by eapply IH2].
    eapply IH1 in Hk as [? Hk]; [|done]. by rewrite E in Hk.
  - match goal with |- is_Some (?go (String.length s) s c) =>
      enough (forall fuel, (String.length s <= fuel)%nat -> is_Some (go fuel s c)) by auto
    end.
    remember (RStar r) as r' eqn:Hr. revert Hr Hk.
    induction Hrel as [| | | | | |? ? ? s1 c1 ? ? H1 _ Hsh H2 IH2| | | | |];
      intros [= ->] Hk fuel Hlen.
    + destruct fuel; [done|]. by destruct (rmatch _ _ _ _ _).
    + pose proof (proj1 (Nat.ltb_lt _ _) Hsh) as Hsh'.
      destruct fuel as [|fuel]; [lia|].
      match goal with |- context [rmatch n r s c ?f] =>
        destruct (rmatch n r s c f) eqn:E; [done|];
        destruct (IH s c s1 c1 f) as [? Hx]; [done| |by rewrite E in Hx]
      end.
      rewrite Hsh. apply IH2; [done|done|lia].
  - destruct (rmatch n r s c _) eqn:E; [done|]. inversion Hrel; subst; [done|].
    match goal with H : rel n r _ _ _ _, Hs : shorter _ _ = true |- _ =>
      match type of E with rmatch _ _ _ _ ?f = _ =>
        destruct (IH _ _ _ _ f H) as [? Hx]; [by rewrite Hs|by rewrite E in Hx]
      end
    end.
  - inversion Hrel; subst. by eapply IH.
  - inversion Hrel; subst. by rewrite Nat.eqb_refl.
  - by inversion Hrel; subst.
Qed.

(** [regex_match] decides whether the pattern matches the whole target. *)
Lemma regex_match_spec r s :
  is_Some (regex_match r s) <-> exists c, rel (String.length s) r s [] "" c.
Proof.
  unfold regex_match. split.
  - intros [c (s' & c' & ? & H)%rmatch_sound]. destruct s'; naive_solver.
  - intros [c H]. eapply rmatch_complete; [done|]. eauto.
Qed.

Lemma regex_match_rel r s c :
  regex_match r s = Some c -> rel (String.length s) r s [] "" c.
Proof. intros (s' & c' & ? & H)%rmatch_sound. by destruct s'; simplify_eq. Qed.

(** ** Patterns built from literals and character classes *)

Fixpoint all_chars (p : Ascii.ascii -> bool) (s : string) : bool :=
  match s with EmptyString => true | String a s => p a && all_chars p s end.

Lemma str_app_assoc (a b c : string) : (a +:+ b) +:+ c = a +:+ (b +:+ c).
Proof. induction a; simpl; congruence. Qed.
Lemma str_app_nil_r (a : string) : a +:+ "" = a.
Proof. induction a; simpl; congruence. Qed.
Lemma str_length_app (a b : string) :
  String.length (a +:+ b) = (String.length a + String.length b)%nat.
Proof. induction a as [|x a IH]; [done|]. simpl. by rewrite IH. Qed.

Lemma substring_all_app (a b : string) : String.substring 0 (String.length a) (a +:+ b) = a.
Proof. induction a as [|x a IH]; simpl; [by destruct b|]. by rewrite IH. Qed.

Lemma consumed_app (w s : string) : consumed (w +:+ s) s = w.
Proof.
  unfold consumed. rewrite str_length_app.
  replace (_ + _ - _)%nat with (String.length w) by lia. apply substring_all_app.
Qed.

Lemma rel_lit_i n w s c s' c' :
  rel n (lit_i w) s c s' c' <-> c' = c /\ exists w', s = w' +:+ s' /\ tolower w' = tolower w.
Proof.
  revert s. induction w as [|a w IH]; intros s; simpl.
  - split.
    + inversion 1; subst. split; [done|]. by exists "".
    + intros (-> & w' & -> & Hw). destruct w'; [apply rel_eps|done].
  - split.
    + inversion 1 as [| |? ? ? ? ? ? ? ? H1 H2| | | | | | | | |]; subst.
      inversion H1 as [|? b ? ? Hb| | | | | | | | | |]; subst.
      apply IH in H2 as (-> & w' & -> & <-). split; [done|]. exists (String b w').
      apply Ascii.eqb_eq in Hb. simpl. by rewrite Hb.
    + intros (-> & w' & -> & Hw). destruct w' as [|b w']; simplify_eq/=.
      econstructor; [constructor; by apply Ascii.eqb_eq|]. apply IH. eauto.
Qed.

Lemma rel_star_class n p s c s' c' :
  rel n (RStar (RChar p)) s c s' c' <->
  c' = c /\ exists w, s = w +:+ s' /\ all_chars p w = true.
Proof.
  split.
  - remember (RStar (RChar p)) as r eqn:Hr.
    induction 1 as [| | | | | |? ? ? ? ? ? ? H1 _ _ H2 IH| | | | |]; simplify_eq.
    + split; [done|]. by exists "".
    + inversion H1 as [|? b ? ? Hb| | | | | | | | | |]; subst.
      destruct IH as (-> & w & -> & Hw); [done|]. split; [done|].
      exists (String b w). simpl. by rewrite Hb, Hw.
  - intros (-> & w & -> & Hw). induction w as [|a w IH]; simpl in *; [constructor|].
    apply andb_true_iff in Hw as [Ha Hw].
    econstructor; [by constructor| |by apply IH].
    unfold shorter. simpl. apply Nat.ltb_lt. lia.
Qed.

Lemma rel_plus_class n p s c s' c' :
  rel n (RPlus (RChar p)) s c s' c' <->
  c' = c /\ exists w, s = w +:+ s' /\ w <> "" /\ all_chars p w = true.
Proof.
  split.
  - inversion 1 as [| |? ? ? ? ? ? ? ? H1 H2| | | | | | | | |]; subst.
    inversion H1 as [|? b ? ? Hb| | | | | | | | | |]; subst.
    apply rel_star_class in H2 as (-> & w & -> & Hw). split; [done|].
    exists (String b w). simpl. by rewrite Hb.
  - intros (-> & w & -> & Hne & Hw). destruct w as [|a w]; [done|]. simpl in *.
    apply andb_true_iff in Hw as [Ha Hw].
    econstructor; [by constructor|]. apply rel_star_class. eauto.
Qed.

(** A capturing group around a pattern that leaves the captures alone. *)
Lemma rel_group_inv n i r s c s' c' :
  rel n (RGroup i r) s c s' c' <->
  exists c1, rel n r s c s' c1 /\ c' = (i, consumed s s') :: c1.
Proof. split; [inversion 1; subst; eauto|intros (? & ? & ->); by constructor]. Qed.
Lemma rel_seq_inv n r1 r2 s c s' c' :
  rel n (RSeq r1 r2) s c s' c' <->
  exists s1 c1, rel n r1 s c s1 c1 /\ rel n r2 s1 c1 s' c'.
Proof. split; [inversion 1; subst; eauto|intros (? & ? & ? & ?); by econstructor]. Qed.
Lemma rel_alt_inv n r1 r2 s c s' c' :
  rel n (RAlt r1 r2) s c s' c' <-> rel n r1 s c s' c' \/ rel n r2 s c s' c'.
Proof. split; [inversion 1; subst; eauto|intros [?|?]; by constructor]. Qed.
Lemma rel_bol_inv n s c s' c' :
  rel n RBol s c s' c' <-> s' = s /\ c' = c /\ String.length s = n.
Proof. split; [inversion 1; subst; eauto|intros (-> & -> & ?); by constructor]. Qed.
Lemma rel_eol_inv n s c s' c' :
  rel n REol s c s' c' <-> s = "" /\ s' = "" /\ c' = c.
Proof. split; [inversion 1; subst; eauto|intros (-> & -> & ->); by constructor]. Qed.
