(* ===== verification/Strings.v ===== *)
(** * Strings and numbers of the C++ standard library

    std::getline, std::stoull and its relatives, std::isspace trimming, and the
    extraction of numbers from a stream as [facet.num.get.virtuals] of the C++
    standard describes it, with correctly rounded conversion to binary floating
    point. *)

From Stdlib Require Import Ascii Floats.SpecFloat.
From stdpp Require Import pretty.
From S2P Require Import Prelude Regex.

(** ** Numbers in strings *)

Fixpoint drop_spaces (s : string) : string :=
  match s with
  | String a s' => if is_space a then drop_spaces s' else s
  | EmptyString => ""
  end.

(** The value of the digits at the start of [s], after [acc]. *)
Fixpoint digits_from (acc : Z) (s : string) : Z :=
  match s with
  | String a s' =>
      if is_digit a then digits_from (10 * acc + (Z.of_N (N_of_ascii a) - 48)) s' else acc
  | EmptyString => acc
  end.

Definition starts_with_digit (s : string) : bool :=
  match s with String a _ => is_digit a | EmptyString => false end.

(** The sign and the rest of a number. *)
Definition split_sign (s : string) : bool * string :=
  match s with
  | String a s' =>
      if Ascii.eqb a "-"%char then (true, s')
      else if Ascii.eqb a "+"%char then (false, s') else (false, s)
  | EmptyString => (false, s)
  end.

(** [std::stoull(s)]: the number a string starts with; a negated one wraps around. *)
Definition stoull (s : string) : result Z :=
  let '(neg, s) := split_sign (drop_spaces s) in
  if starts_with_digit s then
    let n := digits_from 0 s in
    if 2 ^ 64 <=? n then Throw StdOutOfRange
    else Ok (if neg then uint 64 (- n) else n)
  else Throw StdInvalidArgument.

(** [std::stoul(s)], for the 64 bit [unsigned long] of the LP64 targets. *)
Definition stoul : string -> result Z := stoull.

(** [std::stoi(s)] *)
Definition stoi (s : string) : result Z :=
  let '(neg, s) := split_sign (drop_spaces s) in
  if starts_with_digit s then
    let n := if neg then - digits_from 0 s else digits_from 0 s in
    if (- 2 ^ 31 <=? n) && (n <? 2 ^ 31) then Ok n else Throw StdOutOfRange
  else Throw StdInvalidArgument.

(** ** Lines and blanks *)

(** [std::getline(stream, token, delimiter)] in a loop: the end of the string ends
    the last token, unless nothing is left. *)
Fixpoint split_go (delimiter : ascii) (token : string) (s : string) : list string :=
  match s with
  | EmptyString => match token with EmptyString => [] | _ => [token] end
  | String a s' =>
      if Ascii.eqb a delimiter then token :: split_go delimiter "" s'
      else split_go delimiter (token +:+ String a "") s'
  end.
Definition getlines (delimiter : ascii) (s : string) : list string := split_go delimiter "" s.

Fixpoint str_rev (s : string) : string :=
  match s with EmptyString => "" | String a s => str_rev s +:+ String a "" end.

(** Erases the blanks at both ends. *)
Definition trim (str : string) : string := str_rev (drop_spaces (str_rev (drop_spaces str))).

(** ** Extraction of integers

    [iss >> std::noskipws >> x] followed by [iss.eof() && !iss.fail()]: the value when
    the whole string is a number of the type. *)

Definition is_digits (s : string) : bool := negb (String.eqb s "") && all_chars is_digit s.

Definition extract_signed (w : Z) (s : string) : option Z :=
  let '(neg, s) := split_sign s in
  if is_digits s then
    let n := if neg then - digits_from 0 s else digits_from 0 s in
    if (- 2 ^ (w - 1) <=? n) && (n <? 2 ^ (w - 1)) then Some n else None
  else None.

(** A negated number wraps around. *)
Definition extract_unsigned (w : Z) (s : string) : option Z :=
  let '(neg, s) := split_sign s in
  if is_digits s then
    let n := digits_from 0 s in
    if n <? 2 ^ w then Some (if neg then uint w (- n) else n) else None
  else None.

(** ** Extraction of floating point numbers *)

(** [n / d] rounded to an integer, ties to even. *)
Definition round_half_even (n d : Z) : Z :=
  let q := n / d in
  let r := n mod d in
  if 2 * r <? d then q
  else if d <? 2 * r then q + 1
  else if Z.even q then q else q + 1.

(** The floating point number with [prec] digits and least exponent [emin] nearest to
    the positive rational [n / d], ties to even, as mantissa and exponent. *)
Definition round_binary (prec emin n d : Z) : Z * Z :=
  let l := Z.log2 n - Z.log2 d in
  let ge := if 0 <=? l then d * 2 ^ l <=? n else d <=? n * 2 ^ (- l) in
  let e := Z.max emin ((if ge then l else l - 1) - prec + 1) in
  let m := if 0 <=? e then round_half_even n (d * 2 ^ e)
           else round_half_even (n * 2 ^ (- e)) d in
  if m =? 2 ^ prec then (2 ^ (prec - 1), e + 1) else (m, e).

(** [None] when the rational is too large for the format. *)
Definition round_ratio (prec emax : Z) (neg : bool) (n d : Z) : option spec_float :=
  let '(m, e) := round_binary prec (3 - emax - prec) n d in
  match m with
  | Z.pos p => if emax <? e + prec then None else Some (S754_finite neg p e)
  | _ => Some (S754_zero neg)
  end.

Fixpoint span (p : ascii -> bool) (s : string) : string * string :=
  match s with
  | String a s' => if p a then let '(w, r) := span p s' in (String a w, r) else ("", s)
  | EmptyString => ("", "")
  end.

Definition is_xdigit (a : ascii) : bool := is_digit a || code_in 65 70 a || code_in 97 102 a.
Definition digit_value (a : ascii) : Z :=
  let n := Z.of_N (N_of_ascii a) in
  if n <? 58 then n - 48 else if n <? 71 then n - 55 else n - 87.
Fixpoint radix_value (b acc : Z) (s : string) : Z :=
  match s with
  | String a s => radix_value b (b * acc + digit_value a) s
  | EmptyString => acc
  end.

(** The digits before and after the point, and what follows. *)
Definition significand (p : ascii -> bool) (s : string) : string * string * string :=
  let '(ip, s) := span p s in
  match s with
  | String a s' =>
      if Ascii.eqb a "."%char then let '(fp, r) := span p s' in (ip, fp, r) else (ip, "", s)
  | EmptyString => (ip, "", s)
  end.

(** [e], a sign and digits, or nothing *)
Definition decimal_exponent_field (s : string) : option Z :=
  match s with
  | EmptyString => Some 0
  | String a s =>
      if one_of "eE" a then
        let '(neg, s) := split_sign s in
        if is_digits s then Some (if neg then - digits_from 0 s else digits_from 0 s) else None
      else None
  end.

(** A string that is a floating point field as a whole: the sign, and the value
    [m * b ^ e] as [(m, b, e)]. *)
Definition float_field (s : string) : option (bool * (Z * Z * Z)) :=
  let '(neg, s) := split_sign s in
  let hex := match s with String "0" (String a _) => one_of "xX" a | _ => false end in
  let '(ip, fp, r) :=
    if hex then significand is_xdigit (String.substring 2 (String.length s) s)
    else significand is_digit s in
  let frac := Z.of_nat (String.length fp) in
  if String.eqb (ip +:+ fp) "" then None
  else if hex then
    if String.eqb r "" then Some (neg, (radix_value 16 0 (ip +:+ fp), 16, - frac)) else None
  else
    match decimal_exponent_field r with
    | Some x => Some (neg, (radix_value 10 0 (ip +:+ fp), 10, x - frac))
    | None => None
    end.

(** [m * b ^ e] as a fraction *)
Definition ratio (m b e : Z) : Z * Z := if 0 <=? e then (m * b ^ e, 1) else (m, b ^ (- e)).

Definition extract_float (prec emax : Z) (s : string) : option spec_float :=
  match float_field s with
  | Some (neg, (m, b, e)) =>
      if m =? 0 then Some (S754_zero neg)
      else let '(n, d) := ratio m b e in round_ratio prec emax neg n d
  | None => None
  end.

(** [std::stod(s)] of a string that is a floating point field as a whole: a value
    below the normal range is out of range too. *)
Definition stod (s : string) : result spec_float :=
  match float_field s with
  | Some (neg, (m, b, e)) =>
      if m =? 0 then Ok (S754_zero neg)
      else
        let '(n, d) := ratio m b e in
        match round_ratio 53 1024 neg n d with
        | Some f => if n * 2 ^ 1022 <? d then Throw StdOutOfRange else Ok f
        | None => Throw StdOutOfRange
        end
  | None => Throw StdInvalidArgument
  end.

(** ** Decimal text *)

Lemma pretty_N_go_nonempty x s : s <> "" \/ (0 < x)%N -> pretty_N_go x s <> "".
Proof.
  revert s. induction (N.lt_wf_0 x) as [x _ IH]; intros s H.
  destruct (decide (x = 0)%N) as [->|Hx].
  - rewrite pretty_N_go_0. by destruct H as [?|?%N.lt_irrefl].
  - rewrite pretty_N_go_step by lia. apply IH; [apply N.div_lt; lia|by left].
Qed.

Lemma to_string_nonempty z : to_string z <> "".
Proof.
  destruct z as [|p|p]; try done. unfold to_string, pretty, pretty_Z, pretty, pretty_positive,
    pretty, pretty_N. rewrite decide_False by done. apply pretty_N_go_nonempty. right. lia.
Qed.

Lemma pretty_N_char_digit x : (x < 10)%N ->
  is_digit (pretty_N_char x) = true /\ Z.of_N (N_of_ascii (pretty_N_char x)) - 48 = Z.of_N x.
Proof.
  intros H. assert (x = 0 \/ x = 1 \/ x = 2 \/ x = 3 \/ x = 4 \/ x = 5 \/ x = 6 \/ x = 7 \/ x = 8 \/
    x = 9)%N as Hx by lia.
  by destruct Hx as [->|[->|[->|[->|[->|[->|[->|[->|[->| ->]]]]]]]]].
Qed.

Lemma digits_from_pretty x s : digits_from 0 (pretty_N_go x s) = digits_from (Z.of_N x) s.
Proof.
  revert s. induction (N.lt_wf_0 x) as [x _ IH]; intros s.
  destruct (decide (x = 0)%N) as [->|Hx]; [by rewrite pretty_N_go_0|].
  rewrite pretty_N_go_step by lia. rewrite IH by (apply N.div_lt; lia).
  pose proof (N.mod_lt x 10 ltac:(lia)) as Hm. destruct (pretty_N_char_digit _ Hm) as [Hd Hv].
  cbn [digits_from]. rewrite Hd, Hv. f_equal.
  pose proof (N.div_mod x 10 ltac:(lia)). lia.
Qed.

Lemma all_digits_pretty x s :
  all_chars is_digit s = true -> all_chars is_digit (pretty_N_go x s) = true.
Proof.
  revert s. induction (N.lt_wf_0 x) as [x _ IH]; intros s Hs.
  destruct (decide (x = 0)%N) as [->|Hx]; [by rewrite pretty_N_go_0|].
  rewrite pretty_N_go_step by lia. apply IH; [apply N.div_lt; lia|]. simpl.
  by rewrite (proj1 (pretty_N_char_digit _ (N.mod_lt x 10 ltac:(lia)))), Hs.
Qed.

Lemma to_string_digits z :
  0 <= z -> all_chars is_digit (to_string z) = true /\ digits_from 0 (to_string z) = z.
Proof.
  intros Hz. destruct z as [|p|p]; [done| |lia].
  unfold to_string, pretty, pretty_Z, pretty, pretty_positive, pretty, pretty_N.
  rewrite decide_False by done. split; [by apply all_digits_pretty|].
  by rewrite digits_from_pretty.
Qed.

Lemma digit_plain a :
  is_digit a = true -> is_space a = false /\ Ascii.eqb a "-"%char = false /\
    Ascii.eqb a "+"%char = false /\ Ascii.eqb a " "%char = false.
Proof. destruct a as [[] [] [] [] [] [] [] []]; done. Qed.

(** Reading back a written number. *)
Lemma stoull_to_string z : 0 <= z < 2 ^ 64 -> stoull (to_string z) = Ok z.
Proof.
  intros Hz. destruct (to_string_digits z) as [Hd Hv]; [lia|].
  pose proof (to_string_nonempty z) as Hne. unfold stoull.
  destruct (to_string z) as [|a s] eqn:E; [done|]. clear Hne. simpl in Hd.
  apply andb_true_iff in Hd as [Ha _]. destruct (digit_plain a Ha) as (Hs & Hm & Hp & _).
  unfold drop_spaces. rewrite Hs. unfold split_sign. rewrite Hm, Hp. unfold starts_with_digit.
  rewrite Ha, Hv. destruct (Z.leb_spec (2 ^ 64) z); [lia|done].
Qed.

Lemma split_sign_to_string z : 0 <= z -> split_sign (to_string z) = (false, to_string z).
Proof.
  intros Hz. destruct (to_string_digits z Hz) as [Hd _].
  destruct (to_string z) as [|a s]; [done|]. simpl in Hd. apply andb_true_iff in Hd as [Ha _].
  destruct (digit_plain a Ha) as (_ & Hm & Hp & _). unfold split_sign. by rewrite Hm, Hp.
Qed.

Lemma is_digits_to_string z : 0 <= z -> is_digits (to_string z) = true.
Proof.
  intros Hz. destruct (to_string_digits z Hz) as [Hd _]. unfold is_digits.
  by rewrite (proj2 (String.eqb_neq _ _) (to_string_nonempty z)), Hd.
Qed.

Lemma extract_signed_to_string z : 0 <= z < 2 ^ 63 -> extract_signed 64 (to_string z) = Some z.
Proof.
  intros Hz. unfold extract_signed. rewrite split_sign_to_string, is_digits_to_string by lia.
  rewrite (proj2 (to_string_digits z ltac:(lia))).
  by rewrite (proj2 (Z.leb_le _ _)), (proj2 (Z.ltb_lt _ _)) by lia.
Qed.

Lemma extract_unsigned_to_string z : 0 <= z < 2 ^ 64 -> extract_unsigned 64 (to_string z) = Some z.
Proof.
  intros Hz. unfold extract_unsigned. rewrite split_sign_to_string, is_digits_to_string by lia.
  rewrite (proj2 (to_string_digits z ltac:(lia))). by rewrite (proj2 (Z.ltb_lt _ _)) by lia.
Qed.

Lemma to_string_opp z : 0 < z -> to_string (- z) = "-" +:+ to_string z.
Proof. intros Hz. destruct z as [|p|p]; done. Qed.

Lemma extract_signed_any z : - 2 ^ 63 <= z < 2 ^ 63 -> extract_signed 64 (to_string z) = Some z.
Proof.
  intros Hz. destruct (Z.le_gt_cases 0 z) as [?|?]; [apply extract_signed_to_string; lia|].
  assert (to_string z = String "-" (to_string (- z))) as ->.
  { rewrite <- (Z.opp_involutive z) at 1. rewrite (to_string_opp (- z)) by lia. reflexivity. }
  unfold extract_signed. cbn [split_sign Ascii.eqb Bool.eqb].
  rewrite is_digits_to_string by lia. rewrite (proj2 (to_string_digits (- z) ltac:(lia))).
  rewrite (proj2 (Z.leb_le _ _)), (proj2 (Z.ltb_lt _ _)) by lia. cbn. f_equal. lia.
Qed.

Lemma digits_from_nonneg acc s : 0 <= acc -> 0 <= digits_from acc s.
Proof.
  revert acc. induction s as [|a s IH]; intros acc H; cbn [digits_from]; [done|].
  destruct (is_digit a) eqn:E; [|done]. apply IH. unfold is_digit, code_in in E.
  apply andb_true_iff in E as [?%N.leb_le _]. lia.
Qed.

Lemma extract_unsigned_range s n : extract_unsigned 64 s = Some n -> 0 <= n < 2 ^ 64.
Proof.
  unfold extract_unsigned. destruct (split_sign s) as [neg s']. destruct (is_digits s'); [|done].
  destruct (Z.ltb_spec (digits_from 0 s') (2 ^ 64)); [|done]. intros [= <-].
  pose proof (digits_from_nonneg 0 s'). destruct neg; [by apply uint_range|lia].
Qed.
Lemma extract_signed_range s n : extract_signed 64 s = Some n -> - 2 ^ 63 <= n < 2 ^ 63.
Proof.
  unfold extract_signed. destruct (split_sign s) as [neg s']. destruct (is_digits s'); [|done].
  case_match eqn:E; [|done]. intros [= <-].
  apply andb_true_iff in E as [?%Z.leb_le ?%Z.ltb_lt]. done.
Qed.

(** No character of [w] is [d]. *)
Definition free_of (d : ascii) (w : string) : bool := all_chars (fun a => negb (Ascii.eqb a d)) w.

Lemma split_go_word d t w s :
  free_of d w = true -> split_go d t (w +:+ s) = split_go d (t +:+ w) s.
Proof.
  unfold free_of.
  revert t. induction w as [|a w IH]; intros t Hw; simpl; [by rewrite str_app_nil_r|].
  simpl in Hw. apply andb_true_iff in Hw as [Ha%negb_true_iff Hw]. rewrite Ha.
  rewrite IH by done. by rewrite str_app_assoc.
Qed.

(** Two words separated by a space. *)
Definition is_word_text (s : string) : bool :=
  negb (String.eqb s "") && free_of " "%char s.

Lemma split_words a b :
  is_word_text a = true -> is_word_text b = true -> getlines " "%char (a +:+ " " +:+ b) = [a; b].
Proof.
  unfold is_word_text. rewrite !andb_true_iff. intros [Hna Ha] [Hnb Hb]. unfold getlines.
  rewrite split_go_word by done. cbn [String.append split_go].
  change (Ascii.eqb " "%char " "%char) with true. cbv iota. f_equal.
  rewrite <- (str_app_nil_r b) at 1. rewrite split_go_word by done. simpl. by destruct b.
Qed.

Lemma to_string_word z : 0 <= z -> is_word_text (to_string z) = true.
Proof.
  intros Hz. destruct (to_string_digits z Hz) as [Hd _]. pose proof (to_string_nonempty z) as Hne.
  unfold is_word_text, free_of. rewrite (proj2 (String.eqb_neq _ _) Hne). simpl. clear Hne.
  induction (to_string z) as [|a s IH]; [done|]. simpl in *.
  apply andb_true_iff in Hd as [Ha Hs]. destruct (digit_plain a Ha) as (_ & _ & _ & ->).
  by apply IH.
Qed.

(** ** Characters of a string *)

Lemma str_rev_app a b : str_rev (a +:+ b) = str_rev b +:+ str_rev a.
Proof.
  induction a as [|x a IH]; simpl; [by rewrite str_app_nil_r|]. by rewrite IH, str_app_assoc.
Qed.
Lemma str_rev_rev a : str_rev (str_rev a) = a.
Proof. induction a as [|x a IH]; simpl; [done|]. by rewrite str_rev_app, IH. Qed.

Lemma all_chars_impl p q s :
  (forall a, p a = true -> q a = true) -> all_chars p s = true -> all_chars q s = true.
Proof.
  intros H. induction s as [|a s IH]; simpl; [done|]. intros [Ha Hs]%andb_true_iff.
  by rewrite (H a Ha), IH.
Qed.
Lemma all_chars_app p a b : all_chars p (a +:+ b) = all_chars p a && all_chars p b.
Proof. induction a as [|x a IH]; [done|]. cbn. by rewrite IH, andb_assoc. Qed.
Lemma all_chars_rev p s : all_chars p (str_rev s) = all_chars p s.
Proof.
  induction s as [|a s IH]; [done|]. cbn [str_rev all_chars]. rewrite all_chars_app, IH. cbn.
  by rewrite andb_true_r, andb_comm.
Qed.
