(* ===== verification/Dtoa.v ===== *)
(** * Floating point text of JSON

    The Grisu2 conversion of a double to decimal digits in nlohmann::json
    (deps/libsdptransform/include/json.hpp, namespace dtoa_impl), in the 64 bit
    unsigned arithmetic of the code. *)

From Stdlib Require Import Ascii Floats.SpecFloat.
From S2P Require Import Prelude Regex Strings.

(** ** Extended precision *)

(** [diyfp]: [df * 2 ^ de] *)
Record diyfp := Diyfp { df : Z; de : Z }.

Definition diyfp_sub (x y : diyfp) : diyfp := Diyfp (uint 64 (df x - df y)) (de x).

(** The upper half of the product, rounded, from the products of 32 bit halves. *)
Definition diyfp_mul (x y : diyfp) : diyfp :=
  let u_lo := Z.land (df x) 0xFFFFFFFF in
  let u_hi := Z.shiftr (df x) 32 in
  let v_lo := Z.land (df y) 0xFFFFFFFF in
  let v_hi := Z.shiftr (df y) 32 in
  let p0 := uint 64 (u_lo * v_lo) in
  let p1 := uint 64 (u_lo * v_hi) in
  let p2 := uint 64 (u_hi * v_lo) in
  let p3 := uint 64 (u_hi * v_hi) in
  let p0_hi := Z.shiftr p0 32 in
  let p1_lo := Z.land p1 0xFFFFFFFF in
  let p1_hi := Z.shiftr p1 32 in
  let p2_lo := Z.land p2 0xFFFFFFFF in
  let p2_hi := Z.shiftr p2 32 in
  let q := uint 64 (p0_hi + p1_lo + p2_lo) in
  let q := uint 64 (q + Z.shiftl 1 31) in
  let h := uint 64 (p3 + p2_hi + p1_hi + Z.shiftr q 32) in
  Diyfp h (de x + de y + 64).

(** The loop of [diyfp::normalize]: a significand that is not zero needs at most 63
    rounds. *)
Fixpoint diyfp_normalize_loop (fuel : nat) (x : diyfp) : diyfp :=
  match fuel with
  | O => x
  | S fuel =>
      if Z.shiftr (df x) 63 =? 0 then
        diyfp_normalize_loop fuel (Diyfp (uint 64 (Z.shiftl (df x) 1)) (de x - 1))
      else x
  end.
Definition diyfp_normalize (x : diyfp) : diyfp := diyfp_normalize_loop 64 x.

Definition diyfp_normalize_to (x : diyfp) (target_exponent : Z) : diyfp :=
  let delta := de x - target_exponent in
  Diyfp (uint 64 (Z.shiftl (df x) delta)) target_exponent.

(** ** Boundaries *)

Record boundaries := mkBoundaries { bw : diyfp; bminus : diyfp; bplus : diyfp }.

(** [reinterpret_bits] of the positive double [m * 2 ^ e]: the biased exponent and the
    fraction. *)
Definition double_bits (m e : Z) : Z :=
  if m <? 2 ^ 52 then m else (e + 1075) * 2 ^ 52 + (m - 2 ^ 52).

Definition compute_boundaries (bits : Z) : boundaries :=
  let kBias := 1024 - 1 + 52 in
  let kMinExp := 1 - kBias in
  let kHiddenBit := Z.shiftl 1 52 in
  let E := Z.shiftr bits 52 in
  let F := Z.land bits (kHiddenBit - 1) in
  let is_denormal := E =? 0 in
  let v := if is_denormal then Diyfp F kMinExp else Diyfp (F + kHiddenBit) (E - kBias) in
  let lower_boundary_is_closer := (F =? 0) && (1 <? E) in
  let m_plus := Diyfp (2 * df v + 1) (de v - 1) in
  let m_minus :=
    if lower_boundary_is_closer then Diyfp (4 * df v - 1) (de v - 2)
    else Diyfp (2 * df v - 1) (de v - 1) in
  let w_plus := diyfp_normalize m_plus in
  let w_minus := diyfp_normalize_to m_minus (de w_plus) in
  mkBoundaries (diyfp_normalize v) w_minus w_plus.

(** ** Cached powers *)

(** [pf * 2 ^ pe], close to [10 ^ pk] *)
Record cached_power := mkPower { pf : Z; pe : Z; pk : Z }.

Definition kCachedPowers : list cached_power :=
  [
   mkPower 0xAB70FE17C79AC6CA (-1060) (-300);
   mkPower 0xFF77B1FCBEBCDC4F (-1034) (-292);
   mkPower 0xBE5691EF416BD60C (-1007) (-284);
   mkPower 0x8DD01FAD907FFC3C (-980) (-276);
   mkPower 0xD3515C2831559A83 (-954) (-268);
   mkPower 0x9D71AC8FADA6C9B5 (-927) (-260);
   mkPower 0xEA9C227723EE8BCB (-901) (-252);
   mkPower 0xAECC49914078536D (-874) (-244);
   mkPower 0x823C12795DB6CE57 (-847) (-236);
   mkPower 0xC21094364DFB5637 (-821) (-228);
   mkPower 0x9096EA6F3848984F (-794) (-220);
   mkPower 0xD77485CB25823AC7 (-768) (-212);
   mkPower 0xA086CFCD97BF97F4 (-741) (-204);
   mkPower 0xEF340A98172AACE5 (-715) (-196);
   mkPower 0xB23867FB2A35B28E (-688) (-188);
   mkPower 0x84C8D4DFD2C63F3B (-661) (-180);
   mkPower 0xC5DD44271AD3CDBA (-635) (-172);
   mkPower 0x936B9FCEBB25C996 (-608) (-164);
   mkPower 0xDBAC6C247D62A584 (-582) (-156);
   mkPower 0xA3AB66580D5FDAF6 (-555) (-148);
   mkPower 0xF3E2F893DEC3F126 (-529) (-140);
   mkPower 0xB5B5ADA8AAFF80B8 (-502) (-132);
   mkPower 0x87625F056C7C4A8B (-475) (-124);
   mkPower 0xC9BCFF6034C13053 (-449) (-116);
   mkPower 0x964E858C91BA2655 (-422) (-108);
   mkPower 0xDFF9772470297EBD (-396) (-100);
   mkPower 0xA6DFBD9FB8E5B88F (-369) (-92);
   mkPower 0xF8A95FCF88747D94 (-343) (-84);
   mkPower 0xB94470938FA89BCF (-316) (-76);
   mkPower 0x8A08F0F8BF0F156B (-289) (-68);
   mkPower 0xCDB02555653131B6 (-263) (-60);
   mkPower 0x993FE2C6D07B7FAC (-236) (-52);
   mkPower 0xE45C10C42A2B3B06 (-210) (-44);
   mkPower 0xAA242499697392D3 (-183) (-36);
   mkPower 0xFD87B5F28300CA0E (-157) (-28);
   mkPower 0xBCE5086492111AEB (-130) (-20);
   mkPower 0x8CBCCC096F5088CC (-103) (-12);
   mkPower 0xD1B71758E219652C (-77) (-4);
   mkPower 0x9C40000000000000 (-50) (4);
   mkPower 0xE8D4A51000000000 (-24) (12);
   mkPower 0xAD78EBC5AC620000 (3) (20);
   mkPower 0x813F3978F8940984 (30) (28);
   mkPower 0xC097CE7BC90715B3 (56) (36);
   mkPower 0x8F7E32CE7BEA5C70 (83) (44);
   mkPower 0xD5D238A4ABE98068 (109) (52);
   mkPower 0x9F4F2726179A2245 (136) (60);
   mkPower 0xED63A231D4C4FB27 (162) (68);
   mkPower 0xB0DE65388CC8ADA8 (189) (76);
   mkPower 0x83C7088E1AAB65DB (216) (84);
   mkPower 0xC45D1DF942711D9A (242) (92);
   mkPower 0x924D692CA61BE758 (269) (100);
   mkPower 0xDA01EE641A708DEA (295) (108);
   mkPower 0xA26DA3999AEF774A (322) (116);
   mkPower 0xF209787BB47D6B85 (348) (124);
   mkPower 0xB454E4A179DD1877 (375) (132);
   mkPower 0x865B86925B9BC5C2 (402) (140);
   mkPower 0xC83553C5C8965D3D (428) (148);
   mkPower 0x952AB45CFA97A0B3 (455) (156);
   mkPower 0xDE469FBD99A05FE3 (481) (164);
   mkPower 0xA59BC234DB398C25 (508) (172);
   mkPower 0xF6C69A72A3989F5C (534) (180);
   mkPower 0xB7DCBF5354E9BECE (561) (188);
   mkPower 0x88FCF317F22241E2 (588) (196);
   mkPower 0xCC20CE9BD35C78A5 (614) (204);
   mkPower 0x98165AF37B2153DF (641) (212);
   mkPower 0xE2A0B5DC971F303A (667) (220);
   mkPower 0xA8D9D1535CE3B396 (694) (228);
   mkPower 0xFB9B7CD9A4A7443C (720) (236);
   mkPower 0xBB764C4CA7A44410 (747) (244);
   mkPower 0x8BAB8EEFB6409C1A (774) (252);
   mkPower 0xD01FEF10A657842C (800) (260);
   mkPower 0x9B10A4E5E9913129 (827) (268);
   mkPower 0xE7109BFBA19C0C9D (853) (276);
   mkPower 0xAC2820D9623BF429 (880) (284);
   mkPower 0x80444B5E7AA7CF85 (907) (292);
   mkPower 0xBF21E44003ACDD2D (933) (300);
   mkPower 0x8E679C2F5E44FF8F (960) (308);
   mkPower 0xD433179D9C8CB841 (986) (316);
   mkPower 0x9E19DB92B4E31BA9 (1013) (324)].

Definition kAlpha : Z := -60.
Definition kGamma : Z := -32.

(** The index into the table: undefined out of range. *)
Definition get_cached_power_for_binary_exponent (e : Z) : result cached_power :=
  let f := kAlpha - e - 1 in
  let k := Z.quot (f * 78913) (Z.shiftl 1 18) + (if 0 <? f then 1 else 0) in
  let index := Z.quot (300 + k + (8 - 1)) 8 in
  if index <? 0 then Undef
  else match kCachedPowers !! Z.to_nat index with Some c => Ok c | None => Undef end.

(** ** Digits *)

(** The number of digits of [n], and the power of ten of its first digit. *)
Definition find_largest_pow10 (n : Z) : nat * Z :=
  if 1000000000 <=? n then (10%nat, 1000000000)
  else if 100000000 <=? n then (9%nat, 100000000)
  else if 10000000 <=? n then (8%nat, 10000000)
  else if 1000000 <=? n then (7%nat, 1000000)
  else if 100000 <=? n then (6%nat, 100000)
  else if 10000 <=? n then (5%nat, 10000)
  else if 1000 <=? n then (4%nat, 1000)
  else if 100 <=? n then (3%nat, 100)
  else if 10 <=? n then (2%nat, 10)
  else (1%nat, 1).

Definition digit_char (d : Z) : ascii := ascii_of_N (Z.to_N (48 + d)).
(** [buffer[length++] = '0' + d] *)
Definition push_digit (buffer : string) (d : Z) : string := buffer +:+ String (digit_char d) "".
(** [buf[len - 1]--] *)
Fixpoint decrement_last (buf : string) : string :=
  match buf with
  | EmptyString => ""
  | String a EmptyString => String (ascii_of_N (N_of_ascii a - 1)) ""
  | String a buf => String a (decrement_last buf)
  end.

(** The last digit is lowered while that brings the value closer to [w]; it is at most
    9, and the loop would not make it 0: [Undef] stands for a tenth round. *)
Fixpoint grisu2_round_loop (fuel : nat) (buf : string) (dist delta rest ten_k : Z) :
    result string :=
  match fuel with
  | O => Undef
  | S fuel =>
      if (rest <? dist) && (ten_k <=? uint 64 (delta - rest)) &&
         ((uint 64 (rest + ten_k) <? dist) ||
          (uint 64 (rest + ten_k - dist) <? uint 64 (dist - rest)))
      then grisu2_round_loop fuel (decrement_last buf) dist delta (uint 64 (rest + ten_k)) ten_k
      else Ok buf
  end.
Definition grisu2_round (buf : string) (dist delta rest ten_k : Z) : result string :=
  grisu2_round_loop 10 buf dist delta rest ten_k.

(** The digits of the integral part: [inl] when they suffice, with the number of digits
    left out; [sh] is [-one.e]. *)
Fixpoint integral_digits (n : nat) (buffer : string) (p1 p2 pow10 delta dist sh : Z) :
    result (string * Z + string) :=
  match n with
  | O => Ok (inr buffer)
  | S n =>
      let d := p1 / pow10 in
      let r := p1 mod pow10 in
      let buffer := push_digit buffer d in
      let rest := uint 64 (uint 64 (Z.shiftl r sh) + p2) in
      if rest <=? delta then
        let ten_n := uint 64 (Z.shiftl pow10 sh) in
        let? buffer := grisu2_round buffer dist delta rest ten_n in
        Ok (inl (buffer, Z.of_nat n))
      else integral_digits n buffer r p2 (pow10 / 10) delta dist sh
  end.

(** The digits of the fraction: the buffer, how many digits were added, the remainder
    and the scaled distances.  [delta] grows tenfold in every round and the remainder
    stays below 2^60: [Undef] stands for a twentieth round. *)
Fixpoint fraction_digits (fuel : nat) (buffer : string) (m : Z) (p2 delta dist sh : Z) :
    result (string * Z * Z * Z * Z) :=
  match fuel with
  | O => Undef
  | S fuel =>
      let p2 := uint 64 (p2 * 10) in
      let d := Z.shiftr p2 sh in
      let r := Z.land p2 (Z.shiftl 1 sh - 1) in
      let buffer := push_digit buffer d in
      let delta := uint 64 (delta * 10) in
      let dist := uint 64 (dist * 10) in
      if r <=? delta then Ok (buffer, m + 1, r, delta, dist)
      else fraction_digits fuel buffer (m + 1) r delta dist sh
  end.

Definition grisu2_digit_gen (decimal_exponent : Z) (M_minus w M_plus : diyfp) :
    result (string * Z) :=
  let delta := df (diyfp_sub M_plus M_minus) in
  let dist := df (diyfp_sub M_plus w) in
  let sh := - de M_plus in
  let p1 := uint 32 (Z.shiftr (df M_plus) sh) in
  let p2 := Z.land (df M_plus) (Z.shiftl 1 sh - 1) in
  let '(k, pow10) := find_largest_pow10 p1 in
  let? r := integral_digits k "" p1 p2 pow10 delta dist sh in
  match r with
  | inl (buffer, n) => Ok (buffer, decimal_exponent + n)
  | inr buffer =>
      let? r := fraction_digits 20 buffer 0 p2 delta dist sh in
      let '(buffer, m, p2, delta, dist) := r in
      let? buffer := grisu2_round buffer dist delta p2 (Z.shiftl 1 sh) in
      Ok (buffer, decimal_exponent - m)
  end.

(** The digits and the decimal exponent of the positive double with these [bits]. *)
Definition grisu2 (bits : Z) : result (string * Z) :=
  let b := compute_boundaries bits in
  let? cached := get_cached_power_for_binary_exponent (de (bplus b)) in
  let c_minus_k := Diyfp (pf cached) (pe cached) in
  let w := diyfp_mul (bw b) c_minus_k in
  let w_minus := diyfp_mul (bminus b) c_minus_k in
  let w_plus := diyfp_mul (bplus b) c_minus_k in
  let M_minus := Diyfp (uint 64 (df w_minus + 1)) (de w_minus) in
  let M_plus := Diyfp (uint 64 (df w_plus - 1)) (de w_plus) in
  grisu2_digit_gen (- pk cached) M_minus w M_plus.

(** ** Text *)

Definition append_exponent (e : Z) : string :=
  (if e <? 0 then "-" else "+") +:+
  let k := Z.abs e in
  if k <? 10 then String "0" (String (digit_char k) "")
  else if k <? 100 then String (digit_char (k / 10)) (String (digit_char (k mod 10)) "")
  else
    String (digit_char (k / 100))
      (String (digit_char (k mod 100 / 10)) (String (digit_char (k mod 100 mod 10)) "")).

Fixpoint zeros (n : nat) : string :=
  match n with O => "" | S n => String "0" (zeros n) end.

Definition format_buffer (buf : string) (decimal_exponent min_exp max_exp : Z) : string :=
  let len := String.length buf in
  let k := Z.of_nat len in
  let n := k + decimal_exponent in
  if (k <=? n) && (n <=? max_exp) then buf +:+ zeros (Z.to_nat (n - k)) +:+ ".0"
  else if (0 <? n) && (n <=? max_exp) then
    String.substring 0 (Z.to_nat n) buf +:+ "." +:+ String.substring (Z.to_nat n) len buf
  else if (min_exp <? n) && (n <=? 0) then "0." +:+ zeros (Z.to_nat (- n)) +:+ buf
  else
    (if k =? 1 then buf
     else String.substring 0 1 buf +:+ "." +:+ String.substring 1 len buf) +:+
    "e" +:+ append_exponent (n - 1).

(** [to_chars] of a finite double *)
Definition to_chars (neg : bool) (bits : Z) : result string :=
  let sign := if neg then "-" else "" in
  if bits =? 0 then Ok (sign +:+ "0.0")
  else
    let? r := grisu2 bits in
    Ok (sign +:+ format_buffer r.1 r.2 (-4) 15).

(** [dump_float] *)
Definition dump_float (x : spec_float) : result string :=
  match x with
  | S754_nan | S754_infinity _ => Ok "null"
  | S754_zero s => to_chars s 0
  | S754_finite s m e => to_chars s (double_bits (Z.pos m) e)
  end.
