(* ===== verification/DtoaSpec.v ===== *)
(** * Floating point text of JSON: the proofs

    The loops of Grisu2 end for every positive finite double, after at most 17 digits, the
    number the buffer of the serializer is made for. *)

From Stdlib Require Import Ascii Floats.SpecFloat.
From S2P Require Import Prelude Regex Strings Dtoa.

Lemma land_mask z n : 0 <= n -> Z.land z (Z.shiftl 1 n - 1) = z mod 2 ^ n.
Proof. intros Hn. rewrite Z.shiftl_1_l, Z.sub_1_r, <- Z.ones_equiv. by apply Z.land_ones. Qed.
Lemma land_32 z : Z.land z 0xFFFFFFFF = z mod 2 ^ 32.
Proof. by apply (Z.land_ones z 32). Qed.

(** ** Rounding *)

Lemma length_decrement buf : String.length (decrement_last buf) = String.length buf.
Proof.
  induction buf as [|a buf IH]; [done|]. simpl in *. destruct buf; [done|]. simpl in *. by f_equal.
Qed.
Lemma length_push buf d : String.length (push_digit buf d) = S (String.length buf).
Proof.
  unfold push_digit. induction buf as [|a buf IH]; [done|]. simpl. by f_equal.
Qed.

(** Each round lowers the last digit [d] by one and adds [ten_k] to the rest, which stays within
    [delta]; the digit is used up before that fails. *)
Lemma round_loop_ends d : forall fuel buf dist delta rest ten_k,
  (d <= fuel)%nat -> 0 <= rest <= delta -> delta < 2 ^ 64 -> 0 < ten_k ->
  delta < rest + Z.of_nat d * ten_k ->
  exists buf', grisu2_round_loop fuel buf dist delta rest ten_k = Ok buf' /\
    String.length buf' = String.length buf.
Proof.
  induction d as [|d IH]; intros fuel buf dist delta rest ten_k Hf Hr Hd Ht Hlt; [lia|].
  destruct fuel as [|fuel]; [lia|]. cbn [grisu2_round_loop].
  destruct ((rest <? dist) && (ten_k <=? uint 64 (delta - rest))) eqn:Hc; [|by exists buf].
  destruct (_ || _); [|by exists buf]. apply andb_true_iff in Hc as [_ Hc].
  rewrite uint_small in Hc by lia. apply Z.leb_le in Hc. rewrite (uint_small 64 (rest + ten_k)) by lia.
  destruct (IH fuel (decrement_last buf) dist delta (rest + ten_k) ten_k) as (b & Hb & Hl); [lia..|].
  exists b. by rewrite Hb, Hl, length_decrement.
Qed.

Lemma round_ends d buf dist delta rest ten_k :
  0 <= d <= 9 -> 0 <= rest <= delta -> delta < 2 ^ 64 -> 0 < ten_k -> delta < rest + d * ten_k ->
  exists buf', grisu2_round buf dist delta rest ten_k = Ok buf' /\
    String.length buf' = String.length buf.
Proof.
  intros Hd Hr Hdelta Ht Hlt. apply (round_loop_ends (Z.to_nat d)); try done; [lia|].
  by rewrite Z2Nat.id by lia.
Qed.

(** ** The digits of the fraction *)

Section Digits.
Context (sh : Z) (Hsh : 32 <= sh <= 60).
Let one := 2 ^ sh.

Lemma one_bounds : 2 ^ 32 <= one <= 2 ^ 60.
Proof. split; apply Z.pow_le_mono_r; lia. Qed.

(** Within [j] rounds, when [10 ^ j] lifts [delta] to the unit; the last digit can be rounded. *)
Lemma fraction_ends j : forall fuel buf m p2 delta dist,
  (j <= fuel)%nat -> 0 < delta < p2 -> p2 < one -> one <= delta * 10 ^ Z.of_nat j ->
  exists buf' m' r delta' dist' d,
    fraction_digits fuel buf m p2 delta dist sh = Ok (buf', m', r, delta', dist') /\
    0 <= d <= 9 /\ 0 <= r <= delta' /\ delta' < 2 ^ 64 /\ delta' < r + d * one /\
    (String.length buf < String.length buf' <= String.length buf + j)%nat.
Proof.
  pose proof one_bounds as Hone.
  induction j as [|j IH]; intros fuel buf m p2 delta dist Hf Hd Hp Hj; [lia|].
  destruct fuel as [|fuel]; [lia|]. cbn [fraction_digits].
  rewrite (uint_small 64 (p2 * 10)), (uint_small 64 (delta * 10)) by lia.
  rewrite Z.shiftr_div_pow2, land_mask by lia. fold one.
  pose proof (Z.div_mod (p2 * 10) one ltac:(lia)) as Hdm.
  pose proof (Z.mod_pos_bound (p2 * 10) one ltac:(lia)) as Hr.
  assert (Hdig : 0 <= p2 * 10 / one <= 9).
  { split; [apply Z.div_pos; lia|]. apply Z.lt_succ_r, Z.div_lt_upper_bound; lia. }
  destruct (Z.leb_spec ((p2 * 10) mod one) (delta * 10)) as [Hle|Hgt].
  - do 5 eexists. exists (p2 * 10 / one). split; [reflexivity|]. rewrite length_push.
    split_and!; lia.
  - destruct (IH fuel (push_digit buf (p2 * 10 / one)) (m + 1) ((p2 * 10) mod one) (delta * 10)
      (uint 64 (dist * 10))) as (b & m' & r & de' & di' & d & Hrun & H1 & H2 & H3 & H4 & H5).
    1-3: lia.
    { rewrite Nat2Z.inj_succ, Z.pow_succ_r in Hj by lia. lia. }
    rewrite length_push in H5. exists b, m', r, de', di', d. split_and!; try done; lia.
Qed.

(** ** The digits of the integral part *)

Lemma integral_ends n : forall buf p1 p2 delta dist,
  0 <= p2 < one -> 0 <= p1 < 10 ^ Z.of_nat n -> 0 < delta < p1 * one + p2 ->
  p1 * one + p2 < 2 ^ 64 ->
  exists r, integral_digits n buf p1 p2 (10 ^ (Z.of_nat n - 1)) delta dist sh = Ok r /\
    match r with
    | inl (buf', _) => (String.length buf < String.length buf' <= String.length buf + n)%nat
    | inr buf' => delta < p2 /\ String.length buf' = (String.length buf + n)%nat
    end.
Proof.
  pose proof one_bounds as Hone.
  induction n as [|n IH]; intros buf p1 p2 delta dist Hp2 Hp1 Hd Hv.
  { simpl in Hp1. exists (inr buf). split; [done|]. simpl. split; [|lia].
    assert (p1 = 0) as -> by lia. lia. }
  cbn [integral_digits]. replace (Z.of_nat (S n) - 1) with (Z.of_nat n) by lia.
  set (P := 10 ^ Z.of_nat n) in *. assert (HP : 0 < P) by (apply Z.pow_pos_nonneg; lia).
  rewrite Nat2Z.inj_succ, Z.pow_succ_r in Hp1 by lia. fold P in Hp1.
  pose proof (Z.div_mod p1 P ltac:(lia)) as Hdm. pose proof (Z.mod_pos_bound p1 P ltac:(lia)) as Hr.
  assert (Hdig : 0 <= p1 / P <= 9).
  { split; [apply Z.div_pos; lia|]. apply Z.lt_succ_r, Z.div_lt_upper_bound; lia. }
  set (d := p1 / P) in *. set (r := p1 mod P) in *.
  assert (Hrest : 0 <= r * one + p2 <= p1 * one + p2) by nia.
  assert (Hten : d * (P * one) + (r * one + p2) = p1 * one + p2) by nia.
  rewrite (Z.shiftl_mul_pow2 r) by lia. fold one.
  rewrite (uint_small 64 (r * one)), (uint_small 64 (r * one + p2)) by nia.
  destruct (Z.leb_spec (r * one + p2) delta) as [Hle|Hgt].
  - assert (Hd1 : 1 <= d) by nia.
    rewrite Z.shiftl_mul_pow2, uint_small by (fold one; nia). fold one.
    destruct (round_ends d (push_digit buf d) dist delta (r * one + p2) (P * one)) as (b & Hb & Hl);
      [lia|lia|lia|nia|lia|].
    rewrite Hb. eexists. split; [reflexivity|]. simpl. rewrite Hl, length_push. lia.
  - destruct (IH (push_digit buf d) r p2 delta dist) as (res & Hres & Hm); [lia|unfold P in *; lia|lia|lia|].
    exists res. split; [|rewrite length_push in Hm; destruct res as [[]|]; [lia|split; [tauto|lia]]].
    replace (P / 10) with (10 ^ (Z.of_nat n - 1)); [exact Hres|]. unfold P.
    destruct n as [|n]; [reflexivity|]. rewrite (Nat2Z.inj_succ n), Z.pow_succ_r by lia.
    rewrite Z.mul_comm, Z.div_mul by lia. f_equal. lia.
Qed.
End Digits.

Lemma largest_pow10 n :
  1 <= n < 2 ^ 32 ->
  exists k, find_largest_pow10 n = (k, 10 ^ (Z.of_nat k - 1)) /\ (1 <= k <= 10)%nat /\
    10 ^ (Z.of_nat k - 1) <= n < 10 ^ Z.of_nat k.
Proof.
  intros Hn. unfold find_largest_pow10.
  repeat match goal with |- context [?c <=? n] => destruct (Z.leb_spec c n) end;
    match goal with |- exists k, (?k0, _) = _ /\ _ => exists k0 end;
    (split; [reflexivity|]; simpl; split; lia).
Qed.

(** The digits are generated, and are at most 17, when the upper boundary is less than [10 ^ 16]
    times the distance of the boundaries. *)
Lemma digit_gen_ends e M_minus w M_plus :
  -60 <= de M_plus <= -32 -> 0 < df M_minus < df M_plus -> 2 ^ 61 <= df M_plus < 2 ^ 64 ->
  df M_plus < 10 ^ 16 * (df M_plus - df M_minus) ->
  exists digits e', grisu2_digit_gen e M_minus w M_plus = Ok (digits, e') /\
    (1 <= String.length digits <= 17)%nat.
Proof.
  intros He Hm HM Hratio. set (sh := - de M_plus). assert (Hsh : 32 <= sh <= 60) by lia.
  pose proof (one_bounds sh Hsh) as Hone. set (one := 2 ^ sh) in *.
  unfold grisu2_digit_gen, diyfp_sub. cbn [df]. fold sh.
  rewrite (uint_small 64 (df M_plus - df M_minus)) by lia.
  rewrite Z.shiftr_div_pow2, land_mask by lia. fold one.
  set (delta := df M_plus - df M_minus) in *. set (dist := uint 64 _).
  pose proof (Z.div_mod (df M_plus) one ltac:(lia)) as Hdm.
  pose proof (Z.mod_pos_bound (df M_plus) one ltac:(lia)) as Hp2.
  assert (Hp1 : 1 <= df M_plus / one < 2 ^ 32).
  { split; [apply Z.div_le_lower_bound; lia|apply Z.div_lt_upper_bound; lia]. }
  rewrite uint_small by lia. set (p1 := df M_plus / one) in *. set (p2 := df M_plus mod one) in *.
  destruct (largest_pow10 p1 Hp1) as (k & -> & Hk & Hpow).
  destruct (integral_ends sh Hsh k "" p1 p2 delta dist) as (r & -> & Hr); fold one; [lia|lia|lia|lia|].
  cbn [result_bind]. destruct r as [[buf n]|buf].
  { do 2 eexists. split; [reflexivity|]. simpl in *. lia. }
  destruct Hr as [Hdelta Hlen].
  destruct (fraction_ends sh Hsh (17 - k) 20 buf 0 p2 delta dist)
    as (b & m & r & delta' & dist' & d & -> & Hd & Hr & Hd' & Hlt & Hl); fold one; [lia|lia|lia| |].
  { assert (10 ^ 16 = 10 ^ (Z.of_nat k - 1) * 10 ^ Z.of_nat (17 - k)) as Hpw.
    { rewrite <- Z.pow_add_r by lia. f_equal. lia. }
    assert (0 < 10 ^ (Z.of_nat k - 1)) by (apply Z.pow_pos_nonneg; lia).
    assert (10 ^ (Z.of_nat k - 1) * one <= df M_plus) by nia.
    apply Z.lt_le_incl, (Z.mul_lt_mono_pos_l (10 ^ (Z.of_nat k - 1))); [done|]. nia. }
  cbn [result_bind]. rewrite Z.shiftl_1_l. fold one.
  destruct (round_ends d b dist' delta' r one) as (b' & -> & Hb'); [lia..|].
  do 2 eexists. split; [reflexivity|]. simpl in *. lia.
Qed.

(** ** The product of extended floats *)

(** The four partial products give the rounded upper half of the product. *)
Lemma diyfp_mul_round x y :
  0 <= df x < 2 ^ 64 -> 0 <= df y < 2 ^ 64 ->
  df (diyfp_mul x y) = (df x * df y + 2 ^ 63) / 2 ^ 64 /\ de (diyfp_mul x y) = de x + de y + 64.
Proof.
  intros Hx Hy. split; [|reflexivity]. unfold diyfp_mul. cbn [df].
  rewrite !land_32, !Z.shiftr_div_pow2 by lia.
  pose proof (Z.div_mod (df x) (2 ^ 32) ltac:(lia)) as Ex.
  pose proof (Z.div_mod (df y) (2 ^ 32) ltac:(lia)) as Ey.
  pose proof (Z.mod_pos_bound (df x) (2 ^ 32) ltac:(lia)) as Bxl.
  pose proof (Z.mod_pos_bound (df y) (2 ^ 32) ltac:(lia)) as Byl.
  assert (Bxh : 0 <= df x / 2 ^ 32 < 2 ^ 32)
    by (split; [apply Z.div_pos|apply Z.div_lt_upper_bound]; lia).
  assert (Byh : 0 <= df y / 2 ^ 32 < 2 ^ 32)
    by (split; [apply Z.div_pos|apply Z.div_lt_upper_bound]; lia).
  set (xl := df x mod 2 ^ 32) in *. set (xh := df x / 2 ^ 32) in *.
  set (yl := df y mod 2 ^ 32) in *. set (yh := df y / 2 ^ 32) in *.
  assert (Hb : forall a b, 0 <= a < 2 ^ 32 -> 0 <= b < 2 ^ 32 -> 0 <= a * b <= (2 ^ 32 - 1) * (2 ^ 32 - 1))
    by (intros; nia).
  pose proof (Hb xl yl Bxl Byl) as B0. pose proof (Hb xl yh Bxl Byh) as B1.
  pose proof (Hb xh yl Bxh Byl) as B2. pose proof (Hb xh yh Bxh Byh) as B3.
  rewrite (uint_small 64 (xl * yl)), (uint_small 64 (xl * yh)), (uint_small 64 (xh * yl)),
    (uint_small 64 (xh * yh)) by lia.
  rewrite Ex, Ey. set (p0 := xl * yl) in *. set (p1 := xl * yh) in *. set (p2 := xh * yl) in *.
  set (p3 := xh * yh) in *.
  replace ((2 ^ 32 * xh + xl) * (2 ^ 32 * yh + yl)) with (p3 * 2 ^ 64 + (p1 + p2) * 2 ^ 32 + p0)
    by (subst p0 p1 p2 p3; ring).
  clearbody p0 p1 p2 p3. clear - B0 B1 B2 B3.
  pose proof (Z.div_mod p0 (2 ^ 32) ltac:(lia)). pose proof (Z.mod_pos_bound p0 (2 ^ 32) ltac:(lia)).
  pose proof (Z.div_mod p1 (2 ^ 32) ltac:(lia)). pose proof (Z.mod_pos_bound p1 (2 ^ 32) ltac:(lia)).
  pose proof (Z.div_mod p2 (2 ^ 32) ltac:(lia)). pose proof (Z.mod_pos_bound p2 (2 ^ 32) ltac:(lia)).
  change (Z.shiftl 1 31) with (2 ^ 31).
  rewrite (uint_small 64 (p0 / 2 ^ 32 + p1 mod 2 ^ 32 + p2 mod 2 ^ 32)) by lia.
  rewrite (uint_small 64 (_ + 2 ^ 31)) by lia.
  set (q := p0 / 2 ^ 32 + p1 mod 2 ^ 32 + p2 mod 2 ^ 32 + 2 ^ 31) in *.
  pose proof (Z.div_mod q (2 ^ 32) ltac:(lia)). pose proof (Z.mod_pos_bound q (2 ^ 32) ltac:(lia)).
  rewrite uint_small by lia.
  apply (Z.div_unique _ _ _ (q mod 2 ^ 32 * 2 ^ 32 + p0 mod 2 ^ 32)); lia.
Qed.

(** ** Normalization *)

Lemma normalize_loop_shift fuel x :
  0 < df x < 2 ^ 64 -> 2 ^ 63 <= df x * 2 ^ Z.of_nat fuel ->
  exists s, 0 <= s <= Z.of_nat fuel /\ 2 ^ 63 <= df x * 2 ^ s < 2 ^ 64 /\
    diyfp_normalize_loop fuel x = Diyfp (df x * 2 ^ s) (de x - s).
Proof.
  revert x. induction fuel as [|fuel IH]; intros x Hx Hf.
  { exists 0. rewrite Z.mul_1_r, Z.sub_0_r. destruct x. simpl in *. split_and!; try done; lia. }
  cbn [diyfp_normalize_loop]. rewrite Z.shiftr_div_pow2 by lia.
  destruct (Z.eqb_spec (df x / 2 ^ 63) 0) as [H0|H0].
  - apply Z.div_small_iff in H0; [|lia]. assert (Hlt : df x < 2 ^ 63) by lia.
    rewrite Z.shiftl_mul_pow2 by lia. rewrite (uint_small 64 (df x * 2 ^ 1)) by lia.
    destruct (IH (Diyfp (df x * 2 ^ 1) (de x - 1))) as (s & Hs & Hb & Hr); cbn [df de] in *; [lia| |].
    { rewrite Nat2Z.inj_succ, Z.pow_succ_r in Hf by lia. lia. }
    exists (s + 1). rewrite Z.pow_add_r in * by lia. rewrite Hr.
    split_and!; try lia. f_equal; lia.
  - exists 0. rewrite Z.mul_1_r, Z.sub_0_r. destruct x as [f e]. cbn [df de] in *.
    split_and!; try done; try lia.
    destruct (Z.lt_ge_cases f (2 ^ 63)); [|done]. by rewrite Z.div_small in H0 by lia.
Qed.

Lemma normalize_shift x :
  0 < df x < 2 ^ 64 ->
  exists s, 0 <= s <= 64 /\ 2 ^ 63 <= df x * 2 ^ s < 2 ^ 64 /\
    diyfp_normalize x = Diyfp (df x * 2 ^ s) (de x - s).
Proof. intros Hx. apply (normalize_loop_shift 64); [done|]. simpl. lia. Qed.

(** ** The cached powers *)

Definition power_fits (e : Z) : bool :=
  match get_cached_power_for_binary_exponent e with
  | Ok c => (2 ^ 63 <=? pf c) && (pf c <? 2 ^ 64) &&
            (-60 <=? e + pe c + 64) && (e + pe c + 64 <=? -32)
  | _ => false
  end.

Lemma all_powers_fit :
  forallb (fun i => power_fits (Z.of_nat i - 1137)) (seq 0 2098) = true.
Proof. vm_compute. reflexivity. Qed.

(** Every exponent of a normalized boundary has a power that brings the product into range. *)
Lemma cached_power_fits e :
  -1137 <= e <= 960 ->
  exists c, get_cached_power_for_binary_exponent e = Ok c /\ 2 ^ 63 <= pf c < 2 ^ 64 /\
    -60 <= e + pe c + 64 <= -32.
Proof.
  intros He. pose proof all_powers_fit as Hall. rewrite forallb_forall in Hall.
  specialize (Hall (Z.to_nat (e + 1137))). rewrite in_seq in Hall.
  rewrite Z2Nat.id in Hall by lia. replace (e + 1137 - 1137) with e in Hall by lia.
  specialize (Hall ltac:(lia)). unfold power_fits in Hall.
  destruct (get_cached_power_for_binary_exponent e) as [c|x|]; [|done..].
  exists c. split; [done|]. lia.
Qed.

(** ** The boundaries *)

(** The significand and the exponent of the double with these bits, and whether its lower
    boundary is closer, as at a power of two. *)
Definition significand_of (bits : Z) : Z :=
  if bits / 2 ^ 52 =? 0 then bits mod 2 ^ 52 else bits mod 2 ^ 52 + 2 ^ 52.
Definition exponent_of (bits : Z) : Z :=
  if bits / 2 ^ 52 =? 0 then -1074 else bits / 2 ^ 52 - 1075.
Definition closer (bits : Z) : bool := (bits mod 2 ^ 52 =? 0) && (1 <? bits / 2 ^ 52).

Lemma significand_bounds bits :
  0 < bits < 2047 * 2 ^ 52 ->
  1 <= significand_of bits < 2 ^ 53 /\ -1074 <= exponent_of bits <= 971 /\
  (closer bits = true -> significand_of bits = 2 ^ 52).
Proof.
  intros Hbits. pose proof (Z.div_mod bits (2 ^ 52) ltac:(lia)) as Hdm.
  pose proof (Z.mod_pos_bound bits (2 ^ 52) ltac:(lia)) as HF.
  assert (HE : 0 <= bits / 2 ^ 52 <= 2046).
  { split; [apply Z.div_pos; lia|]. apply Z.lt_succ_r, Z.div_lt_upper_bound; lia. }
  unfold significand_of, exponent_of, closer. set (E := bits / 2 ^ 52) in *.
  set (F := bits mod 2 ^ 52) in *. clearbody E F.
  destruct (Z.eqb_spec E 0) as [->|HE0]; split_and!; lia.
Qed.

(** The upper boundary is half a unit above the double, the lower one half a unit or a quarter of
    a unit below. *)
Lemma boundaries_shape bits :
  0 < bits < 2047 * 2 ^ 52 ->
  exists s, let b := compute_boundaries bits in let f := significand_of bits in
    10 <= s /\ df (bplus b) = (2 * f + 1) * 2 ^ s /\
    2 ^ 63 <= df (bplus b) < 2 ^ 64 /\ de (bminus b) = de (bplus b) /\
    de (bplus b) = exponent_of bits - 1 - s /\ -1137 <= de (bplus b) <= 960 /\
    df (bminus b) = if closer bits then (4 * f - 1) * 2 ^ (s - 1) else (2 * f - 1) * 2 ^ s.
Proof.
  intros Hbits. destruct (significand_bounds bits Hbits) as (Hf & He & _).
  unfold compute_boundaries. cbv zeta.
  rewrite (land_mask bits 52), Z.shiftr_div_pow2 by lia. change (Z.shiftl 1 52) with (2 ^ 52).
  fold (closer bits). change (1 - (1024 - 1 + 52)) with (-1074). change (1024 - 1 + 52) with 1075.
  replace (if bits / 2 ^ 52 =? 0 then Diyfp (bits mod 2 ^ 52) (-1074)
           else Diyfp (bits mod 2 ^ 52 + 2 ^ 52) (bits / 2 ^ 52 - 1075))
    with (Diyfp (significand_of bits) (exponent_of bits))
    by (unfold significand_of, exponent_of; by destruct (_ =? 0)).
  set (f := significand_of bits) in *. set (x := exponent_of bits) in *. cbn [df de].
  destruct (normalize_shift (Diyfp (2 * f + 1) (x - 1))) as (s & Hs & Hb & ->); cbn [df de] in *; [lia|].
  assert (Hs10 : 10 <= s).
  { destruct (Z.lt_ge_cases s 10); [|done]. pose proof (Z.pow_le_mono_r 2 s 9 ltac:(lia) ltac:(lia)). nia. }
  assert (Hs62 : s <= 62).
  { destruct (Z.lt_ge_cases 62 s); [|done]. pose proof (Z.pow_le_mono_r 2 63 s ltac:(lia) ltac:(lia)). nia. }
  exists s. cbn [bplus bminus df de]. split_and!; try done; try lia; try reflexivity.
  assert (H2 : 2 ^ s = 2 * 2 ^ (s - 1)) by (rewrite <- Z.pow_succ_r by lia; f_equal; lia).
  assert (0 < 2 ^ (s - 1)) by (apply Z.pow_pos_nonneg; lia).
  unfold diyfp_normalize_to. destruct (closer bits); cbn [df de].
  - replace (x - 2 - (x - 1 - s)) with (s - 1) by lia.
    rewrite Z.shiftl_mul_pow2 by lia. apply uint_small. nia.
  - replace (x - 1 - (x - 1 - s)) with s by lia.
    rewrite Z.shiftl_mul_pow2 by lia. apply uint_small. nia.
Qed.

(** The boundaries times a power [c] of at least [2 ^ 63], made safe by one unit: the upper one
    is less than [10 ^ 16] times their distance. *)
Lemma scaled_ratio f s c a b :
  1 <= f < 2 ^ 53 -> 10 <= s -> 2 ^ 63 <= c -> a = (2 * f + 1) * 2 ^ s ->
  (b = (2 * f - 1) * 2 ^ s \/ (f = 2 ^ 52 /\ b = (4 * f - 1) * 2 ^ (s - 1))) ->
  (a * c + 2 ^ 63) / 2 ^ 64 - 1 <
  10 ^ 16 * (((a * c + 2 ^ 63) / 2 ^ 64 - 1) - ((b * c + 2 ^ 63) / 2 ^ 64 + 1)).
Proof.
  intros Hf Hs Hc -> Hb.
  pose proof (Z.div_mod ((2 * f + 1) * 2 ^ s * c + 2 ^ 63) (2 ^ 64) ltac:(lia)) as Ea.
  pose proof (Z.mod_pos_bound ((2 * f + 1) * 2 ^ s * c + 2 ^ 63) (2 ^ 64) ltac:(lia)) as Ba.
  pose proof (Z.div_mod (b * c + 2 ^ 63) (2 ^ 64) ltac:(lia)) as Eb.
  pose proof (Z.mod_pos_bound (b * c + 2 ^ 63) (2 ^ 64) ltac:(lia)) as Bb.
  set (qa := ((2 * f + 1) * 2 ^ s * c + 2 ^ 63) / 2 ^ 64) in *. set (qb := (b * c + 2 ^ 63) / 2 ^ 64) in *.
  assert (Ht : exists t, 2 ^ s = 1024 * t /\ 2 ^ (s - 1) = 512 * t /\ 1 <= t).
  { exists (2 ^ (s - 10)). pose proof (Z.pow_pos_nonneg 2 (s - 10) ltac:(lia) ltac:(lia)).
    change 1024 with (2 ^ 10). change 512 with (2 ^ 9). rewrite <- !Z.pow_add_r by lia.
    split_and!; [f_equal; lia|f_equal; lia|lia]. }
  destruct Ht as (t & E1 & E2 & Ht). rewrite E1, ?E2 in *. clear E1 E2.
  assert (Hk : 2 ^ 63 <= t * c) by nia.
  destruct Hb as [->|[-> ->]].
  - replace ((2 * f + 1) * (1024 * t) * c) with (1024 * (2 * f + 1) * (t * c)) in * by ring.
    replace ((2 * f - 1) * (1024 * t) * c) with (1024 * (2 * f - 1) * (t * c)) in * by ring.
    set (k := t * c) in *. clearbody k qa qb. nia.
  - replace ((2 * 2 ^ 52 + 1) * (1024 * t) * c) with (1024 * (2 * 2 ^ 52 + 1) * (t * c)) in * by ring.
    replace ((4 * 2 ^ 52 - 1) * (512 * t) * c) with (512 * (4 * 2 ^ 52 - 1) * (t * c)) in * by ring.
    set (k := t * c) in *. clearbody k qa qb. lia.
Qed.

(** The safe boundaries: one unit inside the boundaries times the cached power. *)
Definition safe_minus (b : boundaries) (c : cached_power) : diyfp :=
  let w := diyfp_mul (bminus b) (Diyfp (pf c) (pe c)) in Diyfp (uint 64 (df w + 1)) (de w).
Definition safe_plus (b : boundaries) (c : cached_power) : diyfp :=
  let w := diyfp_mul (bplus b) (Diyfp (pf c) (pe c)) in Diyfp (uint 64 (df w - 1)) (de w).

Lemma grisu2_safe bits c :
  get_cached_power_for_binary_exponent (de (bplus (compute_boundaries bits))) = Ok c ->
  grisu2 bits =
    let b := compute_boundaries bits in
    grisu2_digit_gen (- pk c) (safe_minus b c) (diyfp_mul (bw b) (Diyfp (pf c) (pe c))) (safe_plus b c).
Proof. unfold grisu2. intros ->. reflexivity. Qed.

(** They are what the digit generation expects. *)
Lemma safe_bounds b c f s :
  1 <= f < 2 ^ 53 -> 10 <= s -> 2 ^ 63 <= pf c < 2 ^ 64 -> df (bplus b) = (2 * f + 1) * 2 ^ s ->
  (df (bminus b) = (2 * f - 1) * 2 ^ s \/ (f = 2 ^ 52 /\ df (bminus b) = (4 * f - 1) * 2 ^ (s - 1))) ->
  2 ^ 63 <= df (bplus b) < 2 ^ 64 ->
  let m := safe_minus b c in let p := safe_plus b c in
  df p = (df (bplus b) * pf c + 2 ^ 63) / 2 ^ 64 - 1 /\
  df m = (df (bminus b) * pf c + 2 ^ 63) / 2 ^ 64 + 1 /\ de p = de (bplus b) + pe c + 64 /\
  0 < df m < df p /\ 2 ^ 61 <= df p < 2 ^ 64 /\ df p < 10 ^ 16 * (df p - df m) /\
  0 < df (bminus b) < 2 ^ 64.
Proof.
  intros Hf Hs Hc Ha Hb Hab. unfold safe_minus, safe_plus. cbv zeta.
  assert (Hbm : 0 < df (bminus b) < df (bplus b)).
  { rewrite Ha. pose proof (Z.pow_pos_nonneg 2 (s - 1) ltac:(lia) ltac:(lia)).
    assert (H2 : 2 ^ s = 2 * 2 ^ (s - 1)) by (rewrite <- Z.pow_succ_r by lia; f_equal; lia).
    clear - Hb H2 H Hf. set (t := 2 ^ (s - 1)) in *. clearbody t.
    rewrite H2 in *. destruct Hb as [->|[-> ->]]; nia. }
  pose proof (scaled_ratio f s (pf c) _ _ Hf Hs ltac:(lia) Ha Hb) as Hratio.
  destruct (diyfp_mul_round (bplus b) (Diyfp (pf c) (pe c))) as [Hup Eup]; [lia|simpl; lia|].
  destruct (diyfp_mul_round (bminus b) (Diyfp (pf c) (pe c))) as [Hlow _]; [lia|simpl; lia|].
  generalize dependent (diyfp_mul (bminus b) (Diyfp (pf c) (pe c))). intros wm Hlow.
  generalize dependent (diyfp_mul (bplus b) (Diyfp (pf c) (pe c))). intros wp Hup Eup.
  cbn [df de] in *. rewrite <- Hup, <- Hlow in *.
  assert (Hu : 2 ^ 62 <= df wp < 2 ^ 64).
  { rewrite Hup. split; [apply Z.div_le_lower_bound; nia|apply Z.div_lt_upper_bound; nia]. }
  assert (Hl : 0 <= df wm).
  { rewrite Hlow. apply Z.div_pos; [|done]. apply Z.add_nonneg_nonneg; [|done].
    apply Z.mul_nonneg_nonneg; lia. }
  clear - Eup Hratio Hu Hl Hbm Hab.
  rewrite (uint_small 64 (df wp - 1)), (uint_small 64 (df wm + 1)) by lia. lia.
Qed.

Lemma grisu2_scaled bits :
  0 < bits < 2047 * 2 ^ 52 ->
  let b := compute_boundaries bits in
  exists c, get_cached_power_for_binary_exponent (de (bplus b)) = Ok c /\
    let m := safe_minus b c in let p := safe_plus b c in
    df p = (df (bplus b) * pf c + 2 ^ 63) / 2 ^ 64 - 1 /\
    df m = (df (bminus b) * pf c + 2 ^ 63) / 2 ^ 64 + 1 /\ de p = de (bplus b) + pe c + 64 /\
    0 < df m < df p /\ 2 ^ 61 <= df p < 2 ^ 64 /\ df p < 10 ^ 16 * (df p - df m) /\
    0 < df (bminus b) < 2 ^ 64 /\ -60 <= de p <= -32.
Proof.
  intros Hbits. destruct (boundaries_shape bits Hbits) as (s & Hs & Ha & Hab & _ & _ & He & Hb).
  destruct (significand_bounds bits Hbits) as (Hf & _ & Hcl). cbv zeta.
  generalize dependent (compute_boundaries bits). intros b Ha Hab He Hb.
  destruct (cached_power_fits _ He) as (c & Hget & Hc & Hexp). exists c. split; [done|].
  destruct (safe_bounds b c _ s Hf Hs Hc Ha) as (H1 & H2 & H3 & H4 & H5 & H6 & H7); [|done|].
  { destruct (closer bits); [right; split; [by apply Hcl|done]|by left]. }
  split_and!; try done; try apply H4; try apply H5; try apply H7; rewrite H3; apply Hexp.
Qed.

Lemma grisu2_ends bits :
  0 < bits < 2047 * 2 ^ 52 ->
  exists digits e, grisu2 bits = Ok (digits, e) /\ (1 <= String.length digits <= 17)%nat.
Proof.
  intros Hbits. destruct (grisu2_scaled bits Hbits) as (c & Hget & _ & _ & _ & Hm & Hp & Hr & _ & He).
  rewrite (grisu2_safe bits c Hget). by apply digit_gen_ends.
Qed.

(** Every double has a text. *)
Lemma digits2_pos_bounds m :
  2 ^ (Z.pos (digits2_pos m) - 1) <= Z.pos m < 2 ^ Z.pos (digits2_pos m).
Proof.
  induction m as [m IH|m IH|]; simpl digits2_pos; [| |done];
    rewrite Pos2Z.inj_succ, Z.pow_succ_r by lia;
    replace (Z.succ (Z.pos (digits2_pos m)) - 1) with (Z.succ (Z.pos (digits2_pos m) - 1)) by lia;
    rewrite Z.pow_succ_r by lia; lia.
Qed.

Lemma double_bits_bounds m e :
  bounded 53 1024 m e = true -> 0 < double_bits (Z.pos m) e < 2047 * 2 ^ 52.
Proof.
  unfold bounded, canonical_mantissa, fexp, emin. intros [Hm%Z.eqb_eq He%Z.leb_le]%andb_true_iff.
  pose proof (digits2_pos_bounds m) as Hd. unfold double_bits.
  destruct (Z.ltb_spec (Z.pos m) (2 ^ 52)) as [Hlt|Hge]; [lia|].
  assert (Z.pos (digits2_pos m) = 53) as Hd53.
  { assert (52 < Z.pos (digits2_pos m)); [|lia].
    apply (Z.pow_lt_mono_r_iff 2); lia. }
  rewrite Hd53 in *. lia.
Qed.

Lemma dump_float_total x :
  valid_binary 53 1024 x = true -> exists text, dump_float x = Ok text.
Proof.
  destruct x as [s|s| |s m e]; simpl; try (intros _; by eexists).
  intros Hb%double_bits_bounds. unfold to_chars. rewrite (proj2 (Z.eqb_neq _ 0)) by lia.
  destruct (grisu2_ends _ Hb) as (d & e' & -> & _). by eexists.
Qed.
