(* ===== verification/JsonDump.v ===== *)
(** * Text of JSON values

    The serializer of nlohmann::json (deps/libsdptransform/include/json.hpp) as
    [operator<<] runs it: compact, without escaping of non-ASCII characters, throwing
    on invalid UTF-8. *)

From Stdlib Require Import Ascii.
From S2P Require Import Prelude Json Regex Strings Dtoa.

(** ** Integers *)

(** A 64 bit number has at most 20 digits: [Undef] stands for a sixth round. *)
Fixpoint count_digits_loop (fuel : nat) (n_digits x : Z) : result Z :=
  match fuel with
  | O => Undef
  | S fuel =>
      if x <? 10 then Ok n_digits
      else if x <? 100 then Ok (n_digits + 1)
      else if x <? 1000 then Ok (n_digits + 2)
      else if x <? 10000 then Ok (n_digits + 3)
      else count_digits_loop fuel (n_digits + 4) (x / 10000)
  end.
Definition count_digits (x : Z) : result Z := count_digits_loop 5 1 x.

(** [digits_to_99[i]], written before [s] *)
Definition digits_to_99 (i : Z) (s : string) : string :=
  String (digit_char (i / 10)) (String (digit_char (i mod 10)) s).

(** The digits written backwards, two at a time, before [s]. *)
Fixpoint dump_digits (fuel : nat) (abs_value : Z) (s : string) : result string :=
  match fuel with
  | O => Undef
  | S fuel =>
      if 100 <=? abs_value then
        dump_digits fuel (abs_value / 100) (digits_to_99 (abs_value mod 100) s)
      else if 10 <=? abs_value then Ok (digits_to_99 abs_value s)
      else Ok (String (digit_char abs_value) s)
  end.

(** The buffer holds what [count_digits] made room for: filling it with more or fewer
    digits would leave the buffer or show what it held before. *)
Definition dump_integer (x : Z) : result string :=
  if x =? 0 then Ok "0"
  else
    let abs_value := Z.abs x in
    let? n_chars := count_digits abs_value in
    let? digits := dump_digits 11 abs_value "" in
    if Z.of_nat (String.length digits) =? n_chars then
      Ok ((if x <? 0 then "-" else "") +:+ digits)
    else Undef.

(** ** Strings *)

Definition utf8d : list Z :=
  [0; 0; 0; 0; 0; 0; 0; 0; 0; 0; 0; 0; 0; 0; 0; 0; 0; 0; 0; 0; 0; 0; 0; 0; 0; 0; 0; 0; 0; 0; 0; 0;
   0; 0; 0; 0; 0; 0; 0; 0; 0; 0; 0; 0; 0; 0; 0; 0; 0; 0; 0; 0; 0; 0; 0; 0; 0; 0; 0; 0; 0; 0; 0; 0;
   0; 0; 0; 0; 0; 0; 0; 0; 0; 0; 0; 0; 0; 0; 0; 0; 0; 0; 0; 0; 0; 0; 0; 0; 0; 0; 0; 0; 0; 0; 0; 0;
   0; 0; 0; 0; 0; 0; 0; 0; 0; 0; 0; 0; 0; 0; 0; 0; 0; 0; 0; 0; 0; 0; 0; 0; 0; 0; 0; 0; 0; 0; 0; 0;
   1; 1; 1; 1; 1; 1; 1; 1; 1; 1; 1; 1; 1; 1; 1; 1; 9; 9; 9; 9; 9; 9; 9; 9; 9; 9; 9; 9; 9; 9; 9; 9;
   7; 7; 7; 7; 7; 7; 7; 7; 7; 7; 7; 7; 7; 7; 7; 7; 7; 7; 7; 7; 7; 7; 7; 7; 7; 7; 7; 7; 7; 7; 7; 7;
   8; 8; 2; 2; 2; 2; 2; 2; 2; 2; 2; 2; 2; 2; 2; 2; 2; 2; 2; 2; 2; 2; 2; 2; 2; 2; 2; 2; 2; 2; 2; 2;
   10; 3; 3; 3; 3; 3; 3; 3; 3; 3; 3; 3; 3; 4; 3; 3;
   11; 6; 6; 6; 5; 8; 8; 8; 8; 8; 8; 8; 8; 8; 8; 8;
   0; 1; 2; 3; 5; 8; 7; 1; 1; 1; 4; 6; 1; 1; 1; 1;
   1; 1; 1; 1; 1; 1; 1; 1; 1; 1; 1; 1; 1; 1; 1; 1; 1; 0; 1; 1; 1; 1; 1; 0; 1; 0; 1; 1; 1; 1; 1; 1;
   1; 2; 1; 1; 1; 1; 1; 2; 1; 2; 1; 1; 1; 1; 1; 1; 1; 1; 1; 1; 1; 1; 1; 2; 1; 1; 1; 1; 1; 1; 1; 1;
   1; 2; 1; 1; 1; 1; 1; 1; 1; 2; 1; 1; 1; 1; 1; 1; 1; 1; 1; 1; 1; 1; 1; 3; 1; 3; 1; 1; 1; 1; 1; 1;
   1; 3; 1; 1; 1; 1; 1; 3; 1; 3; 1; 1; 1; 1; 1; 1; 1; 3; 1; 1; 1; 1; 1; 1; 1; 1; 1; 1; 1; 1; 1; 1].

Definition UTF8_ACCEPT : Z := 0.
Definition UTF8_REJECT : Z := 1.

(** The new state and code point *)
Definition decode (state codep byte : Z) : Z * Z :=
  let type := nth (Z.to_nat byte) utf8d 0 in
  let codep :=
    if negb (state =? UTF8_ACCEPT)
    then Z.lor (Z.land byte 0x3f) (uint 32 (Z.shiftl codep 6))
    else Z.land (Z.shiftr 0xFF type) byte in
  (nth (Z.to_nat (256 + state * 16 + type)) utf8d 0, codep).

Definition backslash : ascii := "\"%char.
Definition quote : ascii := "034"%char.
Definition hex_char (d : Z) : ascii :=
  ascii_of_N (Z.to_N (if d <? 10 then 48 + d else 87 + d)).

(** What is written for an accepted code point whose last byte is [a]. *)
Definition escape (codepoint : Z) (a : ascii) : string :=
  let esc c := String backslash (String c "") in
  if codepoint =? 0x08 then esc "b"%char
  else if codepoint =? 0x09 then esc "t"%char
  else if codepoint =? 0x0A then esc "n"%char
  else if codepoint =? 0x0C then esc "f"%char
  else if codepoint =? 0x0D then esc "r"%char
  else if codepoint =? 0x22 then esc quote
  else if codepoint =? 0x5C then esc backslash
  else if codepoint <=? 0x1F then
    String backslash ("u00" +:+
      String (hex_char (codepoint / 16)) (String (hex_char (codepoint mod 16)) ""))
  else String a "".

Fixpoint dump_escaped_from (state codepoint : Z) (s : string) : result string :=
  match s with
  | EmptyString => if state =? UTF8_ACCEPT then Ok "" else Throw (JsonTypeError 316)
  | String a s =>
      let '(state, codepoint) := decode state codepoint (Z.of_N (N_of_ascii a)) in
      if state =? UTF8_ACCEPT then
        let? rest := dump_escaped_from state codepoint s in
        Ok (escape codepoint a +:+ rest)
      else if state =? UTF8_REJECT then Throw (JsonTypeError 316)
      else
        let? rest := dump_escaped_from state codepoint s in
        Ok (String a rest)
  end.
Definition dump_escaped (s : string) : result string := dump_escaped_from UTF8_ACCEPT 0 s.

Definition quoted (s : string) : result string :=
  let? t := dump_escaped s in Ok (String quote (t +:+ String quote "")).

(** ** Values *)

Fixpoint dump (val : json) : result string :=
  match val with
  | JObject m =>
      let? entries :=
        (fix go (m : list (string * json)) : result string :=
          match m with
          | [] => Ok ""
          | (k, v) :: m =>
              let? key := quoted k in
              let? text := dump v in
              let? rest := go m in
              Ok (key +:+ ":" +:+ text +:+ (if bool_decide (m = []) then "" else ",") +:+ rest)
          end) m in
      Ok ("{" +:+ entries +:+ "}")
  | JArray l =>
      let? entries :=
        (fix go (l : list json) : result string :=
          match l with
          | [] => Ok ""
          | v :: l =>
              let? text := dump v in
              let? rest := go l in
              Ok (text +:+ (if bool_decide (l = []) then "" else ",") +:+ rest)
          end) l in
      Ok ("[" +:+ entries +:+ "]")
  | JString s => quoted s
  | JBool b => Ok (if b then "true" else "false")
  | JInt z => dump_integer z
  | JUInt n => dump_integer n
  | JFloat f => dump_float f
  | JNull => Ok "null"
  end.
