(* ===== verification/JsonDumpSpec.v ===== *)
(** * Text of JSON values: the proofs

    The buffered conversion of integers, two digits at a time into a buffer whose
    size is computed first, writes the decimal text of the number. *)

From Stdlib Require Import Ascii.
From stdpp Require Import pretty.
From S2P Require Import Prelude Json Regex Strings Dtoa JsonDump.

Lemma digit_char_pretty d : (d < 10)%N -> digit_char (Z.of_N d) = pretty_N_char d.
Proof.
  intros H. assert (d = 0 \/ d = 1 \/ d = 2 \/ d = 3 \/ d = 4 \/ d = 5 \/ d = 6 \/ d = 7 \/
    d = 8 \/ d = 9)%N as Hd by lia.
  by destruct Hd as [->|[->|[->|[->|[->|[->|[->|[->|[->| ->]]]]]]]]].
Qed.

(** One digit of the text is the remainder, the others are those of the quotient. *)
Lemma pretty_digit (x : N) s :
  (0 < x)%N -> pretty_N_go x s = pretty_N_go (x / 10) (String (digit_char (Z.of_N x mod 10)) s).
Proof.
  intros Hx. rewrite pretty_N_go_step by lia. do 2 f_equal.
  rewrite <- digit_char_pretty by (apply N.mod_lt; lia). f_equal. by rewrite N2Z.inj_mod.
Qed.

(** The text of a number below 10, 100. *)
Lemma pretty_below_10 (x : N) s :
  (0 < x < 10)%N -> pretty_N_go x s = String (digit_char (Z.of_N x)) s.
Proof.
  intros Hx. rewrite pretty_digit by lia. rewrite N.div_small by lia.
  rewrite pretty_N_go_0. by rewrite Z.mod_small by lia.
Qed.

Lemma pretty_below_100 (x : N) s :
  (10 <= x < 100)%N -> pretty_N_go x s = digits_to_99 (Z.of_N x) s.
Proof.
  intros Hx. rewrite pretty_digit by lia.
  assert (1 <= x / 10)%N by (apply N.div_le_lower_bound; lia).
  assert (x / 10 < 10)%N by (apply N.Div0.div_lt_upper_bound; lia).
  rewrite pretty_below_10 by lia. unfold digits_to_99. by rewrite N2Z.inj_div.
Qed.

Lemma pretty_two_digits (x : N) s :
  (100 <= x)%N -> pretty_N_go x s = pretty_N_go (x / 100) (digits_to_99 (Z.of_N x mod 100) s).
Proof.
  intros Hx. rewrite pretty_digit by lia.
  assert (10 <= x / 10)%N by (apply N.div_le_lower_bound; lia).
  rewrite pretty_digit by lia. rewrite N.Div0.div_div. unfold digits_to_99.
  change (10 * 10)%N with 100%N. rewrite N2Z.inj_div. change (Z.of_N 10) with 10.
  change 100 with (10 * 10). rewrite !Z.rem_mul_r by lia.
  rewrite (Z.mul_comm 10 (_ mod 10)), Z.div_add, Z.add_comm, Z.mod_add by lia.
  rewrite (Z.div_small (Z.of_N x mod 10) 10), Z.add_0_r, Z.mod_mod by (try apply Z.mod_pos_bound; lia).
  done.
Qed.

Lemma dump_digits_pretty fuel x s :
  0 < x < 100 ^ Z.of_nat fuel -> dump_digits fuel x s = Ok (pretty_N_go (Z.to_N x) s).
Proof.
  revert x s. induction fuel as [|fuel IH]; intros x s Hx; [simpl in Hx; lia|]. cbn [dump_digits].
  rewrite Nat2Z.inj_succ, Z.pow_succ_r in Hx by lia.
  destruct (Z.leb_spec 100 x).
  - rewrite IH.
    + rewrite (pretty_two_digits (Z.to_N x)) by lia. rewrite Z2N.inj_div by lia.
      by rewrite Z2N.id by lia.
    + split; [apply Z.div_str_pos; lia|apply Z.div_lt_upper_bound; lia].
  - destruct (Z.leb_spec 10 x).
    + rewrite pretty_below_100 by lia. by rewrite Z2N.id by lia.
    + rewrite pretty_below_10 by lia. by rewrite Z2N.id by lia.
Qed.

(** ** The size of the buffer *)

Definition decimal_length (x : Z) : Z := Z.of_nat (String.length (pretty_N_go (Z.to_N x) "")).

Lemma pretty_length (x : N) s :
  String.length (pretty_N_go x s) = (String.length (pretty_N_go x "") + String.length s)%nat.
Proof.
  revert s. induction (N.lt_wf_0 x) as [x _ IH]; intros s.
  destruct (decide (x = 0)%N) as [->|Hx]; [by rewrite !pretty_N_go_0|].
  rewrite !(pretty_digit x) by lia.
  rewrite IH by (apply N.div_lt; lia). symmetry.
  rewrite IH by (apply N.div_lt; lia). simpl. lia.
Qed.

Lemma decimal_length_step x : 10 <= x -> decimal_length x = decimal_length (x / 10) + 1.
Proof.
  intros Hx. unfold decimal_length. rewrite pretty_digit by lia. rewrite pretty_length.
  simpl String.length. rewrite Z2N.inj_div by lia. change (Z.to_N 10) with 10%N. lia.
Qed.

Lemma decimal_length_small x : 0 < x < 10 -> decimal_length x = 1.
Proof. intros Hx. unfold decimal_length. by rewrite pretty_below_10 by lia. Qed.

Lemma count_digits_loop_correct fuel n x :
  0 < x < 10000 ^ Z.of_nat fuel -> count_digits_loop fuel n x = Ok (n + decimal_length x - 1).
Proof.
  revert n x. induction fuel as [|fuel IH]; intros n x Hx; [simpl in Hx; lia|].
  cbn [count_digits_loop]. rewrite Nat2Z.inj_succ, Z.pow_succ_r in Hx by lia.
  destruct (Z.ltb_spec x 10); [rewrite decimal_length_small by lia; f_equal; lia|].
  rewrite decimal_length_step by lia.
  destruct (Z.ltb_spec x 100).
  { rewrite decimal_length_small; [f_equal; lia|].
    split; [apply Z.div_str_pos|apply Z.div_lt_upper_bound]; lia. }
  assert (10 <= x / 10) by (apply Z.div_le_lower_bound; lia).
  rewrite decimal_length_step, Z.div_div by lia. change (10 * 10) with 100.
  destruct (Z.ltb_spec x 1000).
  { rewrite decimal_length_small; [f_equal; lia|].
    split; [apply Z.div_str_pos|apply Z.div_lt_upper_bound]; lia. }
  assert (10 <= x / 100) by (apply Z.div_le_lower_bound; lia).
  rewrite decimal_length_step, Z.div_div by lia. change (100 * 10) with 1000.
  destruct (Z.ltb_spec x 10000).
  { rewrite decimal_length_small; [f_equal; lia|].
    split; [apply Z.div_str_pos|apply Z.div_lt_upper_bound]; lia. }
  assert (10 <= x / 1000) by (apply Z.div_le_lower_bound; lia).
  rewrite decimal_length_step, Z.div_div by lia. change (1000 * 10) with 10000.
  rewrite IH; [f_equal; lia|].
  split; [apply Z.div_str_pos; lia|apply Z.div_lt_upper_bound; lia].
Qed.

Lemma dump_integer_to_string x : - 2 ^ 64 < x < 2 ^ 64 -> dump_integer x = Ok (to_string x).
Proof.
  intros Hx. unfold dump_integer. destruct (Z.eqb_spec x 0) as [->|Hne]; [done|].
  unfold count_digits. rewrite count_digits_loop_correct by (simpl; lia). cbn [result_bind].
  rewrite dump_digits_pretty by (simpl; lia). cbn [result_bind].
  fold (decimal_length (Z.abs x)). rewrite (proj2 (Z.eqb_eq _ _)) by lia. f_equal.
  unfold to_string, pretty, pretty_Z, pretty, pretty_positive, pretty, pretty_N.
  destruct x as [|p|p]; [done| |]; rewrite decide_False by done; done.
Qed.

(** C40.  The fast conversion of integers in the JSON serializer, which sizes its buffer
    with [count_digits] and fills it backwards two digits at a time, is the decimal text
    of the number for every 64 bit integer, signed or unsigned; in particular the buffer
    is filled exactly. *)
Theorem dump_integer_correct (x : Z) (Hx : - 2 ^ 63 <= x < 2 ^ 64) :
  dump_integer x = Ok (to_string x) /\
  (x <> 0 -> exists digits, dump_digits 11 (Z.abs x) "" = Ok digits /\
    count_digits (Z.abs x) = Ok (Z.of_nat (String.length digits))).
Proof.
  split; [apply dump_integer_to_string; lia|]. intros Hne.
  exists (pretty_N_go (Z.to_N (Z.abs x)) ""). split.
  - apply dump_digits_pretty. simpl. lia.
  - unfold count_digits. rewrite count_digits_loop_correct by (simpl; lia).
    unfold decimal_length. f_equal. lia.
Qed.

Lemma dump_integer_correct_witness :
  (- 2 ^ 63 <= - 2 ^ 63 < 2 ^ 64) /\ dump_integer (- 2 ^ 63) = Ok "-9223372036854775808".
Proof. split; [lia|]. apply (dump_integer_correct (- 2 ^ 63)). lia. Defined.
