(* ===== verification/JsonParser.v ===== *)
(** * JSON text to values

    The lexer and the parser of nlohmann::json 3.7.3
    (libsdptransform/include/json.hpp) as [json::parse] runs them: from a string, without
    a callback, with exceptions.  The lexer is a function from the bytes that are left to a
    token and the bytes after it: [unget] gives the last byte back.  The events of the
    parser build the value from the containers that are open, innermost first. *)

From Stdlib Require Import Ascii.
From S2P Require Import Prelude Json Regex Strings JsonDump.

(** ** Tokens *)

Inductive token_type :=
| literal_true | literal_false | literal_null
| value_string (s : string)
| value_unsigned (n : Z)
| value_integer (z : Z)
| value_float (f : option spec_float)       (* [None]: infinite *)
| begin_array | begin_object | end_array | end_object
| name_separator | value_separator
| parse_error
| end_of_input.

Definition byte_of (a : ascii) : Z := Z.of_N (N_of_ascii a).
Definition to_char (c : Z) : ascii := ascii_of_N (Z.to_N c).
Definition char_in (lo hi : Z) (a : ascii) : bool := (lo <=? byte_of a) && (byte_of a <=? hi).
Definition add (c : Z) (token_buffer : string) : string :=
  token_buffer +:+ String (to_char c) "".

(** ** Strings *)

(** The four hexadecimal digits after [\u]: their number, and what follows. *)
Fixpoint get_codepoint (factors : list Z) (codepoint : Z) (s : string) : option (Z * string) :=
  match factors with
  | [] => Some (codepoint, s)
  | factor :: factors =>
      match s with
      | EmptyString => None
      | String a s =>
          if char_in 0x30 0x39 a then
            get_codepoint factors (codepoint + Z.shiftl (byte_of a - 0x30) factor) s
          else if char_in 0x41 0x46 a then
            get_codepoint factors (codepoint + Z.shiftl (byte_of a - 0x37) factor) s
          else if char_in 0x61 0x66 a then
            get_codepoint factors (codepoint + Z.shiftl (byte_of a - 0x57) factor) s
          else None
      end
  end.
Definition codepoint_factors : list Z := [12; 8; 4; 0].

(** Adds the current byte, and the next ones if they are in their ranges. *)
Fixpoint bytes_in_ranges (ranges : list (Z * Z)) (token_buffer s : string) :
    option (string * string) :=
  match ranges with
  | [] => Some (token_buffer, s)
  | (lo, hi) :: ranges =>
      match s with
      | String a s =>
          if char_in lo hi a then bytes_in_ranges ranges (add (byte_of a) token_buffer) s else None
      | EmptyString => None
      end
  end.
Definition next_byte_in_range (current : ascii) (ranges : list (Z * Z)) (token_buffer s : string) :
    option (string * string) :=
  bytes_in_ranges ranges (add (byte_of current) token_buffer) s.

(** The UTF-8 bytes of a code point. *)
Definition add_codepoint (codepoint : Z) (token_buffer : string) : string :=
  if codepoint <? 0x80 then add codepoint token_buffer
  else if codepoint <=? 0x7FF then
    add (Z.lor 0x80 (Z.land codepoint 0x3F))
      (add (Z.lor 0xC0 (Z.shiftr codepoint 6)) token_buffer)
  else if codepoint <=? 0xFFFF then
    add (Z.lor 0x80 (Z.land codepoint 0x3F))
      (add (Z.lor 0x80 (Z.land (Z.shiftr codepoint 6) 0x3F))
        (add (Z.lor 0xE0 (Z.shiftr codepoint 12)) token_buffer))
  else
    add (Z.lor 0x80 (Z.land codepoint 0x3F))
      (add (Z.lor 0x80 (Z.land (Z.shiftr codepoint 6) 0x3F))
        (add (Z.lor 0x80 (Z.land (Z.shiftr codepoint 12) 0x3F))
          (add (Z.lor 0xF0 (Z.shiftr codepoint 18)) token_buffer))).

(** The code point of [\uXXXX], which may need a second one. *)
Definition scan_unicode (s : string) : option (Z * string) :=
  match get_codepoint codepoint_factors 0 s with
  | None => None
  | Some (codepoint1, s) =>
      if (0xD800 <=? codepoint1) && (codepoint1 <=? 0xDBFF) then
        match s with
        | String a (String b s) =>
            if Ascii.eqb a backslash && Ascii.eqb b "u"%char then
              match get_codepoint codepoint_factors 0 s with
              | None => None
              | Some (codepoint2, s) =>
                  if (0xDC00 <=? codepoint2) && (codepoint2 <=? 0xDFFF) then
                    Some (uint 32 (uint 32 (Z.shiftl codepoint1 10) + codepoint2 - 0x35FDC00), s)
                  else None
              end
            else None
        | _ => None
        end
      else if (0xDC00 <=? codepoint1) && (codepoint1 <=? 0xDFFF) then None
      else Some (codepoint1, s)
  end.

(** What follows a backslash *)
Definition scan_escape (token_buffer s : string) : option (string * string) :=
  match s with
  | EmptyString => None
  | String a s =>
      if Ascii.eqb a quote || Ascii.eqb a backslash || Ascii.eqb a "/"%char then
        Some (add (byte_of a) token_buffer, s)
      else if Ascii.eqb a "b"%char then Some (add 0x08 token_buffer, s)
      else if Ascii.eqb a "f"%char then Some (add 0x0C token_buffer, s)
      else if Ascii.eqb a "n"%char then Some (add 0x0A token_buffer, s)
      else if Ascii.eqb a "r"%char then Some (add 0x0D token_buffer, s)
      else if Ascii.eqb a "t"%char then Some (add 0x09 token_buffer, s)
      else if Ascii.eqb a "u"%char then
        match scan_unicode s with
        | Some (codepoint, s) => Some (add_codepoint codepoint token_buffer, s)
        | None => None
        end
      else None
  end.

(** The ranges of the bytes after the first one of a character, [None] for a byte that
    starts none: the control characters and the bytes that are no UTF-8. *)
Definition following_bytes (a : ascii) : option (list (Z * Z)) :=
  let cont := (0x80, 0xBF) in
  if char_in 0x00 0x1F a then None
  else if char_in 0x20 0x7F a then Some []
  else if char_in 0xC2 0xDF a then Some [cont]
  else if char_in 0xE0 0xE0 a then Some [(0xA0, 0xBF); cont]
  else if char_in 0xE1 0xEC a || char_in 0xEE 0xEF a then Some [cont; cont]
  else if char_in 0xED 0xED a then Some [(0x80, 0x9F); cont]
  else if char_in 0xF0 0xF0 a then Some [(0x90, 0xBF); cont; cont]
  else if char_in 0xF1 0xF3 a then Some [cont; cont; cont]
  else if char_in 0xF4 0xF4 a then Some [(0x80, 0x8F); cont; cont]
  else None.

(** Every round reads a byte. *)
Fixpoint scan_string (fuel : nat) (token_buffer s : string) : result (token_type * string) :=
  match fuel with
  | O => Undef
  | S fuel =>
      match s with
      | EmptyString => Ok (parse_error, s)
      | String a s =>
          if Ascii.eqb a quote then Ok (value_string token_buffer, s)
          else
            match (if Ascii.eqb a backslash then scan_escape token_buffer s
                   else match following_bytes a with
                        | Some ranges => next_byte_in_range a ranges token_buffer s
                        | None => None
                        end) with
            | Some (token_buffer, s) => scan_string fuel token_buffer s
            | None => Ok (parse_error, s)
            end
      end
  end.

(** ** Numbers *)

Inductive number_state :=
| scan_number_minus | scan_number_zero | scan_number_any1 | scan_number_decimal1
| scan_number_decimal2 | scan_number_exponent | scan_number_sign | scan_number_any2.

(** What a state does with the next character, [None] at the end of the input. *)
Inductive number_move :=
| Goto (state : number_state)
| Done
| Error.

Definition is_e (a : ascii) : bool := one_of "eE" a.
Definition number_next (state : number_state) (a : ascii) : number_move :=
  match state with
  | scan_number_minus =>
      if Ascii.eqb a "0"%char then Goto scan_number_zero
      else if is_digit a then Goto scan_number_any1
      else Error
  | scan_number_zero =>
      if Ascii.eqb a "."%char then Goto scan_number_decimal1
      else if is_e a then Goto scan_number_exponent
      else Done
  | scan_number_any1 =>
      if is_digit a then Goto scan_number_any1
      else if Ascii.eqb a "."%char then Goto scan_number_decimal1
      else if is_e a then Goto scan_number_exponent
      else Done
  | scan_number_decimal1 => if is_digit a then Goto scan_number_decimal2 else Error
  | scan_number_decimal2 =>
      if is_digit a then Goto scan_number_decimal2
      else if is_e a then Goto scan_number_exponent
      else Done
  | scan_number_exponent =>
      if one_of "+-" a then Goto scan_number_sign
      else if is_digit a then Goto scan_number_any2
      else Error
  | scan_number_sign => if is_digit a then Goto scan_number_any2 else Error
  | scan_number_any2 => if is_digit a then Goto scan_number_any2 else Done
  end.
Definition number_at_end (state : number_state) : number_move :=
  match state with
  | scan_number_zero | scan_number_any1 | scan_number_decimal2 | scan_number_any2 => Done
  | _ => Error
  end.

Inductive number_type := number_unsigned | number_integer | number_float.
(** The type once a state is entered. *)
Definition type_in (state : number_state) (t : number_type) : number_type :=
  match state with
  | scan_number_minus => number_integer
  | scan_number_decimal1 | scan_number_exponent => number_float
  | _ => t
  end.

Fixpoint scan_number_from (state : number_state) (t : number_type) (token_buffer s : string) :
    option (number_type * string * string) :=
  match s with
  | EmptyString =>
      match number_at_end state with Done => Some (t, token_buffer, s) | _ => None end
  | String a s' =>
      match number_next state a with
      | Goto state => scan_number_from state (type_in state t) (token_buffer +:+ String a "") s'
      | Done => Some (t, token_buffer, s)
      | Error => None
      end
  end.

(** Integers that overflow become floating point numbers. *)
Definition number_token (t : number_type) (token_buffer : string) : token_type :=
  let strtof := value_float (extract_float 53 1024 token_buffer) in
  match t with
  | number_unsigned =>
      match extract_unsigned 64 token_buffer with
      | Some x => value_unsigned x
      | None => strtof
      end
  | number_integer =>
      match extract_signed 64 token_buffer with
      | Some x => value_integer x
      | None => strtof
      end
  | number_float => strtof
  end.

Definition scan_number (current : ascii) (s : string) : token_type * string :=
  let state :=
    if Ascii.eqb current "-"%char then scan_number_minus
    else if Ascii.eqb current "0"%char then scan_number_zero
    else scan_number_any1 in
  match scan_number_from state (type_in state number_unsigned) (String current "") s with
  | Some (t, token_buffer, s) => (number_token t token_buffer, s)
  | None => (parse_error, s)
  end.

(** ** The scanner *)

(** [text] is the literal without its first character. *)
Fixpoint scan_literal (text : string) (return_type : token_type) (s : string) :
    token_type * string :=
  match text with
  | EmptyString => (return_type, s)
  | String b text =>
      match s with
      | String a s => if Ascii.eqb a b then scan_literal text return_type s else (parse_error, s)
      | EmptyString => (parse_error, s)
      end
  end.

(** [None] when the input starts a byte order mark that it does not end. *)
Definition skip_bom (s : string) : option string :=
  match s with
  | String a rest =>
      if byte_of a =? 0xEF then
        match rest with
        | String b (String c rest) =>
            if (byte_of b =? 0xBB) && (byte_of c =? 0xBF) then Some rest else None
        | _ => None
        end
      else Some s
  | EmptyString => Some s
  end.

Definition is_blank (a : ascii) : bool :=
  Ascii.eqb a " "%char || Ascii.eqb a "009"%char || Ascii.eqb a "010"%char || Ascii.eqb a "013"%char.
Fixpoint skip_blanks (s : string) : string :=
  match s with
  | String a s' => if is_blank a then skip_blanks s' else s
  | EmptyString => s
  end.

(** The next token, after the byte order mark. *)
Definition scan (s : string) : result (token_type * string) :=
  match skip_blanks s with
  | EmptyString => Ok (end_of_input, "")
  | String a s =>
      if Ascii.eqb a "["%char then Ok (begin_array, s)
      else if Ascii.eqb a "]"%char then Ok (end_array, s)
      else if Ascii.eqb a "{"%char then Ok (begin_object, s)
      else if Ascii.eqb a "}"%char then Ok (end_object, s)
      else if Ascii.eqb a ":"%char then Ok (name_separator, s)
      else if Ascii.eqb a ","%char then Ok (value_separator, s)
      else if Ascii.eqb a "t"%char then Ok (scan_literal "rue" literal_true s)
      else if Ascii.eqb a "f"%char then Ok (scan_literal "alse" literal_false s)
      else if Ascii.eqb a "n"%char then Ok (scan_literal "ull" literal_null s)
      else if Ascii.eqb a quote then scan_string (S (String.length s)) "" s
      else if Ascii.eqb a "-"%char || is_digit a then Ok (scan_number a s)
      else if Ascii.eqb a "000"%char then Ok (end_of_input, s)
      else Ok (parse_error, s)
  end.

(** ** The value *)

(** A container of [ref_stack].  What it holds is complete but for the container above it
    in the stack, which [end_array] or [end_object] puts in its place. *)
Inductive frame :=
| OpenArray (l : list json)
| OpenObject (m : list (string * json)) (object_element : string).
Record dom := { root : json; ref_stack : list frame }.

Definition handle_value (v : json) (d : dom) : dom :=
  match ref_stack d with
  | [] => {| root := v; ref_stack := [] |}
  | OpenArray l :: st => {| root := root d; ref_stack := OpenArray (l ++ [v]) :: st |}
  | OpenObject m k :: st =>
      {| root := root d; ref_stack := OpenObject (obj_insert k v m) k :: st |}
  end.
Definition start_object (d : dom) : dom :=
  {| root := root d; ref_stack := OpenObject [] "" :: ref_stack d |}.
Definition start_array (d : dom) : dom :=
  {| root := root d; ref_stack := OpenArray [] :: ref_stack d |}.
Definition key (k : string) (d : dom) : dom :=
  match ref_stack d with
  | OpenObject m _ :: st => {| root := root d; ref_stack := OpenObject m k :: st |}
  | _ => d
  end.
(** [end_object] and [end_array] *)
Definition end_container (d : dom) : dom :=
  match ref_stack d with
  | OpenArray l :: st => handle_value (JArray l) {| root := root d; ref_stack := st |}
  | OpenObject m _ :: st => handle_value (JObject m) {| root := root d; ref_stack := st |}
  | [] => d
  end.

(** ** The parser *)

Record parser := {
  last_token : token_type;
  input : string;
  states : list bool;             (* true: array; false: object *)
  sax : dom;
}.

Definition get_token (p : parser) : result parser :=
  let? r := scan (input p) in
  Ok {| last_token := r.1; input := r.2; states := states p; sax := sax p |}.
Definition on_sax (f : dom -> dom) (p : parser) : parser :=
  {| last_token := last_token p; input := input p; states := states p; sax := f (sax p) |}.
Definition set_states (st : list bool) (p : parser) : parser :=
  {| last_token := last_token p; input := input p; states := st; sax := sax p |}.
Definition syntax_error {A} : result A := Throw (JsonParseError 101).

(** What an iteration leads to: the next one, at its start or at the evaluation of the state,
    or the end. *)
Inductive progress :=
| Continue (skip_to_state_evaluation : bool) (p : parser)
| Finished (p : parser).

(** A key, the separator and the first token of the value. *)
Definition parse_key (st : list bool) (p : parser) : result progress :=
  match last_token p with
  | value_string k =>
      let? p := get_token (on_sax (key k) p) in
      match last_token p with
      | name_separator => let? p := get_token (set_states st p) in Ok (Continue false p)
      | _ => syntax_error
      end
  | _ => syntax_error
  end.

(** After a value *)
Definition evaluate_state (p : parser) : result progress :=
  match states p with
  | [] => Ok (Finished p)
  | true :: st =>
      let? p := get_token p in
      match last_token p with
      | value_separator => let? p := get_token p in Ok (Continue false p)
      | end_array => Ok (Continue true (set_states st (on_sax end_container p)))
      | _ => syntax_error
      end
  | false :: st =>
      let? p := get_token p in
      match last_token p with
      | value_separator => let? p := get_token p in parse_key (states p) p
      | end_object => Ok (Continue true (set_states st (on_sax end_container p)))
      | _ => syntax_error
      end
  end.

Definition parse_scalar (v : json) (p : parser) : result progress :=
  evaluate_state (on_sax (handle_value v) p).

Definition parse_token (p : parser) : result progress :=
  match last_token p with
  | begin_object =>
      let? p := get_token (on_sax start_object p) in
      match last_token p with
      | end_object => evaluate_state (on_sax end_container p)
      | _ => parse_key (false :: states p) p
      end
  | begin_array =>
      let? p := get_token (on_sax start_array p) in
      match last_token p with
      | end_array => evaluate_state (on_sax end_container p)
      | _ => Ok (Continue false (set_states (true :: states p) p))
      end
  | value_float (Some f) => parse_scalar (JFloat f) p
  | value_float None => Throw (JsonOutOfRange 406)
  | literal_false => parse_scalar (JBool false) p
  | literal_null => parse_scalar JNull p
  | literal_true => parse_scalar (JBool true) p
  | value_integer z => parse_scalar (JInt z) p
  | value_string s => parse_scalar (JString s) p
  | value_unsigned n => parse_scalar (JUInt n) p
  | _ => syntax_error
  end.

(** Every round reads a token. *)
Fixpoint sax_parse_internal (fuel : nat) (skip_to_state_evaluation : bool) (p : parser) :
    result parser :=
  match fuel with
  | O => Undef
  | S fuel =>
      let? r := if skip_to_state_evaluation then evaluate_state p else parse_token p in
      match r with
      | Continue skip p => sax_parse_internal fuel skip p
      | Finished p => Ok p
      end
  end.

(** [json::parse(text)] *)
Definition json_parse (text : string) : result json :=
  match skip_bom text with
  | None => syntax_error
  | Some text =>
      let? p := get_token {| last_token := parse_error; input := text; states := [];
                             sax := {| root := JNull; ref_stack := [] |} |} in
      let? p := sax_parse_internal (S (String.length text)) false p in
      let? q := get_token p in
      match last_token q with
      | end_of_input => Ok (root (sax p))
      | _ => syntax_error
      end
  end.
