(* ===== verification/JsonUtf8.v ===== *)
(** * UTF-8 in JSON text

    The serializer decodes strings with a table, the lexer checks the ranges of the bytes of
    a character: both accept the same strings. *)

From Stdlib Require Import Ascii.
From S2P Require Import Prelude Json Regex Strings JsonDump JsonParser.

(** ** The decoder and the ranges of the lexer *)

(** The bytes that the decoder of the serializer expects in a state. *)
Definition pending (state : Z) : list (Z * Z) :=
  let cont := (0x80, 0xBF) in
  match state with
  | 2 => [cont]
  | 3 => [cont; cont]
  | 4 => [(0xA0, 0xBF); cont]
  | 5 => [(0x80, 0x9F); cont]
  | 6 => [(0x90, 0xBF); cont; cont]
  | 7 => [cont; cont; cont]
  | 8 => [(0x80, 0x8F); cont; cont]
  | _ => []
  end.
(** Bounds of the code point that is being read, which make it one of more than one byte. *)
Definition least (state : Z) : Z :=
  match state with 2 => 2 | 4 | 6 => 0 | _ => 1 end.
Definition codep_ok (state codep : Z) : bool :=
  (least state <=? codep) && (codep <? 2 ^ (24 - 6 * Z.of_nat (length (pending state)))).
Definition inside (state : Z) : bool := (2 <=? state) && (state <=? 8).

Lemma byte_of_bounds a : 0 <= byte_of a < 256.
Proof. unfold byte_of. pose proof (N_ascii_bounded a). lia. Qed.

Lemma to_char_byte a : to_char (byte_of a) = a.
Proof. unfold to_char, byte_of. by rewrite N2Z.id, ascii_N_embedding. Qed.

Lemma add_byte a b : add (byte_of a) b = b +:+ String a "".
Proof. unfold add. by rewrite to_char_byte. Qed.

(** What holds of the values below [n] holds of the bytes. *)
Lemma all_bytes (P : Z -> bool) a :
  forallb P (map Z.of_nat (seq 0 256)) = true -> P (byte_of a) = true.
Proof.
  rewrite forallb_forall. intros H. apply H. pose proof (byte_of_bounds a).
  apply in_map_iff. exists (Z.to_nat (byte_of a)). split; [lia|]. apply in_seq. lia.
Qed.

Definition utf8_next (state byte : Z) : Z := (decode state 0 byte).1.
Lemma decode_state state codep byte : (decode state codep byte).1 = utf8_next state byte.
Proof. done. Qed.

Definition ranges_eqb (a b : list (Z * Z)) : bool := bool_decide (a = b).

(** A byte inside a character. *)
Definition inner_byte_ok (state byte : Z) : bool :=
  match pending state with
  | (lo, hi) :: rest =>
      if (lo <=? byte) && (byte <=? hi) then
        ranges_eqb (pending (utf8_next state byte)) rest &&
        (if bool_decide (rest = []) then utf8_next state byte =? 0
         else inside (utf8_next state byte)) &&
        (least (utf8_next state byte) <=? 64 * least state + Z.land byte 0x3f)
      else utf8_next state byte =? UTF8_REJECT
  | [] => true
  end.
Lemma inside_cases state :
  inside state = true ->
  state = 2 \/ state = 3 \/ state = 4 \/ state = 5 \/ state = 6 \/ state = 7 \/ state = 8.
Proof. unfold inside. lia. Qed.
Ltac inside_cases H :=
  destruct (inside_cases _ H) as [->|[->|[->|[->|[->|[->| ->]]]]]].

Lemma inner_byte state a : inside state = true -> inner_byte_ok state (byte_of a) = true.
Proof. intros Hs. apply all_bytes. inside_cases Hs; by vm_compute. Qed.

(** The first byte of a character. *)
Definition first_byte_ok (byte : Z) : bool :=
  if byte <? 0x80 then (utf8_next 0 byte =? 0) && ((decode 0 0 byte).2 =? byte)
  else
    match following_bytes (to_char byte) with
    | Some ranges =>
        inside (utf8_next 0 byte) && ranges_eqb (pending (utf8_next 0 byte)) ranges &&
        codep_ok (utf8_next 0 byte) (decode 0 0 byte).2
    | None => utf8_next 0 byte =? UTF8_REJECT
    end.
Lemma first_byte a : first_byte_ok (byte_of a) = true.
Proof. apply all_bytes. by vm_compute. Qed.
Lemma decode_first codep byte : decode 0 codep byte = decode 0 0 byte.
Proof. done. Qed.

Lemma lor_low codep byte :
  0 <= codep < 2 ^ 26 ->
  Z.lor (Z.land byte 0x3f) (uint 32 (Z.shiftl codep 6)) = 64 * codep + Z.land byte 0x3f.
Proof.
  intros Hc. rewrite Z.shiftl_mul_pow2, uint_small by lia. change (2 ^ 6) with 64.
  change 0x3f with (Z.ones 6). rewrite Z.land_ones by lia.
  assert (Z.land (byte mod 2 ^ 6) (codep * 2 ^ 6) = 0) as Hl.
  { apply Z.bits_inj'. intros n Hn. rewrite Z.land_spec, Z.bits_0, Z.mul_pow2_bits by lia.
    destruct (Z.ltb_spec n 6) as [Hlt|Hge].
    - by rewrite (Z.testbit_neg_r codep), andb_false_r by lia.
    - by rewrite Z.mod_pow2_bits_high by lia. }
  pose proof (Z.add_lor_land (byte mod 2 ^ 6) (codep * 2 ^ 6)). change (2 ^ 6) with 64 in *. lia.
Qed.

Lemma decode_inner state codep byte :
  inside state = true -> codep_ok state codep = true ->
  decode state codep byte = (utf8_next state byte, 64 * codep + Z.land byte 0x3f).
Proof.
  unfold inside, codep_ok. intros Hs Hc. unfold utf8_next, decode. cbv zeta.
  assert ((state =? UTF8_ACCEPT) = false) as -> by (unfold UTF8_ACCEPT; lia). cbn [negb fst].
  rewrite lor_low; [done|].
  assert (2 ^ (24 - 6 * Z.of_nat (length (pending state))) <= 2 ^ 26) by (apply Z.pow_le_mono_r; lia).
  assert (0 <= least state) by (unfold least; repeat case_match; lia). lia.
Qed.

Lemma escape_inner codep a : 0x80 <= codep -> escape codep a = String a "".
Proof.
  intros Hc. unfold escape. repeat (case_match; [lia|]). done.
Qed.

Lemma codep_ok_next state codep byte lo hi rest :
  codep_ok state codep = true -> pending state = (lo, hi) :: rest ->
  pending (utf8_next state byte) = rest ->
  least (utf8_next state byte) <= 64 * least state + Z.land byte 0x3f ->
  codep_ok (utf8_next state byte) (64 * codep + Z.land byte 0x3f) = true.
Proof.
  unfold codep_ok. intros Hc Hp -> Hl. rewrite Hp in Hc. cbn [length] in Hc.
  assert (0 <= Z.land byte 0x3f < 64) by (change 0x3f with (Z.ones 6); rewrite Z.land_ones by lia;
    apply Z.mod_pos_bound; lia).
  assert (length rest <= 2)%nat as Hrest.
  { assert (length (pending state) <= 3)%nat by (unfold pending; repeat case_match; cbn; lia).
    rewrite Hp in *. cbn in *. lia. }
  replace (24 - 6 * Z.of_nat (length rest)) with (6 + (24 - 6 * Z.of_nat (S (length rest)))) by lia.
  rewrite Z.pow_add_r by lia. change (2 ^ 6) with 64. lia.
Qed.

(** ** Strings the decoder accepts *)

Fixpoint utf8_run (state : Z) (s : string) : Z :=
  match s with
  | EmptyString => state
  | String a s => utf8_run (utf8_next state (byte_of a)) s
  end.
Definition utf8 (s : string) : bool := utf8_run UTF8_ACCEPT s =? UTF8_ACCEPT.

Lemma utf8_run_app state s t : utf8_run state (s +:+ t) = utf8_run (utf8_run state s) t.
Proof. revert state. induction s as [|a s IH]; intros state; [done|]. apply IH. Qed.

Lemma utf8_run_add c s : utf8_run 0 (add c s) = utf8_next (utf8_run 0 s) (byte_of (to_char c)).
Proof. unfold add. by rewrite utf8_run_app. Qed.

Lemma byte_of_to_char c : 0 <= c < 256 -> byte_of (to_char c) = c.
Proof. intros Hc. unfold byte_of, to_char. rewrite N_ascii_embedding; lia. Qed.

Lemma utf8_run_reject s : utf8_run UTF8_REJECT s = UTF8_REJECT.
Proof.
  induction s as [|a s IH]; [done|]. cbn [utf8_run].
  assert ((utf8_next UTF8_REJECT (byte_of a) =? UTF8_REJECT) = true) as ->%Z.eqb_eq; [|done].
  apply (all_bytes (fun byte => utf8_next UTF8_REJECT byte =? UTF8_REJECT)). by vm_compute.
Qed.

(** The serializer writes them. *)
Lemma dump_escaped_run s state codep :
  utf8_run state s = UTF8_ACCEPT -> exists t, dump_escaped_from state codep s = Ok t.
Proof.
  revert state codep. induction s as [|a s IH]; intros state codep Hr; cbn [dump_escaped_from].
  { cbn in Hr. rewrite Hr. by eexists. }
  fold (byte_of a). rewrite (surjective_pairing (decode _ _ _)), decode_state. cbn [utf8_run] in Hr.
  destruct (IH _ (decode state codep (byte_of a)).2 Hr) as [t Ht].
  case_match; [rewrite Ht; by eexists|]. case_match eqn:Er; [|rewrite Ht; by eexists].
  apply Z.eqb_eq in Er. by rewrite Er, utf8_run_reject in Hr.
Qed.
Lemma quoted_total s : utf8 s = true -> exists text, quoted s = Ok text.
Proof.
  intros Hs%Z.eqb_eq. unfold quoted, dump_escaped.
  destruct (dump_escaped_run s _ 0 Hs) as [t ->]. by eexists.
Qed.

(** ** Strings the lexer reads *)

Lemma bytes_in_ranges_utf8 ranges b s b' s' :
  bytes_in_ranges ranges b s = Some (b', s') -> pending (utf8_run 0 b) = ranges ->
  (if bool_decide (ranges = []) then utf8_run 0 b = 0 else inside (utf8_run 0 b) = true) ->
  utf8_run 0 b' = 0.
Proof.
  revert b s. induction ranges as [|[lo hi] ranges IH]; intros b s; cbn [bytes_in_ranges].
  { by intros [= <- _] _ ?. }
  destruct s as [|a s]; [done|]. destruct (char_in lo hi a) eqn:Ea; [|done].
  intros Hr Hp Hi. change (inside (utf8_run 0 b) = true) in Hi.
  pose proof (inner_byte _ a Hi) as Hb. unfold inner_byte_ok in Hb. rewrite Hp in Hb.
  unfold char_in in Ea. rewrite Ea in Hb.
  apply andb_true_iff in Hb as [[Hq%bool_decide_eq_true Hn]%andb_true_iff _].
  eapply IH; [exact Hr|..]; rewrite utf8_run_add, to_char_byte; [done|].
  case_bool_decide; [by apply Z.eqb_eq|done].
Qed.

Lemma next_byte_in_range_utf8 a ranges b s b' s' :
  utf8_run 0 b = 0 -> following_bytes a = Some ranges ->
  next_byte_in_range a ranges b s = Some (b', s') -> utf8_run 0 b' = 0.
Proof.
  intros Hb Hf Hr. pose proof (byte_of_bounds a). pose proof (first_byte a) as Ha. unfold first_byte_ok in Ha.
  rewrite to_char_byte, Hf in Ha. eapply bytes_in_ranges_utf8; [exact Hr|..];
    rewrite utf8_run_add, to_char_byte, Hb; destruct (Z.ltb_spec (byte_of a) 0x80) as [Hlt|Hge].
  - apply andb_true_iff in Ha as [->%Z.eqb_eq _]. revert Hf. unfold following_bytes, char_in.
    case_match; [done|]. case_match; [by intros [= <-]|lia].
  - apply andb_true_iff in Ha as [[_ Hp%bool_decide_eq_true]%andb_true_iff _]. done.
  - apply andb_true_iff in Ha as [->%Z.eqb_eq _]. revert Hf. unfold following_bytes, char_in.
    case_match; [done|]. case_match; [by intros [= <-]|lia].
  - apply andb_true_iff in Ha as [[Hi Hp%bool_decide_eq_true]%andb_true_iff _].
    case_bool_decide as He; [|done]. rewrite He in Hp. revert Hp. by inside_cases Hi.
Qed.

(** *** Code points *)

Definition all_below (n : Z) (P : Z -> bool) : bool := forallb P (map Z.of_nat (seq 0 (Z.to_nat n))).
Lemma all_below_spec n P z : all_below n P = true -> 0 <= z < n -> P z = true.
Proof.
  unfold all_below. rewrite forallb_forall. intros H Hz. apply H, in_map_iff.
  exists (Z.to_nat z). split; [lia|]. apply in_seq. lia.
Qed.

Definition add_state (state c : Z) : Z := utf8_next state (byte_of (to_char c)).
Lemma run_add c s : utf8_run 0 (add c s) = add_state (utf8_run 0 s) c.
Proof. apply utf8_run_add. Qed.

Lemma add_ascii c b : 0 <= c < 0x80 -> utf8_run 0 b = 0 -> utf8_run 0 (add c b) = 0.
Proof.
  intros Hc Hb. rewrite run_add, Hb. apply Z.eqb_eq.
  by apply (all_below_spec 0x80 (fun c => add_state 0 c =? 0)); [vm_compute|].
Qed.

Lemma land_63 x : 0 <= Z.land x 0x3F < 64.
Proof. change 0x3F with (Z.ones 6). rewrite Z.land_ones by lia. apply Z.mod_pos_bound. lia. Qed.

Lemma continuation x : add_state 2 (Z.lor 0x80 (Z.land x 0x3F)) = 0.
Proof.
  apply Z.eqb_eq. revert x. enough (forall y, 0 <= y < 64 -> (add_state 2 (Z.lor 0x80 y) =? 0) = true)
    as H by (intros x; apply H, land_63).
  intros y Hy. by apply (all_below_spec 64 (fun y => add_state 2 (Z.lor 0x80 y) =? 0)); [vm_compute|].
Qed.
Lemma continuation2 x : add_state 3 (Z.lor 0x80 (Z.land x 0x3F)) = 2.
Proof.
  apply Z.eqb_eq. revert x. enough (forall y, 0 <= y < 64 -> (add_state 3 (Z.lor 0x80 y) =? 2) = true)
    as H by (intros x; apply H, land_63).
  intros y Hy. by apply (all_below_spec 64 (fun y => add_state 3 (Z.lor 0x80 y) =? 2)); [vm_compute|].
Qed.

(** The first bytes of a character, from the bits above the last byte or the last two. *)
Definition lead2 (h : Z) : bool := implb (2 <=? h) (add_state 0 (Z.lor 0xC0 h) =? 2).
Definition lead3 (h : Z) : bool :=
  implb ((32 <=? h) && negb ((0x360 <=? h) && (h <=? 0x37F)))
    (add_state (add_state 0 (Z.lor 0xE0 (Z.shiftr h 6))) (Z.lor 0x80 (Z.land h 0x3F)) =? 2).
Definition lead4 (h : Z) : bool :=
  implb (16 <=? h)
    (add_state (add_state 0 (Z.lor 0xF0 (Z.shiftr h 6))) (Z.lor 0x80 (Z.land h 0x3F)) =? 3).

Definition scalar_value (codepoint : Z) : Prop :=
  0 <= codepoint < 0x110000 /\ ~ 0xD800 <= codepoint <= 0xDFFF.

Lemma add_codepoint_utf8 codepoint b :
  scalar_value codepoint -> utf8_run 0 b = 0 -> utf8_run 0 (add_codepoint codepoint b) = 0.
Proof.
  intros [Hr Hs] Hb. unfold add_codepoint. destruct (Z.ltb_spec codepoint 0x80).
  { apply add_ascii; [lia|done]. }
  pose proof (Z.shiftr_shiftr codepoint 6 6 ltac:(lia)) as H12.
  pose proof (Z.shiftr_shiftr codepoint 12 6 ltac:(lia)) as H18.
  change (6 + 6) with 12 in H12. change (12 + 6) with 18 in H18.
  assert (Z.shiftr codepoint 6 = codepoint / 64) as E6 by (by rewrite Z.shiftr_div_pow2 by lia).
  pose proof (Z.div_mod codepoint 64 ltac:(lia)). pose proof (Z.mod_pos_bound codepoint 64 ltac:(lia)).
  assert (Z.shiftr codepoint 12 = codepoint / 4096) as E12 by (by rewrite Z.shiftr_div_pow2 by lia).
  pose proof (Z.div_mod codepoint 4096 ltac:(lia)). pose proof (Z.mod_pos_bound codepoint 4096 ltac:(lia)).
  destruct (Z.leb_spec codepoint 0x7FF).
  { rewrite !run_add, Hb.
    assert (lead2 (Z.shiftr codepoint 6) = true) as Hl
      by (apply (all_below_spec 32 lead2); [by vm_compute|lia]).
    unfold lead2 in Hl. rewrite (proj2 (Z.leb_le _ _)) in Hl by lia. apply Z.eqb_eq in Hl.
    rewrite Hl. apply continuation. }
  destruct (Z.leb_spec codepoint 0xFFFF).
  { rewrite !run_add, Hb, <- H12.
    assert (lead3 (Z.shiftr codepoint 6) = true) as Hl
      by (apply (all_below_spec 1024 lead3); [by vm_compute|lia]).
    unfold lead3 in Hl. rewrite E6 in Hl at 1 2 3.
    assert ((32 <=? codepoint / 64) &&
      negb ((0x360 <=? codepoint / 64) && (codepoint / 64 <=? 0x37F)) = true) as Hin by lia.
    rewrite Hin in Hl. apply Z.eqb_eq in Hl.
    rewrite Hl. apply continuation. }
  rewrite !run_add, Hb, <- H18.
  assert (lead4 (Z.shiftr codepoint 12) = true) as Hl
    by (apply (all_below_spec 0x110 lead4); [by vm_compute|lia]).
  unfold lead4 in Hl. rewrite (proj2 (Z.leb_le _ _)) in Hl by lia. apply Z.eqb_eq in Hl.
  rewrite Hl, continuation2. apply continuation.
Qed.

Lemma get_codepoint_range factors c s c' s' :
  Forall (fun f => 0 <= f) factors -> get_codepoint factors c s = Some (c', s') ->
  c <= c' <= c + fold_right (fun f n => 15 * 2 ^ f + n) 0 factors.
Proof.
  intros Hf. revert c s. induction Hf as [|f factors Hf _ IH]; intros c s; cbn [get_codepoint fold_right].
  { intros [= <- _]. lia. }
  destruct s as [|a s]; [done|]. unfold char_in.
  pose proof (Z.pow_pos_nonneg 2 f ltac:(lia) Hf).
  repeat case_match; try done; intros Hc%IH; rewrite Z.shiftl_mul_pow2 in Hc by lia; nia.
Qed.

Lemma scan_unicode_scalar s c s' : scan_unicode s = Some (c, s') -> scalar_value c.
Proof.
  unfold scan_unicode, scalar_value. destruct (get_codepoint _ _ s) as [[c1 s1]|] eqn:E1; [|done].
  apply get_codepoint_range in E1; [|repeat constructor; lia]. cbn in E1.
  case_match.
  - destruct s1 as [|a [|b s1]]; try done. case_match; [|done].
    destruct (get_codepoint _ _ s1) as [[c2 s2]|] eqn:E2; [|done].
    apply get_codepoint_range in E2; [|repeat constructor; lia]. cbn in E2. case_match; [|done].
    intros [= <- _]. rewrite Z.shiftl_mul_pow2 by lia. rewrite (uint_small 32 (c1 * 2 ^ 10)) by lia.
    rewrite uint_small by lia. lia.
  - case_match; [done|]. intros [= <- _]. lia.
Qed.

Lemma scan_escape_utf8 b s b' s' :
  scan_escape b s = Some (b', s') -> utf8_run 0 b = 0 -> utf8_run 0 b' = 0.
Proof.
  unfold scan_escape. intros H Hb. destruct s as [|a s]; [done|]. revert H. case_match eqn:Ha.
  { intros [= <- _]. rewrite run_add, Hb. unfold add_state. rewrite to_char_byte.
    apply orb_true_iff in Ha as [[Ha|Ha]%orb_true_iff|Ha]; apply Ascii.eqb_eq in Ha; by rewrite Ha. }
  repeat (case_match; [intros [= <- _]; apply add_ascii; [lia|done]|]). case_match; [|done].
  destruct (scan_unicode s) as [[c s1]|] eqn:E; [|done]. intros [= <- _].
  apply add_codepoint_utf8; [by eapply scan_unicode_scalar|done].
Qed.

Lemma scan_string_utf8 fuel b s t s' :
  scan_string fuel b s = Ok (t, s') -> utf8_run 0 b = 0 ->
  match t with value_string v => utf8 v = true | parse_error => True | _ => False end.
Proof.
  revert b s. induction fuel as [|fuel IH]; intros b s; cbn [scan_string]; [done|].
  destruct s as [|a s]; [by intros [= <- _]|].
  destruct (Ascii.eqb a quote); [intros [= <- _] Hb; by apply Z.eqb_eq|].
  destruct (if Ascii.eqb a backslash then _ else _) as [[b' s1]|] eqn:E; [|by intros [= <- _]].
  intros Hs Hb. eapply IH; [exact Hs|].
  destruct (Ascii.eqb a backslash); [by eapply scan_escape_utf8|].
  destruct (following_bytes a) eqn:Ef; [|done]. by eapply next_byte_in_range_utf8.
Qed.
