(* ===== verification/FloatSpec.v ===== *)
(** * Floating point numbers that are extracted from text

    The numbers that the extraction of Strings.v gives are binary64 numbers: the mantissa
    has 53 digits, or the exponent is the least one. *)

From Stdlib Require Import Ascii SpecFloat.
From S2P Require Import Prelude Regex Strings Dtoa DtoaSpec.

Lemma round_half_even_bounds n d : 0 < d -> n / d <= round_half_even n d <= n / d + 1.
Proof. intros Hd. unfold round_half_even. repeat case_match; lia. Qed.
Lemma round_half_even_exact n d k : 0 < d -> n < k * d -> round_half_even n d <= k.
Proof.
  intros Hd Hn. pose proof (round_half_even_bounds n d Hd).
  assert (n / d < k) by (apply Z.div_lt_upper_bound; lia). lia.
Qed.

(** [2 ^ l] is the power of two next below the fraction. *)
Definition ratio_log (n d : Z) : Z :=
  let l := Z.log2 n - Z.log2 d in
  if (if 0 <=? l then d * 2 ^ l <=? n else d <=? n * 2 ^ (- l)) then l else l - 1.

(** [a * 2 ^ x <= b] for any integer [x] *)
Definition scaled_le (a x b : Z) : Prop := a * 2 ^ (Z.max x 0) <= b * 2 ^ (Z.max (- x) 0).

Lemma ratio_log_bounds n d :
  0 < n -> 0 < d ->
  scaled_le d (ratio_log n d) n /\ ~ scaled_le d (ratio_log n d + 1) n.
Proof.
  intros Hn Hd. unfold ratio_log, scaled_le. set (l := Z.log2 n - Z.log2 d).
  pose proof (Z.log2_spec n Hn) as [Hn1 Hn2]. pose proof (Z.log2_spec d Hd) as [Hd1 Hd2].
  pose proof (Z.log2_nonneg n). pose proof (Z.log2_nonneg d).
  rewrite Z.pow_succ_r in Hn2, Hd2 by lia.
  destruct (Z.leb_spec 0 l).
  - assert (2 ^ Z.log2 n = 2 ^ Z.log2 d * 2 ^ l) as E by (rewrite <- Z.pow_add_r by lia; f_equal; lia).
    pose proof (Z.pow_pos_nonneg 2 l ltac:(lia) ltac:(lia)).
    destruct (Z.leb_spec (d * 2 ^ l) n).
    + rewrite !(Z.max_l l 0), !(Z.max_r (- l) 0), !(Z.max_l (l + 1) 0), !(Z.max_r (- (l + 1)) 0) by lia.
      rewrite Z.pow_add_r by lia. split; [lia|]. change (2 ^ 1) with 2. change (2 ^ 0) with 1. nia.
    + replace (l - 1 + 1) with l by lia.
      rewrite !(Z.max_l l 0), !(Z.max_r (- l) 0) by lia. change (2 ^ 0) with 1. split; [|lia].
      destruct (decide (l = 0)) as [E0|].
      * rewrite E0 in E |- *. change (2 ^ 0) with 1 in E. change (Z.max (0 - 1) 0) with 0.
        change (Z.max (- (0 - 1)) 0) with 1. change (2 ^ 0) with 1. change (2 ^ 1) with 2. lia.
      * rewrite (Z.max_l (l - 1) 0), (Z.max_r (- (l - 1)) 0) by lia. change (2 ^ 0) with 1.
        replace l with (1 + (l - 1)) in E at 1 by lia. rewrite Z.pow_add_r in E by lia. nia.
  - assert (2 ^ Z.log2 d = 2 ^ Z.log2 n * 2 ^ (- l)) as E by (rewrite <- Z.pow_add_r by lia; f_equal; lia).
    pose proof (Z.pow_pos_nonneg 2 (- l) ltac:(lia) ltac:(lia)).
    destruct (Z.leb_spec d (n * 2 ^ (- l))).
    + rewrite !(Z.max_r l 0), !(Z.max_l (- l) 0), !(Z.max_r (l + 1) 0), !(Z.max_l (- (l + 1)) 0) by lia.
      change (2 ^ 0) with 1. split; [lia|].
      replace (- l) with (1 + (- (l + 1))) in * by lia. rewrite Z.pow_add_r in * by lia. nia.
    + replace (l - 1 + 1) with l by lia.
      rewrite !(Z.max_r l 0), !(Z.max_l (- l) 0), (Z.max_r (l - 1) 0), (Z.max_l (- (l - 1)) 0) by lia.
      change (2 ^ 0) with 1. split; [|lia]. replace (- (l - 1)) with (1 + - l) by lia.
      rewrite Z.pow_add_r by lia. nia.
Qed.

Lemma scaled_le_offset a x b k :
  Z.max (- x) 0 <= k -> scaled_le a x b <-> a * 2 ^ (x + k) <= b * 2 ^ k.
Proof.
  intros Hk. unfold scaled_le. set (j := k - Z.max (- x) 0).
  replace (x + k) with (Z.max x 0 + j) by lia. replace (2 ^ k) with (2 ^ (Z.max (- x) 0 + j)) by (f_equal; lia).
  rewrite !Z.pow_add_r, !Z.mul_assoc by lia. apply Z.mul_le_mono_pos_r.
  apply Z.pow_pos_nonneg; lia.
Qed.
Lemma scaled_le_mono a x y b : 0 <= a -> y <= x -> scaled_le a x b -> scaled_le a y b.
Proof.
  intros Ha Hy. rewrite (scaled_le_offset a x b (Z.max (- y) 0)),
    (scaled_le_offset a y b (Z.max (- y) 0)) by lia.
  assert (2 ^ (y + Z.max (- y) 0) <= 2 ^ (x + Z.max (- y) 0)) by (apply Z.pow_le_mono_r; lia). nia.
Qed.
Lemma scaled_le_shift a e k b : 0 <= k ->
  scaled_le a (e + k) b <-> 2 ^ k * (a * 2 ^ Z.max e 0) <= b * 2 ^ Z.max (- e) 0.
Proof.
  intros Hk. rewrite (scaled_le_offset a (e + k) b (Z.max (- e) 0)) by lia.
  replace (e + k + Z.max (- e) 0) with (k + Z.max e 0) by lia. rewrite Z.pow_add_r by lia.
  by rewrite !Z.mul_assoc, (Z.mul_comm a).
Qed.

(** The fraction is scaled to [prec] digits and rounded. *)
Definition round_exponent (prec emin n d : Z) : Z := Z.max emin (ratio_log n d - prec + 1).
Lemma round_binary_scaled prec emin n d :
  round_binary prec emin n d =
    let x := round_exponent prec emin n d in
    let m := round_half_even (n * 2 ^ Z.max (- x) 0) (d * 2 ^ Z.max x 0) in
    if m =? 2 ^ prec then (2 ^ (prec - 1), x + 1) else (m, x).
Proof.
  change (round_binary prec emin n d) with
    (let e := round_exponent prec emin n d in
     let m := if 0 <=? e then round_half_even n (d * 2 ^ e) else round_half_even (n * 2 ^ (- e)) d in
     if m =? 2 ^ prec then (2 ^ (prec - 1), e + 1) else (m, e)).
  cbv zeta. set (x := round_exponent prec emin n d).
  replace (if 0 <=? x then _ else _)
    with (round_half_even (n * 2 ^ Z.max (- x) 0) (d * 2 ^ Z.max x 0)); [done|].
  destruct (Z.leb_spec 0 x).
  - rewrite (Z.max_l x 0), (Z.max_r (- x) 0), Z.pow_0_r, Z.mul_1_r by lia. done.
  - rewrite (Z.max_r x 0), (Z.max_l (- x) 0), Z.pow_0_r, Z.mul_1_r by lia. done.
Qed.

(** The mantissa has at most [prec] digits, and [prec] unless the exponent is the least. *)
Lemma round_binary_bounds prec emin n d m e :
  0 < prec -> 0 < n -> 0 < d -> round_binary prec emin n d = (m, e) ->
  0 <= m < 2 ^ prec /\ emin <= e /\ (2 ^ (prec - 1) <= m \/ e = emin).
Proof.
  intros Hp Hn Hd. destruct (ratio_log_bounds n d Hn Hd) as [Hlo Hhi].
  rewrite round_binary_scaled. unfold round_exponent.
  cbv zeta. set (x := Z.max emin (ratio_log n d - prec + 1)).
  set (P := n * 2 ^ Z.max (- x) 0). set (Q := d * 2 ^ Z.max x 0).
  assert (0 < Q) as HQ by (apply Z.mul_pos_pos; [done|]; apply Z.pow_pos_nonneg; lia).
  assert (0 < P) as HP by (apply Z.mul_pos_pos; [done|]; apply Z.pow_pos_nonneg; lia).
  assert (P < 2 ^ prec * Q) as Hup.
  { apply Z.nle_gt. intros Hs. apply (scaled_le_shift d x prec n) in Hs; [|lia]. apply Hhi.
    apply (scaled_le_mono d (x + prec)); [lia|lia|done]. }
  pose proof (round_half_even_exact P Q _ HQ Hup) as Hm.
  pose proof (round_half_even_bounds P Q HQ) as [Hge _].
  pose proof (Z.div_pos P Q ltac:(lia) HQ).
  pose proof (Z.pow_pos_nonneg 2 (prec - 1) ltac:(lia) ltac:(lia)).
  assert (2 ^ prec = 2 * 2 ^ (prec - 1)) as E.
  { replace prec with (1 + (prec - 1)) at 1 by lia. by rewrite Z.pow_add_r by lia. }
  destruct (Z.eqb_spec (round_half_even P Q) (2 ^ prec)) as [Heq|Hne]; intros [= <- <-].
  { split_and!; lia. }
  split_and!; [lia|lia|lia|]. destruct (decide (x = emin)) as [?|Hx]; [by right|left].
  assert (x + (prec - 1) = ratio_log n d) as Ex by lia.
  rewrite <- Ex in Hlo. apply scaled_le_shift in Hlo; [|lia].
  assert (2 ^ (prec - 1) <= P / Q) by (apply Z.div_le_lower_bound; [done|]; unfold P, Q; lia). lia.
Qed.

Lemma round_ratio_valid neg n d f :
  0 < n -> 0 < d -> round_ratio 53 1024 neg n d = Some f -> valid_binary 53 1024 f = true.
Proof.
  intros Hn Hd. unfold round_ratio. destruct (round_binary _ _ n d) as [m e] eqn:E.
  apply round_binary_bounds in E as (Hm & He & Hc); [|done..].
  destruct m as [|p|p]; [by intros [= <-]| |by intros [= <-]].
  destruct (Z.ltb_spec 1024 (e + 53)) as [|Hle]; [done|]. intros [= <-]. cbn [valid_binary].
  unfold bounded, canonical_mantissa, fexp, emin. pose proof (digits2_pos_bounds p) as [Hlo Hhi].
  assert (Z.pos (digits2_pos p) <= 53).
  { assert (Z.pos (digits2_pos p) - 1 < 53); [|lia]. apply (Z.pow_lt_mono_r_iff 2); lia. }
  change (3 - 1024 - 53) with (-1074) in *. apply andb_true_iff. split; [|lia]. apply Z.eqb_eq.
  destruct Hc as [Hc| ->]; [|lia].
  assert (52 < Z.pos (digits2_pos p)); [|lia]. apply (Z.pow_lt_mono_r_iff 2); lia.
Qed.

Lemma span_chars p s w r : span p s = (w, r) -> all_chars p w = true.
Proof.
  revert w r. induction s as [|a s IH]; intros w r; cbn [span]; [by intros [= <- _]|].
  destruct (p a) eqn:Ea; [|by intros [= <- _]]. destruct (span p s) as [w' r'].
  intros [= <- _]. cbn. rewrite Ea. by eapply IH.
Qed.
Lemma significand_chars p s ip fp r :
  significand p s = (ip, fp, r) -> all_chars p ip = true /\ all_chars p fp = true.
Proof.
  unfold significand. destruct (span p s) as [w s'] eqn:E1. apply span_chars in E1.
  destruct s' as [|a s']; [by intros [= <- <- _]|].
  case_match; [|by intros [= <- <- _]]. destruct (span p s') as [w' s2] eqn:E2.
  apply span_chars in E2. by intros [= <- <- _].
Qed.

Lemma xdigit_value a : is_xdigit a = true -> 0 <= digit_value a.
Proof. destruct a as [[] [] [] [] [] [] [] []]; by vm_compute. Qed.
Lemma digit_xdigit a : is_digit a = true -> is_xdigit a = true.
Proof. unfold is_xdigit. by intros ->. Qed.

Lemma radix_value_nonneg b acc s :
  0 <= b -> 0 <= acc -> all_chars is_xdigit s = true -> 0 <= radix_value b acc s.
Proof.
  intros Hb. revert acc. induction s as [|a s IH]; intros acc Ha; cbn [radix_value all_chars]; [done|].
  intros [Hx%xdigit_value Hs]%andb_true_iff. apply IH; [nia|done].
Qed.
Lemma float_field_range s neg m b e :
  float_field s = Some (neg, (m, b, e)) -> 0 <= m /\ 0 < b.
Proof.
  unfold float_field. destruct (split_sign s) as [neg' s1].
  set (hex := match s1 with String "0" (String a _) => one_of "xX" a | _ => false end).
  destruct (if hex then _ else _) as [[ip fp] r] eqn:E.
  assert (all_chars is_xdigit (ip +:+ fp) = true) as Hd.
  { rewrite all_chars_app. destruct hex; apply significand_chars in E as [Hi Hf]; [by rewrite Hi, Hf|].
    by rewrite !(all_chars_impl is_digit is_xdigit) by (done || apply digit_xdigit). }
  destruct (String.eqb (ip +:+ fp) ""); [done|]. destruct hex.
  - destruct (String.eqb r ""); [|done]. intros [= _ <- <- _]. split; [by apply radix_value_nonneg|done].
  - destruct (decimal_exponent_field r); [|done]. intros [= _ <- <- _].
    split; [by apply radix_value_nonneg|done].
Qed.

Lemma extract_float_valid s f :
  extract_float 53 1024 s = Some f -> valid_binary 53 1024 f = true.
Proof.
  unfold extract_float. destruct (float_field s) as [[neg [[m b] e]]|] eqn:E; [|done].
  apply float_field_range in E as [Hm Hb]. destruct (Z.eqb_spec m 0); [by intros [= <-]|].
  unfold ratio. destruct (Z.leb_spec 0 e); apply round_ratio_valid; lia.
Qed.
