(* ===== verification/DtoaCorrect.v ===== *)
(** * Floating point text of JSON: the digits are right

    The decimal number that Grisu2 finds lies strictly between the boundaries of the double, so
    that every reader that rounds to the nearest double finds the double again. *)

From Stdlib Require Import Ascii Floats.SpecFloat QArith Lqa Qpower.
From S2P Require Import Prelude Regex Strings Dtoa DtoaSpec FloatSpec.

(** ** The value of a buffer *)

Definition buffer_value (buf : string) : Z := radix_value 10 0 buf.

Lemma radix_value_app b acc s t : radix_value b acc (s +:+ t) = radix_value b (radix_value b acc s) t.
Proof. revert acc. induction s as [|a s IH]; intros acc; [done|]. apply IH. Qed.

Lemma digit_char_value d : 0 <= d <= 9 -> digit_value (digit_char d) = d.
Proof.
  intros Hd. assert (d = 0 \/ d = 1 \/ d = 2 \/ d = 3 \/ d = 4 \/ d = 5 \/ d = 6 \/ d = 7 \/ d = 8 \/ d = 9)
    as H by lia. by repeat destruct H as [->|H]; subst.
Qed.
Lemma digit_char_digit d : 0 <= d <= 9 -> is_digit (digit_char d) = true.
Proof.
  intros Hd. assert (d = 0 \/ d = 1 \/ d = 2 \/ d = 3 \/ d = 4 \/ d = 5 \/ d = 6 \/ d = 7 \/ d = 8 \/ d = 9)
    as H by lia. by repeat destruct H as [->|H]; subst.
Qed.

Lemma digit_char_nonzero d : 1 <= d <= 9 -> Ascii.eqb (digit_char d) "0"%char = false.
Proof.
  intros Hd. assert (d = 1 \/ d = 2 \/ d = 3 \/ d = 4 \/ d = 5 \/ d = 6 \/ d = 7 \/ d = 8 \/ d = 9)
    as H by lia. by repeat destruct H as [->|H]; subst.
Qed.

Lemma push_value buf d : 0 <= d <= 9 -> buffer_value (push_digit buf d) = 10 * buffer_value buf + d.
Proof.
  intros Hd. unfold buffer_value, push_digit. rewrite radix_value_app. cbn [radix_value].
  by rewrite digit_char_value.
Qed.
Lemma push_digits buf d :
  0 <= d <= 9 -> all_chars is_digit buf = true -> all_chars is_digit (push_digit buf d) = true.
Proof. intros Hd Hb. unfold push_digit. rewrite all_chars_app, Hb. cbn. by rewrite digit_char_digit. Qed.

Lemma decrement_push buf d : 1 <= d <= 9 -> decrement_last (push_digit buf d) = push_digit buf (d - 1).
Proof.
  intros Hd. unfold push_digit. induction buf as [|a buf IH].
  - assert (d = 1 \/ d = 2 \/ d = 3 \/ d = 4 \/ d = 5 \/ d = 6 \/ d = 7 \/ d = 8 \/ d = 9)
      as H by lia. by repeat destruct H as [->|H]; subst.
  - cbn [String.append decrement_last]. rewrite IH.
    destruct (buf +:+ String (digit_char d) "") eqn:E; [by destruct buf|done].
Qed.

(** The first digit is not zero. *)
Definition proper_digits (buf : string) : bool :=
  match buf with
  | EmptyString => false
  | String a buf => negb (Ascii.eqb a "0"%char) && is_digit a && all_chars is_digit buf
  end.

(** ** Rounding *)

(** The last digit goes from [d] to [d'], and the rest stays within [delta]. *)
Lemma round_loop_value b : forall fuel d dist delta rest ten_k,
  d <= Z.of_nat fuel -> 0 <= d <= 9 -> 0 <= rest <= delta -> delta < 2 ^ 64 -> 0 < ten_k ->
  delta < rest + d * ten_k ->
  exists d', grisu2_round_loop fuel (push_digit b d) dist delta rest ten_k = Ok (push_digit b d') /\
    1 <= d' <= d /\ rest + (d - d') * ten_k <= delta.
Proof.
  induction fuel as [|fuel IH]; intros d dist delta rest ten_k Hf Hd Hr Hdelta Ht Hlt; [nia|].
  assert (1 <= d) by nia. cbn [grisu2_round_loop].
  destruct ((rest <? dist) && (ten_k <=? uint 64 (delta - rest))) eqn:Hc; [|exists d; split; [done|nia]].
  destruct (_ || _); [|exists d; split; [done|nia]]. apply andb_true_iff in Hc as [_ Hc].
  rewrite uint_small in Hc by lia. apply Z.leb_le in Hc. rewrite (uint_small 64 (rest + ten_k)) by lia.
  rewrite decrement_push by lia.
  destruct (IH (d - 1) dist delta (rest + ten_k) ten_k) as (d' & -> & Hd' & Hle); [lia|lia|lia|lia|lia|lia|].
  exists d'. split; [done|]. split; [lia|]. nia.
Qed.
Lemma round_value b d dist delta rest ten_k :
  0 <= d <= 9 -> 0 <= rest <= delta -> delta < 2 ^ 64 -> 0 < ten_k -> delta < rest + d * ten_k ->
  exists d', grisu2_round (push_digit b d) dist delta rest ten_k = Ok (push_digit b d') /\
    1 <= d' <= d /\ rest + (d - d') * ten_k <= delta.
Proof. intros. by apply round_loop_value; [lia|..]. Qed.

(** ** The digits *)

Section Digits.
Context (sh : Z) (Hsh : 32 <= sh <= 60).
Let one := 2 ^ sh.

(** After [j] digits of the fraction. *)
Lemma fraction_value j : forall fuel buf m p2 delta dist,
  (j <= fuel)%nat -> 0 < delta < p2 -> p2 < one -> one <= delta * 10 ^ Z.of_nat j ->
  exists b d i r dist', let delta' := delta * 10 ^ i in
    fraction_digits fuel buf m p2 delta dist sh = Ok (push_digit b d, m + i, r, delta', dist') /\
    0 <= d <= 9 /\ 0 <= i /\ 0 <= r <= delta' /\ delta' < 2 ^ 64 /\ delta' < r + d * one /\
    (10 * buffer_value b + d) * one + r = (buffer_value buf * one + p2) * 10 ^ i /\
    (all_chars is_digit buf = true -> all_chars is_digit b = true) /\
    (proper_digits buf = true -> proper_digits b = true).
Proof.
  pose proof (one_bounds sh Hsh) as Hone. fold one in Hone.
  induction j as [|j IH]; intros fuel buf m p2 delta dist Hf Hd Hp Hj; [simpl in Hj; lia|].
  destruct fuel as [|fuel]; [lia|]. cbn [fraction_digits].
  rewrite (uint_small 64 (p2 * 10)), (uint_small 64 (delta * 10)) by lia.
  rewrite Z.shiftr_div_pow2, land_mask by lia. fold one.
  pose proof (Z.div_mod (p2 * 10) one ltac:(lia)) as Hdm.
  pose proof (Z.mod_pos_bound (p2 * 10) one ltac:(lia)) as Hr.
  assert (Hdig : 0 <= p2 * 10 / one <= 9).
  { split; [apply Z.div_pos; lia|]. apply Z.lt_succ_r, Z.div_lt_upper_bound; lia. }
  set (d := p2 * 10 / one) in *. set (r := (p2 * 10) mod one) in *.
  destruct (Z.leb_spec r (delta * 10)) as [Hle|Hgt].
  - exists buf, d, 1, r, (uint 64 (dist * 10)). change (10 ^ 1) with 10.
    split_and!; try done; try lia.
  - destruct (IH fuel (push_digit buf d) (m + 1) r (delta * 10) (uint 64 (dist * 10)))
      as (b & d' & i & r' & dist' & Hrun & B1 & B2 & B3 & B4 & B5 & B6 & B7 & B8).
    1-3: lia.
    { rewrite Nat2Z.inj_succ, Z.pow_succ_r in Hj by lia. lia. }
    assert (E : delta * 10 ^ (1 + i) = delta * 10 * 10 ^ i) by (rewrite Z.pow_add_r by lia; ring).
    exists b, d', (1 + i), r', dist'. cbv zeta. rewrite E, Hrun, push_value in * by lia.
    split_and!; try done; try lia.
    + by replace (m + 1 + i) with (m + (1 + i)) by lia.
    + rewrite B6, Z.pow_add_r by lia. change (10 ^ 1) with 10. rewrite Z.mul_assoc. f_equal. lia.
    + intros Hb. by apply B7, push_digits.
    + intros Hb. apply B8. destruct buf as [|a buf]; [done|]. cbn in Hb |- *.
      apply andb_true_iff in Hb as [-> Hb]. by apply push_digits.
Qed.

(** The digits of the integral part: all of them, or as many as are needed. *)
Lemma integral_value n : forall buf p1 p2 delta dist,
  0 <= p2 < one -> 0 <= p1 < 10 ^ Z.of_nat n -> 0 < delta < p1 * one + p2 ->
  p1 * one + p2 < 2 ^ 64 ->
  (proper_digits buf = true \/ buf = "" /\ 1 <= 10 ^ (Z.of_nat n - 1) <= p1) ->
  exists r, integral_digits n buf p1 p2 (10 ^ (Z.of_nat n - 1)) delta dist sh = Ok r /\
    match r with
    | inl (buf', k) => 0 <= k /\ proper_digits buf' = true /\
        0 <= (buffer_value buf * 10 ^ Z.of_nat n + p1) * one + p2 - buffer_value buf' * 10 ^ k * one
          <= delta
    | inr buf' => delta < p2 /\ proper_digits buf' = true /\
        buffer_value buf' = buffer_value buf * 10 ^ Z.of_nat n + p1
    end.
Proof.
  pose proof (one_bounds sh Hsh) as Hone. fold one in Hone.
  induction n as [|n IH]; intros buf p1 p2 delta dist Hp2 Hp1 Hd Hv Hb.
  { simpl in Hp1. exists (inr buf). split; [done|]. assert (p1 = 0) as -> by lia.
    split; [lia|]. destruct Hb as [Hb|[_ Hb]]; [|simpl in Hb; lia]. split; [done|]. simpl. lia. }
  cbn [integral_digits]. replace (Z.of_nat (S n) - 1) with (Z.of_nat n) in * by lia.
  set (P := 10 ^ Z.of_nat n) in *. assert (HP : 0 < P) by (apply Z.pow_pos_nonneg; lia).
  rewrite Nat2Z.inj_succ, Z.pow_succ_r in * by lia. fold P in Hp1 |- *.
  pose proof (Z.div_mod p1 P ltac:(lia)) as Hdm. pose proof (Z.mod_pos_bound p1 P ltac:(lia)) as Hr.
  assert (Hdig : 0 <= p1 / P <= 9).
  { split; [apply Z.div_pos; lia|]. apply Z.lt_succ_r, Z.div_lt_upper_bound; lia. }
  set (d := p1 / P) in *. set (r := p1 mod P) in *.
  assert (Hrest : 0 <= r * one + p2 <= p1 * one + p2) by nia.
  assert (Hten : d * (P * one) + (r * one + p2) = p1 * one + p2) by nia.
  assert (Hpush : forall x, 1 <= x <= d \/ x = d -> proper_digits (push_digit buf x) = true).
  { intros x Hx. destruct Hb as [Hb|[-> Hb]].
    - destruct buf as [|a buf]; [done|]. cbn in Hb |- *. apply andb_true_iff in Hb as [-> Hb].
      apply push_digits; [lia|done].
    - assert (1 <= d) by (unfold d; apply Z.div_le_lower_bound; lia). cbn.
      rewrite digit_char_digit by lia. rewrite digit_char_nonzero by lia. done. }
  rewrite (Z.shiftl_mul_pow2 r) by lia. fold one.
  rewrite (uint_small 64 (r * one)), (uint_small 64 (r * one + p2)) by nia.
  destruct (Z.leb_spec (r * one + p2) delta) as [Hle|Hgt].
  - assert (Hd1 : 1 <= d) by nia.
    rewrite Z.shiftl_mul_pow2, uint_small by (fold one; nia). fold one.
    destruct (round_value buf d dist delta (r * one + p2) (P * one)) as (d' & Hr' & Hd' & Hb');
      [lia|lia|lia|nia|lia|].
    rewrite Hr'. eexists. split; [reflexivity|]. split; [lia|]. split; [apply Hpush; lia|].
    rewrite push_value by lia. fold P.
    replace ((buffer_value buf * (10 * P) + p1) * one + p2 - (10 * buffer_value buf + d') * P * one)
      with (p1 * one + p2 - d' * (P * one)) by ring. rewrite <- Hten.
    assert (0 < P * one) by (apply Z.mul_pos_pos; lia). set (T := P * one) in *.
    replace (d * T + (r * one + p2) - d' * T) with (r * one + p2 + (d - d') * T) by ring.
    split; [|done]. apply Z.add_nonneg_nonneg; [lia|]. apply Z.mul_nonneg_nonneg; lia.
  - destruct (IH (push_digit buf d) r p2 delta dist) as (res & Hres & Hm); [lia|unfold P in *; lia|lia|lia| |].
    { left. apply Hpush. by right. }
    exists res. split.
    + replace (P / 10) with (10 ^ (Z.of_nat n - 1)); [exact Hres|]. unfold P.
      destruct n as [|n]; [reflexivity|]. rewrite (Nat2Z.inj_succ n), Z.pow_succ_r by lia.
      rewrite Z.mul_comm, Z.div_mul by lia. f_equal. lia.
    + fold P in Hm. rewrite push_value in Hm by lia.
      replace (buffer_value buf * (10 * P) + p1) with ((10 * buffer_value buf + d) * P + r) by lia.
      done.
Qed.
End Digits.

(** The digits that are left suffice for the distance of the boundaries. *)
Lemma digits_suffice (k : nat) M delta p1 p2 one :
  M < 10 ^ 16 * delta -> M = one * p1 + p2 -> 0 <= p2 -> 0 < one -> (1 <= k <= 10)%nat ->
  10 ^ (Z.of_nat k - 1) <= p1 -> one <= delta * 10 ^ Z.of_nat (17 - k).
Proof.
  intros Hratio HM Hp2 Hone Hk Hpow.
  assert (10 ^ 16 = 10 ^ (Z.of_nat k - 1) * 10 ^ Z.of_nat (17 - k)) as Hpw.
  { rewrite <- Z.pow_add_r by lia. f_equal. lia. }
  assert (0 < 10 ^ (Z.of_nat k - 1)) by (apply Z.pow_pos_nonneg; lia).
  assert (10 ^ (Z.of_nat k - 1) * one <= M) by nia.
  apply Z.lt_le_incl, (Z.mul_lt_mono_pos_l (10 ^ (Z.of_nat k - 1))); [done|]. nia.
Qed.

(** The number lies between the boundaries. *)
Lemma digit_gen_value e M_minus w M_plus :
  -60 <= de M_plus <= -32 -> 0 < df M_minus < df M_plus -> 2 ^ 61 <= df M_plus < 2 ^ 64 ->
  df M_plus < 10 ^ 16 * (df M_plus - df M_minus) ->
  exists digits i, grisu2_digit_gen e M_minus w M_plus = Ok (digits, e + i) /\
    proper_digits digits = true /\
    df M_minus * 10 ^ Z.max (- i) 0 <= buffer_value digits * 2 ^ (- de M_plus) * 10 ^ Z.max i 0
      <= df M_plus * 10 ^ Z.max (- i) 0.
Proof.
  intros He Hm HM Hratio. set (sh := - de M_plus). assert (Hsh : 32 <= sh <= 60) by lia.
  pose proof (one_bounds sh Hsh) as Hone. set (one := 2 ^ sh) in *.
  unfold grisu2_digit_gen, diyfp_sub. cbn [df]. fold sh.
  rewrite (uint_small 64 (df M_plus - df M_minus)) by lia.
  rewrite Z.shiftr_div_pow2, land_mask by lia. fold one.
  set (delta := df M_plus - df M_minus) in *. set (dist := uint 64 _).
  pose proof (Z.div_mod (df M_plus) one ltac:(lia)) as Hdm.
  pose proof (Z.mod_pos_bound (df M_plus) one ltac:(lia)) as Hp2.
  assert (Hp1 : 1 <= df M_plus / one < 2 ^ 32).
  { split; [apply Z.div_le_lower_bound; lia|apply Z.div_lt_upper_bound; lia]. }
  rewrite uint_small by lia. set (p1 := df M_plus / one) in *. set (p2 := df M_plus mod one) in *.
  destruct (largest_pow10 p1 Hp1) as (k & -> & Hk & Hpow).
  assert (H1k : 1 <= 10 ^ (Z.of_nat k - 1)) by (apply (Z.pow_le_mono_r 10 0); lia).
  destruct (integral_value sh Hsh k "" p1 p2 delta dist) as (r & -> & Hr); fold one;
    [lia|lia|lia|lia|right; split; [done|lia]|].
  cbn [result_bind]. change (buffer_value "") with 0 in Hr.
  rewrite Z.mul_0_l, Z.add_0_l in Hr. fold one in Hr. replace (p1 * one + p2) with (df M_plus) in Hr by lia.
  destruct r as [[buf n]|buf].
  { destruct Hr as (Hn & Hbuf & Hv). exists buf, n. split; [done|]. split; [done|].
    rewrite (Z.max_l n 0), (Z.max_r (- n) 0), Z.pow_0_r by lia. unfold delta in Hv.
    replace (buffer_value buf * one * 10 ^ n) with (buffer_value buf * 10 ^ n * one) by ring. lia. }
  destruct Hr as (Hdelta & Hbuf & Hval).
  destruct (fraction_value sh Hsh (17 - k) 20 buf 0 p2 delta dist)
    as (b & d & i & r & dist' & -> & Hd & Hi & Hr & Hd' & Hlt & Hv & Hdig & Hprop); fold one; [lia|lia|lia| |].
  { eapply digits_suffice; [exact Hratio|exact Hdm|lia..]. }
  fold one in Hlt, Hv.
  cbn [result_bind]. rewrite Z.shiftl_1_l. fold one.
  destruct (round_value b d dist' (delta * 10 ^ i) r one) as (d' & -> & Hd1 & Hle); [lia..|].
  exists (push_digit b d'), (- i). replace (e - (0 + i)) with (e + - i) by lia. split; [done|].
  split.
  { specialize (Hprop Hbuf). destruct b as [|a b]; [done|]. cbn in Hprop |- *.
    apply andb_true_iff in Hprop as [-> Hb]. apply push_digits; [lia|done]. }
  rewrite (Z.max_r (- i) 0), (Z.max_l (- - i) 0), Z.pow_0_r, Z.opp_involutive, push_value by lia.
  rewrite Hval in Hv. replace (p1 * one + p2) with (df M_plus) in Hv by lia. unfold delta in Hle.
  replace ((10 * buffer_value b + d') * one * 1) with (df M_plus * 10 ^ i - (r + (d - d') * one))
    by (rewrite <- Hv; ring).
  assert (0 <= (d - d') * one) by (apply Z.mul_nonneg_nonneg; lia).
  rewrite Z.mul_sub_distr_r in Hle. clear - Hle Hr H. lia.
Qed.

(** ** Powers with a negative exponent *)

Definition pow2 (e : Z) : Q := Qpower 2 e.
Definition pow10 (e : Z) : Q := Qpower 10 e.

Lemma pow2_pos e : (0 < pow2 e)%Q.
Proof. by apply Qpower_0_lt. Qed.
Lemma pow10_pos e : (0 < pow10 e)%Q.
Proof. by apply Qpower_0_lt. Qed.
Lemma pow2_add a b : (pow2 (a + b) == pow2 a * pow2 b)%Q.
Proof. by apply Qpower_plus. Qed.
Lemma pow10_add a b : (pow10 (a + b) == pow10 a * pow10 b)%Q.
Proof. by apply Qpower_plus. Qed.
Lemma pow2_Z e : 0 <= e -> (pow2 e == inject_Z (2 ^ e))%Q.
Proof. intros. unfold pow2. by rewrite (Zpower_Qpower 2 e). Qed.
Lemma pow10_Z e : 0 <= e -> (pow10 e == inject_Z (10 ^ e))%Q.
Proof. intros. unfold pow10. by rewrite (Zpower_Qpower 10 e). Qed.

(** A power times that of the negative part of its exponent is an integer. *)
Lemma pow2_max e : (pow2 e * inject_Z (2 ^ Z.max (- e) 0) == inject_Z (2 ^ Z.max e 0))%Q.
Proof. rewrite <- !pow2_Z, <- pow2_add by lia. replace (e + Z.max (- e) 0) with (Z.max e 0) by lia. done. Qed.
Lemma pow10_max e : (pow10 e * inject_Z (10 ^ Z.max (- e) 0) == inject_Z (10 ^ Z.max e 0))%Q.
Proof. rewrite <- !pow10_Z, <- pow10_add by lia. replace (e + Z.max (- e) 0) with (Z.max e 0) by lia. done. Qed.

Lemma inject_Z_pos z : 0 < z -> (0 < inject_Z z)%Q.
Proof. change 0%Q with (inject_Z 0). by rewrite <- Zlt_Qlt. Qed.

(** ** The cached powers are half a unit from the power of ten *)

Definition power_accurate (c : cached_power) : bool :=
  let two := 2 ^ Z.max (pe c) 0 * 10 ^ Z.max (- pk c) 0 in
  let ten := 10 ^ Z.max (pk c) 0 * 2 ^ Z.max (- pe c) 0 in
  ((2 * pf c - 1) * two <=? 2 * ten) && (2 * ten <=? (2 * pf c + 1) * two).

Lemma all_powers_accurate : forallb power_accurate kCachedPowers = true.
Proof. vm_compute. reflexivity. Qed.

Lemma cached_power_accurate e c :
  get_cached_power_for_binary_exponent e = Ok c ->
  (inject_Z (2 * pf c - 1) * pow2 (pe c) <= 2 * pow10 (pk c) <=
   inject_Z (2 * pf c + 1) * pow2 (pe c))%Q.
Proof.
  intros Hget. assert (Hc : power_accurate c = true).
  { unfold get_cached_power_for_binary_exponent in Hget. cbv zeta in Hget.
    destruct (_ <? 0); [done|]. destruct (kCachedPowers !! _) eqn:E; [|done]. injection Hget as ->.
    pose proof all_powers_accurate as Hall. rewrite forallb_forall in Hall. apply Hall.
    by apply list_elem_of_lookup_2, list_elem_of_In in E. }
  unfold power_accurate in Hc. apply andb_true_iff in Hc as [Hlo%Z.leb_le Hhi%Z.leb_le].
  rewrite Zle_Qle, !inject_Z_mult in Hlo, Hhi.
  rewrite <- (pow2_max (pe c)), <- (pow10_max (pk c)) in Hlo, Hhi.
  pose proof (inject_Z_pos (2 ^ Z.max (- pe c) 0 * 10 ^ Z.max (- pk c) 0)
    ltac:(apply Z.mul_pos_pos; apply Z.pow_pos_nonneg; lia)) as Hpos.
  rewrite inject_Z_mult in Hpos.
  set (A := inject_Z (2 ^ Z.max (- pe c) 0)) in *. set (B := inject_Z (10 ^ Z.max (- pk c) 0)) in *.
  change (inject_Z 2) with 2%Q in *. split; apply (Qmult_le_r _ _ _ Hpos); lra.
Qed.

(** ** The digits lie between the boundaries *)

(** The upper boundary [a], times the cached power [c] and made safe, is below the exact product:
    [T] and [K] are the powers of two and ten of the cached power. *)
Lemma safe_above (a c p : Z) (x T K : Q) :
  p * 2 ^ 64 <= a * c - 2 ^ 63 -> 0 < a < 2 ^ 64 -> (0 < T)%Q -> (x <= inject_Z p)%Q ->
  (inject_Z (2 * c - 1) * T <= 2 * K)%Q -> (x * inject_Z (2 ^ 64) * T < inject_Z a * K)%Q.
Proof.
  intros Hp Ha HT Hx HK.
  assert (H1 : (x * inject_Z (2 ^ 64) * T <= inject_Z (a * c - 2 ^ 63) * T)%Q).
  { apply Qmult_le_compat_r; [|by apply Qlt_le_weak].
    apply Qle_trans with (inject_Z p * inject_Z (2 ^ 64))%Q; [by apply Qmult_le_compat_r|].
    rewrite <- inject_Z_mult, <- Zle_Qle. done. }
  assert (H2 : (inject_Z (2 * (a * c - 2 ^ 63)) < inject_Z (a * (2 * c - 1)))%Q)
    by (rewrite <- Zlt_Qlt; lia).
  apply (Qmult_lt_r _ _ T HT) in H2. rewrite !inject_Z_mult in H2.
  assert (H3 : (inject_Z a * (inject_Z (2 * c - 1) * T) <= inject_Z a * (2 * K))%Q).
  { rewrite !(Qmult_comm (inject_Z a)). apply Qmult_le_compat_r; [done|].
    apply Qlt_le_weak, inject_Z_pos. lia. }
  change (inject_Z 2) with 2%Q in H2. lra.
Qed.

Lemma safe_below (a c p : Z) (x T K : Q) :
  a * c + 2 ^ 63 <= p * 2 ^ 64 -> 0 < a < 2 ^ 64 -> (0 < T)%Q -> (inject_Z p <= x)%Q ->
  (2 * K <= inject_Z (2 * c + 1) * T)%Q -> (inject_Z a * K < x * inject_Z (2 ^ 64) * T)%Q.
Proof.
  intros Hp Ha HT Hx HK.
  assert (H1 : (inject_Z (a * c + 2 ^ 63) * T <= x * inject_Z (2 ^ 64) * T)%Q).
  { apply Qmult_le_compat_r; [|by apply Qlt_le_weak].
    apply Qle_trans with (inject_Z p * inject_Z (2 ^ 64))%Q; [|by apply Qmult_le_compat_r].
    rewrite <- inject_Z_mult, <- Zle_Qle. done. }
  assert (H2 : (inject_Z (a * (2 * c + 1)) < inject_Z (2 * (a * c + 2 ^ 63)))%Q)
    by (rewrite <- Zlt_Qlt; lia).
  apply (Qmult_lt_r _ _ T HT) in H2. rewrite !inject_Z_mult in H2.
  assert (H3 : (inject_Z a * (2 * K) <= inject_Z a * (inject_Z (2 * c + 1) * T))%Q).
  { rewrite !(Qmult_comm (inject_Z a)). apply Qmult_le_compat_r; [done|].
    apply Qlt_le_weak, inject_Z_pos. lia. }
  change (inject_Z 2) with 2%Q in H2. lra.
Qed.

(** Powers of ten of both signs, moved to one side. *)
Lemma pow10_bounds (l v u i : Z) :
  l * 10 ^ Z.max (- i) 0 <= v * 10 ^ Z.max i 0 <= u * 10 ^ Z.max (- i) 0 ->
  (inject_Z l <= inject_Z v * pow10 i <= inject_Z u)%Q.
Proof.
  intros [Hl Hu]. rewrite Zle_Qle, !inject_Z_mult, <- (pow10_max i), Qmult_assoc in Hl, Hu.
  assert (Hpos : (0 < inject_Z (10 ^ Z.max (- i) 0))%Q) by (apply inject_Z_pos, Z.pow_pos_nonneg; lia).
  split; by apply (Qmult_le_r _ _ _ Hpos).
Qed.

(** The exponents of the product cancel. *)
Lemma rescale (a x E pe pk i : Z) :
  (inject_Z x * pow2 (- (E + pe + 64)) * pow10 i * inject_Z (2 ^ 64) * pow2 pe * (pow2 E * pow10 (- pk))
   == inject_Z x * pow10 (- pk + i))%Q /\
  (inject_Z a * pow10 pk * (pow2 E * pow10 (- pk)) == inject_Z a * pow2 E)%Q.
Proof.
  split.
  - rewrite <- pow2_Z by lia.
    transitivity (inject_Z x * (pow2 (- (E + pe + 64)) * pow2 64 * pow2 pe * pow2 E) * (pow10 (- pk) * pow10 i))%Q;
      [ring|].
    rewrite <- !pow2_add, <- pow10_add. replace (- (E + pe + 64) + 64 + pe + E) with 0 by lia.
    change (pow2 0) with 1%Q. ring.
  - transitivity (inject_Z a * pow2 E * (pow10 pk * pow10 (- pk)))%Q; [ring|].
    rewrite <- pow10_add. replace (pk + - pk) with 0 by lia. change (pow10 0) with 1%Q. ring.
Qed.

Lemma grisu2_between bits :
  0 < bits < 2047 * 2 ^ 52 ->
  let b := compute_boundaries bits in
  exists digits e, grisu2 bits = Ok (digits, e) /\ proper_digits digits = true /\
    (inject_Z (df (bminus b)) * pow2 (de (bplus b)) < inject_Z (buffer_value digits) * pow10 e
      < inject_Z (df (bplus b)) * pow2 (de (bplus b)))%Q.
Proof.
  intros Hbits. destruct (boundaries_shape bits Hbits) as (s & _ & _ & Hab & _).
  destruct (grisu2_scaled bits Hbits) as (c & Hget & Hp & Hm & Ep & Hmp & H61 & Hr & Hbm & He).
  pose proof (cached_power_accurate _ _ Hget) as [Klo Khi].
  rewrite (grisu2_safe bits c Hget). cbv zeta in *. generalize dependent (compute_boundaries bits). intros b **.
  destruct (digit_gen_value (- pk c) (safe_minus b c) (diyfp_mul (bw b) (Diyfp (pf c) (pe c))) (safe_plus b c))
    as (digits & i & Hdg & Hprop & Hv); [done..|].
  exists digits, (- pk c + i). split; [done|]. split; [done|].
  apply pow10_bounds in Hv as [Hlo Hhi]. rewrite inject_Z_mult, <- pow2_Z, Ep in Hlo, Hhi by lia.
  pose proof (Z.div_mod (df (bplus b) * pf c + 2 ^ 63) (2 ^ 64) ltac:(lia)) as Eu.
  pose proof (Z.mod_pos_bound (df (bplus b) * pf c + 2 ^ 63) (2 ^ 64) ltac:(lia)) as Bu.
  pose proof (Z.div_mod (df (bminus b) * pf c + 2 ^ 63) (2 ^ 64) ltac:(lia)) as El.
  pose proof (Z.mod_pos_bound (df (bminus b) * pf c + 2 ^ 63) (2 ^ 64) ltac:(lia)) as Bl.
  assert (Hpos : (0 < pow2 (de (bplus b)) * pow10 (- pk c))%Q)
    by (apply Qmult_lt_0_compat; [apply pow2_pos|apply pow10_pos]).
  destruct (rescale (df (bminus b)) (buffer_value digits) (de (bplus b)) (pe c) (pk c) i) as [<- <-].
  destruct (rescale (df (bplus b)) (buffer_value digits) (de (bplus b)) (pe c) (pk c) i) as [_ <-].
  split; apply (Qmult_lt_r _ _ _ Hpos).
  - eapply safe_below; [|exact Hbm|apply pow2_pos|exact Hlo|exact Khi]. rewrite Hm. lia.
  - eapply safe_above; [| |apply pow2_pos|exact Hhi|exact Klo]; [rewrite Hp; lia|lia].
Qed.

(** ** Between the boundaries every number rounds to the double *)

(** [x] is nearer to [m * 2 ^ e] than to the doubles next to it: within half a unit, and within a
    quarter of a unit below a power of two. *)
Definition near (m e : Z) (x : Q) : Prop :=
  (inject_Z (4 * m - if (m =? 2 ^ 52) && (-1074 <? e) then 1 else 2) * pow2 (e - 2) < x
   < inject_Z (4 * m + 2) * pow2 (e - 2))%Q.

Lemma bounded_double m e :
  bounded 53 1024 m e = true ->
  Z.pos m < 2 ^ 53 /\ -1074 <= e <= 971 /\ (2 ^ 52 <= Z.pos m \/ e = -1074).
Proof.
  unfold bounded, canonical_mantissa, fexp, emin. intros [Hm%Z.eqb_eq He%Z.leb_le]%andb_true_iff.
  pose proof (digits2_pos_bounds m) as [Hlo Hhi]. change (3 - 1024 - 53) with (-1074) in Hm.
  assert (Hd : Z.pos (digits2_pos m) <= 53) by lia.
  pose proof (Z.pow_le_mono_r 2 _ 53 ltac:(lia) Hd). split; [lia|]. split; [lia|].
  destruct (decide (Z.pos (digits2_pos m) = 53)) as [Hd53|]; [left|right; lia]. rewrite Hd53 in Hlo. lia.
Qed.

(** The bits of a double hold its significand and its exponent. *)
Lemma double_bits_decode m e :
  bounded 53 1024 m e = true -> let bits := double_bits (Z.pos m) e in
  significand_of bits = Z.pos m /\ exponent_of bits = e /\
  closer bits = (Z.pos m =? 2 ^ 52) && (-1074 <? e).
Proof.
  intros (Hm & He & Hc)%bounded_double. unfold double_bits.
  assert (Hdm : exists E F, (if Z.pos m <? 2 ^ 52 then Z.pos m else (e + 1075) * 2 ^ 52 + (Z.pos m - 2 ^ 52)) =
      2 ^ 52 * E + F /\ 0 <= F < 2 ^ 52 /\ 0 <= E /\
      ((E = 0 /\ F = Z.pos m /\ e = -1074) \/ (E = e + 1075 /\ F = Z.pos m - 2 ^ 52))).
  { destruct (Z.ltb_spec (Z.pos m) (2 ^ 52)).
    - exists 0, (Z.pos m). lia.
    - exists (e + 1075), (Z.pos m - 2 ^ 52). lia. }
  destruct Hdm as (E & F & -> & HF & HE & Hcase). unfold significand_of, exponent_of, closer.
  rewrite <- (Z.div_unique_pos (2 ^ 52 * E + F) (2 ^ 52) E F), <- (Z.mod_unique_pos (2 ^ 52 * E + F) (2 ^ 52) E F) by lia.
  clear Hc. destruct Hcase as [(-> & -> & ->)|[-> ->]].
  - cbn [Z.eqb]. split_and!; [done|done|]. lia.
  - rewrite (proj2 (Z.eqb_neq (e + 1075) 0)) by lia. split_and!; [lia|lia|]. lia.
Qed.

Lemma grisu2_near m e :
  bounded 53 1024 m e = true ->
  exists digits k, grisu2 (double_bits (Z.pos m) e) = Ok (digits, k) /\ proper_digits digits = true /\
    near (Z.pos m) e (inject_Z (buffer_value digits) * pow10 k).
Proof.
  intros Hb. pose proof (double_bits_bounds m e Hb) as Hbits.
  destruct (double_bits_decode m e Hb) as (Hf & Hx & Hc).
  destruct (boundaries_shape _ Hbits) as (s & Hs & Ha & _ & _ & He & _ & Hbm).
  destruct (grisu2_between _ Hbits) as (digits & k & Hg & Hprop & Hlo & Hhi).
  rewrite Hf, Hc, Hx in *. exists digits, k. split; [done|]. split; [done|]. unfold near.
  rewrite Ha, Hbm, He in *. clear - Hlo Hhi Hs.
  assert (E1 : forall z, (inject_Z (z * 2 ^ s) * pow2 (e - 1 - s) == inject_Z (2 * z) * pow2 (e - 2))%Q).
  { intros z. rewrite !inject_Z_mult, <- (pow2_Z s) by lia.
    replace (e - 1 - s) with (- s + 1 + (e - 2)) by lia. rewrite !pow2_add.
    transitivity (inject_Z z * (pow2 s * pow2 (- s)) * pow2 1 * pow2 (e - 2))%Q; [ring|].
    rewrite <- pow2_add. replace (s + - s) with 0 by lia. change (pow2 0) with 1%Q.
    change (pow2 1) with (inject_Z 2). ring. }
  rewrite E1 in Hhi. split; [|by replace (4 * Z.pos m + 2) with (2 * (2 * Z.pos m + 1)) by lia].
  destruct (_ && _).
  - revert Hlo. rewrite inject_Z_mult, <- (pow2_Z (s - 1)), <- Qmult_assoc, <- pow2_add by lia.
    by replace (s - 1 + (e - 1 - s)) with (e - 2) by lia.
  - rewrite E1 in Hlo. by replace (4 * Z.pos m - 2) with (2 * (2 * Z.pos m - 1)) by lia.
Qed.

(** C12. The digits of a double.  For every positive finite double [m * 2 ^ e] Grisu2 finds a
    cached power and each of its three digit loops ends within the rounds the model allows; it
    gives between 1 and 17 digits, the first of them not zero, which the 64 bytes of the
    serializer's buffer hold; and the decimal number they make with the exponent lies strictly
    between the boundaries of the double, so that no other double is as near to it. *)
Theorem grisu2_correct (m : positive) (e : Z) (Hb : bounded 53 1024 m e = true) :
  exists digits k, grisu2 (double_bits (Z.pos m) e) = Ok (digits, k) /\
    (1 <= String.length digits <= 17)%nat /\ proper_digits digits = true /\
    near (Z.pos m) e (inject_Z (buffer_value digits) * pow10 k).
Proof.
  destruct (grisu2_near m e Hb) as (digits & k & Hg & Hd & Hnear). exists digits, k.
  destruct (grisu2_ends _ (double_bits_bounds m e Hb)) as (digits' & k' & Hg' & Hlen).
  rewrite Hg in Hg'. by injection Hg' as <- <-.
Qed.

(** The double 0.1. *)
Lemma grisu2_correct_witness :
  exists digits k, grisu2 (double_bits 7205759403792794 (-56)) = Ok (digits, k) /\
    (1 <= String.length digits <= 17)%nat /\ proper_digits digits = true /\
    near 7205759403792794 (-56) (inject_Z (buffer_value digits) * pow10 k).
Proof. apply (grisu2_correct 7205759403792794 (-56)). reflexivity. Defined.

Lemma round_half_even_near n d k :
  0 < d -> (2 * k - 1) * d < 2 * n < (2 * k + 1) * d -> round_half_even n d = k.
Proof.
  intros Hd Hn. pose proof (Z.div_mod n d ltac:(lia)). pose proof (Z.mod_pos_bound n d Hd).
  unfold round_half_even. set (q := n / d) in *. set (r := n mod d) in *. clearbody q r. subst n.
  assert (q <= k) by nia. assert (k - 1 <= q) by nia.
  assert (q = k \/ q = k - 1) as [->| ->] by lia; repeat case_match; nia.
Qed.

Lemma scaled_le_Q a x b : scaled_le a x b <-> (inject_Z a * pow2 x <= inject_Z b)%Q.
Proof.
  unfold scaled_le. rewrite Zle_Qle, !inject_Z_mult, <- (pow2_max x), Qmult_assoc.
  assert (Hpos : (0 < inject_Z (2 ^ Z.max (- x) 0))%Q) by (apply inject_Z_pos, Z.pow_pos_nonneg; lia).
  apply (Qmult_le_r _ _ _ Hpos).
Qed.

Lemma round_scaled n d x k :
  0 < d -> (inject_Z (2 * k - 1) * (pow2 x * inject_Z d) < 2 * inject_Z n)%Q ->
  (2 * inject_Z n < inject_Z (2 * k + 1) * (pow2 x * inject_Z d))%Q ->
  round_half_even (n * 2 ^ Z.max (- x) 0) (d * 2 ^ Z.max x 0) = k.
Proof.
  intros Hd Hlo Hhi.
  assert (Hpos : (0 < inject_Z (2 ^ Z.max (- x) 0))%Q) by (apply inject_Z_pos, Z.pow_pos_nonneg; lia).
  apply (Qmult_lt_r _ _ _ Hpos) in Hlo, Hhi.
  apply round_half_even_near; [apply Z.mul_pos_pos; [done|]; apply Z.pow_pos_nonneg; lia|].
  rewrite !Zlt_Qlt, !inject_Z_mult, <- (pow2_max x). change (inject_Z 2) with 2%Q. split; lra.
Qed.

(** Two multiples of [w] around a number are in order. *)
Lemma multiples_lt (a b : Z) (w N : Q) :
  (0 < w)%Q -> (inject_Z a * w <= N)%Q -> (N < inject_Z b * w)%Q -> a < b.
Proof. intros Hw Ha Hb. rewrite Zlt_Qlt. apply (Qmult_lt_r _ _ w Hw). by eapply Qle_lt_trans. Qed.

Lemma pow2_offset e k d : 0 <= k -> (inject_Z d * pow2 (e - 2 + k) == inject_Z (2 ^ k) * (pow2 (e - 2) * inject_Z d))%Q.
Proof. intros. rewrite pow2_add, (pow2_Z k) by lia. ring. Qed.

(** The exponent that the rounding chooses: that of the double, or one less below a power of
    two. *)
Lemma near_exponent n d m e x :
  0 < n -> 0 < d -> bounded 53 1024 m e = true -> near (Z.pos m) e x ->
  (inject_Z n == x * inject_Z d)%Q ->
  round_exponent 53 (-1074) n d = e \/
  (round_exponent 53 (-1074) n d = e - 1 /\ Z.pos m = 2 ^ 52 /\ -1074 < e /\
   (inject_Z n < inject_Z (2 ^ 54) * (pow2 (e - 2) * inject_Z d))%Q).
Proof.
  intros Hn Hd (Hm & He & Hc)%bounded_double [Hlo Hhi] Hx. unfold round_exponent.
  destruct (ratio_log_bounds n d Hn Hd) as [Hl Hl1]. set (l := ratio_log n d) in *.
  pose proof (inject_Z_pos d Hd) as HD. apply (Qmult_lt_r _ _ _ HD) in Hlo, Hhi.
  rewrite <- Hx, <- Qmult_assoc in Hlo, Hhi.
  assert (Hw : (0 < pow2 (e - 2) * inject_Z d)%Q) by (apply Qmult_lt_0_compat; [apply pow2_pos|done]).
  assert (Hup : l <= e + 52).
  { destruct (Z.le_gt_cases l (e + 52)) as [|Hgt]; [done|].
    apply (scaled_le_mono d l (e - 2 + 55)), scaled_le_Q in Hl; [|lia..].
    rewrite pow2_offset in Hl by lia. pose proof (multiples_lt _ _ _ _ Hw Hl Hhi). lia. }
  assert (Hdown : forall k, 0 <= k -> l + 1 <= e - 2 + k ->
    (inject_Z n < inject_Z (2 ^ k) * (pow2 (e - 2) * inject_Z d))%Q).
  { intros k Hk Hle. apply Qnot_le_lt. intros Hs. rewrite <- pow2_offset in Hs by lia.
    apply scaled_le_Q in Hs. by apply Hl1, (scaled_le_mono d (e - 2 + k)); [lia..|]. }
  destruct (decide (e + 52 <= l)) as [|Hlt]; [left; lia|].
  destruct (decide (e = -1074)) as [|Hne]; [left; lia|]. right.
  pose proof (Hdown 54 ltac:(lia) ltac:(lia)) as H54.
  pose proof (multiples_lt _ _ _ _ Hw (Qlt_le_weak _ _ Hlo) H54) as Hb54.
  assert (Hm52 : Z.pos m = 2 ^ 52) by (destruct (_ && _); lia).
  split_and!; [|done|lia|done]. destruct (decide (l = e + 51)); [lia|].
  pose proof (Hdown 53 ltac:(lia) ltac:(lia)) as H53.
  pose proof (multiples_lt _ _ _ _ Hw (Qlt_le_weak _ _ Hlo) H53). destruct (_ && _); lia.
Qed.

Lemma round_near n d m e x :
  0 < n -> 0 < d -> bounded 53 1024 m e = true -> near (Z.pos m) e x ->
  (inject_Z n == x * inject_Z d)%Q -> round_binary 53 (-1074) n d = (Z.pos m, e).
Proof.
  intros Hn Hd Hb Hnear Hx. pose proof (near_exponent n d m e x Hn Hd Hb Hnear Hx) as Hexp.
  apply bounded_double in Hb as (Hm & He & _). rewrite round_binary_scaled. cbv zeta.
  destruct Hnear as [Hlo Hhi]. pose proof (inject_Z_pos d Hd) as HD.
  apply (Qmult_lt_r _ _ _ HD) in Hlo, Hhi. rewrite <- Hx, <- Qmult_assoc in Hlo, Hhi.
  assert (Hw : (0 < pow2 (e - 2) * inject_Z d)%Q) by (apply Qmult_lt_0_compat; [apply pow2_pos|done]).
  destruct Hexp as [->|(-> & Hm52 & He1 & H54)].
  - assert (E : (pow2 e * inject_Z d == 4 * (pow2 (e - 2) * inject_Z d))%Q)
      by (replace e with (e - 2 + 2) at 1 by lia; rewrite Qmult_comm, pow2_offset by lia; done).
    assert (HL : (inject_Z (4 * Z.pos m - 2) * (pow2 (e - 2) * inject_Z d) < inject_Z n)%Q).
    { eapply Qle_lt_trans, Hlo. apply Qmult_le_compat_r; [|by apply Qlt_le_weak].
      rewrite <- Zle_Qle. destruct (_ && _); lia. }
    rewrite (round_scaled n d e (Z.pos m) Hd), (proj2 (Z.eqb_neq _ _)); [done|lia| |]; rewrite E;
      [replace (4 * Z.pos m - 2) with (2 * (2 * Z.pos m - 1)) in HL by lia; rewrite inject_Z_mult in HL
      |replace (4 * Z.pos m + 2) with (2 * (2 * Z.pos m + 1)) in Hhi by lia; rewrite inject_Z_mult in Hhi];
      change (inject_Z 2) with 2%Q in *; lra.
  - assert (E : (pow2 (e - 1) * inject_Z d == 2 * (pow2 (e - 2) * inject_Z d))%Q)
      by (replace (e - 1) with (e - 2 + 1) by lia; rewrite Qmult_comm, pow2_offset by lia; done).
    rewrite Hm52, Z.eqb_refl, (proj2 (Z.ltb_lt _ _) He1) in Hlo. cbn [andb] in Hlo.
    rewrite (round_scaled n d (e - 1) (2 ^ 53) Hd).
    + rewrite Z.eqb_refl, Hm52. f_equal. lia.
    + rewrite E. change (4 * 2 ^ 52 - 1) with (2 * 2 ^ 53 - 1) in Hlo. lra.
    + rewrite E. change (2 * 2 ^ 53 + 1) with (2 ^ 54 + 1). rewrite inject_Z_plus.
      change (inject_Z 1) with 1%Q. lra.
Qed.

(** The nearest double to a number between the boundaries of a double. *)
Lemma round_ratio_near neg n d m e x :
  0 < n -> 0 < d -> bounded 53 1024 m e = true -> near (Z.pos m) e x ->
  (inject_Z n == x * inject_Z d)%Q -> round_ratio 53 1024 neg n d = Some (S754_finite neg m e).
Proof.
  intros Hn Hd Hb Hnear Hx. unfold round_ratio. change (3 - 1024 - 53) with (-1074).
  rewrite (round_near n d m e x Hn Hd Hb Hnear Hx). apply bounded_double in Hb as (_ & He & _).
  rewrite (proj2 (Z.ltb_ge _ _)); [done|lia].
Qed.
