(* ===== verification/FloatText.v ===== *)
(** * Floating point text of JSON is read back

    The text of [to_chars], laid out by [format_buffer], is a decimal number that the parser scans
    as a floating point number; its value lies between the boundaries of the double, so that the
    extraction gives the double again. *)

From Stdlib Require Import Ascii Floats.SpecFloat QArith Lqa Qpower.
From S2P Require Import Prelude Regex Strings Dtoa DtoaSpec FloatSpec DtoaCorrect.

(** ** Layout *)

Definition exponent_text (x : option Z) : string :=
  match x with Some e => "e" +:+ append_exponent e | None => "" end.
Definition fraction_text (fp : string) : string := if String.eqb fp "" then "" else "." +:+ fp.
(** Digits, a point and digits, an exponent. *)
Definition decimal_text (ip fp : string) (x : option Z) : string :=
  ip +:+ fraction_text fp +:+ exponent_text x.

(** Digits without leading zeros, or a single zero; a fraction or an exponent. *)
Definition decimal_parts (ip fp : string) (x : option Z) : Prop :=
  (ip = "0" \/ proper_digits ip = true) /\ all_chars is_digit fp = true /\
  match x with Some e => Z.abs e < 1000 | None => fp <> "" end.

Lemma length_app (a b : string) : String.length (a +:+ b) = (String.length a + String.length b)%nat.
Proof. induction a as [|c a IH]; [done|]. cbn. by rewrite IH. Qed.
Lemma length_zeros n : String.length (zeros n) = n.
Proof. induction n as [|n IH]; [done|]. cbn. by rewrite IH. Qed.
Lemma zeros_digits n : all_chars is_digit (zeros n) = true.
Proof. by induction n. Qed.
Lemma radix_value_zeros acc n : radix_value 10 acc (zeros n) = acc * 10 ^ Z.of_nat n.
Proof.
  revert acc. induction n as [|n IH]; intros acc; [cbn; lia|].
  cbn [zeros radix_value]. rewrite IH. change (digit_value "0") with 0.
  rewrite Nat2Z.inj_succ, Z.pow_succ_r by lia. ring.
Qed.

Lemma substring_split n s : (n <= String.length s)%nat ->
  exists a b, s = a +:+ b /\ String.length a = n /\ String.substring 0 n s = a /\
    forall m, (String.length s <= n + m)%nat -> String.substring n m s = b.
Proof.
  revert n. induction s as [|c s IH]; intros n Hn.
  { exists "", "". destruct n; [|cbn in Hn; lia]. split_and!; try done. by intros []. }
  destruct n as [|n].
  { exists "", (String c s). split_and!; try done. intros m Hm. clear IH Hn. revert c m Hm.
    induction s as [|c' s IH]; intros c [|m] Hm; cbn in Hm; try lia; cbn; f_equal; [by destruct m|].
    specialize (IH c' m). cbn in IH. apply IH. lia. }
  destruct (IH n) as (a & b & -> & <- & Ha & Hb); [cbn in Hn; lia|].
  exists (String c a), b. cbn. split_and!; try done; [by rewrite Ha|]. intros m Hm. apply Hb. cbn in Hm. lia.
Qed.

Lemma proper_app a b :
  a <> "" -> proper_digits (a +:+ b) = proper_digits a && all_chars is_digit b.
Proof. destruct a as [|c a]; [done|]. intros _. cbn. by rewrite all_chars_app, !andb_assoc. Qed.
Lemma proper_all s : proper_digits s = true -> all_chars is_digit s = true.
Proof. destruct s; [done|]. cbn. rewrite !andb_true_iff. tauto. Qed.

Definition parts_value (ip fp : string) (x : option Z) : Q :=
  inject_Z (radix_value 10 0 (ip +:+ fp)) * pow10 (default 0 x - Z.of_nat (String.length fp)).

(** Digits with a point inside. *)
Lemma split_digits n digits :
  proper_digits digits = true -> (0 < n < String.length digits)%nat ->
  exists a b, digits = a +:+ b /\ String.substring 0 n digits = a /\
    String.substring n (String.length digits) digits = b /\
    Z.of_nat (String.length b) = Z.of_nat (String.length digits) - Z.of_nat n /\
    proper_digits a = true /\ all_chars is_digit b = true /\ b <> "" /\ fraction_text b = "." +:+ b.
Proof.
  intros Hd Hn. destruct (substring_split n digits) as (a & b & E & Ha & Hsa & Hsb); [lia|].
  exists a, b. rewrite Hsa, Hsb by lia.
  assert (Hl : String.length digits = (String.length a + String.length b)%nat) by (rewrite E; apply length_app).
  assert (a <> "") by (intros ->; cbn in Ha; lia). assert (Hb : b <> "") by (intros ->; cbn in Hl; lia).
  rewrite E, proper_app in Hd by done. apply andb_true_iff in Hd as [Ha1 Hb1].
  unfold fraction_text. rewrite (proj2 (String.eqb_neq b "")) by done. split_and!; try done. lia.
Qed.

Lemma parts_value_digits digits k ip fp x :
  default 0 x - Z.of_nat (String.length fp) = k ->
  radix_value 10 0 (ip +:+ fp) = buffer_value digits ->
  (parts_value ip fp x == inject_Z (buffer_value digits) * pow10 k)%Q.
Proof. intros Hx Hip. unfold parts_value. by rewrite Hx, Hip. Qed.

Lemma integer_layout digits k :
  0 <= k -> (parts_value (digits +:+ zeros (Z.to_nat k)) "0" None ==
             inject_Z (buffer_value digits) * pow10 k)%Q.
Proof.
  intros Hk. unfold parts_value. cbn [default].
  rewrite !radix_value_app, radix_value_zeros, Z2Nat.id by lia.
  fold (buffer_value digits). cbn [radix_value String.length]. change (digit_value "0") with 0.
  change (0 - Z.of_nat 1) with (-1). change (pow10 (-1)) with (/ 10)%Q.
  rewrite Z.add_0_r, !inject_Z_mult, <- pow10_Z by lia. change (inject_Z 10) with 10%Q. field.
Qed.

(** The five layouts. *)
Lemma format_buffer_parts digits k :
  proper_digits digits = true -> Z.abs (Z.of_nat (String.length digits) + k - 1) < 1000 ->
  exists ip fp x, format_buffer digits k (-4) 15 = decimal_text ip fp x /\ decimal_parts ip fp x /\
    (parts_value ip fp x == inject_Z (buffer_value digits) * pow10 k)%Q.
Proof.
  intros Hd Hk. unfold format_buffer. cbv zeta. set (len := String.length digits) in *.
  assert (Hlen : (1 <= len)%nat) by (destruct digits; [done|cbn in len; lia]).
  destruct ((Z.of_nat len <=? Z.of_nat len + k) && (Z.of_nat len + k <=? 15)) eqn:E1;
    [|destruct ((0 <? Z.of_nat len + k) && (Z.of_nat len + k <=? 15)) eqn:E2;
      [|destruct ((-4 <? Z.of_nat len + k) && (Z.of_nat len + k <=? 0)) eqn:E3]].
  - apply andb_true_iff in E1 as [Hn _]. exists (digits +:+ zeros (Z.to_nat k)), "0", None.
    replace (Z.of_nat len + k - Z.of_nat len) with k by lia. split_and!.
    + unfold decimal_text. by rewrite str_app_assoc.
    + split_and!; [right|done|done]. rewrite proper_app by (by destruct digits). by rewrite Hd, zeros_digits.
    + apply integer_layout. lia.
  - destruct (split_digits (Z.to_nat (Z.of_nat len + k)) digits Hd)
      as (a & b & E & Hsa & Hsb & Hl & Ha & Hb & Hne & Hf); [fold len; lia|].
    fold len in Hsb. rewrite Hsa, Hsb. exists a, b, None. split_and!; [|by split_and!; [right| |]|].
    + unfold decimal_text. rewrite Hf. cbn [exponent_text]. by rewrite str_app_nil_r.
    + apply parts_value_digits; [cbn; fold len in Hl; lia|by rewrite E].
  - exists "0", (zeros (Z.to_nat (- (Z.of_nat len + k))) +:+ digits), None.
    set (z := zeros _). assert (Hz : z +:+ digits <> "") by (destruct z; [by destruct digits|done]). split_and!.
    + unfold decimal_text, fraction_text. rewrite (proj2 (String.eqb_neq _ "")) by done.
      cbn [exponent_text]. by rewrite str_app_nil_r.
    + split_and!; [by left| |done]. rewrite all_chars_app. unfold z. rewrite zeros_digits. by apply proper_all.
    + apply parts_value_digits; unfold z.
      * rewrite length_app, length_zeros. fold len. cbn [default]. lia.
      * cbn [String.append radix_value]. rewrite radix_value_app. by rewrite radix_value_zeros.
  - destruct (Z.eqb_spec (Z.of_nat len) 1) as [H1|H1].
    + exists digits, "", (Some (Z.of_nat len + k - 1)). split_and!; [done|by split_and!; [right| |]|].
      apply parts_value_digits; [cbn; lia|by rewrite str_app_nil_r].
    + destruct (split_digits 1 digits Hd) as (a & b & E & Hsa & Hsb & Hl & Ha & Hb & Hne & Hf); [fold len; lia|].
      fold len in Hsb. rewrite Hsa, Hsb. exists a, b, (Some (Z.of_nat len + k - 1)). split_and!; [|by split_and!; [right| |]|].
      * unfold decimal_text. rewrite Hf. by rewrite !str_app_assoc.
      * apply parts_value_digits; [cbn; fold len in Hl; lia|by rewrite E].
Qed.

(** ** The decimal exponent has at most three digits *)

Lemma digit_value_bounds a : is_digit a = true -> 0 <= digit_value a <= 9.
Proof. destruct a as [[] [] [] [] [] [] [] []]; try done; cbn; lia. Qed.
Lemma digit_value_pos a : is_digit a = true -> Ascii.eqb a "0"%char = false -> 1 <= digit_value a.
Proof. destruct a as [[] [] [] [] [] [] [] []]; try done; cbn; lia. Qed.

Lemma radix_value_range acc s :
  all_chars is_digit s = true ->
  let p := 10 ^ Z.of_nat (String.length s) in acc * p <= radix_value 10 acc s < (acc + 1) * p.
Proof.
  revert acc. induction s as [|a s IH]; intros acc; cbn [all_chars radix_value String.length]; [cbn; lia|].
  intros [Ha Hs]%andb_true_iff. pose proof (digit_value_bounds a Ha). specialize (IH (10 * acc + digit_value a) Hs).
  cbv zeta in *. rewrite Nat2Z.inj_succ, Z.pow_succ_r by lia.
  set (p := 10 ^ Z.of_nat (String.length s)) in *. assert (0 < p) by (apply Z.pow_pos_nonneg; lia). nia.
Qed.

Lemma buffer_value_range digits :
  proper_digits digits = true -> let n := Z.of_nat (String.length digits) in
  1 <= n /\ 10 ^ (n - 1) <= buffer_value digits < 10 ^ n.
Proof.
  destruct digits as [|a s]; [done|]. cbn [proper_digits String.length].
  intros [[H0%negb_true_iff Ha]%andb_true_iff Hs]%andb_true_iff. cbv zeta. rewrite Nat2Z.inj_succ.
  split; [lia|]. unfold buffer_value. cbn [radix_value]. rewrite Z.mul_0_r, Z.add_0_l.
  pose proof (radix_value_range (digit_value a) s Hs) as Hr. cbv zeta in Hr.
  pose proof (digit_value_bounds a Ha). pose proof (digit_value_pos a Ha H0).
  replace (Z.succ (Z.of_nat (String.length s)) - 1) with (Z.of_nat (String.length s)) by lia.
  rewrite Z.pow_succ_r by lia. set (p := 10 ^ Z.of_nat (String.length s)) in *.
  assert (0 < p) by (apply Z.pow_pos_nonneg; lia). nia.
Qed.

Lemma pow10_le a b : (pow10 a <= pow10 b)%Q -> a <= b.
Proof.
  intros H. destruct (Z.le_gt_cases a b) as [|Hgt]; [done|]. exfalso.
  apply (Qlt_not_le (pow10 b) (pow10 a)); [|done]. by apply Qpower_lt_compat_l.
Qed.
Lemma pow2_mono a b : a <= b -> (pow2 a <= pow2 b)%Q.
Proof. intros H. by apply Qpower_le_compat_l. Qed.

Lemma near_range m e digits k :
  bounded 53 1024 m e = true -> proper_digits digits = true ->
  near (Z.pos m) e (inject_Z (buffer_value digits) * pow10 k) ->
  Z.abs (Z.of_nat (String.length digits) + k - 1) < 1000.
Proof.
  intros (Hm & He & _)%bounded_double Hd [Hlo Hhi].
  destruct (buffer_value_range digits Hd) as (Hn & Hv1 & Hv2). set (n := Z.of_nat (String.length digits)) in *.
  pose proof (pow10_pos k) as Hk.
  assert (Hu : (pow10 (n - 1 + k) <= inject_Z (buffer_value digits) * pow10 k)%Q).
  { rewrite pow10_add, pow10_Z by lia. apply Qmult_le_compat_r; [|by apply Qlt_le_weak]. by rewrite <- Zle_Qle. }
  assert (Hl : (inject_Z (buffer_value digits) * pow10 k <= pow10 (n + k))%Q).
  { rewrite pow10_add, (pow10_Z n) by lia. apply Qmult_le_compat_r; [|by apply Qlt_le_weak].
    rewrite <- Zle_Qle. lia. }
  assert (H1 : (pow10 (n - 1 + k) <= pow10 309)%Q).
  { eapply Qle_trans; [exact Hu|]. apply Qlt_le_weak. eapply Qlt_le_trans; [exact Hhi|].
    apply Qle_trans with (pow2 55 * pow2 969)%Q; [|rewrite <- pow2_add; by vm_compute].
    apply Qmult_le_compat_nonneg.
    - split; [by vm_compute|]. rewrite pow2_Z, <- Zle_Qle by lia. lia.
    - split; [apply Qlt_le_weak, pow2_pos|apply pow2_mono; lia]. }
  assert (H2 : (pow10 (-324) <= pow10 (n + k))%Q).
  { eapply Qle_trans; [|exact Hl]. apply Qlt_le_weak. eapply Qle_lt_trans; [|exact Hlo].
    apply Qle_trans with (pow2 1 * pow2 (-1076))%Q; [by vm_compute|].
    apply Qmult_le_compat_nonneg.
    - split; [by vm_compute|]. rewrite pow2_Z, <- Zle_Qle by lia. destruct (_ && _); lia.
    - split; [apply Qlt_le_weak, pow2_pos|apply pow2_mono; lia]. }
  apply pow10_le in H1, H2. lia.
Qed.

(** ** The field *)

Definition sign_text (neg : bool) : string := if neg then "-" else "".

Lemma span_app p w r :
  all_chars p w = true -> match r with String a _ => p a = false | EmptyString => True end ->
  span p (w +:+ r) = (w, r).
Proof.
  induction w as [|a w IH]; cbn [all_chars String.append].
  - intros _ Hr. destruct r as [|a r]; [done|]. cbn. by rewrite Hr.
  - intros [Ha Hw]%andb_true_iff Hr. cbn [span]. by rewrite Ha, IH.
Qed.

(** The digits of an exponent. *)
Definition exponent_digits_ok (k : Z) : bool :=
  match append_exponent k with
  | String a s => Ascii.eqb a (if k <? 0 then "-"%char else "+"%char) && is_digits s && (digits_from 0 s =? Z.abs k)
  | EmptyString => false
  end.
Lemma all_exponents_ok : forallb (fun i => exponent_digits_ok (Z.of_nat i - 999)) (seq 0 1999) = true.
Proof. vm_compute. reflexivity. Qed.

Lemma append_exponent_text x :
  Z.abs x < 1000 -> exists s,
    append_exponent x = String (if x <? 0 then "-"%char else "+"%char) s /\ is_digits s = true /\ digits_from 0 s = Z.abs x.
Proof.
  intros Hx. pose proof all_exponents_ok as Hall. rewrite forallb_forall in Hall.
  specialize (Hall (Z.to_nat (x + 999))). rewrite in_seq in Hall.
  rewrite Z2Nat.id in Hall by lia. replace (x + 999 - 999) with x in Hall by lia.
  specialize (Hall ltac:(lia)). unfold exponent_digits_ok in Hall.
  destruct (append_exponent x) as [|a s]; [done|].
  apply andb_true_iff in Hall as [[->%Ascii.eqb_eq Hs]%andb_true_iff Hv%Z.eqb_eq]. by exists s.
Qed.

Lemma exponent_field x :
  match x with Some e => Z.abs e < 1000 | None => True end ->
  decimal_exponent_field (exponent_text x) = Some (default 0 x).
Proof.
  destruct x as [x|]; [|done]. intros (s & E & Hs & Hv)%append_exponent_text. cbn [exponent_text].
  rewrite E. cbn [String.append decimal_exponent_field].
  replace (one_of "eE" "e") with true by done.
  destruct (Z.ltb_spec x 0); cbn; rewrite Hs, Hv; f_equal; lia.
Qed.

Lemma significand_parts ip fp x :
  all_chars is_digit ip = true -> all_chars is_digit fp = true ->
  significand is_digit (decimal_text ip fp x) = (ip, fp, exponent_text x).
Proof.
  intros Hi Hf. unfold significand, decimal_text, fraction_text.
  destruct (String.eqb_spec fp "") as [->|Hne]; cbn [String.append].
  - rewrite span_app; [|done|by destruct x]. by destruct x.
  - rewrite span_app by done. cbn. rewrite span_app; [done|done|by destruct x].
Qed.

(** The first character of a number, and that it is not hexadecimal. *)
Definition hex_start (s : string) : bool :=
  match s with String "0" (String a _) => one_of "xX" a | _ => false end.
Lemma decimal_text_head ip fp x :
  decimal_parts ip fp x -> exists a s, decimal_text ip fp x = String a s /\ is_digit a = true /\
    hex_start (decimal_text ip fp x) = false.
Proof.
  intros (Hip & Hfp & Hx). unfold decimal_text. destruct Hip as [->|Hip].
  - eexists _, _. split; [reflexivity|]. split; [done|]. unfold fraction_text.
    destruct (String.eqb_spec fp "") as [->|Hne]; [|done]. by destruct x.
  - destruct ip as [|a ip]; [done|]. eexists a, _. split; [reflexivity|]. cbn in Hip.
    apply andb_true_iff in Hip as [[H0%negb_true_iff Ha]%andb_true_iff _]. split; [done|].
    by destruct a as [[] [] [] [] [] [] [] []].
Qed.

Lemma decimal_field neg ip fp x :
  decimal_parts ip fp x ->
  float_field (sign_text neg +:+ decimal_text ip fp x) =
    Some (neg, (radix_value 10 0 (ip +:+ fp), 10, default 0 x - Z.of_nat (String.length fp))).
Proof.
  intros Hp. destruct (decimal_text_head _ _ _ Hp) as (a & s & E & Ha & Hhex).
  assert (Hs : split_sign (sign_text neg +:+ decimal_text ip fp x) = (neg, decimal_text ip fp x)).
  { destruct neg; [done|]. cbn [sign_text String.append]. rewrite E. cbn [split_sign].
    destruct (digit_plain a Ha) as (_ & -> & -> & _). done. }
  destruct Hp as (Hip & Hfp & Hx). unfold float_field. rewrite Hs.
  unfold hex_start in Hhex. rewrite Hhex, significand_parts; [|destruct Hip as [->|]; [done|by apply proper_all]|done].
  rewrite (proj2 (String.eqb_neq (ip +:+ fp) "")) by (destruct Hip as [->|]; [done|by destruct ip]).
  rewrite exponent_field by (by destruct x). done.
Qed.

(** ** The double is read back *)

Lemma ratio_value m e :
  0 < m -> let '(n, d) := ratio m 10 e in
  0 < n /\ 0 < d /\ (inject_Z n == inject_Z m * pow10 e * inject_Z d)%Q.
Proof.
  intros Hm. unfold ratio. destruct (Z.leb_spec 0 e).
  - split_and!; [apply Z.mul_pos_pos; [done|apply Z.pow_pos_nonneg; lia]|lia|].
    rewrite inject_Z_mult, <- pow10_Z by lia. change (inject_Z 1) with 1%Q. ring.
  - split_and!; [done|apply Z.pow_pos_nonneg; lia|].
    rewrite <- pow10_Z, <- Qmult_assoc, <- pow10_add by lia. replace (e + - e) with 0 by lia.
    change (pow10 0) with 1%Q. ring.
Qed.

Lemma near_Proper m e x y : (x == y)%Q -> near m e x -> near m e y.
Proof. unfold near. by intros ->. Qed.

(** The text of a finite double. *)
Lemma to_chars_read neg m e :
  bounded 53 1024 m e = true ->
  exists ip fp x, let text := sign_text neg +:+ decimal_text ip fp x in
    to_chars neg (double_bits (Z.pos m) e) = Ok text /\ decimal_parts ip fp x /\
    extract_float 53 1024 text = Some (S754_finite neg m e).
Proof.
  intros Hb. destruct (grisu2_near m e Hb) as (digits & k & Hg & Hd & Hnear).
  destruct (format_buffer_parts digits k Hd (near_range m e digits k Hb Hd Hnear))
    as (ip & fp & x & Hfmt & Hp & Hval).
  exists ip, fp, x. cbv zeta. split; [|split; [done|]].
  { unfold to_chars. rewrite (proj2 (Z.eqb_neq _ 0)) by (pose proof (double_bits_bounds m e Hb); lia).
    rewrite Hg. cbn [result_bind fst snd]. by rewrite Hfmt. }
  unfold extract_float. rewrite decimal_field by done. symmetry in Hval.
  apply (near_Proper _ _ _ _ Hval) in Hnear. clear Hval Hfmt Hg. unfold parts_value in Hnear.
  set (M := radix_value 10 0 (ip +:+ fp)) in *. set (X := default 0 x - Z.of_nat (String.length fp)) in *.
  assert (HM : 0 < M).
  { rewrite Zlt_Qlt. change (inject_Z 0) with 0%Q. apply (Qmult_lt_r _ _ _ (pow10_pos X)).
    rewrite Qmult_0_l. destruct Hnear as [Hlo _]. eapply Qle_lt_trans, Hlo. apply Qmult_le_0_compat.
    - change 0%Q with (inject_Z 0). rewrite <- Zle_Qle. destruct (_ && _); lia.
    - apply Qlt_le_weak, pow2_pos. }
  rewrite (proj2 (Z.eqb_neq M 0)) by lia. pose proof (ratio_value M X HM) as Hr.
  destruct (ratio M 10 X) as [n d]. destruct Hr as (Hn & Hd' & Hnd).
  by eapply round_ratio_near.
Qed.
