(* ===== verification/JsonParserSpec.v ===== *)
(** * JSON text to values: the proofs

    [json::parse] returns on every text: a value as the library stores it, [parse_error.101]
    or [out_of_range.406]. *)

From Stdlib Require Import Ascii.
From stdpp Require Import pretty.
From S2P Require Import Prelude Json Regex Strings Dtoa DtoaSpec JsonDump JsonDumpSpec JsonParser.
From S2P Require Import JsonUtf8 FloatSpec.

(** ** The lexer reads *)

Lemma get_codepoint_rest factors c s c' s' :
  get_codepoint factors c s = Some (c', s') -> (String.length s' <= String.length s)%nat.
Proof.
  revert c s. induction factors as [|f factors IH]; intros c s; cbn [get_codepoint].
  { by intros [= <- <-]. }
  destruct s as [|a s]; [done|]. cbn [String.length].
  repeat case_match; try done; intros Hs%IH; lia.
Qed.

Lemma bytes_in_ranges_rest ranges b s b' s' :
  bytes_in_ranges ranges b s = Some (b', s') -> (String.length s' <= String.length s)%nat.
Proof.
  revert b s. induction ranges as [|[lo hi] ranges IH]; intros b s; cbn [bytes_in_ranges].
  { by intros [= <- <-]. }
  destruct s as [|a s]; [done|]. cbn [String.length]. case_match; [|done]. intros Hs%IH. lia.
Qed.

Lemma scan_unicode_rest s c s' :
  scan_unicode s = Some (c, s') -> (String.length s' <= String.length s)%nat.
Proof.
  unfold scan_unicode. destruct (get_codepoint _ _ s) as [[c1 s1]|] eqn:E1; [|done].
  apply get_codepoint_rest in E1. case_match.
  - destruct s1 as [|a [|b s1]]; try done. case_match; [|done].
    destruct (get_codepoint _ _ s1) as [[c2 s2]|] eqn:E2; [|done].
    apply get_codepoint_rest in E2. cbn [String.length] in E1. case_match; [|done].
    intros [= _ <-]. lia.
  - case_match; [done|]. by intros [= _ <-].
Qed.

Lemma scan_escape_rest b s b' s' :
  scan_escape b s = Some (b', s') -> (String.length s' <= String.length s)%nat.
Proof.
  unfold scan_escape. destruct s as [|a s]; [done|]. cbn [String.length].
  repeat (case_match; [intros [= _ <-]; lia|]). case_match; [|done].
  destruct (scan_unicode s) as [[c s1]|] eqn:E; [|done]. apply scan_unicode_rest in E.
  intros [= _ <-]. lia.
Qed.

Lemma scan_string_ends fuel b s :
  (String.length s < fuel)%nat -> exists t s', scan_string fuel b s = Ok (t, s') /\
    (String.length s' <= String.length s)%nat.
Proof.
  revert b s. induction fuel as [|fuel IH]; intros b s Hf; [lia|]. cbn [scan_string].
  destruct s as [|a s]; [by eexists _, _|]. cbn [String.length] in *.
  case_match; [eexists _, _; split; [done|lia]|].
  assert (forall r : option (string * string),
    (forall b' s', r = Some (b', s') -> (String.length s' <= String.length s)%nat) ->
    exists t s', match r with Some (b', s') => scan_string fuel b' s' | None => Ok (parse_error, s) end
      = Ok (t, s') /\ (String.length s' <= S (String.length s))%nat) as Hr.
  { intros [[b' s1]|] Hr; [|eexists _, _; split; [done|lia]].
    specialize (Hr _ _ eq_refl). destruct (IH b' s1) as (t & s' & -> & Hs'); [lia|].
    eexists _, _. split; [done|lia]. }
  apply Hr. intros b' s'. case_match; [apply scan_escape_rest|].
  destruct (following_bytes a); [apply bytes_in_ranges_rest|done].
Qed.

Lemma scan_number_from_rest st t b s t' b' s' :
  scan_number_from st t b s = Some (t', b', s') -> (String.length s' <= String.length s)%nat.
Proof.
  revert st t b. induction s as [|a s IH]; intros st t b; cbn [scan_number_from].
  { case_match; try done. by intros [= _ _ <-]. }
  destruct (number_next st a); [intros Hs%IH; cbn; lia|by intros [= _ _ <-]|done].
Qed.

Lemma scan_literal_rest text t s :
  (String.length (scan_literal text t s).2 <= String.length s)%nat.
Proof.
  revert s. induction text as [|b text IH]; intros [|a s]; cbn; try lia.
  case_match; [specialize (IH s); lia|cbn; lia].
Qed.

(** Whether the token is a character or more of the input. *)
Definition reads (t : token_type) : bool :=
  match t with parse_error | end_of_input => false | _ => true end.

Lemma skip_blanks_rest s : (String.length (skip_blanks s) <= String.length s)%nat.
Proof. induction s as [|a s IH]; cbn; [done|]. case_match; cbn; lia. Qed.

Lemma scan_ends s :
  exists t s', scan s = Ok (t, s') /\ (String.length s' <= String.length s)%nat /\
    (reads t = true -> (String.length s' < String.length s)%nat).
Proof.
  unfold scan. pose proof (skip_blanks_rest s) as Hs. destruct (skip_blanks s) as [|a s1].
  { exists end_of_input, "". cbn. by split_and!; [|lia|]. }
  cbn [String.length] in Hs.
  assert (forall t s', (String.length s' <= String.length s1)%nat -> exists t0 s0,
    Ok (t, s') = Ok (t0, s0) /\ (String.length s0 <= String.length s)%nat /\
    (reads t0 = true -> (String.length s0 < String.length s)%nat)) as Hr.
  { intros t s' Hs'. exists t, s'. split_and!; [done|lia|lia]. }
  repeat (case_match; [apply Hr; lia|]).
  repeat (case_match; [rewrite (surjective_pairing (scan_literal _ _ _));
    apply Hr, scan_literal_rest|]).
  case_match.
  { destruct (scan_string_ends (S (String.length s1)) "" s1) as (t & s' & -> & Hs'); [lia|].
    by apply Hr. }
  case_match; [|case_match; apply Hr; lia].
  unfold scan_number. destruct (scan_number_from _ _ _ _) as [[[t b] s']|] eqn:E; [|apply Hr; lia].
  apply scan_number_from_rest in E. by apply Hr.
Qed.

(** ** The parser ends *)

Lemma get_token_ends p :
  exists q, get_token p = Ok q /\ states q = states p /\ sax q = sax p /\
    (String.length (input q) <= String.length (input p))%nat /\
    (reads (last_token q) = true -> (String.length (input q) < String.length (input p))%nat).
Proof.
  unfold get_token. destruct (scan_ends (input p)) as (t & s' & -> & Hs). cbn.
  eexists. split_and!; try done; apply Hs.
Qed.

(** An iteration ends, and the next one has less to read, or reads nothing and ends. *)
Definition advances (n : nat) (r : result progress) : Prop :=
  match r with
  | Ok (Continue skip p) =>
      (String.length (input p) < n)%nat \/ skip = false /\ reads (last_token p) = false
  | Ok (Finished _) => True
  | Throw e => e = JsonParseError 101 \/ e = JsonOutOfRange 406
  | Undef => False
  end.

Lemma advances_le n m r : (n <= m)%nat -> advances n r -> advances m r.
Proof. destruct r as [[skip p|]|e|]; cbn; [intuition lia|done..]. Qed.

Ltac token p :=
  let q := fresh "q" in let H := fresh "H" in let Hr := fresh "Hr" in let Hle := fresh "Hle" in
  destruct (get_token_ends p) as (q & H & _ & _ & Hle & Hr); rewrite H; cbn [result_bind];
  clear H; cbn [input on_sax set_states] in Hle, Hr.

Lemma parse_key_advances st p n :
  (reads (last_token p) = true -> (String.length (input p) < n)%nat) ->
  advances n (parse_key st p).
Proof.
  intros Hr. unfold parse_key, syntax_error. destruct (last_token p) eqn:E; try (cbn; tauto).
  specialize (Hr eq_refl). token (on_sax (key s) p).
  destruct (last_token q) eqn:E1; try (cbn; tauto). token (set_states st q). cbn; left; lia.
Qed.

Lemma evaluate_state_advances p :
  advances (String.length (input p)) (evaluate_state p).
Proof.
  unfold evaluate_state, syntax_error. destruct (states p) as [|[] st]; [done| |].
  all: token p; destruct (last_token q) eqn:E; try (cbn; tauto); specialize (Hr eq_refl).
  - token q. cbn; left; lia.
  - token q. apply parse_key_advances. lia.
Qed.

Lemma parse_token_advances p :
  advances (String.length (input p)) (parse_token p).
Proof.
  unfold parse_token, parse_scalar, syntax_error.
  destruct (last_token p) as [| | | | | |[f|]| | | | | | | |]; try (cbn; tauto);
    try (apply (evaluate_state_advances (on_sax _ p))).
  - token (on_sax start_array p). destruct (last_token q) eqn:E;
      try (cbn; left; specialize (Hr eq_refl); lia); try (cbn; rewrite E; tauto).
    eapply advances_le, (evaluate_state_advances (on_sax end_container q)). cbn. lia.
  - token (on_sax start_object p). destruct (last_token q) eqn:E;
      try (apply parse_key_advances; rewrite E; exact Hr).
    eapply advances_le, (evaluate_state_advances (on_sax end_container q)). cbn. lia.
Qed.

Lemma sax_parse_ends fuel skip p :
  (S (String.length (input p)) < fuel)%nat \/
    (skip = false /\ reads (last_token p) = false /\ fuel <> 0%nat) ->
  match sax_parse_internal fuel skip p with
  | Ok _ => True
  | Throw e => e = JsonParseError 101 \/ e = JsonOutOfRange 406
  | Undef => False
  end.
Proof.
  revert skip p. induction fuel as [|fuel IH]; intros skip p Hf; [lia|]. cbn [sax_parse_internal].
  destruct Hf as [Hf|(-> & Hr & _)].
  - assert (advances (String.length (input p)) (if skip then evaluate_state p else parse_token p))
      as Ha by (destruct skip; [apply evaluate_state_advances|apply parse_token_advances]).
    destruct (if skip then _ else _) as [[skip' q|q]|e|]; cbn [result_bind]; try done.
    apply IH. destruct Ha as [Ha|[-> Ha]]; [left; lia|right; split_and!; [done..|lia]].
  - unfold parse_token, syntax_error.
    destruct (last_token p); try done; cbn; tauto.
Qed.

(** More rounds change nothing. *)
Lemma sax_parse_more fuel k skip p :
  sax_parse_internal fuel skip p <> Undef ->
  sax_parse_internal (fuel + k) skip p = sax_parse_internal fuel skip p.
Proof.
  revert skip p. induction fuel as [|fuel IH]; intros skip p; [done|].
  rewrite Nat.add_succ_l. cbn [sax_parse_internal].
  destruct (if skip then _ else _) as [[skip' q|q]|e|]; cbn [result_bind]; try done. apply IH.
Qed.

Lemma run_get_token p t s :
  scan (input p) = Ok (t, s) ->
  get_token p = Ok {| last_token := t; input := s; states := states p; sax := sax p |}.
Proof. unfold get_token. by intros ->. Qed.

Lemma json_parse_ends text :
  match json_parse text with
  | Ok _ => True
  | Throw e => e = JsonParseError 101 \/ e = JsonOutOfRange 406
  | Undef => False
  end.
Proof.
  unfold json_parse, syntax_error. destruct (skip_bom text) as [s|]; [|by left].
  set (p0 := {| last_token := parse_error; input := s; states := [];
                sax := {| root := JNull; ref_stack := [] |} |}).
  destruct (get_token_ends p0) as (p & -> & _ & _ & _ & Hr). cbn [result_bind].
  pose proof (sax_parse_ends (S (String.length s)) false p) as He.
  destruct (sax_parse_internal _ _ p) as [q|e|]; cbn [result_bind].
  - destruct (get_token_ends q) as (q' & -> & _). cbn [result_bind].
    destruct (last_token q'); try done; by left.
  - apply He. destruct (reads (last_token p)); [left; cbn in Hr; specialize (Hr eq_refl); lia|by right].
  - apply He. destruct (reads (last_token p)); [left; cbn in Hr; specialize (Hr eq_refl); lia|by right].
Qed.

(** ** What is read is stored as the library stores it *)

(** Numbers of their types, keys in order and UTF-8 strings. *)
Fixpoint stored (j : json) : bool :=
  match j with
  | JString s => utf8 s
  | JFloat f => valid_binary 53 1024 f
  | JInt z => (- 2 ^ 63 <=? z) && (z <? 2 ^ 63)
  | JUInt n => (0 <=? n) && (n <? 2 ^ 64)
  | JArray l => forallb stored l
  | JObject m => sorted_keys m && forallb (fun kv => utf8 kv.1 && stored kv.2) m
  | _ => true
  end.
Definition frame_stored (f : frame) : bool :=
  match f with
  | OpenArray l => stored (JArray l)
  | OpenObject m k => stored (JObject m) && utf8 k
  end.
Definition dom_stored (d : dom) : bool := stored (root d) && forallb frame_stored (ref_stack d).
Definition token_stored (t : token_type) : bool :=
  match t with
  | value_unsigned n => stored (JUInt n)
  | value_integer z => stored (JInt z)
  | value_string s => stored (JString s)
  | value_float (Some f) => stored (JFloat f)
  | _ => true
  end.
Definition parser_stored (p : parser) : bool := token_stored (last_token p) && dom_stored (sax p).

Lemma strtof_stored b : token_stored (value_float (extract_float 53 1024 b)) = true.
Proof.
  cbn. destruct (extract_float 53 1024 b) as [f|] eqn:E; [|done]. by eapply extract_float_valid.
Qed.
Lemma number_token_stored t b : token_stored (number_token t b) = true.
Proof.
  destruct t; unfold number_token; [| |apply strtof_stored].
  - destruct (extract_unsigned 64 b) as [n|] eqn:E; [|apply strtof_stored].
    apply extract_unsigned_range in E. cbn. lia.
  - destruct (extract_signed 64 b) as [z|] eqn:E; [|apply strtof_stored].
    apply extract_signed_range in E. cbn. lia.
Qed.
Lemma scan_literal_stored text t s :
  token_stored t = true -> token_stored (scan_literal text t s).1 = true.
Proof.
  intros Ht. revert s. induction text as [|b text IH]; intros s; cbn; [done|].
  destruct s as [|a s]; [done|]. by case_match.
Qed.
Lemma scan_string_stored fuel s t s' :
  scan_string fuel "" s = Ok (t, s') -> token_stored t = true.
Proof. intros Hs%scan_string_utf8; [|done]. by destruct t. Qed.
Lemma scan_stored s t s' : scan s = Ok (t, s') -> token_stored t = true.
Proof.
  unfold scan. destruct (skip_blanks s) as [|a s1]; [by intros [= <- _]|].
  repeat (case_match; [by intros [= <- _]|]).
  repeat (case_match; [match goal with |- Ok (scan_literal ?x ?y ?z) = _ -> _ =>
    pose proof (scan_literal_stored x y z eq_refl) as Hs; destruct (scan_literal x y z);
    by intros [= <- _] end|]).
  case_match; [apply scan_string_stored|]. case_match; [|case_match; by intros [= <- _]].
  unfold scan_number. destruct (scan_number_from _ _ _ _) as [[[n b] s2]|]; [|by intros [= <- _]].
  intros [= <- _]. apply number_token_stored.
Qed.

Lemma handle_value_stored v d :
  stored v = true -> dom_stored d = true -> dom_stored (handle_value v d) = true.
Proof.
  intros Hv. unfold dom_stored, handle_value. destruct d as [r [|[l|m k] st]]; cbn; intros Hd.
  - by rewrite Hv.
  - by rewrite forallb_app, <- !andb_assoc in *; cbn; rewrite Hv.
  - apply andb_true_iff in Hd as [-> [[[Hs Hm]%andb_true_iff Hk]%andb_true_iff ->]%andb_true_iff].
    rewrite sorted_keys_insert, Hk by done. cbn. rewrite !andb_true_r.
    apply forallb_forall. intros kv Hin. apply list_elem_of_In in Hin. revert kv Hin.
    apply Forall_forall, obj_insert_Forall; [cbn; by rewrite Hk|by apply forallb_Forall].
Qed.

Lemma start_stored f d :
  frame_stored f = true -> dom_stored d = true ->
  dom_stored {| root := root d; ref_stack := f :: ref_stack d |} = true.
Proof. unfold dom_stored. cbn. intros ->. by rewrite andb_true_l. Qed.
Lemma key_stored k d : utf8 k = true -> dom_stored d = true -> dom_stored (key k d) = true.
Proof.
  intros Hk. unfold dom_stored, key. destruct d as [r [|[l|m k'] st]]; [done..|]. cbn.
  rewrite Hk, <- !andb_assoc. intros [-> [-> [-> [_ ->]%andb_true_iff]%andb_true_iff]%andb_true_iff]%andb_true_iff. done.
Qed.
Lemma end_container_stored d : dom_stored d = true -> dom_stored (end_container d) = true.
Proof.
  intros Hd. unfold end_container. destruct d as [r [|f st]]; [done|]. unfold dom_stored in Hd. cbn in Hd.
  apply andb_true_iff in Hd as [Hr [Hf Hst]%andb_true_iff]. cbn [ref_stack root].
  destruct f as [l|m k]; apply handle_value_stored; try (unfold dom_stored; cbn; by rewrite Hr, Hst).
  - exact Hf.
  - by apply andb_true_iff in Hf as [Hf _].
Qed.

Definition progress_stored (r : result progress) : Prop :=
  match r with
  | Ok (Continue _ p) | Ok (Finished p) => parser_stored p = true
  | _ => True
  end.
Definition after_token (p q : parser) : Prop := states q = states p /\ sax q = sax p /\
  token_stored (last_token q) = true.

Lemma get_token_stored p : exists q, get_token p = Ok q /\ after_token p q.
Proof.
  destruct (scan_ends (input p)) as (t & s & E & _). rewrite (run_get_token p t s E).
  eexists. split; [done|]. split_and!; try done. cbn. by eapply scan_stored.
Qed.

Ltac stored_token p :=
  let q := fresh "q" in let Hs := fresh "Hs" in let Hx := fresh "Hx" in let Ht := fresh "Ht" in
  destruct (get_token_stored p) as (q & -> & Hs & Hx & Ht); cbn [result_bind];
  cbn [states sax on_sax set_states] in Hs, Hx.

Lemma parse_key_stored st p :
  token_stored (last_token p) = true -> dom_stored (sax p) = true -> progress_stored (parse_key st p).
Proof.
  intros Hl Hd. unfold parse_key. destruct (last_token p); try done. stored_token (on_sax (key s) p).
  destruct (last_token q); try done. stored_token (set_states st q).
  cbn. unfold parser_stored. rewrite Ht0, Hx0, Hx. by rewrite key_stored.
Qed.
Lemma evaluate_state_stored p :
  token_stored (last_token p) = true -> dom_stored (sax p) = true -> progress_stored (evaluate_state p).
Proof.
  intros Hl Hd. unfold evaluate_state. destruct (states p) as [|[] st].
  - cbn. unfold parser_stored. by rewrite Hl, Hd.
  - stored_token p. destruct (last_token q) eqn:E; try done.
    + cbn. unfold parser_stored. cbn. rewrite E, Hx. by rewrite end_container_stored.
    + stored_token q. cbn. unfold parser_stored. by rewrite Ht0, Hx0, Hx.
  - stored_token p. destruct (last_token q) eqn:E; try done.
    + cbn. unfold parser_stored. cbn. rewrite E, Hx. by rewrite end_container_stored.
    + stored_token q. apply parse_key_stored; [done|]. by rewrite Hx0, Hx.
Qed.
Lemma parse_scalar_stored v p :
  token_stored (last_token p) = true -> stored v = true -> dom_stored (sax p) = true ->
  progress_stored (parse_scalar v p).
Proof. intros Ht Hv Hd. apply evaluate_state_stored; [done|]. by apply handle_value_stored. Qed.
Lemma parse_token_stored p : parser_stored p = true -> progress_stored (parse_token p).
Proof.
  unfold parser_stored. intros [Ht Hd]%andb_true_iff. pose proof Ht as Ht'. unfold parse_token.
  destruct (last_token p) as [| | |s|n|z|[f|]| | | | | | | |] eqn:E; try done;
    try (apply parse_scalar_stored; rewrite ?E; done).
  - stored_token (on_sax start_array p).
    assert (dom_stored (sax q) = true) by (rewrite Hx; by apply start_stored).
    destruct (last_token q) eqn:Eq; try (cbn; unfold parser_stored; cbn; by rewrite Eq, Ht0).
    apply evaluate_state_stored; cbn; [by rewrite Eq|by apply end_container_stored].
  - stored_token (on_sax start_object p).
    assert (dom_stored (sax q) = true) by (rewrite Hx; by apply start_stored).
    destruct (last_token q) eqn:Eq; try (apply parse_key_stored; by rewrite ?Eq).
    apply evaluate_state_stored; cbn; [by rewrite Eq|by apply end_container_stored].
Qed.
Lemma sax_parse_stored fuel skip p q :
  parser_stored p = true -> sax_parse_internal fuel skip p = Ok q -> parser_stored q = true.
Proof.
  revert skip p. induction fuel as [|fuel IH]; intros skip p Hp; cbn [sax_parse_internal]; [done|].
  assert (progress_stored (if skip then evaluate_state p else parse_token p)) as Hs.
  { destruct skip; [|by apply parse_token_stored].
    unfold parser_stored in Hp. apply andb_true_iff in Hp as []. by apply evaluate_state_stored. }
  destruct (if skip then _ else _) as [[skip' p'|p']| |]; cbn [result_bind]; try done.
  - by apply IH.
  - by intros [= <-].
Qed.

(** ** What is read can be written *)

Fixpoint dump_elements (l : list json) : result string :=
  match l with
  | [] => Ok ""
  | v :: l =>
      let? text := dump v in
      let? rest := dump_elements l in
      Ok (text +:+ (if bool_decide (l = []) then "" else ",") +:+ rest)
  end.
Lemma dump_array l : dump (JArray l) = let? e := dump_elements l in Ok ("[" +:+ e +:+ "]").
Proof. reflexivity. Qed.

Lemma dump_elements_one v : dump_elements [v] = dump v.
Proof. cbn. destruct (dump v) as [t| |]; try done. cbn. by rewrite str_app_nil_r. Qed.
Lemma dump_elements_more v w l :
  dump_elements (v :: w :: l) =
  let? text := dump v in let? rest := dump_elements (w :: l) in Ok (text +:+ "," +:+ rest).
Proof. reflexivity. Qed.

Fixpoint dump_entries (m : list (string * json)) : result string :=
  match m with
  | [] => Ok ""
  | (k, v) :: m =>
      let? key := quoted k in
      let? text := dump v in
      let? rest := dump_entries m in
      Ok (key +:+ ":" +:+ text +:+ (if bool_decide (m = []) then "" else ",") +:+ rest)
  end.
(** The entries after the first one. *)
Definition more_entries (m : list (string * json)) : result string :=
  match m with [] => Ok "" | _ => let? e := dump_entries m in Ok ("," +:+ e) end.
Lemma dump_entries_cons k v m :
  dump_entries ((k, v) :: m) =
  let? key := quoted k in let? text := dump v in let? rest := more_entries m in
  Ok (key +:+ ":" +:+ text +:+ rest).
Proof.
  cbn [dump_entries]. destruct (quoted k) as [t| |], (dump v) as [t'| |]; try done.
  destruct m as [|kv m]; [done|]. cbn [more_entries result_bind].
  by destruct (dump_entries (kv :: m)).
Qed.
Lemma dump_object m : dump (JObject m) = let? e := dump_entries m in Ok ("{" +:+ e +:+ "}").
Proof. reflexivity. Qed.

Lemma dump_elements_total l :
  Forall (fun v => exists text, dump v = Ok text) l -> exists text, dump_elements l = Ok text.
Proof.
  induction 1 as [|v l [t Ht] _ [e He]]; [by eexists|]. cbn [dump_elements]. rewrite Ht, He. by eexists.
Qed.
Lemma dump_entries_total m :
  Forall (fun kv => utf8 kv.1 = true /\ exists text, dump kv.2 = Ok text) m ->
  exists text, dump_entries m = Ok text.
Proof.
  induction 1 as [|[k v] m [Hk [t Ht]] _ [e He]]; [by eexists|]. cbn [dump_entries].
  destruct (quoted_total k Hk) as [q ->]. cbn in Ht. rewrite Ht, He. by eexists.
Qed.

Lemma dump_stored j : stored j = true -> exists text, dump j = Ok text.
Proof.
  induction j as [|b|z|n|f|s|l IH|m IH] using json_rect'; intros Hs.
  - by eexists.
  - by eexists.
  - cbn in *. eexists. apply dump_integer_to_string. lia.
  - cbn in *. eexists. apply dump_integer_to_string. lia.
  - by apply dump_float_total.
  - by apply quoted_total.
  - rewrite dump_array. cbn in Hs. apply forallb_Forall in Hs.
    destruct (dump_elements_total l) as [e ->]; [|by eexists].
    rewrite Forall_forall in *. auto.
  - rewrite dump_object. cbn in Hs. apply andb_true_iff in Hs as [_ Hs%forallb_Forall].
    destruct (dump_entries_total m) as [e ->]; [|by eexists].
    rewrite Forall_forall in *. intros kv Hin. specialize (Hs _ Hin).
    apply andb_true_iff in Hs as [? ?]. auto.
Qed.

(** C11. Reading JSON text ends on every text: [json::parse] returns a value whose numbers are in
    the ranges of their types, whose objects have their keys in order and whose strings are
    UTF-8, or it throws [parse_error.101], or [out_of_range.406] for a number that is too
    large.  A value that is read can be written: [dump] throws nothing. *)
Theorem json_parse_correct (text : string) :
  match json_parse text with
  | Ok v => stored v = true /\ exists text', dump v = Ok text'
  | Throw e => e = JsonParseError 101 \/ e = JsonOutOfRange 406
  | Undef => False
  end.
Proof.
  pose proof (json_parse_ends text) as He. destruct (json_parse text) as [v|e|] eqn:E; try done.
  unfold json_parse in E. destruct (skip_bom text) as [s|]; [|done].
  set (p0 := {| last_token := parse_error; input := s; states := [];
                sax := {| root := JNull; ref_stack := [] |} |}) in E.
  destruct (get_token_stored p0) as (p & Hg & _ & Hx & Ht). rewrite Hg in E. cbn [result_bind] in E.
  destruct (sax_parse_internal _ _ p) as [q| |] eqn:Eq; try done. cbn [result_bind] in E.
  apply sax_parse_stored in Eq; [|unfold parser_stored; by rewrite Ht, Hx].
  destruct (get_token q) as [q'| |]; try done. cbn [result_bind] in E.
  destruct (last_token q'); try done. injection E as <-. unfold parser_stored in Eq.
  apply andb_true_iff in Eq as [_ Eq]. apply andb_true_iff in Eq as [Eq _].
  split; [done|by apply dump_stored].
Qed.
