(* ===== verification/JsonRoundtrip.v ===== *)
(** * Round trip of JSON text

    The text the serializer writes for a value is read back by the parser as that value. *)

From Stdlib Require Import Ascii Floats.SpecFloat.
From stdpp Require Import pretty.
From S2P Require Import Prelude Json Regex Strings Dtoa JsonDump JsonDumpSpec JsonParser.
From S2P Require Import JsonUtf8 JsonParserSpec DtoaSpec DtoaCorrect FloatText.

(** ** Strings are read back *)

Lemma dumped_inner s state codep t :
  inside state = true -> codep_ok state codep = true -> dump_escaped_from state codep s = Ok t ->
  exists s1 s2 t2 codep', s = s1 +:+ s2 /\ t = s1 +:+ t2 /\
    (String.length s2 < String.length s)%nat /\ dump_escaped_from UTF8_ACCEPT codep' s2 = Ok t2 /\
    forall b x, bytes_in_ranges (pending state) b (t +:+ x) = Some (b +:+ s1, t2 +:+ x).
Proof.
  revert state codep t. induction s as [|a s IH]; intros state codep t Hs Hc; cbn [dump_escaped_from].
  { unfold inside in Hs. unfold UTF8_ACCEPT. by replace (state =? 0) with false by lia. }
  fold (byte_of a). rewrite decode_inner by done.
  pose proof (inner_byte state a Hs) as Hb. unfold inner_byte_ok in Hb.
  destruct (pending state) as [|[lo hi] rest] eqn:Ep.
  { by inside_cases Hs. }
  destruct ((lo <=? byte_of a) && (byte_of a <=? hi)) eqn:Ein.
  2: { apply Z.eqb_eq in Hb. by rewrite Hb. }
  apply andb_true_iff in Hb as [[Hp%bool_decide_eq_true Hn]%andb_true_iff Hl%Z.leb_le].
  pose proof (codep_ok_next _ _ _ _ _ _ Hc Ep Hp Hl) as Hc'.
  case_bool_decide as Hrest.
  - apply Z.eqb_eq in Hn. rewrite Hn. cbn [Z.eqb UTF8_ACCEPT].
    destruct (dump_escaped_from 0 _ s) as [t2|e|] eqn:E; try done. cbn [result_bind]. intros [= <-].
    rewrite escape_inner.
    2: { unfold codep_ok in Hc. rewrite Ep, Hrest in Hc. cbn [length] in Hc.
         assert (state = 2) as -> by (rewrite Hrest in Ep; inside_cases Hs; done).
         assert (0 <= Z.land (byte_of a) 0x3f) by (apply Z.land_nonneg; lia). cbn in Hc. lia. }
    exists (String a ""), s, t2, (64 * codep + Z.land (byte_of a) 0x3f).
    split_and!; try done; [cbn; lia|].
    intros b x. cbn [String.append bytes_in_ranges]. unfold char_in.
    by rewrite Ein, Hrest, add_byte.
  - assert ((utf8_next state (byte_of a) =? UTF8_ACCEPT) = false) as ->
      by (unfold inside, UTF8_ACCEPT in *; lia).
    assert ((utf8_next state (byte_of a) =? UTF8_REJECT) = false) as ->
      by (unfold inside, UTF8_REJECT in *; lia).
    destruct (dump_escaped_from _ _ s) as [t'|e|] eqn:E; try done. cbn [result_bind]. intros [= <-].
    destruct (IH _ _ _ Hn Hc' E) as (s1 & s2 & t2 & codep' & -> & -> & Hlen & Hd & Hr).
    exists (String a s1), s2, t2, codep'. split_and!; try done; [cbn; cbn in Hlen; lia|].
    intros b x. cbn [String.append bytes_in_ranges]. unfold char_in. rewrite Ein, <- Hp, Hr, add_byte.
    by rewrite str_app_assoc.
Qed.

(** A byte of one character, escaped or not. *)
Lemma scan_ascii a fuel b x :
  byte_of a < 0x80 ->
  scan_string (S fuel) b (escape (byte_of a) a +:+ x) = scan_string fuel (b +:+ String a "") x.
Proof.
  intros Ha. destruct a as [[] [] [] [] [] [] [] []]; try (vm_compute in Ha; discriminate Ha);
    reflexivity.
Qed.

Lemma scan_dumped n s codep t fuel b x :
  (String.length s < n)%nat -> dump_escaped_from UTF8_ACCEPT codep s = Ok t ->
  (String.length (t +:+ String quote x) < fuel)%nat ->
  scan_string fuel b (t +:+ String quote x) = Ok (value_string (b +:+ s), x).
Proof.
  revert s codep t fuel b. induction n as [|n IH]; intros s codep t fuel b Hn; [lia|].
  destruct s as [|a s]; cbn [dump_escaped_from].
  { intros [= <-] Hf. destruct fuel as [|fuel]; [lia|]. cbn. by rewrite str_app_nil_r. }
  fold (byte_of a). rewrite decode_first. pose proof (first_byte a) as Hb. unfold first_byte_ok in Hb.
  rewrite to_char_byte in Hb. rewrite (surjective_pairing (decode 0 0 _)). fold (utf8_next 0 (byte_of a)).
  destruct (Z.ltb_spec (byte_of a) 0x80) as [Hlt|Hge].
  - apply andb_true_iff in Hb as [Hn0%Z.eqb_eq Hcp%Z.eqb_eq]. rewrite Hn0, Hcp. cbn [Z.eqb UTF8_ACCEPT].
    destruct (dump_escaped_from 0 _ s) as [t'|e|] eqn:E; try done. cbn [result_bind]. intros [= <-] Hf.
    destruct fuel as [|fuel]; [lia|]. rewrite str_app_assoc. rewrite scan_ascii by done.
    assert (escape (byte_of a) a <> "") as Hne by (unfold escape; repeat case_match; done).
    rewrite (IH s (byte_of a) t'); [by rewrite str_app_assoc|cbn in Hn; lia|exact E|].
    rewrite str_app_assoc in Hf. destruct (escape (byte_of a) a); [done|]. cbn [String.append String.length] in Hf.
    rewrite str_length_app in Hf. lia.
  - destruct (following_bytes a) as [ranges|] eqn:Ef.
    2: { apply Z.eqb_eq in Hb. by rewrite Hb. }
    apply andb_true_iff in Hb as [[Hi Hp%bool_decide_eq_true]%andb_true_iff Hc].
    assert ((utf8_next 0 (byte_of a) =? UTF8_ACCEPT) = false) as ->
      by (unfold inside, UTF8_ACCEPT in *; lia).
    assert ((utf8_next 0 (byte_of a) =? UTF8_REJECT) = false) as ->
      by (unfold inside, UTF8_REJECT in *; lia).
    destruct (dump_escaped_from (utf8_next _ _) _ s) as [t'|e|] eqn:E; try done. cbn [result_bind].
    intros [= <-] Hf. destruct (dumped_inner _ _ _ _ Hi Hc E) as (s1 & s2 & t2 & cp & -> & -> & Hl & Hd & Hr).
    destruct fuel as [|fuel]; [lia|]. cbn [String.append scan_string].
    assert (Ascii.eqb a quote = false) as -> by (apply Ascii.eqb_neq; intros ->; vm_compute in Hge; congruence).
    assert (Ascii.eqb a backslash = false) as -> by (apply Ascii.eqb_neq; intros ->; vm_compute in Hge; congruence).
    rewrite Ef. unfold next_byte_in_range. rewrite <- Hp, Hr, add_byte.
    rewrite (IH s2 cp t2); [by rewrite !str_app_assoc|cbn in Hn; lia|exact Hd|].
    cbn [String.append String.length] in Hf. rewrite str_app_assoc, str_length_app in Hf. lia.
Qed.

Lemma scan_quoted s text x :
  quoted s = Ok text -> scan (text +:+ x) = Ok (value_string s, x).
Proof.
  unfold quoted, dump_escaped. destruct (dump_escaped_from _ _ s) as [t|e|] eqn:E; try done.
  cbn [result_bind]. intros [= <-]. cbn [String.append]. unfold scan.
  change (skip_blanks (String quote ((t +:+ String quote "") +:+ x))) with
    (String quote ((t +:+ String quote "") +:+ x)). cbn -[scan_string]. rewrite str_app_assoc. cbn [String.append].
  by rewrite (scan_dumped (S (String.length s)) s 0 t) by (exact E || lia).
Qed.

(** ** Numbers are read back *)

(** Whether a number ends before [s]. *)
Definition ends_number (s : string) : bool :=
  match s with
  | EmptyString => true
  | String a _ => negb (is_digit a || Ascii.eqb a "."%char || is_e a)
  end.

Lemma scan_goto st st' t b a s :
  number_next st a = Goto st' ->
  scan_number_from st t b (String a s) = scan_number_from st' (type_in st' t) (b +:+ String a "") s.
Proof. intros H. cbn [scan_number_from]. by rewrite H. Qed.

(** The states that repeat on digits. *)
Definition digit_state (st : number_state) : bool :=
  match st with scan_number_any1 | scan_number_decimal2 | scan_number_any2 => true | _ => false end.

Lemma scan_more st t b d x :
  digit_state st = true -> all_chars is_digit d = true ->
  scan_number_from st t b (d +:+ x) = scan_number_from st t (b +:+ d) x.
Proof.
  intros Hst. revert b. induction d as [|a d IH]; intros b; cbn [all_chars String.append].
  - intros _. by rewrite str_app_nil_r.
  - intros [Ha Hd]%andb_true_iff. destruct st; try done; cbn [scan_number_from number_next]; rewrite Ha;
      cbn [type_in]; rewrite IH by done; by rewrite str_app_assoc.
Qed.

(** The states in which a number may end. *)
Lemma scan_end st t b x :
  digit_state st = true -> ends_number x = true -> scan_number_from st t b x = Some (t, b, x).
Proof.
  intros Hst Hx. destruct x as [|a x]; [by destruct st|]. cbn [ends_number] in Hx.
  apply negb_true_iff in Hx. apply orb_false_iff in Hx as [[Hd He]%orb_false_iff Hp].
  destruct st; try done; cbn [scan_number_from number_next]; by rewrite Hd, ?He, ?Hp.
Qed.

Lemma scan_digits d t b x :
  all_chars is_digit d = true -> ends_number x = true ->
  scan_number_from scan_number_any1 t b (d +:+ x) = Some (t, b +:+ d, x).
Proof. intros Hd Hx. by rewrite scan_more, scan_end by done. Qed.

Lemma scan_exponent st t b e x :
  digit_state st || match st with scan_number_zero => true | _ => false end = true ->
  st <> scan_number_any2 -> Z.abs e < 1000 -> ends_number x = true ->
  scan_number_from st t b (exponent_text (Some e) +:+ x) = Some (number_float, b +:+ exponent_text (Some e), x).
Proof.
  intros Hst Hne (s & E & Hs & _)%append_exponent_text Hx. cbn [exponent_text]. rewrite E. clear E.
  unfold is_digits in Hs. apply andb_true_iff in Hs as [Hs0 Hs]. destruct s as [|a s]; [done|].
  cbn [all_chars] in Hs. apply andb_true_iff in Hs as [Ha Hs]. cbn [String.append].
  rewrite (scan_goto st scan_number_exponent) by (by destruct st).
  rewrite (scan_goto _ scan_number_sign) by (by destruct (e <? 0)).
  rewrite (scan_goto _ scan_number_any2) by (cbn; by rewrite Ha).
  rewrite scan_more, scan_end by done. by rewrite !str_app_assoc.
Qed.

(** The fraction and the exponent after the first digits. *)
Lemma scan_fraction st t b ip fp e x :
  (st = scan_number_zero \/ st = scan_number_any1) -> decimal_parts ip fp e -> ends_number x = true ->
  scan_number_from st t b (fraction_text fp +:+ exponent_text e +:+ x) =
    Some (number_float, b +:+ fraction_text fp +:+ exponent_text e, x).
Proof.
  intros Hst (_ & Hf & He) Hx. unfold fraction_text. destruct (String.eqb_spec fp "") as [->|Hne].
  - destruct e as [e|]; [|done]. cbn [String.append]. apply scan_exponent; [|by destruct Hst; subst|done..].
    by destruct Hst; subst.
  - destruct fp as [|a fp]; [done|]. cbn [all_chars] in Hf. apply andb_true_iff in Hf as [Ha Hf].
    cbn [String.append].
    rewrite (scan_goto st scan_number_decimal1) by (by destruct Hst; subst).
    rewrite (scan_goto _ scan_number_decimal2) by (cbn; by rewrite Ha).
    rewrite str_app_assoc, scan_more by done.
    destruct e as [e|]; [rewrite scan_exponent by done|cbn [exponent_text String.append]; rewrite scan_end, ?str_app_nil_r by done];
      by rewrite !str_app_assoc.
Qed.

Lemma pretty_head x s : (0 < x)%N ->
  exists a s', pretty_N_go x s = String a s' /\ is_digit a = true /\ Ascii.eqb a "0"%char = false.
Proof.
  revert s. induction (N.lt_wf_0 x) as [x _ IH]; intros s Hx.
  destruct (decide (x < 10)%N) as [Hlt|Hge].
  - rewrite pretty_below_10 by lia. eexists _, s. split; [done|].
    assert (x = 1 \/ x = 2 \/ x = 3 \/ x = 4 \/ x = 5 \/ x = 6 \/ x = 7 \/ x = 8 \/ x = 9)%N as H by lia.
    by destruct H as [->|[->|[->|[->|[->|[->|[->|[->| ->]]]]]]]].
  - rewrite pretty_digit by lia. apply IH; [apply N.div_lt; lia|].
    apply N.div_str_pos. lia.
Qed.

Lemma to_string_head z : 0 < z ->
  exists a s, to_string z = String a s /\ is_digit a = true /\ Ascii.eqb a "0"%char = false.
Proof.
  intros Hz. destruct z as [|p|p]; [lia| |lia].
  unfold to_string, pretty, pretty_Z, pretty, pretty_positive, pretty, pretty_N.
  rewrite decide_False by done. apply pretty_head. lia.
Qed.

(** The first character of a number starts no other token. *)
Lemma scan_number_start a s :
  is_digit a || Ascii.eqb a "-"%char = true -> scan (String a s) = Ok (scan_number a s).
Proof. destruct a as [[] [] [] [] [] [] [] []]; try done; reflexivity. Qed.

Lemma scan_natural z x :
  0 <= z < 2 ^ 64 -> ends_number x = true -> scan (to_string z +:+ x) = Ok (value_unsigned z, x).
Proof.
  intros Hz Hx. destruct (decide (z = 0)) as [->|Hne].
  { change (to_string 0 +:+ x) with (String "0" x). rewrite scan_number_start by done.
    unfold scan_number. cbn [Ascii.eqb Bool.eqb type_in].
    destruct x as [|a x]; [done|]. cbn [scan_number_from number_next]. cbn [ends_number] in Hx.
    apply negb_true_iff in Hx. apply orb_false_iff in Hx as [[_ He]%orb_false_iff Hp].
    by rewrite He, Hp. }
  pose proof (extract_unsigned_to_string z Hz) as Hv.
  destruct (to_string_head z) as (a & s & E & Ha & H0); [lia|].
  destruct (to_string_digits z) as [Hd _]; [lia|]. rewrite E in *.
  cbn [all_chars] in Hd. apply andb_true_iff in Hd as [_ Hd].
  cbn [String.append]. rewrite scan_number_start by (by rewrite Ha). unfold scan_number.
  destruct (digit_plain a Ha) as (_ & -> & _). rewrite H0. cbn [type_in].
  rewrite scan_digits by done. cbn [number_token String.append]. by rewrite Hv.
Qed.

Lemma scan_negative z x :
  - 2 ^ 63 <= z < 0 -> ends_number x = true -> scan (to_string z +:+ x) = Ok (value_integer z, x).
Proof.
  intros Hz Hx. pose proof (extract_signed_any z ltac:(lia)) as Hv.
  assert (to_string z = String "-" (to_string (- z))) as E.
  { rewrite <- (Z.opp_involutive z) at 1. rewrite (to_string_opp (- z)) by lia. reflexivity. }
  rewrite E in *. destruct (to_string_head (- z)) as (a & s & E' & Ha & H0); [lia|].
  destruct (to_string_digits (- z)) as [Hd _]; [lia|]. rewrite E' in *.
  cbn [all_chars] in Hd. apply andb_true_iff in Hd as [_ Hd].
  cbn [String.append]. rewrite scan_number_start by done. unfold scan_number.
  cbn [Ascii.eqb Bool.eqb type_in scan_number_from number_next]. rewrite H0, Ha. cbn [type_in].
  rewrite scan_digits by done. cbn [number_token String.append]. by rewrite Hv.
Qed.

(** A number with a fraction or an exponent, after its first digit. *)
Definition first_state (a : ascii) : number_state :=
  if Ascii.eqb a "0"%char then scan_number_zero else scan_number_any1.
Lemma scan_first ip fp e a s t b x :
  decimal_parts ip fp e -> ends_number x = true -> decimal_text ip fp e = String a s ->
  scan_number_from (first_state a) t b (s +:+ x) = Some (number_float, b +:+ s, x).
Proof.
  intros Hp Hx E. pose proof Hp as ([->|Hip] & _); unfold decimal_text in E.
  - injection E as <- <-. rewrite str_app_assoc. apply (scan_fraction _ _ _ "0"); [by left|done..].
  - destruct ip as [|c ip]; [done|]. injection E as <- <-. cbn in Hip.
    apply andb_true_iff in Hip as [[H0%negb_true_iff _]%andb_true_iff Hip]. unfold first_state. rewrite H0.
    rewrite !str_app_assoc, scan_more by done. rewrite (scan_fraction _ _ _ (String c ip)) by (done || by right).
    by rewrite !str_app_assoc.
Qed.

Lemma scan_decimal neg ip fp e x :
  decimal_parts ip fp e -> ends_number x = true ->
  let text := sign_text neg +:+ decimal_text ip fp e in
  scan (text +:+ x) = Ok (value_float (extract_float 53 1024 text), x).
Proof.
  intros Hp Hx. cbv zeta. destruct (decimal_text_head _ _ _ Hp) as (a & s & E & Ha & _).
  destruct neg; cbn [sign_text String.append]; rewrite E.
  - rewrite scan_number_start by done. unfold scan_number. cbn [Ascii.eqb Bool.eqb type_in String.append].
    rewrite (scan_goto _ (first_state a)) by (unfold first_state; cbn; rewrite Ha; by destruct (Ascii.eqb a _)).
    by rewrite (scan_first ip fp e) by done.
  - cbn [String.append]. rewrite scan_number_start by (by rewrite Ha). unfold scan_number.
    destruct (digit_plain a Ha) as (_ & -> & _). fold (first_state a).
    by rewrite (scan_first ip fp e) by done.
Qed.

(** The numbers with a text of their own; a text of zero keeps the sign. *)
Definition finite_double (f : spec_float) : bool :=
  match f with
  | S754_zero _ => true
  | S754_finite _ m e => bounded 53 1024 m e
  | S754_infinity _ | S754_nan => false
  end.

Lemma dump_float_text f text :
  finite_double f = true -> dump_float f = Ok text ->
  exists neg ip fp e, text = sign_text neg +:+ decimal_text ip fp e /\ decimal_parts ip fp e /\
    extract_float 53 1024 text = Some f.
Proof.
  destruct f as [neg|neg| |neg m e]; cbn [finite_double dump_float]; try done.
  - intros _ [= <-]. exists neg, "0", "0", None. split; [done|]. split; [|by destruct neg].
    by split_and!; [left| |].
  - intros Hb Hd. destruct (to_chars_read neg m e Hb) as (ip & fp & x & Ht & Hp & Hf).
    rewrite Ht in Hd. injection Hd as <-. by exists neg, ip, fp, x.
Qed.


(** ** Values are read back *)

(** The values whose text is read back: keys in order as in a [std::map], numbers in their
    ranges, and the floating point numbers finite. *)
Fixpoint readable (j : json) : bool :=
  match j with
  | JInt z => (- 2 ^ 63 <=? z) && (z <? 2 ^ 63)
  | JUInt n => (0 <=? n) && (n <? 2 ^ 64)
  | JFloat f => finite_double f
  | JArray l => forallb readable l
  | JObject m => sorted_keys m && forallb (fun kv => readable kv.2) m
  | _ => true
  end.

(** The parser reads what is not negative as unsigned. *)
Fixpoint renumber (j : json) : json :=
  match j with
  | JInt z => if z <? 0 then JInt z else JUInt z
  | JArray l => JArray (map renumber l)
  | JObject m => JObject (map (fun kv => (kv.1, renumber kv.2)) m)
  | _ => j
  end.

(** Some rounds of the parser. *)
Definition runs (skip : bool) (p : parser) (skip' : bool) (q : parser) : Prop :=
  exists n, forall k, sax_parse_internal (n + S k) skip p = sax_parse_internal (S k) skip' q.

Lemma runs_trans s1 p1 s2 p2 s3 p3 : runs s1 p1 s2 p2 -> runs s2 p2 s3 p3 -> runs s1 p1 s3 p3.
Proof.
  intros [n Hn] [m Hm]. exists (n + m)%nat. intros k. rewrite <- Nat.add_assoc.
  replace (m + S k)%nat with (S (m + k)) by lia. rewrite Hn.
  replace (S (m + k)) with (m + S k)%nat by lia. apply Hm.
Qed.

Lemma runs_step (skip : bool) p skip' q :
  (if skip then evaluate_state p else parse_token p) = Ok (Continue skip' q) -> runs skip p skip' q.
Proof. intros H. exists 1%nat. intros k. cbn [Nat.add sax_parse_internal]. by rewrite H. Qed.

Lemma runs_same (skip : bool) p (skip' : bool) q :
  (if skip then evaluate_state p else parse_token p) =
  (if skip' then evaluate_state q else parse_token q) -> runs skip p skip' q.
Proof. intros H. exists 0%nat. intros k. cbn [Nat.add sax_parse_internal]. by rewrite H. Qed.

(** The parser has the first token of [text], and the rest of it to read. *)
Definition at_text (text : string) (p : parser) : Prop :=
  scan text = Ok (last_token p, input p).

Definition with_value (v : json) (rest : string) (p q : parser) : Prop :=
  input q = rest /\ states q = states p /\ sax q = handle_value v (sax p).

(** From the first token of the text of [v] to the evaluation after it. *)
Definition reads_value (v : json) (text : string) : Prop :=
  forall rest p, ends_number rest = true -> at_text (text +:+ rest) p ->
    exists q, runs false p true q /\ with_value (renumber v) rest p q.

Lemma reads_scalar v text t :
  (forall rest, ends_number rest = true -> scan (text +:+ rest) = Ok (t, rest)) ->
  (forall p, last_token p = t -> parse_token p = parse_scalar (renumber v) p) ->
  reads_value v text.
Proof.
  intros Ht Hv rest p Hr Hp. unfold at_text in Hp. rewrite (Ht _ Hr) in Hp. injection Hp as Hl Hi.
  exists (on_sax (handle_value (renumber v)) p). split.
  - apply runs_same. by rewrite (Hv p).
  - done.
Qed.

(** The tokens of one character. *)
Definition structural (a : ascii) : option token_type :=
  match a with
  | "["%char => Some begin_array
  | "]"%char => Some end_array
  | "{"%char => Some begin_object
  | "}"%char => Some end_object
  | ":"%char => Some name_separator
  | ","%char => Some value_separator
  | _ => None
  end.
Lemma scan_char a t x : structural a = Some t -> scan (String a x) = Ok (t, x).
Proof. destruct a as [[] [] [] [] [] [] [] []]; try done; by intros [= <-]. Qed.

(** The first character of a value. *)
Definition starts_value (a : ascii) : bool :=
  is_digit a || Ascii.eqb a "-"%char || Ascii.eqb a quote || one_of "tfn[{" a.

Lemma to_string_starts z : exists a s, to_string z = String a s /\ starts_value a = true.
Proof.
  assert (forall y, 0 < y -> exists a s, to_string y = String a s /\ starts_value a = true) as Hpos.
  { intros y Hy. destruct (to_string_head y Hy) as (a & s & -> & Ha & _). exists a, s.
    split; [done|]. unfold starts_value. by rewrite Ha. }
  destruct (Z.lt_trichotomy z 0) as [Hz|[->|Hz]]; [|by eexists _, _|by apply Hpos].
  rewrite <- (Z.opp_involutive z), to_string_opp by lia. by eexists _, _.
Qed.

Lemma dump_starts j text :
  readable j = true -> dump j = Ok text -> exists a s, text = String a s /\ starts_value a = true.
Proof.
  destruct j as [|b|z|n|f|s|l|m]; intros Hr.
  - intros [= <-]. by eexists _, _.
  - intros [= <-]. by destruct b; eexists _, _.
  - cbn in Hr. cbn. rewrite dump_integer_to_string by lia. intros [= <-]. apply to_string_starts.
  - cbn in Hr. cbn. rewrite dump_integer_to_string by lia. intros [= <-]. apply to_string_starts.
  - intros Hd. destruct (dump_float_text f text Hr Hd) as (neg & ip & fp & e & -> & Hp & _).
    destruct (decimal_text_head _ _ _ Hp) as (a & s & -> & Ha & _).
    destruct neg; eexists _, _; split; try reflexivity. unfold starts_value. by rewrite Ha.
  - cbn. unfold quoted. destruct (dump_escaped s); try done. intros [= <-]. by eexists _, _.
  - rewrite dump_array. destruct (dump_elements l); try done. intros [= <-]. by eexists _, _.
  - rewrite dump_object. destruct (dump_entries m); try done. intros [= <-]. by eexists _, _.
Qed.

Lemma scan_string_token fuel b s t s' :
  scan_string fuel b s = Ok (t, s') -> t <> end_array.
Proof.
  revert b s. induction fuel as [|fuel IH]; intros b s; cbn [scan_string]; [done|].
  destruct s as [|a s]; [by intros [= <- _]|]. case_match; [by intros [= <- _]|].
  destruct (if Ascii.eqb a backslash then _ else _) as [[b' s1]|]; [apply IH|by intros [= <- _]].
Qed.

Lemma scan_value_token a s t s' :
  starts_value a = true -> scan (String a s) = Ok (t, s') -> t <> end_array.
Proof.
  unfold starts_value. destruct (is_digit a || Ascii.eqb a "-"%char) eqn:E.
  { intros _. rewrite scan_number_start by done. intros [= Ht]. unfold scan_number in Ht.
    destruct (scan_number_from _ _ _ _) as [[[[] b] s1]|]; injection Ht as <- _; try done;
      unfold number_token; by case_match. }
  cbn [orb]. intros [Hq%Ascii.eqb_eq|Hc]%orb_true_iff.
  - subst a. unfold scan. cbn -[scan_string]. apply scan_string_token.
  - destruct a as [[] [] [] [] [] [] [] []]; try discriminate Hc; unfold scan; cbn;
      intros [= Ht]; try (by injection Ht as <- _); try by subst.
    all: repeat (case_match; try (injection Ht as <- _; done)).
Qed.

(** *** Arrays *)

Definition read_back (v : json) : Prop :=
  readable v = true -> forall text, dump v = Ok text -> reads_value v text.

Lemma next_token p s : input p = s ->
  exists q, get_token p = Ok q /\ at_text s q /\ states q = states p /\ sax q = sax p.
Proof.
  intros <-. destruct (scan_ends (input p)) as (t & s' & E & _).
  rewrite (run_get_token p t s' E). by eexists.
Qed.

Lemma elements_read l v etext rest p acc st stk r :
  Forall read_back (v :: l) -> forallb readable (v :: l) = true ->
  dump_elements (v :: l) = Ok etext -> at_text (etext +:+ String "]" rest) p ->
  states p = true :: st -> sax p = {| root := r; ref_stack := OpenArray acc :: stk |} ->
  exists q, runs false p true q /\ input q = rest /\ states q = st /\
    sax q = end_container
      {| root := r; ref_stack := OpenArray (acc ++ map renumber (v :: l)) :: stk |}.
Proof.
  revert v etext p acc. induction l as [|w l IH]; intros v etext p acc Hf Hr;
    apply Forall_cons in Hf as [Hv Hf]; cbn [forallb] in Hr; apply andb_true_iff in Hr as [Hrv Hr].
  - rewrite dump_elements_one. intros E Hp Hst Hsax.
    destruct (Hv Hrv etext E (String "]" rest) p) as (q & Hq & Hi & Hs & Hx); [done..|].
    rewrite Hsax in Hx. cbn in Hx.
    exists (set_states st (on_sax end_container {| last_token := end_array; input := rest;
      states := states q; sax := sax q |})). split_and!; try done; [|by cbn; rewrite Hx].
    eapply runs_trans; [exact Hq|]. apply runs_step. unfold evaluate_state. rewrite Hs, Hst.
    rewrite (run_get_token q end_array rest); [done|]. rewrite Hi. by apply scan_char.
  - rewrite dump_elements_more. destruct (dump v) as [text|e|] eqn:E; try done. cbn [result_bind].
    destruct (dump_elements (w :: l)) as [rtext|e|] eqn:Er; try done. cbn [result_bind]. intros [= <-] Hp Hst Hsax.
    rewrite !str_app_assoc in Hp. cbn [String.append] in Hp.
    destruct (Hv Hrv text E (String "," (rtext +:+ String "]" rest)) p eq_refl Hp) as (q & Hq & Hi & Hs & Hx).
    rewrite Hsax in Hx. cbn in Hx.
    pose (q1 := {| last_token := value_separator; input := rtext +:+ String "]" rest;
      states := states q; sax := sax q |}).
    destruct (next_token q1 _ eq_refl) as (q2 & Hg & Ha & Hs2 & Hx2).
    destruct (IH w rtext q2 (acc ++ [renumber v])) as (q' & Hq' & Hi' & Hs' & Hx'); try done.
    { by rewrite Hs2; cbn; rewrite Hs. } { by rewrite Hx2; cbn. }
    exists q'. split_and!; try done.
    2: { rewrite Hx'. by rewrite <- app_assoc. }
    eapply runs_trans; [exact Hq|]. eapply runs_trans; [|exact Hq']. apply runs_step.
    unfold evaluate_state. rewrite Hs, Hst.
    rewrite (run_get_token q value_separator (rtext +:+ String "]" rest));
      [|rewrite Hi; by apply scan_char].
    cbn [result_bind last_token]. fold q1. by rewrite Hg.
Qed.

Lemma array_read l : Forall read_back l -> read_back (JArray l).
Proof.
  intros Hf Hr text Hd rest p Hrest Hp. rewrite dump_array in Hd.
  destruct (dump_elements l) as [e| |] eqn:E; try done. cbn [result_bind] in Hd. injection Hd as <-.
  unfold at_text in Hp. cbn [String.append] in Hp. rewrite str_app_assoc in Hp.
  rewrite (scan_char "["%char begin_array) in Hp by done. injection Hp as Hl Hi.
  destruct (next_token (on_sax start_array p) _ (eq_sym Hi)) as (q & Hg & Ha & Hs & Hx).
  destruct l as [|v l].
  - injection E as <-. cbn [String.append] in Ha. unfold at_text in Ha.
    rewrite (scan_char "]"%char end_array) in Ha by done. injection Ha as Hl' Hi'.
    exists (on_sax end_container q). split; [|split_and!; [done|done|by cbn; rewrite Hx]].
    apply runs_same. unfold parse_token. rewrite <- Hl, Hg. cbn [result_bind]. by rewrite <- Hl'.
  - destruct (elements_read l v e rest (set_states (true :: states q) q) [] (states p)
      (ref_stack (sax p)) (root (sax p))) as (q' & Hq' & Hi' & Hs' & Hx'); try done.
    { by cbn; rewrite Hs. }
    exists q'. split; [|done]. eapply runs_trans; [|exact Hq']. apply runs_step. unfold parse_token.
    rewrite <- Hl, Hg. cbn [result_bind].
    assert (last_token q <> end_array) as Hne.
    { cbn in Hr. apply andb_true_iff in Hr as [Hrv _]. cbn [dump_elements] in E.
      destruct (dump v) as [tv| |] eqn:Ev; try done. cbn [result_bind] in E.
      destruct (dump_starts v tv Hrv Ev) as (a & s & -> & Hv).
      destruct (dump_elements l); try done. cbn [result_bind] in E. injection E as <-.
      eapply scan_value_token; [exact Hv|exact Ha]. }
    destruct (last_token q); try done.
Qed.

(** *** Objects *)

Definition renumber_entry (kv : string * json) : string * json := (kv.1, renumber kv.2).

Lemma obj_insert_last k v m :
  Forall (fun kv => str_lt kv.1 k) m -> obj_insert k v m = m ++ [(k, v)].
Proof.
  induction 1 as [|[k1 v1] m Hk _ IH]; [done|]. cbn in *. rewrite String.compare_antisym, Hk.
  cbn. by rewrite IH.
Qed.

(** A key and the separator after it. *)
Lemma key_read st k key tail p acc k0 stk r :
  quoted k = Ok key -> at_text (key +:+ String ":" tail) p ->
  sax p = {| root := r; ref_stack := OpenObject acc k0 :: stk |} ->
  exists q, parse_key st p = Ok (Continue false q) /\ at_text tail q /\ states q = st /\
    sax q = {| root := r; ref_stack := OpenObject acc k :: stk |}.
Proof.
  intros Hk Hp Hsax. unfold at_text in Hp. rewrite (scan_quoted k) in Hp by done.
  injection Hp as Hl Hi. unfold parse_key. rewrite <- Hl.
  rewrite (run_get_token (on_sax _ p) name_separator tail)
    by (cbn [input on_sax]; rewrite <- Hi; by apply scan_char).
  cbn [result_bind last_token]. match goal with |- context [set_states st ?q] =>
    destruct (next_token (set_states st q) tail eq_refl) as (q' & -> & Ha & Hs & Hx) end.
  exists q'. split_and!; try done. rewrite Hx. cbn. by rewrite Hsax.
Qed.

(** From a value of an object to the end of the object. *)
Lemma object_entries_read m k v vt mt rest p acc st stk r :
  Forall (fun kv => read_back kv.2) ((k, v) :: m) ->
  forallb (fun kv => readable kv.2) ((k, v) :: m) = true -> sorted_keys ((k, v) :: m) = true ->
  Forall (fun kv => str_lt kv.1 k) acc -> dump v = Ok vt -> more_entries m = Ok mt ->
  at_text (vt +:+ mt +:+ String "}" rest) p -> states p = false :: st ->
  sax p = {| root := r; ref_stack := OpenObject acc k :: stk |} ->
  exists q, runs false p true q /\ input q = rest /\ states q = st /\
    sax q = end_container
      {| root := r; ref_stack := OpenObject (acc ++ map renumber_entry ((k, v) :: m)) "" :: stk |}.
Proof.
  revert k v vt mt p acc. induction m as [|[k' v'] m IH]; intros k v vt mt p acc Hf Hr Hs Hacc Hd Hm Hp Hst Hsax;
    apply Forall_cons in Hf as [Hv Hf]; cbn [forallb] in Hr; apply andb_true_iff in Hr as [Hrv Hr].
  - injection Hm as <-.
    destruct (Hv Hrv vt Hd (String "}" rest) p) as (q & Hq & Hi & Hs' & Hx); [done..|].
    rewrite Hsax in Hx. cbn in Hx. rewrite obj_insert_last in Hx by done.
    exists (set_states st (on_sax end_container {| last_token := end_object; input := rest;
      states := states q; sax := sax q |})). split_and!; try done; [|by cbn; rewrite Hx].
    eapply runs_trans; [exact Hq|]. apply runs_step. unfold evaluate_state. rewrite Hs', Hst.
    rewrite (run_get_token q end_object rest); [done|]. rewrite Hi. by apply scan_char.
  - cbn [more_entries] in Hm. rewrite dump_entries_cons in Hm.
    destruct (quoted k') as [key'| |] eqn:Ek; try done. cbn [result_bind] in Hm.
    destruct (dump v') as [vt'| |] eqn:Ev; try done. cbn [result_bind] in Hm.
    destruct (more_entries m) as [mt'| |] eqn:Em; try done. injection Hm as <-.
    set (x := key' +:+ String ":" (vt' +:+ mt' +:+ String "}" rest)).
    assert (at_text (vt +:+ String "," x) p) as Hp'.
    { revert Hp. unfold x. cbn [String.append]. rewrite !str_app_assoc. cbn [String.append].
      by rewrite !str_app_assoc. }
    destruct (Hv Hrv vt Hd (String "," x) p eq_refl Hp') as (q & Hq & Hi & Hs' & Hx).
    rewrite Hsax in Hx. cbn in Hx. rewrite obj_insert_last in Hx by done.
    destruct (next_token {| last_token := value_separator; input := x; states := states q;
      sax := sax q |} x eq_refl) as (q1 & Hg & Ha & Hs1 & Hx1).
    destruct (key_read (states q1) k' key' _ q1 (acc ++ [(k, renumber v)]) k stk r Ek Ha)
      as (q2 & Hk2 & Ha2 & Hs2 & Hx2); [by rewrite Hx1|].
    apply sorted_keys_cons in Hs as [Hs Hlt]. apply Forall_cons in Hlt as [Hlt _].
    destruct (IH k' v' vt' mt' q2 (acc ++ [(k, renumber v)])) as (q' & Hq' & Hi' & Hs'' & Hx'); try done.
    { apply Forall_app. split; [|by repeat constructor].
      eapply Forall_impl; [exact Hacc|]. intros kv Hkv. exact (str_lt_trans _ _ _ Hkv Hlt). }
    { rewrite Hs2, Hs1. cbn. by rewrite Hs'. }
    exists q'. split_and!; try done.
    2: { rewrite Hx'. by rewrite <- app_assoc. }
    eapply runs_trans; [exact Hq|]. eapply runs_trans; [|exact Hq']. apply runs_step.
    unfold evaluate_state. rewrite Hs', Hst.
    rewrite (run_get_token q value_separator x) by (rewrite Hi; by apply scan_char).
    cbn [result_bind last_token]. rewrite Hg. cbn [result_bind]. exact Hk2.
Qed.

Lemma object_read m : Forall (fun kv => read_back kv.2) m -> read_back (JObject m).
Proof.
  intros Hf Hr text Hd rest p Hrest Hp. rewrite dump_object in Hd.
  destruct (dump_entries m) as [e| |] eqn:E; try done. cbn [result_bind] in Hd. injection Hd as <-.
  unfold at_text in Hp. cbn [String.append] in Hp. rewrite str_app_assoc in Hp.
  rewrite (scan_char "{"%char begin_object) in Hp by done. injection Hp as Hl Hi.
  destruct (next_token (on_sax start_object p) _ (eq_sym Hi)) as (q & Hg & Ha & Hs & Hx).
  destruct m as [|[k v] m].
  - injection E as <-. cbn [String.append] in Ha. unfold at_text in Ha.
    rewrite (scan_char "}"%char end_object) in Ha by done. injection Ha as Hl' Hi'.
    exists (on_sax end_container q). split; [|split_and!; [done|done|by cbn; rewrite Hx]].
    apply runs_same. unfold parse_token. rewrite <- Hl, Hg. cbn [result_bind]. by rewrite <- Hl'.
  - rewrite dump_entries_cons in E.
    destruct (quoted k) as [key'| |] eqn:Ek; try done. cbn [result_bind] in E.
    destruct (dump v) as [vt| |] eqn:Ev; try done. cbn [result_bind] in E.
    destruct (more_entries m) as [mt| |] eqn:Em; try done. injection E as <-.
    assert (at_text (key' +:+ String ":" (vt +:+ mt +:+ String "}" rest)) q) as Ha'.
    { revert Ha. rewrite !str_app_assoc. cbn [String.append]. by rewrite !str_app_assoc. }
    destruct (key_read (false :: states q) k key' _ q [] "" (ref_stack (sax p)) (root (sax p)) Ek Ha')
      as (q2 & Hk2 & Ha2 & Hs2 & Hx2); [by rewrite Hx|].
    cbn [readable] in Hr. apply andb_true_iff in Hr as [Hsorted Hr].
    destruct (object_entries_read m k v vt mt rest q2 [] (states p) (ref_stack (sax p)) (root (sax p)))
      as (q' & Hq' & Hi' & Hs' & Hx'); try done.
    { by rewrite Hs2, Hs. }
    exists q'. split; [|done]. eapply runs_trans; [|exact Hq']. apply runs_step. unfold parse_token.
    rewrite <- Hl, Hg. cbn [result_bind]. unfold at_text in Ha'.
    rewrite (scan_quoted k) in Ha' by done. injection Ha' as Hl' _. rewrite <- Hl' in *. exact Hk2.
Qed.

Lemma value_read j : read_back j.
Proof.
  induction j as [|b|z|n|f|s|l Hl|m Hm] using json_rect'; try by apply array_read || apply object_read.
  all: intros Hr text Hd; cbn in Hd.
  - injection Hd as <-. apply (reads_scalar _ _ literal_null); [done|]. intros p Hp. unfold parse_token. by rewrite Hp.
  - injection Hd as <-. apply (reads_scalar _ _ (if b then literal_true else literal_false));
      destruct b; try done; intros p Hp; unfold parse_token; by rewrite Hp.
  - cbn in Hr. rewrite dump_integer_to_string in Hd by lia. injection Hd as <-.
    destruct (Z.ltb_spec z 0).
    + apply (reads_scalar _ _ (value_integer z)); [intros; apply scan_negative; [lia|done]|].
      intros p Hp. unfold parse_token. rewrite Hp. cbn. by rewrite (proj2 (Z.ltb_lt _ _)).
    + apply (reads_scalar _ _ (value_unsigned z)); [intros; apply scan_natural; [lia|done]|].
      intros p Hp. unfold parse_token. rewrite Hp. cbn. by rewrite (proj2 (Z.ltb_ge _ _)).
  - cbn in Hr. rewrite dump_integer_to_string in Hd by lia. injection Hd as <-.
    apply (reads_scalar _ _ (value_unsigned n)); [intros; apply scan_natural; [lia|done]|].
    intros p Hp. unfold parse_token. by rewrite Hp.
  - destruct (dump_float_text f text Hr Hd) as (neg & ip & fp & e & -> & Hp & Hf).
    apply (reads_scalar _ _ (value_float (Some f))); [|intros p Ht; unfold parse_token; by rewrite Ht].
    intros rest Hrest. rewrite <- Hf. by apply scan_decimal.
  - apply (reads_scalar _ _ (value_string s)); [intros; by apply scan_quoted|]. intros p Hp.
    unfold parse_token. by rewrite Hp.
Qed.

(** ** The theorem *)

Lemma json_parse_dump j text :
  readable j = true -> dump j = Ok text -> json_parse text = Ok (renumber j).
Proof.
  intros Hr Hd. unfold json_parse.
  destruct (dump_starts j text Hr Hd) as (a & s & -> & Ha).
  assert (skip_bom (String a s) = Some (String a s)) as ->.
  { unfold skip_bom. destruct (Z.eqb_spec (byte_of a) 0xEF) as [E|]; [|done].
    rewrite <- (to_char_byte a), E in Ha. by vm_compute in Ha. }
  set (p0 := {| last_token := parse_error; input := String a s; states := [];
                sax := {| root := JNull; ref_stack := [] |} |}).
  destruct (get_token_ends p0) as (p & Hg & Hs & Hx & _ & Hreads).
  assert (at_text (String a s +:+ "") p) as Hat.
  { rewrite str_app_nil_r. unfold at_text. unfold get_token in Hg. cbn [input p0] in Hg.
    destruct (scan (String a s)) as [[t s']| |]; try done. by injection Hg as <-. }
  rewrite Hg. cbn [result_bind].
  destruct (value_read j Hr _ Hd "" p eq_refl Hat) as (q & [n Hn] & Hi & Hqs & Hqx).
  assert (sax_parse_internal (n + 1) false p = Ok q) as Hq.
  { rewrite Hn. cbn [sax_parse_internal]. unfold evaluate_state. by rewrite Hqs, Hs. }
  assert (sax_parse_internal (S (String.length (String a s))) false p = Ok q) as ->.
  { pose proof (sax_parse_ends (S (String.length (String a s))) false p) as He.
    rewrite <- (sax_parse_more _ (n + 1)).
    - rewrite Nat.add_comm. rewrite sax_parse_more; by rewrite Hq.
    - intros Hu. rewrite Hu in He. apply He. cbn [input p0] in Hreads.
      destruct (reads (last_token p)); [left; specialize (Hreads eq_refl); lia|by right]. }
  cbn [result_bind]. rewrite (run_get_token q end_of_input "") by (by rewrite Hi). cbn [result_bind last_token].
  rewrite Hqx, Hx. done.
Qed.

(** The value that is read is equal to the one that was written. *)
Lemma json_eq_array l l' :
  json_eq (JArray l) (JArray l') = true <-> Forall2 (fun a b => json_eq a b = true) l l'.
Proof.
  revert l'. induction l as [|a l IH]; intros [|b l']; cbn in *; try by (split; [|inversion 1]).
  rewrite andb_true_iff, IH. split; [intros []; by constructor|]. by inversion 1.
Qed.
Lemma json_eq_object m m' :
  json_eq (JObject m) (JObject m') = true <->
  Forall2 (fun a b => a.1 = b.1 /\ json_eq a.2 b.2 = true) m m'.
Proof.
  revert m'. induction m as [|[k a] m IH]; intros [|[k' b] m']; cbn in *;
    try by (split; [|inversion 1]).
  rewrite !andb_true_iff, IH, String.eqb_eq. split; [intros [[]]; by constructor|].
  inversion 1 as [|???? []]. done.
Qed.

Lemma finite_double_eq f : finite_double f = true -> SFeqb f f = true.
Proof.
  destruct f as [s|s| |s m e]; try done. intros _. unfold SFeqb, SFcompare.
  destruct s; by rewrite Z.compare_refl, Pos.compare_cont_refl.
Qed.

Lemma json_eq_renumber j : readable j = true -> json_eq j (renumber j) = true.
Proof.
  induction j as [|b|z|n|f|s|l Hl|m Hm] using json_rect'; cbn [readable renumber]; intros Hr.
  - done.
  - by destruct b.
  - destruct (Z.ltb_spec z 0); cbn; [apply Z.eqb_refl|]. rewrite sint_small by lia. apply Z.eqb_refl.
  - apply Z.eqb_refl.
  - cbn. by apply finite_double_eq.
  - apply String.eqb_refl.
  - apply json_eq_array. apply forallb_Forall in Hr. clear -Hl Hr.
    induction Hl as [|v l Hv Hl IH]; cbn; [constructor|]. inversion Hr; subst. constructor; auto.
  - apply json_eq_object. apply andb_true_iff in Hr as [_ Hr]. apply forallb_Forall in Hr. clear -Hm Hr.
    induction Hm as [|v l Hv Hm IH]; cbn; [constructor|]. inversion Hr; subst. constructor; auto.
Qed.

(** C8. The text of a value is read back: for a value as the library stores it, whose
    floating point numbers are finite, if [dump] writes a text then [parse] of the text returns a
    value equal to it, the one in which the integers that are not negative are unsigned.  The
    doubles come back bit for bit: the digits that Grisu2 writes lie between the boundaries of
    the double, and the parser rounds what it reads to the nearest double. *)
Theorem json_parse_dump_correct (j : json) (text : string)
    (Hr : readable j = true) (Hd : dump j = Ok text) :
  json_parse text = Ok (renumber j) /\ json_eq j (renumber j) = true.
Proof. split; [by apply json_parse_dump|by apply json_eq_renumber]. Qed.

Definition sample_value : json :=
  jobj [("codecs", JArray [jobj [("mimeType", JString "video/VP8"); ("clockRate", JUInt 90000)]]);
        ("gain", JArray [JFloat (S754_finite false 7205759403792794 (-56)); JFloat (S754_finite true 1 (-1074));
          JFloat (S754_zero true)]);
        ("level", JInt (-3)); ("name", JString (String quote ("a" +:+ String "010" "")));
        ("none", JNull); ("ordered", JBool false)].
Lemma json_parse_dump_correct_witness :
  exists text, dump sample_value = Ok text /\ json_parse text = Ok sample_value.
Proof.
  eexists. split; [vm_compute; reflexivity|].
  refine (proj1 (json_parse_dump_correct sample_value _ _ _)); vm_compute; reflexivity.
Defined.
