(* ===== verification/Validator.v ===== *)
(** * The contract of a validator

    The validators of ortc.cpp take a JSON value by reference, fill in missing
    fields with default values, and throw a MediaSoupClientTypeError when the
    value is invalid.  [Validator v accept norm] states that contract: [v]
    accepts exactly the values satisfying [accept], turns an accepted value into
    [norm] of it, and has no other outcome.  The negotiation code is verified
    against this interface; OrtcContracts.v discharges it for each validator. *)

From S2P Require Import Prelude Json.

Class Validator (v : M json unit) (accept : json -> bool) (norm : json -> json) : Prop := {
  validator_ok j : accept j = true -> v j = (Ok tt, norm j);
  validator_throw j :
    accept j = false -> exists msg j', v j = (Throw (MediaSoupClientTypeError msg), j')
}.

(** A validator whose result it accepts again without a change. *)
Class Normalizing (accept : json -> bool) (norm : json -> json) : Prop := {
  norm_accept j : accept j = true -> accept (norm j) = true;
  norm_wf j : accept j = true -> json_wf j = true -> json_wf (norm j) = true;
  norm_idem j : accept j = true -> json_wf j = true -> norm (norm j) = norm j
}.

(** [j] is an array whose elements satisfy [p]. *)
Definition array_of (p : json -> bool) (j : json) : bool :=
  match j with JArray l => forallb p l | _ => false end.

Definition map_array (f : json -> json) (j : json) : json :=
  match j with JArray l => JArray (map f l) | _ => j end.

Section Contract.
Context {v : M json unit} {accept : json -> bool} {norm : json -> json}.
Context `{!Validator v accept norm}.

Lemma validator_ok_iff j j' : v j = (Ok tt, j') <-> accept j = true /\ j' = norm j.
Proof.
  destruct (accept j) eqn:E.
  - rewrite (validator_ok j E). split; [by intros [= <-]|by intros [_ ->]].
  - destruct (validator_throw j E) as (msg & j1 & ->). split; [done|by intros [? _]].
Qed.

Lemma validator_outcome j :
  fst (v j) = Ok tt \/ exists msg, fst (v j) = Throw (MediaSoupClientTypeError msg).
Proof.
  destruct (accept j) eqn:E.
  - rewrite (validator_ok j E). auto.
  - destruct (validator_throw j E) as (msg & j1 & ->). eauto.
Qed.

Lemma validator_idem j j' `{!Normalizing accept norm} :
  json_wf j = true -> v j = (Ok tt, j') -> v j' = (Ok tt, j').
Proof.
  intros ? [? ->]%validator_ok_iff. apply validator_ok_iff.
  split; [by apply norm_accept|by rewrite norm_idem].
Qed.

Lemma each_ok l : forallb accept l = true -> each v l = (Ok tt, map norm l).
Proof.
  induction l as [|x l IH]; simpl; [done|]. intros [Hx Hl]%andb_true_iff.
  by rewrite (validator_ok x Hx), (IH Hl).
Qed.

Lemma each_throw l :
  forallb accept l = false ->
  exists msg l', each v l = (Throw (MediaSoupClientTypeError msg), l').
Proof.
  induction l as [|x l IH]; simpl; [done|]. destruct (accept x) eqn:E; simpl.
  - intros (msg & l' & Hl)%IH. rewrite (validator_ok x E), Hl. eauto.
  - intros _. destruct (validator_throw x E) as (msg & j1 & ->). eauto.
Qed.

(** A loop over an array validates every element. *)
Lemma for_each_ok j :
  array_of accept j = true -> for_each v j = (Ok tt, map_array norm j).
Proof. destruct j; try done. unfold for_each. simpl. intros H. by rewrite (each_ok _ H). Qed.

Lemma for_each_throw j :
  is_array j = true -> array_of accept j = false ->
  exists msg j', for_each v j = (Throw (MediaSoupClientTypeError msg), j').
Proof.
  destruct j; try done. unfold for_each. simpl. intros _ H.
  destruct (each_throw _ H) as (msg & l' & ->). eauto.
Qed.

Lemma at_it_each_ok k m :
  it_is (array_of accept) (obj_find k m) = true ->
  at_it k (for_each v) (JObject m) = (Ok tt, JObject (obj_update k (map_array norm) m)).
Proof.
  unfold obj_update, at_it. destruct (obj_find k m) as [j|]; [|done]. intros H.
  by rewrite (for_each_ok j H).
Qed.

Lemma at_it_each_throw k m :
  it_is is_array (obj_find k m) = true -> it_is (array_of accept) (obj_find k m) = false ->
  exists msg j', at_it k (for_each v) (JObject m) = (Throw (TypeError msg), j').
Proof.
  unfold at_it. destruct (obj_find k m) as [j|]; [|done]. intros Ha H.
  destruct (for_each_throw j Ha H) as (msg & j' & ->). eauto.
Qed.

Lemma at_it_ok k m :
  it_is accept (obj_find k m) = true ->
  at_it k v (JObject m) = (Ok tt, JObject (obj_update k norm m)).
Proof.
  unfold obj_update, at_it. destruct (obj_find k m) as [j|]; [|done]. intros H.
  by rewrite (validator_ok j H).
Qed.

Lemma at_it_throw k m j :
  obj_find k m = Some j -> accept j = false ->
  exists msg j', at_it k v (JObject m) = (Throw (TypeError msg), j').
Proof.
  unfold at_it. intros -> H. destruct (validator_throw j H) as (msg & j' & ->). eauto.
Qed.

Lemma array_of_norm j `{!Normalizing accept norm} :
  array_of accept j = true -> array_of accept (map_array norm j) = true.
Proof.
  destruct j; try done. simpl. rewrite !forallb_forall. intros H x.
  rewrite in_map_iff. intros (y & <- & ?). by apply norm_accept, H.
Qed.

Lemma map_array_idem j `{!Normalizing accept norm} :
  array_of accept j = true -> json_wf j = true ->
  map_array norm (map_array norm j) = map_array norm j.
Proof.
  destruct j as [| | | | | |l|]; try done. simpl.
  rewrite json_wf_array, List.Forall_forall, forallb_forall. intros Ha Hw.
  f_equal. rewrite map_map. apply map_ext_in. intros x ?. apply norm_idem; auto.
Qed.

Lemma map_array_wf j `{!Normalizing accept norm} :
  array_of accept j = true -> json_wf j = true -> json_wf (map_array norm j) = true.
Proof.
  destruct j as [| | | | | |l|]; try done. simpl.
  rewrite !json_wf_array, !List.Forall_forall, forallb_forall. intros Ha Hw x.
  rewrite in_map_iff. intros (y & <- & ?). apply norm_wf; auto.
Qed.
End Contract.

(** ** Loops that only check the entries of an object *)

(** [for (auto it = j.begin(); it != j.end(); ++it) f(it.key(), it.value());] *)
Fixpoint check_items (f : string * json -> result unit) (l : list (string * json)) :
    result unit :=
  match l with
  | [] => Ok tt
  | kv :: l => let? _ := f kv in check_items f l
  end.

Definition for_items (f : string * json -> result unit) : M json unit :=
  let! j := get in lift (check_items f (items j)).

(** [f] throws a MediaSoupClientTypeError on the entries that are not [ok]. *)
Class ItemCheck (f : string * json -> result unit) (ok : string * json -> bool) : Prop := {
  item_ok kv : ok kv = true -> f kv = Ok tt;
  item_throw kv : ok kv = false -> exists msg, f kv = Throw (TypeError msg)
}.

(** The entries of an object satisfy [ok]. *)
Definition object_of (ok : string * json -> bool) (j : json) : bool :=
  match j with JObject m => forallb ok m | _ => false end.

Section ItemCheck.
Context {f : string * json -> result unit} {ok : string * json -> bool}.
Context `{!ItemCheck f ok}.

Lemma check_items_ok l : forallb ok l = true -> check_items f l = Ok tt.
Proof.
  induction l as [|kv l IH]; simpl; [done|]. intros [Hkv Hl]%andb_true_iff.
  by rewrite (item_ok kv Hkv), (IH Hl).
Qed.

Lemma check_items_throw l :
  forallb ok l = false -> exists msg, check_items f l = Throw (TypeError msg).
Proof.
  induction l as [|kv l IH]; simpl; [done|]. destruct (ok kv) eqn:E; simpl.
  - rewrite (item_ok kv E). done.
  - destruct (item_throw kv E) as [msg ->]. eauto.
Qed.

Lemma at_it_items_ok k m :
  it_is (object_of ok) (obj_find k m) = true ->
  at_it k (for_items f) (JObject m) = (Ok tt, JObject m).
Proof.
  unfold at_it. destruct (obj_find k m) as [j|] eqn:E; [|done]. destruct j as [| | | | | | |o]; try done.
  intros H. unfold for_items. run. unfold lift.
  rewrite (check_items_ok _ H), (obj_replace_id _ _ _ E). done.
Qed.

Lemma at_it_items_throw k m :
  it_is is_object (obj_find k m) = true -> it_is (object_of ok) (obj_find k m) = false ->
  exists msg, at_it k (for_items f) (JObject m) = (Throw (TypeError msg), JObject m).
Proof.
  unfold at_it. destruct (obj_find k m) as [j|] eqn:E; [|done]. destruct j as [| | | | | | |o]; try done.
  intros _ H. unfold for_items. run. unfold lift.
  destruct (check_items_throw _ H) as [msg ->]. rewrite (obj_replace_id _ _ _ E). eauto.
Qed.
End ItemCheck.

(** ** Steps on an object

    [checks s m ok m']: run on the object [m], the step [s] succeeds and leaves
    [m'] when [ok] holds, and throws a MediaSoupClientTypeError otherwise. *)
Definition checks (s : M json unit) (m : list (string * json)) (ok : bool)
    (m' : list (string * json)) : Prop :=
  (ok = true -> s (JObject m) = (Ok tt, JObject m')) /\
  (ok = false -> exists msg j', s (JObject m) = (Throw (TypeError msg), j')).

Lemma checks_bind s f m ok m' ok' m'' :
  checks s m ok m' -> (ok = true -> checks (f tt) m' ok' m'') ->
  checks (bind s f) m (ok && ok') m''.
Proof.
  intros [Hok Ht] Hf. split; destruct ok; simpl; try done; intros H.
  - destruct (Hf eq_refl) as [Hok' _]. erewrite bind_of_ok by eauto. eauto.
  - destruct (Hf eq_refl) as [_ Ht']. erewrite bind_of_ok by eauto. eauto.
  - destruct (Ht eq_refl) as (msg & j' & Hx). erewrite bind_of_throw by eauto. eauto.
Qed.

Lemma checks_throw_if b msg m : checks (throw_if b (TypeError msg)) m (negb b) m.
Proof. split; destruct b; simpl; try done; eauto. Qed.

Lemma checks_set_if b k x m : checks (when b (set_key k x)) m true (obj_set_if b k x m).
Proof. split; [|done]. intros _. apply run_when_set. Qed.

(** A validator that checks for an object and then runs steps meets its contract. *)
Lemma validator_of_checks v accept norm :
  (forall m, checks v m (accept m) (norm m)) ->
  (forall j, is_object j = false -> exists msg j', v j = (Throw (TypeError msg), j')) ->
  Validator v (object_with accept) (on_object norm).
Proof.
  intros Hv Hn. split; intros j; destruct j as [| | | | | | |m]; try done;
    try (intros _; by apply Hn); simpl; intros H; by apply Hv.
Qed.

Lemma checks_get f m ok m' :
  checks (f (JObject m)) m ok m' -> checks (bind get f) m ok m'.
Proof. done. Qed.

Lemma checks_eq s m ok ok' m' : ok = ok' -> checks s m ok m' -> checks s m ok' m'.
Proof. by intros ->. Qed.

Lemma checks_bind_throw_if b msg f m ok ok' m' :
  ok = negb b && ok' -> (b = false -> checks (f tt) m ok' m') ->
  checks (bind (throw_if b (TypeError msg)) f) m ok m'.
Proof.
  intros -> Hf. eapply checks_bind; [apply checks_throw_if|].
  intros H%negb_true_iff. by apply Hf.
Qed.

Lemma checks_bind_set_if b k x f m ok m' :
  checks (f tt) (obj_set_if b k x m) ok m' ->
  checks (bind (when b (set_key k x)) f) m ok m'.
Proof.
  intros Hf. apply (checks_bind _ _ _ true (obj_set_if b k x m)); [apply checks_set_if|done].
Qed.

Lemma checks_each `{!Validator v accept norm} k m :
  it_is is_array (obj_find k m) = true ->
  checks (at_it k (for_each v)) m (it_is (array_of accept) (obj_find k m))
    (obj_update k (map_array norm) m).
Proof.
  intros Ha. split; intros H; [by apply (at_it_each_ok (accept := accept))|].
  by apply (at_it_each_throw (accept := accept) (norm := norm)).
Qed.

Lemma checks_at_it `{!Validator v accept norm} k m :
  is_Some (obj_find k m) ->
  checks (at_it k v) m (it_is accept (obj_find k m)) (obj_update k norm m).
Proof.
  intros [j Hj]. split; intros H; [by apply (at_it_ok (accept := accept))|].
  rewrite Hj in H. by apply (at_it_throw (accept := accept) (norm := norm) _ _ j).
Qed.

Lemma checks_object e f m ok m' :
  checks (f tt) m ok m' ->
  checks (bind (throw_if (negb (is_object (JObject m))) e) f) m ok m'.
Proof. done. Qed.

(** [if (!b) throw] and [if (it != end && !p(it)) throw], as conditions to accept. *)
Lemma checks_require b msg f m ok m' :
  (b = true -> checks (f tt) m ok m') ->
  checks (bind (throw_if (negb b) (TypeError msg)) f) m (b && ok) m'.
Proof.
  intros Hf. apply (checks_bind_throw_if _ _ _ _ _ ok); [by rewrite negb_involutive|].
  intros H%negb_false_iff. by apply Hf.
Qed.
Lemma checks_optional p it msg f m ok m' :
  checks (f tt) m ok m' ->
  checks (bind (throw_if (it_is (negb ∘ p) it) (TypeError msg)) f) m (it_none_or p it && ok) m'.
Proof.
  intros Hf. rewrite it_is_negb. by apply checks_require.
Qed.

Lemma it_is_array_of p o : it_is (array_of p) o = it_is is_array o && it_is (array_of p) o.
Proof. by destruct o as [[]|]. Qed.

Lemma checks_require_last b msg m : checks (throw_if (negb b) (TypeError msg)) m b m.
Proof. pose proof (checks_throw_if (negb b) msg m) as H. by rewrite negb_involutive in H. Qed.
Lemma checks_optional_last p it msg m :
  checks (throw_if (it_is (negb ∘ p) it) (TypeError msg)) m (it_none_or p it) m.
Proof. rewrite it_is_negb. apply checks_require_last. Qed.

(** Runs a validator made of such checks. *)
Ltac step_checks :=
  repeat first
    [ apply checks_optional | apply checks_require; intros ?
    | apply checks_require_last | apply checks_optional_last | apply checks_bind_set_if
    | apply checks_set_if ].

(** [if (b) throw ...; else if (c) params[k] = x;] *)
Lemma checks_throw_or_set (b : bool) msg c k x m :
  checks (if b then throw (TypeError msg) else when c (set_key k x)) m (negb b)
    (obj_set_if c k x m).
Proof. split; destruct b; simpl; try done; eauto. intros _. apply run_when_set. Qed.
