(* ===== verification/OrtcValidate.v ===== *)
(** * The validators of ortc.cpp

    [ortc::validate*] of libmediasoupclient/src/ortc.cpp: each takes a JSON value
    by reference, throws a MediaSoupClientTypeError when it is invalid, and fills
    in the optional fields.  OrtcContracts.v shows that each meets its contract
    (Validator.v) for an explicit acceptance predicate and normal form. *)

From S2P Require Import Prelude Json Regex Validator.

(** ** Patterns *)

(** ["^(audio|video)/(.+)"], icase *)
Definition MimeTypeRegex : regex :=
  RSeq RBol (RSeq (RGroup 1 (RAlt (lit_i "audio") (lit_i "video")))
    (RSeq (lit_i "/") (RGroup 2 (RPlus (RChar is_dot))))).

(** ["(udp|tcp)"], icase *)
Definition ProtocolRegex : regex := RGroup 1 (RAlt (lit_i "udp") (lit_i "tcp")).

(** ["(host|srflx|prflx|relay)"], icase *)
Definition TypeRegex : regex :=
  RGroup 1 (RAlt (lit_i "host") (RAlt (lit_i "srflx") (RAlt (lit_i "prflx") (lit_i "relay")))).

(** ["(auto|client|server)"], icase *)
Definition RoleRegex : regex :=
  RGroup 1 (RAlt (lit_i "auto") (RAlt (lit_i "client") (lit_i "server"))).

Definition matches (r : regex) (s : string) : bool := bool_decide (is_Some (regex_match r s)).

(** ** RTP capabilities *)

Definition validateRtcpFeedback : M json unit :=
  let! fb := get in
  do! throw_if (negb (is_object fb)) (TypeError "fb is not an object") in
  let typeIt := find "type" fb in
  let parameterIt := find "parameter" fb in
  do! throw_if (negb (it_is is_string typeIt)) (TypeError "missing fb.type") in
  when (negb (it_is is_string parameterIt)) (set_key "parameter" (JString "")).

(** One step of the loop over the codec parameters, the same in
    [validateRtpCodecCapability] and [validateRtpCodecParameters]. *)
Definition checkCodecParameter (kv : string * json) : result unit :=
  let '(key, value) := kv in
  if negb (is_string value) && negb (is_number value) && negb (json_eq value JNull) then
    Throw (TypeError "invalid codec parameter")
  else if String.eqb key "apt" && negb (is_number_integer value) then
    Throw (TypeError "invalid codec apt parameter")
  else Ok tt.

(** The end of both codec validators: channels (default 1, audio only),
    parameters (default an empty object) and rtcpFeedback (default an empty array).
    The iterators were taken when the validator started. *)
Definition validateCodecTail (channelsIt parametersIt rtcpFeedbackIt : option json)
    (kind : string) : M json unit :=
  do! (if String.eqb kind "audio" then
         when (negb (it_is is_number_integer channelsIt)) (set_key "channels" (JInt 1))
       else
         when (bool_decide (is_Some channelsIt)) (erase_key "channels")) in
  do! when (negb (it_is is_object parametersIt)) (set_key "parameters" (JObject [])) in
  do! at_it "parameters" (for_items checkCodecParameter) in
  do! when (negb (it_is is_array rtcpFeedbackIt)) (set_key "rtcpFeedback" (JArray [])) in
  at_it "rtcpFeedback" (for_each validateRtcpFeedback).

Definition validateRtpCodecCapability : M json unit :=
  let! codec := get in
  do! throw_if (negb (is_object codec)) (TypeError "codec is not an object") in
  let mimeTypeIt := find "mimeType" codec in
  let preferredPayloadTypeIt := find "preferredPayloadType" codec in
  let clockRateIt := find "clockRate" codec in
  let channelsIt := find "channels" codec in
  let parametersIt := find "parameters" codec in
  let rtcpFeedbackIt := find "rtcpFeedback" codec in
  match mimeTypeIt with
  | Some (JString regexTarget) =>
      match regex_match MimeTypeRegex regexTarget with
      | None => throw (TypeError "invalid codec.mimeType")
      | Some mimeTypeMatch =>
          let kind := sub 1 mimeTypeMatch in
          (* Just override kind with media component of mimeType. *)
          do! set_key "kind" (JString kind) in
          do! throw_if (it_is (negb ∘ is_number_integer) preferredPayloadTypeIt)
                (TypeError "invalid codec.preferredPayloadType") in
          do! throw_if (negb (it_is is_number_integer clockRateIt))
                (TypeError "missing codec.clockRate") in
          validateCodecTail channelsIt parametersIt rtcpFeedbackIt kind
      end
  | _ => throw (TypeError "missing codec.mimeType")
  end.

Definition validateRtpHeaderExtension : M json unit :=
  let! ext := get in
  do! throw_if (negb (is_object ext)) (TypeError "ext is not an object") in
  let kindIt := find "kind" ext in
  let uriIt := find "uri" ext in
  let preferredIdIt := find "preferredId" ext in
  let preferredEncryptIt := find "preferredEncrypt" ext in
  let directionIt := find "direction" ext in
  match kindIt with
  | Some (JString kind) =>
      do! throw_if (negb (String.eqb kind "audio") && negb (String.eqb kind "video"))
            (TypeError "invalid ext.kind") in
      do! throw_if (negb (it_is is_nonempty_string uriIt)) (TypeError "missing ext.uri") in
      do! throw_if (negb (it_is is_number_integer preferredIdIt))
            (TypeError "missing ext.preferredId") in
      do! (if it_is (negb ∘ is_boolean) preferredEncryptIt then
             throw (TypeError "invalid ext.preferredEncrypt")
           else when (bool_decide (preferredEncryptIt = None))
                  (set_key "preferredEncrypt" (JBool false))) in
      if it_is (negb ∘ is_string) directionIt then
        throw (TypeError "invalid ext.direction")
      else when (bool_decide (directionIt = None))
             (set_key "direction" (JString "sendrecv"))
  | _ => throw (TypeError "missing ext.kind")
  end.

(** An optional array field: throws when it is present with another type, fills
    in an empty array when it is absent, then runs [f] on its elements. *)
Definition optional_array (k msg : string) (it : option json) (f : M json unit) :
    M json unit :=
  do! (if it_is (negb ∘ is_array) it then throw (TypeError msg)
       else when (bool_decide (it = None)) (set_key k (JArray []))) in
  at_it k (for_each f).

Definition validateRtpCapabilities : M json unit :=
  let! caps := get in
  do! throw_if (negb (is_object caps)) (TypeError "caps is not an object") in
  let codecsIt := find "codecs" caps in
  let headerExtensionsIt := find "headerExtensions" caps in
  do! optional_array "codecs" "caps.codecs is not an array" codecsIt
        validateRtpCodecCapability in
  optional_array "headerExtensions" "caps.headerExtensions is not an array"
    headerExtensionsIt validateRtpHeaderExtension.

(** ** RTP parameters *)

Definition validateRtpCodecParameters : M json unit :=
  let! codec := get in
  do! throw_if (negb (is_object codec)) (TypeError "codec is not an object") in
  let mimeTypeIt := find "mimeType" codec in
  let payloadTypeIt := find "payloadType" codec in
  let clockRateIt := find "clockRate" codec in
  let channelsIt := find "channels" codec in
  let parametersIt := find "parameters" codec in
  let rtcpFeedbackIt := find "rtcpFeedback" codec in
  match mimeTypeIt with
  | Some (JString regexTarget) =>
      match regex_match MimeTypeRegex regexTarget with
      | None => throw (TypeError "invalid codec.mimeType")
      | Some mimeTypeMatch =>
          do! throw_if (negb (it_is is_number_integer payloadTypeIt))
                (TypeError "missing codec.payloadType") in
          do! throw_if (negb (it_is is_number_integer clockRateIt))
                (TypeError "missing codec.clockRate") in
          let kind := sub 1 mimeTypeMatch in
          validateCodecTail channelsIt parametersIt rtcpFeedbackIt kind
      end
  | _ => throw (TypeError "missing codec.mimeType")
  end.

Definition checkHeaderExtensionParameter (kv : string * json) : result unit :=
  if negb (is_string kv.2) && negb (is_number kv.2) then
    Throw (TypeError "invalid header extension parameter")
  else Ok tt.

Definition validateRtpHeaderExtensionParameters : M json unit :=
  let! ext := get in
  do! throw_if (negb (is_object ext)) (TypeError "ext is not an object") in
  let uriIt := find "uri" ext in
  let idIt := find "id" ext in
  let encryptIt := find "encrypt" ext in
  let parametersIt := find "parameters" ext in
  do! throw_if (negb (it_is is_nonempty_string uriIt)) (TypeError "missing ext.uri") in
  do! throw_if (negb (it_is is_number_integer idIt)) (TypeError "missing ext.id") in
  do! (if it_is (negb ∘ is_boolean) encryptIt then throw (TypeError "invalid ext.encrypt")
       else when (bool_decide (encryptIt = None)) (set_key "encrypt" (JBool false))) in
  do! when (negb (it_is is_object parametersIt)) (set_key "parameters" (JObject [])) in
  at_it "parameters" (for_items checkHeaderExtensionParameter).

Definition validateRtpEncodingParameters : M json unit :=
  let! encoding := get in
  do! throw_if (negb (is_object encoding)) (TypeError "encoding is not an object") in
  let ssrcIt := find "ssrc" encoding in
  let ridIt := find "rid" encoding in
  let rtxIt := find "rtx" encoding in
  let dtxIt := find "dtx" encoding in
  let scalabilityModeIt := find "scalabilityMode" encoding in
  do! throw_if (it_is (negb ∘ is_number_integer) ssrcIt) (TypeError "invalid encoding.ssrc") in
  do! throw_if (it_is (negb ∘ is_nonempty_string) ridIt) (TypeError "invalid encoding.rid") in
  do! (match rtxIt with
       | None => ret tt
       | Some rtx =>
           do! throw_if (negb (is_object rtx)) (TypeError "invalid encoding.rtx") in
           (* RTX ssrc is mandatory if rtx is present. *)
           throw_if (negb (it_is is_number_integer (find "ssrc" rtx)))
             (TypeError "missing encoding.rtx.ssrc")
       end) in
  do! when (negb (it_is is_boolean dtxIt)) (set_key "dtx" (JBool false)) in
  throw_if (it_is (negb ∘ is_nonempty_string) scalabilityModeIt)
    (TypeError "invalid encoding.scalabilityMode").

Definition validateRtcpParameters : M json unit :=
  let! rtcp := get in
  do! throw_if (negb (is_object rtcp)) (TypeError "rtcp is not an object") in
  let cnameIt := find "cname" rtcp in
  let reducedSizeIt := find "reducedSize" rtcp in
  do! throw_if (it_is (negb ∘ is_string) cnameIt) (TypeError "invalid rtcp.cname") in
  when (negb (it_is is_boolean reducedSizeIt)) (set_key "reducedSize" (JBool true)).

Definition validateRtpParameters : M json unit :=
  let! params := get in
  do! throw_if (negb (is_object params)) (TypeError "params is not an object") in
  let midIt := find "mid" params in
  let codecsIt := find "codecs" params in
  let headerExtensionsIt := find "headerExtensions" params in
  let encodingsIt := find "encodings" params in
  let rtcpIt := find "rtcp" params in
  do! throw_if (it_is (negb ∘ is_nonempty_string) midIt)
        (TypeError "params.mid is not a string") in
  (* codecs is mandatory. *)
  do! throw_if (negb (it_is is_array codecsIt)) (TypeError "missing params.codecs") in
  do! at_it "codecs" (for_each validateRtpCodecParameters) in
  do! optional_array "headerExtensions" "params.headerExtensions is not an array"
        headerExtensionsIt validateRtpHeaderExtensionParameters in
  do! optional_array "encodings" "params.encodings is not an array"
        encodingsIt validateRtpEncodingParameters in
  do! (if it_is (negb ∘ is_object) rtcpIt then
         throw (TypeError "params.rtcp is not an object")
       else when (bool_decide (rtcpIt = None)) (set_key "rtcp" (JObject []))) in
  at_it "rtcp" validateRtcpParameters.

(** ** SCTP *)

Definition validateNumSctpStreams : M json unit :=
  let! numStreams := get in
  do! throw_if (negb (is_object numStreams)) (TypeError "numStreams is not an object") in
  let osIt := find "OS" numStreams in
  let misIt := find "MIS" numStreams in
  do! throw_if (negb (it_is is_number_integer osIt)) (TypeError "missing numStreams.OS") in
  throw_if (negb (it_is is_number_integer misIt)) (TypeError "missing numStreams.MIS").

Definition validateSctpCapabilities : M json unit :=
  let! caps := get in
  do! throw_if (negb (is_object caps)) (TypeError "caps is not an object") in
  let numStreamsIt := find "numStreams" caps in
  do! throw_if (negb (it_is is_object numStreamsIt)) (TypeError "missing caps.numStreams") in
  at_it "numStreams" validateNumSctpStreams.

Definition validateSctpParameters : M json unit :=
  let! params := get in
  do! throw_if (negb (is_object params)) (TypeError "params is not an object") in
  let portIt := find "port" params in
  let osIt := find "OS" params in
  let misIt := find "MIS" params in
  let maxMessageSizeIt := find "maxMessageSize" params in
  do! throw_if (negb (it_is is_number_integer portIt)) (TypeError "missing params.port") in
  do! throw_if (negb (it_is is_number_integer osIt)) (TypeError "missing params.OS") in
  do! throw_if (negb (it_is is_number_integer misIt)) (TypeError "missing params.MIS") in
  throw_if (negb (it_is is_number_integer maxMessageSizeIt))
    (TypeError "missing params.maxMessageSize").

Definition validateSctpStreamParameters : M json unit :=
  let! params := get in
  do! throw_if (negb (is_object params)) (TypeError "params is not an object") in
  let streamIdIt := find "streamId" params in
  let orderedIt := find "ordered" params in
  let maxPacketLifeTimeIt := find "maxPacketLifeTime" params in
  let maxRetransmitsIt := find "maxRetransmits" params in
  let labelIt := find "label" params in
  let protocolIt := find "protocol" params in
  do! throw_if (negb (it_is is_number_integer streamIdIt))
        (TypeError "missing params.streamId") in
  (* The iterators were taken before any insertion: they tell what was given. *)
  let orderedGiven := it_is is_boolean orderedIt in
  let lifeTimeGiven := bool_decide (is_Some maxPacketLifeTimeIt) in
  let retransmitsGiven := bool_decide (is_Some maxRetransmitsIt) in
  do! when (negb orderedGiven) (set_key "ordered" (JBool true)) in
  do! when (negb (it_is is_number_integer maxPacketLifeTimeIt))
        (set_key "maxPacketLifeTime" (JUInt 0)) in
  do! when (negb (it_is is_number_integer maxRetransmitsIt))
        (set_key "maxRetransmits" (JUInt 0)) in
  do! throw_if (lifeTimeGiven && retransmitsGiven)
        (TypeError "cannot provide both maxPacketLifeTime and maxRetransmits") in
  let! params := get in
  do! (if orderedGiven && it_is (fun v => json_eq v (JBool true)) (find "ordered" params)
          && (lifeTimeGiven || retransmitsGiven) then
         throw (TypeError "cannot be ordered with maxPacketLifeTime or maxRetransmits")
       else when (negb orderedGiven && (lifeTimeGiven || retransmitsGiven))
              (set_key "ordered" (JBool false))) in
  do! when (negb (it_is is_string labelIt)) (set_key "label" (JString "")) in
  when (negb (it_is is_string protocolIt)) (set_key "protocol" (JString "")).

(** ** Transport parameters *)

Definition validateIceParameters : M json unit :=
  let! params := get in
  do! throw_if (negb (is_object params)) (TypeError "params is not an object") in
  let usernameFragmentIt := find "usernameFragment" params in
  let passwordIt := find "password" params in
  let iceLiteIt := find "iceLite" params in
  do! throw_if (negb (it_is is_nonempty_string usernameFragmentIt))
        (TypeError "missing params.usernameFragment") in
  do! throw_if (negb (it_is is_nonempty_string passwordIt))
        (TypeError "missing params.password") in
  when (negb (it_is is_boolean iceLiteIt)) (set_key "iceLite" (JBool false)).

(** [it->is_string() && std::regex_match(it->get<std::string>(), r)] *)
Definition string_matches (r : regex) (j : json) : bool :=
  match j with JString s => matches r s | _ => false end.

Definition validateIceCandidate : M json unit :=
  let! params := get in
  do! throw_if (negb (is_object params)) (TypeError "params is not an object") in
  let foundationIt := find "foundation" params in
  let priorityIt := find "priority" params in
  let ipIt := find "ip" params in
  let protocolIt := find "protocol" params in
  let portIt := find "port" params in
  let typeIt := find "type" params in
  do! throw_if (negb (it_is is_nonempty_string foundationIt))
        (TypeError "missing params.foundation") in
  do! throw_if (negb (it_is is_number_unsigned priorityIt))
        (TypeError "missing params.priority") in
  do! throw_if (negb (it_is is_nonempty_string ipIt)) (TypeError "missing params.ip") in
  do! throw_if (negb (it_is is_nonempty_string protocolIt))
        (TypeError "missing params.protocol") in
  do! throw_if (negb (it_is (string_matches ProtocolRegex) protocolIt))
        (TypeError "invalid params.protocol") in
  do! throw_if (negb (it_is is_number_unsigned portIt)) (TypeError "missing params.port") in
  do! throw_if (negb (it_is is_nonempty_string typeIt)) (TypeError "missing params.type") in
  throw_if (negb (it_is (string_matches TypeRegex) typeIt))
    (TypeError "invalid params.type").

Definition validateIceCandidates : M json unit :=
  let! params := get in
  do! throw_if (negb (is_array params)) (TypeError "params is not an array") in
  for_each validateIceCandidate.

Definition validateDtlsFingerprint : M json unit :=
  let! params := get in
  do! throw_if (negb (is_object params)) (TypeError "params is not an object") in
  let algorithmIt := find "algorithm" params in
  let valueIt := find "value" params in
  do! throw_if (negb (it_is is_nonempty_string algorithmIt))
        (TypeError "missing params.algorithm") in
  throw_if (negb (it_is is_nonempty_string valueIt)) (TypeError "missing params.value").

Definition validateDtlsParameters : M json unit :=
  let! params := get in
  do! throw_if (negb (is_object params)) (TypeError "params is not an object") in
  let roleIt := find "role" params in
  let fingerprintsIt := find "fingerprints" params in
  do! throw_if (negb (it_is is_nonempty_string roleIt)) (TypeError "missing params.role") in
  do! throw_if (negb (it_is (string_matches RoleRegex) roleIt))
        (TypeError "invalid params.role") in
  do! throw_if (negb (it_is (fun j => is_array j && negb (empty j)) fingerprintsIt))
        (TypeError "missing params.fingerprints") in
  at_it "fingerprints" (for_each validateDtlsFingerprint).

Definition validateProducerCodecOptions : M json unit :=
  let! params := get in
  do! throw_if (negb (is_object params)) (TypeError "params is not an object") in
  let optional k (p : json -> bool) msg :=
    throw_if (it_is (negb ∘ p) (find k params)) (TypeError msg) in
  do! optional "opusStereo" is_boolean "invalid params.opusStereo" in
  do! optional "opusFec" is_boolean "invalid params.opusFec" in
  do! optional "opusDtx" is_boolean "invalid params.opusDtx" in
  do! optional "opusCbr" is_boolean "invalid params.opusCbr" in
  do! optional "opusMaxPlaybackRate" is_number_unsigned
        "invalid params.opusMaxPlaybackRate" in
  do! optional "opusMaxAverageBitrate" is_number_unsigned
        "invalid params.opusMaxAverageBitrate" in
  do! optional "opusPtime" is_number_integer "invalid params.opusPtime" in
  do! optional "videoGoogleStartBitrate" is_number_integer
        "invalid params.videoGoogleStartBitrate" in
  do! optional "videoGoogleMaxBitrate" is_number_integer
        "invalid params.videoGoogleMaxBitrate" in
  optional "videoGoogleMinBitrate" is_number_integer
    "invalid params.videoGoogleMinBitrate".
