(* ===== verification/OrtcContracts.v ===== *)
(** The contracts of the validators of OrtcValidate: which values each validator
    accepts and the value it leaves behind, proved for every JSON value, and which
    of these normal forms a second run leaves alone. *)
From S2P Require Import Prelude Json Regex Validator OrtcValidate.


(** * Contracts *)

(** The contract of a validator that starts with [is_object] for the other values. *)
Ltac not_object :=
  let j := fresh "j" in
  intros j; destruct j; intros ?; try done;
  match goal with |- exists _ _, ?v _ = _ => unfold v end; run; eauto.

(** Enters the body of a validator run on an object. *)
Ltac start_checks :=
  apply checks_get; apply checks_object; cbv zeta; simpl find.

(** ** RTCP feedback *)

Definition acceptsRtcpFeedback : json -> bool :=
  object_with (fun fb => it_is is_string (obj_find "type" fb)).
Definition normRtcpFeedback : json -> json :=
  on_object (fun fb =>
    obj_set_if (negb (it_is is_string (obj_find "parameter" fb))) "parameter" (JString "") fb).

(** Splits the conditions of an accepted value, and rewrites with them. *)
Ltac use_conds :=
  repeat match goal with
  | H : _ && _ = true |- _ => apply andb_true_iff in H as [? H]
  end;
  rewrite ?it_is_negb;
  repeat match goal with
  | H : ?b = true |- context [?b] => rewrite H
  end.

(** Runs the checks of a rejected value up to the one that throws. *)
Ltac find_throw :=
  repeat first
    [ done
    | progress run
    | match goal with
      | |- exists _ _, (if negb ?b then _ else _) = _ => destruct b eqn:?; simpl; [|by eauto]
      | |- exists _ _, (Throw _, _) = _ => by eauto
      end ].

#[export] Instance validateRtcpFeedback_contract :
  Validator validateRtcpFeedback acceptsRtcpFeedback normRtcpFeedback.
Proof.
  split; intros j; unfold validateRtcpFeedback; destruct j; try done; run; intros H;
    rewrite ?H; run; eauto.
Qed.

(** ** Codec capabilities *)

Definition codecParameterOk (kv : string * json) : bool :=
  (is_string kv.2 || is_number kv.2 || is_null kv.2) &&
  (negb (String.eqb kv.1 "apt") || is_number_integer kv.2).

#[export] Instance checkCodecParameter_contract : ItemCheck checkCodecParameter codecParameterOk.
Proof.
  split; intros [key v]; unfold checkCodecParameter, codecParameterOk; simpl;
    destruct (String.eqb key "apt"); destruct v; simpl; try done; eauto.
Qed.

(** The media component of a MIME type, as the pattern captures it. *)
Definition mimeKind (j : option json) : string :=
  match j with
  | Some (JString s) => match regex_match MimeTypeRegex s with Some c => sub 1 c | None => "" end
  | _ => ""
  end.

Definition mimeTypeOk (j : option json) : bool := it_is (string_matches MimeTypeRegex) j.

(** [parameters] is no object, or one of valid entries. *)
Definition parametersOk (ok : string * json -> bool) (j : option json) : bool :=
  negb (it_is is_object j) || it_is (object_of ok) j.
Definition rtcpFeedbackOk (j : option json) : bool :=
  negb (it_is is_array j) || it_is (array_of acceptsRtcpFeedback) j.

Definition normChannels (kind : string) (m : list (string * json)) : list (string * json) :=
  if String.eqb kind "audio" then
    obj_set_if (negb (it_is is_number_integer (obj_find "channels" m))) "channels" (JInt 1) m
  else obj_erase "channels" m.

(** The defaults of [parameters] and [rtcpFeedback], common to both codec validators. *)
Definition normCodecTail (m : list (string * json)) : list (string * json) :=
  let m := obj_set_if (negb (it_is is_object (obj_find "parameters" m)))
             "parameters" (JObject []) m in
  let m := obj_set_if (negb (it_is is_array (obj_find "rtcpFeedback" m)))
             "rtcpFeedback" (JArray []) m in
  obj_update "rtcpFeedback" (map_array normRtcpFeedback) m.

Definition acceptsRtpCodecCapability : json -> bool :=
  object_with (fun codec =>
    mimeTypeOk (obj_find "mimeType" codec) &&
    it_none_or is_number_integer (obj_find "preferredPayloadType" codec) &&
    it_is is_number_integer (obj_find "clockRate" codec) &&
    parametersOk codecParameterOk (obj_find "parameters" codec) &&
    rtcpFeedbackOk (obj_find "rtcpFeedback" codec)).

Definition normRtpCodecCapability : json -> json :=
  on_object (fun codec =>
    let kind := mimeKind (obj_find "mimeType" codec) in
    normCodecTail (normChannels kind (obj_insert "kind" (JString kind) codec))).

Lemma obj_find_normChannels k kind m :
  k <> "channels" -> obj_find k (normChannels kind m) = obj_find k m.
Proof.
  intros Hk%String.eqb_neq. unfold normChannels. destruct (String.eqb kind "audio");
    autorewrite with json; by rewrite Hk.
Qed.

Lemma run_channels {B} kind m (f : unit -> M json B) :
  bind (if String.eqb kind "audio" then
          when (negb (it_is is_number_integer (obj_find "channels" m)))
            (set_key "channels" (JInt 1))
        else
          when (bool_decide (is_Some (obj_find "channels" m))) (erase_key "channels"))
    f (JObject m) = f tt (JObject (normChannels kind m)).
Proof.
  unfold normChannels. destruct (String.eqb kind "audio"); [by rewrite run_bind_when_set|].
  unfold bind. by rewrite (run_when_erase _ _ _ eq_refl).
Qed.

Lemma validateCodecTail_throw kind m :
  parametersOk codecParameterOk (obj_find "parameters" m) &&
  rtcpFeedbackOk (obj_find "rtcpFeedback" m) = false ->
  exists msg j', validateCodecTail (obj_find "channels" m) (obj_find "parameters" m)
    (obj_find "rtcpFeedback" m) kind (JObject m) = (Throw (TypeError msg), j').
Proof.
  unfold parametersOk, rtcpFeedbackOk. intros H. unfold validateCodecTail.
  rewrite run_channels. run.
  set (m1 := obj_set_if _ "parameters" _ _).
  assert (Hm1 : obj_find "parameters" m1 = if negb (it_is is_object (obj_find "parameters" m))
    then Some (JObject []) else obj_find "parameters" m).
  { subst m1. lookups. by rewrite obj_find_normChannels. }
  assert (Hm1' : obj_find "rtcpFeedback" m1 = obj_find "rtcpFeedback" m).
  { subst m1. lookups. by rewrite obj_find_normChannels. }
  destruct (it_is (object_of codecParameterOk) (obj_find "parameters" m1)) eqn:Hp.
  - erewrite bind_of_ok by (by apply at_it_items_ok). run.
    apply (at_it_each_throw (accept := acceptsRtcpFeedback) (norm := normRtcpFeedback));
      lookups; rewrite Hm1';
      rewrite Hm1 in Hp; destruct (it_is is_object (obj_find "parameters" m)); simpl in *;
      rewrite ?Hp in H; simpl in H;
      destruct (it_is is_array (obj_find "rtcpFeedback" m)) eqn:E; try done.
  - destruct (at_it_items_throw (ok := codecParameterOk) "parameters" m1) as [msg Hx];
      [|done|erewrite bind_of_throw by done; eauto].
    rewrite Hm1. by destruct (it_is is_object (obj_find "parameters" m)) eqn:?.
Qed.

Lemma validateCodecTail_ok kind m :
  parametersOk codecParameterOk (obj_find "parameters" m) = true ->
  rtcpFeedbackOk (obj_find "rtcpFeedback" m) = true ->
  validateCodecTail (obj_find "channels" m) (obj_find "parameters" m) (obj_find "rtcpFeedback" m)
    kind (JObject m) = (Ok tt, JObject (normCodecTail (normChannels kind m))).
Proof.
  unfold parametersOk, rtcpFeedbackOk. intros Hp Hf. unfold validateCodecTail, normCodecTail.
  rewrite run_channels. run. rewrite !obj_find_normChannels by done.
  erewrite bind_of_ok; [|apply at_it_items_ok].
  - run. rewrite (at_it_each_ok (accept := acceptsRtcpFeedback)
      (norm := normRtcpFeedback)).
    + lookups. by rewrite !obj_find_normChannels by done.
    + lookups. rewrite !obj_find_normChannels by done.
      destruct (it_is is_array (obj_find "rtcpFeedback" m)); done.
  - lookups. rewrite !obj_find_normChannels by done.
    destruct (it_is is_object (obj_find "parameters" m)); done.
Qed.

(** The same for iterators taken in the object before the key [kind] was written. *)
Lemma run_codecTail kind ch pa fb m :
  obj_find "channels" m = ch -> obj_find "parameters" m = pa ->
  obj_find "rtcpFeedback" m = fb ->
  checks (validateCodecTail ch pa fb kind) m (parametersOk codecParameterOk pa && rtcpFeedbackOk fb)
    (normCodecTail (normChannels kind m)).
Proof.
  intros <- <- <-. split.
  - intros [? ?]%andb_true_iff. by apply validateCodecTail_ok.
  - apply validateCodecTail_throw.
Qed.

#[export] Instance validateRtpCodecCapability_contract :
  Validator validateRtpCodecCapability acceptsRtpCodecCapability normRtpCodecCapability.
Proof.
  split; intros j; unfold validateRtpCodecCapability; destruct j as [| | | | | | |m];
    try done; run; eauto; unfold mimeTypeOk, string_matches, matches, mimeKind;
    destruct (obj_find "mimeType" m) as [[| | | | |s| |]|]; simpl; eauto; try done;
    case_bool_decide as Hs; simpl; try done;
    destruct (regex_match MimeTypeRegex s) as [c|]; eauto; try (by destruct Hs);
    run; rewrite it_is_negb;
    match goal with |- context [obj_insert "kind" ?k m] =>
      destruct (run_codecTail (sub 1 c) _ _ _ (obj_insert "kind" k m) eq_refl eq_refl eq_refl)
        as [Hok Hthrow]
    end; lookups in Hok; lookups in Hthrow;
    destruct (it_none_or is_number_integer _); simpl; eauto; try done;
    destruct (it_is is_number_integer _); simpl; eauto; try done.
Qed.

(** Decides the conditions of the goal one after another: a rejected value stops
    at the check that throws, an accepted one contradicts the others. *)
Ltac decide_checks :=
  repeat (first
    [ match goal with |- context [it_none_or ?p ?o] => destruct (it_none_or p o) eqn:? end
    | match goal with |- context [it_is ?p ?o] => destruct (it_is p o) eqn:? end ];
    run; rewrite ?it_is_negb; eauto; try done).

(** ** RTP capabilities *)

Definition acceptsRtpHeaderExtension : json -> bool :=
  object_with (fun ext =>
    it_is (fun k => json_eq k (JString "audio") || json_eq k (JString "video"))
      (obj_find "kind" ext) &&
    it_is is_nonempty_string (obj_find "uri" ext) &&
    it_is is_number_integer (obj_find "preferredId" ext) &&
    it_none_or is_boolean (obj_find "preferredEncrypt" ext) &&
    it_none_or is_string (obj_find "direction" ext)).

Definition absent (o : option json) : bool := bool_decide (o = None).

Definition normRtpHeaderExtension : json -> json :=
  on_object (fun ext =>
    let ext := obj_set_if (absent (obj_find "preferredEncrypt" ext))
                 "preferredEncrypt" (JBool false) ext in
    obj_set_if (absent (obj_find "direction" ext)) "direction" (JString "sendrecv") ext).

#[export] Instance validateRtpHeaderExtension_contract :
  Validator validateRtpHeaderExtension acceptsRtpHeaderExtension normRtpHeaderExtension.
Proof.
  split; intros j; unfold validateRtpHeaderExtension; destruct j as [| | | | | | |m];
    try done; run; eauto;
    destruct (obj_find "kind" m) as [[| | | | |s| |]|]; simpl; eauto; try done;
    run; rewrite ?it_is_negb; unfold absent; lookups;
    destruct (String.eqb s "audio"), (String.eqb s "video"); simpl; eauto; try done;
    decide_checks; lookups; eauto.
Qed.

Definition normOptionalArray (k : string) (norm : json -> json) (m : list (string * json)) :
    list (string * json) :=
  obj_update k (map_array norm) (obj_set_if (absent (obj_find k m)) k (JArray []) m).

Lemma run_optional_array `{!Validator f accept norm} k msg it m :
  obj_find k m = it ->
  checks (optional_array k msg it f) m (it_none_or (array_of accept) it)
    (normOptionalArray k norm m).
Proof.
  intros <-. unfold optional_array, normOptionalArray, absent.
  destruct (obj_find k m) as [j|] eqn:E; rewrite it_is_negb; simpl.
  - destruct (is_array j) eqn:Ha; simpl.
    + run. simpl. split; intros H; run.
      * apply (at_it_each_ok (accept := accept)). by rewrite E.
      * apply (at_it_each_throw (accept := accept) (norm := norm)); by rewrite E.
    + split; [by destruct j|]. intros _. unfold bind, throw. eauto.
  - split; intros H; [|done]. run. apply (at_it_each_ok (accept := accept)). lookups.
    by rewrite String.eqb_refl.
Qed.

Definition acceptsRtpCapabilities : json -> bool :=
  object_with (fun caps =>
    it_none_or (array_of acceptsRtpCodecCapability) (obj_find "codecs" caps) &&
    it_none_or (array_of acceptsRtpHeaderExtension) (obj_find "headerExtensions" caps)).

Definition normRtpCapabilities : json -> json :=
  on_object (fun caps =>
    normOptionalArray "headerExtensions" normRtpHeaderExtension
      (normOptionalArray "codecs" normRtpCodecCapability caps)).

Lemma obj_find_normOptionalArray k k' norm m :
  k <> k' -> obj_find k (normOptionalArray k' norm m) = obj_find k m.
Proof. intros H%String.eqb_neq. unfold normOptionalArray. lookups. by rewrite H. Qed.

#[export] Instance validateRtpCapabilities_contract :
  Validator validateRtpCapabilities acceptsRtpCapabilities normRtpCapabilities.
Proof.
  apply validator_of_checks; [intros m|by not_object].
  unfold validateRtpCapabilities. start_checks.
  eapply checks_bind; [by apply run_optional_array|intros _].
  apply run_optional_array. by rewrite obj_find_normOptionalArray.
Qed.

(** ** RTP parameters *)

Definition acceptsRtpCodecParameters : json -> bool :=
  object_with (fun codec =>
    mimeTypeOk (obj_find "mimeType" codec) &&
    it_is is_number_integer (obj_find "payloadType" codec) &&
    it_is is_number_integer (obj_find "clockRate" codec) &&
    parametersOk codecParameterOk (obj_find "parameters" codec) &&
    rtcpFeedbackOk (obj_find "rtcpFeedback" codec)).

Definition normRtpCodecParameters : json -> json :=
  on_object (fun codec =>
    normCodecTail (normChannels (mimeKind (obj_find "mimeType" codec)) codec)).

#[export] Instance validateRtpCodecParameters_contract :
  Validator validateRtpCodecParameters acceptsRtpCodecParameters normRtpCodecParameters.
Proof.
  split; intros j; unfold validateRtpCodecParameters; destruct j as [| | | | | | |m];
    try done; run; eauto; unfold mimeTypeOk, string_matches, matches, mimeKind;
    destruct (obj_find "mimeType" m) as [[| | | | |s| |]|]; simpl; eauto; try done;
    case_bool_decide as Hs; simpl; try done;
    destruct (regex_match MimeTypeRegex s) as [c|]; eauto; try (by destruct Hs);
    run; destruct (run_codecTail (sub 1 c) _ _ _ m eq_refl eq_refl eq_refl) as [Hok Hthrow];
    destruct (it_is is_number_integer (obj_find "payloadType" m)); simpl; eauto; try done;
    destruct (it_is is_number_integer _); simpl; eauto; try done.
Qed.

Definition headerExtensionParameterOk (kv : string * json) : bool :=
  is_string kv.2 || is_number kv.2.

#[export] Instance checkHeaderExtensionParameter_contract :
  ItemCheck checkHeaderExtensionParameter headerExtensionParameterOk.
Proof.
  split; intros [key v]; unfold checkHeaderExtensionParameter; destruct v; simpl;
    try done; eauto.
Qed.

Definition acceptsRtpHeaderExtensionParameters : json -> bool :=
  object_with (fun ext =>
    it_is is_nonempty_string (obj_find "uri" ext) &&
    it_is is_number_integer (obj_find "id" ext) &&
    it_none_or is_boolean (obj_find "encrypt" ext) &&
    parametersOk headerExtensionParameterOk (obj_find "parameters" ext)).

Definition normRtpHeaderExtensionParameters : json -> json :=
  on_object (fun ext =>
    let ext := obj_set_if (absent (obj_find "encrypt" ext)) "encrypt" (JBool false) ext in
    obj_set_if (negb (it_is is_object (obj_find "parameters" ext)))
      "parameters" (JObject []) ext).

(** A [parameters] field checked after a default was filled in. *)
Lemma run_parameters `{!ItemCheck f ok} m m1 :
  obj_find "parameters" m1 =
    (if negb (it_is is_object (obj_find "parameters" m)) then Some (JObject [])
     else obj_find "parameters" m) ->
  checks (at_it "parameters" (for_items f)) m1 (parametersOk ok (obj_find "parameters" m)) m1.
Proof.
  intros Hm. unfold parametersOk. split; intros H.
  - apply (at_it_items_ok (ok := ok)). rewrite Hm.
    by destruct (it_is is_object (obj_find "parameters" m)).
  - destruct (at_it_items_throw (f := f) (ok := ok) "parameters" m1) as [msg Hx];
      [| |eauto]; rewrite Hm; by destruct (it_is is_object (obj_find "parameters" m)) eqn:?.
Qed.

#[export] Instance validateRtpHeaderExtensionParameters_contract :
  Validator validateRtpHeaderExtensionParameters acceptsRtpHeaderExtensionParameters
    normRtpHeaderExtensionParameters.
Proof.
  split; intros j; unfold validateRtpHeaderExtensionParameters;
    destruct j as [| | | | | | |m]; try done; run; eauto; rewrite ?it_is_negb;
    unfold absent; lookups; decide_checks;
    match goal with |- context [at_it _ _ (JObject ?m1)] =>
      destruct (run_parameters (ok := headerExtensionParameterOk)
        (f := checkHeaderExtensionParameter) m m1)
        as [Hok Hthrow]; [by lookups; repeat match goal with Hb : it_is _ _ = _ |- _ => rewrite Hb end|]
    end; eauto; intros H; use_conds; eauto.
Qed.

Definition acceptsRtpEncodingParameters : json -> bool :=
  object_with (fun encoding =>
    it_none_or is_number_integer (obj_find "ssrc" encoding) &&
    it_none_or is_nonempty_string (obj_find "rid" encoding) &&
    it_none_or (fun rtx => it_is is_number_integer (find "ssrc" rtx))
      (obj_find "rtx" encoding) &&
    it_none_or is_nonempty_string (obj_find "scalabilityMode" encoding)).

Definition normRtpEncodingParameters : json -> json :=
  on_object (fun encoding =>
    obj_set_if (negb (it_is is_boolean (obj_find "dtx" encoding))) "dtx" (JBool false) encoding).

#[export] Instance validateRtpEncodingParameters_contract :
  Validator validateRtpEncodingParameters acceptsRtpEncodingParameters
    normRtpEncodingParameters.
Proof.
  split; intros j; unfold validateRtpEncodingParameters; destruct j as [| | | | | | |m];
    try done; run; eauto; rewrite ?it_is_negb;
    destruct (it_none_or is_number_integer _); simpl; eauto; try done;
    destruct (it_none_or is_nonempty_string (obj_find "rid" m)); simpl; eauto; try done;
    destruct (obj_find "rtx" m) as [[| | | | | | |rtx]|]; simpl; eauto; try done; run;
    decide_checks.
Qed.

Definition acceptsRtcpParameters : json -> bool :=
  object_with (fun rtcp => it_none_or is_string (obj_find "cname" rtcp)).
Definition normRtcpParameters : json -> json :=
  on_object (fun rtcp =>
    obj_set_if (negb (it_is is_boolean (obj_find "reducedSize" rtcp)))
      "reducedSize" (JBool true) rtcp).

#[export] Instance validateRtcpParameters_contract :
  Validator validateRtcpParameters acceptsRtcpParameters normRtcpParameters.
Proof.
  split; intros j; unfold validateRtcpParameters; destruct j as [| | | | | | |m];
    try done; run; eauto; rewrite ?it_is_negb; intros H; rewrite ?H; run; eauto.
Qed.

Definition acceptsRtpParameters : json -> bool :=
  object_with (fun params =>
    it_none_or is_nonempty_string (obj_find "mid" params) &&
    it_is (array_of acceptsRtpCodecParameters) (obj_find "codecs" params) &&
    it_none_or (array_of acceptsRtpHeaderExtensionParameters)
      (obj_find "headerExtensions" params) &&
    it_none_or (array_of acceptsRtpEncodingParameters) (obj_find "encodings" params) &&
    it_none_or acceptsRtcpParameters (obj_find "rtcp" params)).

Definition normRtcp (m : list (string * json)) : list (string * json) :=
  obj_update "rtcp" normRtcpParameters
    (obj_set_if (absent (obj_find "rtcp" m)) "rtcp" (JObject []) m).

Definition normRtpParameters : json -> json :=
  on_object (fun params =>
    normRtcp
      (normOptionalArray "encodings" normRtpEncodingParameters
        (normOptionalArray "headerExtensions" normRtpHeaderExtensionParameters
          (obj_update "codecs" (map_array normRtpCodecParameters) params)))).

(** The last step of [validateRtpParameters], for an iterator taken before. *)
Lemma run_rtcp it m :
  obj_find "rtcp" m = it ->
  let step :=
    do! (if it_is (negb ∘ is_object) it then
           throw (TypeError "params.rtcp is not an object")
         else when (bool_decide (it = None)) (set_key "rtcp" (JObject []))) in
    at_it "rtcp" validateRtcpParameters in
  checks step m (it_none_or acceptsRtcpParameters it) (normRtcp m).
Proof.
  intros <-. unfold normRtcp, absent. rewrite it_is_negb.
  destruct (obj_find "rtcp" m) as [j|] eqn:E; simpl.
  - destruct (is_object j) eqn:Ha; simpl; run; simpl; split; intros H; run.
    + apply (at_it_ok (accept := acceptsRtcpParameters)). by rewrite E.
    + eapply (at_it_throw (accept := acceptsRtcpParameters) (norm := normRtcpParameters)); 
        rewrite ?E; done.
    + by destruct j.
    + eauto.
  - split; intros H; [|done]. run. apply (at_it_ok (accept := acceptsRtcpParameters)). by lookups.
Qed.

#[export] Instance validateRtpParameters_contract :
  Validator validateRtpParameters acceptsRtpParameters normRtpParameters.
Proof.
  apply validator_of_checks; [intros m|by not_object].
  rewrite it_is_array_of, <- !andb_assoc. unfold validateRtpParameters. start_checks.
  apply checks_optional, checks_require. intros Ha.
  eapply checks_bind; [by apply checks_each|intros _].
  eapply checks_bind; [apply run_optional_array; by lookups|intros _].
  eapply checks_bind; [apply run_optional_array|intros _].
  { rewrite obj_find_normOptionalArray by done. by lookups. }
  apply run_rtcp. rewrite !obj_find_normOptionalArray by done. by lookups.
Qed.

(** ** SCTP *)

Definition integer_at (k : string) (m : list (string * json)) : bool :=
  it_is is_number_integer (obj_find k m).
Definition text_at (k : string) (m : list (string * json)) : bool :=
  it_is is_nonempty_string (obj_find k m).

Definition acceptsNumSctpStreams : json -> bool :=
  object_with (fun numStreams => integer_at "OS" numStreams && integer_at "MIS" numStreams).

#[export] Instance validateNumSctpStreams_contract :
  Validator validateNumSctpStreams acceptsNumSctpStreams (on_object id).
Proof.
  apply validator_of_checks; [intros m|by not_object].
  unfold validateNumSctpStreams. start_checks. step_checks.
Qed.

Definition acceptsSctpCapabilities : json -> bool :=
  object_with (fun caps => it_is acceptsNumSctpStreams (obj_find "numStreams" caps)).

#[export] Instance validateSctpCapabilities_contract :
  Validator validateSctpCapabilities acceptsSctpCapabilities
    (on_object (obj_update "numStreams" (on_object id))).
Proof.
  apply validator_of_checks; [intros m|by not_object].
  unfold validateSctpCapabilities. start_checks.
  apply (checks_eq _ _ (it_is is_object (obj_find "numStreams" m) &&
    it_is acceptsNumSctpStreams (obj_find "numStreams" m))).
  { by destruct (obj_find "numStreams" m) as [[]|]. }
  step_checks. apply checks_at_it. by destruct (obj_find "numStreams" m).
Qed.

Definition acceptsSctpParameters : json -> bool :=
  object_with (fun params =>
    integer_at "port" params && integer_at "OS" params && integer_at "MIS" params &&
    integer_at "maxMessageSize" params).

#[export] Instance validateSctpParameters_contract :
  Validator validateSctpParameters acceptsSctpParameters (on_object id).
Proof.
  apply validator_of_checks; [intros m; rewrite <- !andb_assoc|by not_object].
  unfold validateSctpParameters. start_checks. step_checks.
Qed.

(** At most one of the two reliability limits is given, and none with an explicit
    [ordered: true]. *)
Definition acceptsSctpStreamParameters : json -> bool :=
  object_with (fun params =>
    let lifeTime := negb (absent (obj_find "maxPacketLifeTime" params)) in
    let retransmits := negb (absent (obj_find "maxRetransmits" params)) in
    integer_at "streamId" params && negb (lifeTime && retransmits) &&
    negb (it_is (fun v => json_eq v (JBool true)) (obj_find "ordered" params) &&
          (lifeTime || retransmits))).

(** [ordered] defaults to the absence of both limits. *)
Definition normSctpStreamParameters : json -> json :=
  on_object (fun params =>
    let lifeTimeIt := obj_find "maxPacketLifeTime" params in
    let retransmitsIt := obj_find "maxRetransmits" params in
    let unlimited := absent lifeTimeIt && absent retransmitsIt in
    let params' :=
      obj_set_if (negb (it_is is_number_integer retransmitsIt)) "maxRetransmits" (JUInt 0)
        (obj_set_if (negb (it_is is_number_integer lifeTimeIt)) "maxPacketLifeTime" (JUInt 0)
          (obj_set_if (negb (it_is is_boolean (obj_find "ordered" params))) "ordered"
            (JBool true) params)) in
    let params' :=
      obj_set_if (negb (it_is is_boolean (obj_find "ordered" params)) && negb unlimited)
        "ordered" (JBool false) params' in
    let params' := obj_set_if (negb (it_is is_string (obj_find "label" params)))
                     "label" (JString "") params' in
    obj_set_if (negb (it_is is_string (obj_find "protocol" params)))
      "protocol" (JString "") params').

#[export] Instance validateSctpStreamParameters_contract :
  Validator validateSctpStreamParameters acceptsSctpStreamParameters normSctpStreamParameters.
Proof.
  apply validator_of_checks; [intros m; rewrite <- !andb_assoc|by not_object].
  unfold validateSctpStreamParameters. start_checks. apply checks_require. intros _.
  do 3 apply checks_bind_set_if.
  replace (bool_decide (is_Some (obj_find "maxPacketLifeTime" m)))
    with (negb (absent (obj_find "maxPacketLifeTime" m)))
    by (by destruct (obj_find "maxPacketLifeTime" m)).
  replace (bool_decide (is_Some (obj_find "maxRetransmits" m)))
    with (negb (absent (obj_find "maxRetransmits" m)))
    by (by destruct (obj_find "maxRetransmits" m)).
  eapply checks_bind; [apply checks_throw_if|]. intros _.
  apply checks_get. simpl find. lookups.
  set (lt := absent (obj_find "maxPacketLifeTime" m)).
  set (rt := absent (obj_find "maxRetransmits" m)).
  rewrite (negb_andb lt rt). eapply checks_eq; [apply andb_true_r|].
  eapply checks_bind; [|intros _; step_checks].
  eapply checks_eq; [|apply checks_throw_or_set].
  by destruct (obj_find "ordered" m) as [[]|].
Qed.

(** ** Transport parameters *)

Definition acceptsIceParameters : json -> bool :=
  object_with (fun params => text_at "usernameFragment" params && text_at "password" params).
Definition normIceParameters : json -> json :=
  on_object (fun params =>
    obj_set_if (negb (it_is is_boolean (obj_find "iceLite" params))) "iceLite" (JBool false)
      params).

#[export] Instance validateIceParameters_contract :
  Validator validateIceParameters acceptsIceParameters normIceParameters.
Proof.
  apply validator_of_checks; [intros m|by not_object].
  unfold validateIceParameters. start_checks.
  rewrite <- (andb_true_r (text_at "password" m)). step_checks.
Qed.

Definition acceptsIceCandidate : json -> bool :=
  object_with (fun params =>
    text_at "foundation" params &&
    it_is is_number_unsigned (obj_find "priority" params) &&
    text_at "ip" params && text_at "protocol" params &&
    it_is (string_matches ProtocolRegex) (obj_find "protocol" params) &&
    it_is is_number_unsigned (obj_find "port" params) &&
    text_at "type" params &&
    it_is (string_matches TypeRegex) (obj_find "type" params)).

#[export] Instance validateIceCandidate_contract :
  Validator validateIceCandidate acceptsIceCandidate (on_object id).
Proof.
  apply validator_of_checks; [intros m; rewrite <- !andb_assoc|by not_object].
  unfold validateIceCandidate. start_checks. step_checks.
Qed.

#[export] Instance validateIceCandidates_contract :
  Validator validateIceCandidates (array_of acceptsIceCandidate) (map_array (on_object id)).
Proof.
  split; intros j; unfold validateIceCandidates; destruct j; simpl; try done; eauto;
    intros H; run; [by apply (for_each_ok (accept := acceptsIceCandidate) (norm := on_object id))|].
  by apply (for_each_throw (accept := acceptsIceCandidate) (norm := on_object id)).
Qed.

Definition acceptsDtlsFingerprint : json -> bool :=
  object_with (fun params => text_at "algorithm" params && text_at "value" params).

#[export] Instance validateDtlsFingerprint_contract :
  Validator validateDtlsFingerprint acceptsDtlsFingerprint (on_object id).
Proof.
  apply validator_of_checks; [intros m|by not_object].
  unfold validateDtlsFingerprint. start_checks. step_checks.
Qed.

Definition acceptsDtlsParameters : json -> bool :=
  object_with (fun params =>
    text_at "role" params && it_is (string_matches RoleRegex) (obj_find "role" params) &&
    it_is (fun j => is_array j && negb (empty j)) (obj_find "fingerprints" params) &&
    it_is (array_of acceptsDtlsFingerprint) (obj_find "fingerprints" params)).

#[export] Instance validateDtlsParameters_contract :
  Validator validateDtlsParameters acceptsDtlsParameters
    (on_object (obj_update "fingerprints" (map_array (on_object id)))).
Proof.
  apply validator_of_checks; [intros m; rewrite <- !andb_assoc|by not_object].
  unfold validateDtlsParameters. start_checks. step_checks. apply checks_each.
  by destruct (obj_find "fingerprints" m) as [[]|].
Qed.

Definition acceptsProducerCodecOptions : json -> bool :=
  object_with (fun params =>
    let optional k p := it_none_or p (obj_find k params) in
    optional "opusStereo" is_boolean && optional "opusFec" is_boolean &&
    optional "opusDtx" is_boolean && optional "opusCbr" is_boolean &&
    optional "opusMaxPlaybackRate" is_number_unsigned &&
    optional "opusMaxAverageBitrate" is_number_unsigned &&
    optional "opusPtime" is_number_integer &&
    optional "videoGoogleStartBitrate" is_number_integer &&
    optional "videoGoogleMaxBitrate" is_number_integer &&
    optional "videoGoogleMinBitrate" is_number_integer).

#[export] Instance validateProducerCodecOptions_contract :
  Validator validateProducerCodecOptions acceptsProducerCodecOptions (on_object id).
Proof.
  apply validator_of_checks; [intros m; cbv zeta; rewrite <- !andb_assoc|by not_object].
  unfold validateProducerCodecOptions. start_checks. step_checks.
Qed.

(** * Validated values are stable

    What a validator leaves behind it accepts again and leaves unchanged. *)

Lemma set_if_default p k x m :
  p x = true ->
  obj_set_if (negb (it_is p (obj_find k (obj_set_if (negb (it_is p (obj_find k m))) k x m))))
    k x (obj_set_if (negb (it_is p (obj_find k m))) k x m) =
  obj_set_if (negb (it_is p (obj_find k m))) k x m.
Proof.
  intros Hx. lookups. rewrite String.eqb_refl.
  destruct (it_is p (obj_find k m)) eqn:E; simpl; by rewrite ?E, ?Hx.
Qed.

#[export] Instance normRtcpFeedback_stable : Normalizing acceptsRtcpFeedback normRtcpFeedback.
Proof.
  split; intros [| | | | | | |m]; try done; simpl; intros H.
  - by lookups.
  - intros Hw. by apply json_wf_set_if.
  - intros _. f_equal. by apply set_if_default.
Qed.

#[export] Instance on_object_id_stable accept : Normalizing accept (on_object id).
Proof. split; intros []; done. Qed.

Section CodecTail.
Context (kind : string) (m : list (string * json)).
Hypothesis Hfb : rtcpFeedbackOk (obj_find "rtcpFeedback" m) = true.
Hypothesis Hwf : json_wf (JObject m) = true.

Let m' := normCodecTail (normChannels kind m).

Lemma normCodecTail_find k :
k <> "channels" -> k <> "parameters" -> k <> "rtcpFeedback" ->
obj_find k m' = obj_find k m.
Proof.
intros ? Hp%String.eqb_neq Hf%String.eqb_neq. unfold m', normCodecTail. lookups.
rewrite Hp, Hf. by apply obj_find_normChannels.
Qed.

Lemma normCodecTail_find_channels :
obj_find "channels" m' = obj_find "channels" (normChannels kind m).
Proof. unfold m', normCodecTail. by lookups. Qed.

Lemma normCodecTail_find_parameters :
obj_find "parameters" m' =
if it_is is_object (obj_find "parameters" m) then obj_find "parameters" m
else Some (JObject []).
Proof.
unfold m', normCodecTail. lookups. rewrite obj_find_normChannels by done.
by destruct (it_is is_object (obj_find "parameters" m)).
Qed.

Lemma normCodecTail_find_rtcpFeedback :
obj_find "rtcpFeedback" m' =
map_array normRtcpFeedback <$>
  (if it_is is_array (obj_find "rtcpFeedback" m) then obj_find "rtcpFeedback" m
   else Some (JArray [])).
Proof.
unfold m', normCodecTail. lookups. rewrite obj_find_normChannels by done.
by destruct (it_is is_array (obj_find "rtcpFeedback" m)).
Qed.

Lemma normChannels_wf : json_wf (JObject (normChannels kind m)) = true.
Proof using Hwf.
unfold normChannels. destruct (String.eqb kind "audio"); [by apply json_wf_set_if|].
by apply json_wf_erase.
Qed.

Lemma normCodecTail_wf : json_wf (JObject m') = true.
Proof using Hwf Hfb.
apply json_wf_update; [do 2 (apply json_wf_set_if; [|done]); apply normChannels_wf|].
intros v Hv. lookups in Hv. rewrite obj_find_normChannels in Hv by done.
apply (map_array_wf (accept := acceptsRtcpFeedback)); [apply _|].
unfold rtcpFeedbackOk in Hfb.
by destruct (obj_find "rtcpFeedback" m) as [[]|]; simplify_eq/=.
Qed.

Lemma normCodecTail_idem : normCodecTail (normChannels kind m') = m'.
Proof using Hwf Hfb.
assert (normChannels kind m' = m') as ->.
{ unfold normChannels at 1. destruct (String.eqb kind "audio") eqn:Ek.
  - rewrite normCodecTail_find_channels. unfold normChannels. rewrite Ek. lookups.
    by destruct (it_is is_number_integer (obj_find "channels" m)) eqn:E; simpl; rewrite ?E.
  - apply obj_erase_id. rewrite normCodecTail_find_channels. unfold normChannels.
    rewrite Ek. by lookups. }
unfold normCodecTail at 1. rewrite normCodecTail_find_parameters. lookups.
rewrite normCodecTail_find_rtcpFeedback.
assert (Hp : it_is is_object (if it_is is_object (obj_find "parameters" m)
  then obj_find "parameters" m else Some (JObject [])) = true)
  by (by destruct (it_is is_object (obj_find "parameters" m)) eqn:?).
rewrite Hp. simpl.
assert (Hf : exists l, obj_find "rtcpFeedback" m' = Some (JArray (map normRtcpFeedback l)) /\
  forallb acceptsRtcpFeedback l = true /\ json_wf (JArray l) = true).
{ rewrite normCodecTail_find_rtcpFeedback. unfold rtcpFeedbackOk in Hfb.
  destruct (obj_find "rtcpFeedback" m) as [[| | | | | |l|]|] eqn:E; simpl in *;
    try (by exists []). exists l. split; [done|]. split; [done|].
  by apply (json_wf_find "rtcpFeedback" (JObject m) (JArray l)). }
destruct Hf as (l & Hl & Ha & Hw). rewrite <- normCodecTail_find_rtcpFeedback, Hl. simpl.
apply (obj_update_id _ _ _ _ Hl). 
by apply (map_array_idem (accept := acceptsRtcpFeedback) (norm := normRtcpFeedback) (JArray l)).
Qed.

Lemma normCodecTail_parametersOk :
parametersOk codecParameterOk (obj_find "parameters" m) = true ->
parametersOk codecParameterOk (obj_find "parameters" m') = true.
Proof using Type.
rewrite normCodecTail_find_parameters. unfold parametersOk.
by destruct (it_is is_object (obj_find "parameters" m)) eqn:E; rewrite ?E.
Qed.

Lemma normCodecTail_rtcpFeedbackOk : rtcpFeedbackOk (obj_find "rtcpFeedback" m') = true.
Proof using Hfb.
rewrite normCodecTail_find_rtcpFeedback. unfold rtcpFeedbackOk in *.
destruct (obj_find "rtcpFeedback" m) as [[| | | | | |l|]|]; try done; simpl in *.
by apply (array_of_norm (accept := acceptsRtcpFeedback) (norm := normRtcpFeedback) (JArray l)).
Qed.
End CodecTail.

#[export] Instance normRtpCodecCapability_stable :
  Normalizing acceptsRtpCodecCapability normRtpCodecCapability.
Proof.
  split; intros [| | | | | | |m]; try done; simpl; rewrite <- !andb_assoc, ?andb_true_iff;
    intros (Hm & Hpt & Hc & Hp & Hf); set (kind := mimeKind (obj_find "mimeType" m));
    set (m1 := obj_insert "kind" (JString kind) m);
    assert (Hf1 : rtcpFeedbackOk (obj_find "rtcpFeedback" m1) = true) by (by unfold m1; lookups);
    assert (Hp1 : parametersOk codecParameterOk (obj_find "parameters" m1) = true)
      by (by unfold m1; lookups).
  - rewrite normCodecTail_rtcpFeedbackOk, normCodecTail_parametersOk by done.
    rewrite !normCodecTail_find by done. unfold m1. lookups. auto.
  - intros Hw. apply normCodecTail_wf; [done|]. by apply json_wf_insert.
  - intros Hw. assert (Hw1 : json_wf (JObject m1) = true) by (by apply json_wf_insert).
    rewrite !normCodecTail_find by done.
    replace (obj_find "mimeType" m1) with (obj_find "mimeType" m) by (by unfold m1; lookups).
    fold kind.
    rewrite obj_insert_id; [by rewrite normCodecTail_idem| |].
    + by apply (json_wf_object (normCodecTail _)), normCodecTail_wf.
    + rewrite normCodecTail_find by done. unfold m1. by lookups.
Qed.

#[export] Instance normRtpHeaderExtension_stable :
  Normalizing acceptsRtpHeaderExtension normRtpHeaderExtension.
Proof.
  split; intros [| | | | | | |m]; try done; simpl; rewrite <- !andb_assoc, ?andb_true_iff;
    intros (Hk & Hu & Hi & He & Hd).
  - lookups. rewrite Hk, Hu, Hi. unfold absent.
    destruct (obj_find "preferredEncrypt" m), (obj_find "direction" m); simpl; auto.
  - intros Hw. by do 2 (apply json_wf_set_if; [|done]).
  - intros _. f_equal. unfold absent. lookups.
    destruct (obj_find "preferredEncrypt" m) eqn:E1, (obj_find "direction" m) eqn:E2; 
      simpl; lookups; by rewrite ?E1, ?E2.
Qed.

Section OptionalArray.
Context `{!Normalizing accept norm} (k : string) (m : list (string * json)).
Hypothesis Hk : it_none_or (array_of accept) (obj_find k m) = true.
Hypothesis Hwf : json_wf (JObject m) = true.

(** Afterwards the field is an array of normalised elements. *)
Lemma normOptionalArray_find :
exists l, obj_find k (normOptionalArray k norm m) = Some (JArray (map norm l)) /\
  forallb accept l = true /\ json_wf (JArray l) = true.
Proof using Hk Hwf.
unfold normOptionalArray, absent. lookups. rewrite String.eqb_refl.
destruct (obj_find k m) as [[| | | | | |l|]|] eqn:E; simpl in *; try done; [|by exists []].
exists l. split_and!; [done..|]. by apply (json_wf_find k (JObject m) (JArray l)).
Qed.

Lemma normOptionalArray_accept :
it_none_or (array_of accept) (obj_find k (normOptionalArray k norm m)) = true.
Proof using Hk Normalizing0.
unfold normOptionalArray, absent. lookups. rewrite String.eqb_refl.
destruct (obj_find k m) as [j|]; simpl in *; [|done]. by apply array_of_norm.
Qed.

Lemma normOptionalArray_wf : json_wf (JObject (normOptionalArray k norm m)) = true.
Proof using Hk Hwf Normalizing0.
apply json_wf_update; [by apply json_wf_set_if|]. intros v Hv ?.
apply (map_array_wf (accept := accept)); [apply _| |done].
lookups in Hv. rewrite String.eqb_refl in Hv. unfold absent in Hv.
by destruct (obj_find k m) as [j|]; simplify_eq/=.
Qed.

(** Any later value with the same field is left unchanged. *)
Lemma normOptionalArray_idem m2 :
obj_find k m2 = obj_find k (normOptionalArray k norm m) -> normOptionalArray k norm m2 = m2.
Proof using Hk Hwf Normalizing0.
destruct normOptionalArray_find as (l & Hl & Ha & Hw). rewrite Hl. intros H2.
unfold normOptionalArray, absent. rewrite H2. simpl. apply (obj_update_id _ _ _ _ H2).
by apply (map_array_idem (accept := accept) (norm := norm) (JArray l)).
Qed.
End OptionalArray.

#[export] Instance normRtpCapabilities_stable :
  Normalizing acceptsRtpCapabilities normRtpCapabilities.
Proof.
  split; intros [| | | | | | |m]; try done; simpl; rewrite andb_true_iff; intros [Hc He];
    set (m1 := normOptionalArray "codecs" _ m);
    assert (He1 : it_none_or (array_of acceptsRtpHeaderExtension)
      (obj_find "headerExtensions" m1) = true)
      by (unfold m1; by rewrite obj_find_normOptionalArray).
  - rewrite obj_find_normOptionalArray by done.
    apply andb_true_iff. split; by apply normOptionalArray_accept.
  - intros Hw. apply (normOptionalArray_wf (accept := acceptsRtpHeaderExtension)); [done|].
    by apply (normOptionalArray_wf (accept := acceptsRtpCodecCapability)).
  - intros Hw. f_equal.
    assert (Hw1 : json_wf (JObject m1) = true)
      by (by apply (normOptionalArray_wf (accept := acceptsRtpCodecCapability))).
    rewrite (normOptionalArray_idem (accept := acceptsRtpCodecCapability) "codecs" m)
      by (done || by apply obj_find_normOptionalArray).
    by rewrite (normOptionalArray_idem (accept := acceptsRtpHeaderExtension) "headerExtensions" m1).
Qed.

#[export] Instance normRtpCodecParameters_stable :
  Normalizing acceptsRtpCodecParameters normRtpCodecParameters.
Proof.
  split; intros [| | | | | | |m]; try done; simpl; rewrite <- !andb_assoc, ?andb_true_iff;
    intros (Hm & Hpt & Hc & Hp & Hf).
  - rewrite normCodecTail_rtcpFeedbackOk, normCodecTail_parametersOk by done.
    rewrite !normCodecTail_find by done. auto.
  - intros Hw. by apply normCodecTail_wf.
  - intros Hw. rewrite !normCodecTail_find by done. by rewrite normCodecTail_idem.
Qed.

#[export] Instance normRtpHeaderExtensionParameters_stable :
  Normalizing acceptsRtpHeaderExtensionParameters normRtpHeaderExtensionParameters.
Proof.
  split; intros [| | | | | | |m]; try done; simpl; rewrite <- !andb_assoc, ?andb_true_iff;
    intros (Hu & Hi & He & Hp); unfold absent.
  - lookups. rewrite Hu, Hi. destruct (obj_find "encrypt" m); simpl; rewrite ?He; simpl;
      unfold parametersOk in *; by destruct (it_is is_object (obj_find "parameters" m)) eqn:E;
      simpl; rewrite ?E.
  - intros Hw. by do 2 (apply json_wf_set_if; [|done]).
  - intros _. f_equal. lookups.
    destruct (obj_find "encrypt" m) eqn:E1, (it_is is_object (obj_find "parameters" m)) eqn:E2;
      simpl; lookups; by rewrite ?E1, ?E2.
Qed.

#[export] Instance normRtpEncodingParameters_stable :
  Normalizing acceptsRtpEncodingParameters normRtpEncodingParameters.
Proof.
  split; intros [| | | | | | |m]; try done; simpl.
  - by lookups.
  - intros _ Hw. by apply json_wf_set_if.
  - intros _ _. f_equal. by apply set_if_default.
Qed.

#[export] Instance normRtcpParameters_stable : Normalizing acceptsRtcpParameters normRtcpParameters.
Proof.
  split; intros [| | | | | | |m]; try done; simpl.
  - by lookups.
  - intros _ Hw. by apply json_wf_set_if.
  - intros _ _. f_equal. by apply set_if_default.
Qed.

Section Rtcp.
Context (m : list (string * json)).
Hypothesis Hr : it_none_or acceptsRtcpParameters (obj_find "rtcp" m) = true.

Lemma normRtcp_find k : k <> "rtcp" -> obj_find k (normRtcp m) = obj_find k m.
Proof. intros Hk%String.eqb_neq. unfold normRtcp. lookups. by rewrite Hk. Qed.

Lemma normRtcp_accept : it_none_or acceptsRtcpParameters (obj_find "rtcp" (normRtcp m)) = true.
Proof using Hr.
unfold normRtcp, absent. lookups.
destruct (obj_find "rtcp" m) as [j|]; simpl in *; [|done]. by apply norm_accept.
Qed.

Hypothesis Hwf : json_wf (JObject m) = true.

Lemma normRtcp_wf : json_wf (JObject (normRtcp m)) = true.
Proof using Hr Hwf.
apply json_wf_update; [by apply json_wf_set_if|]. unfold absent. lookups. intros v Hv ?.
apply (norm_wf (accept := acceptsRtcpParameters)); [|done].
by destruct (obj_find "rtcp" m) as [j|]; simplify_eq/=.
Qed.

Lemma normRtcp_idem : normRtcp (normRtcp m) = normRtcp m.
Proof using Hr Hwf.
assert (exists j, obj_find "rtcp" (normRtcp m) = Some (normRtcpParameters j) /\
  acceptsRtcpParameters j = true /\ json_wf j = true) as (j & Hj & Ha & Hw).
{ unfold normRtcp, absent. lookups.
  destruct (obj_find "rtcp" m) as [j|] eqn:E; simpl in *; [|by exists (JObject [])].
  exists j. split_and!; [done..|]. by apply (json_wf_find "rtcp" (JObject m)). }
unfold normRtcp at 1, absent. rewrite Hj. simpl. apply (obj_update_id _ _ _ _ Hj).
by apply (norm_idem (accept := acceptsRtcpParameters)).
Qed.
End Rtcp.

(** The fields of validated RTP parameters. *)
Section RtpParameters.
Context (m : list (string * json)).
Hypothesis Hacc : acceptsRtpParameters (JObject m) = true.

Let m1 := obj_update "codecs" (map_array normRtpCodecParameters) m.
Let m2 := normOptionalArray "headerExtensions" normRtpHeaderExtensionParameters m1.
Let m3 := normOptionalArray "encodings" normRtpEncodingParameters m2.
Let m4 := normRtcp m3.

Local Ltac skip_steps :=
unfold m4, m3, m2, m1; rewrite ?normRtcp_find by done;
rewrite ?obj_find_normOptionalArray by done; by lookups.

Lemma normRtpParameters_mid : obj_find "mid" m4 = obj_find "mid" m.
Proof. skip_steps. Qed.
Lemma normRtpParameters_codecs :
obj_find "codecs" m4 = map_array normRtpCodecParameters <$> obj_find "codecs" m.
Proof. skip_steps. Qed.
Lemma normRtpParameters_headerExtensions :
obj_find "headerExtensions" m4 = obj_find "headerExtensions" m2.
Proof. skip_steps. Qed.
Lemma normRtpParameters_encodings : obj_find "encodings" m4 = obj_find "encodings" m3.
Proof. skip_steps. Qed.

Lemma acceptsRtpParameters_steps :
it_is (array_of acceptsRtpCodecParameters) (obj_find "codecs" m) = true /\
it_none_or (array_of acceptsRtpHeaderExtensionParameters)
  (obj_find "headerExtensions" m1) = true /\
it_none_or (array_of acceptsRtpEncodingParameters) (obj_find "encodings" m2) = true /\
it_none_or acceptsRtcpParameters (obj_find "rtcp" m3) = true.
Proof using Hacc.
simpl in Hacc. rewrite <- !andb_assoc, !andb_true_iff in Hacc.
destruct Hacc as (_ & ? & ? & ? & ?). split_and!; [done|skip_steps..].
Qed.

Lemma normRtpParameters_accepted : acceptsRtpParameters (JObject m4) = true.
Proof using Hacc.
pose proof Hacc as Ha. simpl in Ha. rewrite <- !andb_assoc, !andb_true_iff in Ha.
destruct Ha as (Hm & _). destruct acceptsRtpParameters_steps as (Hc & Hx & He & Hr).
simpl. rewrite normRtpParameters_mid, normRtpParameters_codecs,
  normRtpParameters_headerExtensions, normRtpParameters_encodings.
unfold m4. rewrite normRtcp_accept, Hm by done. unfold m3. 
rewrite normOptionalArray_accept by done. unfold m2. rewrite normOptionalArray_accept by done.
rewrite !andb_true_r. simpl. destruct (obj_find "codecs" m) as [j|]; [|done].
by apply (array_of_norm (accept := acceptsRtpCodecParameters)); [apply _|].
Qed.

Hypothesis Hwf : json_wf (JObject m) = true.

Lemma normRtpParameters_steps_wf :
json_wf (JObject m1) = true /\ json_wf (JObject m2) = true /\ json_wf (JObject m3) = true.
Proof using Hacc Hwf.
destruct acceptsRtpParameters_steps as (Hc & Hx & He & Hr).
assert (H1 : json_wf (JObject m1) = true).
{ apply json_wf_update; [done|]. intros v Hv ?. rewrite Hv in Hc.
  by apply (map_array_wf (accept := acceptsRtpCodecParameters)); [apply _|..]. }
assert (H2 : json_wf (JObject m2) = true).
{ by apply (normOptionalArray_wf (accept := acceptsRtpHeaderExtensionParameters)). }
split_and!; [done..|].
by apply (normOptionalArray_wf (accept := acceptsRtpEncodingParameters)).
Qed.

Lemma normRtpParameters_fixed : normRtpParameters (JObject m4) = JObject m4.
Proof using Hacc Hwf.
destruct acceptsRtpParameters_steps as (Hc & Hx & He & Hr).
destruct normRtpParameters_steps_wf as (H1 & H2 & H3). simpl. f_equal.
destruct (obj_find "codecs" m) as [j|] eqn:Ej; [simpl in Hc|done].
rewrite (obj_update_id "codecs" _ m4 (map_array normRtpCodecParameters j)).
- rewrite (normOptionalArray_idem (accept := acceptsRtpHeaderExtensionParameters)
    "headerExtensions" m1), (normOptionalArray_idem
    (accept := acceptsRtpEncodingParameters) "encodings" m2)
    by (done || apply normRtpParameters_headerExtensions || apply normRtpParameters_encodings).
  by apply normRtcp_idem.
- by rewrite normRtpParameters_codecs, Ej.
- apply (map_array_idem (accept := acceptsRtpCodecParameters)); [apply _|done|].
  by apply (json_wf_find "codecs" (JObject m)).
Qed.
End RtpParameters.

#[export] Instance normRtpParameters_stable : Normalizing acceptsRtpParameters normRtpParameters.
Proof.
  split; intros [| | | | | | |m]; try done; intros Ha.
  - by apply normRtpParameters_accepted.
  - intros Hw. apply normRtcp_wf; [by apply acceptsRtpParameters_steps|].
    by apply normRtpParameters_steps_wf.
  - intros Hw. by apply normRtpParameters_fixed.
Qed.
