(* ===== verification/OrtcValidated.v ===== *)
(** What the validators of ortc.cpp establish: the meaning of their patterns, what
    a returned codec, SCTP stream or transport description looks like, and which
    validators accept their own result. *)
From S2P Require Import Prelude Json Regex Validator OrtcValidate OrtcContracts.

(** * Properties of the validators *)

(** ** The patterns *)

(** [r] matches the whole of [s]. *)
Definition matches_all (n : nat) (r : regex) (s : string) : Prop := exists c, rel n r s [] "" c.

Lemma matches_spec r s : matches r s = true <-> matches_all (String.length s) r s.
Proof. unfold matches. rewrite bool_decide_eq_true. apply regex_match_spec. Qed.

Lemma matches_all_lit_i n w s : matches_all n (lit_i w) s <-> tolower s = tolower w.
Proof.
  unfold matches_all. setoid_rewrite rel_lit_i. split.
  - intros (c & -> & w' & -> & ?). by rewrite str_app_nil_r.
  - intros ?. exists []. split; [done|]. exists s. by rewrite str_app_nil_r.
Qed.
Lemma matches_all_alt n r1 r2 s :
  matches_all n (RAlt r1 r2) s <-> matches_all n r1 s \/ matches_all n r2 s.
Proof. unfold matches_all. setoid_rewrite rel_alt_inv. firstorder. Qed.
Lemma matches_all_group n i r s : matches_all n (RGroup i r) s <-> matches_all n r s.
Proof. unfold matches_all. setoid_rewrite rel_group_inv. firstorder eauto. Qed.

Ltac literal_alternatives :=
  rewrite matches_spec, matches_all_group, ?matches_all_alt, !matches_all_lit_i; done.

Lemma ProtocolRegex_spec s :
  matches ProtocolRegex s = true <-> tolower s = "udp" \/ tolower s = "tcp".
Proof. unfold ProtocolRegex. literal_alternatives. Qed.
Lemma TypeRegex_spec s :
  matches TypeRegex s = true <->
  tolower s = "host" \/ tolower s = "srflx" \/ tolower s = "prflx" \/ tolower s = "relay".
Proof. unfold TypeRegex. literal_alternatives. Qed.
Lemma RoleRegex_spec s :
  matches RoleRegex s = true <->
  tolower s = "auto" \/ tolower s = "client" \/ tolower s = "server".
Proof. unfold RoleRegex. literal_alternatives. Qed.

(** The MIME type pattern: the two groups are the texts around a slash. *)
Lemma MimeTypeRegex_match s c :
  regex_match MimeTypeRegex s = Some c ->
  s = sub 1 c +:+ "/" +:+ sub 2 c /\
  (tolower (sub 1 c) = "audio" \/ tolower (sub 1 c) = "video") /\
  sub 2 c <> "" /\ all_chars is_dot (sub 2 c) = true.
Proof.
  intros H%regex_match_rel. unfold MimeTypeRegex in H.
  apply rel_seq_inv in H as (? & ? & (-> & -> & _)%rel_bol_inv & H).
  apply rel_seq_inv in H as (s1 & ? & (c1 & Hk & ->)%rel_group_inv & H).
  apply rel_seq_inv in H as (s2 & c2 & (-> & w & -> & Hw)%rel_lit_i & H).
  apply rel_group_inv in H as (c3 & (-> & w2 & -> & Hne & Hd)%rel_plus_class & ->).
  rewrite !str_app_nil_r in *.
  assert (w = "/") as ->.
  { destruct w as [|a [|b w]]; try done. simpl in Hw. injection Hw as Hw.
    destruct a as [[] [] [] [] [] [] [] []]; try done; discriminate Hw. }
  assert (exists w1, s = w1 +:+ "/" +:+ w2 /\ c1 = [] /\
    (tolower w1 = "audio" \/ tolower w1 = "video")) as (w1 & -> & -> & Hw1).
  { apply rel_alt_inv in Hk as [Hk|Hk]; apply rel_lit_i in Hk as (-> & w1 & -> & Hk);
      exists w1; auto. }
  simpl. unfold sub. simpl. rewrite !consumed_app.
  replace (consumed w2 "") with w2; [done|]. 
  rewrite <- (consumed_app w2 "") at 1. by rewrite str_app_nil_r.
Qed.

Lemma MimeTypeRegex_spec s :
  matches MimeTypeRegex s = true <->
  exists kind subtype, s = kind +:+ "/" +:+ subtype /\
    (tolower kind = "audio" \/ tolower kind = "video") /\
    subtype <> "" /\ all_chars is_dot subtype = true.
Proof.
  split.
  - unfold matches. rewrite bool_decide_eq_true. intros [c (? & ? & ? & ?)%MimeTypeRegex_match].
    eauto 10.
  - intros (kind & subtype & -> & Hk & Hne & Hd). apply matches_spec. eexists.
    apply rel_seq_inv. do 2 eexists. split; [by apply rel_bol_inv|].
    apply rel_seq_inv. do 2 eexists. split.
    { apply rel_group_inv. eexists. split; [|done]. apply rel_alt_inv.
      destruct Hk; [left|right]; apply rel_lit_i; (split; [done|]);
        by exists kind. }
    apply rel_seq_inv. exists subtype. eexists. split.
    { apply rel_lit_i. split; [done|]. by exists "/". }
    apply rel_group_inv. eexists. split; [|done]. apply rel_plus_class. split; [done|].
    exists subtype. by rewrite str_app_nil_r.
Qed.

(** ** Capabilities *)

(** What a run of a validator may do, given which values it accepts and what it
    makes of them. *)
Definition meets (v : M json unit) (accept : json -> bool) (norm : json -> json) (j : json) : Prop :=
  match v j with
  | (Ok _, j') => accept j = true /\ j' = norm j
  | (Throw e, _) => accept j = false /\ exists msg, e = TypeError msg
  | (Undef, _) => False
  end.

Lemma contract_meets `{!Validator v accept norm} j : meets v accept norm j.
Proof.
  unfold meets. destruct (accept j) eqn:E.
  - by rewrite (validator_ok j E).
  - destruct (validator_throw j E) as (msg & j1 & ->). eauto.
Qed.

(** C36.  [ortc::validateRtpCapabilities] on any JSON value: it returns exactly for
    the capabilities described by [acceptsRtpCapabilities], leaving their normal
    form behind; for any other value it throws a MediaSoupClientTypeError.  No
    other exception escapes and no undefined behaviour is reached. *)
Theorem validateRtpCapabilities_correct (caps : json) :
  meets validateRtpCapabilities acceptsRtpCapabilities normRtpCapabilities caps.
Proof. apply contract_meets. Qed.

(** C37.  [ortc::validateRtpParameters] on any JSON value: returns exactly for the
    parameters described by [acceptsRtpParameters] with their normal form, and
    throws a MediaSoupClientTypeError otherwise. *)
Theorem validateRtpParameters_correct (params : json) :
  meets validateRtpParameters acceptsRtpParameters normRtpParameters params.
Proof. apply contract_meets. Qed.

(** C38.  Validating capabilities and RTP parameters is idempotent: a value that
    one run returned is accepted by a second run, which leaves it unchanged. *)
Theorem validate_idempotent (j j' : json) (Hj : json_wf j = true) :
  (validateRtpCapabilities j = (Ok tt, j') -> validateRtpCapabilities j' = (Ok tt, j')) /\
  (validateRtpParameters j = (Ok tt, j') -> validateRtpParameters j' = (Ok tt, j')).
Proof.
  split; intros H.
  - by apply (validator_idem (accept := acceptsRtpCapabilities) (norm := normRtpCapabilities) j); [apply _|..].
  - by apply (validator_idem (accept := acceptsRtpParameters) (norm := normRtpParameters) j); [apply _|..].
Qed.

Lemma validate_idempotent_witness :
  json_wf (jobj [("codecs", JArray [jobj [("clockRate", JInt 48000);
    ("mimeType", JString "audio/opus")]])]) = true /\
  validateRtpCapabilities (normRtpCapabilities (jobj [("codecs",
    JArray [jobj [("clockRate", JInt 48000); ("mimeType", JString "audio/opus")]])])) =
  (Ok tt, jobj [("codecs", JArray [jobj [("channels", JInt 1); ("clockRate", JInt 48000);
    ("kind", JString "audio"); ("mimeType", JString "audio/opus"); ("parameters", JObject []);
    ("rtcpFeedback", JArray [])]]); ("headerExtensions", JArray [])]).
Proof.
  split; [by vm_compute|].
  destruct (validate_idempotent (jobj [("codecs", JArray [jobj [("clockRate", JInt 48000);
    ("mimeType", JString "audio/opus")]])])
    (jobj [("codecs", JArray [jobj [("channels", JInt 1); ("clockRate", JInt 48000);
      ("kind", JString "audio"); ("mimeType", JString "audio/opus"); ("parameters", JObject []);
      ("rtcpFeedback", JArray [])]]); ("headerExtensions", JArray [])])) as [H _];
    [by vm_compute|]. apply H. by vm_compute.
Defined.

(** An RTCP feedback entry with both of its fields. *)
Definition completeRtcpFeedback : json -> bool :=
  object_with (fun fb =>
    it_is is_string (obj_find "type" fb) && it_is is_string (obj_find "parameter" fb)).

Lemma normRtcpFeedback_complete fb :
  acceptsRtcpFeedback fb = true -> completeRtcpFeedback (normRtcpFeedback fb) = true.
Proof.
  destruct fb as [| | | | | | |m]; try done. simpl. intros H. lookups. rewrite H. simpl.
  by destruct (it_is is_string (obj_find "parameter" m)) eqn:E; simpl; rewrite ?E.
Qed.

(** What the rest of the library may read of a codec the validators let through:
    the media kind is the text before the slash of the MIME type, [channels] is
    there exactly for the kind [audio], [parameters] is an object and
    [rtcpFeedback] an array of complete entries. *)
Definition codec_ready (kind : string) (codec : json) : Prop :=
  it_is is_number_integer (find "clockRate" codec) = true /\
  (kind = "audio" -> it_is is_number_integer (find "channels" codec) = true) /\
  (kind <> "audio" -> find "channels" codec = None) /\
  it_is is_object (find "parameters" codec) = true /\
  it_is (array_of completeRtcpFeedback) (find "rtcpFeedback" codec) = true.

Lemma normCodecTail_ready kind m :
  it_is is_number_integer (obj_find "clockRate" m) = true ->
  rtcpFeedbackOk (obj_find "rtcpFeedback" m) = true ->
  codec_ready kind (JObject (normCodecTail (normChannels kind m))).
Proof.
  intros Hc Hf. unfold codec_ready. simpl. split_and!.
  - by rewrite normCodecTail_find.
  - intros ->. rewrite normCodecTail_find_channels. unfold normChannels. simpl. lookups.
    by destruct (it_is is_number_integer (obj_find "channels" m)) eqn:E; simpl; rewrite ?E.
  - intros Hk%String.eqb_neq. rewrite normCodecTail_find_channels. unfold normChannels.
    rewrite Hk. by lookups.
  - rewrite normCodecTail_find_parameters.
    by destruct (it_is is_object (obj_find "parameters" m)) eqn:E.
  - rewrite normCodecTail_find_rtcpFeedback. unfold rtcpFeedbackOk in Hf.
    destruct (obj_find "rtcpFeedback" m) as [[| | | | | |l|]|]; try done. simpl in *.
    rewrite forallb_forall in *. intros x. rewrite in_map_iff.
    intros (y & <- & ?). by apply normRtcpFeedback_complete, Hf.
Qed.

(** The same for a MIME type the pattern accepts. *)
Lemma mimeTypeOk_split it :
  mimeTypeOk it = true ->
  exists subtype, it = Some (JString (mimeKind it +:+ "/" +:+ subtype)) /\ subtype <> "" /\
    (tolower (mimeKind it) = "audio" \/ tolower (mimeKind it) = "video").
Proof.
  destruct it as [[| | | | |s| |]|]; try done. simpl. unfold matches.
  rewrite bool_decide_eq_true. intros [c Hc]. rewrite Hc.
  apply MimeTypeRegex_match in Hc as (-> & Hk & Hne & _). eauto.
Qed.

(**  A codec that [validateRtpCodecCapability] returned: its MIME type splits
    at a slash into a media kind (audio or video, up to case) and a non-empty
    subtype, its [kind] field is that media kind, and the remaining fields are
    ready to be read without further checks. *)
Theorem validateRtpCodecCapability_ready (codec codec' : json) :
  validateRtpCodecCapability codec = (Ok tt, codec') ->
  exists kind subtype,
    find "mimeType" codec' = Some (JString (kind +:+ "/" +:+ subtype)) /\ subtype <> "" /\
    (tolower kind = "audio" \/ tolower kind = "video") /\
    find "kind" codec' = Some (JString kind) /\ codec_ready kind codec'.
Proof.
  intros [Ha ->]%(validator_ok_iff (accept := acceptsRtpCodecCapability)
    (norm := normRtpCodecCapability)).
  destruct codec as [| | | | | | |m]; try done. simpl in Ha.
  rewrite <- !andb_assoc, !andb_true_iff in Ha. destruct Ha as (Hm & _ & Hc & Hp & Hf).
  destruct (mimeTypeOk_split _ Hm) as (subtype & Hs & Hne & Hk).
  exists (mimeKind (obj_find "mimeType" m)), subtype. simpl.
  rewrite !normCodecTail_find by done. lookups. split_and!; try done.
  apply normCodecTail_ready; by lookups.
Qed.

Lemma validateRtpCodecCapability_ready_witness :
  exists kind subtype,
    find "mimeType" (normRtpCodecCapability (jobj [("clockRate", JInt 90000);
      ("channels", JInt 2); ("mimeType", JString "video/VP8")])) =
      Some (JString (kind +:+ "/" +:+ subtype)) /\ kind = "video" /\ subtype = "VP8".
Proof.
  destruct (validateRtpCodecCapability_ready (jobj [("clockRate", JInt 90000);
    ("channels", JInt 2); ("mimeType", JString "video/VP8")])
    (normRtpCodecCapability (jobj [("clockRate", JInt 90000);
      ("channels", JInt 2); ("mimeType", JString "video/VP8")])))
    as (kind & subtype & Hm & _ & _ & Hk & _); [by vm_compute|].
  vm_compute in Hk. injection Hk as <-. exists "video", subtype. split; [done|].
  split; [done|]. vm_compute in Hm. by injection Hm.
Defined.

(** Two splits of a MIME type at a slash after a media kind are the same. *)
Lemma mime_split_unique a b s t :
  String.length a = String.length b -> a +:+ "/" +:+ s = b +:+ "/" +:+ t -> a = b.
Proof. intros Hl H. by apply str_app_inj in H as [? _]. Qed.

Lemma media_kind_length kind :
  tolower kind = "audio" \/ tolower kind = "video" -> String.length kind = 5%nat.
Proof. rewrite <- tolower_length. by intros [-> | ->]. Qed.

(**  The media kind keeps the case of the MIME type: a codec given as
    [AUDIO/opus] passes validation, but with the kind [AUDIO] and, not being
    taken for audio, without the channel count it was given. *)
Theorem validateRtpCodecCapability_keeps_case (m : list (string * json)) (kind subtype : string)
    (Hok : acceptsRtpCodecCapability (JObject m) = true)
    (Hm : obj_find "mimeType" m = Some (JString (kind +:+ "/" +:+ subtype)))
    (Hk : kind <> "audio") (Hl : tolower kind = "audio") :
  exists codec', validateRtpCodecCapability (JObject m) = (Ok tt, codec') /\
    find "kind" codec' = Some (JString kind) /\ find "channels" codec' = None.
Proof.
  exists (normRtpCodecCapability (JObject m)). split; [by apply validator_ok|].
  simpl in Hok. rewrite <- !andb_assoc, !andb_true_iff in Hok. destruct Hok as (Hmt & _).
  destruct (mimeTypeOk_split _ Hmt) as (sub' & Hs & _ & Hmk). simpl.
  assert (mimeKind (obj_find "mimeType" m) = kind) as ->.
  { rewrite Hm in Hs at 1. injection Hs as Hs. symmetry. apply (mime_split_unique _ _ subtype sub'); [|exact Hs].
    rewrite (media_kind_length _ Hmk). apply media_kind_length. auto. }
  rewrite normCodecTail_find by done. lookups. split; [done|].
  rewrite normCodecTail_find_channels. unfold normChannels.
  apply String.eqb_neq in Hk. rewrite Hk. by lookups.
Qed.

Lemma validateRtpCodecCapability_keeps_case_witness :
  exists codec', validateRtpCodecCapability (jobj [("channels", JInt 2);
    ("clockRate", JInt 48000); ("mimeType", JString "AUDIO/opus")]) = (Ok tt, codec') /\
    find "kind" codec' = Some (JString "AUDIO") /\ find "channels" codec' = None.
Proof.
  apply (validateRtpCodecCapability_keeps_case [("channels", JInt 2);
    ("clockRate", JInt 48000); ("mimeType", JString "AUDIO/opus")] "AUDIO" "opus");
    done || by vm_compute.
Defined.

(** ** SCTP streams *)

Lemma normSctpStreamParameters_find m k :
  k <> "ordered" -> k <> "maxPacketLifeTime" -> k <> "maxRetransmits" -> k <> "label" ->
  k <> "protocol" -> find k (normSctpStreamParameters (JObject m)) = obj_find k m.
Proof.
  intros H1%String.eqb_neq H2%String.eqb_neq H3%String.eqb_neq H4%String.eqb_neq
    H5%String.eqb_neq. simpl. lookups. by rewrite H1, H2, H3, H4, H5.
Qed.

(**  [validateSctpStreamParameters] on any value: it rejects parameters with
    both limits, or with a limit and an explicit [ordered: true]; what it returns
    has every field, both limits are integers, and the stream is ordered exactly
    when it was asked to be, or was not told and no limit was given. *)
Theorem validateSctpStreamParameters_correct (params : json) :
  meets validateSctpStreamParameters acceptsSctpStreamParameters normSctpStreamParameters params /\
  (acceptsSctpStreamParameters params = true ->
   let params' := normSctpStreamParameters params in
   let given k := negb (absent (find k params)) in
   it_is is_number_integer (find "streamId" params') = true /\
   it_is is_number_integer (find "maxPacketLifeTime" params') = true /\
   it_is is_number_integer (find "maxRetransmits" params') = true /\
   it_is is_string (find "label" params') = true /\
   it_is is_string (find "protocol" params') = true /\
   given "maxPacketLifeTime" && given "maxRetransmits" = false /\
   find "ordered" params' =
     Some (JBool (match find "ordered" params with
                  | Some (JBool b) => b
                  | _ => negb (given "maxPacketLifeTime" || given "maxRetransmits")
                  end))).
Proof.
  split; [apply contract_meets|]. destruct params as [| | | | | | |m]; try done. simpl.
  rewrite !andb_true_iff. intros [[Hs Hb%negb_true_iff] Ho]. lookups.
  split_and!; try done.
  - by destruct (it_is is_number_integer (obj_find "maxPacketLifeTime" m)) eqn:E; simpl; rewrite ?E.
  - by destruct (it_is is_number_integer (obj_find "maxRetransmits" m)) eqn:E; simpl; rewrite ?E.
  - by destruct (it_is is_string (obj_find "label" m)) eqn:E; simpl; rewrite ?E.
  - by destruct (it_is is_string (obj_find "protocol" m)) eqn:E; simpl; rewrite ?E.
  - unfold absent in *.
    destruct (obj_find "ordered" m) as [[]|] eqn:E; simpl; try done;
      by destruct (obj_find "maxPacketLifeTime" m), (obj_find "maxRetransmits" m).
Qed.

(** Unlike the RTP validators, [validateSctpStreamParameters] never accepts
    its own result: it fills in both limits with 0, and a second run takes them
    for given. *)
Theorem validateSctpStreamParameters_not_repeatable (params params' : json) :
  validateSctpStreamParameters params = (Ok tt, params') ->
  exists msg params'', validateSctpStreamParameters params' = (Throw (TypeError msg), params'').
Proof.
  intros [Ha ->]%(validator_ok_iff (accept := acceptsSctpStreamParameters)
    (norm := normSctpStreamParameters)).
  apply (validator_throw (accept := acceptsSctpStreamParameters)
    (norm := normSctpStreamParameters)).
  destruct params as [| | | | | | |m]; try done. simpl. lookups. unfold absent.
  destruct (obj_find "maxPacketLifeTime" m) as [[]|], (obj_find "maxRetransmits" m) as [[]|];
    simpl; by rewrite andb_false_r.
Qed.

Lemma validateSctpStreamParameters_not_repeatable_witness :
  exists msg params'', validateSctpStreamParameters
    (normSctpStreamParameters (jobj [("streamId", JInt 1); ("maxRetransmits", JInt 3)])) =
    (Throw (TypeError msg), params'').
Proof.
  apply (validateSctpStreamParameters_not_repeatable
    (jobj [("streamId", JInt 1); ("maxRetransmits", JInt 3)])). by vm_compute.
Defined.

(** ** Transports *)

Lemma on_object_id j : on_object id j = j.
Proof. by destruct j. Qed.
Lemma map_array_on_object_id j : map_array (on_object id) j = j.
Proof.
  destruct j as [| | | | | |l|]; try done. simpl. f_equal. induction l; simpl; [done|].
  by rewrite on_object_id, IHl.
Qed.
Lemma obj_update_same k f m : (forall j, f j = j) -> obj_update k f m = m.
Proof.
  intros Hf. destruct (obj_find k m) as [j|] eqn:E; [by apply (obj_update_id _ _ _ j)|].
  unfold obj_update. by rewrite E.
Qed.

(** The text of a string field. *)
Definition text (k : string) (j : json) : string :=
  match find k j with Some (JString s) => s | _ => "" end.

Lemma text_at_text k m : text_at k m = true -> text k (JObject m) <> "".
Proof. unfold text_at, text. simpl. by destruct (obj_find k m) as [[| | | | |[]| |]|]. Qed.

Lemma string_matches_text r k m :
  it_is (string_matches r) (obj_find k m) = true -> matches r (text k (JObject m)) = true.
Proof. unfold text. simpl. by destruct (obj_find k m) as [[]|]. Qed.

Lemma acceptsIceCandidate_spec c :
  acceptsIceCandidate c = true ->
  text "foundation" c <> "" /\ text "ip" c <> "" /\
  tolower (text "protocol" c) ∈ ["udp"; "tcp"] /\
  tolower (text "type" c) ∈ ["host"; "srflx"; "prflx"; "relay"] /\
  it_is is_number_unsigned (find "priority" c) = true /\
  it_is is_number_unsigned (find "port" c) = true.
Proof.
  destruct c as [| | | | | | |m]; try done. unfold acceptsIceCandidate. simpl object_with.
  rewrite !andb_true_iff. intros [[[[[[[Hf Hp] Hi] _] Hpr] Ho] _] Ht].
  apply string_matches_text, ProtocolRegex_spec in Hpr.
  apply string_matches_text, TypeRegex_spec in Ht.
  rewrite !elem_of_cons. split_and!; try done; try (by apply text_at_text); tauto.
Qed.

Lemma acceptsDtlsParameters_spec dtls :
  acceptsDtlsParameters dtls = true ->
  tolower (text "role" dtls) ∈ ["auto"; "client"; "server"] /\
  exists fp fps, find "fingerprints" dtls = Some (JArray (fp :: fps)) /\
    forall f, In f (fp :: fps) -> text "algorithm" f <> "" /\ text "value" f <> "".
Proof.
  destruct dtls as [| | | | | | |m]; try done. unfold acceptsDtlsParameters. simpl object_with.
  rewrite !andb_true_iff. intros [[[_ Hr] Hn] Hf].
  apply string_matches_text, RoleRegex_spec in Hr. rewrite !elem_of_cons.
  split; [tauto|]. simpl find.
  destruct (obj_find "fingerprints" m) as [[| | | | | |[|fp fps]|]|]; try done.
  exists fp, fps. split; [done|]. unfold it_is, array_of in Hf. rewrite forallb_forall in Hf.
  intros [| | | | | | |f] H; apply Hf in H; try done. unfold acceptsDtlsFingerprint in H.
  simpl object_with in H. apply andb_true_iff in H as [? ?]. by split; apply text_at_text.
Qed.

(** C39.  The remote transport parameters handed to [RemoteSdp]: the ICE
    candidates and the DTLS and SCTP parameters a validator returns are the values
    it was given, every candidate has a non-empty address and one of the
    protocols and types of the ICE grammar, there is at least one fingerprint,
    each with its algorithm and value, and the DTLS role is auto, client or
    server (up to case). *)
Theorem transport_parameters_valid (cands cands' dtls dtls' sctp sctp' : json) :
  (validateIceCandidates cands = (Ok tt, cands') ->
   cands' = cands /\ forall c, In c (elems cands) ->
     text "foundation" c <> "" /\ text "ip" c <> "" /\
     tolower (text "protocol" c) ∈ ["udp"; "tcp"] /\
     tolower (text "type" c) ∈ ["host"; "srflx"; "prflx"; "relay"] /\
     it_is is_number_unsigned (find "priority" c) = true /\
     it_is is_number_unsigned (find "port" c) = true) /\
  (validateDtlsParameters dtls = (Ok tt, dtls') ->
   dtls' = dtls /\ tolower (text "role" dtls) ∈ ["auto"; "client"; "server"] /\
   exists fp fps, find "fingerprints" dtls = Some (JArray (fp :: fps)) /\
     forall f, In f (fp :: fps) -> text "algorithm" f <> "" /\ text "value" f <> "") /\
  (validateSctpParameters sctp = (Ok tt, sctp') ->
   sctp' = sctp /\ forall k, In k ["port"; "OS"; "MIS"; "maxMessageSize"] ->
     it_is is_number_integer (find k sctp) = true).
Proof.
  split_and!.
  - intros [Ha ->]%(validator_ok_iff (accept := array_of acceptsIceCandidate)
      (norm := map_array (on_object id))). split; [apply map_array_on_object_id|].
    destruct cands as [| | | | | |l|]; try done. simpl in *. intros c Hc.
    rewrite forallb_forall in Ha. by apply acceptsIceCandidate_spec, Ha.
  - intros [Ha ->]%(validator_ok_iff (accept := acceptsDtlsParameters)
      (norm := on_object (obj_update "fingerprints" (map_array (on_object id))))).
    split; [|by apply acceptsDtlsParameters_spec]. destruct dtls; try done. simpl.
    by rewrite obj_update_same by apply map_array_on_object_id.
  - intros [Ha ->]%(validator_ok_iff (accept := acceptsSctpParameters) (norm := on_object id)).
    split; [apply on_object_id|]. destruct sctp as [| | | | | | |m]; try done.
    unfold acceptsSctpParameters in Ha. simpl object_with in Ha. rewrite !andb_true_iff in Ha.
    destruct Ha as [[[? ?] ?] ?]. intros k [<-|[<-|[<-|[<-|[]]]]]; done.
Qed.

Definition sampleTransportCandidates : json :=
  JArray [jobj [("foundation", JString "udpcandidate"); ("priority", JUInt 1076302079);
                ("ip", JString "10.0.0.1"); ("protocol", JString "UDP"); ("port", JUInt 40533);
                ("type", JString "host")];
          jobj [("foundation", JString "tcpcandidate"); ("priority", JUInt 1076276479);
                ("ip", JString "10.0.0.2"); ("protocol", JString "tcp"); ("port", JUInt 40534);
                ("type", JString "relay")]].
Definition sampleTransportDtls : json :=
  jobj [("role", JString "Server"); ("fingerprints", JArray [jobj [
    ("algorithm", JString "sha-256"); ("value", JString "AB:CD")]])].
Definition sampleTransportSctp : json :=
  jobj [("port", JUInt 5000); ("OS", JUInt 1024); ("MIS", JUInt 1024);
        ("maxMessageSize", JUInt 262144)].

Lemma transport_parameters_valid_witness :
  validateIceCandidates sampleTransportCandidates = (Ok tt, sampleTransportCandidates) /\
  validateDtlsParameters sampleTransportDtls = (Ok tt, sampleTransportDtls) /\
  validateSctpParameters sampleTransportSctp = (Ok tt, sampleTransportSctp) /\
  (forall c, In c (elems sampleTransportCandidates) ->
     text "foundation" c <> "" /\ text "ip" c <> "" /\
     tolower (text "protocol" c) ∈ ["udp"; "tcp"] /\
     tolower (text "type" c) ∈ ["host"; "srflx"; "prflx"; "relay"] /\
     it_is is_number_unsigned (find "priority" c) = true /\
     it_is is_number_unsigned (find "port" c) = true) /\
  tolower (text "role" sampleTransportDtls) ∈ ["auto"; "client"; "server"] /\
  (exists fp fps, find "fingerprints" sampleTransportDtls = Some (JArray (fp :: fps)) /\
     forall f, In f (fp :: fps) -> text "algorithm" f <> "" /\ text "value" f <> "") /\
  (forall k, In k ["port"; "OS"; "MIS"; "maxMessageSize"] ->
     it_is is_number_integer (find k sampleTransportSctp) = true).
Proof.
  assert (Hc : validateIceCandidates sampleTransportCandidates = (Ok tt, sampleTransportCandidates))
    by (vm_compute; reflexivity).
  assert (Hd : validateDtlsParameters sampleTransportDtls = (Ok tt, sampleTransportDtls))
    by (vm_compute; reflexivity).
  assert (Hs : validateSctpParameters sampleTransportSctp = (Ok tt, sampleTransportSctp))
    by (vm_compute; reflexivity).
  destruct (transport_parameters_valid sampleTransportCandidates sampleTransportCandidates
    sampleTransportDtls sampleTransportDtls sampleTransportSctp sampleTransportSctp)
    as (Hcands & Hdtls & Hsctp).
  destruct (Hcands Hc) as [_ Hcands']. destruct (Hdtls Hd) as [_ Hdtls'].
  destruct (Hsctp Hs) as [_ Hsctp'].
  split; [exact Hc|]. split; [exact Hd|]. split; [exact Hs|]. split; [exact Hcands'|].
  destruct Hdtls' as [Hrole Hfps]. split; [exact Hrole|]. split; [exact Hfps|exact Hsctp'].
Defined.
