(* ===== verification/H264.v ===== *)
(** * H.264 profile-level-id negotiation

    The part of webrtc that ortc.cpp calls to match H.264 codecs:
    api/video_codecs/h264_profile_level_id.cc (the tables, the parser and the
    printer) and H264GenerateProfileLevelIdForAnswer with its helpers of
    media/base/sdp_video_format_utils.cc. *)

From Stdlib Require Import Ascii.
From stdpp Require Import gmap.
From S2P Require Import Prelude.

(** ** Profiles and levels *)

Inductive H264Profile :=
| kProfileConstrainedBaseline
| kProfileBaseline
| kProfileMain
| kProfileConstrainedHigh
| kProfileHigh.

Inductive H264Level :=
| kLevel1_b | kLevel1 | kLevel1_1 | kLevel1_2 | kLevel1_3
| kLevel2 | kLevel2_1 | kLevel2_2
| kLevel3 | kLevel3_1 | kLevel3_2
| kLevel4 | kLevel4_1 | kLevel4_2
| kLevel5 | kLevel5_1 | kLevel5_2.

#[export] Instance H264Profile_eq_dec : EqDecision H264Profile.
Proof. solve_decision. Defined.
#[export] Instance H264Level_eq_dec : EqDecision H264Level.
Proof. solve_decision. Defined.

(** The enumerator values: ten times the level number, 0 for 1b. *)
Definition level_value (l : H264Level) : Z :=
  match l with
  | kLevel1_b => 0
  | kLevel1 => 10 | kLevel1_1 => 11 | kLevel1_2 => 12 | kLevel1_3 => 13
  | kLevel2 => 20 | kLevel2_1 => 21 | kLevel2_2 => 22
  | kLevel3 => 30 | kLevel3_1 => 31 | kLevel3_2 => 32
  | kLevel4 => 40 | kLevel4_1 => 41 | kLevel4_2 => 42
  | kLevel5 => 50 | kLevel5_1 => 51 | kLevel5_2 => 52
  end.

Record H264ProfileLevelId := { profile : H264Profile; level : H264Level }.

(** [SdpVideoFormat::Parameters], a std::map of strings. *)
Abbreviation Parameters := (gmap string string).

(** ** Bit patterns *)

Definition kConstraintSet3Flag : Z := 16.

(** Sets the bit of each position of the string that holds [c], the first
    character being the most significant. *)
Fixpoint mask_bits (c : Ascii.ascii) (s : string) (acc : Z) : Z :=
  match s with
  | EmptyString => acc
  | String a s => mask_bits c s (Z.lor (Z.shiftl acc 1) (if Ascii.eqb a c then 1 else 0))
  end.
Definition ByteMaskString (c : Ascii.ascii) (s : string) : Z := mask_bits c s 0.

Record BitPattern := { mask_ : Z; masked_value_ : Z }.

Definition MakeBitPattern (s : string) : BitPattern :=
  {| mask_ := uint 8 (Z.lnot (ByteMaskString "x"%char s));
     masked_value_ := ByteMaskString "1"%char s |}.

Definition IsMatch (p : BitPattern) (value : Z) : bool :=
  masked_value_ p =? Z.land value (mask_ p).

Record ProfilePattern := {
  profile_idc : Z;
  profile_iop : BitPattern;
  pattern_profile : H264Profile
}.

Definition Pattern idc s p : ProfilePattern :=
  {| profile_idc := idc; profile_iop := MakeBitPattern s; pattern_profile := p |}.

Definition kProfilePatterns : list ProfilePattern := [
  Pattern 66 "x1xx0000" kProfileConstrainedBaseline;
  Pattern 77 "1xxx0000" kProfileConstrainedBaseline;
  Pattern 88 "11xx0000" kProfileConstrainedBaseline;
  Pattern 66 "x0xx0000" kProfileBaseline;
  Pattern 88 "10xx0000" kProfileBaseline;
  Pattern 77 "0x0x0000" kProfileMain;
  Pattern 100 "00000000" kProfileHigh;
  Pattern 100 "00001100" kProfileConstrainedHigh ].

(** ** Parsing *)

(** The characters before the first NUL: what a [const char*] gives. *)
Fixpoint c_str (s : string) : string :=
  match s with
  | EmptyString => ""
  | String a s => if Ascii.eqb a Ascii.zero then "" else String a (c_str s)
  end.

Definition hex_digit (a : Ascii.ascii) : option Z :=
  let n := Z.of_N (Ascii.N_of_ascii a) in
  if (48 <=? n) && (n <=? 57) then Some (n - 48)
  else if (65 <=? n) && (n <=? 70) then Some (n - 55)
  else if (97 <=? n) && (n <=? 102) then Some (n - 87)
  else None.

Fixpoint hex_digits (s : string) (acc : Z) : Z :=
  match s with
  | EmptyString => acc
  | String a s =>
      match hex_digit a with Some d => hex_digits s (16 * acc + d) | None => acc end
  end.

Definition isspace (a : Ascii.ascii) : bool :=
  let n := Ascii.N_of_ascii a in ((9 <=? n) && (n <=? 13) || (n =? 32))%N.

Fixpoint skip_spaces (s : string) : string :=
  match s with
  | String a s' => if isspace a then skip_spaces s' else s
  | EmptyString => s
  end.

(** The [0x] that [strtol] skips in base 16, when a digit follows it. *)
Definition skip_0x (s : string) : string :=
  match s with
  | String "0" (String x (String d s')) =>
      if (Ascii.eqb x "x" || Ascii.eqb x "X") && bool_decide (is_Some (hex_digit d))
      then String d s' else s
  | _ => s
  end%char.

(** [strtol(s, nullptr, 16)] of a string too short to overflow a long. *)
Definition strtol16 (s : string) : Z :=
  match skip_spaces s with
  | String "-" s' => - hex_digits (skip_0x s') 0
  | String "+" s' => hex_digits (skip_0x s') 0
  | s' => hex_digits (skip_0x s') 0
  end%char.

(** The switch over [static_cast<H264Level>(level_idc)]. *)
Definition parse_level (level_idc iop : Z) : option H264Level :=
  match level_idc with
  | 11 => Some (if Z.land iop kConstraintSet3Flag =? 0 then kLevel1_1 else kLevel1_b)
  | 10 => Some kLevel1 | 12 => Some kLevel1_2 | 13 => Some kLevel1_3
  | 20 => Some kLevel2 | 21 => Some kLevel2_1 | 22 => Some kLevel2_2
  | 30 => Some kLevel3 | 31 => Some kLevel3_1 | 32 => Some kLevel3_2
  | 40 => Some kLevel4 | 41 => Some kLevel4_1 | 42 => Some kLevel4_2
  | 50 => Some kLevel5 | 51 => Some kLevel5_1 | 52 => Some kLevel5_2
  | _ => None
  end.

Definition pattern_matches (idc iop : Z) (p : ProfilePattern) : bool :=
  (idc =? profile_idc p) && IsMatch (profile_iop p) iop.

Definition ParseH264ProfileLevelId (str : string) : option H264ProfileLevelId :=
  let str := c_str str in
  if negb (Nat.eqb (String.length str) 6) then None
  else
    let profile_level_id_numeric := uint 32 (strtol16 str) in
    if profile_level_id_numeric =? 0 then None
    else
      let level_idc := Z.land profile_level_id_numeric 255 in
      let iop := Z.land (Z.shiftr profile_level_id_numeric 8) 255 in
      let idc := Z.land (Z.shiftr profile_level_id_numeric 16) 255 in
      match parse_level level_idc iop with
      | None => None
      | Some level =>
          match List.find (pattern_matches idc iop) kProfilePatterns with
          | Some pattern => Some {| profile := pattern_profile pattern; level := level |}
          | None => None
          end
      end.

Definition kDefaultProfileLevelId : H264ProfileLevelId :=
  {| profile := kProfileConstrainedBaseline; level := kLevel3_1 |}.

Definition ParseSdpForH264ProfileLevelId (params : Parameters) : option H264ProfileLevelId :=
  match params !! "profile-level-id" with
  | None => Some kDefaultProfileLevelId
  | Some s => ParseH264ProfileLevelId s
  end.

(** ** Printing *)

Definition hex_char (d : Z) : Ascii.ascii :=
  Ascii.ascii_of_N (Z.to_N (if d <? 10 then 48 + d else 87 + d)).
(** [%02x] of a value below 256. *)
Definition hex02 (z : Z) : string :=
  String (hex_char (z / 16)) (String (hex_char (z mod 16)) "").

Definition H264ProfileLevelIdToString (id : H264ProfileLevelId) : option string :=
  match level id with
  | kLevel1_b =>
      (* Handle special case level == 1b. *)
      match profile id with
      | kProfileConstrainedBaseline => Some "42f00b"
      | kProfileBaseline => Some "42100b"
      | kProfileMain => Some "4d100b"
      | _ => None
      end
  | l =>
      let profile_idc_iop_string :=
        match profile id with
        | kProfileConstrainedBaseline => "42e0"
        | kProfileBaseline => "4200"
        | kProfileMain => "4d00"
        | kProfileConstrainedHigh => "640c"
        | kProfileHigh => "6400"
        end in
      Some (profile_idc_iop_string +:+ hex02 (level_value l))
  end.

Definition H264IsSameProfile (params1 params2 : Parameters) : bool :=
  match ParseSdpForH264ProfileLevelId params1, ParseSdpForH264ProfileLevelId params2 with
  | Some id1, Some id2 => bool_decide (profile id1 = profile id2)
  | _, _ => false
  end.

(** ** The answer *)

Definition IsH264LevelAsymmetryAllowed (params : Parameters) : bool :=
  match params !! "level-asymmetry-allowed" with
  | Some v => String.eqb (c_str v) "1"
  | None => false
  end.

(** Compare H264 levels and handle the level 1b case. *)
Definition H264LevelIsLess (a b : H264Level) : bool :=
  if bool_decide (a = kLevel1_b) then
    bool_decide (b <> kLevel1) && bool_decide (b <> kLevel1_b)
  else if bool_decide (b = kLevel1_b) then bool_decide (a = kLevel1)
  else level_value a <? level_value b.

Definition H264LevelMin (a b : H264Level) : H264Level :=
  if H264LevelIsLess a b then a else b.

(** Dereferencing an empty optional is undefined; the checks in between are
    compiled out of release builds. *)
Definition deref {A} (o : option A) : result A :=
  match o with Some a => Ok a | None => Undef end.

Definition H264GenerateProfileLevelIdForAnswer (local_supported_params
    remote_offered_params answer_params : Parameters) : result Parameters :=
  if bool_decide (local_supported_params !! "profile-level-id" = None) &&
     bool_decide (remote_offered_params !! "profile-level-id" = None)
  then Ok answer_params
  else
    let level_asymmetry_allowed :=
      IsH264LevelAsymmetryAllowed local_supported_params &&
      IsH264LevelAsymmetryAllowed remote_offered_params in
    let? local_id := deref (ParseSdpForH264ProfileLevelId local_supported_params) in
    let? remote_id := deref (ParseSdpForH264ProfileLevelId remote_offered_params) in
    let min_level := H264LevelMin (level local_id) (level remote_id) in
    let answer_level := if level_asymmetry_allowed then level local_id else min_level in
    let? str := deref (H264ProfileLevelIdToString
                         {| profile := profile local_id; level := answer_level |}) in
    Ok (<["profile-level-id" := str]> answer_params).

(** * Properties *)

(** Level 1b comes from the constraint set 3 flag, which no pattern of the High
    profiles allows. *)
Definition level_allowed (id : H264ProfileLevelId) : Prop :=
  level id = kLevel1_b -> profile id <> kProfileHigh /\ profile id <> kProfileConstrainedHigh.

Lemma parse_level_1b idc iop :
  parse_level idc iop = Some kLevel1_b -> Z.land iop kConstraintSet3Flag <> 0.
Proof.
  unfold parse_level. repeat case_match; try done. intros _. by apply Z.eqb_neq.
Qed.

Lemma high_patterns idc n p :
  let iop := Z.land n 255 in
  List.find (pattern_matches idc iop) kProfilePatterns = Some p ->
  Z.land iop kConstraintSet3Flag <> 0 ->
  pattern_profile p <> kProfileHigh /\ pattern_profile p <> kProfileConstrainedHigh.
Proof.
  intros iop Hp%List.find_some Hf. destruct Hp as [Hin Hm].
  unfold pattern_matches, IsMatch in Hm. apply andb_true_iff in Hm as [_ Hm%Z.eqb_eq].
  repeat (destruct Hin as [<-|Hin]; [try (by split)|]); [| |done]; exfalso; apply Hf;
    change (mask_ _) with 255 in Hm; unfold iop in *;
    rewrite <- Z.land_assoc in Hm; change (Z.land 255 255) with 255 in Hm;
    rewrite <- Hm; reflexivity.
Qed.

Lemma ParseH264ProfileLevelId_allowed s id :
  ParseH264ProfileLevelId s = Some id -> level_allowed id.
Proof.
  unfold ParseH264ProfileLevelId. intros H.
  destruct (negb _); [done|]. destruct (_ =? 0); [done|].
  destruct (parse_level _ _) as [l|] eqn:Hl; [|done].
  destruct (List.find _ _) as [p|] eqn:Hp; [|done]. injection H as <-. simpl.
  intros Hb. simpl in Hb. subst l. eapply high_patterns; [done|]. by eapply parse_level_1b.
Qed.

Lemma ParseSdp_allowed params id :
  ParseSdpForH264ProfileLevelId params = Some id -> level_allowed id.
Proof.
  unfold ParseSdpForH264ProfileLevelId.
  destruct (params !! _); [apply ParseH264ProfileLevelId_allowed|]. by intros [= <-].
Qed.

Lemma ToString_allowed id : level_allowed id <-> is_Some (H264ProfileLevelIdToString id).
Proof.
  destruct id as [p l]. unfold level_allowed. simpl. split.
  - intros H. destruct l; try done. destruct p; try done; by destruct H.
  - intros [s H] ->. by destruct p.
Qed.

Lemma Parse_ToString id s :
  H264ProfileLevelIdToString id = Some s -> ParseH264ProfileLevelId s = Some id.
Proof. destruct id as [p l]. destruct l, p; intros [= <-]; vm_compute; reflexivity. Qed.

(** C32.  The printer and the parser of profile-level-ids are inverse: what is
    printed parses back to the same profile and level, and every string that
    parses stands for a pair that can be printed, in a canonical form with the
    same meaning. *)
Theorem H264ProfileLevelId_roundtrip (id : H264ProfileLevelId) (s : string) :
  (H264ProfileLevelIdToString id = Some s -> ParseH264ProfileLevelId s = Some id) /\
  (ParseH264ProfileLevelId s = Some id ->
   exists t, H264ProfileLevelIdToString id = Some t /\ ParseH264ProfileLevelId t = Some id).
Proof.
  split; [apply Parse_ToString|]. intros [t Ht]%ParseH264ProfileLevelId_allowed%ToString_allowed.
  exists t. split; [done|]. by apply Parse_ToString.
Qed.

Lemma H264ProfileLevelId_roundtrip_witness :
  exists t, H264ProfileLevelIdToString {| profile := kProfileBaseline; level := kLevel1_b |} = Some t
    /\ ParseH264ProfileLevelId t = Some {| profile := kProfileBaseline; level := kLevel1_b |}.
Proof.
  apply (H264ProfileLevelId_roundtrip {| profile := kProfileBaseline; level := kLevel1_b |}
    "58900b"). by vm_compute.
Defined.

(** ** Levels *)

Lemma H264LevelIsLess_rank a b :
  H264LevelIsLess a b = true <->
  (match a with kLevel1_b => 105 | l => 10 * level_value l end <
   match b with kLevel1_b => 105 | l => 10 * level_value l end).
Proof. destruct a, b; vm_compute; intuition congruence. Qed.

(** H264LevelIsLess is a strict total order on the levels, with level 1b
    between 1 and 1.1. *)
Theorem H264LevelIsLess_order (a b c : H264Level) :
  H264LevelIsLess a a = false /\
  (H264LevelIsLess a b = true -> H264LevelIsLess b c = true -> H264LevelIsLess a c = true) /\
  (H264LevelIsLess a b = true \/ a = b \/ H264LevelIsLess b a = true) /\
  H264LevelIsLess kLevel1 kLevel1_b = true /\ H264LevelIsLess kLevel1_b kLevel1_1 = true.
Proof.
  split_and!; try done.
  - by destruct a.
  - rewrite !H264LevelIsLess_rank. lia.
  - destruct a, b; vm_compute; auto.
Qed.

Lemma H264LevelIsLess_order_witness : H264LevelIsLess kLevel1_b kLevel3 = true.
Proof.
  by apply (H264LevelIsLess_order kLevel1_b kLevel1_2 kLevel3).
Defined.

Lemma H264LevelMin_spec a b :
  (H264LevelMin a b = a \/ H264LevelMin a b = b) /\
  H264LevelIsLess a (H264LevelMin a b) = false /\ H264LevelIsLess b (H264LevelMin a b) = false.
Proof. destruct a, b; vm_compute; auto. Qed.

(** ** The answer *)

Lemma H264IsSameProfile_true (l r : Parameters) :
  H264IsSameProfile l r = true <->
  exists lid rid, ParseSdpForH264ProfileLevelId l = Some lid /\
    ParseSdpForH264ProfileLevelId r = Some rid /\ profile lid = profile rid.
Proof.
  unfold H264IsSameProfile. split.
  - destruct (ParseSdpForH264ProfileLevelId l), (ParseSdpForH264ProfileLevelId r); try done.
    intros ?%bool_decide_eq_true. eauto 10.
  - intros (lid & rid & -> & -> & ?). by apply bool_decide_eq_true.
Qed.

(** The level of the answer. *)
Definition answer_level (asymmetry : bool) (local remote : H264Level) : H264Level :=
  if asymmetry then local else H264LevelMin local remote.

Lemma Answer_run (l r a : Parameters) lid rid :
  ParseSdpForH264ProfileLevelId l = Some lid -> ParseSdpForH264ProfileLevelId r = Some rid ->
  profile lid = profile rid ->
  is_Some (l !! "profile-level-id") \/ is_Some (r !! "profile-level-id") ->
  exists s, H264GenerateProfileLevelIdForAnswer l r a = Ok (<["profile-level-id" := s]> a) /\
    ParseH264ProfileLevelId s = Some {| profile := profile lid;
      level := answer_level (IsH264LevelAsymmetryAllowed l && IsH264LevelAsymmetryAllowed r)
                 (level lid) (level rid) |}.
Proof.
  intros Hl Hr Hp Hs. unfold H264GenerateProfileLevelIdForAnswer.
  replace (bool_decide _ && bool_decide _) with false; cycle 1.
  { symmetry. apply andb_false_iff. rewrite !bool_decide_eq_false.
    destruct Hs as [[? ->]|[? ->]]; auto. }
  rewrite Hl, Hr. simpl.
  set (al := if IsH264LevelAsymmetryAllowed l && IsH264LevelAsymmetryAllowed r then _ else _).
  assert (level_allowed {| profile := profile lid; level := al |}) as [s Hok]%ToString_allowed.
  { apply ParseSdp_allowed in Hl, Hr. unfold level_allowed in *. simpl. unfold al.
    rewrite <- Hp in Hr. destruct (_ && _); [done|].
    destruct (H264LevelMin_spec (level lid) (level rid)) as [[-> | ->] _]; done. }
  rewrite Hok. simpl. exists s. split; [done|]. by rewrite (Parse_ToString _ _ Hok).
Qed.

(** C31.  For two parameter sets of the same profile, the answer is always
    defined and has that profile; its level is the local one when both sides
    allow asymmetry, and otherwise the lower of the two. *)
Theorem H264Answer_correct (l r a : Parameters)
    (Hsame : H264IsSameProfile l r = true)
    (Hset : is_Some (l !! "profile-level-id") \/ is_Some (r !! "profile-level-id")) :
  exists lid rid s aid,
    ParseSdpForH264ProfileLevelId l = Some lid /\ ParseSdpForH264ProfileLevelId r = Some rid /\
    H264GenerateProfileLevelIdForAnswer l r a = Ok (<["profile-level-id" := s]> a) /\
    ParseH264ProfileLevelId s = Some aid /\
    profile aid = profile lid /\ profile aid = profile rid /\
    (if IsH264LevelAsymmetryAllowed l && IsH264LevelAsymmetryAllowed r
     then level aid = level lid
     else (level aid = level lid \/ level aid = level rid) /\
       H264LevelIsLess (level lid) (level aid) = false /\
       H264LevelIsLess (level rid) (level aid) = false).
Proof.
  apply H264IsSameProfile_true in Hsame as (lid & rid & Hl & Hr & Hp).
  destruct (Answer_run l r a lid rid Hl Hr Hp Hset) as (s & Ha & Hs).
  exists lid, rid, s. eexists. split_and!; [done..|]. simpl. unfold answer_level.
  destruct (_ && _); [done|]. apply H264LevelMin_spec.
Qed.

Lemma H264Answer_correct_witness :
  exists s : string, H264GenerateProfileLevelIdForAnswer
    (<["profile-level-id" := "42e01f"]> ∅) (<["profile-level-id" := "42e00b"]> ∅) ∅ =
    Ok (<["profile-level-id" := s]> ∅).
Proof.
  destruct (H264Answer_correct (<["profile-level-id" := "42e01f"]> ∅)
    (<["profile-level-id" := "42e00b"]> ∅) ∅) as (lid & rid & s & aid & _ & _ & H & _).
  - by vm_compute.
  - left. by exists "42e01f".
  - by exists s.
Defined.
