(* ===== verification/Ortc.v ===== *)
(** * Capability negotiation

    The second half of libmediasoupclient/src/ortc.cpp: matching the local and
    the router's RTP capabilities, and deriving from the match the capabilities
    for receiving, the parameters for sending, the probator's parameters and the
    codecs of a producer.  Functions that take a JSON value by non-const
    reference run in [M]; the others return a [result]. *)

From Stdlib Require Import Ascii.
From stdpp Require Import gmap.
From S2P Require Import Prelude Json Regex Validator OrtcValidate H264.

(** ** Access by reference *)

(** [j[k]] read through a non-const reference: a missing key becomes null. *)
Definition ref (k : string) : M json json := at_key k get.

(** The value of [ref] where the object it may modify is not used afterwards. *)
Definition ref_value (k : string) (j : json) : result json := fst (ref k j).

Definition ref_string (k : string) (j : json) : result string :=
  let? v := ref_value k j in get_string v.

(** [it->get<std::string>()] for an iterator that may be [end()]. *)
Definition it_string (it : option json) : result string :=
  match it with Some v => get_string v | None => Undef end.

(** [j[k].get<std::string>()] of a const value. *)
Definition cget_string (k : string) (j : json) : result string :=
  let? v := cget k j in get_string v.

Section Pairs.
Context {S T : Type}.

Definition on_fst {A} (f : M S A) : M (S * T) A := fun st =>
let '(r, s') := f st.1 in (r, (s', st.2)).
Definition on_snd {A} (f : M T A) : M (S * T) A := fun st =>
let '(r, t') := f st.2 in (r, (st.1, t')).
End Pairs.

(** ** Loops *)

(** [for (const auto& x : l)] appending what [f] returns. *)
Fixpoint collect {A} (f : json -> result (list A)) (l : list json) : result (list A) :=
  match l with
  | [] => Ok []
  | x :: l => let? y := f x in let? ys := collect f l in Ok (y ++ ys)
  end.

(** [std::find_if] with a predicate that may throw. *)
Fixpoint find_if (p : json -> result bool) (l : list json) : result (option json) :=
  match l with
  | [] => Ok None
  | x :: l => let? b := p x in if b then Ok (Some x) else find_if p l
  end.

(** The same, returning the position found. *)
Fixpoint find_index (p : json -> result bool) (l : list json) : result (option nat) :=
  match l with
  | [] => Ok None
  | x :: l =>
      let? b := p x in
      if b then Ok (Some 0%nat) else let? i := find_index p l in Ok (S <$> i)
  end.

(** [std::find_if] with a predicate that takes the element, and [T] around it, by
    non-const reference. *)
Fixpoint find_if_ref {T} (p : M (json * T) bool) (l : list json) (t : T) :
    result (option nat) * (list json * T) :=
  match l with
  | [] => (Ok None, ([], t))
  | x :: l =>
      match p (x, t) with
      | (Ok true, (x', t')) => (Ok (Some 0%nat), (x' :: l, t'))
      | (Ok false, (x', t')) =>
          let '(r, (l', t'')) := find_if_ref p l t' in
          (let? i := r in Ok (S <$> i), (x' :: l', t''))
      | (Throw e, (x', t')) => (Throw e, (x' :: l, t'))
      | (Undef, (x', t')) => (Undef, (x' :: l, t'))
      end
  end.

(** [for (auto& x : l)] where the body also modifies [T], appending what it
    returns. *)
Fixpoint collect_ref {T A} (f : M (json * T) (list A)) (l : list json) (t : T) :
    result (list A) * (list json * T) :=
  match l with
  | [] => (Ok [], ([], t))
  | x :: l =>
      match f (x, t) with
      | (Ok y, (x', t')) =>
          let '(r, (l', t'')) := collect_ref f l t' in
          (let? ys := r in Ok (y ++ ys), (x' :: l', t''))
      | (Throw e, (x', t')) => (Throw e, (x' :: l, t'))
      | (Undef, (x', t')) => (Undef, (x' :: l, t'))
      end
  end.

(** Runs [f] on an element of the list, at a position found before. *)
Definition at_elem {T A} (i : nat) (f : M (json * T) A) : M (list json * T) A := fun st =>
  match st.1 !! i with
  | Some x => let '(r, (x', t')) := f (x, st.2) in (r, (<[i := x']> st.1, t'))
  | None => (Undef, st)
  end.

(** ** Codec matching *)

(** ["^(audio|video)/rtx$"], icase *)
Definition RtxMimeTypeRegex : regex :=
  RSeq RBol (RSeq (RGroup 1 (RAlt (lit_i "audio") (lit_i "video")))
    (RSeq (lit_i "/rtx") REol)).

Definition isRtxCodec (codec : json) : result bool :=
  let? mimeType := cget_string "mimeType" codec in
  Ok (matches RtxMimeTypeRegex mimeType).

Definition uint8_parameter (k : string) (codec : json) : result Z :=
  let? parameters := cget "parameters" codec in
  match find k parameters with
  | Some v => if is_number_integer v then get_uint 8 v else Ok 0
  | None => Ok 0
  end.

Definition getH264PacketizationMode : json -> result Z := uint8_parameter "packetization-mode".
Definition getH264LevelAssimetryAllowed : json -> result Z :=
  uint8_parameter "level-asymmetry-allowed".

Definition getH264ProfileLevelId (codec : json) : result string :=
  let? parameters := cget "parameters" codec in
  match find "profile-level-id" parameters with
  | None => Ok ""
  | Some v =>
      if is_number v then let? n := get_int32 v in Ok (to_string n) else get_string v
  end.

Definition getVP9ProfileId (codec : json) : result string :=
  let? parameters := cget "parameters" codec in
  match find "profile-id" parameters with
  | None => Ok "0"
  | Some v =>
      if is_number v then let? n := get_int32 v in Ok (to_string n) else get_string v
  end.

(** The parameters matchCodecs hands to webrtc. *)
Definition h264_parameters (asymmetry mode : Z) (id : string) : Parameters :=
  <["level-asymmetry-allowed" := to_string asymmetry]>
  (<["packetization-mode" := to_string mode]>
  (<["profile-level-id" := id]> ∅)).

(** The [strict] branch for video/h264.  [H264GenerateProfileLevelIdForAnswer]
    throws nothing, so the handler around it never runs. *)
Definition matchH264 (modify : bool) : M (json * json) bool :=
  let! ab := get in
  let! aMode := lift (getH264PacketizationMode ab.1) in
  let! bMode := lift (getH264PacketizationMode ab.2) in
  if negb (aMode =? bMode) then ret false else
  let! aAsymmetry := lift (getH264LevelAssimetryAllowed ab.1) in
  let! aId := lift (getH264ProfileLevelId ab.1) in
  let! bAsymmetry := lift (getH264LevelAssimetryAllowed ab.2) in
  let! bId := lift (getH264ProfileLevelId ab.2) in
  let aParameters := h264_parameters aAsymmetry aMode aId in
  let bParameters := h264_parameters bAsymmetry bMode bId in
  if negb (H264IsSameProfile aParameters bParameters) then ret false else
  let! newParameters := lift (H264GenerateProfileLevelIdForAnswer aParameters bParameters ∅) in
  do! when modify
        (match newParameters !! "profile-level-id" with
         | Some id =>
             do! on_fst (at_key "parameters" (set_key "profile-level-id" (JString id))) in
             on_snd (at_key "parameters" (set_key "profile-level-id" (JString id)))
         | None =>
             do! on_fst (at_key "parameters" (erase_key "profile-level-id")) in
             on_snd (at_key "parameters" (erase_key "profile-level-id"))
         end) in
  ret true.

(** The state is the pair of codecs, both passed by non-const reference. *)
Definition matchCodecs (strict modify : bool) : M (json * json) bool :=
  let! ab := get in
  let! aMimeType := lift (it_string (find "mimeType" ab.1)) in
  let! bMimeType := lift (it_string (find "mimeType" ab.2)) in
  let aMimeType := tolower aMimeType in
  let bMimeType := tolower bMimeType in
  if negb (String.eqb aMimeType bMimeType) then ret false else
  let! aClockRate := on_fst (ref "clockRate") in
  let! bClockRate := on_snd (ref "clockRate") in
  if negb (json_eq aClockRate bClockRate) then ret false else
  let aChannels := contains "channels" ab.1 in
  let bChannels := contains "channels" ab.2 in
  if negb (Bool.eqb aChannels bChannels) then ret false else
  let! sameChannels :=
    (if aChannels then
       let! aN := on_fst (ref "channels") in
       let! bN := on_snd (ref "channels") in
       ret (json_eq aN bN)
     else ret true) in
  if negb sameChannels then ret false else
  if String.eqb aMimeType "video/h264" then
    (if strict then matchH264 modify else ret true)
  else if String.eqb aMimeType "video/vp9" then
    (if strict then
       let! aProfileId := lift (getVP9ProfileId ab.1) in
       let! bProfileId := lift (getVP9ProfileId ab.2) in
       ret (String.eqb aProfileId bProfileId)
     else ret true)
  else ret true.

Definition matchHeaderExtensions (aExt bExt : json) : result bool :=
  let? aKind := cget "kind" aExt in
  let? bKind := cget "kind" bExt in
  if negb (json_eq aKind bKind) then Ok false else
  let? aUri := cget "uri" aExt in
  let? bUri := cget "uri" bExt in
  Ok (json_eq aUri bUri).

(** [aFb] and [bFb] have the same type and parameter. *)
Definition sameFeedback (aFb bFb : json) : result bool :=
  let? aType := cget "type" aFb in
  let? bType := cget "type" bFb in
  if negb (json_eq aType bType) then Ok false else
  let? aParameter := cget "parameter" aFb in
  let? bParameter := cget "parameter" bFb in
  Ok (json_eq aParameter bParameter).

Definition reduceRtcpFeedback (codecA codecB : json) : result json :=
  let? fbA := deref (find "rtcpFeedback" codecA) in
  let? reduced :=
    collect (fun aFb =>
      let? fbB := deref (find "rtcpFeedback" codecB) in
      let? it := find_if (sameFeedback aFb) (elems fbB) in
      Ok (match it with Some bFb => [bFb] | None => [] end)) (elems fbA) in
  Ok (JArray reduced).

(** ** Extended capabilities *)

(** The extended codec of a matching pair (local codec, remote codec). *)
Definition extendCodec : M (json * json) json :=
  let! mimeType := on_fst (ref "mimeType") in
  let! kind := on_fst (ref "kind") in
  let! clockRate := on_fst (ref "clockRate") in
  let! localPayloadType := on_fst (ref "preferredPayloadType") in
  let! remotePayloadType := on_snd (ref "preferredPayloadType") in
  let! localParameters := on_fst (ref "parameters") in
  let! remoteParameters := on_snd (ref "parameters") in
  let! codecs := get in
  let! rtcpFeedback := lift (reduceRtcpFeedback codecs.1 codecs.2) in
  let extendedCodec := jobj [
    ("mimeType", mimeType); ("kind", kind); ("clockRate", clockRate);
    ("localPayloadType", localPayloadType); ("localRtxPayloadType", JNull);
    ("remotePayloadType", remotePayloadType); ("remoteRtxPayloadType", JNull);
    ("localParameters", localParameters); ("remoteParameters", remoteParameters);
    ("rtcpFeedback", rtcpFeedback) ] in
  if contains "channels" codecs.1 then
    let! channels := on_fst (ref "channels") in
    ret (on_object (obj_insert "channels" channels) extendedCodec)
  else ret extendedCodec.

(** The first local codec that matches the remote one, on (remote codec, local
    codecs). *)
Definition findLocalCodec : M (json * list json) (option nat) := fun st =>
  let '(r, (localCodecs, remoteCodec)) :=
    find_if_ref (matchCodecs true true) st.2 st.1 in
  (r, (remoteCodec, localCodecs)).

Definition swap {S T A} (f : M (S * T) A) : M (T * S) A := fun st =>
  let '(r, st') := f (st.2, st.1) in (r, (st'.2, st'.1)).

(** The body of the loop over the remote codecs. *)
Definition extendRemoteCodec : M (json * list json) (list json) :=
  let! st := get in
  let! rtx := lift (isRtxCodec st.1) in
  if rtx then ret [] else
  let! matchingLocalCodecIt := findLocalCodec in
  match matchingLocalCodecIt with
  | None => ret []
  | Some i =>
      let! extendedCodec := swap (at_elem i extendCodec) in
      ret [extendedCodec]
  end.

(** The predicates of the two searches for RTX codecs. *)
Definition isRtxOf (pt : json) (codec : json) : result bool :=
  let? rtx := isRtxCodec codec in
  if rtx then
    let? parameters := cget "parameters" codec in
    let? apt := cget "apt" parameters in
    Ok (json_eq apt pt)
  else Ok false.

(** [codecs[i]["preferredPayloadType"]] *)
Definition payloadTypeAt (i : nat) : M (list json) json := fun l =>
  match l !! i with
  | Some x => let '(r, x') := ref "preferredPayloadType" x in (r, <[i := x']> l)
  | None => (Undef, l)
  end.

(** The body of the loop that adds the RTX payload types, on (extended codec,
    (local codecs, remote codecs)). *)
Definition extendRtx : M (json * (list json * list json)) (list unit) :=
  let! st := get in
  let! localPayloadType := on_fst (ref "localPayloadType") in
  let! localCodecIt := lift (find_index (isRtxOf localPayloadType) st.2.1) in
  match localCodecIt with
  | None => ret []
  | Some i =>
      let! remotePayloadType := on_fst (ref "remotePayloadType") in
      let! remoteCodecIt := lift (find_index (isRtxOf remotePayloadType) st.2.2) in
      match remoteCodecIt with
      | None => ret []
      | Some k =>
          let! localRtx := on_snd (on_fst (payloadTypeAt i)) in
          do! on_fst (set_key "localRtxPayloadType" localRtx) in
          let! remoteRtx := on_snd (on_snd (payloadTypeAt k)) in
          do! on_fst (set_key "remoteRtxPayloadType" remoteRtx) in
          ret []
      end
  end.

(** The direction of an extension seen from the other end. *)
Definition reverseDirection (direction : string) : option string :=
  if String.eqb direction "sendrecv" then Some "sendrecv"
  else if String.eqb direction "recvonly" then Some "sendonly"
  else if String.eqb direction "sendonly" then Some "recvonly"
  else if String.eqb direction "inactive" then Some "inactive"
  else None.

(** The extended header extension of a matching pair (local, remote). *)
Definition extendExt : M (json * json) json :=
  let! kind := on_snd (ref "kind") in
  let! uri := on_snd (ref "uri") in
  let! sendId := on_fst (ref "preferredId") in
  let! recvId := on_snd (ref "preferredId") in
  let! encrypt := on_fst (ref "preferredEncrypt") in
  let extendedExt := jobj [
    ("kind", kind); ("uri", uri); ("sendId", sendId); ("recvId", recvId);
    ("encrypt", encrypt) ] in
  let! direction := on_snd (ref "direction") in
  let! remoteExtDirection := lift (get_string direction) in
  ret (match reverseDirection remoteExtDirection with
       | Some d => on_object (obj_insert "direction" (JString d)) extendedExt
       | None => extendedExt
       end).

(** The body of the loop over the remote header extensions. *)
Definition extendRemoteExt : M (json * list json) (list json) :=
  let! st := get in
  let! localExtIt :=
    lift (find_index (fun localExt => matchHeaderExtensions localExt st.1) st.2) in
  match localExtIt with
  | None => ret []
  | Some i => let! extendedExt := swap (at_elem i extendExt) in ret [extendedExt]
  end.

(** Runs [f] on the arrays that both capabilities have at [k]; validation has
    made sure that they are arrays. *)
Definition on_arrays {A} (k : string) (f : M (list json * list json) A) : M (json * json) A :=
  fun caps =>
    match find k caps.1, find k caps.2 with
    | Some (JArray l), Some (JArray r) =>
        let '(res, (l', r')) := f (l, r) in
        (res, (on_object (obj_replace k (JArray l')) caps.1,
               on_object (obj_replace k (JArray r')) caps.2))
    | _, _ => (Undef, caps)
    end.

(** The two loops over codecs, on (local codecs, remote codecs). *)
Definition extendCodecs : M (list json * list json) (list json) := fun st =>
  let '(r, (remoteCodecs, localCodecs)) := collect_ref extendRemoteCodec st.2 st.1 in
  (r, (localCodecs, remoteCodecs)).

Definition extendAllRtx (extendedCodecs : list json) : M (list json * list json) (list json) :=
  fun st =>
    let '(r, (extendedCodecs', st')) := collect_ref extendRtx extendedCodecs st in
    (let? _ := r in Ok extendedCodecs', st').

Definition extendExts : M (list json * list json) (list json) := fun st =>
  let '(r, (remoteExts, localExts)) := collect_ref extendRemoteExt st.2 st.1 in
  (r, (localExts, remoteExts)).

(** The state is the pair (localCaps, remoteCaps). *)
Definition getExtendedRtpCapabilities : M (json * json) json :=
  do! on_fst validateRtpCapabilities in
  do! on_snd validateRtpCapabilities in
  let! codecs :=
    on_arrays "codecs" (let! extendedCodecs := extendCodecs in extendAllRtx extendedCodecs) in
  let! headerExtensions := on_arrays "headerExtensions" extendExts in
  ret (jobj [("codecs", JArray codecs); ("headerExtensions", JArray headerExtensions)]).

(** ** Capabilities for receiving *)

(** [codec["channels"] = extendedCodec["channels"]] when the latter is there. *)
Definition copyChannels (extendedCodec : json) (codec : json) : json :=
  match find "channels" extendedCodec with
  | Some channels => on_object (obj_insert "channels" channels) codec
  | None => codec
  end.

Definition recvCodecs (extendedCodec : json) : result (list json) :=
  let? mimeType := cget "mimeType" extendedCodec in
  let? kind := cget "kind" extendedCodec in
  let? remotePayloadType := cget "remotePayloadType" extendedCodec in
  let? clockRate := cget "clockRate" extendedCodec in
  let? localParameters := cget "localParameters" extendedCodec in
  let? rtcpFeedback := cget "rtcpFeedback" extendedCodec in
  let codec := copyChannels extendedCodec (jobj [
    ("mimeType", mimeType); ("kind", kind); ("preferredPayloadType", remotePayloadType);
    ("clockRate", clockRate); ("parameters", localParameters);
    ("rtcpFeedback", rtcpFeedback) ]) in
  (* Add RTX codec. *)
  let? remoteRtxPayloadType := cget "remoteRtxPayloadType" extendedCodec in
  if json_eq remoteRtxPayloadType JNull then Ok [codec] else
  let? kindString := get_string kind in
  let? apt := get_uint 8 remotePayloadType in
  let rtxCodec := jobj [
    ("mimeType", JString (kindString +:+ "/rtx")); ("kind", kind);
    ("preferredPayloadType", remoteRtxPayloadType); ("clockRate", clockRate);
    ("parameters", jobj [("apt", JUInt apt)]); ("rtcpFeedback", JArray []) ] in
  Ok [codec; rtxCodec].

Definition recvExts (extendedExtension : json) : result (list json) :=
  let? direction := cget_string "direction" extendedExtension in
  (* Ignore RTP extensions not valid for receiving. *)
  if negb (String.eqb direction "sendrecv") && negb (String.eqb direction "recvonly") then Ok []
  else
    let? kind := cget "kind" extendedExtension in
    let? uri := cget "uri" extendedExtension in
    let? recvId := cget "recvId" extendedExtension in
    let? encrypt := cget "encrypt" extendedExtension in
    Ok [jobj [("kind", kind); ("uri", uri); ("preferredId", recvId);
              ("preferredEncrypt", encrypt); ("direction", JString direction)]].

Definition getRecvRtpCapabilities (extendedRtpCapabilities : json) : result json :=
  let? extendedCodecs := cget "codecs" extendedRtpCapabilities in
  let? codecs := collect recvCodecs (elems extendedCodecs) in
  let? extendedExts := cget "headerExtensions" extendedRtpCapabilities in
  let? headerExtensions := collect recvExts (elems extendedExts) in
  Ok (jobj [("codecs", JArray codecs); ("headerExtensions", JArray headerExtensions)]).

(** ** Parameters for sending *)

(** [kind == j["kind"].get<std::string>()] *)
Definition has_kind (kind : string) (j : json) : result bool :=
  let? k := cget_string "kind" j in Ok (String.eqb kind k).

(** The codec of an extended codec, with its RTX codec; [parametersKey] is
    [localParameters] or [remoteParameters]. *)
Definition sendCodecs (parametersKey : string) (extendedCodec : json) : result (list json) :=
  let? mimeType := cget "mimeType" extendedCodec in
  let? localPayloadType := cget "localPayloadType" extendedCodec in
  let? clockRate := cget "clockRate" extendedCodec in
  let? parameters := cget parametersKey extendedCodec in
  let? rtcpFeedback := cget "rtcpFeedback" extendedCodec in
  let codec := copyChannels extendedCodec (jobj [
    ("mimeType", mimeType); ("payloadType", localPayloadType); ("clockRate", clockRate);
    ("parameters", parameters); ("rtcpFeedback", rtcpFeedback) ]) in
  (* Add RTX codec. *)
  let? localRtxPayloadType := cget "localRtxPayloadType" extendedCodec in
  if json_eq localRtxPayloadType JNull then Ok [codec] else
  let? kindString := cget_string "kind" extendedCodec in
  let? apt := get_uint 8 localPayloadType in
  let rtxCodec := jobj [
    ("mimeType", JString (kindString +:+ "/rtx")); ("payloadType", localRtxPayloadType);
    ("clockRate", clockRate); ("parameters", jobj [("apt", JUInt apt)]);
    ("rtcpFeedback", JArray []) ] in
  Ok [codec; rtxCodec].

Definition sendExts (kind : string) (extendedExtension : json) : result (list json) :=
  let? same := has_kind kind extendedExtension in
  if negb same then Ok [] else
  let? direction := cget_string "direction" extendedExtension in
  (* Ignore RTP extensions not valid for sending. *)
  if negb (String.eqb direction "sendrecv") && negb (String.eqb direction "sendonly") then Ok []
  else
    let? uri := cget "uri" extendedExtension in
    let? sendId := cget "sendId" extendedExtension in
    let? encrypt := cget "encrypt" extendedExtension in
    Ok [jobj [("uri", uri); ("id", sendId); ("encrypt", encrypt); ("parameters", JObject [])]].

(** The RTP parameters made of the given codecs and header extensions. *)
Definition sendingParameters (codecs headerExtensions : list json) : json :=
  jobj [("mid", JNull); ("codecs", JArray codecs); ("headerExtensions", JArray headerExtensions);
        ("encodings", JArray []); ("rtcp", JObject [])].

(** Both loops; the one over codecs stops at the first codec of the kind. *)
Definition sendingLists (parametersKey kind : string) (extendedRtpCapabilities : json) :
    result (list json * list json) :=
  let? extendedCodecs := cget "codecs" extendedRtpCapabilities in
  let? extendedCodec := find_if (has_kind kind) (elems extendedCodecs) in
  let? codecs := (match extendedCodec with
                  | Some c => sendCodecs parametersKey c
                  | None => Ok []
                  end) in
  let? extendedExts := cget "headerExtensions" extendedRtpCapabilities in
  let? headerExtensions := collect (sendExts kind) (elems extendedExts) in
  Ok (codecs, headerExtensions).

Definition getSendingRtpParameters (kind : string) (extendedRtpCapabilities : json) :
    result json :=
  let? l := sendingLists "localParameters" kind extendedRtpCapabilities in
  Ok (sendingParameters l.1 l.2).

Definition transportCcUri : string :=
  "http://www.ietf.org/id/draft-holmer-rmcat-transport-wide-cc-extensions-01".
Definition absSendTimeUri : string :=
  "http://www.webrtc.org/experiments/rtp-hdrext/abs-send-time".

(** [ext["uri"].get<std::string>() == uri] *)
Definition has_uri (uri : string) (ext : json) : result bool :=
  let? u := ref_string "uri" ext in Ok (String.eqb u uri).

(** The loop that erases the feedback entries whose type satisfies [drop], over
    the elements of an array or the entries of an object. *)
Fixpoint eraseFeedback {A} (value : A -> json) (drop : string -> bool) (l : list A) :
    result (list A) :=
  match l with
  | [] => Ok []
  | x :: l =>
      let? type := ref_string "type" (value x) in
      let? rest := eraseFeedback value drop l in
      Ok (if drop type then rest else x :: rest)
  end.

(** The same on [codec["rtcpFeedback"]]. *)
Definition reduceCodecFeedback (drop : string -> bool) (codec : json) : result (list json) :=
  let? rtcpFeedback := ref_value "rtcpFeedback" codec in
  let? rtcpFeedback' :=
    (match rtcpFeedback with
     | JArray l => let? l' := eraseFeedback id drop l in Ok (JArray l')
     | JObject m => let? m' := eraseFeedback snd drop m in Ok (JObject m')
     | JNull => Ok JNull
     | _ => Throw (JsonTypeError 305)
     end) in
  Ok [on_object (obj_insert "rtcpFeedback" rtcpFeedback') codec].

Definition getSendingRemoteRtpParameters (kind : string) (extendedRtpCapabilities : json) :
    result json :=
  let? l := sendingLists "remoteParameters" kind extendedRtpCapabilities in
  (* Reduce codecs' RTCP feedback. Use Transport-CC if available, REMB otherwise. *)
  let? transportCc := find_if (has_uri transportCcUri) l.2 in
  let? drop :=
    (match transportCc with
     | Some _ => Ok (fun type => String.eqb type "goog-remb")
     | None =>
         let? absSendTime := find_if (has_uri absSendTimeUri) l.2 in
         Ok (match absSendTime with
             | Some _ => fun type => String.eqb type "transport-cc"
             | None => fun type => String.eqb type "transport-cc" || String.eqb type "goog-remb"
             end)
     end) in
  let? codecs := collect (reduceCodecFeedback drop) l.1 in
  Ok (sendingParameters codecs l.2).

(** ** Probator, tests and reduction *)

Definition ProbatorSsrc : Z := 1234.
Definition ProbatorMid : string := "probator".

Definition probatorExts (ext : json) : result (list json) :=
  let? uri := ref_value "uri" ext in
  Ok (if json_eq uri (JString absSendTimeUri) || json_eq uri (JString transportCcUri)
      then [ext] else []).

Definition generateProbatorRtpParameters (videoRtpParameters : json) : result json :=
  let '(r, validatedRtpParameters) := validateRtpParameters videoRtpParameters in
  let? _ := r in
  let? codec := fst (at_key "codecs" (at_idx 0 get) validatedRtpParameters) in
  let? exts := ref_value "headerExtensions" validatedRtpParameters in
  let? headerExtensions := collect probatorExts (elems exts) in
  Ok (jobj [("mid", JString ProbatorMid); ("codecs", JArray [codec]);
            ("headerExtensions", JArray headerExtensions);
            ("encodings", JArray [jobj [("ssrc", JUInt ProbatorSsrc)]]);
            ("rtcp", jobj [("cname", JString "probator")])]).

Definition canSend (kind : string) (extendedRtpCapabilities : json) : result bool :=
  let? codecs := cget "codecs" extendedRtpCapabilities in
  let? codecIt := find_if (has_kind kind) (elems codecs) in
  Ok (bool_decide (is_Some codecIt)).

Definition canReceive (extendedRtpCapabilities : json) : M json bool :=
  do! validateRtpParameters in
  let! codecs := ref "codecs" in
  if empty codecs then ret false else
  let! payloadType := at_key "codecs" (at_idx 0 (ref "payloadType")) in
  let! codecs := lift (cget "codecs" extendedRtpCapabilities) in
  let! codecIt :=
    lift (find_if (fun codec =>
      let? pt := cget "remotePayloadType" codec in
      Ok (json_eq pt payloadType)) (elems codecs)) in
  ret (bool_decide (is_Some codecIt)).

(** [f(codecs[i], cap)] on (codecs, cap). *)
Definition with_idx {T A} (i : nat) (f : M (json * T) A) : M (json * T) A := fun st =>
  match at_idx i (fun x => let '(r, (x', t')) := f (x, st.2) in (Ok (r, t'), x')) st.1 with
  | (Ok (r, t'), codecs') => (r, (codecs', t'))
  | (Throw e, codecs') => (Throw e, (codecs', st.2))
  | (Undef, codecs') => (Undef, (codecs', st.2))
  end.

(** The loop over the codecs, from [idx] on. *)
Fixpoint reduceFrom (n idx : nat) : M (json * json) (list json) :=
  match n with
  | O => ret []
  | S n =>
      let! matching := with_idx idx (matchCodecs false false) in
      if matching then
        let! codec := on_fst (at_idx idx get) in
        let! next := on_fst (at_idx (S idx) get) in
        let! rtx := lift (isRtxCodec next) in
        ret (if rtx then [codec; next] else [codec])
      else reduceFrom n (S idx)
  end.

(** The state is (codecs, capCodec), with [None] for a null pointer. *)
Definition reduceCodecs : M (json * option json) json := fun st =>
  match st.2 with
  | Some (JObject m) =>
      let '(r, (codecs', cap')) := reduceFrom (size st.1) 0 (st.1, JObject m) in
      (let? l := r in
       if Nat.eqb (length l) 0 then Throw (TypeError "no matching codec found")
       else Ok (JArray l),
       (codecs', Some cap'))
  | _ =>
      on_fst (
        let! first := at_idx 0 get in
        let! codecs := get in
        if Nat.ltb 1 (size codecs) then
          let! second := at_idx 1 get in
          let! rtx := lift (isRtxCodec second) in
          ret (JArray (if rtx then [first; second] else [first]))
        else ret (JArray [first])) st
  end.
