(* ===== verification/OrtcMatch.v ===== *)
(** * Codec matching: the proofs

    What [matchCodecs] and the searches of getExtendedRtpCapabilities do on
    validated codecs. *)

From Stdlib Require Import Ascii.
From stdpp Require Import gmap.
From S2P Require Import Prelude Json Regex Validator OrtcValidate OrtcContracts OrtcValidated.
From S2P Require Import H264 Ortc.

(** ** Reading through references *)

Lemma run_ref k m v : obj_find k m = Some v -> ref k (JObject m) = (Ok v, JObject m).
Proof.
  intros H. unfold ref, at_key. simpl. rewrite H. simpl. rewrite H. simpl.
  by rewrite obj_replace_id.
Qed.

Lemma run_ref_none k m :
  obj_find k m = None -> ref k (JObject m) = (Ok JNull, JObject (obj_insert k JNull m)).
Proof.
  intros H. unfold ref, at_key. simpl. rewrite H. lookups. rewrite String.eqb_refl. simpl.
  rewrite obj_replace_id; [done|]. lookups. by rewrite String.eqb_refl.
Qed.

Lemma run_at_key {A} k m v (f : M json A) r v' :
  obj_find k m = Some v -> f v = (r, v') ->
  at_key k f (JObject m) = (r, JObject (obj_replace k v' m)).
Proof. intros H Hf. unfold at_key. simpl. rewrite H. simpl. rewrite H. simpl. by rewrite Hf. Qed.

Lemma run_at_idx {A} i l x (f : M json A) r x' :
  l !! i = Some x -> f x = (r, x') -> at_idx i f (JArray l) = (r, JArray (<[i := x']> l)).
Proof.
  intros Hi Hf. unfold at_idx. simpl.
  replace (S i - length l)%nat with 0%nat by (apply lookup_lt_Some in Hi; lia).
  by rewrite app_nil_r, Hi; simpl; rewrite Hf.
Qed.

Lemma bind_on_fst {S T A B} (f : M S A) (g : A -> M (S * T) B) s t a s' :
  f s = (Ok a, s') -> bind (on_fst f) g (s, t) = g a (s', t).
Proof. intros H. unfold bind, on_fst. simpl. by rewrite H. Qed.
Lemma bind_on_snd {S T A B} (f : M T A) (g : A -> M (S * T) B) s t a t' :
  f t = (Ok a, t') -> bind (on_snd f) g (s, t) = g a (s, t').
Proof. intros H. unfold bind, on_snd. simpl. by rewrite H. Qed.
Lemma bind_lift {S A B} (r : result A) (g : A -> M S B) s a :
  r = Ok a -> bind (lift r) g s = g a s.
Proof. by intros ->. Qed.

(** ** Validated codecs *)

(** A string or an integer: what the identifiers of a profile are read from. *)
Definition id_ok (v : json) : bool := is_string v || is_number_integer v.

Definition ids_ok (p : list (string * json)) : bool :=
  it_none_or id_ok (obj_find "profile-level-id" p) && it_none_or id_ok (obj_find "profile-id" p).

(** A codec as validation leaves it, whose profile identifiers (if any) can be read. *)
Record codec_inv (m : list (string * json)) (mime : string) (p : list (string * json)) : Prop := {
  inv_mime : obj_find "mimeType" m = Some (JString mime);
  inv_mime_ok : matches MimeTypeRegex mime = true;
  inv_kind : obj_find "kind" m = Some (JString (mimeKind (Some (JString mime))));
  inv_clock : it_is is_number_integer (obj_find "clockRate" m) = true;
  inv_pt : it_none_or (fun v => is_null v || is_number_integer v)
    (obj_find "preferredPayloadType" m) = true;
  inv_params : obj_find "parameters" m = Some (JObject p);
  inv_params_ok : Forall (fun kv => codecParameterOk kv = true) p;
  inv_ids : ids_ok p = true;
  inv_feedback : it_is (array_of completeRtcpFeedback) (obj_find "rtcpFeedback" m) = true
}.

Definition opt_eq (a b : option json) : bool :=
  match a, b with
  | Some x, Some y => json_eq x y
  | None, None => true
  | _, _ => false
  end.

(** The conditions of matchCodecs before it looks at the profiles. *)
Definition alike (a b : list (string * json)) (aMime bMime : string) : bool :=
  String.eqb (tolower aMime) (tolower bMime) &&
  opt_eq (obj_find "clockRate" a) (obj_find "clockRate" b) &&
  opt_eq (obj_find "channels" a) (obj_find "channels" b).

Section Match.
Context {a b : list (string * json)} {aMime bMime : string} {ap bp : list (string * json)}.
Hypothesis Ha : codec_inv a aMime ap.
Hypothesis Hb : codec_inv b bMime bp.

Lemma matchCodecs_run strict modify :
matchCodecs strict modify (JObject a, JObject b) =
if negb (alike a b aMime bMime) then (Ok false, (JObject a, JObject b))
else if strict && String.eqb (tolower aMime) "video/h264" then
  matchH264 modify (JObject a, JObject b)
else if strict && String.eqb (tolower aMime) "video/vp9" then
  bind (lift (getVP9ProfileId (JObject a))) (fun x =>
  bind (lift (getVP9ProfileId (JObject b))) (fun y => ret (String.eqb x y)))
    (JObject a, JObject b)
else (Ok true, (JObject a, JObject b)).
Proof using Ha Hb.
unfold matchCodecs, alike. run. rewrite (inv_mime _ _ _ Ha), (inv_mime _ _ _ Hb). simpl.
unfold lift at 1 2. run. unfold bind at 1 2.
destruct (String.eqb (tolower aMime) (tolower bMime)) eqn:Em; simpl; [|done].
pose proof (inv_clock _ _ _ Ha) as Hca. pose proof (inv_clock _ _ _ Hb) as Hcb.
destruct (obj_find "clockRate" a) as [ca|] eqn:Eca; [|done].
destruct (obj_find "clockRate" b) as [cb|] eqn:Ecb; [|done].
erewrite bind_on_fst by (by apply run_ref). erewrite bind_on_snd by (by apply run_ref).
simpl. destruct (json_eq ca cb); simpl; [|done]. unfold contains. simpl.
destruct (obj_find "channels" a) as [na|] eqn:Ena, (obj_find "channels" b) as [nb|] eqn:Enb;
  simpl; try done.
- rewrite run_bind_bind. erewrite bind_on_fst by (by apply run_ref).
  rewrite run_bind_bind. erewrite bind_on_snd by (by apply run_ref).
  rewrite run_bind_ret.
  destruct (json_eq na nb), strict, (String.eqb (tolower aMime) "video/h264"); simpl; try done;
    by destruct (String.eqb (tolower aMime) "video/vp9").
- rewrite run_bind_ret. simpl.
  destruct strict, (String.eqb (tolower aMime) "video/h264"); simpl; try done;
    by destruct (String.eqb (tolower aMime) "video/vp9").
Qed.
End Match.

(** ** Reading the codec parameters *)

Lemma get_uint8_integer v : is_number_integer v = true -> exists n, get_uint 8 v = Ok n.
Proof. destruct v; try done; simpl; eauto. Qed.

(** ** What matching changes *)

(** [m'] is [m] up to its payload type being written out as null and, for H.264,
    the profile-level-id of its parameters. *)
Record codec_sim (m : list (string * json)) (p : list (string * json)) (m' p' : list (string * json)) : Prop := {
  sim_find k : k <> "parameters" -> k <> "preferredPayloadType" ->
    obj_find k m' = obj_find k m;
  sim_pt : default JNull (obj_find "preferredPayloadType" m') =
    default JNull (obj_find "preferredPayloadType" m);
  sim_params k : k <> "profile-level-id" -> obj_find k p' = obj_find k p
}.

Lemma codec_sim_refl m p : codec_sim m p m p.
Proof. by split. Qed.
Lemma codec_sim_trans m1 p1 m2 p2 m3 p3 :
  codec_sim m1 p1 m2 p2 -> codec_sim m2 p2 m3 p3 -> codec_sim m1 p1 m3 p3.
Proof.
  intros H1 H2. split.
  - intros k ??. by rewrite (sim_find _ _ _ _ H2), (sim_find _ _ _ _ H1).
  - by rewrite (sim_pt _ _ _ _ H2), (sim_pt _ _ _ _ H1).
  - intros k ?. by rewrite (sim_params _ _ _ _ H2), (sim_params _ _ _ _ H1).
Qed.

(** The profile-level-id of the answer written into a codec. *)
Definition with_level_id (id : string) (m p : list (string * json)) :=
  obj_replace "parameters" (JObject (obj_insert "profile-level-id" (JString id) p)) m.

Lemma with_level_id_inv id m mime p :
  codec_inv m mime p ->
  codec_inv (with_level_id id m p) mime (obj_insert "profile-level-id" (JString id) p).
Proof.
  intros H. unfold with_level_id. split; rewrite ?obj_find_replace; simpl; try apply H.
  - by rewrite (inv_params _ _ _ H).
  - apply obj_insert_Forall; [done|apply H].
  - pose proof (inv_ids _ _ _ H) as [_ Hi]%andb_true_iff. unfold ids_ok. by lookups.
Qed.

Lemma with_level_id_sim id m mime p :
  codec_inv m mime p ->
  codec_sim m p (with_level_id id m p) (obj_insert "profile-level-id" (JString id) p).
Proof.
  intros H. unfold with_level_id. split; intros; lookups; try done.
  - destruct (String.eqb_spec k "parameters"); done.
  - destruct (String.eqb_spec k "profile-level-id"); done.
Qed.

Lemma run_with_level_id id m mime p :
  codec_inv m mime p ->
  at_key "parameters" (set_key "profile-level-id" (JString id)) (JObject m) =
  (Ok tt, JObject (with_level_id id m p)).
Proof. intros H. by apply (run_at_key _ _ _ _ _ _ (inv_params _ _ _ H)). Qed.

Lemma h264_parameters_id x y id : h264_parameters x y id !! "profile-level-id" = Some id.
Proof.
  unfold h264_parameters. rewrite !lookup_insert_ne by done. apply lookup_insert_eq.
Qed.

(** ** When codecs match, on the values themselves *)

Definition parameter (k : string) (j : json) : option json :=
  match find "parameters" j with Some p => find k p | None => None end.

(** An integer parameter as an 8 bit number, 0 when it is missing or no integer. *)
Definition small_parameter (k : string) (j : json) : Z :=
  match parameter k j with Some (JInt z) | Some (JUInt z) => uint 8 z | _ => 0 end.

(** A profile identifier as text. *)
Definition id_parameter (k : string) (missing : string) (j : json) : string :=
  match parameter k j with
  | Some (JString s) => s
  | Some (JInt z) | Some (JUInt z) => to_string (sint 32 z)
  | _ => missing
  end.

(** The profile-level-id two H.264 codecs agree on: that of their common profile, with the level
    of the first when both allow asymmetry and the lower level otherwise. *)
Definition h264_answer (a b : json) : option string :=
  match ParseH264ProfileLevelId (id_parameter "profile-level-id" "" a),
        ParseH264ProfileLevelId (id_parameter "profile-level-id" "" b) with
  | Some x, Some y =>
      if bool_decide (profile x = profile y) then
        H264ProfileLevelIdToString {| profile := profile x;
          level := if (small_parameter "level-asymmetry-allowed" a =? 1) &&
                      (small_parameter "level-asymmetry-allowed" b =? 1)
                   then level x
                   else if H264LevelIsLess (level x) (level y) then level x else level y |}
      else None
  | _, _ => None
  end.

Definition mime_is (mime : string) (j : json) : bool := String.eqb (tolower (text "mimeType" j)) mime.

(** The conditions on mimeType, clockRate and channels. *)
Definition codecs_alike (a b : json) : bool :=
  String.eqb (tolower (text "mimeType" a)) (tolower (text "mimeType" b)) &&
  opt_eq (find "clockRate" a) (find "clockRate" b) &&
  opt_eq (find "channels" a) (find "channels" b).

(** H.264 codecs match with the same packetization mode and a common profile, VP9 codecs with
    the same profile. *)
Definition strict_match (a b : json) : bool :=
  codecs_alike a b &&
  (if mime_is "video/h264" a then
     (small_parameter "packetization-mode" a =? small_parameter "packetization-mode" b) &&
     bool_decide (is_Some (h264_answer a b))
   else if mime_is "video/vp9" a then
     String.eqb (id_parameter "profile-id" "0" a) (id_parameter "profile-id" "0" b)
   else true).

(** What a match writes into both codecs. *)
Definition agreed_id (a b : json) : option string :=
  if mime_is "video/h264" a then h264_answer a b else None.
Definition set_id (id : option string) (j : json) : json :=
  match id, find "parameters" j with
  | Some id, Some (JObject p) =>
      on_object (obj_replace "parameters" (JObject (obj_insert "profile-level-id" (JString id) p))) j
  | _, _ => j
  end.

Section Readers.
Context {m : list (string * json)} {mime : string} {p : list (string * json)}.
Hypothesis I : codec_inv m mime p.

Lemma read_parameter k : parameter k (JObject m) = obj_find k p.
Proof using I. unfold parameter. simpl. by rewrite (inv_params _ _ _ I). Qed.

Lemma read_uint8 k : uint8_parameter k (JObject m) = Ok (small_parameter k (JObject m)).
Proof using I.
unfold uint8_parameter, small_parameter. rewrite read_parameter. simpl.
rewrite (inv_params _ _ _ I). simpl. by destruct (obj_find k p) as [[]|].
Qed.

Lemma read_level_id :
getH264ProfileLevelId (JObject m) = Ok (id_parameter "profile-level-id" "" (JObject m)).
Proof using I.
pose proof (inv_ids _ _ _ I) as [Hi _]%andb_true_iff.
unfold getH264ProfileLevelId, id_parameter. rewrite read_parameter. simpl.
rewrite (inv_params _ _ _ I). simpl. by destruct (obj_find "profile-level-id" p) as [[]|].
Qed.

Lemma read_vp9_id : getVP9ProfileId (JObject m) = Ok (id_parameter "profile-id" "0" (JObject m)).
Proof using I.
pose proof (inv_ids _ _ _ I) as [_ Hi]%andb_true_iff.
unfold getVP9ProfileId, id_parameter. rewrite read_parameter. simpl.
rewrite (inv_params _ _ _ I). simpl. by destruct (obj_find "profile-id" p) as [[]|].
Qed.

Lemma read_mime mime' : mime_is mime' (JObject m) = String.eqb (tolower mime) mime'.
Proof using I. unfold mime_is, text. simpl. by rewrite (inv_mime _ _ _ I). Qed.

Lemma set_id_some id : set_id (Some id) (JObject m) = JObject (with_level_id id m p).
Proof using I. unfold set_id. simpl. by rewrite (inv_params _ _ _ I). Qed.
End Readers.

Lemma codecs_alike_inv a b aMime bMime ap bp :
  codec_inv a aMime ap -> codec_inv b bMime bp ->
  codecs_alike (JObject a) (JObject b) = alike a b aMime bMime.
Proof.
  intros Ha Hb. unfold codecs_alike, alike, text. simpl.
  by rewrite (inv_mime _ _ _ Ha), (inv_mime _ _ _ Hb).
Qed.

(** The strings of the bits that allow asymmetry. *)
Lemma asymmetry_text z mode id :
  0 <= z < 256 -> IsH264LevelAsymmetryAllowed (h264_parameters z mode id) = (z =? 1).
Proof.
  intros Hz. unfold IsH264LevelAsymmetryAllowed, h264_parameters. rewrite lookup_insert_eq.
  assert (Hall : forallb (fun i => Bool.eqb (String.eqb (c_str (to_string (Z.of_nat i))) "1") (Z.of_nat i =? 1))
    (seq 0 256) = true) by by vm_compute.
  rewrite forallb_forall in Hall. specialize (Hall (Z.to_nat z)). rewrite in_seq, Z2Nat.id in Hall by lia.
  apply Bool.eqb_prop. simpl. apply Hall. lia.
Qed.

Lemma small_parameter_range k j : 0 <= small_parameter k j < 256.
Proof.
  unfold small_parameter. destruct (parameter k j) as [[]|]; try lia; unfold uint; apply Z.mod_pos_bound; lia.
Qed.

Section MatchExact.
Context {a b : list (string * json)} {aMime bMime : string} {ap bp : list (string * json)}.
Hypothesis Ha : codec_inv a aMime ap.
Hypothesis Hb : codec_inv b bMime bp.

Let ids := h264_answer (JObject a) (JObject b).

(** The answer of webrtc for the parameters of the codecs. *)
Lemma h264_answer_run :
let l := h264_parameters (small_parameter "level-asymmetry-allowed" (JObject a))
  (small_parameter "packetization-mode" (JObject a)) (id_parameter "profile-level-id" "" (JObject a)) in
let r := h264_parameters (small_parameter "level-asymmetry-allowed" (JObject b))
  (small_parameter "packetization-mode" (JObject b)) (id_parameter "profile-level-id" "" (JObject b)) in
if H264IsSameProfile l r then
  exists id, ids = Some id /\ H264GenerateProfileLevelIdForAnswer l r ∅ = Ok (<["profile-level-id" := id]> ∅)
else ids = None.
Proof.
cbv zeta. unfold H264IsSameProfile, ids, h264_answer, ParseSdpForH264ProfileLevelId.
rewrite !h264_parameters_id.
destruct (ParseH264ProfileLevelId (id_parameter _ _ (JObject a))) as [x|] eqn:Ex; [|done].
destruct (ParseH264ProfileLevelId (id_parameter _ _ (JObject b))) as [y|] eqn:Ey; [|done].
case_bool_decide as Hp; [|done].
destruct (Answer_run (h264_parameters (small_parameter "level-asymmetry-allowed" (JObject a))
  (small_parameter "packetization-mode" (JObject a)) (id_parameter "profile-level-id" "" (JObject a)))
  (h264_parameters (small_parameter "level-asymmetry-allowed" (JObject b))
  (small_parameter "packetization-mode" (JObject b)) (id_parameter "profile-level-id" "" (JObject b))) ∅ x y)
  as (id & Hrun & _); try done.
{ left. by rewrite h264_parameters_id. }
exists id. split; [|done].
revert Hrun. unfold H264GenerateProfileLevelIdForAnswer, ParseSdpForH264ProfileLevelId.
rewrite !h264_parameters_id, Ex, Ey, !asymmetry_text by apply small_parameter_range. simpl.
unfold H264LevelMin. destruct (H264ProfileLevelIdToString _) as [s|]; [|done]. simpl.
intros E. apply (f_equal (fun r : result Parameters =>
  match r with Ok m => m !! "profile-level-id" | _ => None end)) in E.
by rewrite !lookup_insert_eq in E.
Qed.

Lemma matchH264_exact :
matchH264 true (JObject a, JObject b) =
if (small_parameter "packetization-mode" (JObject a) =? small_parameter "packetization-mode" (JObject b)) &&
   bool_decide (is_Some ids)
then (Ok true, (set_id ids (JObject a), set_id ids (JObject b)))
else (Ok false, (JObject a, JObject b)).
Proof using Ha Hb.
unfold matchH264, getH264PacketizationMode, getH264LevelAssimetryAllowed. rewrite run_bind_get.
simpl. rewrite (bind_lift _ _ _ _ (read_uint8 Ha _)), (bind_lift _ _ _ _ (read_uint8 Hb _)).
destruct (_ =? _); simpl; [|done].
rewrite (bind_lift _ _ _ _ (read_uint8 Ha _)), (bind_lift _ _ _ _ (read_level_id Ha)),
  (bind_lift _ _ _ _ (read_uint8 Hb _)), (bind_lift _ _ _ _ (read_level_id Hb)).
pose proof h264_answer_run as Hans. cbv zeta in Hans.
destruct (H264IsSameProfile _ _); [|by rewrite Hans].
destruct Hans as (id & Hid & Hans). change (negb true) with false. cbv iota.
rewrite (bind_lift _ _ _ _ Hans), lookup_insert_eq. simpl. rewrite run_bind_bind.
erewrite bind_on_fst by (by apply (run_with_level_id id _ _ _ Ha)).
erewrite bind_on_snd by (by apply (run_with_level_id id _ _ _ Hb)).
rewrite Hid, bool_decide_eq_true_2, (set_id_some Ha), (set_id_some Hb) by done. done.
Qed.

(** Matching of validated codecs, exactly. *)
Lemma matchCodecs_exact :
matchCodecs true true (JObject a, JObject b) =
(Ok (strict_match (JObject a) (JObject b)),
 if strict_match (JObject a) (JObject b) then
   (set_id (agreed_id (JObject a) (JObject b)) (JObject a), set_id (agreed_id (JObject a) (JObject b)) (JObject b))
 else (JObject a, JObject b)).
Proof using Ha Hb.
unfold strict_match, agreed_id. rewrite (matchCodecs_run Ha Hb), (codecs_alike_inv _ _ _ _ _ _ Ha Hb).
rewrite !(read_mime Ha). destruct (alike a b aMime bMime); [|done]. simpl.
destruct (String.eqb (tolower aMime) "video/h264"); [rewrite matchH264_exact; fold ids; by destruct (_ && _)|].
destruct (String.eqb (tolower aMime) "video/vp9"); [|done].
rewrite (bind_lift _ _ _ _ (read_vp9_id Ha)), (bind_lift _ _ _ _ (read_vp9_id Hb)).
by destruct (String.eqb _ _).
Qed.
End MatchExact.
(** ** What matching leaves *)

(** [j] is a validated codec; [j'] the same after some matching. *)
Definition codec_ok (j : json) : Prop := exists m mime p, j = JObject m /\ codec_inv m mime p.
Definition codec_like (j j' : json) : Prop :=
  exists m mime p m' p', j = JObject m /\ j' = JObject m' /\
    codec_inv m mime p /\ codec_inv m' mime p' /\ codec_sim m p m' p'.

Lemma codec_like_refl j : codec_ok j -> codec_like j j.
Proof.
  intros (m & mime & p & -> & H). exists m, mime, p, m, p. by split_and!.
Qed.
Lemma codec_like_trans j1 j2 j3 : codec_like j1 j2 -> codec_like j2 j3 -> codec_like j1 j3.
Proof.
  intros (m1 & mime & p1 & m2 & p2 & -> & -> & I1 & I2 & S1)
    (m2' & mime' & p2' & m3 & p3 & [= <-] & -> & I2' & I3 & S2).
  assert (mime' = mime) as ->.
  { pose proof (inv_mime _ _ _ I2) as E. rewrite (inv_mime _ _ _ I2') in E. by injection E. }
  assert (p2' = p2) as ->.
  { pose proof (inv_params _ _ _ I2) as E. rewrite (inv_params _ _ _ I2') in E. by injection E. }
  exists m1, mime, p1, m3, p3. split_and!; try done. by eapply codec_sim_trans.
Qed.
Lemma codec_like_ok j j' : codec_like j j' -> codec_ok j /\ codec_ok j'.
Proof. intros (m & mime & p & m' & p' & -> & -> & ? & ? & ?). split; by do 3 eexists. Qed.

Lemma codec_like_text j j' : codec_like j j' -> text "mimeType" j' = text "mimeType" j.
Proof.
  intros (m & mime & p & m' & p' & -> & -> & I & I' & _). unfold text. simpl.
  by rewrite (inv_mime _ _ _ I), (inv_mime _ _ _ I').
Qed.

Lemma codec_like_find j j' k :
  codec_like j j' -> k <> "parameters" -> k <> "preferredPayloadType" -> find k j' = find k j.
Proof.
  intros (m & mime & p & m' & p' & -> & -> & _ & _ & S) ??. simpl.
  by apply (sim_find _ _ _ _ S).
Qed.

Lemma set_id_like id j : codec_ok j -> codec_like j (set_id id j).
Proof.
  intros (m & mime & p & -> & I). destruct id as [id|]; [|by apply codec_like_refl; do 3 eexists].
  rewrite (set_id_some I). do 5 eexists. split_and!; [done..| |]; eauto using with_level_id_inv, with_level_id_sim.
Qed.

(** ** The search for a local codec *)

(** The first of the codecs that matches [r], with its position. *)
Fixpoint first_match (r : json) (ls : list json) : option (nat * json) :=
  match ls with
  | [] => None
  | l :: ls => if strict_match l r then Some (0%nat, l) else prod_map S id <$> first_match r ls
  end.

Lemma first_match_lookup r ls i l : first_match r ls = Some (i, l) -> ls !! i = Some l.
Proof.
  revert i. induction ls as [|x ls IH]; intros i; simpl; [done|].
  destruct (strict_match x r); [by intros [= <- <-]|].
  destruct (first_match r ls) as [[k y]|]; [|done]. simpl. intros [= <- <-]. by apply IH.
Qed.

Lemma find_if_ref_match ls r :
  Forall codec_ok ls -> codec_ok r ->
  find_if_ref (matchCodecs true true) ls r =
  match first_match r ls with
  | None => (Ok None, (ls, r))
  | Some (i, l) =>
      (Ok (Some i), (<[i := set_id (agreed_id l r) l]> ls, set_id (agreed_id l r) r))
  end.
Proof.
  intros Hls Hr. induction Hls as [|l ls Hl Hls IH]; [done|]. cbn [find_if_ref first_match].
  destruct Hl as (m & mime & p & -> & I). pose proof Hr as (rm & rmime & rp & -> & Ir).
  rewrite (matchCodecs_exact I Ir). destruct (strict_match _ _); [done|].
  rewrite IH. by destruct (first_match _ ls) as [[i l]|].
Qed.

(** ** Loops whose body does not fail *)

Lemma find_if_pure (p : json -> result bool) q l :
  Forall (fun x => p x = Ok (q x)) l -> find_if p l = Ok (List.find q l).
Proof. induction 1 as [|x l Hx _ IH]; simpl; [done|]. rewrite Hx. simpl. by destruct (q x). Qed.

Lemma collect_pure {A} (f : json -> result (list A)) g l :
  Forall (fun x => f x = Ok (g x)) l -> collect f l = Ok (flat_map g l).
Proof. induction 1 as [|x l Hx _ IH]; simpl; [done|]. by rewrite Hx; simpl; rewrite IH. Qed.

(** ** RTCP feedback *)

Definition fb_eq (a b : json) : bool :=
  opt_eq (find "type" a) (find "type" b) && opt_eq (find "parameter" a) (find "parameter" b).

(** The feedback of [fbB] that some entry of [fbA] asks for, in the order of [fbA]. *)
Definition reducedFeedback (fbA fbB : list json) : list json :=
  flat_map (fun a => match List.find (fb_eq a) fbB with Some b => [b] | None => [] end) fbA.

Definition feedback (j : json) : list json :=
  match find "rtcpFeedback" j with Some (JArray l) => l | _ => [] end.

Lemma completeRtcpFeedback_fields fb :
  completeRtcpFeedback fb = true ->
  exists m t p, fb = JObject m /\ obj_find "type" m = Some (JString t) /\
    obj_find "parameter" m = Some (JString p).
Proof.
  destruct fb as [| | | | | | |m]; try done. simpl.
  destruct (obj_find "type" m) as [[| | | | |t| |]|] eqn:Et; try done.
  destruct (obj_find "parameter" m) as [[| | | | |p| |]|] eqn:Ep; try done.
  intros _. by exists m, t, p.
Qed.

Lemma run_sameFeedback a b :
  completeRtcpFeedback a = true -> completeRtcpFeedback b = true ->
  sameFeedback a b = Ok (fb_eq a b).
Proof.
  intros (ma & ta & pa & -> & Ha & Ha')%completeRtcpFeedback_fields
    (mb & tb & pb & -> & Hb & Hb')%completeRtcpFeedback_fields.
  unfold sameFeedback, fb_eq. simpl. rewrite Ha, Hb, Ha', Hb'. simpl.
  by destruct (String.eqb ta tb).
Qed.

Lemma inv_feedback_list m mime p :
  codec_inv m mime p ->
  obj_find "rtcpFeedback" m = Some (JArray (feedback (JObject m))) /\
  Forall (fun fb => completeRtcpFeedback fb = true) (feedback (JObject m)).
Proof.
  intros I. pose proof (inv_feedback _ _ _ I) as H. unfold feedback. simpl.
  destruct (obj_find "rtcpFeedback" m) as [[| | | | | |l|]|]; try done. split; [done|].
  apply List.Forall_forall. simpl in H. by rewrite forallb_forall in H.
Qed.

Lemma run_reduceRtcpFeedback a b aMime bMime ap bp :
  codec_inv a aMime ap -> codec_inv b bMime bp ->
  reduceRtcpFeedback (JObject a) (JObject b) =
  Ok (JArray (reducedFeedback (feedback (JObject a)) (feedback (JObject b)))).
Proof.
  intros Ia Ib. destruct (inv_feedback_list _ _ _ Ia) as [Ha Fa].
  destruct (inv_feedback_list _ _ _ Ib) as [Hb Fb].
  unfold reduceRtcpFeedback. simpl. rewrite Ha. simpl.
  erewrite collect_pure; [done|]. eapply Forall_impl; [exact Fa|]. intros fa Hfa. simpl.
  rewrite Hb. simpl. erewrite find_if_pure; [done|]. eapply Forall_impl; [exact Fb|].
  intros fb Hfb. by apply run_sameFeedback.
Qed.

(** ** The extended codec of a pair *)

(** The payload type of a codec, null when it has none. *)
Definition payload_type (j : json) : json := default JNull (find "preferredPayloadType" j).
Definition field (k : string) (j : json) : json := default JNull (find k j).

(** The local codec [l] and the remote codec [r] as one; no RTX payload types yet. *)
Definition extended_codec (l r : json) : json :=
  jobj ([("mimeType", field "mimeType" l); ("kind", field "kind" l);
         ("clockRate", field "clockRate" l);
         ("localPayloadType", payload_type l); ("localRtxPayloadType", JNull);
         ("remotePayloadType", payload_type r); ("remoteRtxPayloadType", JNull);
         ("localParameters", field "parameters" l); ("remoteParameters", field "parameters" r);
         ("rtcpFeedback", JArray (reducedFeedback (feedback l) (feedback r)))] ++
        match find "channels" l with Some n => [("channels", n)] | None => [] end).

(** The payload type written out. *)
Definition with_pt (m : list (string * json)) : list (string * json) :=
  obj_set_if (absent (obj_find "preferredPayloadType" m)) "preferredPayloadType" JNull m.

Lemma run_ref_pt m :
  ref "preferredPayloadType" (JObject m) = (Ok (payload_type (JObject m)), JObject (with_pt m)).
Proof.
  unfold payload_type, with_pt, absent. simpl.
  destruct (obj_find "preferredPayloadType" m) eqn:E; simpl; [by apply run_ref|].
  by apply run_ref_none.
Qed.

Lemma with_pt_find k m : k <> "preferredPayloadType" -> obj_find k (with_pt m) = obj_find k m.
Proof. intros H%String.eqb_neq. unfold with_pt. lookups. by rewrite H. Qed.

Lemma with_pt_inv m mime p : codec_inv m mime p -> codec_inv (with_pt m) mime p.
Proof.
  intros I. split; rewrite ?with_pt_find by done; try apply I.
  unfold with_pt, absent. lookups. pose proof (inv_pt _ _ _ I).
  by destruct (obj_find "preferredPayloadType" m).
Qed.

Lemma with_pt_sim m p : codec_sim m p (with_pt m) p.
Proof.
  split; intros; try done; [by apply with_pt_find|]. unfold with_pt, absent. lookups.
  by destruct (obj_find "preferredPayloadType" m).
Qed.

Lemma with_pt_like m mime p : codec_inv m mime p -> codec_like (JObject m) (JObject (with_pt m)).
Proof. intros I. do 5 eexists. split_and!; eauto using with_pt_inv, with_pt_sim. Qed.

(** A payload type that is read while it is missing becomes null. *)
Definition null_pt (j : json) : json := on_object with_pt j.

Section Extend.
Context {l r : list (string * json)} {lMime rMime : string} {lp rp : list (string * json)}.
Hypothesis Hl : codec_inv l lMime lp.
Hypothesis Hr : codec_inv r rMime rp.

Lemma run_extendCodec :
extendCodec (JObject l, JObject r) =
  (Ok (extended_codec (JObject l) (JObject r)), (JObject (with_pt l), JObject (with_pt r))).
Proof using Hl Hr.
pose proof (inv_kind _ _ _ Hl) as Hk. pose proof (inv_clock _ _ _ Hl) as Hc.
destruct (obj_find "clockRate" l) as [c|] eqn:Ec; [|done].
unfold extendCodec.
erewrite bind_on_fst by (apply run_ref, Hl).
erewrite bind_on_fst by (apply run_ref, Hk).
erewrite bind_on_fst by (apply run_ref, Ec).
erewrite bind_on_fst by apply run_ref_pt.
erewrite bind_on_snd by apply run_ref_pt.
pose proof (with_pt_inv _ _ _ Hl) as Hl'. pose proof (with_pt_inv _ _ _ Hr) as Hr'.
erewrite bind_on_fst by (apply run_ref, Hl').
erewrite bind_on_snd by (apply run_ref, Hr').
rewrite run_bind_get. simpl fst; simpl snd.
rewrite (bind_lift _ _ _ _ (run_reduceRtcpFeedback _ _ _ _ _ _ Hl' Hr')).
replace (feedback (JObject (with_pt l))) with (feedback (JObject l))
  by (unfold feedback; simpl; by rewrite with_pt_find).
replace (feedback (JObject (with_pt r))) with (feedback (JObject r))
  by (unfold feedback; simpl; by rewrite with_pt_find).
cbv zeta. unfold contains, extended_codec, field.
change (find "channels" (JObject (with_pt l))) with (obj_find "channels" (with_pt l)).
rewrite with_pt_find by done. unfold find.
rewrite Hk, Ec, (inv_mime _ _ _ Hl), (inv_params _ _ _ Hl), (inv_params _ _ _ Hr).
destruct (obj_find "channels" l) as [ch|] eqn:Ech; [|done].
rewrite bool_decide_eq_true_2 by done.
by erewrite bind_on_fst by (apply run_ref; rewrite with_pt_find by done; exact Ech).
Qed.
End Extend.

(** ** The loop over the remote codecs *)

Definition is_rtx (j : json) : bool := mime_is "audio/rtx" j || mime_is "video/rtx" j.

Lemma RtxMimeTypeRegex_spec s :
  matches RtxMimeTypeRegex s =
  String.eqb (tolower s) "audio/rtx" || String.eqb (tolower s) "video/rtx".
Proof.
  apply eq_true_iff_eq. rewrite orb_true_iff, !String.eqb_eq, matches_spec. unfold RtxMimeTypeRegex. split.
  - intros (c & H).
    apply rel_seq_inv in H as (? & ? & (-> & -> & _)%rel_bol_inv & H).
    apply rel_seq_inv in H as (s1 & ? & (c1 & Hk & ->)%rel_group_inv & H).
    apply rel_seq_inv in H as (s2 & c2 & (-> & w & -> & Hw)%rel_lit_i & H).
    apply rel_eol_inv in H as (-> & _ & _).
    apply rel_alt_inv in Hk as [Hk|Hk]; apply rel_lit_i in Hk as (-> & w1 & -> & Hk);
      rewrite !tolower_app, Hk, Hw; [by left|by right].
  - intros Hs.
    assert (exists k w, s = k +:+ w /\ (tolower k = "audio" \/ tolower k = "video") /\ tolower w = "/rtx")
      as (k & w & -> & Hk & Hw).
    { do 5 (destruct s as [|? s]; [by destruct Hs|]).
      match goal with |- context [String ?a (String ?b (String ?c (String ?d (String ?e s))))] =>
        exists (String a (String b (String c (String d (String e ""))))), s end.
      split; [done|]. cbn in Hs |- *. destruct Hs as [Hs|Hs]; injection Hs as -> -> -> -> -> ->; auto. }
    eexists. apply rel_seq_inv. do 2 eexists. split; [by apply rel_bol_inv|].
    apply rel_seq_inv. do 2 eexists. split.
    { apply rel_group_inv. eexists. split; [|done]. apply rel_alt_inv.
      destruct Hk; [left|right]; apply rel_lit_i; (split; [done|]); by exists k. }
    apply rel_seq_inv. do 2 eexists. split; [apply rel_lit_i; split; [done|]|by apply rel_eol_inv].
    exists w. by rewrite str_app_nil_r.
Qed.

Lemma isRtxCodec_mime j mime : find "mimeType" j = Some (JString mime) -> is_object j = true ->
  isRtxCodec j = Ok (is_rtx j).
Proof.
  destruct j; try done. simpl. intros H _. unfold isRtxCodec, is_rtx, mime_is, cget_string, text. simpl.
  rewrite H. simpl. by rewrite RtxMimeTypeRegex_spec.
Qed.
Lemma run_isRtxCodec j : codec_ok j -> isRtxCodec j = Ok (is_rtx j).
Proof. intros (m & mime & p & -> & I). by apply (isRtxCodec_mime _ mime); [apply I|]. Qed.

Lemma is_rtx_like j j' : codec_like j j' -> is_rtx j' = is_rtx j.
Proof. intros H. unfold is_rtx, mime_is. by rewrite (codec_like_text _ _ H). Qed.

Lemma Forall2_like_ok ls ls' :
  Forall2 codec_like ls ls' -> Forall codec_ok ls /\ Forall codec_ok ls'.
Proof.
  induction 1 as [|x y ls ls' Hxy _ [IH1 IH2]]; [done|]. apply codec_like_ok in Hxy as [? ?].
  split; by constructor.
Qed.

Lemma Forall2_like_insert ls ls' i l l' :
  Forall2 codec_like ls ls' -> ls' !! i = Some l -> codec_like l l' ->
  Forall2 codec_like ls (<[i := l']> ls').
Proof.
  intros H. revert i. induction H as [|x y ls ls' Hxy H IH]; intros [|i] Hi Hl; try done.
  - simpl in *. simplify_eq. constructor; [by eapply codec_like_trans|done].
  - simpl. constructor; [done|]. by apply IH.
Qed.

Lemma Forall2_lookup_like ls ls' i l' :
  Forall2 codec_like ls ls' -> ls' !! i = Some l' -> exists l, In l ls /\ codec_like l l'.
Proof.
  intros H. revert i. induction H as [|x y ls ls' Hxy H IH]; intros [|i] Hi; try done; simpl in *.
  - simplify_eq. eauto.
  - destruct (IH i Hi) as (l & ? & ?). eauto.
Qed.

(** The extended codecs that the remote codecs [rs] give with the local codecs [ls], in the order
    of the remote codecs: RTX codecs are left out, and so are codecs that no local codec matches;
    the others extend the first local codec that matches, and what a match writes into a local
    codec is there for the remote codecs that follow. *)
Fixpoint negotiated_codecs (ls rs : list json) : list json :=
  match rs with
  | [] => []
  | r :: rs =>
      if is_rtx r then negotiated_codecs ls rs
      else match first_match r ls with
           | None => negotiated_codecs ls rs
           | Some (i, l) =>
               let id := agreed_id l r in
               extended_codec (set_id id l) (set_id id r) ::
               negotiated_codecs (<[i := null_pt (set_id id l)]> ls) rs
           end
  end.

Lemma null_pt_like j : codec_ok j -> codec_like j (null_pt j).
Proof. intros (m & mime & p & -> & I). by eapply with_pt_like. Qed.

(** What a match leaves of a codec. *)
Lemma matched_like id j : codec_ok j -> codec_like j (null_pt (set_id id j)).
Proof.
  intros Hj. pose proof (set_id_like id _ Hj) as Hs. eapply codec_like_trans; [exact Hs|].
  apply null_pt_like. by apply codec_like_ok in Hs as [_ ?].
Qed.

Lemma run_extendRemoteCodec ls r :
  Forall codec_ok ls -> codec_ok r ->
  extendRemoteCodec (r, ls) =
  if is_rtx r then (Ok [], (r, ls)) else
  match first_match r ls with
  | None => (Ok [], (r, ls))
  | Some (i, l) =>
      let id := agreed_id l r in
      (Ok [extended_codec (set_id id l) (set_id id r)],
       (null_pt (set_id id r), <[i := null_pt (set_id id l)]> ls))
  end.
Proof.
  intros Hls Hr. unfold extendRemoteCodec. rewrite run_bind_get. simpl fst.
  rewrite (bind_lift _ _ _ _ (run_isRtxCodec _ Hr)). destruct (is_rtx r); [done|].
  unfold findLocalCodec. unfold bind at 1. simpl fst; simpl snd. rewrite find_if_ref_match by done.
  destruct (first_match r ls) as [[i l]|] eqn:E; [|done]. apply first_match_lookup in E.
  pose proof (Forall_lookup_1 _ _ _ _ Hls E) as Hl.
  destruct (set_id_like (agreed_id l r) _ Hl) as (? & ? & ? & lm & lp & _ & El & _ & Il & _).
  destruct (set_id_like (agreed_id l r) _ Hr) as (? & ? & ? & rm & rp & _ & Er & _ & Ir & _).
  unfold bind, swap, at_elem. simpl.
  rewrite list_lookup_insert_eq by (by apply lookup_lt_Some in E). rewrite El, Er, (run_extendCodec Il Ir).
  by rewrite list_insert_insert_eq.
Qed.

Lemma run_extendCodecs ls ls' rs :
  Forall2 codec_like ls ls' -> Forall codec_ok rs ->
  exists rs' ls'', collect_ref extendRemoteCodec rs ls' = (Ok (negotiated_codecs ls' rs), (rs', ls'')) /\
    Forall2 codec_like rs rs' /\ Forall2 codec_like ls ls''.
Proof.
  intros Hls Hrs. revert ls' Hls. induction Hrs as [|r rs Hr Hrs IH]; intros ls' Hls.
  { by exists [], ls'. }
  cbn [collect_ref negotiated_codecs]. destruct (Forall2_like_ok _ _ Hls) as [_ Hok].
  rewrite (run_extendRemoteCodec ls' r Hok Hr).
  destruct (is_rtx r) eqn:Hx; [|destruct (first_match r ls') as [[i l]|] eqn:E].
  - destruct (IH ls' Hls) as (rs' & ls'' & -> & Lr & Ll). exists (r :: rs'), ls''.
    split_and!; try done. constructor; [by apply codec_like_refl|done].
  - apply first_match_lookup in E. pose proof (Forall_lookup_1 _ _ _ _ Hok E) as Hl. cbv zeta.
    destruct (IH (<[i := null_pt (set_id (agreed_id l r) l)]> ls')) as (rs' & ls'' & -> & Lr & Ll).
    { eapply Forall2_like_insert; [done..|]. by apply matched_like. }
    exists (null_pt (set_id (agreed_id l r) r) :: rs'), ls''. split_and!; try done.
    constructor; [by apply matched_like|done].
  - destruct (IH ls' Hls) as (rs' & ls'' & -> & Lr & Ll). exists (r :: rs'), ls''.
    split_and!; try done. constructor; [by apply codec_like_refl|done].
Qed.

(** Every extended codec comes from a local and a remote codec. *)
Definition extends_pair (ls rs : list json) (e : json) : Prop :=
  exists l r l' r', In l ls /\ In r rs /\ codec_like l l' /\ codec_like r r' /\ e = extended_codec l' r'.

Lemma negotiated_codecs_pairs ls ls' rs0 rs :
  Forall2 codec_like ls ls' -> Forall codec_ok rs -> (forall r, In r rs -> In r rs0) ->
  Forall (extends_pair ls rs0) (negotiated_codecs ls' rs).
Proof.
  intros Hls Hrs. revert ls' Hls. induction Hrs as [|r rs Hr Hrs IH]; intros ls' Hls Hin; [constructor|].
  cbn [negotiated_codecs]. destruct (is_rtx r); [apply IH; simpl in *; auto|].
  destruct (first_match r ls') as [[i l]|] eqn:E; [|apply IH; simpl in *; auto].
  apply first_match_lookup in E. destruct (Forall2_lookup_like _ _ _ _ Hls E) as (l0 & Hl0 & L0).
  pose proof (codec_like_ok _ _ L0) as [_ Hl]. constructor.
  - exists l0, r, (set_id (agreed_id l r) l), (set_id (agreed_id l r) r). split_and!; try done.
    + apply Hin. by left.
    + eapply codec_like_trans; [exact L0|]. by apply set_id_like.
    + by apply set_id_like.
  - apply IH; simpl in *; auto. eapply Forall2_like_insert; [done..|]. by apply matched_like.
Qed.

(** ** RTX codecs *)

(** The codec an RTX codec belongs to. *)
Definition apt (j : json) : option json :=
  match find "parameters" j with Some p => find "apt" p | None => None end.

Definition rtx_for (pt : json) (j : json) : bool := is_rtx j && opt_eq (apt j) (Some pt).

Definition rtx_ok (j : json) : Prop :=
  codec_ok j /\ (is_rtx j = true -> it_is is_number_integer (apt j) = true).

Lemma apt_like j j' : codec_like j j' -> apt j' = apt j.
Proof.
  intros (m & mime & p & m' & p' & -> & -> & I & I' & S). unfold apt. simpl.
  rewrite (inv_params _ _ _ I), (inv_params _ _ _ I'). simpl. by apply (sim_params _ _ _ _ S).
Qed.
Lemma rtx_for_like pt j j' : codec_like j j' -> rtx_for pt j' = rtx_for pt j.
Proof. intros H. unfold rtx_for. by rewrite (is_rtx_like _ _ H), (apt_like _ _ H). Qed.
Lemma payload_type_like j j' : codec_like j j' -> payload_type j' = payload_type j.
Proof.
  intros (m & mime & p & m' & p' & -> & -> & _ & _ & S). apply (sim_pt _ _ _ _ S).
Qed.
Lemma rtx_ok_like ls ls' : Forall2 codec_like ls ls' -> Forall rtx_ok ls -> Forall rtx_ok ls'.
Proof.
  induction 1 as [|x y ls ls' Hxy H IH]; [done|]. intros [[? Hx] ?]%Forall_cons_1.
  constructor; [|auto]. split; [by apply codec_like_ok in Hxy as [_ ?]|].
  by rewrite (is_rtx_like _ _ Hxy), (apt_like _ _ Hxy).
Qed.

Lemma run_isRtxOf pt j : rtx_ok j -> isRtxOf pt j = Ok (rtx_for pt j).
Proof.
  intros [Hj Ha]. unfold isRtxOf, rtx_for. rewrite (run_isRtxCodec _ Hj). simpl.
  destruct (is_rtx j) eqn:E; [|done]. specialize (Ha eq_refl).
  destruct (apt j) as [a|] eqn:Hapt; [|done].
  destruct Hj as (m & mime & p & -> & I). unfold apt in Hapt. simpl in *.
  rewrite (inv_params _ _ _ I) in *. simpl in *. by rewrite Hapt.
Qed.

(** The position [find_index] returns is that of the element [List.find] does. *)
Lemma find_index_find (p : json -> result bool) q l :
  Forall (fun x => p x = Ok (q x)) l ->
  exists i, find_index p l = Ok i /\ i ≫= (fun i => l !! i) = List.find q l.
Proof.
  induction 1 as [|x l Hx _ (i & Hi & IH)]; simpl; [by exists None|]. rewrite Hx. simpl.
  destruct (q x); [by exists (Some 0%nat)|]. rewrite Hi. exists (S <$> i). split; [done|].
  rewrite <- IH. by destruct i.
Qed.

Lemma find_index_in (p : json -> result bool) l i :
  find_index p l = Ok (Some i) -> is_Some (l !! i).
Proof.
  revert i. induction l as [|x l IH]; simpl; [done|]. intros i.
  destruct (p x) as [[]| |]; simpl; try done; [by intros [= <-]|].
  destruct (find_index p l) as [[k|]| |]; simpl; try done. intros [= <-]. by apply IH.
Qed.

(** The payload type of an RTX codec that is found after some matching. *)
Lemma run_payloadTypeAt ls ls' i l' :
  Forall2 codec_like ls ls' -> ls' !! i = Some l' ->
  exists ls'', payloadTypeAt i ls' = (Ok (payload_type l'), ls'') /\ Forall2 codec_like ls ls''.
Proof.
  intros Hls Hi. destruct (Forall2_lookup_like _ _ _ _ Hls Hi) as (l & Hin & Hl).
  pose proof Hl as (m & mime & p & m' & p' & -> & -> & _ & I' & _).
  exists (<[i := JObject (with_pt m')]> ls').
  unfold payloadTypeAt. rewrite Hi, run_ref_pt. split; [done|].
  eapply Forall2_like_insert; [done..|]. by eapply with_pt_like.
Qed.

(** The payload type of the first RTX codec for [pt]. *)
Definition rtx_payload_type (pt : json) (cs : list json) : option json :=
  payload_type <$> List.find (rtx_for pt) cs.

Lemma rtx_payload_type_like pt ls ls' :
  Forall2 codec_like ls ls' -> rtx_payload_type pt ls' = rtx_payload_type pt ls.
Proof.
  unfold rtx_payload_type. induction 1 as [|x y ls ls' Hxy H IH]; [done|]. simpl.
  rewrite (rtx_for_like _ _ _ Hxy). destruct (rtx_for pt x); [|done]. simpl.
  by rewrite (payload_type_like _ _ Hxy).
Qed.

(** An extended codec with the payload types of its RTX codecs, when both sides have one. *)
Definition add_rtx (ls rs : list json) (e : json) : json :=
  match rtx_payload_type (field "localPayloadType" e) ls,
        rtx_payload_type (field "remotePayloadType" e) rs with
  | Some x, Some y => on_object (fun m =>
      obj_insert "remoteRtxPayloadType" y (obj_insert "localRtxPayloadType" x m)) e
  | _, _ => e
  end.

Section Rtx.
Context {ls rs : list json}.
Hypothesis Hls : Forall rtx_ok ls.
Hypothesis Hrs : Forall rtx_ok rs.

(** The search for an RTX codec and the payload type at the position it finds. *)
Lemma run_rtx_search cs cs' pt :
Forall rtx_ok cs -> Forall2 codec_like cs cs' ->
find_index (isRtxOf pt) cs' = Ok None /\ rtx_payload_type pt cs = None \/
exists i c cs'', find_index (isRtxOf pt) cs' = Ok (Some i) /\ cs' !! i = Some c /\
  rtx_payload_type pt cs = Some (payload_type c) /\
  payloadTypeAt i cs' = (Ok (payload_type c), cs'') /\ Forall2 codec_like cs cs''.
Proof.
intros Hok HF. destruct (find_index_find (isRtxOf pt) (rtx_for pt) cs') as (i & Hi & Hf).
{ eapply Forall_impl; [by eapply rtx_ok_like|]. intros x. apply run_isRtxOf. }
rewrite <- (rtx_payload_type_like pt _ _ HF). unfold rtx_payload_type. rewrite <- Hf.
destruct i as [i|]; [|by left]. simpl in *.
destruct (find_index_in _ _ _ Hi) as [c Hc]. rewrite Hc.
destruct (run_payloadTypeAt cs cs' i c HF Hc) as (cs'' & Hp & Hl). right. by exists i, c, cs''.
Qed.

Lemma run_extendRtx e lpt rpt ls1 rs1 :
obj_find "localPayloadType" e = Some lpt -> obj_find "remotePayloadType" e = Some rpt ->
Forall2 codec_like ls ls1 -> Forall2 codec_like rs rs1 ->
exists ls2 rs2, extendRtx (JObject e, (ls1, rs1)) = (Ok [], (add_rtx ls rs (JObject e), (ls2, rs2))) /\
  Forall2 codec_like ls ls2 /\ Forall2 codec_like rs rs2.
Proof using Hls Hrs.
intros El Er Ll Lr. unfold extendRtx, add_rtx. rewrite run_bind_get. simpl fst; simpl snd.
replace (field "localPayloadType" (JObject e)) with lpt by (unfold field; simpl; by rewrite El).
replace (field "remotePayloadType" (JObject e)) with rpt by (unfold field; simpl; by rewrite Er).
erewrite bind_on_fst by (by apply run_ref).
destruct (run_rtx_search ls ls1 lpt Hls Ll) as [[Hi ->]|(i & l & ls2 & Hi & _ & -> & Hpl & Ll2)];
  rewrite (bind_lift _ _ _ _ Hi); [by exists ls1, rs1|].
erewrite bind_on_fst by (by apply run_ref).
destruct (run_rtx_search rs rs1 rpt Hrs Lr) as [[Hk ->]|(k & r & rs2 & Hk & _ & -> & Hpr & Lr2)];
  rewrite (bind_lift _ _ _ _ Hk); [by exists ls1, rs1|].
erewrite bind_on_snd by (unfold on_fst; simpl; rewrite Hpl; reflexivity).
erewrite bind_on_fst by apply run_set_key.
erewrite bind_on_snd by (unfold on_snd; simpl; rewrite Hpr; reflexivity).
erewrite bind_on_fst by apply run_set_key.
by exists ls2, rs2.
Qed.

Lemma run_extendAllRtx es ls1 rs1 :
Forall (fun e => exists m lpt rpt, e = JObject m /\ obj_find "localPayloadType" m = Some lpt /\
  obj_find "remotePayloadType" m = Some rpt) es ->
Forall2 codec_like ls ls1 -> Forall2 codec_like rs rs1 ->
exists ls2 rs2, collect_ref extendRtx es (ls1, rs1) = (Ok [], (map (add_rtx ls rs) es, (ls2, rs2))).
Proof using Hls Hrs.
intros Hes. revert ls1 rs1.
induction Hes as [|e es (m & lpt & rpt & -> & El & Er) Hes IH]; intros ls1 rs1 Ll Lr; simpl.
{ by exists ls1, rs1. }
destruct (run_extendRtx m lpt rpt ls1 rs1 El Er Ll Lr) as (ls2 & rs2 & -> & Ll2 & Lr2).
destruct (IH ls2 rs2 Ll2 Lr2) as (ls3 & rs3 & ->). by exists ls3, rs3.
Qed.
End Rtx.

(** ** Header extensions *)

Record ext_ok (j : json) : Prop := {
  ext_ok_accepts : acceptsRtpHeaderExtension j = true;
  ext_ok_object : is_object j = true;
  ext_ok_kind : is_Some (find "kind" j);
  ext_ok_uri : is_Some (find "uri" j);
  ext_ok_id : is_Some (find "preferredId" j);
  ext_ok_encrypt : is_Some (find "preferredEncrypt" j);
  ext_ok_direction : it_is is_string (find "direction" j) = true
}.

Definition ext_match (r l : json) : bool :=
  json_eq (field "kind" l) (field "kind" r) && json_eq (field "uri" l) (field "uri" r).

(** A direction seen from the other end. *)
Definition mirrored : list (string * string) :=
  [("sendrecv", "sendrecv"); ("recvonly", "sendonly"); ("sendonly", "recvonly");
   ("inactive", "inactive")].
Definition mirror (d : string) : option string :=
  snd <$> List.find (fun kv => String.eqb kv.1 d) mirrored.

Lemma run_reverseDirection d : reverseDirection d = mirror d.
Proof.
  unfold reverseDirection, mirror, mirrored. cbn [List.find fst].
  rewrite !(String.eqb_sym d). by repeat destruct (String.eqb _ d).
Qed.

(** The extended header extension of a local and a remote one. *)
Definition extended_ext (l r : json) : json :=
  let e := jobj [("kind", field "kind" r); ("uri", field "uri" r);
    ("sendId", field "preferredId" l); ("recvId", field "preferredId" r);
    ("encrypt", field "preferredEncrypt" l)] in
  match mirror (text "direction" r) with
  | Some d => on_object (obj_insert "direction" (JString d)) e
  | None => e
  end.

Definition extended_exts (ls rs : list json) : list json :=
  flat_map (fun r => match List.find (ext_match r) ls with
                     | Some l => [extended_ext l r]
                     | None => []
                     end) rs.

Lemma run_ref_field k j : is_object j = true -> is_Some (find k j) -> ref k j = (Ok (field k j), j).
Proof.
  destruct j as [| | | | | | |m]; try done. unfold field. simpl. intros _ [v Hv]. rewrite Hv.
  by apply run_ref.
Qed.
Lemma run_cget_field k j : is_object j = true -> is_Some (find k j) -> cget k j = Ok (field k j).
Proof. destruct j; try done. unfold field. simpl. by intros _ [v ->]. Qed.

Lemma run_matchHeaderExtensions l r :
  ext_ok l -> ext_ok r -> matchHeaderExtensions l r = Ok (ext_match r l).
Proof.
  intros [] []. unfold matchHeaderExtensions, ext_match.
  rewrite !run_cget_field by done. simpl. by destruct (json_eq (field "kind" l) (field "kind" r)).
Qed.

Lemma run_extendExt l r : ext_ok l -> ext_ok r -> extendExt (l, r) = (Ok (extended_ext l r), (l, r)).
Proof.
  intros [] [? Hrk ? ? ? ? Hd]. unfold extendExt, extended_ext.
  erewrite bind_on_snd by (by apply run_ref_field). erewrite bind_on_snd by (by apply run_ref_field).
  erewrite bind_on_fst by (by apply run_ref_field). erewrite bind_on_snd by (by apply run_ref_field).
  erewrite bind_on_fst by (by apply run_ref_field). cbv zeta.
  erewrite bind_on_snd by (apply run_ref_field; [done|]; by destruct (find "direction" r)).
  unfold text, field. destruct (find "direction" r) as [[| | | | |d| |]|]; try done. simpl.
  unfold lift, bind. simpl. by rewrite run_reverseDirection.
Qed.

Lemma run_extendRemoteExt r ls :
  ext_ok r -> Forall ext_ok ls ->
  extendRemoteExt (r, ls) =
  (Ok (match List.find (ext_match r) ls with Some l => [extended_ext l r] | None => [] end),
   (r, ls)).
Proof.
  intros Hr Hls. unfold extendRemoteExt. rewrite run_bind_get. simpl fst; simpl snd.
  destruct (find_index_find (fun l => matchHeaderExtensions l r) (ext_match r) ls) as (i & Hi & Hf).
  { eapply Forall_impl; [done|]. intros l Hl. by apply run_matchHeaderExtensions. }
  rewrite (bind_lift _ _ _ _ Hi), <- Hf. destruct i as [i|]; [|done]. simpl in *.
  destruct (ls !! i) as [l|] eqn:El; simpl in *.
  - unfold bind, swap, at_elem. simpl. rewrite El, run_extendExt; [|by eapply Forall_lookup_1|done].
    simpl. by rewrite list_insert_id.
  - apply find_index_in in Hi as [? Hi]. congruence.
Qed.

Lemma run_extendExts ls rs :
  Forall ext_ok ls -> Forall ext_ok rs ->
  collect_ref extendRemoteExt rs ls = (Ok (extended_exts ls rs), (rs, ls)).
Proof.
  intros Hls. induction 1 as [|r rs Hr Hrs IH]; simpl; [done|].
  rewrite run_extendRemoteExt by done. by rewrite IH.
Qed.
