(* ===== verification/OrtcExtended.v ===== *)
(** * Extended capabilities and what is derived from them: the theorems *)

From Stdlib Require Import Ascii.
From stdpp Require Import gmap.
From S2P Require Import Prelude Json Regex Validator OrtcValidate OrtcContracts OrtcValidated.
From S2P Require Import H264 Ortc OrtcMatch.

(** ** From validation to negotiation *)

(** A codec that can be negotiated: its profile identifiers are strings or
    integers, and an RTX codec names the codec it belongs to. *)
Definition negotiable_codec (c : json) : bool :=
  match find "parameters" c with
  | Some (JObject p) => ids_ok p && (negb (is_rtx c) || negb (absent (obj_find "apt" p)))
  | _ => negb (is_rtx c)
  end.

Definition array_at (k : string) (j : json) : list json :=
  match find k j with Some (JArray l) => l | _ => [] end.

Definition negotiable (caps : json) : bool := forallb negotiable_codec (array_at "codecs" caps).

Lemma obj_find_In k v m : obj_find k m = Some v -> In (k, v) m.
Proof.
  induction m as [|[k1 v1] m IH]; simpl; [done|].
  destruct (String.eqb_spec k k1) as [->|]; [intros [= ->]; by left|]. right. by apply IH.
Qed.

(** The parameters of a validated codec. *)
Lemma validated_parameters m :
  parametersOk codecParameterOk (obj_find "parameters" m) = true ->
  negotiable_codec (JObject m) = true ->
  exists p', (if it_is is_object (obj_find "parameters" m) then obj_find "parameters" m
              else Some (JObject [])) = Some (JObject p') /\
    Forall (fun kv => codecParameterOk kv = true) p' /\ ids_ok p' = true /\
    (is_rtx (JObject m) = true -> it_is is_number_integer (obj_find "apt" p') = true).
Proof.
  unfold negotiable_codec, parametersOk. simpl. intros Hp Hn.
  destruct (obj_find "parameters" m) as [[| | | | | | |p]|]; simpl in *;
    try (exists []; split_and!; try done; intros Hr; apply negb_true_iff in Hn; congruence).
  exists p. apply andb_true_iff in Hn as [? Hn]. rewrite forallb_forall in Hp.
  split_and!; try done; [by apply List.Forall_forall|].
  intros Hr. rewrite Hr in Hn. unfold absent in Hn.
  destruct (obj_find "apt" p) as [v|] eqn:E; [|done].
  apply obj_find_In, Hp in E. unfold codecParameterOk in E. by apply andb_true_iff in E as [_ ?].
Qed.

Lemma validated_codec_inv m :
  acceptsRtpCodecCapability (JObject m) = true -> negotiable_codec (JObject m) = true ->
  exists m' mime p', normRtpCodecCapability (JObject m) = JObject m' /\ codec_inv m' mime p' /\
    obj_find "mimeType" m = Some (JString mime) /\
    (is_rtx (JObject m) = true -> it_is is_number_integer (obj_find "apt" p') = true).
Proof.
  intros Ha Hn. simpl in Ha. rewrite <- !andb_assoc, !andb_true_iff in Ha.
  destruct Ha as (Hm & Hpt & Hc & Hp & Hf).
  destruct (obj_find "mimeType" m) as [[| | | | |mime| |]|] eqn:Em; try done.
  unfold normRtpCodecCapability, on_object. rewrite Em. cbv zeta. set (kind := mimeKind _).
  set (m1 := obj_insert "kind" (JString kind) m).
  destruct (validated_parameters m Hp Hn) as (p' & Hp1 & Hpok & Hids & Hapt).
  destruct (normCodecTail_ready kind m1) as (Rc & _ & _ & _ & Rf); [unfold m1; by lookups..|].
  eexists _, mime, p'. split; [done|]. split; [|done].
  split; try done; try (rewrite normCodecTail_find by done; unfold m1; by lookups).
  - rewrite normCodecTail_find by done. unfold m1. lookups.
    destruct (obj_find "preferredPayloadType" m); simpl in *; [|done].
    rewrite Hpt. apply orb_true_r.
  - rewrite normCodecTail_find_parameters. unfold m1. by lookups.
Qed.

Lemma validated_codec_ok c :
  acceptsRtpCodecCapability c = true -> negotiable_codec c = true ->
  rtx_ok (normRtpCodecCapability c).
Proof.
  destruct c as [| | | | | | |m]; try done. intros Ha Hn.
  destruct (validated_codec_inv m Ha Hn) as (m' & mime & p' & -> & I & Hm & Hr).
  split; [by do 3 eexists|]. unfold is_rtx, mime_is, text, apt in *. simpl in *.
  rewrite Hm in Hr. by rewrite (inv_mime _ _ _ I), (inv_params _ _ _ I).
Qed.

Lemma validated_ext_ok e : acceptsRtpHeaderExtension e = true -> ext_ok (normRtpHeaderExtension e).
Proof.
  destruct e as [| | | | | | |m]; try done. intros Ha.
  pose proof (norm_accept (norm := normRtpHeaderExtension) _ Ha) as Hn.
  simpl in Ha. rewrite <- !andb_assoc, !andb_true_iff in Ha. destruct Ha as (Hk & Hu & Hi & He & Hd).
  split; [done|..]; simpl; unfold absent; lookups; try done.
  - by destruct (obj_find "kind" m).
  - by destruct (obj_find "uri" m).
  - by destruct (obj_find "preferredId" m).
  - by destruct (obj_find "preferredEncrypt" m).
  - by destruct (obj_find "direction" m).
Qed.

(** The codecs and header extensions of validated capabilities. *)
Lemma validated_arrays caps :
  acceptsRtpCapabilities caps = true -> negotiable caps = true ->
  exists m cs es, normRtpCapabilities caps = JObject m /\
    obj_find "codecs" m = Some (JArray cs) /\ obj_find "headerExtensions" m = Some (JArray es) /\
    Forall rtx_ok cs /\ Forall ext_ok es.
Proof.
  destruct caps as [| | | | | | |m]; try done. simpl. rewrite andb_true_iff. intros [Hc He] Hn.
  unfold negotiable, array_at in Hn. simpl in Hn.
  exists (normOptionalArray "headerExtensions" normRtpHeaderExtension
    (normOptionalArray "codecs" normRtpCodecCapability m)).
  assert (exists cs, obj_find "codecs" (normOptionalArray "codecs" normRtpCodecCapability m) =
    Some (JArray cs) /\ Forall rtx_ok cs) as (cs & Hcs & Hok).
  { unfold normOptionalArray, absent. lookups.
    destruct (obj_find "codecs" m) as [[| | | | | |l|]|]; simpl in *; try done; [|by exists []].
    exists (map normRtpCodecCapability l). split; [done|]. rewrite forallb_forall in Hc, Hn.
    apply List.Forall_forall. intros x. rewrite in_map_iff. intros (y & <- & Hy).
    by apply validated_codec_ok; [apply Hc|apply Hn]. }
  assert (exists es, obj_find "headerExtensions" (normOptionalArray "headerExtensions"
    normRtpHeaderExtension (normOptionalArray "codecs" normRtpCodecCapability m)) =
    Some (JArray es) /\ Forall ext_ok es) as (es & Hes & Hek).
  { unfold normOptionalArray at 1, absent. lookups. rewrite obj_find_normOptionalArray by done.
    destruct (obj_find "headerExtensions" m) as [[| | | | | |l|]|]; simpl in *; try done;
      [|by exists []].
    exists (map normRtpHeaderExtension l). split; [done|]. rewrite forallb_forall in He.
    apply List.Forall_forall. intros x. rewrite in_map_iff. intros (y & <- & Hy).
    by apply validated_ext_ok, He. }
  exists cs, es. split_and!; try done. by rewrite obj_find_normOptionalArray.
Qed.

(** ** getExtendedRtpCapabilities *)

Definition extendedCapabilities (codecs exts : list json) : json :=
  jobj [("codecs", JArray codecs); ("headerExtensions", JArray exts)].

Lemma run_on_arrays {A} k (f : M (list json * list json) A) l r la ra res la' ra' :
  obj_find k l = Some (JArray la) -> obj_find k r = Some (JArray ra) ->
  f (la, ra) = (res, (la', ra')) ->
  on_arrays k f (JObject l, JObject r) =
  (res, (JObject (obj_replace k (JArray la') l), JObject (obj_replace k (JArray ra') r))).
Proof. intros Hl Hr Hf. unfold on_arrays. simpl. by rewrite Hl, Hr, Hf. Qed.

Lemma extended_codec_payload_types l r :
  exists m, extended_codec l r = JObject m /\
    obj_find "localPayloadType" m = Some (payload_type l) /\
    obj_find "remotePayloadType" m = Some (payload_type r).
Proof. unfold extended_codec. by destruct (find "channels" l); eexists. Qed.

(** The loops over the codecs of both sides. *)
Lemma run_codec_loops ls rs :
  Forall rtx_ok ls -> Forall rtx_ok rs ->
  exists ls' rs',
    (let! extendedCodecs := extendCodecs in extendAllRtx extendedCodecs) (ls, rs) =
      (Ok (map (add_rtx ls rs) (negotiated_codecs ls rs)), (ls', rs')) /\
    Forall (extends_pair ls rs) (negotiated_codecs ls rs).
Proof.
  intros Hls Hrs.
  assert (Rl : Forall2 codec_like ls ls).
  { clear -Hls. induction Hls as [|x ls [? _] ? IH]; constructor; auto using codec_like_refl. }
  assert (Hr : Forall codec_ok rs) by (eapply Forall_impl; [exact Hrs|]; by intros x [? _]).
  pose proof (negotiated_codecs_pairs ls ls rs rs Rl Hr (fun _ H => H)) as HP.
  destruct (run_extendCodecs ls ls rs Rl Hr) as (rs1 & ls1 & He & Lr & Ll).
  destruct (run_extendAllRtx Hls Hrs (negotiated_codecs ls rs) ls1 rs1) as (ls2 & rs2 & He'); [|done..|].
  { eapply Forall_impl; [exact HP|]. intros e (l & r & l' & r' & _ & _ & _ & _ & ->).
    destruct (extended_codec_payload_types l' r') as (m & ? & ? & ?). by do 3 eexists. }
  exists ls2, rs2. split; [|done].
  unfold bind at 1, extendCodecs. simpl. rewrite He. unfold extendAllRtx. by rewrite He'.
Qed.


(** ** The codecs of extended capabilities *)

Definition null_or_integer (v : json) : bool := is_null v || is_number_integer v.

Record extended_ok (e : list (string * json)) (mime : string) (lpt rpt lrtx rrtx : json) : Prop := {
  eok_mime : obj_find "mimeType" e = Some (JString mime);
  eok_mime_ok : matches MimeTypeRegex mime = true;
  eok_kind : obj_find "kind" e = Some (JString (mimeKind (Some (JString mime))));
  eok_clock : it_is is_number_integer (obj_find "clockRate" e) = true;
  eok_lpt : obj_find "localPayloadType" e = Some lpt;
  eok_lpt_ok : null_or_integer lpt = true;
  eok_rpt : obj_find "remotePayloadType" e = Some rpt;
  eok_rpt_ok : null_or_integer rpt = true;
  eok_lparams : it_is (object_of codecParameterOk) (obj_find "localParameters" e) = true;
  eok_rparams : it_is (object_of codecParameterOk) (obj_find "remoteParameters" e) = true;
  eok_feedback : it_is (array_of completeRtcpFeedback) (obj_find "rtcpFeedback" e) = true;
  eok_lrtx : obj_find "localRtxPayloadType" e = Some lrtx;
  eok_lrtx_ok : null_or_integer lrtx = true;
  eok_lrtx_apt : lrtx <> JNull -> is_number_integer lpt = true;
  eok_rrtx : obj_find "remoteRtxPayloadType" e = Some rrtx;
  eok_rrtx_ok : null_or_integer rrtx = true;
  eok_rrtx_apt : rrtx <> JNull -> is_number_integer rpt = true
}.

Lemma codec_ok_payload_type j : codec_ok j -> null_or_integer (payload_type j) = true.
Proof.
  intros (m & mime & p & -> & I). unfold payload_type. simpl. pose proof (inv_pt _ _ _ I).
  by destruct (obj_find "preferredPayloadType" m).
Qed.

Lemma reducedFeedback_complete fbA fbB :
  Forall (fun fb => completeRtcpFeedback fb = true) fbB ->
  forallb completeRtcpFeedback (reducedFeedback fbA fbB) = true.
Proof.
  intros HB. apply forallb_forall. intros x. unfold reducedFeedback. rewrite in_flat_map.
  intros (a & _ & Hx). destruct (List.find (fb_eq a) fbB) as [b|] eqn:Hf; [|done].
  destruct Hx as [<-|[]]. apply List.find_some in Hf as [Hin _].
  by eapply (List.Forall_forall _ fbB) in HB.
Qed.

Lemma forallb_of_Forall {A} (p : A -> bool) l : Forall (fun x => p x = true) l -> forallb p l = true.
Proof. intros H. apply forallb_forall. by apply List.Forall_forall. Qed.

Lemma extended_codec_ok l r :
  codec_ok l -> codec_ok r ->
  exists e mime, extended_codec l r = JObject e /\
    extended_ok e mime (payload_type l) (payload_type r) JNull JNull.
Proof.
  intros Hl Hr. pose proof (codec_ok_payload_type _ Hl). pose proof (codec_ok_payload_type _ Hr).
  pose proof Hl as (lm & mime & lp & -> & I). pose proof Hr as (rm & rmime & rp & -> & Ir).
  destruct (inv_feedback_list _ _ _ Ir) as [_ HF].
  pose proof (inv_clock _ _ _ I) as Hc. destruct (obj_find "clockRate" lm) as [c|] eqn:Ec; [|done].
  unfold extended_codec, field. unfold find at 1 2 3 4 5 6.
  rewrite (inv_mime _ _ _ I), (inv_kind _ _ _ I), Ec, (inv_params _ _ _ I), (inv_params _ _ _ Ir).
  destruct (obj_find "channels" lm); eexists _, mime; (split; [reflexivity|]);
    split; try done; try apply I; simpl;
    first [by apply reducedFeedback_complete|apply forallb_of_Forall; apply I || apply Ir].
Qed.

Lemma rtx_for_integer pt j :
  rtx_ok j -> null_or_integer pt = true -> rtx_for pt j = true -> is_number_integer pt = true.
Proof.
  intros [_ Ha] Hp [Hr He]%andb_true_iff. specialize (Ha Hr).
  destruct (apt j) as [[]|]; try done; destruct pt; simpl in *; done.
Qed.

Lemma rtx_payload_type_inv pt cs x :
  Forall rtx_ok cs -> null_or_integer pt = true -> rtx_payload_type pt cs = Some x ->
  is_number_integer pt = true /\ null_or_integer x = true.
Proof.
  intros Hcs Hp. unfold rtx_payload_type. destruct (List.find _ cs) as [c|] eqn:E; [|done].
  intros [= <-]. apply List.find_some in E as [Hin Hf]. eapply List.Forall_forall in Hcs; [|done].
  split; [by apply (rtx_for_integer _ c)|apply codec_ok_payload_type, Hcs].
Qed.

Lemma add_rtx_ok ls rs e mime lpt rpt :
  Forall rtx_ok ls -> Forall rtx_ok rs -> extended_ok e mime lpt rpt JNull JNull ->
  exists m' lrtx rrtx, add_rtx ls rs (JObject e) = JObject m' /\ extended_ok m' mime lpt rpt lrtx rrtx.
Proof.
  intros Hls Hrs E. unfold add_rtx, field. simpl find.
  rewrite (eok_lpt _ _ _ _ _ _ E), (eok_rpt _ _ _ _ _ _ E). cbn [default from_option id].
  destruct (rtx_payload_type lpt ls) as [x|] eqn:Ex; [|by exists e, JNull, JNull].
  destruct (rtx_payload_type rpt rs) as [y|] eqn:Ey; [|by exists e, JNull, JNull].
  apply rtx_payload_type_inv in Ex as [? ?]; [|done|apply E].
  apply rtx_payload_type_inv in Ey as [? ?]; [|done|apply E].
  eexists _, x, y. split; [reflexivity|]. destruct E. split; lookups; done.
Qed.

(** An extended codec, with the codecs of both sides it comes from. *)
Definition extended_of (ls rs : list json) (j : json) : Prop :=
  exists l r e mime lrtx rrtx, In l ls /\ In r rs /\ j = JObject e /\
    extended_ok e mime (payload_type l) (payload_type r) lrtx rrtx.

Lemma extends_pair_extended ls rs es :
  Forall rtx_ok ls -> Forall rtx_ok rs -> Forall (extends_pair ls rs) es ->
  Forall (extended_of ls rs) (map (add_rtx ls rs) es).
Proof.
  intros Hls Hrs. induction 1 as [|e es (l & r & l' & r' & Hil & Hir & Ll & Lr & ->) _ IH]; [constructor|].
  constructor; [|done]. pose proof (codec_like_ok _ _ Ll) as [_ Hl]. pose proof (codec_like_ok _ _ Lr) as [_ Hr].
  destruct (extended_codec_ok l' r' Hl Hr) as (e & mime & -> & E).
  destruct (add_rtx_ok ls rs e mime _ _ Hls Hrs E) as (m' & lx & rx & -> & E').
  rewrite (payload_type_like _ _ Ll), (payload_type_like _ _ Lr) in E'. by exists l, r, m', mime, lx, rx.
Qed.

(** ** Receiving *)

Lemma null_or_integer_eq v : null_or_integer v = true -> json_eq v JNull = is_null v.
Proof. by destruct v. Qed.

Lemma mimeKind_rtx mime :
  matches MimeTypeRegex mime = true ->
  matches MimeTypeRegex (mimeKind (Some (JString mime)) +:+ "/rtx") = true.
Proof.
  intros H. apply MimeTypeRegex_spec.
  destruct (mimeTypeOk_split (Some (JString mime)) H) as (st & _ & _ & Hk).
  by exists (mimeKind (Some (JString mime))), "rtx".
Qed.

Lemma complete_accepts l :
  forallb completeRtcpFeedback l = true -> forallb acceptsRtcpFeedback l = true.
Proof.
  rewrite !forallb_forall. intros H x Hx. apply H in Hx. destruct x; try done. simpl in *.
  by apply andb_true_iff in Hx as [? _].
Qed.

(** The fields the capability and the parameter validators check alike. *)
Lemma extended_fields_ok e mime lpt rpt lrtx rrtx params :
  extended_ok e mime lpt rpt lrtx rrtx -> it_is (object_of codecParameterOk) params = true ->
  parametersOk codecParameterOk params = true /\
  rtcpFeedbackOk (obj_find "rtcpFeedback" e) = true.
Proof.
  intros E Hp. unfold parametersOk, rtcpFeedbackOk. rewrite Hp. split; [by destruct params as [[]|]|].
  pose proof (eok_feedback _ _ _ _ _ _ E) as Hf.
  destruct (obj_find "rtcpFeedback" e) as [[| | | | | |l|]|]; try done. simpl in *.
  by apply complete_accepts.
Qed.

Lemma copyChannels_find k e j :
  k <> "channels" -> find k (copyChannels e (JObject j)) = obj_find k j.
Proof.
  intros Hk%String.eqb_neq. unfold copyChannels. destruct (find "channels" e); [|done].
  simpl. lookups. by rewrite Hk.
Qed.
Lemma copyChannels_object e j : exists m, copyChannels e (JObject j) = JObject m.
Proof. unfold copyChannels. destruct (find "channels" e); simpl; eauto. Qed.

(** A codec literal with valid fields is a valid capability. *)
Lemma codec_literal_ok e mime kind pt clock params fb :
  matches MimeTypeRegex mime = true -> is_number_integer pt = true ->
  is_number_integer clock = true -> parametersOk codecParameterOk (Some params) = true ->
  rtcpFeedbackOk (Some fb) = true ->
  let codec := copyChannels e (jobj [("mimeType", JString mime); ("kind", kind);
    ("preferredPayloadType", pt); ("clockRate", clock); ("parameters", params);
    ("rtcpFeedback", fb)]) in
  acceptsRtpCodecCapability codec = true /\ text "mimeType" codec = mime /\
  find "preferredPayloadType" codec = Some pt.
Proof.
  intros Hm Hpt Hc Hp Hf. unfold copyChannels, text.
  destruct (find "channels" e) as [ch|]; simpl; unfold mimeTypeOk; simpl;
    by rewrite Hm, Hpt, Hc, Hp, Hf.
Qed.

Lemma apt_parameters_ok z : parametersOk codecParameterOk (Some (jobj [("apt", JUInt z)])) = true.
Proof. done. Qed.

(** An extended codec gives a valid codec to receive, and a valid RTX codec for it
    when the remote side has one. *)
Lemma run_recvCodecs e mime lpt rpt lrtx rrtx :
  extended_ok e mime lpt rpt lrtx rrtx -> is_number_integer rpt = true ->
  exists cs, recvCodecs (JObject e) = Ok cs /\ forallb acceptsRtpCodecCapability cs = true /\
    map (fun c => (text "mimeType" c, find "preferredPayloadType" c)) cs =
      (mime, Some rpt) ::
      (if is_null rrtx then [] else [(mimeKind (Some (JString mime)) +:+ "/rtx", Some rrtx)]).
Proof.
  intros E Hrpt. pose proof (eok_clock _ _ _ _ _ _ E) as Hc.
  pose proof (eok_lparams _ _ _ _ _ _ E) as Hp. pose proof (eok_feedback _ _ _ _ _ _ E) as Hf.
  destruct (extended_fields_ok _ _ _ _ _ _ _ E Hp) as [Hpo Hfo].
  destruct (obj_find "clockRate" e) as [clock|] eqn:Ec; [|done].
  destruct (obj_find "localParameters" e) as [params|] eqn:Ep; [|done].
  destruct (obj_find "rtcpFeedback" e) as [fb|] eqn:Ef; [|done].
  set (kind := mimeKind (Some (JString mime))).
  destruct (codec_literal_ok (JObject e) mime (JString kind) rpt clock params fb)
    as (H1 & H2 & H3); [apply E|done..|].
  unfold recvCodecs, cget. rewrite (eok_mime _ _ _ _ _ _ E), (eok_kind _ _ _ _ _ _ E),
    (eok_rpt _ _ _ _ _ _ E), Ec, Ep, Ef, (eok_rrtx _ _ _ _ _ _ E). cbn [result_bind].
  fold kind. rewrite (null_or_integer_eq _ (eok_rrtx_ok _ _ _ _ _ _ E)).
  destruct (is_null rrtx) eqn:Hx.
  { eexists. split; [done|]. cbn [forallb map]. by rewrite H1, H2, H3. }
  destruct (get_uint8_integer rpt Hrpt) as [z Hz]. cbn [get_string result_bind]. rewrite Hz.
  assert (Hrx : is_number_integer rrtx = true).
  { pose proof (eok_rrtx_ok _ _ _ _ _ _ E). by destruct rrtx. }
  destruct (codec_literal_ok JNull (kind +:+ "/rtx") (JString kind) rrtx clock
    (jobj [("apt", JUInt z)]) (JArray [])) as (G1 & G2 & G3);
    [apply mimeKind_rtx, E|done..|].
  unfold copyChannels at 1 in G1. unfold copyChannels at 1 in G2. unfold copyChannels at 1 in G3.
  cbn [find] in G1, G2, G3. cbn [result_bind]. eexists. split; [done|]. cbn [forallb map].
  by rewrite H1, H2, H3, G1, G2, G3.
Qed.

(** The directions the extended capabilities keep. *)
Definition known_direction (ext : json) : bool :=
  bool_decide (is_Some (mirror (text "direction" ext))).

Lemma extended_exts_Forall (P : json -> Prop) ls rs :
  (forall l r, In l ls -> In r rs -> P (extended_ext l r)) -> Forall P (extended_exts ls rs).
Proof.
  intros H. apply List.Forall_forall. intros x. unfold extended_exts. rewrite in_flat_map.
  intros (r & Hr & Hx). destruct (List.find (ext_match r) ls) as [l|] eqn:Hf; [|done].
  destruct Hx as [<-|[]]. apply List.find_some in Hf as [? _]. by apply H.
Qed.

(** The fields of the extended header extension of a pair. *)
Lemma extended_ext_fields l r d :
  mirror (text "direction" r) = Some d ->
  exists e, extended_ext l r = JObject e /\
    obj_find "direction" e = Some (JString d) /\ obj_find "kind" e = Some (field "kind" r) /\
    obj_find "uri" e = Some (field "uri" r) /\ obj_find "sendId" e = Some (field "preferredId" l) /\
    obj_find "recvId" e = Some (field "preferredId" r) /\
    obj_find "encrypt" e = Some (field "preferredEncrypt" l).
Proof. intros H. unfold extended_ext. rewrite H. eexists. split; [reflexivity|]. done. Qed.

(** Accepted header extensions, field by field. *)
Lemma ext_ok_fields j :
  ext_ok j ->
  (exists k, field "kind" j = JString k /\ (k = "audio" \/ k = "video")) /\
  is_nonempty_string (field "uri" j) = true /\ is_number_integer (field "preferredId" j) = true /\
  is_boolean (field "preferredEncrypt" j) = true.
Proof.
  intros [Ha ? Hk Hu Hi [v He] _]. destruct j as [| | | | | | |m]; try done. simpl in *.
  rewrite <- !andb_assoc, !andb_true_iff in Ha. destruct Ha as (Gk & Gu & Gi & Ge & _).
  unfold field. simpl. rewrite He in *. simpl in *.
  destruct (obj_find "kind" m) as [[| | | | |k| |]|]; try done.
  destruct (obj_find "uri" m); try done. destruct (obj_find "preferredId" m); try done.
  split; [|done]. exists k. split; [done|].
  apply orb_true_iff in Gk as [Gk%String.eqb_eq|Gk%String.eqb_eq]; auto.
Qed.

Lemma run_recvExts l r :
  ext_ok l -> ext_ok r -> known_direction r = true ->
  exists xs, recvExts (extended_ext l r) = Ok xs /\ forallb acceptsRtpHeaderExtension xs = true.
Proof.
  intros Hl Hr Hd%bool_decide_eq_true. destruct Hd as [d Hd].
  destruct (extended_ext_fields l r d Hd) as (e & -> & Ed & Ek & Eu & _ & Er & Ee).
  destruct (ext_ok_fields l Hl) as (_ & _ & _ & Gl).
  destruct (ext_ok_fields r Hr) as ((k & Gk & Gk') & Gu & Gi & _).
  unfold recvExts, cget_string, cget. rewrite Ed, Ek, Eu, Er, Ee. cbn [result_bind get_string].
  destruct (_ && _); [by exists []|]. eexists. split; [done|].
  simpl. rewrite Gk, Gu, Gi, Gl. by destruct Gk' as [-> | ->].
Qed.

Lemma collect_each {A} (f : json -> result (list A)) (p : A -> bool) l :
  Forall (fun x => exists ys, f x = Ok ys /\ forallb p ys = true) l ->
  exists ys, collect f l = Ok ys /\ forallb p ys = true.
Proof.
  induction 1 as [|x l (ys & Hx & Hp) _ (zs & IH & Hz)]; simpl; [by exists []|].
  rewrite Hx, IH. simpl. exists (ys ++ zs). by rewrite forallb_app, Hp, Hz.
Qed.

(** The extended capabilities negotiated from [local] and [remote]. *)
Definition negotiated (local remote ext : json) : Prop :=
  exists caps', getExtendedRtpCapabilities (local, remote) = (Ok ext, caps').

(** Capabilities that negotiation does not fail on. *)
Definition ready (caps : json) : bool := acceptsRtpCapabilities caps && negotiable caps.

Definition codecs_of (caps : json) : list json := array_at "codecs" (normRtpCapabilities caps).
Definition exts_of (caps : json) : list json :=
  array_at "headerExtensions" (normRtpCapabilities caps).

(** The codecs of the extended capabilities. *)
Definition extended_codecs (ls rs : list json) : list json :=
  map (add_rtx ls rs) (negotiated_codecs ls rs).

Lemma negotiated_run local remote :
  ready local = true -> ready remote = true ->
  exists caps',
    getExtendedRtpCapabilities (local, remote) =
      (Ok (extendedCapabilities (extended_codecs (codecs_of local) (codecs_of remote))
             (extended_exts (exts_of local) (exts_of remote))), caps') /\
    Forall (extended_of (codecs_of local) (codecs_of remote))
      (extended_codecs (codecs_of local) (codecs_of remote)) /\
    Forall ext_ok (exts_of local) /\ Forall ext_ok (exts_of remote).
Proof.
  intros [Hl Hln]%andb_true_iff [Hr Hrn]%andb_true_iff.
  destruct (validated_arrays _ Hl Hln) as (lm & lcs & les & El & Hlc & Hle & Fl & Gl).
  destruct (validated_arrays _ Hr Hrn) as (rm & rcs & res & Er & Hrc & Hre & Fr & Gr).
  unfold codecs_of, exts_of, array_at. rewrite El, Er. simpl. rewrite Hlc, Hle, Hrc, Hre.
  destruct (run_codec_loops lcs rcs Fl Fr) as (lcs' & rcs' & Hrun & HP).
  eexists. split; [|split_and!; try done].
  - unfold getExtendedRtpCapabilities.
    erewrite bind_on_fst by (by apply (validator_ok (accept := acceptsRtpCapabilities))).
    erewrite bind_on_snd by (by apply (validator_ok (accept := acceptsRtpCapabilities))).
    rewrite El, Er. erewrite bind_of_ok by (by eapply run_on_arrays).
    erewrite bind_of_ok; [reflexivity|].
    eapply run_on_arrays; [by rewrite obj_find_replace..|].
    unfold extendExts. simpl. by rewrite run_extendExts.
  - by apply extends_pair_extended.
Qed.

Lemma negotiated_inv local remote ext :
  ready local = true -> ready remote = true -> negotiated local remote ext ->
  ext = extendedCapabilities (extended_codecs (codecs_of local) (codecs_of remote))
          (extended_exts (exts_of local) (exts_of remote)) /\
  Forall (extended_of (codecs_of local) (codecs_of remote))
    (extended_codecs (codecs_of local) (codecs_of remote)) /\
  Forall ext_ok (exts_of local) /\ Forall ext_ok (exts_of remote).
Proof.
  intros Hl Hr [caps H]. destruct (negotiated_run _ _ Hl Hr) as (caps' & Hrun & Hes & Hle & Hre).
  rewrite Hrun in H. by injection H as <- _.
Qed.

(** C1.  [getExtendedRtpCapabilities] on capabilities that validation accepts and whose codecs
    can be negotiated returns exactly the following.  Its codecs come from the remote codecs,
    in their order, without RTX codecs and without those that no local codec matches; the
    others extend the first local codec that matches: same MIME type up to case, clock rate and
    channels, for H.264 the same packetization mode and a common profile, for VP9 the same
    profile.  Two H.264 codecs get the profile-level-id of their common profile, with the local
    level when both allow asymmetry and the lower one otherwise.  A codec has the feedback both
    sides share, and the payload types of its RTX codecs when both sides have one.  The header
    extensions are those both sides share, in the remote order, with the direction mirrored. *)
Theorem getExtendedRtpCapabilities_correct (local remote : json)
    (Hl : ready local = true) (Hr : ready remote = true) :
  let ls := codecs_of local in let rs := codecs_of remote in
  fst (getExtendedRtpCapabilities (local, remote)) =
    Ok (jobj [("codecs", JArray (map (add_rtx ls rs) (negotiated_codecs ls rs)));
              ("headerExtensions", JArray (extended_exts (exts_of local) (exts_of remote)))]).
Proof. destruct (negotiated_run _ _ Hl Hr) as (caps' & Hrun & _). cbv zeta. by rewrite Hrun. Qed.

(** Sample capabilities. *)
Definition sampleCodec (mime : string) (pt clock : Z) (params : list (string * json)) : json :=
  jobj [("mimeType", JString mime); ("clockRate", JInt clock);
        ("preferredPayloadType", JInt pt); ("parameters", jobj params)].
Definition sampleExt (kind uri direction : string) (id : Z) : json :=
  jobj [("kind", JString kind); ("uri", JString uri); ("preferredId", JInt id);
        ("direction", JString direction)].
Definition sampleLocal : json :=
  jobj [("codecs", JArray [sampleCodec "audio/opus" 111 48000 [];
           sampleCodec "video/VP8" 96 90000 []; sampleCodec "video/rtx" 97 90000 [("apt", JInt 96)];
           sampleCodec "video/H264" 98 90000 [("profile-level-id", JString "42e01f")]]);
        ("headerExtensions", JArray [sampleExt "video" absSendTimeUri "sendrecv" 3])].
Definition sampleRemote : json :=
  jobj [("codecs", JArray [sampleCodec "video/h264" 105 90000
             [("profile-level-id", JString "42e034")];
           sampleCodec "video/VP8" 101 90000 []; sampleCodec "video/rtx" 102 90000 [("apt", JInt 101)];
           sampleCodec "audio/opus" 100 48000 []]);
        ("headerExtensions", JArray [sampleExt "video" absSendTimeUri "recvonly" 4])].

Lemma getExtendedRtpCapabilities_correct_witness :
  exists codecs exts,
    fst (getExtendedRtpCapabilities (sampleLocal, sampleRemote)) =
      Ok (jobj [("codecs", JArray codecs); ("headerExtensions", JArray exts)]) /\
    map (fun c => (text "mimeType" c, field "localPayloadType" c, field "localRtxPayloadType" c)) codecs =
      [("video/H264", JInt 98, JNull); ("video/VP8", JInt 96, JInt 97); ("audio/opus", JInt 111, JNull)].
Proof.
  eexists _, _. split; [apply (getExtendedRtpCapabilities_correct sampleLocal sampleRemote); by vm_compute|].
  vm_compute. reflexivity.
Defined.

Lemma recv_valid local remote ext :
  ready local = true -> ready remote = true -> negotiated local remote ext ->
  forallb (fun c => is_number_integer (payload_type c)) (codecs_of remote) = true ->
  forallb known_direction (exts_of remote) = true ->
  exists recv, getRecvRtpCapabilities ext = Ok recv /\
    fst (validateRtpCapabilities recv) = Ok tt.
Proof.
  intros Hl Hr Hext Hpt Hdir.
  destruct (negotiated_inv _ _ _ Hl Hr Hext) as (-> & Hes & Hle & Hre).
  set (es := extended_codecs (codecs_of local) (codecs_of remote)) in *.
  rewrite forallb_forall in Hpt, Hdir.
  destruct (collect_each recvCodecs acceptsRtpCodecCapability es) as (cs & Hcs & Hca).
  { eapply Forall_impl; [exact Hes|]. intros x (l & r & e & mime & lx & rx & _ & Hin & -> & E).
    destruct (run_recvCodecs _ _ _ _ _ _ E (Hpt _ Hin)) as (cs & ? & ? & _). eauto. }
  destruct (collect_each recvExts acceptsRtpHeaderExtension
    (extended_exts (exts_of local) (exts_of remote))) as (xs & Hxs & Hxa).
  { apply extended_exts_Forall. intros l r Hil Hir.
    eapply List.Forall_forall in Hle; [|done]. eapply List.Forall_forall in Hre; [|done].
    apply run_recvExts; auto. }
  exists (extendedCapabilities cs xs). split.
  - unfold getRecvRtpCapabilities. simpl. rewrite Hcs. simpl. by rewrite Hxs.
  - rewrite (validator_ok (accept := acceptsRtpCapabilities) (norm := normRtpCapabilities)); [done|].
    simpl. by rewrite Hca, Hxa.
Qed.



(** ** Sending *)

Definition kind_of (j : json) : string := text "kind" j.

Lemma run_has_kind kind j k : find "kind" j = Some (JString k) -> is_object j = true ->
  has_kind kind j = Ok (String.eqb kind k).
Proof. destruct j; try done. unfold has_kind, cget_string. simpl. by intros ->. Qed.

Lemma extended_has_kind kind ls rs es :
  Forall (extended_of ls rs) es ->
  Forall (fun j => has_kind kind j = Ok (String.eqb kind (kind_of j))) es.
Proof.
  intros H. eapply Forall_impl; [exact H|]. intros j (l & r & e & mime & lx & rx & _ & _ & -> & E).
  unfold kind_of, text. simpl. rewrite (eok_kind _ _ _ _ _ _ E).
  by apply run_has_kind; [apply E|].
Qed.

(** Codec literals for sending. *)
Lemma send_literal_ok e mime pt clock params fb :
  matches MimeTypeRegex mime = true -> is_number_integer pt = true ->
  is_number_integer clock = true -> parametersOk codecParameterOk (Some params) = true ->
  rtcpFeedbackOk (Some fb) = true ->
  acceptsRtpCodecParameters (copyChannels e (jobj [("mimeType", JString mime);
    ("payloadType", pt); ("clockRate", clock); ("parameters", params);
    ("rtcpFeedback", fb)])) = true.
Proof.
  intros Hm Hpt Hc Hp Hf. unfold copyChannels.
  destruct (find "channels" e) as [ch|]; simpl; unfold mimeTypeOk; simpl;
    by rewrite Hm, Hpt, Hc, Hp, Hf.
Qed.

(** A codec to send, as [sendCodecs] builds it: the payload type and the feedback
    it has besides being valid. *)
Definition sendable (c : json) : bool :=
  acceptsRtpCodecParameters c &&
  it_is (array_of completeRtcpFeedback) (find "rtcpFeedback" c).

Lemma copyChannels_feedback e mime pt clock params fb :
  find "rtcpFeedback" (copyChannels e (jobj [("mimeType", mime); ("payloadType", pt);
    ("clockRate", clock); ("parameters", params); ("rtcpFeedback", fb)])) = Some fb.
Proof. unfold copyChannels. by destruct (find "channels" e). Qed.

(** The codec to send of an extended codec, with the parameters at [key], and its RTX codec when
    it has one. *)
Definition channels_of (e : json) : list (string * json) :=
  match find "channels" e with Some n => [("channels", n)] | None => [] end.
Definition integer_of (v : json) : Z := match v with JInt z | JUInt z => z | _ => 0 end.
Definition codecs_to_send (key : string) (e : json) : list json :=
  jobj ([("mimeType", field "mimeType" e); ("payloadType", field "localPayloadType" e);
         ("clockRate", field "clockRate" e); ("parameters", field key e);
         ("rtcpFeedback", field "rtcpFeedback" e)] ++ channels_of e) ::
  match field "localRtxPayloadType" e with
  | JNull => []
  | rtx => [jobj [("mimeType", JString (kind_of e +:+ "/rtx")); ("payloadType", rtx);
                  ("clockRate", field "clockRate" e);
                  ("parameters", jobj [("apt", JUInt (uint 8 (integer_of (field "localPayloadType" e))))]);
                  ("rtcpFeedback", JArray [])]]
  end.

(** The header extension to send of an extended one of the kind, unless it is only for
    receiving. *)
Definition exts_to_send (kind : string) (e : json) : list json :=
  if String.eqb kind (kind_of e) && existsb (String.eqb (text "direction" e)) ["sendrecv"; "sendonly"]
  then [jobj [("uri", field "uri" e); ("id", field "sendId" e); ("encrypt", field "encrypt" e);
              ("parameters", JObject [])]]
  else [].

Lemma copyChannels_literal e mime pt clock params fb :
  copyChannels e (jobj [("mimeType", mime); ("payloadType", pt); ("clockRate", clock);
    ("parameters", params); ("rtcpFeedback", fb)]) =
  jobj ([("mimeType", mime); ("payloadType", pt); ("clockRate", clock);
    ("parameters", params); ("rtcpFeedback", fb)] ++ channels_of e).
Proof. unfold copyChannels, channels_of. by destruct (find "channels" e). Qed.

Lemma run_sendCodecs key e mime lpt rpt lrtx rrtx :
  extended_ok e mime lpt rpt lrtx rrtx -> is_number_integer lpt = true ->
  it_is (object_of codecParameterOk) (obj_find key e) = true ->
  sendCodecs key (JObject e) = Ok (codecs_to_send key (JObject e)) /\
  forallb sendable (codecs_to_send key (JObject e)) = true.
Proof.
  intros E Hlpt Hp. pose proof (eok_clock _ _ _ _ _ _ E) as Hc.
  pose proof (eok_feedback _ _ _ _ _ _ E) as Hf.
  destruct (extended_fields_ok _ _ _ _ _ _ _ E Hp) as [Hpo Hfo].
  destruct (obj_find "clockRate" e) as [clock|] eqn:Ec; [|done].
  destruct (obj_find key e) as [params|] eqn:Ep; [|done].
  destruct (obj_find "rtcpFeedback" e) as [fb|] eqn:Ef; [|done].
  pose proof (send_literal_ok (JObject e) mime lpt clock params fb (eok_mime_ok _ _ _ _ _ _ E)
    Hlpt Hc Hpo Hfo) as H1.
  unfold sendCodecs, codecs_to_send, cget_string, cget, field, kind_of, text. unfold find.
  rewrite (eok_mime _ _ _ _ _ _ E),
    (eok_lpt _ _ _ _ _ _ E), Ec, Ep, Ef, (eok_lrtx _ _ _ _ _ _ E), (eok_kind _ _ _ _ _ _ E).
  cbn [result_bind get_string default from_option]. rewrite (null_or_integer_eq _ (eok_lrtx_ok _ _ _ _ _ _ E)).
  unfold id. rewrite <- !copyChannels_literal.
  destruct (is_null lrtx) eqn:Hx.
  { destruct lrtx; try done. split; [done|]. cbn [forallb]. unfold sendable.
    by rewrite H1, copyChannels_feedback, Hf. }
  assert (Hz : get_uint 8 lpt = Ok (uint 8 (integer_of lpt))) by (by destruct lpt). rewrite Hz.
  assert (Hrx : is_number_integer lrtx = true).
  { pose proof (eok_lrtx_ok _ _ _ _ _ _ E). by destruct lrtx. }
  pose proof (send_literal_ok JNull (mimeKind (Some (JString mime)) +:+ "/rtx") lrtx clock
    (jobj [("apt", JUInt (uint 8 (integer_of lpt)))]) (JArray [])
    (mimeKind_rtx _ (eok_mime_ok _ _ _ _ _ _ E)) Hrx Hc (apt_parameters_ok _) eq_refl) as H2.
  unfold copyChannels at 1 in H2. cbn [find] in H2. cbn [result_bind].
  destruct lrtx; try done; (split; [done|]); cbn [forallb]; unfold sendable;
    by rewrite H1, H2, copyChannels_feedback, Hf.
Qed.

Lemma run_sendExts kind l r :
  ext_ok l -> ext_ok r -> known_direction r = true ->
  sendExts kind (extended_ext l r) = Ok (exts_to_send kind (extended_ext l r)) /\
  forallb acceptsRtpHeaderExtensionParameters (exts_to_send kind (extended_ext l r)) = true.
Proof.
  intros Hl Hr Hd%bool_decide_eq_true. destruct Hd as [d Hd].
  destruct (extended_ext_fields l r d Hd) as (e & -> & Ed & Ek & Eu & Es & _ & Ee).
  destruct (ext_ok_fields l Hl) as (_ & _ & Gi & Gl).
  destruct (ext_ok_fields r Hr) as ((k & Gk & Gk') & Gu & _ & _).
  unfold sendExts, exts_to_send, kind_of, text. rewrite Gk in Ek. rewrite (run_has_kind _ _ k) by done.
  unfold cget_string, cget, field. unfold find. rewrite Ek, Ed, Eu, Es, Ee. cbn [result_bind existsb].
  destruct (String.eqb kind k); [|done].
  cbn [result_bind get_string negb andb default from_option].
  destruct (String.eqb d "sendrecv"), (String.eqb d "sendonly"); try done; (split; [done|]); simpl;
    unfold id; by rewrite Gu, Gi, Gl.
Qed.

Lemma collect_exact {A} (f : json -> result (list A)) (g : json -> list A) (p : A -> bool) l :
  Forall (fun x => f x = Ok (g x) /\ forallb p (g x) = true) l ->
  collect f l = Ok (flat_map g l) /\ forallb p (flat_map g l) = true.
Proof.
  intros H. split; [apply collect_pure; eapply Forall_impl; [exact H|]; by intros x [? _]|].
  induction H as [|x l [_ Hx] _ IH]; [done|]. simpl. by rewrite forallb_app, Hx, IH.
Qed.

(** The codecs and header extensions to send for a kind: those of the first extended codec of the
    kind, and of the extended header extensions of the kind. *)
Definition first_of_kind (kind : string) (es : list json) : option json :=
  List.find (fun e => String.eqb kind (kind_of e)) es.
Definition codecs_for (key kind : string) (es : list json) : list json :=
  match first_of_kind kind es with Some e => codecs_to_send key e | None => [] end.

Lemma run_sendingLists key kind local remote ext :
  key = "localParameters" \/ key = "remoteParameters" ->
  ready local = true -> ready remote = true -> negotiated local remote ext ->
  forallb (fun c => is_number_integer (payload_type c)) (codecs_of local) = true ->
  forallb known_direction (exts_of remote) = true ->
  let cs := codecs_for key kind (array_at "codecs" ext) in
  let xs := flat_map (exts_to_send kind) (array_at "headerExtensions" ext) in
  sendingLists key kind ext = Ok (cs, xs) /\ forallb sendable cs = true /\
  forallb acceptsRtpHeaderExtensionParameters xs = true /\
  canSend kind ext = Ok (bool_decide (is_Some (first_of_kind kind (array_at "codecs" ext)))).
Proof.
  intros Hkey Hl Hr Hext Hpt Hdir.
  destruct (negotiated_inv _ _ _ Hl Hr Hext) as (-> & Hes & Hle & Hre).
  set (es := extended_codecs (codecs_of local) (codecs_of remote)) in *.
  rewrite forallb_forall in Hpt, Hdir.
  destruct (collect_exact (sendExts kind) (exts_to_send kind) acceptsRtpHeaderExtensionParameters
    (extended_exts (exts_of local) (exts_of remote))) as [Hxs Hxa].
  { apply extended_exts_Forall. intros l r Hil Hir.
    eapply List.Forall_forall in Hle; [|done]. eapply List.Forall_forall in Hre; [|done].
    apply run_sendExts; auto. }
  cbv zeta. unfold sendingLists, canSend, codecs_for, first_of_kind, array_at. simpl.
  rewrite (find_if_pure _ _ _ (extended_has_kind kind _ _ _ Hes)). simpl.
  destruct (List.find _ es) as [c|] eqn:Hf; simpl; [|by rewrite Hxs].
  apply List.find_some in Hf as [Hin _]. eapply List.Forall_forall in Hes; [|done].
  destruct Hes as (l & r & e & mime & lx & rx & Hil & _ & -> & E).
  destruct (run_sendCodecs key _ _ _ _ _ _ E (Hpt _ Hil)) as [-> Hcs].
  { destruct Hkey as [-> | ->]; apply E. }
  simpl. by rewrite Hxs.
Qed.

(** RTP parameters once the media section they are sent on is known. *)
Definition with_mid (mid : string) (params : json) : json :=
  on_object (obj_insert "mid" (JString mid)) params.

Lemma sendable_accepts cs :
  forallb sendable cs = true -> forallb acceptsRtpCodecParameters cs = true.
Proof. rewrite !forallb_forall. intros H x Hx. by apply H, andb_true_iff in Hx as [? _]. Qed.

Lemma sendingParameters_valid mid cs xs :
  mid <> "" -> forallb sendable cs = true ->
  forallb acceptsRtpHeaderExtensionParameters xs = true ->
  fst (validateRtpParameters (with_mid mid (sendingParameters cs xs))) = Ok tt.
Proof.
  intros Hm Hc%sendable_accepts Hx.
  rewrite (validator_ok (accept := acceptsRtpParameters) (norm := normRtpParameters)); [done|].
  simpl. rewrite Hc, Hx. by destruct mid.
Qed.

(** C19.  The parameters [getSendingRtpParameters] derives from negotiated capabilities, when
    every local codec has a payload type and every remote extension a known direction, are
    exactly these: the codec is the first extended codec of the kind, with its local payload
    type and local parameters, followed by an RTX codec that names it in apt when the extended
    codec has a local RTX payload type; the header extensions are those of the kind that are
    not only for receiving, with the local ids; there are no encodings yet.  [canSend] says
    whether there is a codec of the kind, and once the media section is known the parameters
    are valid. *)
Theorem getSendingRtpParameters_valid (kind mid : string) (local remote ext : json)
    (Hl : ready local = true) (Hr : ready remote = true) (Hext : negotiated local remote ext)
    (Hpt : forallb (fun c => is_number_integer (payload_type c)) (codecs_of local) = true)
    (Hdir : forallb known_direction (exts_of remote) = true) (Hmid : mid <> "") :
  let codec := first_of_kind kind (array_at "codecs" ext) in
  let params := jobj [("mid", JNull);
    ("codecs", JArray (match codec with Some e => codecs_to_send "localParameters" e | None => [] end));
    ("headerExtensions", JArray (flat_map (exts_to_send kind) (array_at "headerExtensions" ext)));
    ("encodings", JArray []); ("rtcp", JObject [])] in
  getSendingRtpParameters kind ext = Ok params /\
  fst (validateRtpParameters (with_mid mid params)) = Ok tt /\
  canSend kind ext = Ok (bool_decide (is_Some codec)).
Proof.
  destruct (run_sendingLists "localParameters" kind local remote ext)
    as (Hs & Hc & Hx & Hcan); [by left|done..|]. cbv zeta.
  split_and!; [unfold getSendingRtpParameters; by rewrite Hs|by apply sendingParameters_valid|done].
Qed.

Lemma getSendingRtpParameters_valid_witness :
  exists ext params, getSendingRtpParameters "video" ext = Ok params /\ canSend "video" ext = Ok true /\
    map (fun c => (text "mimeType" c, field "payloadType" c)) (array_at "codecs" params) =
      [("video/H264", JInt 98)].
Proof.
  destruct (negotiated_run sampleLocal sampleRemote) as (caps' & Hrun & _); [by vm_compute..|].
  destruct (getSendingRtpParameters_valid "video" "0" sampleLocal sampleRemote _ eq_refl eq_refl
    (ex_intro _ _ Hrun) eq_refl eq_refl ltac:(done)) as (H1 & _ & H2).
  eexists _, _. split; [exact H1|]. split; [exact H2|]. vm_compute. reflexivity.
Defined.

(** ** RTCP feedback of the remote parameters *)

Definition fb_type (fb : json) : string := text "type" fb.

Lemma run_ref_string fb :
  completeRtcpFeedback fb = true -> ref_string "type" fb = Ok (fb_type fb).
Proof.
  intros (m & t & p & -> & Ht & _)%completeRtcpFeedback_fields.
  unfold ref_string, ref_value, fb_type, text. by rewrite (run_ref _ _ _ Ht); simpl; rewrite Ht.
Qed.

Lemma run_eraseFeedback drop l :
  forallb completeRtcpFeedback l = true ->
  eraseFeedback id drop l = Ok (List.filter (fun fb => negb (drop (fb_type fb))) l).
Proof.
  induction l as [|fb l IH]; simpl; [done|]. intros [Hf Hl]%andb_true_iff.
  change (id fb) with fb. rewrite (run_ref_string _ Hf), (IH Hl). simpl.
  by destruct (drop (fb_type fb)).
Qed.

(** A codec whose feedback is filtered. *)
Definition filterFeedback (drop : string -> bool) (c : json) : json :=
  on_object (obj_insert "rtcpFeedback"
    (JArray (List.filter (fun fb => negb (drop (fb_type fb))) (feedback c)))) c.

Lemma sendable_feedback c :
  sendable c = true -> exists m, c = JObject m /\
    obj_find "rtcpFeedback" m = Some (JArray (feedback c)) /\
    forallb completeRtcpFeedback (feedback c) = true.
Proof.
  intros [Ha Hf]%andb_true_iff. destruct c as [| | | | | | |m]; try done. exists m.
  unfold feedback. simpl in *. by destruct (obj_find "rtcpFeedback" m) as [[| | | | | |l|]|].
Qed.

Lemma run_reduceCodecFeedback drop c :
  sendable c = true -> reduceCodecFeedback drop c = Ok [filterFeedback drop c].
Proof.
  intros (m & -> & Hf & Hc)%sendable_feedback. unfold reduceCodecFeedback, ref_value.
  rewrite (run_ref _ _ _ Hf). simpl. by rewrite run_eraseFeedback.
Qed.

Lemma filterFeedback_sendable drop c : sendable c = true -> sendable (filterFeedback drop c) = true.
Proof.
  intros Hs. pose proof (sendable_feedback _ Hs) as (m & -> & Hf & Hc).
  apply andb_true_iff in Hs as [Ha _]. unfold sendable, filterFeedback. simpl in *.
  rewrite <- !andb_assoc, !andb_true_iff in Ha. destruct Ha as (H1 & H2 & H3 & H4 & _).
  lookups. rewrite H1, H2, H3, H4. simpl. unfold rtcpFeedbackOk. simpl.
  assert (Hk : forallb completeRtcpFeedback (List.filter (fun fb => negb (drop (fb_type fb)))
    (feedback (JObject m))) = true).
  { rewrite forallb_forall in *. intros x [? _]%filter_In. auto. }
  by rewrite (complete_accepts _ Hk), Hk.
Qed.

(** Header extensions of the parameters built by [sendExts] can be searched by URI. *)
Lemma run_has_uri uri xs :
  forallb acceptsRtpHeaderExtensionParameters xs = true ->
  find_if (has_uri uri) xs = Ok (List.find (fun x => String.eqb (text "uri" x) uri) xs).
Proof.
  rewrite forallb_forall. intros H. apply find_if_pure, List.Forall_forall.
  intros x Hx. apply H in Hx. destruct x as [| | | | | | |m]; try done. simpl in Hx.
  rewrite <- !andb_assoc, !andb_true_iff in Hx. destruct Hx as [Hu _].
  unfold has_uri, ref_string, ref_value, text.
  destruct (obj_find "uri" m) as [[| | | | |u| |]|] eqn:Eu; try done.
  rewrite (run_ref _ _ _ Eu). simpl. by rewrite Eu.
Qed.

(** The feedback types that a sender must not announce, given its header extensions. *)
Definition unusedFeedback (xs : list json) (type : string) : bool :=
  if existsb (fun x => String.eqb (text "uri" x) transportCcUri) xs then String.eqb type "goog-remb"
  else if existsb (fun x => String.eqb (text "uri" x) absSendTimeUri) xs then
    String.eqb type "transport-cc"
  else String.eqb type "transport-cc" || String.eqb type "goog-remb".

Lemma find_existsb {A} (p : A -> bool) l : bool_decide (is_Some (List.find p l)) = existsb p l.
Proof. induction l as [|x l IH]; simpl; [done|]. by destruct (p x). Qed.

Lemma run_getSendingRemote kind local remote ext :
  ready local = true -> ready remote = true -> negotiated local remote ext ->
  forallb (fun c => is_number_integer (payload_type c)) (codecs_of local) = true ->
  forallb known_direction (exts_of remote) = true ->
  exists cs xs, sendingLists "remoteParameters" kind ext = Ok (cs, xs) /\
    forallb sendable cs = true /\ forallb acceptsRtpHeaderExtensionParameters xs = true /\
    getSendingRemoteRtpParameters kind ext =
      Ok (sendingParameters (map (filterFeedback (unusedFeedback xs)) cs) xs).
Proof.
  intros Hl Hr Hext Hpt Hdir. destruct (run_sendingLists "remoteParameters" kind local remote ext)
    as (Hs & Hc & Hx & _); [by right|done..|].
  set (cs := codecs_for _ _ _) in *. set (xs := flat_map _ _) in *. clearbody cs xs.
  exists cs, xs. split_and!; try done.
  assert (Hcol : forall drop, collect (reduceCodecFeedback drop) cs =
    Ok (map (filterFeedback drop) cs)).
  { intros drop. rewrite forallb_forall in Hc.
    rewrite (collect_pure _ (fun c => [filterFeedback drop c])).
    - done.
    - apply List.Forall_forall. intros c ?. by apply run_reduceCodecFeedback, Hc. }
  unfold getSendingRemoteRtpParameters. rewrite Hs. simpl. rewrite (run_has_uri _ _ Hx). simpl.
  unfold unusedFeedback. rewrite <- !find_existsb.
  destruct (List.find _ xs) as [x|]; simpl; [by rewrite Hcol|].
  rewrite (run_has_uri _ _ Hx). simpl. destruct (List.find _ xs); simpl; by rewrite Hcol.
Qed.


