(* ===== verification/OrtcDerived.v ===== *)
(** * Reception tests, the probator and the codecs of a producer: the theorems *)

From Stdlib Require Import Ascii.
From stdpp Require Import gmap.
From S2P Require Import Prelude Json Regex Validator OrtcValidate OrtcContracts OrtcValidated.
From S2P Require Import H264 Ortc OrtcMatch OrtcExtended.

(** ** canReceive *)

(** The payload type of the first codec of RTP parameters. *)
Definition firstPayloadType (params : json) : option json :=
  match array_at "codecs" params with
  | c :: _ => find "payloadType" c
  | [] => None
  end.

(** A validated codec of RTP parameters has its payload type. *)
Lemma normRtpCodecParameters_payloadType c :
  acceptsRtpCodecParameters c = true ->
  is_object (normRtpCodecParameters c) = true /\
  it_is is_number_integer (find "payloadType" (normRtpCodecParameters c)) = true.
Proof.
  destruct c as [| | | | | | |m]; try done. simpl. rewrite <- !andb_assoc, !andb_true_iff.
  intros (_ & Hp & _). by rewrite normCodecTail_find.
Qed.

(** The codecs of validated RTP parameters. *)
Lemma validated_params_codecs params :
  acceptsRtpParameters params = true ->
  exists m cs, normRtpParameters params = JObject m /\
    obj_find "codecs" m = Some (JArray (map normRtpCodecParameters cs)) /\
    forallb acceptsRtpCodecParameters cs = true.
Proof.
  destruct params as [| | | | | | |m]; try done. intros Ha.
  destruct (acceptsRtpParameters_steps m Ha) as (Hc & _).
  destruct (obj_find "codecs" m) as [[| | | | | |cs|]|] eqn:Ec; try done.
  eexists _, cs. split; [reflexivity|]. rewrite normRtpParameters_codecs, Ec. done.
Qed.

(** The loop of canReceive over negotiated codecs. *)
Lemma run_find_remote ls rs es pt :
  Forall (extended_of ls rs) es ->
  find_if (fun codec => let? rpt := cget "remotePayloadType" codec in Ok (json_eq rpt pt)) es =
  Ok (List.find (fun e => opt_eq (find "remotePayloadType" e) (Some pt)) es).
Proof.
  intros H. apply find_if_pure. eapply Forall_impl; [exact H|].
  intros j (l & r & e & mime & lx & rx & _ & _ & -> & E). simpl.
  by rewrite (eok_rpt _ _ _ _ _ _ E).
Qed.

(** C33.  [canReceive] with negotiated capabilities, on any RTP parameters: it
    throws a MediaSoupClientTypeError when they are invalid, and otherwise says
    whether they have a codec and the payload type of the first one is that of a
    negotiated codec. *)
Theorem canReceive_correct (local remote ext params : json)
    (Hl : ready local = true) (Hr : ready remote = true) (Hext : negotiated local remote ext) :
  if acceptsRtpParameters params then
    canReceive ext params =
      (Ok (match firstPayloadType (normRtpParameters params) with
           | Some pt => existsb (fun e => opt_eq (find "remotePayloadType" e) (Some pt))
                          (array_at "codecs" ext)
           | None => false
           end), normRtpParameters params)
  else exists msg params', canReceive ext params = (Throw (TypeError msg), params').
Proof.
  destruct (negotiated_inv _ _ _ Hl Hr Hext) as (-> & Hes & _).
  set (es := extended_codecs (codecs_of local) (codecs_of remote)) in *.
  destruct (acceptsRtpParameters params) eqn:Ha; cycle 1.
  { destruct (validator_throw (accept := acceptsRtpParameters) (norm := normRtpParameters) _ Ha)
      as (msg & j & Hj). exists msg, j. unfold canReceive. by erewrite bind_of_throw by exact Hj. }
  unfold canReceive. erewrite bind_of_ok by (by apply (validator_ok (accept := acceptsRtpParameters))).
  destruct (validated_params_codecs _ Ha) as (m & cs & -> & Hc & Hcs).
  rewrite (bind_of_ok _ _ _ _ _ (run_ref _ _ _ Hc)). unfold firstPayloadType, array_at. simpl find.
  rewrite Hc. destruct cs as [|c cs]; [done|]. simpl in Hcs. apply andb_true_iff in Hcs as [Hca _].
  destruct (normRtpCodecParameters_payloadType _ Hca) as [Ho Hp].
  change (empty (JArray (map normRtpCodecParameters (c :: cs)))) with false. cbv iota.
  destruct (normRtpCodecParameters c) as [| | | | | | |cm] eqn:Ecm; try done. simpl in Hp.
  destruct (obj_find "payloadType" cm) as [pt|] eqn:Ept; [|done].
  erewrite bind_of_ok; cycle 1.
  { eapply run_at_key; [exact Hc|]. eapply run_at_idx; [done|]. rewrite Ecm. by apply run_ref. }
  simpl in Hc. rewrite Ecm in Hc. simpl. rewrite (obj_replace_id _ _ _ Hc). unfold bind, lift. simpl.
  rewrite (run_find_remote _ _ _ pt Hes). simpl. rewrite Ecm. simpl.
  rewrite Ept. by rewrite find_existsb.
Qed.

Lemma canReceive_correct_witness :
  exists ext, snd (canReceive ext (jobj [("codecs", JArray [])])) =
    normRtpParameters (jobj [("codecs", JArray [])]).
Proof.
  destruct (negotiated_run sampleLocal sampleRemote) as (caps' & Hrun & _);
    [by vm_compute..|].
  pose proof (canReceive_correct sampleLocal sampleRemote _ (jobj [("codecs", JArray [])])
    eq_refl eq_refl (ex_intro _ _ Hrun)) as H.
  eexists. simpl in H. by rewrite H.
Defined.

(** ** The probator *)

(** The header extensions of validated RTP parameters. *)
Lemma validated_params_exts params :
  acceptsRtpParameters params = true ->
  exists m xs, normRtpParameters params = JObject m /\
    obj_find "headerExtensions" m = Some (JArray xs) /\
    forallb acceptsRtpHeaderExtensionParameters xs = true.
Proof.
  destruct params as [| | | | | | |m]; try done. intros Ha.
  destruct (acceptsRtpParameters_steps m Ha) as (_ & Hx & _).
  set (m1 := obj_update "codecs" (map_array normRtpCodecParameters) m) in *.
  assert (Hf : exists xs, obj_find "headerExtensions" (normOptionalArray "headerExtensions"
    normRtpHeaderExtensionParameters m1) = Some (JArray xs) /\
    forallb acceptsRtpHeaderExtensionParameters xs = true).
  { pose proof (normOptionalArray_accept (norm := normRtpHeaderExtensionParameters) _ m1 Hx) as Hn.
    unfold normOptionalArray, absent in *. lookups in Hn. lookups.
    destruct (obj_find "headerExtensions" m1) as [[| | | | | |l|]|]; simpl in *; try done; eauto. }
  destruct Hf as (xs & Hxs & Hok). eexists _, xs. split; [reflexivity|].
  by rewrite normRtpParameters_headerExtensions.
Qed.

Definition probatorUri (x : json) : bool :=
  String.eqb (text "uri" x) absSendTimeUri || String.eqb (text "uri" x) transportCcUri.

Lemma run_probatorExts xs :
  forallb acceptsRtpHeaderExtensionParameters xs = true ->
  collect probatorExts xs = Ok (List.filter probatorUri xs).
Proof.
  rewrite forallb_forall. intros H. rewrite (collect_pure _ (fun x => if probatorUri x then [x] else [])).
  - f_equal. clear H. induction xs as [|x xs IH]; simpl; [done|]. rewrite IH.
    by destruct (probatorUri x).
  - apply List.Forall_forall. intros x Hx. apply H in Hx.
    destruct x as [| | | | | | |m]; try done. simpl in Hx.
    rewrite <- !andb_assoc, !andb_true_iff in Hx. destruct Hx as [Hu _].
    unfold probatorExts, ref_value, probatorUri, text.
    destruct (obj_find "uri" m) as [[| | | | |u| |]|] eqn:Eu; try done.
    rewrite (run_ref _ _ _ Eu). simpl. by rewrite Eu.
Qed.

Lemma forallb_filter_sub {A} (p q : A -> bool) l :
  forallb p l = true -> forallb p (List.filter q l) = true.
Proof. rewrite !forallb_forall. intros H x [? _]%filter_In. auto. Qed.

(** C34.  [generateProbatorRtpParameters] for valid video parameters with a codec:
    it returns valid parameters of the section "probator", with the first codec,
    the bandwidth estimation extensions among those given, and one encoding with
    the fixed probator SSRC. *)
Theorem generateProbatorRtpParameters_correct (params : json)
    (Ha : acceptsRtpParameters params = true)
    (Hc : array_at "codecs" (normRtpParameters params) <> []) :
  exists codec codecs, array_at "codecs" (normRtpParameters params) = codec :: codecs /\
    let probator := jobj [("mid", JString "probator"); ("codecs", JArray [codec]);
      ("headerExtensions", JArray (List.filter probatorUri
         (array_at "headerExtensions" (normRtpParameters params))));
      ("encodings", JArray [jobj [("ssrc", JUInt 1234)]]);
      ("rtcp", jobj [("cname", JString "probator")])] in
    generateProbatorRtpParameters params = Ok probator /\
    fst (validateRtpParameters probator) = Ok tt.
Proof.
  destruct (validated_params_codecs _ Ha) as (m & cs & Em & Hcs & Hok).
  destruct (validated_params_exts _ Ha) as (m' & xs & Em' & Hxs & Hxok).
  rewrite Em in Em'. injection Em' as <-. unfold array_at in *. rewrite Em in *. simpl in *.
  rewrite Hcs in *. rewrite Hxs. destruct cs as [|c cs]; [done|].
  exists (normRtpCodecParameters c), (map normRtpCodecParameters cs). split; [done|].
  simpl in Hok. apply andb_true_iff in Hok as [Hc1 _]. split.
  - unfold generateProbatorRtpParameters, ref_value.
    rewrite (validator_ok (accept := acceptsRtpParameters) (norm := normRtpParameters) _ Ha), Em.
    cbn [result_bind].
    erewrite run_at_key by
      (exact Hcs || by apply (run_at_idx 0 _ (normRtpCodecParameters c))).
    rewrite (run_ref _ _ _ Hxs). cbn [fst result_bind elems]. by rewrite run_probatorExts.
  - rewrite (validator_ok (accept := acceptsRtpParameters) (norm := normRtpParameters)); [done|].
    simpl. rewrite (forallb_filter_sub _ _ _ Hxok).
    by rewrite (norm_accept (accept := acceptsRtpCodecParameters) _ Hc1).
Qed.

Definition sampleParams : json :=
  jobj [("codecs", JArray [jobj [("mimeType", JString "video/VP8"); ("payloadType", JInt 101);
    ("clockRate", JInt 90000)]])].

Lemma generateProbatorRtpParameters_correct_witness :
  exists probator, generateProbatorRtpParameters sampleParams = Ok probator.
Proof.
  destruct (generateProbatorRtpParameters_correct sampleParams) as (c & cs & _ & H & _);
    [by vm_compute|by vm_compute|]. eauto.
Defined.

(** ** reduceCodecs *)

(** What a match that ignores the profiles reads of a codec. *)
Definition comparable (j : json) : bool :=
  object_with (fun m => it_is is_string (obj_find "mimeType" m) &&
    negb (absent (obj_find "clockRate" m))) j.

Lemma matchCodecs_loose modify a b :
  comparable a = true -> comparable b = true ->
  matchCodecs false modify (a, b) = (Ok (codecs_alike a b), (a, b)).
Proof.
  destruct a as [| | | | | | |a], b as [| | | | | | |b]; try done. simpl.
  rewrite !andb_true_iff. intros [Ma Ca] [Mb Cb]. unfold matchCodecs, codecs_alike, text. run.
  destruct (obj_find "mimeType" a) as [[| | | | |am| |]|]; try done.
  destruct (obj_find "mimeType" b) as [[| | | | |bm| |]|]; try done. simpl.
  unfold lift at 1 2. unfold bind at 1 2. 
  destruct (String.eqb (tolower am) (tolower bm)); simpl; [|done]. unfold absent in *.
  destruct (obj_find "clockRate" a) as [ca|] eqn:Eca; [|done].
  destruct (obj_find "clockRate" b) as [cb|] eqn:Ecb; [|done].
  erewrite bind_on_fst by (by apply run_ref). erewrite bind_on_snd by (by apply run_ref).
  simpl. destruct (json_eq ca cb); simpl; [|done]. unfold contains. simpl.
  destruct (obj_find "channels" a) as [na|] eqn:Ena, (obj_find "channels" b) as [nb|] eqn:Enb;
    simpl; try done.
  - rewrite run_bind_bind. erewrite bind_on_fst by (by apply run_ref).
    rewrite run_bind_bind. erewrite bind_on_snd by (by apply run_ref).
    rewrite run_bind_ret. destruct (json_eq na nb), (String.eqb (tolower am) "video/h264"),
      (String.eqb (tolower am) "video/vp9"); done.
  - rewrite run_bind_ret. destruct (String.eqb (tolower am) "video/h264"),
      (String.eqb (tolower am) "video/vp9"); done.
Qed.

Lemma comparable_isRtx j : comparable j = true -> isRtxCodec j = Ok (is_rtx j).
Proof.
  destruct j as [| | | | | | |m]; try done. simpl. rewrite andb_true_iff. intros [Hm _].
  destruct (obj_find "mimeType" m) as [[| | | | |mime| |]|] eqn:E; try done.
  by apply (isRtxCodec_mime _ mime).
Qed.

Lemma run_with_idx {T A} i l x (t : T) (f : M (json * T) A) r x' t' :
  l !! i = Some x -> f (x, t) = (r, (x', t')) ->
  with_idx i f (JArray l, t) = (r, (JArray (<[i := x']> l), t')).
Proof.
  intros Hi Hf. unfold with_idx. simpl.
  erewrite run_at_idx by (done || by rewrite Hf). done.
Qed.

Lemma run_at_idx_end l :
  at_idx (length l) get (JArray l) = (Ok JNull, JArray (l ++ [JNull])).
Proof.
  unfold at_idx. simpl. replace (S (length l) - length l)%nat with 1%nat by lia. simpl.
  rewrite lookup_app_r, Nat.sub_diag by lia. simpl. f_equal.
  rewrite insert_app_r_alt, Nat.sub_diag by lia. done.
Qed.

(** The outcome of the search from a position on. *)
Definition reduced (cap : json) (cs : list json) : result (list json) :=
  match cs with
  | [] => Ok []
  | c :: rest =>
      if codecs_alike c cap then
        match rest with
        | next :: _ => Ok (if is_rtx next then [c; next] else [c])
        | [] => Throw (JsonTypeError 305)
        end
      else Ok []
  end.

Fixpoint search_alike (cap : json) (cs : list json) : list json :=
  match cs with
  | [] => []
  | c :: rest => if codecs_alike c cap then cs else search_alike cap rest
  end.

Lemma run_reduceFrom cap pre cs :
  comparable cap = true -> Forall (fun c => comparable c = true) cs ->
  fst (reduceFrom (length cs) (length pre) (JArray (pre ++ cs), cap)) =
  reduced cap (search_alike cap cs).
Proof.
  intros Hcap Hcs. revert pre. induction Hcs as [|c cs Hc Hcs IH]; intros pre; [done|].
  cbn [length reduceFrom search_alike].
  assert (Hi : (pre ++ c :: cs) !! length pre = Some c) by (by apply list_lookup_middle).
  erewrite bind_of_ok; cycle 1.
  { apply (run_with_idx _ _ _ _ _ _ c cap Hi). by apply matchCodecs_loose. }
  rewrite list_insert_id by done. destruct (codecs_alike c cap) eqn:Hal; cycle 1.
  { rewrite <- (IH (pre ++ [c])), length_app, <- app_assoc. simpl.
    by rewrite Nat.add_comm. }
  rewrite (bind_on_fst _ _ _ _ _ _ (run_at_idx _ _ c get (Ok c) c Hi eq_refl)).
  rewrite list_insert_id by done. simpl. rewrite Hal. destruct cs as [|next cs].
  - replace (S (length pre)) with (length (pre ++ [c])) by (rewrite length_app; simpl; lia).
    erewrite bind_on_fst by apply run_at_idx_end. done.
  - assert (Hn : (pre ++ c :: next :: cs) !! S (length pre) = Some next).
    { change (c :: next :: cs) with ([c] ++ next :: cs). rewrite app_assoc.
      apply list_lookup_middle. rewrite length_app. simpl. lia. }
    rewrite (bind_on_fst _ _ _ _ _ _ (run_at_idx _ _ next get (Ok next) next Hn eq_refl)).
    apply Forall_cons_1 in Hcs as [Hnext _].
    rewrite (bind_lift _ _ _ _ (comparable_isRtx _ Hnext)). done.
Qed.

(** C35.  [reduceCodecs] with a capability codec: it returns the first codec that
    agrees with it, with the RTX codec after it; it throws a
    MediaSoupClientTypeError when no codec agrees.  When the codec it finds is the
    last one it reads past the end of the array, which appends a null, and throws
    the JSON library's type error 305 on it. *)
Theorem reduceCodecs_correct (codecs : list json) (cap : json)
    (Hcap : comparable cap = true) (Hcs : Forall (fun c => comparable c = true) codecs) :
  fst (reduceCodecs (JArray codecs, Some cap)) =
  match search_alike cap codecs with
  | [] => Throw (TypeError "no matching codec found")
  | [codec] => Throw (JsonTypeError 305)
  | codec :: next :: _ => Ok (JArray (if is_rtx next then [codec; next] else [codec]))
  end.
Proof.
  destruct cap as [| | | | | | |m]; try done. unfold reduceCodecs. cbn [snd fst].
  pose proof (run_reduceFrom (JObject m) [] codecs Hcap Hcs) as H. cbn [length app] in H.
  change (size (JArray codecs)) with (length codecs).
  destruct (reduceFrom (length codecs) 0 (JArray codecs, JObject m)) as [r [cs' cap']].
  simpl in H. rewrite H. simpl. clear H.
  assert (Hal : match search_alike (JObject m) codecs with
    | c :: _ => codecs_alike c (JObject m) = true | [] => True end).
  { clear. induction codecs as [|c cs IH]; simpl; [done|].
    by destruct (codecs_alike c (JObject m)) eqn:E. }
  destruct (search_alike (JObject m) codecs) as [|c rest]; simpl; [done|]. rewrite Hal.
  destruct rest as [|next rest]; simpl; [done|]. by destruct (is_rtx next).
Qed.

Lemma reduceCodecs_correct_witness :
  fst (reduceCodecs (JArray [sampleCodec "video/VP8" 96 90000 []],
    Some (sampleCodec "video/VP8" 96 90000 []))) = Throw (JsonTypeError 305).
Proof.
  refine (reduceCodecs_correct [sampleCodec "video/VP8" 96 90000 []]
    (sampleCodec "video/VP8" 96 90000 []) _ _); [done|by repeat constructor].
Defined.

(** ** Where validation is not enough *)

(**  Capabilities that [validateRtpCapabilities] accepts can still make
    negotiation fail: an RTX codec without [apt] reads a missing key of a const
    object, which is undefined behaviour; a null profile-level-id makes
    [getExtendedRtpCapabilities] throw the JSON type error 302; and a header
    extension with an unknown direction yields extended capabilities on which
    [getRecvRtpCapabilities] is undefined. *)
Theorem validated_but_not_negotiable :
  let caps cs es := jobj [("codecs", JArray cs); ("headerExtensions", JArray es)] in
  let vp8 := sampleCodec "video/VP8" 96 90000 [] in
  let rtx := sampleCodec "video/rtx" 97 90000 [] in
  let h264 := sampleCodec "video/H264" 98 90000 [("profile-level-id", JNull)] in
  let ext := sampleExt "video" absSendTimeUri "both" 3 in
  (acceptsRtpCapabilities (caps [vp8; rtx] []) = true /\
   fst (getExtendedRtpCapabilities (caps [vp8; rtx] [], caps [vp8; rtx] [])) = Undef) /\
  (acceptsRtpCapabilities (caps [h264] []) = true /\
   fst (getExtendedRtpCapabilities (caps [h264] [], caps [h264] [])) =
     Throw (JsonTypeError 302)) /\
  (acceptsRtpCapabilities (caps [] [ext]) = true /\
   exists e, fst (getExtendedRtpCapabilities (caps [] [ext], caps [] [ext])) = Ok e /\
     getRecvRtpCapabilities e = Undef).
Proof.
  cbv zeta. split; [|split].
  - by vm_compute.
  - by vm_compute.
  - split; [by vm_compute|].
    exists (extendedCapabilities [] [jobj [("kind", JString "video");
      ("uri", JString absSendTimeUri); ("sendId", JInt 3); ("recvId", JInt 3);
      ("encrypt", JBool false)]]). split; by vm_compute.
Qed.
