(* ===== verification/MediaSection.v ===== *)
(** * Media sections

    libmediasoupclient/src/sdp/MediaSection.cpp: the remote media sections, built
    from the transport and RTP parameters as the JSON objects that
    sdptransform::write turns into text. *)

From Stdlib Require Import Ascii Floats.SpecFloat.
From S2P Require Import Prelude Json Regex Strings OrtcValidate Ortc.

(** ** Floating point text *)

(** The decimal exponent of the positive rational [n / d], searched downwards
    from [x]: every float lies between 10^-45 and 10^39. *)
Fixpoint decimal_exponent (fuel : nat) (x n d : Z) : Z :=
  match fuel with
  | O => x
  | S fuel =>
      let le := if 0 <=? x then d * 10 ^ x <=? n else d <=? n * 10 ^ (- x) in
      if le then x else decimal_exponent fuel (x - 1) n d
  end.

(** The decimal digits of [z], at least [w] of them. *)
Definition digits (w : nat) (z : Z) : string :=
  let s := to_string z in
  String.string_of_list_ascii (replicate (w - String.length s) "0"%char) +:+ s.

Fixpoint strip_zeros (l : list Ascii.ascii) : list Ascii.ascii :=
  match l with
  | c :: l => if Ascii.eqb c "0"%char then strip_zeros l else c :: l
  | [] => []
  end.
(** Drops the zeros at the end of a fraction, and the point of an empty one. *)
Definition fraction (s : string) : string :=
  match strip_zeros (rev (String.list_ascii_of_string s)) with
  | [] => ""
  | l => "." +:+ String.string_of_list_ascii (rev l)
  end.

(** [%g] with the default precision of 6 digits, of the positive rational [n / d]. *)
Definition format_g (n d : Z) : string :=
  let x := decimal_exponent 100 39 n d in
  let k := x - 5 in
  let m := if 0 <=? k then round_half_even n (d * 10 ^ k)
           else round_half_even (n * 10 ^ (- k)) d in
  let '(m, x) := if m =? 10 ^ 6 then (10 ^ 5, x + 1) else (m, x) in
  if (x <? -4) || (6 <=? x) then
    to_string (m / 10 ^ 5) +:+ fraction (digits 5 (m mod 10 ^ 5)) +:+ "e" +:+
    (if x <? 0 then "-" else "+") +:+ digits 2 (Z.abs x)
  else if x <? 0 then "0" +:+ fraction (digits (Z.to_nat (5 - x)) m)
  else
    let p := 10 ^ (5 - x) in
    to_string (m / p) +:+ fraction (digits (Z.to_nat (5 - x)) (m mod p)).

(** [static_cast<float>] of a double. *)
Definition to_float (f : spec_float) : spec_float :=
  match f with
  | S754_finite s m e => binary_normalize 24 128 (cond_Zopp s (Z.pos m)) e s
  | _ => f
  end.

(** [std::ostream << f] of a float. *)
Definition float_text (f : spec_float) : string :=
  match f with
  | S754_zero s => if s then "-0" else "0"
  | S754_infinity s => if s then "-inf" else "inf"
  | S754_nan => "nan"
  | S754_finite s m e =>
      (if s then "-" else "") +:+
      (if 0 <=? e then format_g (Z.pos m * 2 ^ e) 1 else format_g (Z.pos m) (2 ^ (- e)))
  end.

(** ** Codec text *)

(** ["^(audio|video)/"], icase: the prefix that getCodecName drops. *)
Definition MimePrefixRegex : regex :=
  RSeq RBol (RSeq (RGroup 1 (RAlt (lit_i "audio") (lit_i "video"))) (lit_i "/")).

(** [std::regex_replace(s, r, "")] for a pattern anchored at the start, which
    matches at most once. *)
Definition drop_match (r : regex) (s : string) : string :=
  match regex_search r s with
  | Some (prefix, suffix, _) => prefix +:+ suffix
  | None => s
  end.

Definition getCodecName (codec : json) : result string :=
  let? mimeType := cget_string "mimeType" codec in
  Ok (drop_match MimePrefixRegex mimeType).

(** What the fmtp loop writes after [key=]. *)
Definition parameter_text (v : json) : string :=
  match v with
  | JString s => s
  | JFloat f => float_text (to_float f)
  | JInt z => to_string z
  | JUInt n => to_string (sint 64 n)
  | _ => ""
  end.

(** The loop over [codecParameters.items()] that fills [config]. *)
Definition config_by (text : json -> string) (codecParameters : json) : string :=
  foldl (fun config kv =>
    (if String.eqb config "" then "" else config +:+ ";") +:+
    kv.1 +:+ "=" +:+ text kv.2) "" (items codecParameters).
Definition config_text : json -> string := config_by parameter_text.

(** The loops over the codecs that fill [payloads]. *)
Definition payloads_text (payloadTypes : list Z) : string :=
  foldl (fun payloads pt =>
    (if String.eqb payloads "" then "" else payloads +:+ " ") +:+ to_string pt)
    "" payloadTypes.

(** ** Access with an environment *)

(** Runs [f] on [j[k]] by reference, where [f] also modifies [T]. *)
Definition at_key_env {T A} (k : string) (f : M (json * T) A) : M (json * T) A := fun st =>
  match at_key k (fun v => let '(r, (v', t')) := f (v, st.2) in (Ok (r, t'), v')) st.1 with
  | (Ok (r, t'), j') => (r, (j', t'))
  | (Throw e, j') => (Throw e, (j', st.2))
  | (Undef, j') => (Undef, (j', st.2))
  end.

(** Runs [f] on what a range-based for loop or [begin(), end()] goes through. *)
Definition with_elems {T A} (f : M (list json * T) A) : M (json * T) A := fun st =>
  match st.1 with
  | JArray l => let '(r, (l', t')) := f (l, st.2) in (r, (JArray l', t'))
  | JObject m =>
      let '(r, (l', t')) := f (m.*2, st.2) in (r, (JObject (zip (m.*1) l'), t'))
  | JNull => let '(r, (_, t')) := f ([], st.2) in (r, (JNull, t'))
  | j => let '(r, (l', t')) := f ([j], st.2) in (r, (default j (head l'), t'))
  end.

(** [for (auto& x : j)], appending what the body returns. *)
Definition loop_ref {T A} (f : M (json * T) (list A)) : M (json * T) (list A) :=
  with_elems (fun st => collect_ref f st.1 st.2).

(** ** MediaSection *)

Inductive SectionKind := AnswerKind | OfferKind.

Record MediaSection := { sectionKind : SectionKind; mediaObject : json }.

Definition GetMid (s : MediaSection) : result string := cget_string "mid" (mediaObject s).

Definition IsClosed (s : MediaSection) : result bool :=
  let? port := cget "port" (mediaObject s) in Ok (json_eq port (JInt 0)).

Definition GetObject (s : MediaSection) : json := mediaObject s.

(** The methods that change a media section run on its [mediaObject]. *)
Definition SetIceParameters (iceParameters : json) : M json unit :=
  let! usernameFragment := lift (cget "usernameFragment" iceParameters) in
  do! set_key "iceUfrag" usernameFragment in
  let! password := lift (cget "password" iceParameters) in
  set_key "icePwd" password.

Definition Disable : M json unit :=
  do! set_key "direction" (JString "inactive") in
  do! erase_key "ext" in
  do! erase_key "ssrcs" in
  do! erase_key "ssrcGroups" in
  do! erase_key "simulcast" in
  erase_key "rids".

Definition Close : M json unit :=
  do! set_key "direction" (JString "inactive") in
  do! set_key "port" (JInt 0) in
  do! erase_key "ext" in
  do! erase_key "ssrcs" in
  do! erase_key "ssrcGroups" in
  do! erase_key "simulcast" in
  do! erase_key "rids" in
  erase_key "extmapAllowMixed".

(** The setup attribute of a DTLS role, left alone for an unknown one. *)
Definition setSetup (role : string) : M json unit :=
  if String.eqb role "client" then set_key "setup" (JString "active")
  else if String.eqb role "server" then set_key "setup" (JString "passive")
  else when (String.eqb role "auto") (set_key "setup" (JString "actpass")).

Definition SetDtlsRole (kind : SectionKind) (role : string) : M json unit :=
  match kind with
  | AnswerKind => setSetup role
  | OfferKind => set_key "setup" (JString "actpass")
  end.

Definition candidateObject (candidate : json) : result (list json) :=
  let? foundation := cget "foundation" candidate in
  let? ip := cget "ip" candidate in
  let? port := cget "port" candidate in
  let? priority := cget "priority" candidate in
  let? protocol := cget "protocol" candidate in
  let? type := cget "type" candidate in
  let object := jobj [
    ("component", JInt 1); ("foundation", foundation); ("ip", ip); ("port", port);
    ("priority", priority); ("transport", protocol); ("type", type) ] in
  Ok [match find "tcpType" candidate with
      | Some tcpType => on_object (obj_insert "tcptype" tcpType) object
      | None => object
      end].

(** The base class constructor, on a fresh [mediaObject]. *)
Definition MediaSection_init (iceParameters iceCandidates : json) : M json unit :=
  do! SetIceParameters iceParameters in
  let! candidates := lift (collect candidateObject (elems iceCandidates)) in
  do! set_key "candidates" (JArray candidates) in
  do! set_key "endOfCandidates" (JString "end-of-candidates") in
  set_key "iceOptions" (JString "renomination").

Definition connection : json := jobj [("ip", JString "127.0.0.1"); ("version", JInt 4)].

(** The rtp entry of a codec. *)
Definition rtpObject (payloadType clockRate : json) (name : string) (channels : option Z) : json :=
  let rtp := jobj [("payload", payloadType); ("codec", JString name); ("rate", clockRate)] in
  match channels with
  | Some n => if 1 <? n then on_object (obj_insert "encoding" (JUInt n)) rtp else rtp
  | None => rtp
  end.

Definition fmtpObjects (payloadType codecParameters : json) : list json :=
  let config := config_text codecParameters in
  if String.eqb config "" then []
  else [jobj [("payload", payloadType); ("config", JString config)]].

Definition rtcpFbObject (payloadType type parameter : json) : json :=
  jobj [("payload", payloadType); ("type", type); ("subtype", parameter)].

Definition extObject (uri id : json) : json := jobj [("uri", uri); ("value", id)].

(** ** AnswerMediaSection *)

(** [if (options has opt) { offerCodec["parameters"][offerKey] = b ? 1 : 0;
    codecParameters[answerKey] = b ? 1 : 0; }] on (offerCodec, codecParameters). *)
Definition boolOption (options : json) (opt offerKey answerKey : string) : M (json * json) unit :=
  match find opt options with
  | None => ret tt
  | Some v =>
      let! b := lift (get_bool v) in
      let n := JInt (if b then 1 else 0) in
      do! on_fst (at_key "parameters" (set_key offerKey n)) in
      on_snd (set_key answerKey n)
  end.

(** [if (options has opt) codecParameters[key] = opt;] *)
Definition numberOption (options : json) (opt key : string) : M (json * json) unit :=
  match find opt options with
  | None => ret tt
  | Some v =>
      let! n := lift (get_uint 32 v) in
      on_snd (set_key key (JUInt n))
  end.

Definition setCodecOptions (options : json) (mimeType : string) : M (json * json) unit :=
  if String.eqb mimeType "audio/opus" then
    do! boolOption options "opusStereo" "sprop-stereo" "stereo" in
    do! boolOption options "opusFec" "useinbandfec" "useinbandfec" in
    do! boolOption options "opusDtx" "usedtx" "usedtx" in
    do! boolOption options "opusCbr" "cbr" "cbr" in
    do! numberOption options "opusMaxPlaybackRate" "maxplaybackrate" in
    do! numberOption options "opusMaxAverageBitrate" "maxaveragebitrate" in
    numberOption options "opusPtime" "ptime"
  else
    when (existsb (String.eqb mimeType) ["video/vp8"; "video/vp9"; "video/h264"; "video/h265"])
      (do! numberOption options "videoGoogleStartBitrate" "x-google-start-bitrate" in
       do! numberOption options "videoGoogleMaxBitrate" "x-google-max-bitrate" in
       numberOption options "videoGoogleMinBitrate" "x-google-min-bitrate").

(** Looks for the offer codec with the payload type and sets the options on it and
    on the codec parameters: (offerRtpParameters, codecParameters). *)
Definition applyCodecOptions (options payloadType : json) (mimeType : string) :
    M (json * json) unit :=
  at_key_env "codecs" (with_elems (fun st =>
    let '(r, (offerCodecs, _)) :=
      find_if_ref (let! pt := on_fst (T := unit) (ref "payloadType") in
                   ret (json_eq pt payloadType)) st.1 tt in
    match r with
    | Ok (Some i) => at_elem i (setCodecOptions options (tolower mimeType)) (offerCodecs, st.2)
    | Ok None => (Undef, (offerCodecs, st.2))
    | Throw e => (Throw e, (offerCodecs, st.2))
    | Undef => (Undef, (offerCodecs, st.2))
    end)).

(** The codec parameters with the options, on (codec, offerRtpParameters). *)
Definition optionedParameters (codecOptions : option json) (payloadType codecParameters : json)
    (mimeType : string) : M (json * json) json := fun st =>
  match codecOptions with
  | Some options =>
      if empty options then (Ok codecParameters, st)
      else
        let '(r, (offer', params')) :=
          applyCodecOptions options payloadType mimeType (st.2, codecParameters) in
        (let? _ := r in Ok params', (st.1, offer'))
  | None => (Ok codecParameters, st)
  end.

(** The number of channels of a codec, when it has one. *)
Definition channelsOf {T} : M (json * T) (option Z) :=
  let! st := get in
  if contains "channels" st.1 then
    let! channels := on_fst (ref "channels") in
    let! n := lift (get_uint 8 channels) in
    ret (Some n)
  else ret None.

(** The rtp entry, the fmtp entries and the rtcp-fb entries of a codec of the
    answer, on (codec, offerRtpParameters). *)
Definition answerCodec (codecOptions : option json) :
    M (json * json) (list (json * list json * list json)) :=
  let! payloadType := on_fst (ref "payloadType") in
  let! st := get in
  let! name := lift (getCodecName st.1) in
  let! mimeType := lift (cget_string "mimeType" st.1) in
  let! clockRate := on_fst (ref "clockRate") in
  let! channels := channelsOf in
  let! codecParameters := on_fst (ref "parameters") in
  let! codecParameters :=
    optionedParameters codecOptions payloadType codecParameters mimeType in
  let! rtcpFbs :=
    at_key_env "rtcpFeedback" (loop_ref (
      let! type := on_fst (ref "type") in
      let! parameter := on_fst (ref "parameter") in
      ret [rtcpFbObject payloadType type parameter])) in
  ret [(rtpObject payloadType clockRate name channels,
        fmtpObjects payloadType codecParameters, rtcpFbs)].

(** An extension of the answer that the offer has too. *)
Definition answerExt {T} (offerMediaObject : json) : M (json * T) (list json) :=
  let! localExts := lift (cget "ext" offerMediaObject) in
  let! uri := on_fst (ref "uri") in
  let! localExtIt :=
    lift (find_if (fun localExt =>
      let? localUri := cget "uri" localExt in Ok (json_eq localUri uri)) (elems localExts)) in
  match localExtIt with
  | None => ret []
  | Some _ => let! id := on_fst (ref "id") in ret [extObject uri id]
  end.

Definition answerRid (rid : json) : result (list json) :=
  let? direction := cget "direction" rid in
  if json_eq direction (JString "send") then
    let? id := cget "id" rid in
    Ok [jobj [("id", id); ("direction", JString "recv")]]
  else Ok [].

(** The simulcast part of the answer, on the media object. *)
Definition answerSimulcast (offerMediaObject : json) : M json unit :=
  match find "simulcast" offerMediaObject with
  | Some (JObject simulcast) =>
      match find "rids" offerMediaObject with
      | None => lift Undef
      | Some rids =>
          if is_array rids then
            let! list1 := lift (cget "list1" (JObject simulcast)) in
            do! set_key "simulcast" (jobj [("dir1", JString "recv"); ("list1", list1)]) in
            let! ridObjects := lift (collect answerRid (elems rids)) in
            set_key "rids" (JArray ridObjects)
          else ret tt
      end
  | _ => ret tt
  end.

(** Runs on (answerRtpParameters, offerRtpParameters) what concerns a pair of RTP
    parameters, inside (mediaObject, (offerRtpParameters, answerRtpParameters)). *)
Definition on_answer {S A} (f : M (json * json) A) : M (S * (json * json)) A :=
  on_snd (swap f).

(** The audio and video part of the constructor. *)
Definition answerMedia (offerMediaObject : json) (codecOptions : option json) :
    M (json * (json * json)) unit :=
  do! on_fst (set_key "direction" (JString "recvonly")) in
  let! codecs := on_answer (at_key_env "codecs" (loop_ref (answerCodec codecOptions))) in
  do! on_fst (set_key "rtp" (JArray (map (fun c => c.1.1) codecs))) in
  do! on_fst (set_key "rtcpFb" (JArray (concat (map snd codecs)))) in
  do! on_fst (set_key "fmtp" (JArray (concat (map (fun c => c.1.2) codecs)))) in
  let! payloadTypes :=
    on_answer (at_key_env "codecs" (loop_ref (
      let! payloadType := on_fst (ref "payloadType") in
      let! n := lift (get_uint 8 payloadType) in
      ret [n]))) in
  do! on_fst (set_key "payloads" (JString (payloads_text payloadTypes))) in
  let! exts := on_answer (at_key_env "headerExtensions" (loop_ref (answerExt offerMediaObject))) in
  do! on_fst (set_key "ext" (JArray exts)) in
  do! when (it_is is_string (find "extmapAllowMixed" offerMediaObject))
        (on_fst (set_key "extmapAllowMixed" (JString "extmap-allow-mixed"))) in
  do! on_fst (answerSimulcast offerMediaObject) in
  do! on_fst (set_key "rtcpMux" (JString "rtcp-mux")) in
  on_fst (set_key "rtcpRsize" (JString "rtcp-rsize")).

(** The application part of both constructors. *)
Definition applicationMedia (sctpParameters : json) : M json unit :=
  do! set_key "payloads" (JString "webrtc-datachannel") in
  let! port := lift (cget "port" sctpParameters) in
  do! set_key "sctpPort" port in
  let! maxMessageSize := lift (cget "maxMessageSize" sctpParameters) in
  set_key "maxMessageSize" maxMessageSize.

(** The constructor on (mediaObject, (offerRtpParameters, answerRtpParameters)). *)
Definition AnswerMediaSection_init (iceParameters iceCandidates dtlsParameters sctpParameters
    offerMediaObject : json) (codecOptions : option json) : M (json * (json * json)) unit :=
  do! on_fst (MediaSection_init iceParameters iceCandidates) in
  let! type := lift (cget_string "type" offerMediaObject) in
  let! mid := lift (cget "mid" offerMediaObject) in
  do! on_fst (set_key "mid" mid) in
  do! on_fst (set_key "type" (JString type)) in
  let! protocol := lift (cget "protocol" offerMediaObject) in
  do! on_fst (set_key "protocol" protocol) in
  do! on_fst (set_key "connection" connection) in
  do! on_fst (set_key "port" (JInt 7)) in
  let! dtlsRole := lift (cget_string "role" dtlsParameters) in
  do! on_fst (setSetup dtlsRole) in
  if String.eqb type "audio" || String.eqb type "video" then
    answerMedia offerMediaObject codecOptions
  else when (String.eqb type "application") (on_fst (applicationMedia sctpParameters)).

(** [new AnswerMediaSection(...)] on (offerRtpParameters, answerRtpParameters). *)
Definition AnswerMediaSection (iceParameters iceCandidates dtlsParameters sctpParameters
    offerMediaObject : json) (codecOptions : option json) : M (json * json) MediaSection := fun st =>
  let '(r, (mediaObject, st')) :=
    AnswerMediaSection_init iceParameters iceCandidates dtlsParameters sctpParameters
      offerMediaObject codecOptions (JObject [], st) in
  (let? _ := r in Ok {| sectionKind := AnswerKind; mediaObject := mediaObject |}, st').

(** ** OfferMediaSection *)

(** [codec["payloadType"].get<uint8_t>()] *)
Definition payloadTypeOf (codec : json) : result (list Z) :=
  let? payloadType := cget "payloadType" codec in
  let? n := get_uint 8 payloadType in
  Ok [n].

Definition offerFb (payloadType fb : json) : result (list json) :=
  let? type := cget "type" fb in
  let? parameter := cget "parameter" fb in
  Ok [rtcpFbObject payloadType type parameter].

(** The rtp entry, the fmtp entries and the rtcp-fb entries of a codec of the offer. *)
Definition offerCodec (codec : json) : result (list (json * list json * list json)) :=
  let? payloadType := cget "payloadType" codec in
  let? name := getCodecName codec in
  let? clockRate := cget "clockRate" codec in
  let? channels := (match find "channels" codec with
                    | Some c => let? n := get_uint 8 c in Ok (Some n)
                    | None => Ok None
                    end) in
  let? codecParameters := cget "parameters" codec in
  let? rtcpFeedback := cget "rtcpFeedback" codec in
  let? rtcpFbs := collect (offerFb payloadType) (elems rtcpFeedback) in
  Ok [(rtpObject payloadType clockRate name channels,
       fmtpObjects payloadType codecParameters, rtcpFbs)].

Definition offerExt (ext : json) : result (list json) :=
  let? uri := cget "uri" ext in
  let? id := cget "id" ext in
  Ok [extObject uri id].

Definition ssrcObject (id : Z) (attribute value : string) : json :=
  jobj [("id", JUInt id); ("attribute", JString attribute); ("value", JString value)].

(** The ssrc lines and the ssrc groups of the stream. *)
Definition ssrcObjects (ssrc rtxSsrc : Z) (cname msid : string) : list json * list json :=
  let lines id := [ssrcObject id "cname" cname; ssrcObject id "msid" msid] in
  if rtxSsrc =? 0 then (lines ssrc, [])
  else
    (lines ssrc ++ lines rtxSsrc,
     [jobj [("semantics", JString "FID");
            ("ssrcs", JString (to_string ssrc +:+ " " +:+ to_string rtxSsrc))]]).

(** The SSRC of the retransmission stream, 0 when there is none. *)
Definition rtxSsrcOf (encoding : json) : result Z :=
  match find "rtx" encoding with
  | Some rtx =>
      match find "ssrc" rtx with
      | Some ssrc => get_uint 32 ssrc
      | None => Ok 0
      end
  | None => Ok 0
  end.

(** The audio and video part of the constructor. *)
Definition offerMedia (offerRtpParameters : json) (streamId trackId : string) : M json unit :=
  do! set_key "direction" (JString "sendonly") in
  let! codecs := lift (cget "codecs" offerRtpParameters) in
  let! objects := lift (collect offerCodec (elems codecs)) in
  do! set_key "rtp" (JArray (map (fun c => c.1.1) objects)) in
  do! set_key "rtcpFb" (JArray (concat (map snd objects))) in
  do! set_key "fmtp" (JArray (concat (map (fun c => c.1.2) objects))) in
  let! payloadTypes := lift (collect payloadTypeOf (elems codecs)) in
  do! set_key "payloads" (JString (payloads_text payloadTypes)) in
  let! headerExtensions := lift (cget "headerExtensions" offerRtpParameters) in
  let! exts := lift (collect offerExt (elems headerExtensions)) in
  do! set_key "ext" (JArray exts) in
  do! set_key "rtcpMux" (JString "rtcp-mux") in
  do! set_key "rtcpRsize" (JString "rtcp-rsize") in
  let! encodings := lift (cget "encodings" offerRtpParameters) in
  let! encoding := lift (cget_idx 0 encodings) in
  let! ssrcValue := lift (cget "ssrc" encoding) in
  let! ssrc := lift (get_uint 32 ssrcValue) in
  let! rtxSsrc := lift (rtxSsrcOf encoding) in
  let! rtcp := lift (cget "rtcp" offerRtpParameters) in
  let objects :=
    match find "cname" rtcp with
    | Some (JString cname) => ssrcObjects ssrc rtxSsrc cname (streamId +:+ " " +:+ trackId)
    | _ => ([], [])
    end in
  do! set_key "ssrcs" (JArray objects.1) in
  set_key "ssrcGroups" (JArray objects.2).

Definition OfferMediaSection_init (iceParameters iceCandidates sctpParameters : json)
    (mid kind : string) (offerRtpParameters : json) (streamId trackId : string) : M json unit :=
  do! MediaSection_init iceParameters iceCandidates in
  do! set_key "mid" (JString mid) in
  do! set_key "type" (JString kind) in
  do! set_key "protocol" (JString (if json_eq sctpParameters JNull then "UDP/TLS/RTP/SAVPF"
                                   else "UDP/DTLS/SCTP")) in
  do! set_key "connection" connection in
  do! set_key "port" (JInt 7) in
  do! set_key "setup" (JString "actpass") in
  if String.eqb kind "audio" || String.eqb kind "video" then
    offerMedia offerRtpParameters streamId trackId
  else when (String.eqb kind "application") (applicationMedia sctpParameters).

(** [new OfferMediaSection(...)] *)
Definition OfferMediaSection (iceParameters iceCandidates sctpParameters : json)
    (mid kind : string) (offerRtpParameters : json) (streamId trackId : string) :
    result MediaSection :=
  let '(r, mediaObject) :=
    OfferMediaSection_init iceParameters iceCandidates sctpParameters mid kind
      offerRtpParameters streamId trackId (JObject []) in
  let? _ := r in Ok {| sectionKind := OfferKind; mediaObject := mediaObject |}.
