(* ===== verification/MediaSectionSpec.v ===== *)
(** * Media sections: the proofs

    What a media section built from validated parameters contains, and what the
    operations on a media section leave alone. *)

From Stdlib Require Import Ascii.
From stdpp Require Import pretty.
From S2P Require Import Prelude Json Regex Validator OrtcValidate OrtcContracts OrtcValidated.
From S2P Require Import Strings Ortc OrtcMatch OrtcExtended MediaSection.

(** ** The name of a codec *)

(** The text after the first slash. *)
Fixpoint mimeSubtype (mime : string) : string :=
  match mime with
  | String a s => if Ascii.eqb a "/"%char then s else mimeSubtype s
  | EmptyString => ""
  end.

Lemma mimeSubtype_split kind subtype :
  tolower kind = "audio" \/ tolower kind = "video" -> mimeSubtype (kind +:+ "/" +:+ subtype) = subtype.
Proof.
  assert (H : forall w kind, all_chars (fun a => negb (Ascii.eqb a "/"%char)) w = true -> tolower kind = w ->
    mimeSubtype (kind +:+ "/" +:+ subtype) = subtype).
  { clear kind. intros w kind. revert w. induction kind as [|a kind IH]; intros w Hw <-; [done|].
    simpl in Hw |- *. apply andb_true_iff in Hw as [Ha%negb_true_iff Hw].
    destruct (Ascii.eqb_spec a "/"%char) as [->|]; [done|]. by apply (IH (tolower kind)). }
  intros [Hk|Hk]; by eapply H; [|exact Hk].
Qed.

Lemma MimePrefixRegex_rel n s s' c :
  rel n MimePrefixRegex s [] s' c <->
  String.length s = n /\ exists kind, s = kind +:+ "/" +:+ s' /\ c = [(1%nat, kind)] /\
    (tolower kind = "audio" \/ tolower kind = "video").
Proof.
  unfold MimePrefixRegex. rewrite rel_seq_inv. split.
  - intros (s1 & c1 & (-> & -> & Hn)%rel_bol_inv & H). split; [done|].
    apply rel_seq_inv in H as (s2 & c2 & (c3 & Hk & ->)%rel_group_inv & H).
    apply rel_lit_i in H as (-> & w & -> & Hw).
    assert (w = "/") as ->.
    { destruct w as [|a [|b w]]; try done. simpl in Hw. injection Hw as Hw.
      destruct a as [[] [] [] [] [] [] [] []]; try done; discriminate Hw. }
    apply rel_alt_inv in Hk as [Hk|Hk]; apply rel_lit_i in Hk as (-> & kind & -> & Hk);
      exists kind; rewrite consumed_app; auto.
  - intros (Hn & kind & -> & -> & Hk). do 2 eexists. split; [by apply rel_bol_inv|].
    apply rel_seq_inv. do 2 eexists. split; [apply rel_group_inv|].
    + eexists. split; [|done]. apply rel_alt_inv.
      destruct Hk; [left|right]; apply rel_lit_i; (split; [done|]); by exists kind.
    + rewrite consumed_app. apply rel_lit_i. split; [done|]. by exists "/".
Qed.

Lemma drop_mime_prefix kind subtype :
  tolower kind = "audio" \/ tolower kind = "video" ->
  drop_match MimePrefixRegex (kind +:+ "/" +:+ subtype) = subtype.
Proof.
  intros Hk. set (s := kind +:+ "/" +:+ subtype). unfold drop_match, regex_search.
  assert (Hs : is_Some (rmatch (String.length s) MimePrefixRegex s [] (fun s' c => Some (s', c)))).
  { eapply rmatch_complete; [|by eexists]. apply MimePrefixRegex_rel. eauto. }
  destruct Hs as [[s' c] Hs]. apply rmatch_sound in Hs as Hr.
  destruct Hr as (s1 & c1 & (_ & kind' & Hs' & _ & Hk')%MimePrefixRegex_rel & [= -> ->]).
  assert (subtype = s') as <-.
  { apply str_app_inj in Hs' as [_ E]; [by injection E|].
    by rewrite !media_kind_length. }
  clear Hs'. clearbody s. by destruct s; cbn [search_from]; rewrite Hs.
Qed.

Lemma run_getCodecName codec :
  is_object codec = true -> mimeTypeOk (find "mimeType" codec) = true ->
  getCodecName codec = Ok (mimeSubtype (text "mimeType" codec)).
Proof.
  intros Ho Hm. unfold getCodecName, cget_string, text.
  destruct codec as [| | | | | | |m]; try done. simpl in *.
  destruct (obj_find "mimeType" m) as [[| | | | |s| |]|]; try done. simpl in *.
  apply MimeTypeRegex_spec in Hm as (kind & subtype & -> & Hk & _).
  by rewrite (drop_mime_prefix _ _ Hk), (mimeSubtype_split _ _ Hk).
Qed.

(** ** The texts of the constructors *)

(** The payload types are written in order, separated by spaces. *)
Lemma payloads_text_from l s :
  s <> "" ->
  foldl (fun payloads pt =>
    (if String.eqb payloads "" then "" else payloads +:+ " ") +:+ to_string pt) s l =
  String.concat " " (s :: map to_string l).
Proof.
  revert s. induction l as [|z l IH]; intros s Hs; [done|]. cbn [foldl].
  rewrite (proj2 (String.eqb_neq s "") Hs). rewrite IH; simpl.
  - destruct (map to_string l); by rewrite ?str_app_assoc.
  - by destruct s.
Qed.
Lemma payloads_text_concat l : payloads_text l = String.concat " " (map to_string l).
Proof.
  unfold payloads_text. destruct l as [|z l]; [done|]. cbn [foldl]. simpl String.eqb. cbv iota.
  rewrite payloads_text_from by apply to_string_nonempty. done.
Qed.

(** The entries of the codec parameters are written in order, separated by semicolons. *)
Definition config_entry (text : json -> string) (kv : string * json) : string :=
  kv.1 +:+ "=" +:+ text kv.2.

Lemma config_by_from text l s :
  s <> "" ->
  foldl (fun config kv =>
    (if String.eqb config "" then "" else config +:+ ";") +:+
    kv.1 +:+ "=" +:+ text kv.2) s l =
  String.concat ";" (s :: map (config_entry text) l).
Proof.
  revert s. induction l as [|z l IH]; intros s Hs; [done|]. cbn [foldl].
  rewrite (proj2 (String.eqb_neq s "") Hs). rewrite IH; simpl.
  - destruct (map (config_entry text) l); unfold config_entry; by rewrite ?str_app_assoc.
  - by destruct s.
Qed.
Lemma config_by_concat text j :
  config_by text j = String.concat ";" (map (config_entry text) (items j)).
Proof.
  unfold config_by. destruct (items j) as [|[k v] l]; [done|]. cbn [foldl]. simpl String.eqb.
  cbv iota. rewrite config_by_from; [done|]. simpl. by destruct k.
Qed.

(** ** What an offer needs of the RTP parameters *)

Definition offerCodecOk : json -> bool :=
  object_with (fun c =>
    mimeTypeOk (obj_find "mimeType" c) &&
    it_is is_number_integer (obj_find "payloadType" c) &&
    it_is is_number_integer (obj_find "clockRate" c) &&
    it_none_or is_number_integer (obj_find "channels" c) &&
    it_is is_object (obj_find "parameters" c) &&
    it_is (array_of completeRtcpFeedback) (obj_find "rtcpFeedback" c)).

Definition offerExtOk : json -> bool :=
  object_with (fun x => it_is is_nonempty_string (obj_find "uri" x) &&
    it_is is_number_integer (obj_find "id" x)).

(** The stream has an SSRC, and so has its retransmission when there is one. *)
Definition streamOk : json -> bool :=
  object_with (fun e => it_is is_number_integer (obj_find "ssrc" e) &&
    it_none_or (fun rtx => it_is is_number_integer (find "ssrc" rtx)) (obj_find "rtx" e)).

Definition first_is (p : json -> bool) (j : json) : bool :=
  match j with JArray (x :: _) => p x | _ => false end.

Definition offerable : json -> bool :=
  object_with (fun p =>
    it_is (array_of offerCodecOk) (obj_find "codecs" p) &&
    it_is (array_of offerExtOk) (obj_find "headerExtensions" p) &&
    it_is (first_is streamOk) (obj_find "encodings" p) &&
    it_is acceptsRtcpParameters (obj_find "rtcp" p)).

(** Validated parameters have all of it, up to the SSRC of the first encoding. *)
Definition has_ssrc (params : json) : bool :=
  it_is (first_is (fun e => it_is is_number_integer (find "ssrc" e))) (find "encodings" params).

Lemma validated_offerCodec c :
  acceptsRtpCodecParameters c = true -> offerCodecOk (normRtpCodecParameters c) = true.
Proof.
  destruct c as [| | | | | | |m]; try done. simpl.
  rewrite !andb_true_iff. intros ((((Hm & Hpt) & Hc) & Hp) & Hf).
  set (kind := mimeKind (obj_find "mimeType" m)).
  destruct (normCodecTail_ready kind m Hc Hf) as (Hc' & Ha & Hna & Hp' & Hf').
  rewrite !normCodecTail_find by done. simpl in *.
  rewrite Hm, Hpt, Hc, Hp', Hf'. split_and!; try done.
  destruct (decide (kind = "audio")) as [E|E].
  - specialize (Ha E). by destruct (obj_find "channels" _).
  - by rewrite (Hna E).
Qed.

Lemma validated_offerExt x :
  acceptsRtpHeaderExtensionParameters x = true ->
  offerExtOk (normRtpHeaderExtensionParameters x) = true.
Proof.
  destruct x as [| | | | | | |m]; try done. simpl. rewrite !andb_true_iff.
  intros (((Hu & Hi) & _) & _). lookups. by rewrite Hu, Hi.
Qed.

Lemma forallb_norm (p q : json -> bool) f l :
  (forall x, p x = true -> q (f x) = true) -> forallb p l = true -> forallb q (map f l) = true.
Proof.
  intros H. rewrite !forallb_forall. intros Hl x (y & <- & Hy)%in_map_iff. by apply H, Hl.
Qed.

Lemma validated_offerable params :
  acceptsRtpParameters params = true -> has_ssrc params = true ->
  offerable (normRtpParameters params) = true.
Proof.
  destruct params as [| | | | | | |m]; try done. unfold has_ssrc. simpl.
  intros H Hs. rewrite !andb_true_iff in H. destruct H as ((((_ & Hc) & Hx) & He) & Hr). unfold normRtcp.
  lookups. rewrite !obj_find_normOptionalArray by done. unfold normOptionalArray, absent. lookups.
  destruct (obj_find "codecs" m) as [[| | | | | |cs|]|]; try done. simpl in Hc |- *.
  rewrite (forallb_norm _ offerCodecOk _ _ validated_offerCodec Hc). simpl.
  destruct (obj_find "encodings" m) as [[| | | | | |[|e es]|]|]; try done. simpl in He, Hs |- *.
  apply andb_true_iff in He as [He _]. destruct e as [| | | | | | |em]; try done. simpl in *.
  lookups. rewrite Hs. rewrite !andb_true_iff in He. destruct He as (((_ & _) & Hrtx) & _).
  rewrite Hrtx. simpl. rewrite andb_true_iff. split.
  - destruct (obj_find "headerExtensions" m) as [[| | | | | |xs|]|]; try done. simpl in Hx |- *.
    rewrite (forallb_norm _ offerExtOk _ _ validated_offerExt Hx). done.
  - destruct (obj_find "rtcp" m) as [[| | | | | | |rm]|]; try done. simpl in Hr |- *. lookups. done.
Qed.

(** ** The entries of an offer *)

(** The value of a JSON integer. *)
Definition number (j : json) : Z := match j with JInt z | JUInt z => z | _ => 0 end.
Lemma get_uint_number w j :
  is_number_integer j = true -> get_uint w j = Ok (uint w (number j)).
Proof. by destruct j. Qed.

Definition channels_of (c : json) : option Z := (fun n => uint 8 (number n)) <$> find "channels" c.

(** The rtp entry of a codec: payload type, name, clock rate, and the number of channels when
    there is more than one. *)
Definition describedRtp (c : json) : json :=
  jobj ([("payload", field "payloadType" c); ("codec", JString (mimeSubtype (text "mimeType" c)));
         ("rate", field "clockRate" c)] ++
        match channels_of c with
        | Some n => if 1 <? n then [("encoding", JUInt n)] else []
        | None => []
        end).

(** The fmtp entry of a codec with parameters: the pairs key=value, separated by semicolons. *)
Definition value_text (v : json) : string :=
  match v with
  | JString s => s
  | JInt z => to_string z
  | JUInt n => to_string (sint 64 n)
  | JFloat f => float_text (to_float f)
  | _ => ""
  end.
Definition describedFmtp (c : json) : list json :=
  match items (field "parameters" c) with
  | [] => []
  | parameters =>
      [jobj [("payload", field "payloadType" c);
             ("config", JString (String.concat ";"
                (map (fun kv => kv.1 +:+ "=" +:+ value_text kv.2) parameters)))]]
  end.

(** The rtcp-fb entries of a codec, and the entry of a header extension. *)
Definition describedFbs (c : json) : list json :=
  map (fun fb => jobj [("payload", field "payloadType" c); ("type", field "type" fb);
                       ("subtype", field "parameter" fb)]) (array_at "rtcpFeedback" c).
Definition describedExt (x : json) : json :=
  jobj [("uri", field "uri" x); ("value", field "id" x)].

(** The constructors of the model build these. *)
Lemma rtpObject_described c :
  rtpObject (field "payloadType" c) (field "clockRate" c) (mimeSubtype (text "mimeType" c))
    (channels_of c) = describedRtp c.
Proof. unfold rtpObject, describedRtp. destruct (channels_of c) as [n|]; [|done]. by destruct (1 <? n). Qed.

Lemma fmtpObjects_described c :
  fmtpObjects (field "payloadType" c) (field "parameters" c) = describedFmtp c.
Proof.
  unfold fmtpObjects, describedFmtp, config_text. rewrite config_by_concat.
  replace (map (config_entry parameter_text)) with (map (fun kv => kv.1 +:+ "=" +:+ value_text kv.2)) by done.
  destruct (items (field "parameters" c)) as [|[k v] l]; [done|]. cbn [map].
  destruct (map _ l); cbn [String.concat fst]; by destruct k.
Qed.
Definition payload_number (c : json) : Z := uint 8 (number (field "payloadType" c)).

Lemma collect_singletons {A} (f : json -> result (list A)) g l :
  Forall (fun x => f x = Ok [g x]) l -> collect f l = Ok (map g l).
Proof.
  intros H. exact (collect_pure f (fun x => [g x]) l H).
Qed.

Lemma run_offerFb pt fb :
  completeRtcpFeedback fb = true ->
  offerFb pt fb = Ok [rtcpFbObject pt (field "type" fb) (field "parameter" fb)].
Proof.
  intros H. unfold offerFb. destruct fb as [| | | | | | |m]; try done. simpl in H.
  apply andb_true_iff in H as [Ht Hp]. unfold field. simpl.
  destruct (obj_find "type" m); [|done]. simpl. by destruct (obj_find "parameter" m).
Qed.

Lemma offerCodecOk_fields c :
  offerCodecOk c = true ->
  exists m pt rate ps fbs, c = JObject m /\ mimeTypeOk (obj_find "mimeType" m) = true /\
    obj_find "payloadType" m = Some pt /\ is_number_integer pt = true /\
    obj_find "clockRate" m = Some rate /\
    it_none_or is_number_integer (obj_find "channels" m) = true /\
    obj_find "parameters" m = Some (JObject ps) /\
    obj_find "rtcpFeedback" m = Some (JArray fbs) /\
    Forall (fun fb => completeRtcpFeedback fb = true) fbs.
Proof.
  destruct c as [| | | | | | |m]; try done. simpl. rewrite !andb_true_iff.
  intros (((((Hm & Hpt) & Hr) & Hch) & Hp) & Hf).
  destruct (obj_find "payloadType" m) as [pt|] eqn:?; [|done].
  destruct (obj_find "clockRate" m) as [rate|] eqn:?; [|done].
  destruct (obj_find "parameters" m) as [[| | | | | | |ps]|] eqn:?; try done.
  destruct (obj_find "rtcpFeedback" m) as [[| | | | | |fbs|]|] eqn:?; try done.
  exists m, pt, rate, ps, fbs. split_and!; try done. by apply forallb_Forall.
Qed.

Lemma run_offerCodec c :
  offerCodecOk c = true -> offerCodec c = Ok [(describedRtp c, describedFmtp c, describedFbs c)].
Proof.
  intros (m & pt & rate & ps & fbs & -> & Hm & Hpt & Hi & Hr & Hch & Hp & Hf & Hfbs)%offerCodecOk_fields.
  rewrite <- rtpObject_described, <- fmtpObjects_described.
  unfold offerCodec, describedFbs, channels_of, field, array_at. simpl.
  rewrite Hpt, Hr, Hp, Hf. simpl. rewrite run_getCodecName by done. simpl.
  rewrite (collect_singletons _ (fun fb => rtcpFbObject pt (field "type" fb) (field "parameter" fb))).
  2: { eapply Forall_impl; [exact Hfbs|]. intros. by apply run_offerFb. }
  destruct (obj_find "channels" m) as [ch|]; [|done]. simpl in *.
  by rewrite (get_uint_number _ _ Hch).
Qed.

Lemma run_payloadTypeOf c : offerCodecOk c = true -> payloadTypeOf c = Ok [payload_number c].
Proof.
  intros (m & pt & rate & ps & fbs & -> & Hm & Hpt & Hi & _)%offerCodecOk_fields.
  unfold payloadTypeOf, payload_number, field. simpl. rewrite Hpt. simpl.
  by rewrite (get_uint_number _ _ Hi).
Qed.

Lemma run_offerExt x : offerExtOk x = true -> offerExt x = Ok [describedExt x].
Proof.
  destruct x as [| | | | | | |m]; try done. simpl. rewrite andb_true_iff. intros [Hu Hi].
  unfold offerExt, describedExt, field. simpl.
  destruct (obj_find "uri" m); [|done]. simpl. by destruct (obj_find "id" m).
Qed.

(** An ICE candidate as it appears in a section. *)
Definition describedCandidate (c : json) : json :=
  let object := jobj [
    ("component", JInt 1); ("foundation", field "foundation" c); ("ip", field "ip" c);
    ("port", field "port" c); ("priority", field "priority" c);
    ("transport", field "protocol" c); ("type", field "type" c) ] in
  match find "tcpType" c with
  | Some tcpType => on_object (obj_insert "tcptype" tcpType) object
  | None => object
  end.

Lemma run_candidateObject c :
  acceptsIceCandidate c = true -> candidateObject c = Ok [describedCandidate c].
Proof.
  destruct c as [| | | | | | |m]; try done. simpl. rewrite !andb_true_iff. unfold text_at.
  intros (((((((Hf & Hp) & Hi) & Hpr) & _) & Hpo) & Hty) & _).
  unfold candidateObject, describedCandidate, field. simpl.
  destruct (obj_find "foundation" m); [|done]. destruct (obj_find "ip" m); [|done].
  destruct (obj_find "port" m); [|done]. destruct (obj_find "priority" m); [|done].
  destruct (obj_find "protocol" m); [|done]. by destruct (obj_find "type" m).
Qed.

(** What the base class writes into the media object. *)
Definition transportFields (ice candidates : json) (m : list (string * json)) :
    list (string * json) :=
  obj_insert "iceOptions" (JString "renomination")
    (obj_insert "endOfCandidates" (JString "end-of-candidates")
      (obj_insert "candidates" (JArray (map describedCandidate (elems candidates)))
        (obj_insert "icePwd" (field "password" ice)
          (obj_insert "iceUfrag" (field "usernameFragment" ice) m)))).

Lemma run_MediaSection_init ice candidates m :
  acceptsIceParameters ice = true -> array_of acceptsIceCandidate candidates = true ->
  MediaSection_init ice candidates (JObject m) = (Ok tt, JObject (transportFields ice candidates m)).
Proof.
  intros Hi Hc. destruct ice as [| | | | | | |im]; try done. unfold acceptsIceParameters, text_at in Hi.
  simpl in Hi. apply andb_true_iff in Hi as [Hu Hw].
  destruct (obj_find "usernameFragment" im) as [u|] eqn:Eu; [|done].
  destruct (obj_find "password" im) as [w|] eqn:Ew; [|done].
  unfold MediaSection_init, SetIceParameters, transportFields, field. simpl find.
  change (find "password" (JObject im)) with (obj_find "password" im).
  change (find "usernameFragment" (JObject im)) with (obj_find "usernameFragment" im).
  simpl cget. rewrite Eu, Ew. rewrite run_bind_bind, (bind_lift _ _ _ u) by done. run.
  rewrite (bind_lift _ _ _ w) by done. run.
  destruct candidates as [| | | | | |cs|]; try done.
  rewrite (bind_lift _ _ _ (map describedCandidate cs)); [by run|].
  apply collect_singletons. eapply Forall_impl; [by apply forallb_Forall|].
  intros c. apply run_candidateObject.
Qed.

(** ** Media sections *)

Definition section_ok (ms : MediaSection) : bool :=
  object_with (fun m => it_is is_nonempty_string (obj_find "mid" m) &&
    negb (absent (obj_find "port" m)) && negb (absent (obj_find "payloads" m))) (mediaObject ms).

Definition mid_of (ms : MediaSection) : string := text "mid" (mediaObject ms).
Definition closed (ms : MediaSection) : bool :=
  json_eq (field "port" (mediaObject ms)) (JInt 0).

Lemma section_ok_fields ms :
  section_ok ms = true ->
  exists m p, mediaObject ms = JObject m /\ obj_find "mid" m = Some (JString (mid_of ms)) /\
    mid_of ms <> "" /\ obj_find "port" m = Some p /\ closed ms = json_eq p (JInt 0) /\
    exists payloads, obj_find "payloads" m = Some payloads.
Proof.
  unfold section_ok, mid_of, closed, text, field, absent.
  destruct (mediaObject ms) as [| | | | | | |m]; try done. simpl. rewrite !andb_true_iff.
  intros [[Hm Hp] Hl]. destruct (obj_find "mid" m) as [[| | | | |mid| |]|] eqn:Em; try done.
  destruct (obj_find "port" m) as [p|] eqn:Ep; [|done].
  destruct (obj_find "payloads" m) as [l|] eqn:El; [|done].
  exists m, p. split_and!; try done; [by destruct mid|by exists l].
Qed.

Lemma run_GetMid ms : section_ok ms = true -> GetMid ms = Ok (mid_of ms).
Proof.
  intros (m & p & Em & Hm & _)%section_ok_fields. unfold GetMid, cget_string. rewrite Em. simpl.
  by rewrite Hm.
Qed.
Lemma run_IsClosed ms : section_ok ms = true -> IsClosed ms = Ok (closed ms).
Proof.
  intros (m & p & Em & _ & _ & Hp & Hc & _)%section_ok_fields. unfold IsClosed. rewrite Em. simpl.
  rewrite Hp. simpl. by rewrite Hc.
Qed.

(** [f] succeeds on the object of the section, keeps its mid and leaves the
    section closed according to [c]. *)
Definition keeps_section (f : M json unit) (ms : MediaSection) (c : bool) : Prop :=
  exists o, f (mediaObject ms) = (Ok tt, o) /\
    let ms' := {| sectionKind := sectionKind ms; mediaObject := o |} in
    section_ok ms' = true /\ mid_of ms' = mid_of ms /\ closed ms' = c.

Lemma run_erase_key k m : erase_key k (JObject m) = (Ok tt, JObject (obj_erase k m)).
Proof. done. Qed.
Lemma run_bind_erase_key {B} k m (f : unit -> M json B) :
  bind (erase_key k) f (JObject m) = f tt (JObject (obj_erase k m)).
Proof. done. Qed.
#[export] Hint Rewrite @run_erase_key @run_bind_erase_key : msc_run.

(** Runs such an operation and reads the fields of the result. *)
Ltac keeps ms Hm Hp Hc Hl :=
  eexists; split; [reflexivity|]; unfold section_ok, mid_of, closed, text, field, absent;
  simpl; lookups; rewrite ?Hm, ?Hp, ?Hl; simpl;
  split_and!; try done; try (by destruct (mid_of ms)).

Lemma Disable_keeps ms : section_ok ms = true -> keeps_section Disable ms (closed ms).
Proof.
  intros (m & p & Em & Hm & Hne & Hp & Hc & l & Hl)%section_ok_fields. unfold keeps_section. rewrite Em.
  unfold Disable. run. rewrite Hc. keeps ms Hm Hp Hc Hl.
Qed.
Lemma Close_keeps ms : section_ok ms = true -> keeps_section Close ms true.
Proof.
  intros (m & p & Em & Hm & Hne & Hp & Hc & l & Hl)%section_ok_fields. unfold keeps_section. rewrite Em.
  unfold Close. run. keeps ms Hm Hp Hc Hl.
Qed.
Lemma SetIceParameters_keeps ice ms :
  acceptsIceParameters ice = true -> section_ok ms = true ->
  keeps_section (SetIceParameters ice) ms (closed ms).
Proof.
  intros Hi (m & p & Em & Hm & Hne & Hp & Hc & l & Hl)%section_ok_fields. unfold keeps_section. rewrite Em.
  destruct ice as [| | | | | | |im]; try done. unfold acceptsIceParameters, text_at in Hi.
  simpl in Hi. apply andb_true_iff in Hi as [Hu Hw].
  destruct (obj_find "usernameFragment" im) as [u|] eqn:Eu; [|done].
  destruct (obj_find "password" im) as [w|] eqn:Ew; [|done].
  unfold SetIceParameters. simpl. rewrite Eu, Ew. rewrite (bind_lift _ _ _ u) by done. run.
  rewrite (bind_lift _ _ _ w) by done. run. rewrite Hc. keeps ms Hm Hp Hc Hl.
Qed.
Lemma SetDtlsRole_keeps kind role ms :
  section_ok ms = true -> keeps_section (SetDtlsRole kind role) ms (closed ms).
Proof.
  intros Hok. pose proof Hok as (m & p & Em & Hm & Hne & Hp & Hc & l & Hl)%section_ok_fields.
  unfold keeps_section. rewrite Em. unfold SetDtlsRole, setSetup.
  destruct kind; [|run; rewrite Hc; keeps ms Hm Hp Hc Hl].
  destruct (String.eqb role "client"); [run; rewrite Hc; keeps ms Hm Hp Hc Hl|].
  destruct (String.eqb role "server"); [run; rewrite Hc; keeps ms Hm Hp Hc Hl|].
  destruct (String.eqb role "auto"); [run; rewrite Hc; keeps ms Hm Hp Hc Hl|].
  rewrite Hc. keeps ms Hm Hp Hc Hl.
Qed.

(** ** OfferMediaSection *)

(** The ssrc lines and groups of the first encoding, none without a CNAME: two lines for the
    stream, two for its retransmission, and a group of both when there is one. *)
Definition describedSsrc (id : Z) (cname msid : string) : list json :=
  [jobj [("id", JUInt id); ("attribute", JString "cname"); ("value", JString cname)];
   jobj [("id", JUInt id); ("attribute", JString "msid"); ("value", JString msid)]].
Definition stream_ssrc (p : json) : Z :=
  uint 32 (number (field "ssrc" (default JNull (head (array_at "encodings" p))))).
Definition stream_rtx (p : json) : Z :=
  match find "rtx" (default JNull (head (array_at "encodings" p))) with
  | Some rtx => uint 32 (number (field "ssrc" rtx))
  | None => 0
  end.
Definition describedSsrcs (p : json) (streamId trackId : string) : list json * list json :=
  let ssrc := stream_ssrc p in
  let rtx := stream_rtx p in
  let msid := streamId +:+ " " +:+ trackId in
  match find "cname" (field "rtcp" p) with
  | Some (JString cname) =>
      if rtx =? 0 then (describedSsrc ssrc cname msid, [])
      else (describedSsrc ssrc cname msid ++ describedSsrc rtx cname msid,
            [jobj [("semantics", JString "FID");
                   ("ssrcs", JString (to_string ssrc +:+ " " +:+ to_string rtx))]])
  | _ => ([], [])
  end.

Lemma describedSsrcs_cname p streamId trackId cname :
  find "cname" (field "rtcp" p) = Some (JString cname) ->
  describedSsrcs p streamId trackId =
  ssrcObjects (stream_ssrc p) (stream_rtx p) cname (streamId +:+ " " +:+ trackId).
Proof. intros H. unfold describedSsrcs. by rewrite H. Qed.

(** What [offerMedia] writes into the media object. *)
Definition offeredFields (p : json) (streamId trackId : string) (m : list (string * json)) :
    list (string * json) :=
  let codecs := array_at "codecs" p in
  obj_insert "ssrcGroups" (JArray (describedSsrcs p streamId trackId).2)
  (obj_insert "ssrcs" (JArray (describedSsrcs p streamId trackId).1)
  (obj_insert "rtcpRsize" (JString "rtcp-rsize")
  (obj_insert "rtcpMux" (JString "rtcp-mux")
  (obj_insert "ext" (JArray (map describedExt (array_at "headerExtensions" p)))
  (obj_insert "payloads" (JString (payloads_text (map payload_number codecs)))
  (obj_insert "fmtp" (JArray (flat_map describedFmtp codecs))
  (obj_insert "rtcpFb" (JArray (flat_map describedFbs codecs))
  (obj_insert "rtp" (JArray (map describedRtp codecs))
  (obj_insert "direction" (JString "sendonly") m))))))))).

Lemma run_rtxSsrcOf e :
  streamOk (JObject e) = true ->
  rtxSsrcOf (JObject e) = Ok (match find "rtx" (JObject e) with
                              | Some rtx => uint 32 (number (field "ssrc" rtx))
                              | None => 0
                              end).
Proof.
  simpl. rewrite andb_true_iff. intros [_ Hr]. unfold rtxSsrcOf, field.
  change (find "rtx" (JObject e)) with (obj_find "rtx" e).
  destruct (obj_find "rtx" e) as [rtx|]; [|done]. simpl in Hr.
  destruct (find "ssrc" rtx) as [v|]; [|done]. by rewrite (get_uint_number _ _ Hr).
Qed.

Lemma find_object k m : find k (JObject m) = obj_find k m.
Proof. done. Qed.

Lemma concat_map_flat_map {A B} (f : A -> list B) l : concat (map f l) = flat_map f l.
Proof. symmetry. apply flat_map_concat_map. Qed.

Lemma run_offerMedia p streamId trackId m :
  offerable p = true ->
  offerMedia p streamId trackId (JObject m) =
  (Ok tt, JObject (offeredFields p streamId trackId m)).
Proof.
  destruct p as [| | | | | | |pm]; try done. simpl. rewrite !andb_true_iff.
  intros (((Hc & Hx) & He) & Hr).
  destruct (obj_find "codecs" pm) as [[| | | | | |cs|]|] eqn:Ec; try done.
  destruct (obj_find "headerExtensions" pm) as [[| | | | | |xs|]|] eqn:Ex; try done.
  destruct (obj_find "encodings" pm) as [[| | | | | |[|[| | | | | | |e] es]|]|] eqn:Ee; try done.
  destruct (obj_find "rtcp" pm) as [[| | | | | | |rm]|] eqn:Er; try done. simpl in *.
  apply forallb_Forall in Hc, Hx. pose proof (run_rtxSsrcOf e He) as Hrtx.
  apply andb_true_iff in He as [Hs _].
  destruct (obj_find "ssrc" e) as [ssrc|] eqn:Es; [|done]. simpl in Hs.
  unfold offerMedia, offeredFields, describedSsrcs, stream_ssrc, stream_rtx, array_at, field. simpl cget.
  rewrite !find_object, Ec, Ex, Ee, Er. unfold default, head. rewrite ?find_object, ?Es. run.
  rewrite (bind_lift _ _ _ (JArray cs)) by done. simpl elems.
  rewrite (bind_lift _ _ _ _ (collect_singletons _
    (fun c => (describedRtp c, describedFmtp c, describedFbs c)) _
    (Forall_impl _ _ _ Hc run_offerCodec))). run.
  rewrite (bind_lift _ _ _ _ (collect_singletons _ _ _ (Forall_impl _ _ _ Hc run_payloadTypeOf))).
  run. rewrite (bind_lift _ _ _ (JArray xs)) by done. simpl elems.
  rewrite (bind_lift _ _ _ _ (collect_singletons _ _ _ (Forall_impl _ _ _ Hx run_offerExt))). run.
  rewrite (bind_lift _ _ _ (JArray (JObject e :: es))), (bind_lift _ _ _ (JObject e)) by done.
  rewrite (bind_lift _ _ _ ssrc) by (simpl; by rewrite Es).
  rewrite (bind_lift _ _ _ _ (get_uint_number 32 _ Hs)).
  rewrite (bind_lift _ _ _ _ Hrtx), (bind_lift _ _ _ (JObject rm)) by done.
  cbv zeta. rewrite !map_map, !concat_map_flat_map. run. by rewrite Es.
Qed.

(** What [OfferMediaSection] writes before the part that depends on the kind. *)
Definition offerHead (ice candidates sctp : json) (mid kind : string) : list (string * json) :=
  obj_insert "setup" (JString "actpass")
  (obj_insert "port" (JInt 7)
  (obj_insert "connection" connection
  (obj_insert "protocol" (JString (if json_eq sctp JNull then "UDP/TLS/RTP/SAVPF"
                                   else "UDP/DTLS/SCTP"))
  (obj_insert "type" (JString kind)
  (obj_insert "mid" (JString mid) (transportFields ice candidates [])))))).

Definition is_media (kind : string) : bool := String.eqb kind "audio" || String.eqb kind "video".

Lemma run_OfferMediaSection ice candidates sctp mid kind p streamId trackId :
  acceptsIceParameters ice = true -> array_of acceptsIceCandidate candidates = true ->
  is_media kind = true -> offerable p = true ->
  OfferMediaSection ice candidates sctp mid kind p streamId trackId =
  Ok {| sectionKind := OfferKind;
        mediaObject := JObject (offeredFields p streamId trackId
                                  (offerHead ice candidates sctp mid kind)) |}.
Proof.
  intros Hi Hc Hk Hp. unfold OfferMediaSection, OfferMediaSection_init.
  rewrite (bind_of_ok _ _ _ _ _ (run_MediaSection_init _ _ _ Hi Hc)). run.
  unfold is_media in Hk. rewrite Hk.
  by rewrite (run_offerMedia _ _ _ _ Hp).
Qed.

(** What the application part of both constructors writes. *)
Definition sctpFields (sctp : json) (m : list (string * json)) : list (string * json) :=
  obj_insert "maxMessageSize" (field "maxMessageSize" sctp)
  (obj_insert "sctpPort" (field "port" sctp)
  (obj_insert "payloads" (JString "webrtc-datachannel") m)).

Lemma run_applicationMedia sctp m :
  acceptsSctpParameters sctp = true ->
  applicationMedia sctp (JObject m) = (Ok tt, JObject (sctpFields sctp m)).
Proof.
  intros Hs. destruct sctp as [| | | | | | |sm]; try done.
  unfold acceptsSctpParameters, integer_at in Hs.
  simpl in Hs. rewrite !andb_true_iff in Hs. destruct_and?.
  destruct (obj_find "port" sm) as [port|] eqn:Ep; [|done].
  destruct (obj_find "maxMessageSize" sm) as [size|] eqn:Em; [|done].
  unfold applicationMedia, sctpFields, field. rewrite !find_object, Ep, Em. run. rewrite Ep, Em.
  rewrite (bind_lift _ _ _ port) by done. by run.
Qed.

(** The same for the data channel section. *)
Lemma run_OfferMediaSection_sctp ice candidates sctp mid p streamId trackId :
  acceptsIceParameters ice = true -> array_of acceptsIceCandidate candidates = true ->
  acceptsSctpParameters sctp = true ->
  OfferMediaSection ice candidates sctp mid "application" p streamId trackId =
  Ok {| sectionKind := OfferKind;
        mediaObject := JObject (sctpFields sctp
                                  (offerHead ice candidates sctp mid "application")) |}.
Proof.
  intros Hi Hc Hs. unfold OfferMediaSection, OfferMediaSection_init.
  rewrite (bind_of_ok _ _ _ _ _ (run_MediaSection_init _ _ _ Hi Hc)). run.
  by rewrite (run_applicationMedia _ _ Hs).
Qed.

(** The media object of a remote offer section, field by field. *)
Definition offerObject (ice candidates : json) (mid kind : string) (p : json)
    (streamId trackId : string) : json :=
  let codecs := array_at "codecs" p in
  jobj [
    ("mid", JString mid); ("type", JString kind); ("port", JInt 7);
    ("protocol", JString "UDP/TLS/RTP/SAVPF");
    ("connection", jobj [("ip", JString "127.0.0.1"); ("version", JInt 4)]);
    ("iceUfrag", field "usernameFragment" ice); ("icePwd", field "password" ice);
    ("iceOptions", JString "renomination");
    ("candidates", JArray (map describedCandidate (elems candidates)));
    ("endOfCandidates", JString "end-of-candidates");
    ("setup", JString "actpass"); ("direction", JString "sendonly");
    ("payloads", JString (String.concat " " (map (fun c => to_string (payload_number c)) codecs)));
    ("rtp", JArray (map describedRtp codecs));
    ("fmtp", JArray (flat_map describedFmtp codecs));
    ("rtcpFb", JArray (flat_map describedFbs codecs));
    ("ext", JArray (map describedExt (array_at "headerExtensions" p)));
    ("rtcpMux", JString "rtcp-mux"); ("rtcpRsize", JString "rtcp-rsize");
    ("ssrcs", JArray (describedSsrcs p streamId trackId).1);
    ("ssrcGroups", JArray (describedSsrcs p streamId trackId).2) ].

Lemma offerObject_fields ice candidates mid kind p streamId trackId :
  JObject (offeredFields p streamId trackId (offerHead ice candidates JNull mid kind)) =
  offerObject ice candidates mid kind p streamId trackId.
Proof.
  unfold offeredFields. rewrite payloads_text_concat, map_map. reflexivity.
Qed.

(** C22.  For transport and RTP parameters that passed validation, the first encoding of which
    has an SSRC, the constructor of a remote offer section returns a section whose media object
    is exactly this: the mid and kind, the open port 7, the ICE parameters and candidates, the
    codecs of the parameters in order, each with payload type, name, clock rate, channels,
    parameters and feedback, the header extensions with their ids, and the SSRC lines of the
    first encoding and of its retransmission under the CNAME. *)
Theorem OfferMediaSection_correct (ice candidates params : json) (mid kind streamId trackId : string)
    (Hice : acceptsIceParameters ice = true)
    (Hcandidates : array_of acceptsIceCandidate candidates = true)
    (Hkind : is_media kind = true) (Hparams : acceptsRtpParameters params = true)
    (Hssrc : has_ssrc params = true) :
  let p := normRtpParameters params in
  OfferMediaSection ice candidates JNull mid kind p streamId trackId =
    Ok {| sectionKind := OfferKind;
          mediaObject := offerObject ice candidates mid kind p streamId trackId |}.
Proof.
  cbv zeta. rewrite run_OfferMediaSection; try done; [by rewrite offerObject_fields|].
  by apply validated_offerable.
Qed.

Definition sampleIce : json :=
  jobj [("usernameFragment", JString "ufrag"); ("password", JString "pwd")].
Definition sampleCandidates : json :=
  JArray [jobj [("foundation", JString "udpcandidate"); ("ip", JString "10.0.0.1");
                ("port", JUInt 40000); ("priority", JUInt 1078862079);
                ("protocol", JString "udp"); ("type", JString "host")]].
Definition sampleOffer : json :=
  jobj [("codecs", JArray [
           jobj [("mimeType", JString "video/VP8"); ("payloadType", JUInt 101);
                 ("clockRate", JUInt 90000)];
           jobj [("mimeType", JString "video/rtx"); ("payloadType", JUInt 102);
                 ("clockRate", JUInt 90000); ("parameters", jobj [("apt", JUInt 101)])]]);
        ("encodings", JArray [
           jobj [("ssrc", JUInt 1111); ("rtx", jobj [("ssrc", JUInt 2222)])]]);
        ("rtcp", jobj [("cname", JString "c")])].

Lemma OfferMediaSection_correct_witness :
  exists ms,
    OfferMediaSection sampleIce sampleCandidates JNull "0" "video"
      (normRtpParameters sampleOffer) "s" "t" = Ok ms /\
    text "payloads" (mediaObject ms) = "101 102" /\
    array_at "fmtp" (mediaObject ms) = [jobj [("payload", JUInt 102); ("config", JString "apt=101")]] /\
    length (array_at "ssrcs" (mediaObject ms)) = 4%nat.
Proof.
  eexists. split.
  - apply (OfferMediaSection_correct sampleIce sampleCandidates sampleOffer "0" "video" "s" "t");
      vm_compute; reflexivity.
  - vm_compute. auto.
Defined.
