(* ===== verification/AnswerSection.v ===== *)
(** * Answer sections: the proofs

    What the section that answers a local media object contains, and the data
    channel sections of both sides. *)

From S2P Require Import Prelude Json Regex Validator OrtcValidate OrtcContracts OrtcValidated.
From S2P Require Import Ortc OrtcMatch OrtcExtended MediaSection MediaSectionSpec.

(** ** AnswerMediaSection *)

(** Loops that leave what they go through alone. *)
Lemma run_loop_ref {T A} (f : M (json * T) (list A)) g l t :
  Forall (fun x => f (x, t) = (Ok (g x), (x, t))) l ->
  loop_ref f (JArray l, t) = (Ok (flat_map g l), (JArray l, t)).
Proof.
  intros H. unfold loop_ref, with_elems. simpl.
  replace (collect_ref f l t) with (Ok (flat_map g l), (l, t)); [done|].
  induction H as [|x l Hx _ IH]; simpl; [done|]. by rewrite Hx, <- IH.
Qed.

Lemma run_at_key_env {T A} k m v (f : M (json * T) A) t a :
  obj_find k m = Some v -> f (v, t) = (Ok a, (v, t)) ->
  at_key_env k f (JObject m, t) = (Ok a, (JObject m, t)).
Proof.
  intros Hk Hf. unfold at_key_env. simpl.
  rewrite (run_at_key k m v _ (Ok (Ok a, t)) v Hk) by (simpl; by rewrite Hf).
  by rewrite obj_replace_id.
Qed.

Lemma bind_at_ref {T B} k m v (g : json -> M (json * T) B) t :
  obj_find k m = Some v -> bind (on_fst (ref k)) g (JObject m, t) = g v (JObject m, t).
Proof. intros H. by rewrite (bind_on_fst _ _ _ _ _ _ (run_ref _ _ _ H)). Qed.

Lemma run_channelsOf {T B} c (g : option Z -> M (json * T) B) t :
  offerCodecOk c = true -> bind channelsOf g (c, t) = g (channels_of c) (c, t).
Proof.
  intros (m & _ & _ & _ & _ & -> & _ & _ & _ & _ & Hch & _)%offerCodecOk_fields.
  unfold channelsOf, channels_of, contains. rewrite run_bind_bind, run_bind_get. simpl fst.
  rewrite find_object. destruct (obj_find "channels" m) as [v|] eqn:E; [|done].
  rewrite bool_decide_eq_true_2 by done. rewrite run_bind_bind, (bind_at_ref _ _ _ _ _ E).
  simpl in Hch. rewrite run_bind_bind.
  by rewrite (bind_lift _ _ _ _ (get_uint_number _ _ Hch)).
Qed.

Lemma run_answerFb {T} pt fb (t : T) :
  completeRtcpFeedback fb = true ->
  (let! type := on_fst (ref "type") in
   let! parameter := on_fst (ref "parameter") in
   ret [rtcpFbObject pt type parameter]) (fb, t) =
  (Ok [rtcpFbObject pt (field "type" fb) (field "parameter" fb)], (fb, t)).
Proof.
  destruct fb as [| | | | | | |m]; try done. simpl. rewrite andb_true_iff. intros [Ht Hp].
  unfold field. rewrite !find_object. destruct (obj_find "type" m) eqn:Et; [|done].
  destruct (obj_find "parameter" m) eqn:Ep; [|done].
  by rewrite (bind_at_ref _ _ _ _ _ Et), (bind_at_ref _ _ _ _ _ Ep).
Qed.

Lemma run_answerCodec c offer :
  offerCodecOk c = true ->
  answerCodec None (c, offer) =
  (Ok [(describedRtp c, describedFmtp c, describedFbs c)], (c, offer)).
Proof.
  intros H. pose proof H as
    (m & pt & rate & ps & fbs & -> & Hm & Hpt & Hi & Hr & Hch & Hp & Hf & Hfbs)%offerCodecOk_fields.
  rewrite <- rtpObject_described, <- fmtpObjects_described.
  unfold answerCodec, describedFbs, array_at, field.
  rewrite !find_object, Hpt, Hr, Hp, Hf. rewrite (bind_at_ref _ _ _ _ _ Hpt), run_bind_get.
  simpl fst. rewrite (bind_lift _ _ _ _ (run_getCodecName (JObject m) eq_refl Hm)).
  destruct (obj_find "mimeType" m) as [[| | | | |s| |]|] eqn:Em; try done.
  rewrite (bind_lift _ _ _ s) by (unfold cget_string; simpl; by rewrite Em).
  rewrite (bind_at_ref _ _ _ _ _ Hr), (run_channelsOf _ _ _ H), (bind_at_ref _ _ _ _ _ Hp).
  change (optionedParameters None pt (JObject ps) s) with (ret (S := json * json) (JObject ps)).
  rewrite run_bind_ret. erewrite bind_of_ok; cycle 1.
  { apply (run_at_key_env _ _ _ _ _ _ Hf). apply run_loop_ref.
    eapply Forall_impl; [exact Hfbs|]. intros fb. apply (run_answerFb pt). }
  done.
Qed.

(** What an answer needs of the local media object. *)
Definition uri_known : json -> bool := object_with (fun x => negb (absent (obj_find "uri" x))).
Definition ridOk : json -> bool :=
  object_with (fun r => negb (absent (obj_find "direction" r)) && negb (absent (obj_find "id" r))).
Definition simulcastOk (simulcast rids : option json) : bool :=
  match simulcast with
  | Some (JObject m) =>
      match rids with
      | Some (JArray l) => negb (absent (obj_find "list1" m)) && forallb ridOk l
      | Some _ => true
      | None => false
      end
  | _ => true
  end.
Definition answerable (offerMediaObject : json) : bool :=
  object_with (fun o =>
    it_is is_nonempty_string (obj_find "mid" o) &&
    is_media (text "type" offerMediaObject) &&
    negb (absent (obj_find "protocol" o)) &&
    it_is (array_of uri_known) (obj_find "ext" o) &&
    simulcastOk (obj_find "simulcast" o) (obj_find "rids" o)) offerMediaObject.

(** The extensions of the parameters that the local media object has too. *)
Definition commonExts (offerMediaObject : json) (exts : list json) : list json :=
  List.filter (fun x =>
    existsb (fun local => json_eq (field "uri" local) (field "uri" x))
      (array_at "ext" offerMediaObject)) exts.

(** The simulcast streams that are sent, to be received. *)
Definition receivedRid (rid : json) : json :=
  jobj [("id", field "id" rid); ("direction", JString "recv")].
Definition is_sent (rid : json) : bool := json_eq (field "direction" rid) (JString "send").

Definition simulcastFields (offerMediaObject : json) (m : list (string * json)) :
    list (string * json) :=
  match find "simulcast" offerMediaObject, find "rids" offerMediaObject with
  | Some (JObject simulcast), Some (JArray rids) =>
      obj_insert "rids" (JArray (map receivedRid (List.filter is_sent rids)))
        (obj_insert "simulcast"
          (jobj [("dir1", JString "recv"); ("list1", field "list1" (JObject simulcast))]) m)
  | _, _ => m
  end.

Definition answeredFields (offerMediaObject answer : json) (m : list (string * json)) :
    list (string * json) :=
  let codecs := array_at "codecs" answer in
  obj_insert "rtcpRsize" (JString "rtcp-rsize")
  (obj_insert "rtcpMux" (JString "rtcp-mux")
  (simulcastFields offerMediaObject
  (obj_set_if (it_is is_string (find "extmapAllowMixed" offerMediaObject))
     "extmapAllowMixed" (JString "extmap-allow-mixed")
  (obj_insert "ext" (JArray (map describedExt
     (commonExts offerMediaObject (array_at "headerExtensions" answer))))
  (obj_insert "payloads" (JString (payloads_text (map payload_number codecs)))
  (obj_insert "fmtp" (JArray (flat_map describedFmtp codecs))
  (obj_insert "rtcpFb" (JArray (flat_map describedFbs codecs))
  (obj_insert "rtp" (JArray (map describedRtp codecs))
  (obj_insert "direction" (JString "recvonly") m))))))))).

Definition answerParametersOk : json -> bool :=
  object_with (fun p =>
    it_is (array_of offerCodecOk) (obj_find "codecs" p) &&
    it_is (array_of offerExtOk) (obj_find "headerExtensions" p)).

Lemma run_answerExt {T} offerMediaObject x (t : T) :
  it_is (array_of uri_known) (find "ext" offerMediaObject) = true -> offerExtOk x = true ->
  answerExt offerMediaObject (x, t) =
  (Ok (map describedExt (commonExts offerMediaObject [x])), (x, t)).
Proof.
  intros Ho Hx. destruct offerMediaObject as [| | | | | | |o]; try done.
  unfold answerExt, commonExts, array_at. rewrite find_object in *. simpl cget.
  destruct (obj_find "ext" o) as [[| | | | | |locals|]|]; try done. simpl in Ho.
  rewrite (bind_lift _ _ _ (JArray locals)) by done. simpl elems.
  destruct x as [| | | | | | |m]; try done. simpl in Hx. apply andb_true_iff in Hx as [Hu Hi].
  destruct (obj_find "uri" m) as [u|] eqn:Eu; [|done].
  destruct (obj_find "id" m) as [i|] eqn:Ei; [|done].
  assert (field "uri" (JObject m) = u /\ field "id" (JObject m) = i) as [Fu Fi]
    by (unfold field; by rewrite !find_object, Eu, Ei).
  cbn [List.filter]. rewrite Fu.
  rewrite (bind_at_ref _ _ _ _ _ Eu).
  rewrite (bind_lift _ _ _ (List.find (fun local => json_eq (field "uri" local) u) locals)).
  2: { apply find_if_pure. eapply Forall_impl; [by apply forallb_Forall|]. intros l Hl.
       destruct l as [| | | | | | |lm]; try done. simpl in Hl |- *. unfold field, absent in *.
       rewrite find_object. by destruct (obj_find "uri" lm). }
  rewrite <- find_existsb. destruct (List.find _ locals); [|done].
  rewrite (bind_at_ref _ _ _ _ _ Ei). cbn. unfold describedExt. by rewrite Fu, Fi.
Qed.

Lemma flat_map_filter offerMediaObject l :
  flat_map (fun x => map describedExt (commonExts offerMediaObject [x])) l =
  map describedExt (commonExts offerMediaObject l).
Proof.
  induction l as [|x l IH]; [done|]. cbn [flat_map]. rewrite IH. unfold commonExts.
  cbn [List.filter]. by destruct (existsb _ _).
Qed.

Lemma run_answerSimulcast offerMediaObject m :
  is_object offerMediaObject = true ->
  simulcastOk (find "simulcast" offerMediaObject) (find "rids" offerMediaObject) = true ->
  answerSimulcast offerMediaObject (JObject m) =
  (Ok tt, JObject (simulcastFields offerMediaObject m)).
Proof.
  intros Ho Hs. unfold answerSimulcast, simulcastFields.
  destruct (find "simulcast" offerMediaObject) as [[| | | | | | |sm]|]; try done. simpl in Hs.
  destruct (find "rids" offerMediaObject) as [[| | | | | |rids|]|]; try done. change (is_array (JArray rids)) with true.
  cbv iota. apply andb_true_iff in Hs as [Hl Hr]. unfold absent, field in *. rewrite find_object.
  destruct (obj_find "list1" sm) as [l1|] eqn:El; [|done].
  rewrite (bind_lift _ _ _ l1) by (simpl; by rewrite El). run.
  rewrite (bind_lift _ _ _ (map receivedRid (List.filter is_sent rids))); [by run|].
  simpl elems. erewrite collect_pure.
  2: { eapply Forall_impl; [by apply forallb_Forall|]. intros r Hrid.
       instantiate (1 := fun r => if is_sent r then [receivedRid r] else []).
       destruct r as [| | | | | | |rm]; try done. simpl in Hrid. unfold absent in Hrid.
       unfold answerRid, is_sent, receivedRid, field. rewrite !find_object. simpl cget.
       destruct (obj_find "direction" rm); [|done]. simpl.
       destruct (json_eq _ _); [|done]. by destruct (obj_find "id" rm). }
  f_equal. clear. induction rids as [|r rids IH]; [done|]. cbn. rewrite IH.
  by destruct (is_sent r).
Qed.

Lemma flat_map_singletons {A B} (f : A -> B) l : flat_map (fun x => [f x]) l = map f l.
Proof. done. Qed.

Lemma bind_on_answer {B A} (f : M (json * json) A) (g : A -> M (json * (json * json)) B) o offer answer a :
  f (answer, offer) = (Ok a, (answer, offer)) ->
  bind (on_answer f) g (o, (offer, answer)) = g a (o, (offer, answer)).
Proof. intros H. unfold on_answer. apply bind_on_snd. unfold swap. simpl. by rewrite H. Qed.

Lemma bind_set_fst {T B} k v (g : unit -> M (json * T) B) m t :
  bind (on_fst (set_key k v)) g (JObject m, t) = g tt (JObject (obj_insert k v m), t).
Proof. done. Qed.
Lemma bind_when_set_fst {T B} b k v (g : unit -> M (json * T) B) m t :
  bind (when b (on_fst (set_key k v))) g (JObject m, t) = g tt (JObject (obj_set_if b k v m), t).
Proof. by destruct b. Qed.

(** A loop over an array of the parameters. *)
Lemma run_answer_loop {A} k p l (f : M (json * json) (list A)) g offer :
  obj_find k p = Some (JArray l) -> Forall (fun x => f (x, offer) = (Ok (g x), (x, offer))) l ->
  at_key_env k (loop_ref f) (JObject p, offer) = (Ok (flat_map g l), (JObject p, offer)).
Proof. intros Hk Hf. eapply run_at_key_env; [exact Hk|]. by apply run_loop_ref. Qed.

Lemma answerable_fields o :
  answerable o = true ->
  is_object o = true /\ it_is is_nonempty_string (find "mid" o) = true /\
  find "type" o = Some (JString (text "type" o)) /\ is_media (text "type" o) = true /\
  is_Some (find "protocol" o) /\ it_is (array_of uri_known) (find "ext" o) = true /\
  simulcastOk (find "simulcast" o) (find "rids" o) = true.
Proof.
  destruct o as [| | | | | | |m]; try done. unfold answerable, object_with, absent, text.
  rewrite !find_object, !andb_true_iff.
  intros ((((Hm & Ht) & Hp) & He) & Hs). split_and!; try done.
  - by destruct (obj_find "type" m) as [[]|].
  - by destruct (obj_find "protocol" m).
Qed.

Lemma run_answerPayload {T} c (t : T) :
  offerCodecOk c = true ->
  (let! payloadType := on_fst (ref "payloadType") in
   let! n := lift (get_uint 8 payloadType) in
   ret [n]) (c, t) = (Ok [payload_number c], (c, t)).
Proof.
  intros (m & pt & rate & ps & fbs & -> & Hm & Hpt & Hi & _)%offerCodecOk_fields.
  unfold payload_number, field. rewrite (bind_at_ref _ _ _ _ _ Hpt), find_object, Hpt.
  by rewrite (bind_lift _ _ _ _ (get_uint_number _ _ Hi)).
Qed.

Lemma run_answerMedia offerMediaObject offer answer m :
  answerable offerMediaObject = true -> answerParametersOk answer = true ->
  answerMedia offerMediaObject None (JObject m, (offer, answer)) =
  (Ok tt, (JObject (answeredFields offerMediaObject answer m), (offer, answer))).
Proof.
  intros (Ho & _ & _ & _ & _ & He & Hs)%answerable_fields Hp.
  destruct answer as [| | | | | | |p]; try done. simpl in Hp. apply andb_true_iff in Hp as [Hc Hx].
  destruct (obj_find "codecs" p) as [[| | | | | |cs|]|] eqn:Ec; try done.
  destruct (obj_find "headerExtensions" p) as [[| | | | | |xs|]|] eqn:Ex; try done.
  simpl in Hc, Hx. apply forallb_Forall in Hc, Hx.
  assert (array_at "codecs" (JObject p) = cs /\ array_at "headerExtensions" (JObject p) = xs)
    as [Fc Fx] by (unfold array_at; by rewrite !find_object, Ec, Ex).
  unfold answerMedia, answeredFields. rewrite Fc, Fx, bind_set_fst.
  erewrite bind_on_answer; cycle 1.
  { apply (run_answer_loop _ _ _ _ (fun c => [(describedRtp c, describedFmtp c, describedFbs c)]) _ Ec).
    eapply Forall_impl; [exact Hc|]. intros c. apply run_answerCodec. }
  rewrite !bind_set_fst. erewrite bind_on_answer; cycle 1.
  { apply (run_answer_loop _ _ _ _ (fun c => [payload_number c]) _ Ec).
    eapply Forall_impl; [exact Hc|]. intros c. apply run_answerPayload. }
  rewrite !bind_set_fst. erewrite bind_on_answer; cycle 1.
  { apply (run_answer_loop _ _ _ _
      (fun x => map describedExt (commonExts offerMediaObject [x])) _ Ex).
    eapply Forall_impl; [exact Hx|]. intros x. by apply run_answerExt. }
  rewrite bind_set_fst, bind_when_set_fst, flat_map_filter.
  rewrite (bind_on_fst _ _ _ _ _ _ (run_answerSimulcast _ _ Ho Hs)).
  rewrite !flat_map_singletons, !map_map, !concat_map_flat_map. done.
Qed.

Definition setupOf (role : string) : option string :=
  if String.eqb role "client" then Some "active"
  else if String.eqb role "server" then Some "passive"
  else if String.eqb role "auto" then Some "actpass" else None.

Definition setupField (role : string) (m : list (string * json)) : list (string * json) :=
  match setupOf role with Some v => obj_insert "setup" (JString v) m | None => m end.

Lemma run_setSetup role m : setSetup role (JObject m) = (Ok tt, JObject (setupField role m)).
Proof.
  unfold setSetup, setupField, setupOf. destruct (String.eqb role "client"); [done|].
  destruct (String.eqb role "server"); [done|]. by destruct (String.eqb role "auto").
Qed.

(** What [AnswerMediaSection] writes before the part that depends on the kind. *)
Definition answerHead (ice candidates : json) (role : string) (offerMediaObject : json) :
    list (string * json) :=
  setupField role
  (obj_insert "port" (JInt 7)
  (obj_insert "connection" connection
  (obj_insert "protocol" (field "protocol" offerMediaObject)
  (obj_insert "type" (JString (text "type" offerMediaObject))
  (obj_insert "mid" (field "mid" offerMediaObject) (transportFields ice candidates [])))))).

Lemma run_AnswerMediaSection ice candidates dtls sctp offerMediaObject role offer answer :
  acceptsIceParameters ice = true -> array_of acceptsIceCandidate candidates = true ->
  find "role" dtls = Some (JString role) ->
  answerable offerMediaObject = true -> answerParametersOk answer = true ->
  AnswerMediaSection ice candidates dtls sctp offerMediaObject None (offer, answer) =
  (Ok {| sectionKind := AnswerKind;
         mediaObject := JObject (answeredFields offerMediaObject answer
                                   (answerHead ice candidates role offerMediaObject)) |},
   (offer, answer)).
Proof.
  intros Hi Hc Hd Ho Hp. unfold AnswerMediaSection, AnswerMediaSection_init.
  pose proof Ho as (Hobj & Hm & Ht & Hk & [pr Hpr] & _)%answerable_fields.
  rewrite (bind_on_fst _ _ _ _ _ _ (run_MediaSection_init _ _ _ Hi Hc)).
  destruct offerMediaObject as [| | | | | | |o]; try done. rewrite !find_object in *.
  rewrite (bind_lift _ _ _ (text "type" (JObject o))) by (unfold cget_string; simpl; by rewrite Ht).
  destruct (obj_find "mid" o) as [mid|] eqn:Em; [|done].
  rewrite (bind_lift _ _ _ mid) by (simpl; by rewrite Em).
  rewrite !bind_set_fst. rewrite (bind_lift _ _ _ pr) by (simpl; by rewrite Hpr).
  rewrite !bind_set_fst. destruct dtls as [| | | | | | |d]; try done. rewrite find_object in Hd.
  rewrite (bind_lift _ _ _ role) by (unfold cget_string; simpl; by rewrite Hd).
  rewrite (bind_on_fst _ _ _ _ _ _ (run_setSetup _ _)).
  change (String.eqb (text "type" (JObject o)) "audio" || String.eqb (text "type" (JObject o)) "video")
    with (is_media (text "type" (JObject o))).
  rewrite Hk. rewrite (run_answerMedia _ _ _ _ Ho Hp). unfold answerHead, field.
  rewrite !find_object, Em, Hpr. done.
Qed.

(** The media object of a remote answer section, field by field. *)
Definition answerObject (ice candidates : json) (role : string) (o p : json) : json :=
  let codecs := array_at "codecs" p in
  jobj ([
    ("mid", field "mid" o); ("type", JString (text "type" o)); ("port", JInt 7);
    ("protocol", field "protocol" o);
    ("connection", jobj [("ip", JString "127.0.0.1"); ("version", JInt 4)]);
    ("iceUfrag", field "usernameFragment" ice); ("icePwd", field "password" ice);
    ("iceOptions", JString "renomination");
    ("candidates", JArray (map describedCandidate (elems candidates)));
    ("endOfCandidates", JString "end-of-candidates"); ("direction", JString "recvonly");
    ("payloads", JString (String.concat " " (map (fun c => to_string (payload_number c)) codecs)));
    ("rtp", JArray (map describedRtp codecs));
    ("fmtp", JArray (flat_map describedFmtp codecs));
    ("rtcpFb", JArray (flat_map describedFbs codecs));
    ("ext", JArray (map describedExt (commonExts o (array_at "headerExtensions" p))));
    ("rtcpMux", JString "rtcp-mux"); ("rtcpRsize", JString "rtcp-rsize") ] ++
  match setupOf role with Some v => [("setup", JString v)] | None => [] end ++
  (if it_is is_string (find "extmapAllowMixed" o)
   then [("extmapAllowMixed", JString "extmap-allow-mixed")] else []) ++
  match find "simulcast" o, find "rids" o with
  | Some (JObject simulcast), Some (JArray rids) =>
      [("simulcast", jobj [("dir1", JString "recv"); ("list1", field "list1" (JObject simulcast))]);
       ("rids", JArray (map receivedRid (List.filter is_sent rids)))]
  | _, _ => []
  end).

Lemma answerObject_fields ice candidates role o p :
  JObject (answeredFields o p (answerHead ice candidates role o)) =
  answerObject ice candidates role o p.
Proof.
  unfold answeredFields, answerObject, simulcastFields, answerHead, setupField, obj_set_if.
  rewrite payloads_text_concat, map_map. destruct (setupOf role), (it_is _ _);
    destruct (find "simulcast" o) as [[]|]; try reflexivity; destruct (find "rids" o) as [[]|]; reflexivity.
Qed.

Lemma simulcastFields_find k o m :
  k <> "rids" -> k <> "simulcast" -> obj_find k (simulcastFields o m) = obj_find k m.
Proof.
  intros Hr%String.eqb_neq Hs%String.eqb_neq. unfold simulcastFields.
  destruct (find "simulcast" o) as [[]|]; try done. destruct (find "rids" o) as [[]|]; try done.
  lookups. by rewrite Hr, Hs.
Qed.
Lemma setupField_find k role m : k <> "setup" -> obj_find k (setupField role m) = obj_find k m.
Proof.
  intros H%String.eqb_neq. unfold setupField. destruct (setupOf role); [|done]. lookups.
  by rewrite H.
Qed.

(** Reads a field of an answer. *)
Ltac answer_field :=
  unfold answeredFields; lookups; rewrite ?simulcastFields_find by done; lookups;
  unfold answerHead; rewrite ?setupField_find by done; lookups.

Lemma validated_answerParameters params :
  acceptsRtpParameters params = true -> answerParametersOk (normRtpParameters params) = true.
Proof.
  destruct params as [| | | | | | |m]; try done. simpl.
  intros H. rewrite !andb_true_iff in H. destruct H as ((((_ & Hc) & Hx) & _) & _). unfold normRtcp.
  lookups. rewrite !obj_find_normOptionalArray by done. unfold normOptionalArray, absent. lookups.
  destruct (obj_find "codecs" m) as [[| | | | | |cs|]|]; try done. simpl in Hc |- *.
  rewrite (forallb_norm _ offerCodecOk _ _ validated_offerCodec Hc). simpl.
  destruct (obj_find "headerExtensions" m) as [[| | | | | |xs|]|]; try done. simpl in Hx |- *.
  by rewrite (forallb_norm _ offerExtOk _ _ validated_offerExt Hx).
Qed.

Lemma answered_section ice candidates role o p :
  answerable o = true ->
  let ms := {| sectionKind := AnswerKind; mediaObject :=
    JObject (answeredFields o p (answerHead ice candidates role o)) |} in
  section_ok ms = true /\ mid_of ms = text "mid" o /\ closed ms = false.
Proof.
  intros (_ & Hm & _)%answerable_fields ms. unfold section_ok, mid_of, closed, text, field, absent.
  unfold ms. simpl mediaObject. unfold object_with. rewrite !find_object.
  assert (obj_find "mid" (answeredFields o p (answerHead ice candidates role o)) =
    Some (field "mid" o)) as -> by (answer_field; done).
  assert (obj_find "port" (answeredFields o p (answerHead ice candidates role o)) =
    Some (JInt 7)) as -> by (answer_field; done).
  assert (is_Some (obj_find "payloads" (answeredFields o p (answerHead ice candidates role o))))
    as [l ->] by (eexists; answer_field; done).
  unfold field. destruct (find "mid" o); [|done]. simpl in *. by rewrite Hm.
Qed.

(** C23.  For transport and RTP parameters that passed validation, a local media object of kind
    audio or video and no codec options, the constructor of a remote answer section returns a
    section whose media object is exactly this: the mid, kind and protocol of the local one, the
    open port 7, the ICE parameters and candidates, the setup that the DTLS role gives, the
    codecs of the parameters in order, each with payload type, name, clock rate, channels,
    parameters and feedback, the header extensions both sides have, and the simulcast streams
    the local side sends, to be received.  Neither of the RTP parameters passed by reference is
    changed. *)
Theorem AnswerMediaSection_correct (ice candidates dtls sctp offerMediaObject offer params : json)
    (role : string)
    (Hice : acceptsIceParameters ice = true)
    (Hcandidates : array_of acceptsIceCandidate candidates = true)
    (Hrole : find "role" dtls = Some (JString role))
    (Hlocal : answerable offerMediaObject = true)
    (Hparams : acceptsRtpParameters params = true) :
  let answer := normRtpParameters params in
  AnswerMediaSection ice candidates dtls sctp offerMediaObject None (offer, answer) =
    (Ok {| sectionKind := AnswerKind;
           mediaObject := answerObject ice candidates role offerMediaObject answer |},
     (offer, answer)).
Proof.
  cbv zeta. rewrite (run_AnswerMediaSection _ _ _ _ _ role); try done; [by rewrite answerObject_fields|].
  by apply validated_answerParameters.
Qed.

Definition sampleLocalMedia : json :=
  jobj [("mid", JString "0"); ("type", JString "video"); ("protocol", JString "UDP/TLS/RTP/SAVPF");
        ("ext", JArray []);
        ("simulcast", jobj [("dir1", JString "send"); ("list1", JString "r0;r1")]);
        ("rids", JArray [jobj [("id", JString "r0"); ("direction", JString "send")];
                         jobj [("id", JString "r1"); ("direction", JString "send")]])].
Definition sampleDtls : json :=
  jobj [("role", JString "auto");
        ("fingerprints", JArray [jobj [("algorithm", JString "sha-256"); ("value", JString "82:5A")]])].

Lemma AnswerMediaSection_correct_witness :
  exists ms,
    AnswerMediaSection sampleIce sampleCandidates sampleDtls JNull sampleLocalMedia None
      (JNull, normRtpParameters sampleOffer) = (Ok ms, (JNull, normRtpParameters sampleOffer)) /\
    text "setup" (mediaObject ms) = "actpass" /\
    array_at "rids" (mediaObject ms) =
      [jobj [("id", JString "r0"); ("direction", JString "recv")];
       jobj [("id", JString "r1"); ("direction", JString "recv")]].
Proof.
  eexists. split.
  - apply (AnswerMediaSection_correct sampleIce sampleCandidates sampleDtls JNull sampleLocalMedia
      JNull sampleOffer "auto"); vm_compute; reflexivity.
  - vm_compute. auto.
Defined.

(** ** Data channel sections *)

Lemma run_on_fst {S T A} (f : M S A) s (t : T) r s' :
  f s = (r, s') -> on_fst f (s, t) = (r, (s', t)).
Proof. intros H. unfold on_fst. simpl. by rewrite H. Qed.

(** The local media object of the data channels. *)
Definition applicationOk : json -> bool :=
  object_with (fun o =>
    it_is is_nonempty_string (obj_find "mid" o) &&
    it_is (fun t => json_eq t (JString "application")) (obj_find "type" o) &&
    negb (absent (obj_find "protocol" o))).

Lemma run_AnswerMediaSection_sctp ice candidates dtls sctp o role :
  acceptsIceParameters ice = true -> array_of acceptsIceCandidate candidates = true ->
  find "role" dtls = Some (JString role) -> applicationOk o = true ->
  acceptsSctpParameters sctp = true ->
  fst (AnswerMediaSection ice candidates dtls sctp o None (JNull, JNull)) =
  Ok {| sectionKind := AnswerKind;
        mediaObject := JObject (sctpFields sctp (answerHead ice candidates role o)) |}.
Proof.
  intros Hi Hc Hd Ho Hs. unfold AnswerMediaSection, AnswerMediaSection_init.
  rewrite (bind_on_fst _ _ _ _ _ _ (run_MediaSection_init _ _ _ Hi Hc)).
  destruct o as [| | | | | | |o]; try done. simpl in Ho. rewrite !andb_true_iff in Ho.
  destruct Ho as ((Hm & Ht) & Hp). unfold absent in Hp.
  destruct (obj_find "type" o) as [[| | | | |t| |]|] eqn:Et; try done.
  apply String.eqb_eq in Ht as ->.
  destruct (obj_find "mid" o) as [mid|] eqn:Em; [|done].
  destruct (obj_find "protocol" o) as [pr|] eqn:Epr; [|done].
  rewrite (bind_lift _ _ _ "application") by (unfold cget_string; simpl; by rewrite Et).
  rewrite (bind_lift _ _ _ mid) by (simpl; by rewrite Em).
  rewrite !bind_set_fst. rewrite (bind_lift _ _ _ pr) by (simpl; by rewrite Epr).
  rewrite !bind_set_fst. destruct dtls as [| | | | | | |d]; try done. rewrite find_object in Hd.
  rewrite (bind_lift _ _ _ role) by (unfold cget_string; simpl; by rewrite Hd).
  rewrite (bind_on_fst _ _ _ _ _ _ (run_setSetup _ _)).
  change (String.eqb "application" "audio" || String.eqb "application" "video") with false.
  cbv iota. change (when (String.eqb "application" "application") (on_fst (applicationMedia sctp)))
    with (on_fst (T := json * json) (applicationMedia sctp)).
  rewrite (run_on_fst _ _ _ _ _ (run_applicationMedia _ _ Hs)). unfold answerHead, field, text.
  rewrite !find_object, Em, Epr, Et. done.
Qed.

Lemma answered_sctp_section ice candidates role o sctp :
  applicationOk o = true ->
  let ms := {| sectionKind := AnswerKind; mediaObject :=
    JObject (sctpFields sctp (answerHead ice candidates role o)) |} in
  section_ok ms = true /\ mid_of ms = text "mid" o /\ closed ms = false.
Proof.
  intros Ho ms. destruct o as [| | | | | | |o]; try done. simpl in Ho.
  rewrite !andb_true_iff in Ho. destruct Ho as ((Hm & _) & _).
  unfold section_ok, mid_of, closed, text, field, absent.
  unfold ms. simpl mediaObject. unfold object_with. rewrite !find_object.
  set (h := answerHead ice candidates role (JObject o)).
  assert (obj_find "mid" (sctpFields sctp h) = obj_find "mid" o) as ->.
  { unfold sctpFields, h, answerHead. lookups. rewrite setupField_find by done. lookups.
    unfold field. rewrite find_object. by destruct (obj_find "mid" o). }
  assert (obj_find "port" (sctpFields sctp h) = Some (JInt 7)) as ->.
  { unfold sctpFields, h, answerHead. lookups. rewrite setupField_find by done. by lookups. }
  assert (is_Some (obj_find "payloads" (sctpFields sctp h))) as [l ->].
  { unfold sctpFields. lookups. eauto. }
  destruct (obj_find "mid" o); [|done]. simpl in *. by rewrite Hm.
Qed.

Lemma offered_sctp_section ice candidates sctp mid :
  mid <> "" ->
  let ms := {| sectionKind := OfferKind; mediaObject :=
    JObject (sctpFields sctp (offerHead ice candidates sctp mid "application")) |} in
  section_ok ms = true /\ mid_of ms = mid /\ closed ms = false.
Proof.
  intros Hm ms. unfold section_ok, mid_of, closed, text, field, absent, ms. simpl mediaObject.
  unfold object_with, sctpFields, offerHead. rewrite !find_object. lookups.
  by destruct mid.
Qed.
Lemma offered_section ice candidates sctp mid kind p streamId trackId :
  mid <> "" ->
  let ms := {| sectionKind := OfferKind; mediaObject :=
    JObject (offeredFields p streamId trackId (offerHead ice candidates sctp mid kind)) |} in
  section_ok ms = true /\ mid_of ms = mid /\ closed ms = false.
Proof.
  intros Hm ms. unfold section_ok, mid_of, closed, text, field, absent, ms. simpl mediaObject.
  unfold object_with, offeredFields, offerHead. rewrite !find_object. lookups.
  by destruct mid.
Qed.
