(* ===== verification/SdpGrammar.v ===== *)
(** * The SDP grammar

    deps/libsdptransform/src/grammar.cpp: for every line type the rules that read
    and write its lines, in the order the parser tries them. *)

From Stdlib Require Import Ascii.
From S2P Require Import Prelude Json Regex.

(** [grammar::Rule]; a rule with an empty [format] has a [formatFunc]. *)
Record Rule := mkRule {
  name : string;
  push : string;
  reg : regex;
  names : list string;
  types : list ascii;
  format : string;
  formatFunc : option (json -> string);
}.

(** A string that is not empty, or a number. *)
Definition hasValue (o : json) (key : string) : bool :=
  match find key o with
  | Some (JString s) => negb (String.eqb s "")
  | Some v => is_number v
  | None => false
  end.

(** ** Character classes of the patterns *)

Definition digit : regex := RChar is_digit.
Definition space : regex := RChar is_space.
Definition nonspace : regex := RChar (fun a => negb (is_space a)).
Definition word : regex := RChar is_word.
Definition dot : regex := RChar is_dot.
Definition word_or (s : string) : regex := RChar (fun a => is_word a || one_of s a).
Definition none_of (s : string) : regex := RChar (fun a => negb (one_of s a)).

(** ["\*|\[\S+\](?:[\s\t]+\[\S+\])*"] *)
Definition imageList : regex :=
  RAlt (lit "*")
    (RSeq (seqs [lit "["; RPlus nonspace; lit "]"])
      (RStar (seqs [RPlus space; lit "["; RPlus nonspace; lit "]"]))).

(** ** The rules *)

Definition versionRule : Rule := {|
  name := "version";
  push := "";
  reg := seqs [RBol; RGroup 1 (RStar digit); REol];
  names := [];
  types := ["d"%char];
  format := "%d";
  formatFunc := None;
|}.

Definition originRule : Rule := {|
  name := "origin";
  push := "";
  reg := seqs [RBol; RGroup 1 (RStar nonspace); lit " "; RGroup 2 (RStar digit); lit " ";
      RGroup 3 (RStar digit); lit " "; RGroup 4 (RStar nonspace); lit " IP"; RGroup 5 digit;
      lit " "; RGroup 6 (RStar nonspace)];
  names := ["username"; "sessionId"; "sessionVersion"; "netType"; "ipVer"; "address"];
  types := ["s"%char; "u"%char; "u"%char; "s"%char; "d"%char; "s"%char];
  format := "%s %d %d %s IP%d %s";
  formatFunc := None;
|}.

Definition nameRule : Rule := {|
  name := "name";
  push := "";
  reg := seqs [RGroup 1 (RStar dot)];
  names := [];
  types := ["s"%char];
  format := "%s";
  formatFunc := None;
|}.

Definition descriptionRule : Rule := {|
  name := "description";
  push := "";
  reg := seqs [RGroup 1 (RStar dot)];
  names := [];
  types := ["s"%char];
  format := "%s";
  formatFunc := None;
|}.

Definition uriRule : Rule := {|
  name := "uri";
  push := "";
  reg := seqs [RGroup 1 (RStar dot)];
  names := [];
  types := ["s"%char];
  format := "%s";
  formatFunc := None;
|}.

Definition emailRule : Rule := {|
  name := "email";
  push := "";
  reg := seqs [RGroup 1 (RStar dot)];
  names := [];
  types := ["s"%char];
  format := "%s";
  formatFunc := None;
|}.

Definition phoneRule : Rule := {|
  name := "phone";
  push := "";
  reg := seqs [RGroup 1 (RStar dot)];
  names := [];
  types := ["s"%char];
  format := "%s";
  formatFunc := None;
|}.

Definition timezonesRule : Rule := {|
  name := "timezones";
  push := "";
  reg := seqs [RGroup 1 (RStar dot)];
  names := [];
  types := ["s"%char];
  format := "%s";
  formatFunc := None;
|}.

Definition repeatsRule : Rule := {|
  name := "repeats";
  push := "";
  reg := seqs [RGroup 1 (RStar dot)];
  names := [];
  types := ["s"%char];
  format := "%s";
  formatFunc := None;
|}.

Definition timingRule : Rule := {|
  name := "timing";
  push := "";
  reg := seqs [RBol; RGroup 1 (RStar digit); lit " "; RGroup 2 (RStar digit)];
  names := ["start"; "stop"];
  types := ["d"%char; "d"%char];
  format := "%d %d";
  formatFunc := None;
|}.

(** The second class excludes a backslash, S and /. *)
Definition connectionRule : Rule := {|
  name := "connection";
  push := "";
  reg := seqs [RBol; lit "IN IP"; RGroup 1 digit; lit " "; RGroup 2 (RStar (none_of "\S/"));
      ROpt (seqs [lit "/"; RGroup 3 (RStar digit)])];
  names := ["version"; "ip"; "ttl"];
  types := ["d"%char; "s"%char; "d"%char];
  format := "";
  formatFunc := Some (fun o => if hasValue o "ttl" then "IN IP%d %s/%d" else "IN IP%d %s");
|}.

Definition bandwidthRule : Rule := {|
  name := "";
  push := "bandwidth";
  reg := seqs [RBol; RGroup 1 (alts [lit "TIAS"; lit "AS"; lit "CT"; lit "RR"; lit "RS"]); lit ":";
      RGroup 2 (RStar digit)];
  names := ["type"; "limit"];
  types := ["s"%char; "d"%char];
  format := "%s:%d";
  formatFunc := None;
|}.

Definition mediaRule : Rule := {|
  name := "";
  push := "";
  reg := seqs [RBol; RGroup 1 (RStar word); lit " "; RGroup 2 (RStar digit);
      ROpt (seqs [lit "/"; RGroup 3 (RStar digit)]); lit " "; RGroup 4 (RStar (word_or "/"));
      ROpt (seqs [lit " "; RGroup 5 (RStar dot)])];
  names := ["type"; "port"; "numPorts"; "protocol"; "payloads"];
  types := ["s"%char; "d"%char; "d"%char; "s"%char; "s"%char];
  format := "";
  formatFunc := Some (fun o => if hasValue o "numPorts" then "%s %d/%d %s %s" else "%s %d%v %s %s");
|}.

Definition rtpRule : Rule := {|
  name := "";
  push := "rtp";
  reg := seqs [RBol; lit "rtpmap:"; RGroup 1 (RStar digit); lit " "; RGroup 2 (RStar (word_or "-."));
      ROpt (seqs [RStar space; lit "/"; RGroup 3 (RStar digit);
        ROpt (seqs [RStar space; lit "/"; RGroup 4 (RStar nonspace)])])];
  names := ["payload"; "codec"; "rate"; "encoding"];
  types := ["d"%char; "s"%char; "d"%char; "s"%char];
  format := "";
  formatFunc := Some (fun o =>
      if hasValue o "encoding" then "rtpmap:%d %s/%s/%s"
      else if hasValue o "rate" then "rtpmap:%d %s/%s" else "rtpmap:%d %s");
|}.

Definition fmtpRule : Rule := {|
  name := "";
  push := "fmtp";
  reg := seqs [RBol; lit "fmtp:"; RGroup 1 (RStar digit); lit " "; RGroup 2 (RStar dot)];
  names := ["payload"; "config"];
  types := ["d"%char; "s"%char];
  format := "fmtp:%d %s";
  formatFunc := None;
|}.

Definition controlRule : Rule := {|
  name := "control";
  push := "";
  reg := seqs [RBol; lit "control:"; RGroup 1 (RStar dot)];
  names := [];
  types := ["s"%char];
  format := "control:%s";
  formatFunc := None;
|}.

Definition rtcpRule : Rule := {|
  name := "rtcp";
  push := "";
  reg := seqs [RBol; lit "rtcp:"; RGroup 1 (RStar digit);
      ROpt (seqs [lit " "; RGroup 2 (RStar nonspace); lit " IP"; RGroup 3 digit; lit " ";
        RGroup 4 (RStar nonspace)])];
  names := ["port"; "netType"; "ipVer"; "address"];
  types := ["d"%char; "s"%char; "d"%char; "s"%char];
  format := "";
  formatFunc := Some (fun o => if hasValue o "address" then "rtcp:%d %s IP%d %s" else "rtcp:%d");
|}.

Definition rtcpFbTrrIntRule : Rule := {|
  name := "";
  push := "rtcpFbTrrInt";
  reg := seqs [RBol; lit "rtcp-fb:"; RGroup 1 (RAlt (lit "*") (RStar digit)); lit " trr-int ";
      RGroup 2 (RStar digit)];
  names := ["payload"; "value"];
  types := ["s"%char; "d"%char];
  format := "rtcp-fb:%s trr-int %d";
  formatFunc := None;
|}.

Definition rtcpFbRule : Rule := {|
  name := "";
  push := "rtcpFb";
  reg := seqs [RBol; lit "rtcp-fb:"; RGroup 1 (RAlt (lit "*") (RStar digit)); lit " ";
      RGroup 2 (RStar (word_or "-")); ROpt (seqs [lit " "; RGroup 3 (RStar (word_or "-"))])];
  names := ["payload"; "type"; "subtype"];
  types := ["s"%char; "s"%char; "s"%char];
  format := "";
  formatFunc := Some (fun o => if hasValue o "subtype" then "rtcp-fb:%s %s %s" else "rtcp-fb:%s %s");
|}.

Definition extRule : Rule := {|
  name := "";
  push := "ext";
  reg := seqs [RBol; lit "extmap:"; RGroup 1 (RPlus digit); ROpt (seqs [lit "/"; RGroup 2 (RPlus word)]);
      ROpt (seqs [lit " "; RGroup 3 (lit "urn:ietf:params:rtp-hdrext:encrypt")]); lit " ";
      RGroup 4 (RStar nonspace); ROpt (seqs [lit " "; RGroup 5 (RStar nonspace)])];
  names := ["value"; "direction"; "encrypt-uri"; "uri"; "config"];
  types := ["d"%char; "s"%char; "s"%char; "s"%char; "s"%char];
  format := "";
  formatFunc := Some (fun o =>
      "extmap:%d" +:+ (if hasValue o "direction" then "/%s" else "%v") +:+
      (if hasValue o "encrypt-uri" then " %s" else "%v") +:+ " %s" +:+
      (if hasValue o "config" then " %s" else ""));
|}.

Definition extmapAllowMixedRule : Rule := {|
  name := "extmapAllowMixed";
  push := "";
  reg := seqs [RBol; RGroup 1 (lit "extmap-allow-mixed")];
  names := [];
  types := ["s"%char];
  format := "%s";
  formatFunc := None;
|}.

Definition cryptoRule : Rule := {|
  name := "";
  push := "crypto";
  reg := seqs [RBol; lit "crypto:"; RGroup 1 (RStar digit); lit " "; RGroup 2 (RStar word); lit " ";
      RGroup 3 (RStar nonspace); ROpt (seqs [lit " "; RGroup 4 (RStar nonspace)])];
  names := ["id"; "suite"; "config"; "sessionConfig"];
  types := ["d"%char; "s"%char; "s"%char; "s"%char];
  format := "";
  formatFunc := Some (fun o => if hasValue o "sessionConfig" then "crypto:%d %s %s %s" else "crypto:%d %s %s");
|}.

Definition setupRule : Rule := {|
  name := "setup";
  push := "";
  reg := seqs [RBol; lit "setup:"; RGroup 1 (RStar word)];
  names := [];
  types := ["s"%char];
  format := "setup:%s";
  formatFunc := None;
|}.

Definition midRule : Rule := {|
  name := "mid";
  push := "";
  reg := seqs [RBol; lit "mid:"; RGroup 1 (RStar nonspace)];
  names := [];
  types := ["s"%char];
  format := "mid:%s";
  formatFunc := None;
|}.

Definition msidRule : Rule := {|
  name := "msid";
  push := "";
  reg := seqs [RBol; lit "msid:"; RGroup 1 (RStar dot)];
  names := [];
  types := ["s"%char];
  format := "msid:%s";
  formatFunc := None;
|}.

Definition ptimeRule : Rule := {|
  name := "ptime";
  push := "";
  reg := seqs [RBol; lit "ptime:"; RGroup 1 (RStar digit)];
  names := [];
  types := ["d"%char];
  format := "ptime:%d";
  formatFunc := None;
|}.

Definition maxptimeRule : Rule := {|
  name := "maxptime";
  push := "";
  reg := seqs [RBol; lit "maxptime:"; RGroup 1 (RStar digit)];
  names := [];
  types := ["d"%char];
  format := "maxptime:%d";
  formatFunc := None;
|}.

Definition directionRule : Rule := {|
  name := "direction";
  push := "";
  reg := seqs [RBol;
      RGroup 1 (alts [lit "sendrecv"; lit "recvonly"; lit "sendonly"; lit "inactive"])];
  names := [];
  types := ["s"%char];
  format := "%s";
  formatFunc := None;
|}.

Definition iceliteRule : Rule := {|
  name := "icelite";
  push := "";
  reg := seqs [RBol; RGroup 1 (lit "ice-lite")];
  names := [];
  types := ["s"%char];
  format := "%s";
  formatFunc := None;
|}.

Definition iceUfragRule : Rule := {|
  name := "iceUfrag";
  push := "";
  reg := seqs [RBol; lit "ice-ufrag:"; RGroup 1 (RStar nonspace)];
  names := [];
  types := ["s"%char];
  format := "ice-ufrag:%s";
  formatFunc := None;
|}.

Definition icePwdRule : Rule := {|
  name := "icePwd";
  push := "";
  reg := seqs [RBol; lit "ice-pwd:"; RGroup 1 (RStar nonspace)];
  names := [];
  types := ["s"%char];
  format := "ice-pwd:%s";
  formatFunc := None;
|}.

Definition fingerprintRule : Rule := {|
  name := "fingerprint";
  push := "";
  reg := seqs [RBol; lit "fingerprint:"; RGroup 1 (RStar nonspace); lit " "; RGroup 2 (RStar nonspace)];
  names := ["type"; "hash"];
  types := ["s"%char; "s"%char];
  format := "fingerprint:%s %s";
  formatFunc := None;
|}.

Definition candidatesRule : Rule := {|
  name := "";
  push := "candidates";
  reg := seqs [RBol; lit "candidate:"; RGroup 1 (RStar nonspace); lit " "; RGroup 2 (RStar digit);
      lit " "; RGroup 3 (RStar nonspace); lit " "; RGroup 4 (RStar digit); lit " ";
      RGroup 5 (RStar nonspace); lit " "; RGroup 6 (RStar digit); lit " typ ";
      RGroup 7 (RStar nonspace);
      ROpt (seqs [lit " raddr "; RGroup 8 (RStar nonspace); lit " rport ";
        RGroup 9 (RStar digit)]);
      ROpt (seqs [lit " tcptype "; RGroup 10 (RStar nonspace)]);
      ROpt (seqs [lit " generation "; RGroup 11 (RStar digit)]);
      ROpt (seqs [lit " network-id "; RGroup 12 (RStar digit)]);
      ROpt (seqs [lit " network-cost "; RGroup 13 (RStar digit)])];
  names := ["foundation"; "component"; "transport"; "priority"; "ip"; "port"; "type";
      "raddr"; "rport"; "tcptype"; "generation"; "network-id"; "network-cost"];
  types := ["s"%char; "d"%char; "s"%char; "d"%char; "s"%char; "d"%char; "s"%char;
      "s"%char; "d"%char; "s"%char; "d"%char; "d"%char; "d"%char; "d"%char];
  format := "";
  formatFunc := Some (fun o =>
      "candidate:%s %d %s %d %s %d typ %s" +:+
      (if hasValue o "raddr" then " raddr %s rport %d" else "%v%v") +:+
      (if hasValue o "tcptype" then " tcptype %s" else "%v") +:+
      (if hasValue o "generation" then " generation %d" else "") +:+
      (if hasValue o "network-id" then " network-id %d" else "%v") +:+
      (if hasValue o "network-cost" then " network-cost %d" else "%v"));
|}.

Definition endOfCandidatesRule : Rule := {|
  name := "endOfCandidates";
  push := "";
  reg := seqs [RBol; RGroup 1 (lit "end-of-candidates")];
  names := [];
  types := ["s"%char];
  format := "%s";
  formatFunc := None;
|}.

Definition remoteCandidatesRule : Rule := {|
  name := "remoteCandidates";
  push := "";
  reg := seqs [RBol; lit "remote-candidates:"; RGroup 1 (RStar dot)];
  names := [];
  types := ["s"%char];
  format := "remote-candidates:%s";
  formatFunc := None;
|}.

Definition iceOptionsRule : Rule := {|
  name := "iceOptions";
  push := "";
  reg := seqs [RBol; lit "ice-options:"; RGroup 1 (RStar nonspace)];
  names := [];
  types := ["s"%char];
  format := "ice-options:%s";
  formatFunc := None;
|}.

Definition ssrcsRule : Rule := {|
  name := "";
  push := "ssrcs";
  reg := seqs [RBol; lit "ssrc:"; RGroup 1 (RStar digit); lit " "; RGroup 2 (RStar (word_or "-"));
      ROpt (seqs [lit ":"; RGroup 3 (RStar dot)])];
  names := ["id"; "attribute"; "value"];
  types := ["d"%char; "s"%char; "s"%char];
  format := "";
  formatFunc := Some (fun o =>
      "ssrc:%d" +:+
      (if hasValue o "attribute" then " %s" +:+ (if hasValue o "value" then ":%s" else "")
       else ""));
|}.

(** In the first class, \x2B\x2D\x2E is the range from + to the full stop. *)
Definition ssrcGroupsRule : Rule := {|
  name := "";
  push := "ssrcGroups";
  reg := seqs [RBol; lit "ssrc-group:";
      RGroup 1 (RStar (RChar (fun a =>
        one_of "!#$%&'*" a || code_in 43 46 a || is_word a)));
      lit " "; RGroup 2 (RStar dot)];
  names := ["semantics"; "ssrcs"];
  types := ["s"%char; "s"%char];
  format := "ssrc-group:%s %s";
  formatFunc := None;
|}.

Definition msidSemanticRule : Rule := {|
  name := "msidSemantic";
  push := "";
  reg := seqs [RBol; lit "msid-semantic:"; ROpt space; RGroup 1 (RStar word); lit " ";
      RGroup 2 (RStar nonspace)];
  names := ["semantic"; "token"];
  types := ["s"%char; "s"%char];
  format := "msid-semantic: %s %s";
  formatFunc := None;
|}.

Definition groupsRule : Rule := {|
  name := "";
  push := "groups";
  reg := seqs [RBol; lit "group:"; RGroup 1 (RStar word); lit " "; RGroup 2 (RStar dot)];
  names := ["type"; "mids"];
  types := ["s"%char; "s"%char];
  format := "group:%s %s";
  formatFunc := None;
|}.

Definition rtcpMuxRule : Rule := {|
  name := "rtcpMux";
  push := "";
  reg := seqs [RBol; RGroup 1 (lit "rtcp-mux")];
  names := [];
  types := ["s"%char];
  format := "%s";
  formatFunc := None;
|}.

Definition rtcpRsizeRule : Rule := {|
  name := "rtcpRsize";
  push := "";
  reg := seqs [RBol; RGroup 1 (lit "rtcp-rsize")];
  names := [];
  types := ["s"%char];
  format := "%s";
  formatFunc := None;
|}.

Definition sctpmapRule : Rule := {|
  name := "sctpmap";
  push := "";
  reg := seqs [RBol; lit "sctpmap:"; RGroup 1 (RPlus digit); lit " "; RGroup 2 (RStar nonspace);
      ROpt (seqs [lit " "; RGroup 3 (RStar digit)])];
  names := ["sctpmapNumber"; "app"; "maxMessageSize"];
  types := ["d"%char; "s"%char; "d"%char];
  format := "";
  formatFunc := Some (fun o => if hasValue o "maxMessageSize" then "sctpmap:%s %s %s" else "sctpmap:%s %s");
|}.

Definition xGoogleFlagRule : Rule := {|
  name := "xGoogleFlag";
  push := "";
  reg := seqs [lit "x-google-flag:"; RGroup 1 (RStar nonspace)];
  names := [];
  types := ["s"%char];
  format := "x-google-flag:%s";
  formatFunc := None;
|}.

Definition ridsRule : Rule := {|
  name := "";
  push := "rids";
  reg := seqs [RBol; lit "rid:"; RGroup 1 (RPlus word); lit " "; RGroup 2 (RPlus word);
      ROpt (seqs [lit " "; RGroup 3 (RStar dot)])];
  names := ["id"; "direction"; "params"];
  types := ["s"%char; "s"%char; "s"%char];
  format := "";
  formatFunc := Some (fun o => if hasValue o "params" then "rid:%s %s %s" else "rid:%s %s");
|}.

Definition imageattrsRule : Rule := {|
  name := "";
  push := "imageattrs";
  reg := seqs [RBol; lit "imageattr:"; RGroup 1 (RAlt (RPlus digit) (lit "*")); RPlus space;
      RGroup 2 (RAlt (lit "send") (lit "recv")); RPlus space; RGroup 3 imageList;
      ROpt (seqs [RPlus space; RGroup 4 (RAlt (lit "recv") (lit "send")); RPlus space;
        RGroup 5 imageList])];
  names := ["pt"; "dir1"; "attrs1"; "dir2"; "attrs2"];
  types := ["s"%char; "s"%char; "s"%char; "s"%char; "s"%char];
  format := "";
  formatFunc := Some (fun o => "imageattr:%s %s %s" +:+ (if hasValue o "dir2" then " %s %s" else ""));
|}.

Definition simulcastRule : Rule := {|
  name := "simulcast";
  push := "";
  reg := seqs [RBol; lit "simulcast:"; RGroup 1 (RAlt (lit "send") (lit "recv")); lit " ";
      RGroup 2 (RPlus (word_or "-~;,"));
      ROpt (seqs [ROpt space; RGroup 3 (RAlt (lit "send") (lit "recv")); lit " ";
        RGroup 4 (RPlus (word_or "-~;,"))]); REol];
  names := ["dir1"; "list1"; "dir2"; "list2"];
  types := ["s"%char; "s"%char; "s"%char; "s"%char];
  format := "";
  formatFunc := Some (fun o => "simulcast:%s %s" +:+ (if hasValue o "dir2" then " %s %s" else ""));
|}.

Definition simulcast_03Rule : Rule := {|
  name := "simulcast_03";
  push := "";
  reg := seqs [RBol; lit "simulcast: "; RGroup 1 (RPlus dot); REol];
  names := ["value"];
  types := ["s"%char];
  format := "simulcast: %s";
  formatFunc := None;
|}.

Definition framerateRule : Rule := {|
  name := "framerate";
  push := "";
  reg := seqs [RBol; lit "framerate:";
      RGroup 1 (seqs [RPlus digit; RAlt REol (seqs [lit "."; RPlus digit])])];
  names := [];
  types := ["f"%char];
  format := "framerate:%s";
  formatFunc := None;
|}.

Definition sourceFilterRule : Rule := {|
  name := "sourceFilter";
  push := "";
  reg := seqs [RBol; lit "source-filter:"; RPlus space; RGroup 1 (RAlt (lit "excl") (lit "incl"));
      lit " "; RGroup 2 (RStar nonspace); lit " ";
      RGroup 3 (alts [lit "IP4"; lit "IP6"; lit "*"]); lit " "; RGroup 4 (RStar nonspace);
      lit " "; RGroup 5 (RStar dot)];
  names := ["filterMode"; "netType"; "addressTypes"; "destAddress"; "srcList"];
  types := ["s"%char; "s"%char; "s"%char; "s"%char; "s"%char];
  format := "source-filter: %s %s %s %s %s";
  formatFunc := None;
|}.

Definition tsRefclkRule : Rule := {|
  name := "tsRefclk";
  push := "";
  reg := seqs [RBol; lit "ts-refclk:"; RGroup 1 (RStar dot)];
  names := [];
  types := ["s"%char];
  format := "ts-refclk:%s";
  formatFunc := None;
|}.

Definition mediaclkRule : Rule := {|
  name := "mediaclk";
  push := "";
  reg := seqs [RBol; lit "mediaclk:"; RGroup 1 (RStar dot)];
  names := [];
  types := ["s"%char];
  format := "mediaclk:%s";
  formatFunc := None;
|}.

Definition invalidRule : Rule := {|
  name := "";
  push := "invalid";
  reg := seqs [RGroup 1 (RStar dot)];
  names := ["value"];
  types := ["s"%char];
  format := "%s";
  formatFunc := None;
|}.

(** [rulesMap] *)
Definition attributeRules : list Rule :=
  [rtpRule; fmtpRule; controlRule; rtcpRule; rtcpFbTrrIntRule; rtcpFbRule; extRule;
   extmapAllowMixedRule; cryptoRule; setupRule; midRule; msidRule; ptimeRule; maxptimeRule;
   directionRule; iceliteRule; iceUfragRule; icePwdRule; fingerprintRule; candidatesRule;
   endOfCandidatesRule; remoteCandidatesRule; iceOptionsRule; ssrcsRule; ssrcGroupsRule;
   msidSemanticRule; groupsRule; rtcpMuxRule; rtcpRsizeRule; sctpmapRule; xGoogleFlagRule;
   ridsRule; imageattrsRule; simulcastRule; simulcast_03Rule; framerateRule;
   sourceFilterRule; tsRefclkRule; mediaclkRule; invalidRule].

Definition rulesMap (type : ascii) : option (list Rule) :=
  match type with
  | "v"%char => Some [versionRule]
  | "o"%char => Some [originRule]
  | "s"%char => Some [nameRule]
  | "i"%char => Some [descriptionRule]
  | "u"%char => Some [uriRule]
  | "e"%char => Some [emailRule]
  | "p"%char => Some [phoneRule]
  | "z"%char => Some [timezonesRule]
  | "r"%char => Some [repeatsRule]
  | "t"%char => Some [timingRule]
  | "c"%char => Some [connectionRule]
  | "b"%char => Some [bandwidthRule]
  | "m"%char => Some [mediaRule]
  | "a"%char => Some attributeRules
  | _ => None
  end.
