(* ===== verification/SdpWriter.v ===== *)
(** * The SDP writer

    deps/libsdptransform/src/writer.cpp: the lines of a session description written
    from JSON by the rules of the grammar. *)

From Stdlib Require Import Ascii.
From S2P Require Import Prelude Json Regex Strings Dtoa JsonDump SdpGrammar.

(** ["%[sdv%]"] *)
Definition FormatRegex : regex := RGroup 1 (RSeq (lit "%") (RChar (one_of "sdv%"))).

(** The placeholders a [std::sregex_iterator] goes through, each with the text before
    it; every one takes two characters. *)
Fixpoint placeholders_from (fuel : nat) (format : string) : list (string * string) :=
  match fuel with
  | O => []
  | S fuel =>
      match regex_search FormatRegex format with
      | Some (prefix, suffix, c) => (prefix, sub 1 c) :: placeholders_from fuel suffix
      | None => []
      end
  end.
Definition placeholders (format : string) : list (string * string) :=
  placeholders_from (String.length format) format.

(** [linestream << arg], with strings written verbatim *)
Definition arg_text (arg : json) : result string :=
  match arg with JString s => Ok s | _ => dump arg end.

(** The loop over the placeholders: without arguments left a placeholder stays, without
    the text before it, and the text after the last placeholder is never written. *)
Fixpoint fill (ps : list (string * string)) (args : list json) : result string :=
  match ps with
  | [] => Ok ""
  | (prefix, str) :: ps =>
      match args with
      | [] => let? rest := fill ps [] in Ok (str +:+ rest)
      | arg :: args =>
          let? text :=
            (if String.eqb str "%%" then Ok "%"
             else if String.eqb str "%s" || String.eqb str "%d" then arg_text arg
             else Ok "") in
          let? rest := fill ps args in
          Ok (prefix +:+ text +:+ rest)
      end
  end.

(** An entry of [args] *)
Definition lineArg (rule : Rule) (location : json) (n : string) : json :=
  let named :=
    if String.eqb (name rule) "" then None
    else match find (name rule) location with Some v => find n v | None => None end in
  match named with
  | Some v => v
  | None => default (JString "") (find n location)
  end.

Definition lineArgs (rule : Rule) (location : json) : list json :=
  match names rule with
  | [] => match find (name rule) location with Some v => [v] | None => [] end
  | ns => map (lineArg rule location) ns
  end.

Definition lineFormat (rule : Rule) (location : json) : result string :=
  if String.eqb (format rule) "" then
    let? o :=
      (if negb (String.eqb (push rule) "") then Ok location
       else if negb (String.eqb (name rule) "") then at_ (name rule) location
       else Ok location) in
    match formatFunc rule with
    | Some f => Ok (f o)
    | None => Throw StdBadFunctionCall
    end
  else Ok (format rule).

Definition crlf : string := String "013" (String "010" "").

Definition makeLine (type : ascii) (rule : Rule) (location : json) : result string :=
  let? format := lineFormat rule location in
  let? text := fill (placeholders format) (lineArgs rule location) in
  Ok (String type ("=" +:+ text +:+ crlf)).

(** ** Sessions *)

Fixpoint concat_results {A} (f : A -> result string) (l : list A) : result string :=
  match l with
  | [] => Ok ""
  | x :: l => let? s := f x in let? rest := concat_results f l in Ok (s +:+ rest)
  end.

(** The lines of one rule *)
Definition writeRule (type : ascii) (location : json) (rule : Rule) : result string :=
  let named :=
    if String.eqb (name rule) "" then false
    else it_is (fun v => negb (is_null v)) (find (name rule) location) in
  if named then makeLine type rule location
  else if String.eqb (push rule) "" then Ok ""
  else
    match find (push rule) location with
    | Some (JArray l) => concat_results (makeLine type rule) l
    | _ => Ok ""
    end.

(** The lines of the given types, in order *)
Definition writeTypes (order : list ascii) (location : json) : result string :=
  concat_results (fun type =>
    match rulesMap type with
    | Some rules => concat_results (writeRule type location) rules
    | None => Throw StdOutOfRange
    end) order.

Definition OuterOrder : list ascii := String.list_ascii_of_string "vosiuepcbtrza".
Definition InnerOrder : list ascii := String.list_ascii_of_string "icba".

Definition writeMedia (mLine : json) : result string :=
  let? line := makeLine "m"%char mediaRule mLine in
  let? rest := writeTypes InnerOrder mLine in
  Ok (line +:+ rest).

(** [if (j.find(k) == j.end()) j[k] = v;] *)
Definition ensure (k : string) (v : json) : M json unit :=
  let! j := get in when (negb (contains k j)) (set_key k v).

Definition writeSession (session : json) : result string :=
  let? outer := writeTypes OuterOrder session in
  let? media := at_ "media" session in
  let? inner := concat_results writeMedia (elems media) in
  Ok (outer +:+ inner).

(** The defaults of a session and of its media sections *)
Definition complete : M json unit :=
  do! ensure "version" (JInt 0) in
  do! ensure "name" (JString "-") in
  do! ensure "media" (JArray []) in
  at_it "media" (for_each (ensure "payloads" (JString ""))).

Definition write : M json string :=
  let! session := get in
  do! throw_if (negb (is_object session)) StdInvalidArgument in
  do! complete in
  let! session := get in
  lift (writeSession session).
