(* ===== verification/RemoteSdp.v ===== *)
(** * The remote session description

    libmediasoupclient/src/sdp/RemoteSdp.cpp: the media sections of the remote
    side, the map from their mids to their positions, and the JSON object that is
    written out as SDP. *)

From stdpp Require Import gmap.
From S2P Require Import Prelude Json Ortc MediaSection SdpWriter.

Record RemoteSdp := {
  iceParameters : json;
  iceCandidates : json;
  dtlsParameters : json;
  sctpParameters : json;
  mediaSections : list MediaSection;
  midToIndex : gmap string nat;
  firstMid : string;
  sdpObject : json
}.

(** Assignments to one member. *)
Definition set_iceParameters (v : json) (s : RemoteSdp) : RemoteSdp :=
  {| iceParameters := v; iceCandidates := iceCandidates s; dtlsParameters := dtlsParameters s;
     sctpParameters := sctpParameters s; mediaSections := mediaSections s;
     midToIndex := midToIndex s; firstMid := firstMid s; sdpObject := sdpObject s |}.
Definition set_dtlsParameters (v : json) (s : RemoteSdp) : RemoteSdp :=
  {| iceParameters := iceParameters s; iceCandidates := iceCandidates s; dtlsParameters := v;
     sctpParameters := sctpParameters s; mediaSections := mediaSections s;
     midToIndex := midToIndex s; firstMid := firstMid s; sdpObject := sdpObject s |}.
Definition set_mediaSections (v : list MediaSection) (s : RemoteSdp) : RemoteSdp :=
  {| iceParameters := iceParameters s; iceCandidates := iceCandidates s;
     dtlsParameters := dtlsParameters s; sctpParameters := sctpParameters s;
     mediaSections := v; midToIndex := midToIndex s; firstMid := firstMid s;
     sdpObject := sdpObject s |}.
Definition set_midToIndex (v : gmap string nat) (s : RemoteSdp) : RemoteSdp :=
  {| iceParameters := iceParameters s; iceCandidates := iceCandidates s;
     dtlsParameters := dtlsParameters s; sctpParameters := sctpParameters s;
     mediaSections := mediaSections s; midToIndex := v; firstMid := firstMid s;
     sdpObject := sdpObject s |}.
Definition set_firstMid (v : string) (s : RemoteSdp) : RemoteSdp :=
  {| iceParameters := iceParameters s; iceCandidates := iceCandidates s;
     dtlsParameters := dtlsParameters s; sctpParameters := sctpParameters s;
     mediaSections := mediaSections s; midToIndex := midToIndex s; firstMid := v;
     sdpObject := sdpObject s |}.
Definition set_sdpObject (v : json) (s : RemoteSdp) : RemoteSdp :=
  {| iceParameters := iceParameters s; iceCandidates := iceCandidates s;
     dtlsParameters := dtlsParameters s; sctpParameters := sctpParameters s;
     mediaSections := mediaSections s; midToIndex := midToIndex s; firstMid := firstMid s;
     sdpObject := v |}.

Definition modify (f : RemoteSdp -> RemoteSdp) : M RemoteSdp unit := fun s => (Ok tt, f s).

(** Runs [f] on the member [sdpObject]. *)
Definition on_sdpObject {A} (f : M json A) : M RemoteSdp A := fun s =>
  let '(r, o) := f (sdpObject s) in (r, set_sdpObject o s).

(** [this->mediaSections[idx]]: undefined out of range. *)
Definition sectionAt (idx : nat) : M RemoteSdp MediaSection := fun s =>
  match mediaSections s !! idx with Some ms => (Ok ms, s) | None => (Undef, s) end.

(** Runs [f] on the media object of [this->mediaSections[idx]]. *)
Definition on_section {A} (idx : nat) (f : MediaSection -> M json A) : M RemoteSdp A := fun s =>
  match mediaSections s !! idx with
  | Some ms =>
      let '(r, o) := f ms (mediaObject ms) in
      (r, set_mediaSections
            (<[idx := {| sectionKind := sectionKind ms; mediaObject := o |}]> (mediaSections s)) s)
  | None => (Undef, s)
  end.

(** [this->midToIndex[mid]]: a missing key is first bound to 0. *)
Definition indexOf (mid : string) : M RemoteSdp nat := fun s =>
  match midToIndex s !! mid with
  | Some i => (Ok i, s)
  | None => (Ok 0%nat, set_midToIndex (<[mid := 0%nat]> (midToIndex s)) s)
  end.

(** [this->sdpObject["media"][idx] = mediaSection->GetObject()] *)
Definition updateMedia (idx : nat) (object : json) : M RemoteSdp unit :=
  on_sdpObject (at_key "media" (at_idx idx (put object))).

(** ** Construction *)

(** The algorithm and the value of the latest fingerprint, read from the member
    [dtlsParameters]; with no fingerprint the index wraps around. *)
Definition latestFingerprint : M json (json * json) :=
  let! numFingerprints := at_key "fingerprints" (fun j => (Ok (size j), j)) in
  match numFingerprints with
  | O => lift Undef
  | S n =>
      let! algorithm := at_key "fingerprints" (at_idx n (ref "algorithm")) in
      let! value := at_key "fingerprints" (at_idx n (ref "value")) in
      ret (algorithm, value)
  end.

Definition initialSdpObject : json := jobj [
  ("version", JInt 0);
  ("origin", jobj [
     ("address", JString "0.0.0.0"); ("ipVer", JInt 4); ("netType", JString "IN");
     ("sessionId", JInt 10000); ("sessionVersion", JInt 0);
     ("username", JString "libmediasoupclient") ]);
  ("name", JString "-");
  ("timing", jobj [("start", JInt 0); ("stop", JInt 0)]);
  ("media", JArray []) ].

(** [if (iceParameters.find("iceLite") != end) sdpObject["icelite"] = "ice-lite";] *)
Definition setIceLite (iceParameters : json) : M RemoteSdp unit :=
  when (contains "iceLite" iceParameters)
    (on_sdpObject (set_key "icelite" (JString "ice-lite"))).

Definition RemoteSdp_init (fingerprint : json * json) : M RemoteSdp unit :=
  let! s := get in
  do! setIceLite (iceParameters s) in
  do! on_sdpObject (set_key "msidSemantic"
        (jobj [("semantic", JString "WMS"); ("token", JString "*")])) in
  do! on_sdpObject (set_key "fingerprint"
        (jobj [("type", fingerprint.1); ("hash", fingerprint.2)])) in
  on_sdpObject (set_key "groups"
    (JArray [jobj [("type", JString "BUNDLE"); ("mids", JString "")]])).

(** The constructor. *)
Definition RemoteSdp_new (ice candidates dtls sctp : json) : result RemoteSdp :=
  let '(fingerprint, dtls') := latestFingerprint dtls in
  let? fingerprint := fingerprint in
  let '(r, s) := RemoteSdp_init fingerprint
    {| iceParameters := ice; iceCandidates := candidates; dtlsParameters := dtls';
       sctpParameters := sctp; mediaSections := []; midToIndex := ∅; firstMid := "";
       sdpObject := initialSdpObject |} in
  let? _ := r in Ok s.

(** ** Updates *)

(** The loop that changes every media section and its SDP object. *)
Fixpoint updateSections (f : MediaSection -> M json unit) (n idx : nat) : M RemoteSdp unit :=
  match n with
  | O => ret tt
  | S n =>
      do! on_section idx f in
      let! ms := sectionAt idx in
      do! updateMedia idx (GetObject ms) in
      updateSections f n (S idx)
  end.

Definition UpdateIceParameters (ice : json) : M RemoteSdp unit :=
  do! modify (set_iceParameters ice) in
  do! setIceLite ice in
  let! s := get in
  updateSections (fun _ => SetIceParameters ice) (length (mediaSections s)) 0.

Definition UpdateDtlsRole (role : string) : M RemoteSdp unit :=
  let! s := get in
  let '(r, dtls') := set_key "role" (JString role) (dtlsParameters s) in
  do! modify (set_dtlsParameters dtls') in
  do! lift r in
  do! setIceLite (iceParameters s) in
  updateSections (fun ms => SetDtlsRole (sectionKind ms) role) (length (mediaSections s)) 0.

(** The position of the first closed media section from [idx] on. *)
Fixpoint findClosed (l : list MediaSection) (idx : nat) : result (option (nat * MediaSection)) :=
  match l with
  | [] => Ok None
  | ms :: l =>
      let? closed := IsClosed ms in
      if closed then Ok (Some (idx, ms)) else findClosed l (S idx)
  end.

(** The index, and the mid to reuse (empty when there is none). *)
Definition GetNextMediaSectionIdx (s : RemoteSdp) : result (nat * string) :=
  let? closed := findClosed (mediaSections s) 0 in
  match closed with
  | Some (idx, ms) => let? mid := GetMid ms in Ok (idx, mid)
  | None => Ok (length (mediaSections s), "")
  end.

(** ** Adding and replacing sections *)

(** The mids of the sections that are not closed, separated by spaces. *)
Fixpoint bundleMids (l : list MediaSection) (mids : string) : result string :=
  match l with
  | [] => Ok mids
  | ms :: l =>
      let? closed := IsClosed ms in
      if closed then bundleMids l mids
      else
        let? mid := GetMid ms in
        bundleMids l (if String.eqb mids "" then mid else mids +:+ " " +:+ mid)
  end.

Definition RegenerateBundleMids : M RemoteSdp unit :=
  let! s := get in
  let! mids := lift (bundleMids (mediaSections s) "") in
  on_sdpObject (at_key "groups" (at_idx 0 (set_key "mids" (JString mids)))).

Definition AddMediaSection (newMediaSection : MediaSection) : M RemoteSdp unit :=
  let! s := get in
  do! when (String.eqb (firstMid s) "")
        (let! mid := lift (GetMid newMediaSection) in modify (set_firstMid mid)) in
  do! modify (fun s => set_mediaSections (mediaSections s ++ [newMediaSection]) s) in
  let! mid := lift (GetMid newMediaSection) in
  do! modify (fun s =>
        set_midToIndex (<[mid := (length (mediaSections s) - 1)%nat]> (midToIndex s)) s) in
  do! on_sdpObject (at_key "media" (push_back (GetObject newMediaSection))) in
  RegenerateBundleMids.

Definition ReplaceMediaSection (newMediaSection : MediaSection) (reuseMid : string) :
    M RemoteSdp unit :=
  if negb (String.eqb reuseMid "") then
    let! idx := indexOf reuseMid in
    let! oldMediaSection := sectionAt idx in
    do! modify (fun s => set_mediaSections (<[idx := newMediaSection]> (mediaSections s)) s) in
    let! oldMid := lift (GetMid oldMediaSection) in
    do! modify (fun s => set_midToIndex (delete oldMid (midToIndex s)) s) in
    let! newMid := lift (GetMid newMediaSection) in
    do! modify (fun s => set_midToIndex (<[newMid := idx]> (midToIndex s)) s) in
    do! updateMedia idx (GetObject newMediaSection) in
    RegenerateBundleMids
  else
    let! mid := lift (GetMid newMediaSection) in
    let! idx := indexOf mid in
    do! sectionAt idx in
    do! modify (fun s => set_mediaSections (<[idx := newMediaSection]> (mediaSections s)) s) in
    let! s := get in
    updateMedia (length (mediaSections s) - 1) (GetObject newMediaSection).

(** ** The operations of the handlers *)

(** On (the remote SDP, (offerRtpParameters, answerRtpParameters)). *)
Definition Send (offerMediaObject : json) (reuseMid : string) (codecOptions : option json) :
    M (RemoteSdp * (json * json)) unit :=
  let! st := get in
  let s := st.1 in
  let! mediaSection :=
    on_snd (AnswerMediaSection (iceParameters s) (iceCandidates s) (dtlsParameters s)
              (sctpParameters s) offerMediaObject codecOptions) in
  on_fst (if negb (String.eqb reuseMid "") then ReplaceMediaSection mediaSection reuseMid
          else AddMediaSection mediaSection).

Definition SendSctpAssociation (offerMediaObject : json) : M RemoteSdp unit :=
  let! s := get in
  let! mediaSection :=
    lift (fst (AnswerMediaSection (iceParameters s) (iceCandidates s) (dtlsParameters s)
                 (sctpParameters s) offerMediaObject None (JNull, JNull))) in
  AddMediaSection mediaSection.

Definition RecvSctpAssociation : M RemoteSdp unit :=
  let! s := get in
  let! mediaSection :=
    lift (OfferMediaSection (iceParameters s) (iceCandidates s) (sctpParameters s)
            "datachannel" "application" JNull "" "") in
  AddMediaSection mediaSection.

Definition Receive (mid kind : string) (offerRtpParameters : json) (streamId trackId : string) :
    M RemoteSdp unit :=
  let! s := get in
  let! mediaSection :=
    lift (OfferMediaSection (iceParameters s) (iceCandidates s) JNull mid kind
            offerRtpParameters streamId trackId) in
  let! mediaSectionIt := lift (findClosed (mediaSections s) 0) in
  match mediaSectionIt with
  | Some (_, closed) =>
      let! reuseMid := lift (GetMid closed) in
      ReplaceMediaSection mediaSection reuseMid
  | None => AddMediaSection mediaSection
  end.

Definition DisableMediaSection (mid : string) : M RemoteSdp unit :=
  let! idx := indexOf mid in
  on_section idx (fun _ => Disable).

Definition CloseMediaSection (mid : string) : M RemoteSdp unit :=
  let! idx := indexOf mid in
  let! s := get in
  do! on_section idx (fun _ => if String.eqb mid (firstMid s) then Disable else Close) in
  let! ms := sectionAt idx in
  do! updateMedia idx (GetObject ms) in
  RegenerateBundleMids.

(** Increases the session version, then writes the object. *)
Definition GetSdp : M RemoteSdp string :=
  let! version :=
    on_sdpObject (at_key "origin" (at_key "sessionVersion"
      (fun j => (get_uint 32 j, j)))) in
  do! on_sdpObject (at_key "origin" (set_key "sessionVersion"
        (JUInt (uint 32 (version + 1))))) in
  on_sdpObject write.
