(* ===== verification/RemoteSdpInv.v ===== *)
(** * The remote session description: the proofs

    The invariant that ties the media sections, the map of mids and the SDP
    object together, its preservation by every operation, and the abstract
    machine that the operations implement. *)

From stdpp Require Import gmap.
From S2P Require Import Prelude Json Regex Validator OrtcValidate OrtcContracts OrtcValidated.
From S2P Require Import Ortc OrtcMatch OrtcExtended MediaSection MediaSectionSpec AnswerSection.
From S2P Require Import JsonParserSpec SdpGrammar SdpWriter RemoteSdp.


(** ** The invariant *)

(** The mids of the open sections, separated by spaces. *)
Definition bundle (l : list MediaSection) : string :=
  String.concat " " (map mid_of (List.filter (fun ms => negb (closed ms)) l)).

(** The SDP object shows the sections: their objects under [media], and the mids
    of the open ones in the first group. *)
Definition shows (sections : list MediaSection) (mids : string) (object : json) : Prop :=
  exists o g gs v, object = JObject o /\
    obj_find "media" o = Some (JArray (map mediaObject sections)) /\
    obj_find "groups" o = Some (JArray (JObject g :: gs)) /\
    obj_find "mids" g = Some (JString mids) /\
    is_Some (obj_find "version" o) /\ is_Some (obj_find "name" o) /\
    (exists origin, obj_find "origin" o = Some (JObject origin) /\
       obj_find "sessionVersion" origin = Some v /\ is_number_integer v = true).

Record sdp_inv (s : RemoteSdp) : Prop := {
  inv_sections : Forall (fun ms => section_ok ms = true) (mediaSections s);
  inv_nodup : NoDup (map mid_of (mediaSections s));
  inv_index mid i : midToIndex s !! mid = Some i <->
    exists ms, mediaSections s !! i = Some ms /\ mid_of ms = mid;
  inv_shows : shows (mediaSections s) (bundle (mediaSections s)) (sdpObject s);
  inv_first : match mediaSections s with
    | [] => firstMid s = ""
    | ms :: _ => firstMid s = mid_of ms /\ closed ms = false
    end
}.

(** What [bundleMids] computes, given what it has so far. *)
Lemma run_bundleMids l mids :
  Forall (fun ms => section_ok ms = true) l -> mids <> "" ->
  bundleMids l mids =
  Ok (String.concat " " (mids :: map mid_of (List.filter (fun ms => negb (closed ms)) l))).
Proof.
  intros H. revert mids. induction H as [|ms l Hms _ IH]; intros mids Hm; simpl; [done|].
  rewrite (run_IsClosed _ Hms). simpl. destruct (closed ms); simpl; [by apply IH|].
  rewrite (run_GetMid _ Hms). simpl. rewrite (proj2 (String.eqb_neq mids "") Hm).
  rewrite IH by (by destruct mids). f_equal.
  destruct (map mid_of (List.filter _ l)); simpl; [done|].
  by rewrite !str_app_assoc.
Qed.

Lemma run_bundle l :
  Forall (fun ms => section_ok ms = true) l -> bundleMids l "" = Ok (bundle l).
Proof.
  induction 1 as [|ms l Hms Hl IH]; simpl; [done|]. unfold bundle. simpl.
  rewrite (run_IsClosed _ Hms). simpl. destruct (closed ms) eqn:Hc; simpl; [exact IH|].
  rewrite (run_GetMid _ Hms). simpl. apply run_bundleMids; [done|].
  by apply section_ok_fields in Hms as (? & ? & _ & _ & ? & _).
Qed.

(** [sdpObject["groups"][0]["mids"] = mids] *)
Lemma run_RegenerateBundleMids s mids0 :
  Forall (fun ms => section_ok ms = true) (mediaSections s) ->
  shows (mediaSections s) mids0 (sdpObject s) ->
  exists o, RegenerateBundleMids s = (Ok tt, set_sdpObject o s) /\
    shows (mediaSections s) (bundle (mediaSections s)) o.
Proof.
  intros Hok (o & g & gs & v & Eo & Hme & Hg & Hmi & Hvn & Hna & Hor).
  unfold RegenerateBundleMids. rewrite run_bind_get, (bind_lift _ _ _ _ (run_bundle _ Hok)).
  unfold on_sdpObject. rewrite Eo.
  erewrite run_at_key; [|exact Hg|].
  2: { unfold at_idx. simpl. rewrite app_nil_r. reflexivity. }
  eexists. split; [reflexivity|]. simpl.
  exists (obj_replace "groups" (JArray (JObject (obj_insert "mids"
    (JString (bundle (mediaSections s))) g) :: gs)) o). do 3 eexists.
  split; [reflexivity|]. lookups. rewrite Hg. split_and!; try done. by lookups.
Qed.

(** [sdpObject["media"][idx] = object] *)
Lemma run_updateMedia s mids0 idx ms ms' :
  shows (mediaSections s) mids0 (sdpObject s) -> mediaSections s !! idx = Some ms ->
  exists o, updateMedia idx (mediaObject ms') s = (Ok tt, set_sdpObject o s) /\
    shows (<[idx := ms']> (mediaSections s)) mids0 o.
Proof.
  intros (o & g & gs & v & Eo & Hme & Hg & Hmi & Hvn & Hna & Hor) Hi.
  unfold updateMedia, on_sdpObject. rewrite Eo.
  assert (Hl : (idx < length (map mediaObject (mediaSections s)))%nat)
    by (rewrite length_map; by eapply lookup_lt_Some).
  erewrite run_at_key; [|exact Hme|].
  2: { unfold at_idx, put. simpl.
       replace (S idx - length (map mediaObject (mediaSections s)))%nat with 0%nat by lia.
       simpl. rewrite app_nil_r. reflexivity. }
  eexists. split; [reflexivity|].
  exists (obj_replace "media" (JArray (<[idx := mediaObject ms']>
    (map mediaObject (mediaSections s)))) o), g, gs, v.
  split; [done|]. lookups. rewrite Hme. split_and!; try done. simpl.
  by rewrite <- list_fmap_insert.
Qed.

(** ** Preservation *)

(** The members that do not depend on the sections. *)
Definition same_transport (s s' : RemoteSdp) : Prop :=
  iceParameters s' = iceParameters s /\ iceCandidates s' = iceCandidates s /\
  dtlsParameters s' = dtlsParameters s /\ sctpParameters s' = sctpParameters s.

Lemma run_modify {B} f (g : unit -> M RemoteSdp B) s : bind (modify f) g s = g tt (f s).
Proof. done. Qed.

Lemma run_push_back s mids0 ms :
  shows (mediaSections s) mids0 (sdpObject s) ->
  exists o, on_sdpObject (at_key "media" (push_back (mediaObject ms))) s =
      (Ok tt, set_sdpObject o s) /\ shows (mediaSections s ++ [ms]) mids0 o.
Proof.
  intros (o & g & gs & v & Eo & Hme & Hg & Hmi & Hvn & Hna & Hor). unfold on_sdpObject. rewrite Eo.
  erewrite run_at_key; [|exact Hme|reflexivity]. eexists. split; [reflexivity|].
  exists (obj_replace "media" (JArray (map mediaObject (mediaSections s) ++ [mediaObject ms])) o),
    g, gs, v.
  split; [done|]. lookups. rewrite Hme. split_and!; try done. simpl. by rewrite map_app.
Qed.

(** The index of the mids after a section was appended. *)
Lemma index_append (l : list MediaSection) (ix : gmap string nat) ms :
  (forall mid i, ix !! mid = Some i <-> exists x, l !! i = Some x /\ mid_of x = mid) ->
  ~ In (mid_of ms) (map mid_of l) ->
  forall mid i, <[mid_of ms := length l]> ix !! mid = Some i <->
    exists x, (l ++ [ms]) !! i = Some x /\ mid_of x = mid.
Proof.
  intros Hix Hn mid i. rewrite lookup_insert_Some. split.
  - intros [[<- <-]|[Hne (x & Hx & Hm)%Hix]].
    + exists ms. split; [|done]. by apply list_lookup_middle.
    + exists x. split; [|done]. by apply lookup_app_l_Some.
  - intros (x & [Hx|[Hi Hx]]%lookup_app_Some & Hm).
    + right. split; [|apply Hix; eauto]. intros E. apply Hn. rewrite E, <- Hm.
      apply in_map. by apply list_elem_of_In, list_elem_of_lookup_2 with i.
    + left. apply list_lookup_singleton_Some in Hx as [? <-]. split; [done|lia].
Qed.

Lemma run_first {B} b ms s (g : unit -> M RemoteSdp B) :
  section_ok ms = true ->
  bind (when b (let! mid := lift (GetMid ms) in modify (set_firstMid mid))) g s =
  g tt (if b then set_firstMid (mid_of ms) s else s).
Proof.
  intros Hms. destruct b; [|done]. simpl. rewrite run_bind_bind.
  by rewrite (bind_lift _ _ _ _ (run_GetMid _ Hms)).
Qed.

Lemma AddMediaSection_run s ms :
  sdp_inv s -> section_ok ms = true -> closed ms = false ->
  ~ In (mid_of ms) (map mid_of (mediaSections s)) ->
  exists s', AddMediaSection ms s = (Ok tt, s') /\ sdp_inv s' /\ same_transport s s' /\
    mediaSections s' = mediaSections s ++ [ms].
Proof.
  intros [Hok Hnd Hix Hsh Hfi] Hms Hc Hn. unfold AddMediaSection.
  rewrite run_bind_get, (run_first _ _ _ _ Hms), run_modify.
  rewrite (bind_lift _ _ _ _ (run_GetMid _ Hms)), run_modify.
  set (first := if String.eqb (firstMid s) "" then mid_of ms else firstMid s).
  set (s1 := {| iceParameters := iceParameters s; iceCandidates := iceCandidates s;
    dtlsParameters := dtlsParameters s; sctpParameters := sctpParameters s;
    mediaSections := mediaSections s ++ [ms];
    midToIndex := <[mid_of ms := length (mediaSections s)]> (midToIndex s);
    firstMid := first; sdpObject := sdpObject s |}).
  match goal with |- context [bind (on_sdpObject _) _ ?x] => replace x with s1 end; cycle 1.
  { subst s1 first. destruct (String.eqb (firstMid s) ""); unfold set_midToIndex; simpl;
      rewrite length_app; simpl; by rewrite Nat.add_sub. }
  destruct (run_push_back s _ ms Hsh) as (o & Hp & Hs1).
  assert (Hp1 : on_sdpObject (at_key "media" (push_back (GetObject ms))) s1 =
    (Ok tt, set_sdpObject o s1)).
  { unfold on_sdpObject in *. simpl. unfold GetObject. destruct (at_key _ _ (sdpObject s)) as [r o'].
    injection Hp as -> <-. done. }
  rewrite (bind_of_ok _ _ _ _ _ Hp1).
  assert (Hok1 : Forall (fun ms => section_ok ms = true) (mediaSections s ++ [ms]))
    by (apply Forall_app; auto).
  destruct (run_RegenerateBundleMids (set_sdpObject o s1) _ Hok1 Hs1) as (o' & -> & Hs2).
  eexists. split; [done|]. split; [|by split_and!]. split; simpl; try done.
  - rewrite map_app. simpl. apply NoDup_app. split_and!; [done| |apply NoDup_singleton].
    intros x Hx ->%list_elem_of_singleton. by apply Hn, list_elem_of_In.
  - by apply index_append.
  - subst first. destruct (mediaSections s) as [|ms0 l]; simpl; [by rewrite Hfi|].
    destruct Hfi as [-> ?]. apply Forall_cons_1 in Hok as [H0 _].
    apply section_ok_fields in H0 as (? & ? & _ & _ & Hne & _).
    by rewrite (proj2 (String.eqb_neq _ _) Hne).
Qed.

Lemma run_indexOf s mid i : midToIndex s !! mid = Some i -> indexOf mid s = (Ok i, s).
Proof. intros H. unfold indexOf. by rewrite H. Qed.
Lemma run_sectionAt s i ms : mediaSections s !! i = Some ms -> sectionAt i s = (Ok ms, s).
Proof. intros H. unfold sectionAt. by rewrite H. Qed.

(** The index of the mids after the section at [i] was replaced. *)
Lemma index_replace (l : list MediaSection) (ix : gmap string nat) i old ms :
  NoDup (map mid_of l) ->
  (forall mid k, ix !! mid = Some k <-> exists x, l !! k = Some x /\ mid_of x = mid) ->
  l !! i = Some old ->
  (forall k x, l !! k = Some x -> mid_of x = mid_of ms -> k = i) ->
  forall mid k, <[mid_of ms := i]> (delete (mid_of old) ix) !! mid = Some k <->
    exists x, <[i := ms]> l !! k = Some x /\ mid_of x = mid.
Proof.
  intros Hnd Hix Hi Hfresh mid k. pose proof (lookup_lt_Some _ _ _ Hi) as Hlt.
  rewrite lookup_insert_Some, lookup_delete_Some, Hix. split.
  - intros [[<- <-]|(Hne & Ho & x & Hx & Hm)].
    + exists ms. by rewrite list_lookup_insert_eq.
    + exists x. split; [|done]. rewrite list_lookup_insert_ne; [done|].
      intros <-. apply Ho. congruence.
  - intros (x & Hx & Hm). destruct (decide (k = i)) as [->|Hk].
    + rewrite list_lookup_insert_eq in Hx by done. injection Hx as <-. by left.
    + rewrite list_lookup_insert_ne in Hx by done. right. split_and!; [| |eauto].
      * intros E. apply Hk. eapply Hfresh; [done|]. congruence.
      * intros E. apply Hk. assert (map mid_of l !! k = map mid_of l !! i) as Heq.
        { rewrite !list_lookup_fmap, Hx, Hi. simpl. congruence. }
        eapply NoDup_lookup; [done| |]; rewrite list_lookup_fmap; [by rewrite Hx|].
        rewrite Hi. simpl. congruence.
Qed.

Lemma NoDup_replace (l : list MediaSection) i old ms :
  NoDup (map mid_of l) -> l !! i = Some old ->
  (forall k x, l !! k = Some x -> mid_of x = mid_of ms -> k = i) ->
  NoDup (map mid_of (<[i := ms]> l)).
Proof.
  intros Hnd Hi Hfresh. pose proof (lookup_lt_Some _ _ _ Hi) as Hlt. apply NoDup_alt.
  assert (Hl : forall a m, map mid_of (<[i := ms]> l) !! a = Some m ->
    exists x, <[i := ms]> l !! a = Some x /\ mid_of x = m).
  { intros a m. rewrite list_lookup_fmap. destruct (<[i := ms]> l !! a); [|done].
    intros [= <-]. eauto. }
  intros a b m (x & Hx & Ex)%Hl (y & Hy & Ey)%Hl.
  destruct (decide (a = i)) as [->|Ha], (decide (b = i)) as [->|Hb]; try done.
  - rewrite list_lookup_insert_eq in Hx by done. injection Hx as <-.
    rewrite list_lookup_insert_ne in Hy by done. symmetry. eapply Hfresh; [done|]. congruence.
  - rewrite list_lookup_insert_eq in Hy by done. injection Hy as <-.
    rewrite list_lookup_insert_ne in Hx by done. eapply Hfresh; [done|]. congruence.
  - rewrite list_lookup_insert_ne in Hx, Hy by done. eapply NoDup_lookup; [done| |];
      rewrite list_lookup_fmap; [by rewrite Hx|]. rewrite Hy. simpl. congruence.
Qed.

(** The section at the head keeps its mid and stays open. *)
Lemma first_replace (l : list MediaSection) (first : string) i old ms :
  match l with [] => first = "" | x :: _ => first = mid_of x /\ closed x = false end ->
  l !! i = Some old -> closed old = true \/ (mid_of ms = mid_of old /\ closed ms = false) ->
  match <[i := ms]> l with
  | [] => first = ""
  | x :: _ => first = mid_of x /\ closed x = false
  end.
Proof.
  destruct l as [|x l]; [done|]. destruct i as [|i]; simpl; [|done].
  intros [-> Hc] [= ->] [?|[-> ?]]; [congruence|done].
Qed.

Lemma ReplaceMediaSection_run s i old ms :
  sdp_inv s -> mediaSections s !! i = Some old -> closed old = true ->
  section_ok ms = true ->
  (forall k x, mediaSections s !! k = Some x -> mid_of x = mid_of ms -> k = i) ->
  exists s', ReplaceMediaSection ms (mid_of old) s = (Ok tt, s') /\ sdp_inv s' /\
    same_transport s s' /\ mediaSections s' = <[i := ms]> (mediaSections s).
Proof.
  intros [Hok Hnd Hix Hsh Hfi] Hi Hc Hms Hfresh.
  assert (Hold : section_ok old = true) by (by eapply Forall_lookup_1 in Hok).
  pose proof Hold as (? & ? & _ & _ & Hne & _)%section_ok_fields.
  unfold ReplaceMediaSection. rewrite (proj2 (String.eqb_neq _ _) Hne). simpl.
  assert (Hidx : midToIndex s !! mid_of old = Some i) by (apply Hix; eauto).
  rewrite (bind_of_ok _ _ _ _ _ (run_indexOf _ _ _ Hidx)).
  rewrite (bind_of_ok _ _ _ _ _ (run_sectionAt _ _ _ Hi)), run_modify.
  rewrite (bind_lift _ _ _ _ (run_GetMid _ Hold)), run_modify.
  rewrite (bind_lift _ _ _ _ (run_GetMid _ Hms)), run_modify.
  destruct (run_updateMedia s _ i old ms Hsh Hi) as (o & Hu & Hs1).
  set (s1 := set_midToIndex _ _).
  assert (Hu1 : updateMedia i (GetObject ms) s1 = (Ok tt, set_sdpObject o s1)).
  { unfold updateMedia, on_sdpObject in *. simpl. unfold GetObject.
    destruct (at_key _ _ (sdpObject s)) as [r o']. injection Hu as -> <-. done. }
  rewrite (bind_of_ok _ _ _ _ _ Hu1).
  assert (Hok1 : Forall (fun ms => section_ok ms = true) (<[i := ms]> (mediaSections s)))
    by (by apply Forall_insert).
  destruct (run_RegenerateBundleMids (set_sdpObject o s1) _ Hok1 Hs1) as (o' & -> & Hs2).
  eexists. split; [done|]. split; [|by split_and!]. split; simpl; try done.
  - by eapply NoDup_replace.
  - by apply index_replace.
  - eapply first_replace; [done..|]. by left.
Qed.

(** Changing the section at [i] in place, then showing the result. *)
Lemma run_on_section s i ms f c :
  mediaSections s !! i = Some ms -> keeps_section (f ms) ms c ->
  exists ms', on_section i f s = (Ok tt, set_mediaSections (<[i := ms']> (mediaSections s)) s) /\
    section_ok ms' = true /\ mid_of ms' = mid_of ms /\ closed ms' = c.
Proof.
  intros Hi (o & Hf & Hk). eexists. split; [|exact Hk]. unfold on_section.
  by rewrite Hi, Hf.
Qed.

(** [midToIndex] still describes the sections when one is changed in place. *)
Lemma inv_in_place s i ms ms' o :
  sdp_inv s -> mediaSections s !! i = Some ms -> section_ok ms' = true ->
  mid_of ms' = mid_of ms -> (i = 0%nat -> closed ms' = false) ->
  shows (<[i := ms']> (mediaSections s)) (bundle (<[i := ms']> (mediaSections s))) o ->
  sdp_inv (set_sdpObject o (set_mediaSections (<[i := ms']> (mediaSections s)) s)).
Proof.
  intros [Hok Hnd Hix Hsh Hfi] Hi Hms Hm Hz Ho. split; simpl; try done.
  - by apply Forall_insert.
  - replace (map mid_of (<[i := ms']> (mediaSections s))) with (map mid_of (mediaSections s));
      [done|].
    rewrite list_fmap_insert, Hm. symmetry. apply list_insert_id.
    by rewrite list_lookup_fmap, Hi.
  - intros mid k. rewrite Hix. destruct (decide (k = i)) as [->|Hk].
    + rewrite list_lookup_insert_eq by (by eapply lookup_lt_Some). rewrite Hi. split.
      * intros (x & [= <-] & <-). eauto.
      * intros (x & [= <-] & <-). eauto.
    + by rewrite list_lookup_insert_ne.
  - destruct (mediaSections s) as [|x l]; [done|]. destruct i as [|i]; simpl in *; [|done].
    injection Hi as ->. rewrite Hm. destruct Hfi. split; [done|by apply Hz].
Qed.

Lemma CloseMediaSection_run s i ms :
  sdp_inv s -> mediaSections s !! i = Some ms ->
  exists ms' s', CloseMediaSection (mid_of ms) s = (Ok tt, s') /\ sdp_inv s' /\
    same_transport s s' /\ mediaSections s' = <[i := ms']> (mediaSections s) /\
    mid_of ms' = mid_of ms /\ closed ms' = if Nat.eqb i 0 then false else true.
Proof.
  intros Hinv Hi. pose proof Hinv as [Hok Hnd Hix Hsh Hfi].
  assert (Hms : section_ok ms = true) by (by eapply Forall_lookup_1 in Hok).
  assert (Hidx : midToIndex s !! mid_of ms = Some i) by (apply Hix; eauto).
  unfold CloseMediaSection. rewrite (bind_of_ok _ _ _ _ _ (run_indexOf _ _ _ Hidx)), run_bind_get.
  assert (Hfirst : String.eqb (mid_of ms) (firstMid s) = Nat.eqb i 0 /\
    (i = 0%nat -> closed ms = false)).
  { destruct (mediaSections s) as [|x l]; [done|]. destruct Hfi as [Hf Hcl].
    destruct i as [|i]; simpl in *; [injection Hi as ->; by rewrite Hf, String.eqb_refl|].
    split; [|done]. apply String.eqb_neq. rewrite Hf. intros E.
    apply NoDup_cons in Hnd as [Hn _]. apply Hn. rewrite <- E.
    apply list_elem_of_fmap_2. by eapply list_elem_of_lookup_2. }
  destruct Hfirst as [Hf Hz]. rewrite Hf.
  destruct (run_on_section s i ms (fun _ => if Nat.eqb i 0 then Disable else Close)
    (if Nat.eqb i 0 then closed ms else true) Hi) as (ms' & Hrun & Hok' & Hm' & Hc').
  { destruct (Nat.eqb i 0); [by apply Disable_keeps|by apply Close_keeps]. }
  rewrite (bind_of_ok _ _ _ _ _ Hrun).
  erewrite bind_of_ok by (apply run_sectionAt; apply list_lookup_insert_eq; by eapply lookup_lt_Some).
  destruct (run_updateMedia s _ i ms ms' Hsh Hi) as (o & Hu & Hs1).
  set (s1 := set_mediaSections _ _).
  assert (Hu1 : updateMedia i (GetObject ms') s1 = (Ok tt, set_sdpObject o s1)).
  { unfold updateMedia, on_sdpObject in *. simpl. unfold GetObject.
    destruct (at_key _ _ (sdpObject s)) as [r o']. injection Hu as -> <-. done. }
  rewrite (bind_of_ok _ _ _ _ _ Hu1).
  assert (Hok1 : Forall (fun ms => section_ok ms = true) (<[i := ms']> (mediaSections s)))
    by (by apply Forall_insert).
  destruct (run_RegenerateBundleMids (set_sdpObject o s1) _ Hok1 Hs1) as (o' & -> & Hs2).
  exists ms'. eexists. split; [done|]. split; [|split_and!; try done].
  - apply (inv_in_place s i ms); try done. intros ->. simpl in Hc'. rewrite Hc'. by apply Hz.
  - rewrite Hc'. destruct (Nat.eqb_spec i 0); [by apply Hz|done].
Qed.

(** ** The abstract session

    A session is the list of its slots: a mid, and whether the slot is open. *)
Definition session := list (string * bool).

Definition slot (ms : MediaSection) : string * bool := (mid_of ms, negb (closed ms)).
Definition view (s : RemoteSdp) : session := map slot (mediaSections s).

(** A new mid takes the first slot that is not open, or a new one at the end. *)
Fixpoint place (mid : string) (l : session) : session :=
  match l with
  | [] => [(mid, true)]
  | (m, open) :: l => if open then (m, open) :: place mid l else (mid, true) :: l
  end.

(** Closing a mid leaves the first slot open: it carries the transport. *)
Definition close (mid : string) (l : session) : session :=
  match l with
  | [] => []
  | x :: l => x :: map (fun y => if String.eqb y.1 mid then (y.1, false) else y) l
  end.

Lemma place_append mid l :
  Forall (fun x => snd x = true) l -> place mid l = l ++ [(mid, true)].
Proof.
  induction 1 as [|[m b] l Hb _ IH]; simpl; [done|]. simpl in Hb. rewrite Hb. by rewrite IH.
Qed.
Lemma place_reuse mid (l : list (string * bool)) i m :
  l !! i = Some (m, false) -> (forall k x, (k < i)%nat -> l !! k = Some x -> snd x = true) ->
  place mid l = <[i := (mid, true)]> l.
Proof.
  revert i. induction l as [|[m0 b] l IH]; intros i Hi Hk; [done|]. destruct i as [|i]; simpl.
  - by injection Hi as -> ->.
  - pose proof (Hk 0%nat (m0, b) ltac:(lia) eq_refl) as Hb. simpl in Hb. subst b.
    f_equal. apply IH; [done|]. intros k x ?. apply (Hk (S k) x). lia.
Qed.

Lemma lookup_map {A B} (f : A -> B) l i : map f l !! i = f <$> l !! i.
Proof. apply (list_lookup_fmap f). Qed.
Lemma view_insert l i ms : map slot (<[i := ms]> l) = <[i := slot ms]> (map slot l).
Proof. apply (list_fmap_insert slot). Qed.

(** The first closed section. *)
Lemma run_findClosed l idx :
  Forall (fun ms => section_ok ms = true) l ->
  (findClosed l idx = Ok None /\ Forall (fun x => snd x = true) (map slot l)) \/
  (exists i ms, findClosed l idx = Ok (Some ((idx + i)%nat, ms)) /\ l !! i = Some ms /\
     closed ms = true /\ forall k x, (k < i)%nat -> map slot l !! k = Some x -> snd x = true).
Proof.
  intros H. revert idx. induction H as [|ms l Hms _ IH]; intros idx; simpl; [by left|].
  rewrite (run_IsClosed _ Hms). simpl. destruct (closed ms) eqn:Hc.
  - right. exists 0%nat, ms. rewrite Nat.add_0_r. split_and!; try done. intros k x Hk. lia.
  - destruct (IH (S idx)) as [[-> ?]|(i & ms' & -> & ? & ? & Hlt)]; [left|right].
    + split; [done|]. constructor; [|done]. simpl. by rewrite Hc.
    + exists (S i), ms'. rewrite Nat.add_succ_r. split_and!; try done. intros k x Hk Hx.
      destruct k as [|k]; simpl in Hx; [injection Hx as <-; simpl; by rewrite Hc|].
      apply (Hlt k); [lia|done].
Qed.

(** A section replaced so that the mids stay distinct clashes with no other one. *)
Lemma replaced_fresh l i old ms :
  l !! i = Some old -> NoDup (map fst (<[i := slot ms]> (map slot l))) ->
  forall k x, l !! k = Some x -> mid_of x = mid_of ms -> k = i.
Proof.
  intros Hi Hnd k x Hx Hm. destruct (decide (k = i)) as [|Hk]; [done|]. exfalso.
  apply Hk. eapply NoDup_lookup; [exact Hnd| |]; rewrite lookup_map.
  - rewrite list_lookup_insert_ne by done. rewrite lookup_map, Hx. done.
  - rewrite list_lookup_insert_eq by (rewrite length_map; by eapply lookup_lt_Some).
    simpl. by rewrite Hm.
Qed.

(** [s'] is [s] with the section [ms] in its place: either no section is closed and it is
    appended, or it replaces the first closed one. *)
Definition placed (s : RemoteSdp) (ms : MediaSection) (s' : RemoteSdp) : Prop :=
  (findClosed (mediaSections s) 0 = Ok None /\ AddMediaSection ms s = (Ok tt, s')) \/
  (exists i old, findClosed (mediaSections s) 0 = Ok (Some (i, old)) /\
     GetMid old = Ok (mid_of old) /\ mid_of old <> "" /\
     ReplaceMediaSection ms (mid_of old) s = (Ok tt, s')).

Lemma place_run s ms :
  sdp_inv s -> section_ok ms = true -> closed ms = false ->
  NoDup (map fst (place (mid_of ms) (view s))) ->
  exists s', sdp_inv s' /\ same_transport s s' /\ view s' = place (mid_of ms) (view s) /\
    placed s ms s'.
Proof.
  intros Hinv Hms Hc Hnd. unfold view, placed in *. pose proof (inv_sections _ Hinv) as Hok.
  assert (Hslot : slot ms = (mid_of ms, true)) by (unfold slot; by rewrite Hc).
  destruct (run_findClosed _ 0 Hok) as [[-> Hopen]|(i & old & -> & Hi & Hold & Hlt)].
  - rewrite place_append in * by done. rewrite map_app, map_map in Hnd. simpl in Hnd.
    apply NoDup_app in Hnd as (_ & Hn & _).
    destruct (AddMediaSection_run s ms Hinv Hms Hc) as (s' & Hr & ? & ? & Hs').
    { intros Hin. apply (Hn (mid_of ms)); [by apply list_elem_of_In|]. by left. }
    exists s'. split_and!; try done; [|by left]. rewrite Hs', map_app. simpl. by rewrite Hslot.
  - assert (Hpl : place (mid_of ms) (map slot (mediaSections s)) =
      <[i := slot ms]> (map slot (mediaSections s))).
    { rewrite Hslot. eapply place_reuse; [|exact Hlt]. rewrite lookup_map, Hi. simpl.
      unfold slot. by rewrite Hold. }
    rewrite Hpl in *. pose proof (proj1 (Forall_lookup _ _) Hok _ _ Hi) as Hok'.
    destruct (ReplaceMediaSection_run s i old ms Hinv Hi Hold Hms) as (s' & Hr & ? & ? & Hs').
    { by eapply replaced_fresh. }
    exists s'. split_and!; try done; [by rewrite Hs', view_insert|]. right. exists i, old.
    split_and!; try done; [by apply run_GetMid|].
    by apply section_ok_fields in Hok' as (? & ? & _ & _ & ? & _).
Qed.

(** The same through the index that GetNextMediaSectionIdx returns. *)
Lemma placed_next s ms s' :
  placed s ms s' ->
  exists next, GetNextMediaSectionIdx s = Ok next /\
    (if negb (String.eqb next.2 "") then ReplaceMediaSection ms next.2
     else AddMediaSection ms) s = (Ok tt, s').
Proof.
  unfold GetNextMediaSectionIdx. intros [[-> Hadd]|(i & old & -> & Hg & Hne & Hrep)].
  - by eexists.
  - simpl. rewrite Hg. eexists. split; [done|]. simpl.
    by rewrite (proj2 (String.eqb_neq _ _) Hne).
Qed.

Lemma close_view s i ms ms' :
  sdp_inv s -> mediaSections s !! i = Some ms -> mid_of ms' = mid_of ms ->
  closed ms' = (if Nat.eqb i 0 then false else true) ->
  map slot (<[i := ms']> (mediaSections s)) = close (mid_of ms) (view s).
Proof.
  intros [_ Hnd _ _ Hfi] Hi Hm Hc. unfold view. rewrite view_insert.
  destruct (mediaSections s) as [|x l]; [done|]. destruct i as [|i]; simpl in *.
  - injection Hi as ->. apply NoDup_cons in Hnd as [Hn _]. destruct Hfi as [_ Hx]. f_equal.
    + unfold slot. by rewrite Hm, Hc, Hx.
    + rewrite map_map. apply map_ext_in. intros y Hy. simpl.
      destruct (String.eqb_spec (mid_of y) (mid_of ms)) as [E|E]; [|done].
      exfalso. apply Hn. rewrite <- E. by apply list_elem_of_In, in_map.
  - f_equal. apply NoDup_cons in Hnd as [_ Hnd]. apply list_eq. intros k.
    rewrite lookup_map. destruct (decide (k = i)) as [->|Hk].
    + rewrite list_lookup_insert_eq by (rewrite length_map; by eapply lookup_lt_Some).
      rewrite lookup_map, Hi. simpl. rewrite String.eqb_refl. unfold slot. by rewrite Hm, Hc.
    + rewrite list_lookup_insert_ne by done. rewrite lookup_map.
      destruct (l !! k) as [y|] eqn:Hy; [|done]. simpl.
      destruct (String.eqb_spec (mid_of y) (mid_of ms)) as [E|E]; [|done].
      exfalso. apply Hk. eapply NoDup_lookup; [exact Hnd| |]; rewrite lookup_map;
        [by rewrite Hy|]. rewrite Hi. simpl. by rewrite E.
Qed.

(** ** Updates of all sections *)

Lemma bundle_view l :
  bundle l = String.concat " " (map fst (List.filter snd (map slot l))).
Proof.
  unfold bundle. f_equal. induction l as [|ms l IH]; simpl; [done|].
  destruct (closed ms); simpl; [done|]. by rewrite IH.
Qed.

Lemma view_same l i ms ms' :
  l !! i = Some ms -> slot ms' = slot ms -> map slot (<[i := ms']> l) = map slot l.
Proof. intros Hi Hs. rewrite view_insert, Hs. apply list_insert_id. by rewrite lookup_map, Hi. Qed.

Lemma updateSection_run s f i ms :
  sdp_inv s -> mediaSections s !! i = Some ms -> keeps_section (f ms) ms (closed ms) ->
  exists s', (forall g : M RemoteSdp unit,
      (do! on_section i f in
       let! ms := sectionAt i in
       do! updateMedia i (GetObject ms) in g) s = g s') /\
    sdp_inv s' /\ same_transport s s' /\ view s' = view s.
Proof.
  intros Hinv Hi Hk. pose proof (inv_shows _ Hinv) as Hsh.
  destruct (run_on_section s i ms f _ Hi Hk) as (ms' & Hrun & Hok' & Hm' & Hc').
  destruct (run_updateMedia s _ i ms ms' Hsh Hi) as (o & Hu & Hs1).
  assert (Hslot : slot ms' = slot ms) by (unfold slot; by rewrite Hm', Hc').
  pose proof (view_same _ _ _ _ Hi Hslot) as Hview.
  exists (set_sdpObject o (set_mediaSections (<[i := ms']> (mediaSections s)) s)).
  split; [|split; [|split; [|exact Hview]]].
  - intros g. rewrite (bind_of_ok _ _ _ _ _ Hrun).
    erewrite bind_of_ok
      by (apply run_sectionAt; apply list_lookup_insert_eq; by eapply lookup_lt_Some).
    apply (bind_of_ok _ (fun _ => g) _ tt). unfold updateMedia, on_sdpObject in *. simpl. unfold GetObject.
    destruct (at_key _ _ (sdpObject s)) as [r o']. by injection Hu as -> <-.
  - apply (inv_in_place s i ms); try done.
    + intros ->. rewrite Hc'. pose proof (inv_first _ Hinv) as Hfi.
      destruct (mediaSections s); [done|]. injection Hi as ->. by destruct Hfi.
    + by rewrite bundle_view, Hview, <- bundle_view.
  - by split_and!.
Qed.

Lemma same_transport_trans s1 s2 s3 :
  same_transport s1 s2 -> same_transport s2 s3 -> same_transport s1 s3.
Proof. intros (? & ? & ? & ?) (? & ? & ? & ?). split_and!; congruence. Qed.

Lemma updateSections_run f n idx s :
  (forall ms, section_ok ms = true -> keeps_section (f ms) ms (closed ms)) ->
  sdp_inv s -> (idx + n)%nat = length (mediaSections s) ->
  exists s', updateSections f n idx s = (Ok tt, s') /\
    sdp_inv s' /\ same_transport s s' /\ view s' = view s.
Proof.
  intros Hf. revert idx s. induction n as [|n IH]; intros idx s Hinv Hlen; simpl.
  - exists s. by split_and!.
  - destruct (mediaSections s !! idx) as [ms|] eqn:Hi; [|apply lookup_ge_None in Hi; lia].
    pose proof (proj1 (Forall_lookup _ _) (inv_sections _ Hinv) _ _ Hi) as Hok.
    destruct (updateSection_run s f idx ms Hinv Hi (Hf _ Hok)) as (s1 & H1 & Hinv1 & Ht1 & Hv1).
    assert (Hl1 : length (mediaSections s1) = length (mediaSections s)).
    { apply (f_equal length) in Hv1. unfold view in Hv1. by rewrite !length_map in Hv1. }
    destruct (IH (S idx) s1 Hinv1) as (s2 & H2 & Hinv2 & Ht2 & Hv2); [lia|].
    exists s2. split_and!; [|done|by eapply same_transport_trans|congruence].
    by rewrite H1.
Qed.

(** The members other than the sections may be set. *)
Lemma inv_same s s' :
  sdp_inv s -> mediaSections s' = mediaSections s -> midToIndex s' = midToIndex s ->
  firstMid s' = firstMid s -> shows (mediaSections s) (bundle (mediaSections s)) (sdpObject s') ->
  sdp_inv s'.
Proof.
  intros [Hok Hnd Hix Hsh Hfi] Hm Hi Hf Ho. split; by rewrite ?Hm, ?Hi, ?Hf.
Qed.

Lemma shows_insert l b k v o :
  k <> "media" -> k <> "groups" -> k <> "origin" ->
  shows l b (JObject o) -> shows l b (JObject (obj_insert k v o)).
Proof.
  intros H1%String.eqb_neq H2%String.eqb_neq H3%String.eqb_neq
    (? & g & gs & w & [= <-] & Hme & Hg & Hmi & Hvn & Hna & Hor).
  rewrite String.eqb_sym in H1, H2, H3.
  exists (obj_insert k v o), g, gs, w. split; [done|].
  rewrite !obj_find_insert, H1, H2, H3. split_and!; try done; case_match; eauto.
Qed.

Lemma run_setIceLite {B} ice (g : unit -> M RemoteSdp B) s l b :
  shows l b (sdpObject s) ->
  exists o, bind (setIceLite ice) g s = g tt (set_sdpObject o s) /\ shows l b o /\
    o = on_object (obj_set_if (contains "iceLite" ice) "icelite" (JString "ice-lite")) (sdpObject s).
Proof.
  intros Hs. pose proof Hs as (o & _ & _ & _ & Eo & _). unfold setIceLite.
  destruct (contains "iceLite" ice); simpl.
  - exists (JObject (obj_insert "icelite" (JString "ice-lite") o)). split_and!.
    + unfold bind, on_sdpObject. by rewrite Eo.
    + rewrite Eo in Hs. by apply shows_insert.
    + by rewrite Eo.
  - exists (sdpObject s). split_and!; [by destruct s|done|by rewrite Eo].
Qed.

(** ** Construction *)

(** The transport parameters the sections are built from. *)
Record transport_inv (sctp : json) (s : RemoteSdp) : Prop := {
  inv_ice : acceptsIceParameters (iceParameters s) = true;
  inv_candidates : array_of acceptsIceCandidate (iceCandidates s) = true;
  inv_role : exists d role, dtlsParameters s = JObject d /\
    obj_find "role" d = Some (JString role);
  inv_sctp : sctpParameters s = sctp
}.

Lemma same_transport_inv sctp s s' :
  same_transport s s' -> transport_inv sctp s -> transport_inv sctp s'.
Proof. intros (Hi & Hc & Hd & Hs) []. split; by rewrite ?Hi, ?Hc, ?Hd, ?Hs. Qed.

(** The last fingerprint is read without changing the parameters. *)
Lemma run_latestFingerprint d fps fp :
  obj_find "fingerprints" d = Some (JArray fps) -> last fps = Some fp ->
  acceptsDtlsFingerprint fp = true ->
  latestFingerprint (JObject d) = (Ok (field "algorithm" fp, field "value" fp), JObject d).
Proof.
  intros Hf Hl Ha. destruct fp as [| | | | | | |fm]; try done. simpl in Ha. unfold text_at in Ha.
  apply andb_true_iff in Ha as [Hal Hva]. unfold field. rewrite !find_object.
  destruct (obj_find "algorithm" fm) as [al|] eqn:Eal; [|done].
  destruct (obj_find "value" fm) as [va|] eqn:Eva; [|done].
  unfold latestFingerprint.
  rewrite (bind_of_ok _ _ _ (length fps) (JObject d)).
  2: { erewrite run_at_key; [|exact Hf|reflexivity]. by rewrite obj_replace_id. }
  rewrite last_lookup in Hl. destruct (length fps) as [|n] eqn:En; [by destruct fps|].
  simpl in Hl.
  assert (Hread : forall k v, obj_find k fm = Some v ->
    at_key "fingerprints" (at_idx n (ref k)) (JObject d) = (Ok v, JObject d)).
  { intros k v Hk. erewrite run_at_key; [|exact Hf|].
    2: { eapply run_at_idx; [exact Hl|by apply run_ref]. }
    rewrite list_insert_id by done. by rewrite obj_replace_id. }
  by rewrite (bind_of_ok _ _ _ _ _ (Hread _ _ Eal)), (bind_of_ok _ _ _ _ _ (Hread _ _ Eva)).
Qed.

Lemma empty_inv s :
  mediaSections s = [] -> midToIndex s = ∅ -> firstMid s = "" -> shows [] "" (sdpObject s) ->
  sdp_inv s.
Proof.
  intros Hm Hi Hf Hs. split; rewrite ?Hm, ?Hi, ?Hf; try done; [constructor|].
  intros mid i. rewrite lookup_empty. split; [done|]. by intros (ms & ? & _).
Qed.

Lemma RemoteSdp_new_run ice candidates dtls sctp :
  acceptsIceParameters ice = true -> array_of acceptsIceCandidate candidates = true ->
  acceptsDtlsParameters dtls = true ->
  exists s, RemoteSdp_new ice candidates dtls sctp = Ok s /\ sdp_inv s /\
    transport_inv sctp s /\ view s = [] /\
    field "icelite" (sdpObject s) =
      (if contains "iceLite" ice then JString "ice-lite" else JNull).
Proof.
  intros Hi Hc Hd. destruct dtls as [| | | | | | |d]; try done. simpl in Hd. unfold text_at in Hd.
  rewrite !andb_true_iff in Hd. destruct Hd as (((Hr & _) & Hne) & Hfp).
  destruct (obj_find "role" d) as [[| | | | |role| |]|] eqn:Er; try done.
  destruct (obj_find "fingerprints" d) as [[| | | | | |fps|]|] eqn:Ef; try done.
  destruct (last fps) as [fp|] eqn:El; [|apply last_None in El as ->; done].
  assert (Ha : acceptsDtlsFingerprint fp = true).
  { simpl in Hfp. rewrite forallb_forall in Hfp. apply Hfp.
    apply last_Some in El as [l ->]. apply in_app_iff. right. by left. }
  unfold RemoteSdp_new. rewrite (run_latestFingerprint d fps fp Ef El Ha). simpl.
  unfold RemoteSdp_init. rewrite run_bind_get. unfold setIceLite. simpl iceParameters.
  destruct (contains "iceLite" ice); eexists; (split; [reflexivity|]);
    (split; [apply empty_inv; try done|split; [split; try done; eauto|done]]);
    do 4 eexists; (split; [reflexivity|]); (split; [reflexivity|]); (split; [reflexivity|]);
    (split; [reflexivity|]); (split; [by eexists|]); (split; [by eexists|]); eexists; by split_and!.
Qed.

(**  An ICE-lite server is announced for every transport whose ICE parameters
    went through validation, whatever their [iceLite] is: the validator fills the
    key in and the constructor only looks whether it is there. *)
Theorem RemoteSdp_always_ice_lite (ice ice' candidates dtls sctp : json)
    (Hice : validateIceParameters ice = (Ok tt, ice'))
    (Hcandidates : array_of acceptsIceCandidate candidates = true)
    (Hdtls : acceptsDtlsParameters dtls = true) :
  exists s, RemoteSdp_new ice' candidates dtls sctp = Ok s /\
    field "icelite" (sdpObject s) = JString "ice-lite".
Proof.
  apply validator_ok_iff in Hice as [Hi ->].
  destruct (RemoteSdp_new_run (normIceParameters ice) candidates dtls sctp)
    as (s & Hs & _ & _ & _ & Hl); try done.
  { destruct ice; try done. simpl in *. unfold text_at in *. by lookups. }
  exists s. split; [done|]. rewrite Hl. destruct ice as [| | | | | | |m]; try done.
  unfold contains. simpl. rewrite bool_decide_eq_true_2; [done|]. lookups.
  destruct (obj_find "iceLite" m) as [[]|]; simpl; eauto.
Qed.

Lemma RemoteSdp_always_ice_lite_witness :
  exists s, RemoteSdp_new (on_object (obj_insert "iceLite" (JBool false)) sampleIce)
      sampleCandidates sampleDtls JNull = Ok s /\
    field "icelite" (sdpObject s) = JString "ice-lite".
Proof.
  apply (RemoteSdp_always_ice_lite (on_object (obj_insert "iceLite" (JBool false)) sampleIce));
    vm_compute; reflexivity.
Defined.

(** ** The operations of the handlers *)

Inductive op :=
| OpReceive (mid kind : string) (rtpParameters : json) (streamId trackId : string)
| OpRecvSctp
| OpSend (offerMediaObject offerRtpParameters answerRtpParameters : json)
    (codecOptions : option json)
| OpSendSctp (offerMediaObject : json)
| OpClose (mid : string)
| OpUpdateIce (ice : json)
| OpUpdateDtls (role : string)
| OpGetSdp.

(** The calls of the handlers.  A section is sent at the index the handler asked
    for before; the text of [GetSdp] goes to the caller, its
    exceptions are those of the call. *)
Definition perform (o : op) : M RemoteSdp unit :=
  match o with
  | OpReceive mid kind p streamId trackId => Receive mid kind p streamId trackId
  | OpRecvSctp => RecvSctpAssociation
  | OpSend object offer answer options =>
      let! s := get in
      let! next := lift (GetNextMediaSectionIdx s) in
      fun s =>
        let '(r, (s', _)) := Send object next.2 options (s, (offer, answer)) in (r, s')
  | OpSendSctp object => SendSctpAssociation object
  | OpClose mid => CloseMediaSection mid
  | OpUpdateIce ice => UpdateIceParameters ice
  | OpUpdateDtls role => UpdateDtlsRole role
  | OpGetSdp => let! _ := GetSdp in ret tt
  end.

Definition distinct (v : session) : bool := bool_decide (NoDup (map fst v)).

(** No codec options: a null pointer or an empty object. *)
Definition no_options (options : option json) : bool :=
  match options with Some o => empty o | None => true end.

(** What a handler guarantees before a call, in terms of the abstract session. *)
Definition allowed (sctp : json) (v : session) (o : op) : bool :=
  match o with
  | OpReceive mid kind p _ _ =>
      negb (String.eqb mid "") && is_media kind && offerable p && distinct (place mid v)
  | OpRecvSctp => acceptsSctpParameters sctp && distinct (v ++ [("datachannel", true)])
  | OpSend object _ answer options =>
      no_options options && answerable object && answerParametersOk answer && distinct (place (text "mid" object) v)
  | OpSendSctp object =>
      applicationOk object && acceptsSctpParameters sctp &&
      distinct (v ++ [(text "mid" object, true)])
  | OpClose mid => existsb (String.eqb mid) (map fst v)
  | OpUpdateIce ice => acceptsIceParameters ice
  | OpUpdateDtls _ | OpGetSdp => true
  end.

(** The effect of a call on the abstract session. *)
Definition effect (v : session) (o : op) : session :=
  match o with
  | OpReceive mid _ _ _ _ => place mid v
  | OpRecvSctp => v ++ [("datachannel", true)]
  | OpSend object _ _ _ => place (text "mid" object) v
  | OpSendSctp object => v ++ [(text "mid" object, true)]
  | OpClose mid => close mid v
  | OpUpdateIce _ | OpUpdateDtls _ | OpGetSdp => v
  end.

(** [s] implements the abstract session [v]. *)
Definition implements (sctp : json) (v : session) (s : RemoteSdp) : Prop :=
  sdp_inv s /\ transport_inv sctp s /\ view s = v.

Lemma append_run sctp s ms :
  implements sctp (view s) s -> section_ok ms = true -> closed ms = false ->
  distinct (view s ++ [(mid_of ms, true)]) = true ->
  exists s', AddMediaSection ms s = (Ok tt, s') /\
    implements sctp (view s ++ [(mid_of ms, true)]) s'.
Proof.
  intros (Hinv & Ht & _) Hms Hc Hd. apply bool_decide_eq_true in Hd. rewrite map_app in Hd.
  apply NoDup_app in Hd as (_ & Hn & _). simpl in Hn. unfold view in Hn. rewrite map_map in Hn.
  destruct (AddMediaSection_run s ms Hinv Hms Hc) as (s' & -> & ? & ? & Hs').
  { intros Hin. apply (Hn (mid_of ms)); [by apply list_elem_of_In|]. by left. }
  exists s'. split; [done|]. split_and!; [done|by eapply same_transport_inv|].
  unfold view. rewrite Hs', map_app. simpl. unfold slot at 2. by rewrite Hc.
Qed.

Lemma Receive_refines sctp s mid kind p streamId trackId :
  implements sctp (view s) s -> mid <> "" -> is_media kind = true -> offerable p = true ->
  distinct (place mid (view s)) = true ->
  exists s', Receive mid kind p streamId trackId s = (Ok tt, s') /\
    implements sctp (place mid (view s)) s'.
Proof.
  intros (Hinv & Ht & _) Hm Hk Hp Hd. apply bool_decide_eq_true in Hd. unfold Receive.
  rewrite run_bind_get. pose proof Ht as [Hi Hc _ _].
  rewrite (bind_lift _ _ _ _ (run_OfferMediaSection _ _ _ _ _ _ streamId trackId Hi Hc Hk Hp)).
  destruct (offered_section (iceParameters s) (iceCandidates s) JNull mid kind p streamId trackId Hm)
    as (Hok & Hmid & Hcl).
  destruct (place_run s _ Hinv Hok Hcl) as (s' & Hinv' & Ht' & Hv' & Hrun); [by rewrite Hmid|].
  rewrite Hmid in Hv'. exists s'. split; [|split_and!; [done|by eapply same_transport_inv|done]].
  destruct Hrun as [[-> Hr]|(i & old & -> & Hg & _ & Hr)]; rewrite (bind_lift _ _ _ _ eq_refl);
    [done|]. by rewrite (bind_lift _ _ _ _ Hg).
Qed.

Lemma AnswerMediaSection_no_options options ice candidates dtls sctp object :
  no_options options = true ->
  AnswerMediaSection ice candidates dtls sctp object options =
  AnswerMediaSection ice candidates dtls sctp object None.
Proof.
  destruct options as [o|]; [|done]. intros He. simpl in He.
  unfold AnswerMediaSection, AnswerMediaSection_init, answerMedia, answerCodec, optionedParameters.
  by rewrite He.
Qed.

Lemma Send_refines sctp s object offer answer options :
  implements sctp (view s) s -> no_options options = true -> answerable object = true -> answerParametersOk answer = true ->
  distinct (place (text "mid" object) (view s)) = true ->
  exists s', perform (OpSend object offer answer options) s = (Ok tt, s') /\
    implements sctp (place (text "mid" object) (view s)) s'.
Proof.
  intros (Hinv & Ht & _) Hopt Ho Hp Hd. apply bool_decide_eq_true in Hd. cbn [perform].
  rewrite run_bind_get. pose proof Ht as [Hi Hc (d & role & Hdt & Hr) _].
  set (ms := {| sectionKind := AnswerKind; mediaObject := JObject (answeredFields object answer
    (answerHead (iceParameters s) (iceCandidates s) role object)) |}).
  destruct (answered_section (iceParameters s) (iceCandidates s) role object answer Ho)
    as (Hok & Hmid & Hcl).
  destruct (place_run s ms Hinv Hok Hcl) as (s' & Hinv' & Ht' & Hv' & Hrun).
  { subst ms. by rewrite Hmid. }
  subst ms. rewrite Hmid in Hv'.
  exists s'. split; [|split_and!; [done|by eapply same_transport_inv|done]].
  assert (Hans : forall sc, AnswerMediaSection (iceParameters s) (iceCandidates s) (dtlsParameters s)
    sc object None (offer, answer) = _) by (intros sc; by apply (run_AnswerMediaSection _ _ _ sc _ role);
      rewrite ?Hdt).
  apply placed_next in Hrun as (next & Hnext & Hrun'). rewrite (bind_lift _ _ _ _ Hnext). unfold Send.
  rewrite run_bind_get, (AnswerMediaSection_no_options _ _ _ _ _ _ Hopt).
  rewrite (bind_on_snd _ _ _ _ _ _ (Hans _)).
  by rewrite (run_on_fst _ _ _ _ _ Hrun').
Qed.

Lemma Close_refines sctp s mid :
  implements sctp (view s) s -> existsb (String.eqb mid) (map fst (view s)) = true ->
  exists s', CloseMediaSection mid s = (Ok tt, s') /\ implements sctp (close mid (view s)) s'.
Proof.
  intros (Hinv & Ht & _) (m & Hin & <-%String.eqb_eq)%existsb_exists.
  unfold view in Hin. rewrite map_map in Hin. apply in_map_iff in Hin as (ms & <- & Hin).
  apply list_elem_of_In, list_elem_of_lookup_1 in Hin as [i Hi].
  destruct (CloseMediaSection_run s i ms Hinv Hi) as (ms' & s' & Hr & Hinv' & Ht' & Hs' & Hm & Hc).
  exists s'. split; [exact Hr|]. split_and!; [done|by eapply same_transport_inv|].
  unfold view at 1. rewrite Hs'. by apply close_view.
Qed.

Lemma UpdateIce_refines sctp s ice :
  implements sctp (view s) s -> acceptsIceParameters ice = true ->
  exists s', UpdateIceParameters ice s = (Ok tt, s') /\ implements sctp (view s) s' /\
    iceParameters s' = ice.
Proof.
  intros (Hinv & Ht & _) Hi. unfold UpdateIceParameters. rewrite run_modify.
  destruct (run_setIceLite ice (fun _ => let! s := get in
    updateSections (fun _ => SetIceParameters ice) (length (mediaSections s)) 0)
    (set_iceParameters ice s) _ _ (inv_shows _ Hinv)) as (o & -> & Hs & _).
  rewrite run_bind_get. set (s1 := set_sdpObject o (set_iceParameters ice s)).
  assert (Hinv1 : sdp_inv s1) by (by eapply (inv_same s)).
  destruct (updateSections_run (fun _ => SetIceParameters ice) (length (mediaSections s1)) 0 s1)
    as (s' & Hr & Hinv' & Ht' & Hv'); [|done|done|].
  { intros ms Hms. by apply SetIceParameters_keeps. }
  exists s'. split_and!; [exact Hr|split_and!; [done| |by rewrite Hv']|by destruct Ht' as (-> & _)].
  eapply same_transport_inv; [exact Ht'|]. destruct Ht. by split.
Qed.

Lemma UpdateDtls_refines sctp s role :
  implements sctp (view s) s ->
  exists s', UpdateDtlsRole role s = (Ok tt, s') /\ implements sctp (view s) s' /\
    find "role" (dtlsParameters s') = Some (JString role).
Proof.
  intros (Hinv & Ht & _). pose proof Ht as [Hi Hc (d & role0 & Hd & _) Hsc]. unfold UpdateDtlsRole.
  rewrite run_bind_get, Hd. change (set_key "role" (JString role) (JObject d)) with
    (Ok (A := unit) tt, JObject (obj_insert "role" (JString role) d)). cbv iota beta.
  rewrite run_modify, (bind_lift _ _ _ tt) by done.
  set (s0 := set_dtlsParameters _ s).
  destruct (run_setIceLite (iceParameters s) (fun _ =>
    updateSections (fun ms => SetDtlsRole (sectionKind ms) role) (length (mediaSections s)) 0)
    s0 _ _ (inv_shows _ Hinv)) as (o & -> & Hs & _).
  set (s1 := set_sdpObject o s0).
  assert (Hinv1 : sdp_inv s1) by (by eapply (inv_same s)).
  destruct (updateSections_run (fun ms => SetDtlsRole (sectionKind ms) role)
    (length (mediaSections s)) 0 s1) as (s' & Hr & Hinv' & Ht' & Hv'); [|done|done|].
  { intros ms Hms. by apply SetDtlsRole_keeps. }
  exists s'. split_and!; [exact Hr|split_and!; [done| |by rewrite Hv']|].
  - eapply same_transport_inv; [exact Ht'|]. split; try done.
    exists (obj_insert "role" (JString role) d), role. split; [done|]. by lookups.
  - destruct Ht' as (_ & _ & -> & _). unfold s1, s0. simpl. by lookups.
Qed.

(** The session version of the SDP object. *)
Definition sessionVersion (s : RemoteSdp) : Z :=
  number (field "sessionVersion" (field "origin" (sdpObject s))).

(** An object with all that [complete] would add is written as it is. *)
Definition completed (object : json) : Prop :=
  exists o media, object = JObject o /\ is_Some (obj_find "version" o) /\
    is_Some (obj_find "name" o) /\ obj_find "media" o = Some (JArray media) /\
    forallb (contains "payloads") media = true.

Lemma ensure_present k v j : contains k j = true -> ensure k v j = (Ok tt, j).
Proof. intros H. unfold ensure. by rewrite run_bind_get, H. Qed.

Lemma each_present k v l :
  forallb (contains k) l = true -> each (ensure k v) l = (Ok tt, l).
Proof.
  induction l as [|j l IH]; [done|]. cbn [forallb each]. intros [Hj Hl]%andb_true_iff.
  by rewrite (ensure_present k v j Hj), (IH Hl).
Qed.

Lemma write_complete object : completed object -> write object = (writeSession object, object).
Proof.
  intros (o & media & -> & Hv & Hn & Hm & Hp). unfold write, complete.
  assert (Hc : forall k v, is_Some (obj_find k o) -> ensure k v (JObject o) = (Ok tt, JObject o)).
  { intros k v H. apply ensure_present. unfold contains. by rewrite bool_decide_true. }
  assert (Hmedia : at_it "media" (for_each (ensure "payloads" (JString ""))) (JObject o) =
    (Ok tt, JObject o)).
  { unfold at_it. rewrite Hm. unfold for_each. rewrite (each_present _ _ _ Hp).
    by rewrite (obj_replace_id _ _ _ Hm). }
  rewrite run_bind_get. unfold bind. cbn [is_object negb throw_if ret].
  rewrite (Hc "version" _ Hv), (Hc "name" _ Hn), (Hc "media" _ ltac:(eauto)), Hmedia. done.
Qed.

Lemma section_payloads ms : section_ok ms = true -> contains "payloads" (mediaObject ms) = true.
Proof.
  intros (m & p & -> & _ & _ & _ & _ & l & Hl)%section_ok_fields. unfold contains. cbn [find].
  rewrite Hl. by rewrite bool_decide_true by eauto.
Qed.

(** *** The text of an object

    Every rule that has no format has a function that makes one. *)
Lemma formats_total type rules :
  rulesMap type = Some rules ->
  Forall (fun r => format r = "" -> is_Some (formatFunc r)) rules.
Proof.
  intros H. apply List.Forall_forall. intros r Hr Hf.
  assert (Hall : forallb (fun r => negb (String.eqb (format r) "") ||
    match formatFunc r with Some _ => true | None => false end) rules = true).
  { unfold rulesMap in H. repeat case_match; try done; by injection H as <-. }
  rewrite forallb_forall in Hall. specialize (Hall _ Hr). rewrite Hf in Hall. simpl in Hall.
  by destruct (formatFunc r).
Qed.

Lemma concat_returns {A} (f : A -> result string) l :
  (forall x, In x l -> exists text, f x = Ok text) -> exists text, concat_results f l = Ok text.
Proof.
  induction l as [|x l IH]; intros Hf; simpl; [by eexists|].
  destruct (Hf x) as [t ->]; [by left|]. destruct IH as [t' ->]; [intros; apply Hf; by right|].
  by eexists.
Qed.

Lemma fill_returns ps args :
  Forall (fun a => stored a = true) args -> exists text, fill ps args = Ok text.
Proof.
  intros Ha. revert args Ha. induction ps as [|[prefix str] ps IH]; intros args Ha; simpl; [by eexists|].
  destruct Ha as [|a args Hst Ha]; simpl.
  - destruct (IH []) as [t ->]; [constructor|]. by eexists.
  - assert (Harg : exists t, arg_text a = Ok t)
      by (destruct a; try (by eexists); by apply dump_stored).
    destruct (IH args Ha) as [t ->], Harg as [t' ->].
    destruct (String.eqb str "%%"), (String.eqb str "%s"), (String.eqb str "%d"); by eexists.
Qed.

Lemma stored_find k j v : stored j = true -> find k j = Some v -> stored v = true.
Proof.
  destruct j as [| | | | | | |m]; try done. cbn [stored find]. intros [_ Hm]%andb_true_iff.
  induction m as [|[k' v'] m IH]; simpl in *; [done|]. apply andb_true_iff in Hm as [Hv Hm].
  destruct (String.eqb k k'); [|auto]. intros [= ->]. by apply andb_true_iff in Hv as [_ ?].
Qed.

Lemma lineArgs_stored rule location :
  stored location = true -> Forall (fun a => stored a = true) (lineArgs rule location).
Proof.
  intros Hl. unfold lineArgs.
  assert (Harg : forall n, stored (lineArg rule location n) = true).
  { intros n. unfold lineArg. destruct (if String.eqb _ _ then _ else _) as [v|] eqn:E.
    - repeat case_match; try done. by do 2 (eapply stored_find; [|eassumption]).
    - destruct (find n location) eqn:Hn; [|done]. by eapply stored_find. }
  destruct (names rule) as [|n ns].
  - destruct (find _ location) eqn:Hn; constructor; [|constructor]. by eapply stored_find.
  - apply List.Forall_forall. by intros a (n' & <- & _)%in_map_iff.
Qed.

(** A line is written when its rule pushes entries, or its entry is there. *)
Lemma makeLine_returns type rule location :
  (format rule = "" -> is_Some (formatFunc rule)) -> stored location = true ->
  (push rule = "" -> name rule <> "" -> is_Some (find (name rule) location)) ->
  exists text, makeLine type rule location = Ok text.
Proof.
  intros Hf Hl Hn. unfold makeLine.
  assert (exists f, lineFormat rule location = Ok f) as [f ->].
  { unfold lineFormat. destruct (String.eqb_spec (format rule) ""); [|by eexists].
    destruct (Hf ltac:(done)) as [g ->]. destruct (String.eqb_spec (push rule) ""); [|by eexists].
    simpl. destruct (String.eqb_spec (name rule) ""); [by eexists|]. simpl.
    destruct (Hn ltac:(done) ltac:(done)) as [v Hv]. destruct location; try done. simpl in *. rewrite Hv.
    by eexists. }
  cbn. destruct (fill_returns (placeholders f) _ (lineArgs_stored rule _ Hl)) as [t ->]. by eexists.
Qed.

Lemma writeRule_returns type location rule :
  (format rule = "" -> is_Some (formatFunc rule)) -> stored location = true ->
  exists text, writeRule type location rule = Ok text.
Proof.
  intros Hf Hl. unfold writeRule. destruct (if String.eqb _ _ then _ else _) eqn:E.
  - apply makeLine_returns; [done..|]. intros _ _. destruct (String.eqb _ _); [done|].
    by destruct (find _ _).
  - destruct (String.eqb_spec (push rule) ""); [by eexists|].
    destruct (find (push rule) location) as [[| | | | | |l|]|] eqn:Hp; try by eexists.
    pose proof (stored_find _ _ _ Hl Hp) as Hst. apply concat_returns. intros x Hx.
    apply makeLine_returns; [done| |by intros ?]. cbn in Hst. rewrite forallb_forall in Hst. auto.
Qed.

Lemma writeTypes_returns order location :
  forallb (fun c => bool_decide (is_Some (rulesMap c))) order = true -> stored location = true ->
  exists text, writeTypes order location = Ok text.
Proof.
  intros Ho Hl. apply concat_returns. intros c Hc. rewrite forallb_forall in Ho.
  specialize (Ho c Hc). apply bool_decide_eq_true in Ho as [rules Hr]. rewrite Hr.
  pose proof (formats_total _ _ Hr) as Hf. rewrite List.Forall_forall in Hf.
  apply concat_returns. intros r Hin. apply writeRule_returns; auto.
Qed.

Lemma writeSession_returns o media :
  obj_find "media" o = Some (JArray media) -> stored (JObject o) = true ->
  exists text, writeSession (JObject o) = Ok text.
Proof.
  intros Hm Hst. unfold writeSession.
  destruct (writeTypes_returns OuterOrder (JObject o)) as [t ->]; [done..|].
  cbn [result_bind at_]. rewrite Hm. cbn.
  pose proof (stored_find "media" _ _ Hst Hm) as Hl. cbn in Hl. rewrite forallb_forall in Hl.
  destruct (concat_returns writeMedia media) as [t' ->]; [|by eexists].
  intros m Hin. unfold writeMedia.
  match goal with |- context [makeLine ?c _ _] =>
    destruct (makeLine_returns c mediaRule m) as [t1 ->]; [by eexists|auto|done|] end.
  destruct (writeTypes_returns InnerOrder m) as [t2 ->]; [done|auto|]. by eexists.
Qed.

(** Nothing but the session version of the SDP object is new. *)
Definition version_only (s s' : RemoteSdp) : Prop :=
  s' = set_sdpObject (sdpObject s') s /\
  (forall k, k <> "origin" -> find k (sdpObject s') = find k (sdpObject s)) /\
  (forall k, k <> "sessionVersion" ->
     find k (field "origin" (sdpObject s')) = find k (field "origin" (sdpObject s))).

Lemma GetSdp_run sctp s :
  implements sctp (view s) s ->
  exists s', GetSdp s = (writeSession (sdpObject s'), s') /\ implements sctp (view s) s' /\
    version_only s s' /\ sessionVersion s' = uint 32 (sessionVersion s + 1).
Proof.
  intros (Hinv & Ht & _). pose proof (inv_shows _ Hinv) as
    (o & g & gs & v & Eo & Hme & Hg & Hmi & Hvn & Hna & origin & Hor & Hv & Hn).
  unfold GetSdp. rewrite (bind_of_ok _ _ _ (uint 32 (number v)) s).
  2: { unfold on_sdpObject. rewrite Eo.
       erewrite run_at_key; [|exact Hor|erewrite run_at_key; [|exact Hv|reflexivity]; reflexivity].
       rewrite (get_uint_number _ _ Hn), (obj_replace_id _ _ _ Hv), (obj_replace_id _ _ _ Hor). by rewrite <- Eo; destruct s. }
  set (origin' := obj_insert "sessionVersion" (JUInt (uint 32 (uint 32 (number v) + 1))) origin).
  set (s' := set_sdpObject (JObject (obj_replace "origin" (JObject origin') o)) s).
  rewrite (bind_of_ok _ _ _ tt s').
  2: { unfold on_sdpObject. rewrite Eo. erewrite run_at_key; [|exact Hor|reflexivity]. done. }
  exists s'. split.
  { unfold on_sdpObject. rewrite write_complete; [by destruct s'|].
    exists (obj_replace "origin" (JObject origin') o), (map mediaObject (mediaSections s)).
    lookups. split_and!; try done. apply forallb_forall. intros m (ms & <- & Hin)%in_map_iff.
    apply section_payloads. pose proof (inv_sections _ Hinv) as Hok. rewrite List.Forall_forall in Hok. auto. }
  split; [|split; [split; [by destruct s|split]|]].
  - split; [|split; [by destruct Ht|done]].
    eapply (inv_same s); try done. exists (obj_replace "origin" (JObject origin') o), g, gs.
    eexists. split; [done|]. lookups. split_and!; try done. exists origin'.
    rewrite Hor. split_and!; [done| |]; [subst origin'; by lookups|done].
  - intros k Hk%String.eqb_neq. unfold s'. simpl sdpObject. rewrite Eo, !find_object. lookups.
    by rewrite Hk.
  - intros k Hk%String.eqb_neq. unfold field, s'. simpl sdpObject. rewrite Eo, !find_object. lookups.
    rewrite Hor. simpl. unfold origin'. lookups. by rewrite Hk.
  - unfold sessionVersion, field, s'. simpl sdpObject. rewrite Eo, !find_object. lookups.
    rewrite Hor. simpl. rewrite Hv. unfold origin'. lookups.
    unfold uint. by rewrite Zplus_mod_idemp_l.
Qed.

Lemma RecvSctp_refines sctp s :
  implements sctp (view s) s -> acceptsSctpParameters sctp = true ->
  distinct (view s ++ [("datachannel", true)]) = true ->
  exists s', RecvSctpAssociation s = (Ok tt, s') /\
    implements sctp (view s ++ [("datachannel", true)]) s'.
Proof.
  intros Himp Hs Hd. pose proof Himp as (_ & [Hi Hc _ Hsc] & _). unfold RecvSctpAssociation.
  rewrite run_bind_get, Hsc.
  rewrite (bind_lift _ _ _ _ (run_OfferMediaSection_sctp _ _ _ "datachannel" JNull "" "" Hi Hc Hs)).
  destruct (offered_sctp_section (iceParameters s) (iceCandidates s) sctp "datachannel")
    as (Hok & Hmid & Hcl); [done|].
  destruct (append_run sctp s _ Himp Hok Hcl) as (s' & -> & Himp'); rewrite Hmid in *; [done|].
  by exists s'.
Qed.

Lemma SendSctp_refines sctp s object :
  implements sctp (view s) s -> applicationOk object = true -> acceptsSctpParameters sctp = true ->
  distinct (view s ++ [(text "mid" object, true)]) = true ->
  exists s', SendSctpAssociation object s = (Ok tt, s') /\
    implements sctp (view s ++ [(text "mid" object, true)]) s'.
Proof.
  intros Himp Ho Hs Hd. pose proof Himp as (_ & [Hi Hc (d & role & Hdt & Hr) Hsc] & _).
  unfold SendSctpAssociation. rewrite run_bind_get, Hsc, Hdt.
  rewrite (bind_lift _ _ _ _ (run_AnswerMediaSection_sctp _ _ (JObject d) _ _ role Hi Hc Hr Ho Hs)).
  destruct (answered_sctp_section (iceParameters s) (iceCandidates s) role object sctp Ho)
    as (Hok & Hmid & Hcl).
  destruct (append_run sctp s _ Himp Hok Hcl) as (s' & -> & Himp'); rewrite Hmid in *; [done|].
  by exists s'.
Qed.

(** Every allowed call but [GetSdp] succeeds, and all keep the object in step. *)
Lemma perform_implements sctp v s o :
  implements sctp v s -> allowed sctp v o = true ->
  implements sctp (effect v o) (snd (perform o s)) /\ (o <> OpGetSdp -> fst (perform o s) = Ok tt).
Proof.
  intros Himp Ha. assert (view s = v) as <- by apply Himp.
  assert (Hdone : forall v', (exists s', perform o s = (Ok tt, s') /\ implements sctp v' s') ->
    implements sctp v' (snd (perform o s)) /\ (o <> OpGetSdp -> fst (perform o s) = Ok tt))
    by (by intros v' (s' & -> & ?)).
  destruct o; cbn [allowed effect] in *; rewrite ?andb_true_iff in Ha;
    [apply Hdone; cbn [perform] in *..|].
  - destruct Ha as (((Hm & ?) & ?) & ?). apply Receive_refines; try done.
    intros ->. by rewrite String.eqb_refl in Hm.
  - destruct Ha. by apply RecvSctp_refines.
  - destruct Ha as [[[? ?] ?] ?]. by apply Send_refines.
  - destruct Ha as [[? ?] ?]. by apply SendSctp_refines.
  - by apply Close_refines.
  - destruct (UpdateIce_refines sctp s ice Himp Ha) as (s' & ? & ? & _). eauto.
  - destruct (UpdateDtls_refines sctp s role Himp) as (s' & ? & ? & _). eauto.
  - split; [|done]. destruct (GetSdp_run sctp s Himp) as (s' & Hs & ? & _).
    cbn [perform]. unfold bind. rewrite Hs. by destruct (writeSession _).
Qed.

(** A sequence of calls, with the outcome of each: after a call that threw the
    handler may call again. *)
Fixpoint perform_all (l : list op) (s : RemoteSdp) : list (result unit) * RemoteSdp :=
  match l with
  | [] => ([], s)
  | o :: l =>
      let '(r, s1) := perform o s in
      let '(rs, s') := perform_all l s1 in (r :: rs, s')
  end.
Fixpoint all_allowed (sctp : json) (v : session) (l : list op) : bool :=
  match l with
  | [] => true
  | o :: l => allowed sctp v o && all_allowed sctp (effect v o) l
  end.

(** The outcomes of the calls: only [GetSdp] may fail. *)
Definition succeed (ops : list op) (outcomes : list (result unit)) : Prop :=
  Forall2 (fun o r => o <> OpGetSdp -> r = Ok tt) ops outcomes.

Lemma perform_all_implements sctp l v s :
  implements sctp v s -> all_allowed sctp v l = true ->
  exists rs s', perform_all l s = (rs, s') /\ succeed l rs /\
    implements sctp (foldl effect v l) s'.
Proof.
  revert v s. induction l as [|o l IH]; intros v s Himp Ha; simpl in *.
  - exists [], s. split_and!; [done|constructor|done].
  - apply andb_true_iff in Ha as [Ho Hl].
    destruct (perform_implements sctp v s o Himp Ho) as (Himp1 & Hr).
    destruct (perform o s) as [r s1]. simpl in *. destruct (IH _ _ Himp1 Hl) as (rs & s' & Hs' & Hok & ?).
    exists (r :: rs), s'. rewrite Hs'. split_and!; [done|by constructor|done].
Qed.

(** What the SDP object of a session reads. *)
Record reads (v : session) (s : RemoteSdp) : Prop := {
  reads_media : array_at "media" (sdpObject s) = map mediaObject (mediaSections s);
  reads_mids : map mid_of (mediaSections s) = map fst v;
  reads_open : map (fun ms => negb (closed ms)) (mediaSections s) = map snd v;
  reads_bundle : exists g gs, array_at "groups" (sdpObject s) = g :: gs /\
    text "mids" g = String.concat " " (map fst (List.filter snd v));
  reads_index mid i : midToIndex s !! mid = Some i <-> map fst v !! i = Some mid
}.

Lemma implements_reads sctp v s : implements sctp v s -> reads v s.
Proof.
  intros (Hinv & _ & <-). pose proof Hinv as [_ _ Hix (o & g & gs & w & Eo & Hme & Hg & Hmi & _) _].
  unfold view. split; rewrite ?map_map; try done.
  - unfold array_at. by rewrite Eo, find_object, Hme.
  - exists (JObject g), gs. unfold array_at, text. rewrite Eo, !find_object, Hg, Hmi.
    split; [done|]. by rewrite bundle_view.
  - intros mid i. rewrite Hix, lookup_map. split.
    + intros (ms & -> & <-). done.
    + destruct (mediaSections s !! i) as [ms|]; [|done]. intros [= <-]. eauto.
Qed.

(** The state after a sequence of calls. *)
Lemma reached ice candidates dtls sctp ops :
  acceptsIceParameters ice = true -> array_of acceptsIceCandidate candidates = true ->
  acceptsDtlsParameters dtls = true -> all_allowed sctp [] ops = true ->
  exists s0 rs s, RemoteSdp_new ice candidates dtls sctp = Ok s0 /\
    perform_all ops s0 = (rs, s) /\ succeed ops rs /\ implements sctp (foldl effect [] ops) s.
Proof.
  intros. destruct (RemoteSdp_new_run ice candidates dtls sctp) as (s0 & ? & ? & ? & ? & _); try done.
  destruct (perform_all_implements sctp ops [] s0) as (rs & s & ? & ? & ?); [by split_and!|done|].
  by exists s0, rs, s.
Qed.

(** C4.  The remote SDP refines the abstract session.  Built from validated transport
    parameters, it goes through every sequence of calls that the handlers may make,
    sending without codec options: every call but [GetSdp] succeeds, and [GetSdp],
    which fails when its text cannot be written, leaves the session as it is.  At the
    end the sections are those of the abstract session:
    a new mid took the first closed slot or a new one, a closed mid was closed
    unless it carries the transport, and every other slot is untouched.  The SDP
    object lists the sections in order, its BUNDLE group the open mids, and the map
    of mids gives the position of every section. *)
Theorem RemoteSdp_refines (ice candidates dtls sctp : json) (ops : list op)
    (Hice : acceptsIceParameters ice = true)
    (Hcandidates : array_of acceptsIceCandidate candidates = true)
    (Hdtls : acceptsDtlsParameters dtls = true)
    (Hops : all_allowed sctp [] ops = true) :
  exists s0 outcomes s, RemoteSdp_new ice candidates dtls sctp = Ok s0 /\
    perform_all ops s0 = (outcomes, s) /\
    Forall2 (fun o r => o <> OpGetSdp -> r = Ok tt) ops outcomes /\
    reads (foldl effect [] ops) s.
Proof.
  destruct (reached ice candidates dtls sctp ops) as (s0 & rs & s & ? & ? & ? & Himp); try done.
  exists s0, rs, s. split_and!; [done..|]. by eapply implements_reads.
Qed.

Definition sampleOps : list op :=
  [OpReceive "0" "video" (normRtpParameters sampleOffer) "s" "a"; OpGetSdp;
   OpReceive "1" "video" (normRtpParameters sampleOffer) "s" "b";
   OpUpdateDtls "server"; OpClose "1"; OpClose "0";
   OpReceive "2" "video" (normRtpParameters sampleOffer) "s" "c"].

Lemma RemoteSdp_refines_witness :
  foldl effect [] sampleOps = [("0", true); ("2", true)] /\
  exists s0 outcomes s, RemoteSdp_new sampleIce sampleCandidates sampleDtls JNull = Ok s0 /\
    perform_all sampleOps s0 = (outcomes, s) /\
    Forall2 (fun o r => o <> OpGetSdp -> r = Ok tt) sampleOps outcomes /\
    reads [("0", true); ("2", true)] s.
Proof.
  split; [reflexivity|].
  apply (RemoteSdp_refines sampleIce sampleCandidates sampleDtls JNull sampleOps);
    vm_compute; reflexivity.
Defined.

(** C24.  [GetSdp] after any such sequence of calls writes the SDP object with its
    version increased by one modulo 2^32, and changes nothing else: no other member of
    the remote SDP, no other key of the object, no other key of its origin.  It
    returns the text of the object when the object holds values a JSON parser makes. *)
Theorem GetSdp_correct (ice candidates dtls sctp : json) (ops : list op)
    (Hice : acceptsIceParameters ice = true)
    (Hcandidates : array_of acceptsIceCandidate candidates = true)
    (Hdtls : acceptsDtlsParameters dtls = true)
    (Hops : all_allowed sctp [] ops = true) :
  exists s0 outcomes s s', RemoteSdp_new ice candidates dtls sctp = Ok s0 /\
    perform_all ops s0 = (outcomes, s) /\
    GetSdp s = (writeSession (sdpObject s'), s') /\
    (stored (sdpObject s') = true -> exists text, writeSession (sdpObject s') = Ok text) /\
    sessionVersion s' = uint 32 (sessionVersion s + 1) /\
    s' = set_sdpObject (sdpObject s') s /\
    (forall k, k <> "origin" -> find k (sdpObject s') = find k (sdpObject s)) /\
    (forall k, k <> "sessionVersion" ->
       find k (field "origin" (sdpObject s')) = find k (field "origin" (sdpObject s))).
Proof.
  destruct (reached ice candidates dtls sctp ops) as (s0 & rs & s & Hnew & Hrun & _ & Himp); try done.
  assert (view s = foldl effect [] ops) as Hvs by apply Himp. rewrite <- Hvs in Himp.
  destruct (GetSdp_run sctp s Himp) as (s' & Hget & Himp' & (? & ? & ?) & ?).
  exists s0, rs, s, s'. split_and!; try done.
  destruct (inv_shows _ (proj1 Himp')) as (o & _ & _ & _ & -> & Hm & _).
  by apply (writeSession_returns _ _ Hm).
Qed.

Lemma GetSdp_correct_witness :
  match RemoteSdp_new sampleIce sampleCandidates sampleDtls JNull with
  | Ok s0 => stored (sdpObject (snd (GetSdp (snd (perform_all sampleOps s0))))) = true
  | _ => False
  end /\
  exists s0 outcomes s s', RemoteSdp_new sampleIce sampleCandidates sampleDtls JNull = Ok s0 /\
    perform_all sampleOps s0 = (outcomes, s) /\
    GetSdp s = (writeSession (sdpObject s'), s') /\
    (stored (sdpObject s') = true -> exists text, writeSession (sdpObject s') = Ok text) /\
    sessionVersion s' = uint 32 (sessionVersion s + 1) /\
    s' = set_sdpObject (sdpObject s') s /\
    (forall k, k <> "origin" -> find k (sdpObject s') = find k (sdpObject s)) /\
    (forall k, k <> "sessionVersion" ->
       find k (field "origin" (sdpObject s')) = find k (field "origin" (sdpObject s))).
Proof.
  split; [vm_compute; reflexivity|].
  apply (GetSdp_correct sampleIce sampleCandidates sampleDtls JNull sampleOps);
    vm_compute; reflexivity.
Defined.

(**  [DisableMediaSection] marks the section inactive but, unlike closing it,
    leaves the SDP object as it was: the object still has the section with its old
    direction, extensions and SSRCs. *)
Theorem DisableMediaSection_not_shown
    (ice candidates dtls sctp : json) (ops : list op) (mid : string) (i : nat)
    (Hice : acceptsIceParameters ice = true)
    (Hcandidates : array_of acceptsIceCandidate candidates = true)
    (Hdtls : acceptsDtlsParameters dtls = true)
    (Hops : all_allowed sctp [] ops = true)
    (Hmid : map fst (foldl effect [] ops) !! i = Some mid) :
  exists s0 rs s s' ms ms', RemoteSdp_new ice candidates dtls sctp = Ok s0 /\
    perform_all ops s0 = (rs, s) /\ mediaSections s !! i = Some ms /\
    DisableMediaSection mid s = (Ok tt, s') /\ mediaSections s' !! i = Some ms' /\
    text "direction" (mediaObject ms') = "inactive" /\ find "ssrcs" (mediaObject ms') = None /\
    array_at "media" (sdpObject s') !! i = Some (mediaObject ms).
Proof.
  destruct (reached ice candidates dtls sctp ops) as (s0 & rs & s & Hnew & Hrun & _ & Himp); try done.
  pose proof (implements_reads _ _ _ Himp) as [Hme Hms _ _ Hix].
  rewrite <- Hms, lookup_map in Hmid. destruct (mediaSections s !! i) as [ms|] eqn:Hi; [|done].
  injection Hmid as <-. assert (Hidx : midToIndex s !! mid_of ms = Some i).
  { apply Hix. by rewrite <- Hms, lookup_map, Hi. }
  pose proof (proj1 (Forall_lookup _ _) (inv_sections _ (proj1 Himp)) _ _ Hi) as Hok.
  apply section_ok_fields in Hok as (m & p & Em & _).
  exists s0, rs, s. eexists _, ms, _. split_and!; [done..| | | | |].
  - unfold DisableMediaSection. rewrite (bind_of_ok _ _ _ _ _ (run_indexOf _ _ _ Hidx)).
    unfold on_section. rewrite Hi, Em. unfold Disable. run. reflexivity.
  - simpl. apply list_lookup_insert_eq. by eapply lookup_lt_Some.
  - unfold text. simpl mediaObject. rewrite find_object. by lookups.
  - simpl mediaObject. rewrite find_object. by lookups.
  - simpl sdpObject. by rewrite Hme, lookup_map, Hi.
Qed.

Lemma DisableMediaSection_not_shown_witness :
  exists s0 rs s s' ms ms', RemoteSdp_new sampleIce sampleCandidates sampleDtls JNull = Ok s0 /\
    perform_all sampleOps s0 = (rs, s) /\ mediaSections s !! 1%nat = Some ms /\
    DisableMediaSection "2" s = (Ok tt, s') /\ mediaSections s' !! 1%nat = Some ms' /\
    text "direction" (mediaObject ms') = "inactive" /\ find "ssrcs" (mediaObject ms') = None /\
    array_at "media" (sdpObject s') !! 1%nat = Some (mediaObject ms).
Proof.
  apply (DisableMediaSection_not_shown sampleIce sampleCandidates sampleDtls JNull
    sampleOps "2" 1%nat); vm_compute; reflexivity.
Defined.
