(* ===== verification/SdpUtils.v ===== *)
(** * SDP utilities

    libmediasoupclient/src/sdp/Utils.cpp (the functions that do not parse codec
    parameters), src/scalabilityMode.cpp and the string helpers of
    include/Utils.hpp. *)

From Stdlib Require Import Ascii.
From stdpp Require Import gmap.
From S2P Require Import Prelude Json Regex Strings OrtcValidate Ortc MediaSection.

(** ** include/Utils.hpp *)

(** The tokens [std::getline] cuts off. *)
Definition split (s : string) (delimiter : ascii) : list string := getlines delimiter s.

(** [join] of the texts of numbers. *)
Fixpoint join (v : list Z) (delimiter : ascii) : string :=
  match v with
  | [] => ""
  | [z] => to_string z
  | z :: v => to_string z +:+ String delimiter "" +:+ join v delimiter
  end.

(** [v[i]] of a std::vector: undefined out of range. *)
Definition vec_at {A} (i : nat) (v : list A) : result A :=
  match v !! i with Some x => Ok x | None => Undef end.

(** ** Scalability modes *)

Definition nonzero_digit : regex := RChar (code_in 49 57).
Definition any_digit : regex := RChar is_digit.

(** ["^[LS]([1-9]\d{0,1})T([1-9]\d{0,1}).*"] *)
Definition ScalabilityModeRegex : regex :=
  RSeq RBol (RSeq (RChar (one_of "LS"))
    (RSeq (RGroup 1 (RSeq nonzero_digit (ROpt any_digit)))
      (RSeq (lit "T")
        (RSeq (RGroup 2 (RSeq nonzero_digit (ROpt any_digit))) (RStar (RChar is_dot)))))).

(** A failing conversion would leave the layers set so far. *)
Definition parseScalabilityMode (scalabilityMode : string) : json :=
  let layers s t := jobj [("spatialLayers", s); ("temporalLayers", t)] in
  match regex_match ScalabilityModeRegex scalabilityMode with
  | Some c =>
      match stoul (sub 1 c) with
      | Ok spatial =>
          match stoul (sub 2 c) with
          | Ok temporal => layers (JUInt spatial) (JUInt temporal)
          | _ => layers (JUInt spatial) (JInt 1)
          end
      | _ => layers (JInt 1) (JInt 1)
      end
  | None => layers (JInt 1) (JInt 1)
  end.

(** ** DTLS parameters *)

(** The first media section with ICE parameters and a port. *)
Fixpoint findTransportMedia (l : list json) : result json :=
  match l with
  | [] => Ok JNull
  | media :: l =>
      if contains "iceUfrag" media then
        let? port := cget "port" media in
        if json_eq port (JInt 0) then findTransportMedia l else Ok media
      else findTransportMedia l
  end.

Definition roleOfSetup (setup : string) : string :=
  if String.eqb setup "active" then "client"
  else if String.eqb setup "passive" then "server"
  else if String.eqb setup "actpass" then "auto" else "".

Definition extractDtlsParameters (sdpObject : json) : result json :=
  let? media := cget "media" sdpObject in
  let? m := findTransportMedia (elems media) in
  let fingerprint :=
    match find "fingerprint" m with
    | Some fingerprint => fingerprint
    | None => default JNull (find "fingerprint" sdpObject)
    end in
  let? role :=
    (match find "setup" m with
     | Some setup => let? setup := get_string setup in Ok (roleOfSetup setup)
     | None => Ok ""
     end) in
  let? entry :=
    fst ((let! algorithm := ref "type" in
          let! value := ref "hash" in
          ret (jobj [("algorithm", algorithm); ("value", value)])) fingerprint) in
  Ok (jobj [("role", JString role); ("fingerprints", JArray [entry])]).

(** ** Streams *)

Definition getCname (offerMediaObject : json) : result string :=
  match find "ssrcs" offerMediaObject with
  | None => Ok ""
  | Some mSsrcs =>
      match List.find (fun line => it_is is_string (find "attribute" line)) (elems mSsrcs) with
      | None => Ok ""
      | Some ssrcCnameLine => cget_string "value" ssrcCnameLine
      end
  end.

(** [std::list::unique]: of equal neighbours the first one stays. *)
Fixpoint unique (l : list Z) : list Z :=
  match l with
  | [] => []
  | x :: l' =>
      x :: match unique l' with
           | y :: r => if x =? y then r else y :: r
           | [] => []
           end
  end.

(** The loop over the FID groups: (ssrcs, ssrcToRtxSsrc). *)
Fixpoint fidGroups (ssrcGroups : list json) (ssrcs : list Z) (rtx : gmap Z Z) :
    result (list Z * gmap Z Z) :=
  match ssrcGroups with
  | [] => Ok (ssrcs, rtx)
  | line :: ssrcGroups =>
      let? semantics := cget_string "semantics" line in
      if negb (String.eqb semantics "FID") then fidGroups ssrcGroups ssrcs rtx
      else
        let? fidLine := cget_string "ssrcs" line in
        let v := split fidLine " "%char in
        let? first := vec_at 0 v in
        let? ssrc := stoull first in
        let? second := vec_at 1 v in
        let? rtxSsrc := stoull second in
        fidGroups ssrcGroups
          (List.filter (fun s => negb (s =? uint 32 rtxSsrc)) ssrcs)
          (<[uint 32 ssrc := uint 32 rtxSsrc]> rtx)
  end.

Definition encodingObject (rtx : gmap Z Z) (ssrc : Z) : json :=
  let encoding := jobj [("ssrc", JUInt ssrc)] in
  match rtx !! ssrc with
  | Some rtxSsrc => on_object (obj_insert "rtx" (jobj [("ssrc", JUInt rtxSsrc)])) encoding
  | None => encoding
  end.

Definition getRtpEncodings (offerMediaObject : json) : result json :=
  let? lines := cget "ssrcs" offerMediaObject in
  let? ssrcs :=
    collect (fun line => let? id := cget "id" line in let? ssrc := get_uint 32 id in Ok [ssrc])
      (elems lines) in
  match ssrcs with
  | [] => Throw (MediaSoupClientError "no a=ssrc lines found")
  | _ =>
      let? groups :=
        (match find "ssrcGroups" offerMediaObject with
         | Some ssrcGroups => fidGroups (elems ssrcGroups) (unique ssrcs) ∅
         | None => Ok (unique ssrcs, ∅)
         end) in
      Ok (JArray (map (encodingObject groups.2) groups.1))
  end.

(** ** Legacy simulcast *)

Definition hasAttribute (attribute : string) (line : json) : bool :=
  it_is (fun a => json_eq a (JString attribute)) (find "attribute" line).

(** The SSRC of the retransmission stream of [firstSsrc]: the first group that
    starts with it, whatever its semantics, 0 without one. *)
Fixpoint findRtxSsrc (ssrcGroups : list json) (firstSsrc : Z) : result Z :=
  match ssrcGroups with
  | [] => Ok 0
  | line :: ssrcGroups =>
      match find "semantics" line, find "ssrcs" line with
      | Some (JString _), Some (JString ssrcs) =>
          let v := split ssrcs " "%char in
          let? first := vec_at 0 v in
          let? ssrc := stoull first in
          if ssrc =? firstSsrc then
            let? second := vec_at 1 v in
            let? rtxSsrc := stoull second in
            Ok (uint 32 rtxSsrc)
          else findRtxSsrc ssrcGroups firstSsrc
      | _, _ => findRtxSsrc ssrcGroups firstSsrc
      end
  end.

(** [first + i] for every stream, in 32 bits. *)
Definition consecutive (first : Z) (numStreams : nat) : list Z :=
  map (fun i => uint 32 (first + Z.of_nat i)) (seq 0 numStreams).

Definition simLines (cname msid : string) (ssrc : Z) : list json :=
  [ssrcObject ssrc "cname" cname; ssrcObject ssrc "msid" msid].

Definition groupObject (semantics ssrcs : string) : json :=
  jobj [("semantics", JString semantics); ("ssrcs", JString ssrcs)].

Definition fidGroup (ssrc rtxSsrc : Z) : json :=
  groupObject "FID" (to_string ssrc +:+ " " +:+ to_string rtxSsrc).

(** [numStreams] is a [uint8_t]. *)
Definition addLegacySimulcast (numStreams : nat) : M json unit :=
  if Nat.leb numStreams 1 then ret tt
  else
    let! mSsrcs := ref "ssrcs" in
    let! offerMediaObject := get in
    match List.find (hasAttribute "msid") (elems mSsrcs) with
    | None => throw (MediaSoupClientError "a=ssrc line with msid information not found")
    | Some ssrcMsidLine =>
        let! value := lift (ref_string "value" ssrcMsidLine) in
        let v := split value " "%char in
        let! streamId := lift (vec_at 0 v) in
        let! trackId := lift (vec_at 1 v) in
        let! id := lift (ref_value "id" ssrcMsidLine) in
        let! firstSsrc := lift (get_uint 32 id) in
        let! firstRtxSsrc :=
          lift (match find "ssrcGroups" offerMediaObject with
                | Some ssrcGroups => findRtxSsrc (elems ssrcGroups) firstSsrc
                | None => Ok 0
                end) in
        match List.find (fun line => it_is is_number (find "id" line) && hasAttribute "cname" line)
                (elems mSsrcs) with
        | None => throw (MediaSoupClientError "CNAME line not found")
        | Some cnameLine =>
            let! cname := lift (ref_string "value" cnameLine) in
            let ssrcs := consecutive firstSsrc numStreams in
            let rtxSsrcs :=
              if firstRtxSsrc =? 0 then [] else consecutive firstRtxSsrc numStreams in
            let msidValue := streamId +:+ " " +:+ trackId in
            do! set_key "ssrcGroups"
                  (JArray (groupObject "SIM" (join ssrcs " "%char) ::
                           zip_with fidGroup ssrcs rtxSsrcs)) in
            set_key "ssrcs"
              (JArray (flat_map (simLines cname msidValue) ssrcs ++
                       flat_map (simLines cname msidValue) rtxSsrcs))
        end
    end.
