(* ===== verification/SdpUtilsSpec.v ===== *)
(** * SDP utilities: the proofs

    Numbers and lists of numbers read back what was written, the encodings read from
    a media object are those written into it, and the scalability modes. *)

From Stdlib Require Import Ascii.
From stdpp Require Import gmap pretty.
From S2P Require Import Prelude Json Regex Validator OrtcValidate OrtcContracts OrtcValidated.
From S2P Require Import Ortc OrtcMatch OrtcExtended MediaSection MediaSectionSpec AnswerSection.
From S2P Require Import Strings SdpUtils.

(** ** Encodings *)

Definition in32 (z : Z) : Prop := 0 <= z < 2 ^ 32.

Lemma in32_uint z : in32 z -> uint 32 z = z.
Proof. intros H. by apply uint_small. Qed.

Definition doubled (l : list Z) : list Z := flat_map (fun z => [z; z]) l.

Lemma unique_doubled l : NoDup l -> unique (doubled l) = l.
Proof.
  induction 1 as [|z l Hz Hnd IH]; [done|]. cbn. fold (doubled l). rewrite IH.
  destruct l as [|y l]; cbn; [by rewrite Z.eqb_refl|].
  destruct (Z.eqb_spec z y) as [->|Hne]; [exfalso; apply Hz; by left|]. by rewrite Z.eqb_refl.
Qed.

Lemma run_line_ids cname msid l :
  Forall in32 l ->
  collect (fun line => let? id := cget "id" line in let? ssrc := get_uint 32 id in Ok [ssrc])
    (flat_map (simLines cname msid) l) = Ok (doubled l).
Proof.
  induction 1 as [|z l Hz _ IH]; [done|]. cbn [flat_map simLines app collect].
  change (cget "id" (ssrcObject z "cname" cname)) with (Ok (JUInt z)).
  change (cget "id" (ssrcObject z "msid" msid)) with (Ok (JUInt z)). simpl. rewrite IH. simpl.
  by rewrite (in32_uint z Hz).
Qed.

Lemma run_fidGroups l r ssrcs rtx :
  length l = length r -> Forall in32 l -> Forall in32 r ->
  fidGroups (zip_with fidGroup l r) ssrcs rtx =
  Ok (List.filter (fun s => negb (existsb (Z.eqb s) r)) ssrcs,
      foldl (fun m p => <[p.1 := p.2]> m) rtx (zip l r)).
Proof.
  revert r ssrcs rtx. induction l as [|x l IH]; intros [|y r] ssrcs rtx Hlen Hl Hr; try done.
  - cbn. f_equal. f_equal. induction ssrcs as [|s ssrcs IHs]; cbn; [done|]. by rewrite <- IHs.
  - apply Forall_cons in Hl as [Hx Hl]. apply Forall_cons in Hr as [Hy Hr].
    assert (0 <= x < 2 ^ 64 /\ 0 <= y < 2 ^ 64) as [Hx' Hy'] by (unfold in32 in *; lia).
    cbn [zip_with fidGroups].
    change (cget_string "semantics" (fidGroup x y)) with (Ok "FID").
    change (cget_string "ssrcs" (fidGroup x y)) with (Ok (to_string x +:+ " " +:+ to_string y)).
    cbn [result_bind]. change (negb (String.eqb "FID" "FID")) with false. cbv iota zeta.
    unfold split. rewrite split_words by (apply to_string_word; lia). cbn [vec_at lookup list_lookup result_bind].
    unfold vec_at. cbn. rewrite !stoull_to_string by done. cbn [result_bind].
    rewrite !in32_uint by done. rewrite IH by (simpl in Hlen; auto with lia).
    f_equal. f_equal. clear. induction ssrcs as [|s ssrcs IHs]; cbn; [done|].
    destruct (s =? y); cbn; [done|]. destruct (existsb (Z.eqb s) r); cbn; [done|]. by rewrite IHs.
Qed.

(** The encoding of a stream and of its retransmission. *)
Definition encodingOf (ssrc : Z) (rtx : option Z) : json :=
  match rtx with
  | Some rtxSsrc => jobj [("ssrc", JUInt ssrc); ("rtx", jobj [("ssrc", JUInt rtxSsrc)])]
  | None => jobj [("ssrc", JUInt ssrc)]
  end.

Lemma foldl_insert_lookup (l r : list Z) (m : gmap Z Z) k :
  k ∉ l -> foldl (fun m p => <[p.1 := p.2]> m) m (zip l r) !! k = m !! k.
Proof.
  revert r m. induction l as [|x l IH]; intros [|y r] m Hk; try done. cbn.
  apply not_elem_of_cons in Hk as [Hne Hk]. rewrite IH by done.
  by rewrite lookup_insert_ne.
Qed.

Lemma encodings_zip l r m :
  NoDup l -> length l = length r ->
  map (encodingObject (foldl (fun m p => <[p.1 := p.2]> m) m (zip l r))) l =
  zip_with (fun s x => encodingOf s (Some x)) l r.
Proof.
  intros Hnd. revert r m. induction Hnd as [|x l Hx Hnd IH]; intros [|y r] m Hlen; try done.
  cbn [zip zip_with foldl map]. rewrite IH by (simpl in Hlen; lia). f_equal.
  unfold encodingObject. cbn [fst snd]. rewrite foldl_insert_lookup by done.
  by rewrite lookup_insert_eq.
Qed.

Lemma filter_all {A} (p : A -> bool) l : (forall x, In x l -> p x = true) -> List.filter p l = l.
Proof.
  induction l as [|x l IH]; intros H; [done|]. cbn. rewrite (H x) by (by left). f_equal.
  apply IH. intros. apply H. by right.
Qed.
Lemma filter_empty {A} (p : A -> bool) l :
  (forall x, In x l -> p x = false) -> List.filter p l = [].
Proof.
  induction l as [|x l IH]; intros H; [done|]. cbn. rewrite (H x) by (by left).
  apply IH. intros. apply H. by right.
Qed.

Lemma filter_fresh l r :
  NoDup (l ++ r) -> List.filter (fun s => negb (existsb (Z.eqb s) r)) (l ++ r) = l.
Proof.
  intros Hnd. rewrite List.filter_app. apply NoDup_app in Hnd as (_ & Hd & _).
  rewrite filter_all, filter_empty, app_nil_r; [done| |]; intros x Hx.
  - apply negb_false_iff, existsb_exists. exists x. by rewrite Z.eqb_refl.
  - apply negb_true_iff. destruct (existsb (Z.eqb x) r) eqn:E; [|done].
    apply existsb_exists in E as (y & Hy & ->%Z.eqb_eq). exfalso.
    apply (Hd y); by apply list_elem_of_In.
Qed.

(** The lines and groups of streams [l] with the retransmissions [r]. *)
Definition streamLines (cname msid : string) (l r : list Z) : list json :=
  flat_map (simLines cname msid) l ++ flat_map (simLines cname msid) r.

Lemma run_getRtpEncodings o cname msid l r sim :
  find "ssrcs" o = Some (JArray (streamLines cname msid l r)) ->
  find "ssrcGroups" o = Some (JArray (sim ++ zip_with fidGroup l r)) ->
  sim = [] \/ (exists s, sim = [groupObject "SIM" s]) ->
  l <> [] -> NoDup (l ++ r) -> Forall in32 (l ++ r) -> r = [] \/ length r = length l ->
  getRtpEncodings o =
  Ok (JArray (match r with
              | [] => map (fun s => encodingOf s None) l
              | _ => zip_with (fun s x => encodingOf s (Some x)) l r
              end)).
Proof.
  intros Hs Hg Hsim Hne Hnd H32 Hr. destruct o as [| | | | | | |m]; try done.
  unfold getRtpEncodings. rewrite find_object in *. simpl cget. rewrite Hs, Hg. cbn [result_bind].
  change (elems (JArray ?x)) with x. unfold streamLines. rewrite <- flat_map_app.
  rewrite (run_line_ids _ _ _ H32). cbn [result_bind].
  destruct l as [|x l]; [done|]. cbn [app]. unfold doubled. cbn [flat_map app]. fold (doubled (l ++ r)).
  change (x :: x :: doubled (l ++ r)) with (doubled (x :: l ++ r)).
  change (x :: l ++ r) with ((x :: l) ++ r). rewrite (unique_doubled _ Hnd).
  assert (Hskip : forall g ssrcs rtx, fidGroups (sim ++ g) ssrcs rtx = fidGroups g ssrcs rtx)
    by (destruct Hsim as [->|[s ->]]; done).
  rewrite Hskip. apply Forall_app in H32 as [H32l H32r]. destruct Hr as [->|Hlen].
  - cbn [zip_with fidGroups result_bind fst snd]. rewrite app_nil_r. done.
  - rewrite run_fidGroups by done. cbn [result_bind fst snd]. rewrite filter_fresh by done.
    rewrite encodings_zip; [|by apply NoDup_app in Hnd as (? & _)|done].
    by destruct r.
Qed.

(** The first line of a stream is its CNAME. *)
Lemma run_getCname o cname msid x l r :
  find "ssrcs" o = Some (JArray (streamLines cname msid (x :: l) r)) -> getCname o = Ok cname.
Proof. intros H. unfold getCname. by rewrite H. Qed.

(** The lines that a remote offer has are those of one stream. *)
Lemma ssrcObjects_lines ssrc rtx cname msid :
  ssrcObjects ssrc rtx cname msid =
  (streamLines cname msid [ssrc] (if rtx =? 0 then [] else [rtx]),
   zip_with fidGroup [ssrc] (if rtx =? 0 then [] else [rtx])).
Proof. unfold ssrcObjects. by destruct (rtx =? 0). Qed.

Lemma find_offered p streamId trackId ice candidates sctp mid kind :
  let o := JObject (offeredFields p streamId trackId (offerHead ice candidates sctp mid kind)) in
  find "ssrcs" o = Some (JArray (describedSsrcs p streamId trackId).1) /\
  find "ssrcGroups" o = Some (JArray (describedSsrcs p streamId trackId).2).
Proof. unfold offeredFields. rewrite !find_object. by lookups. Qed.



(** ** Legacy simulcast *)

(** A media object with the lines of one stream. *)
Record has_stream (o : json) (cname streamId trackId : string) (ssrc rtx : Z) : Prop := {
  stream_lines : find "ssrcs" o = Some (JArray
    (streamLines cname (streamId +:+ " " +:+ trackId) [ssrc] (if rtx =? 0 then [] else [rtx])));
  stream_groups : find "ssrcGroups" o = Some (JArray
    (zip_with fidGroup [ssrc] (if rtx =? 0 then [] else [rtx])));
  stream_ids : is_word_text streamId = true /\ is_word_text trackId = true;
  stream_range : in32 ssrc /\ in32 rtx
}.

(** The SSRCs of the simulcast streams and of their retransmissions. *)
Definition rtxStreams (rtx : Z) (n : nat) : list Z := if rtx =? 0 then [] else consecutive rtx n.

Lemma consecutive_in32 z n : Forall in32 (consecutive z n).
Proof.
  unfold consecutive. apply List.Forall_forall. intros x (i & <- & _)%in_map_iff.
  by apply uint_range.
Qed.
Lemma consecutive_length z n : length (consecutive z n) = n.
Proof. unfold consecutive. by rewrite length_map, length_seq. Qed.

Lemma run_findRtxSsrc ssrc rtx :
  in32 ssrc -> in32 rtx ->
  findRtxSsrc (zip_with fidGroup [ssrc] (if rtx =? 0 then [] else [rtx])) ssrc = Ok rtx.
Proof.
  intros Hs Hr. destruct (Z.eqb_spec rtx 0) as [->|Hne]; [done|]. cbn [zip_with findRtxSsrc].
  change (find "semantics" (fidGroup ssrc rtx)) with (Some (JString "FID")).
  change (find "ssrcs" (fidGroup ssrc rtx)) with
    (Some (JString (to_string ssrc +:+ " " +:+ to_string rtx))). cbv iota zeta.
  unfold split. rewrite split_words by (apply to_string_word; unfold in32 in *; lia). unfold vec_at. cbn.
  rewrite !stoull_to_string by (unfold in32 in *; lia). cbn. rewrite Z.eqb_refl.
  by rewrite in32_uint.
Qed.

Lemma run_addLegacySimulcast m cname streamId trackId ssrc rtx n :
  has_stream (JObject m) cname streamId trackId ssrc rtx -> (1 < n)%nat ->
  let msid := streamId +:+ " " +:+ trackId in
  let l := consecutive ssrc n in
  addLegacySimulcast n (JObject m) =
  (Ok tt, JObject (obj_insert "ssrcs" (JArray (streamLines cname msid l (rtxStreams rtx n)))
    (obj_insert "ssrcGroups"
      (JArray ([groupObject "SIM" (join l " "%char)] ++ zip_with fidGroup l (rtxStreams rtx n))) m))).
Proof.
  intros [Hl Hg [Hsid Htid] [Hs Hr]] Hn msid l. rewrite !find_object in *. unfold addLegacySimulcast.
  rewrite (proj2 (Nat.leb_gt n 1) Hn). rewrite (bind_of_ok _ _ _ _ _ (run_ref _ _ _ Hl)), run_bind_get.
  change (elems (JArray ?x)) with x. unfold streamLines at 1.
  cbn [flat_map simLines app List.find].
  change (hasAttribute "msid" (ssrcObject ssrc "cname" cname)) with false.
  change (hasAttribute "msid" (ssrcObject ssrc "msid" ?x)) with true. cbv iota.
  rewrite (bind_lift _ _ _ msid) by done. cbv zeta. unfold msid at 1 2.
  unfold split. rewrite split_words by done.
  rewrite (bind_lift _ _ _ streamId), (bind_lift _ _ _ trackId) by done.
  rewrite (bind_lift _ _ _ (JUInt ssrc)) by done.
  rewrite (bind_lift _ _ _ ssrc) by (simpl; by rewrite in32_uint).
  rewrite find_object, Hg. rewrite (bind_lift _ _ _ _ (run_findRtxSsrc ssrc rtx Hs Hr)).
  match goal with |- context [List.find ?p (streamLines ?a ?b ?c ?d)] =>
    change (List.find p (streamLines a b c d)) with (Some (ssrcObject ssrc "cname" cname)) end.
  cbv iota.
  rewrite (bind_lift _ _ _ cname) by done. run. done.
Qed.

(** C28.  [addLegacySimulcast] with [n > 1] streams, on a media object that has one:
    it succeeds, keeps the CNAME, and [getRtpEncodings] then reads [n] encodings
    with consecutive SSRCs, each with its own retransmission when the stream had
    one, as long as the two ranges do not meet. *)
Theorem addLegacySimulcast_correct (m : list (string * json)) (cname streamId trackId : string)
    (ssrc rtx : Z) (n : nat)
    (Hstream : has_stream (JObject m) cname streamId trackId ssrc rtx) (Hn : (1 < n)%nat)
    (Hdistinct : NoDup (consecutive ssrc n ++ rtxStreams rtx n)) :
  exists o, addLegacySimulcast n (JObject m) = (Ok tt, o) /\ getCname o = Ok cname /\
    getRtpEncodings o = Ok (JArray (
      if rtx =? 0 then map (fun s => encodingOf s None) (consecutive ssrc n)
      else zip_with (fun s x => encodingOf s (Some x)) (consecutive ssrc n) (consecutive rtx n))).
Proof.
  eexists. split; [by apply run_addLegacySimulcast|]. destruct n as [|n]; [lia|]. split.
  - eapply (run_getCname _ _ _ (uint 32 (ssrc + 0))). rewrite find_object. by lookups.
  - erewrite (run_getRtpEncodings _ cname (streamId +:+ " " +:+ trackId) _ _
      [groupObject "SIM" (join (consecutive ssrc (S n)) " "%char)]); [| | | | |exact Hdistinct| |];
      cycle 1.
    + rewrite find_object. by lookups.
    + rewrite find_object. by lookups.
    + right. by eexists.
    + done.
    + apply Forall_app. split; [apply consecutive_in32|]. unfold rtxStreams.
      destruct (rtx =? 0); [done|apply consecutive_in32].
    + unfold rtxStreams. destruct (rtx =? 0); [by left|right]. by rewrite !consecutive_length.
    + unfold rtxStreams. by destruct (rtx =? 0).
Qed.

Lemma addLegacySimulcast_correct_witness :
  exists o, addLegacySimulcast 3
      (jobj [("ssrcs", JArray (streamLines "c" "a b" [5] [9])); ("ssrcGroups", JArray [fidGroup 5 9])])
      = (Ok tt, o) /\ getCname o = Ok "c" /\
    getRtpEncodings o = Ok (JArray [encodingOf 5 (Some 9); encodingOf 6 (Some 10);
                                    encodingOf 7 (Some 11)]).
Proof.
  apply (addLegacySimulcast_correct [("ssrcGroups", JArray [fidGroup 5 9]);
      ("ssrcs", JArray (streamLines "c" "a b" [5] [9]))] "c" "a" "b" 5 9 3).
  - split; vm_compute; try reflexivity; split; try reflexivity; split; discriminate || reflexivity.
  - lia.
  - apply (bool_decide_unpack _). vm_compute. exact I.
Defined.

(** ** Scalability modes *)

(** One or two digits, the first one not zero. *)
Definition two_digits (w : string) : bool :=
  match w with
  | String d EmptyString => code_in 49 57 d
  | String d (String e EmptyString) => code_in 49 57 d && is_digit e
  | _ => false
  end.

Lemma two_digits_to_string z : 1 <= z <= 99 -> two_digits (to_string z) = true.
Proof.
  intros Hz. assert (H : forallb (fun i => two_digits (to_string (Z.of_nat i))) (seq 1 99) = true)
    by (vm_compute; reflexivity).
  rewrite forallb_forall in H. rewrite <- (Z2Nat.id z) by lia. apply H, in_seq. lia.
Qed.

Lemma group_two_digits {A} n i w s c (k : string -> captures -> option A) x :
  two_digits w = true -> starts_with_digit s = false -> k s ((i, w) :: c) = Some x ->
  rmatch n (RGroup i (RSeq nonzero_digit (ROpt any_digit))) (w +:+ s) c k = Some x.
Proof.
  intros Hw Hs Hk. rewrite <- (consumed_app w s) in Hk. cbn [rmatch nonzero_digit].
  destruct w as [|d [|e [|f w]]]; try done; cbn in Hw.
  - cbn [String.append] in *. rewrite Hw. cbn [any_digit rmatch].
    destruct s as [|a s]; [by rewrite Hk|]. cbn in Hs. rewrite Hs. by rewrite Hk.
  - apply andb_true_iff in Hw as [Hd He]. cbn [String.append] in *. rewrite Hd. cbn [any_digit rmatch].
    rewrite He. replace (shorter s (String e s)) with true; [by rewrite Hk|].
    symmetry. apply Nat.ltb_lt. simpl. lia.
Qed.

Lemma star_to_end n p w c :
  all_chars p w = true ->
  rmatch n (RStar (RChar p)) w c
    (fun s' c => match s' with EmptyString => Some c | _ => None end) = Some c.
Proof.
  induction w as [|a w IH]; [done|]. simpl. intros [Ha Hw]%andb_true_iff. rewrite Ha.
  replace (shorter w (String a w)) with true by (symmetry; apply Nat.ltb_lt; simpl; lia).
  simpl in IH. by rewrite IH.
Qed.

Lemma ScalabilityModeRegex_match l s t rest :
  one_of "LS" l = true -> two_digits s = true -> two_digits t = true ->
  starts_with_digit rest = false -> all_chars is_dot rest = true ->
  regex_match ScalabilityModeRegex (String l (s +:+ "T" +:+ t +:+ rest)) =
  Some [(2%nat, t); (1%nat, s)].
Proof.
  intros Hl Hs Ht Hr Hd. unfold regex_match, ScalabilityModeRegex.
  remember (RGroup 1 _) as G1 eqn:E1. remember (RGroup 2 _) as G2 eqn:E2.
  remember (RStar _) as ST eqn:E3. remember (lit "T") as T eqn:E4.
  cbn [rmatch]. rewrite Nat.eqb_refl, Hl. rewrite E1.
  apply group_two_digits; [done|done|]. rewrite E4. cbn [rmatch lit ch String.append].
  change (Ascii.eqb "T"%char "T"%char) with true. cbv iota. rewrite E2.
  apply group_two_digits; [done|done|]. rewrite E3. by apply star_to_end.
Qed.

(** C30.  [parseScalabilityMode] reads the two layer counts of a mode such as L3T2 or
    S2T3_KEY. *)
Theorem parseScalabilityMode_correct (l : ascii) (spatial temporal : Z) (rest : string)
    (Hl : one_of "LS" l = true) (Hs : 1 <= spatial <= 99) (Ht : 1 <= temporal <= 99)
    (Hrest : starts_with_digit rest = false) (Hline : all_chars is_dot rest = true) :
  parseScalabilityMode (String l (to_string spatial +:+ "T" +:+ to_string temporal +:+ rest)) =
  jobj [("spatialLayers", JUInt spatial); ("temporalLayers", JUInt temporal)].
Proof.
  unfold parseScalabilityMode.
  rewrite ScalabilityModeRegex_match by (done || by apply two_digits_to_string).
  change (sub 1 [(2%nat, to_string temporal); (1%nat, to_string spatial)]) with (to_string spatial).
  change (sub 2 [(2%nat, to_string temporal); (1%nat, to_string spatial)]) with (to_string temporal).
  unfold stoul. rewrite !stoull_to_string by lia. done.
Qed.

Lemma parseScalabilityMode_correct_witness :
  parseScalabilityMode "L3T2_KEY" = jobj [("spatialLayers", JUInt 3); ("temporalLayers", JUInt 2)].
Proof.
  apply (parseScalabilityMode_correct "L"%char 3 2 "_KEY"); [reflexivity|lia|lia|reflexivity|reflexivity].
Defined.

(** ** DTLS parameters *)

(** A local media section that carries the transport. *)
Definition carries_transport (media : json) : bool :=
  contains "iceUfrag" media && negb (json_eq (field "port" media) (JInt 0)).

Definition media_ok : json -> bool := object_with (fun m =>
  negb (bool_decide (is_Some (obj_find "iceUfrag" m))) || negb (absent (obj_find "port" m))).

Lemma run_findTransportMedia l :
  Forall (fun m => media_ok m = true) l ->
  findTransportMedia l = Ok (default JNull (List.find carries_transport l)).
Proof.
  induction 1 as [|m l Hm _ IH]; [done|]. cbn [findTransportMedia List.find].
  unfold carries_transport at 1. destruct m as [| | | | | | |o]; try done. unfold contains, field.
  rewrite !find_object. simpl in Hm.
  destruct (bool_decide (is_Some (obj_find "iceUfrag" o))); [|done]. simpl in Hm |- *.
  unfold absent in Hm. destruct (obj_find "port" o) as [p|]; [|done]. simpl.
  by destruct (json_eq p (JInt 0)).
Qed.

(** The fingerprint that applies to a media section: its own, or that of the session. *)
Definition fingerprint_of (sdp m : json) : json :=
  match find "fingerprint" m with Some f => f | None => field "fingerprint" sdp end.

Definition fingerprint_ok : json -> bool :=
  object_with (fun f => text_at "type" f && text_at "hash" f).

(** C29.  [extractDtlsParameters] on a parsed local description with a section that
    carries the transport: it returns DTLS parameters that pass validation, with
    the fingerprint of that section or of the session, and the role that an answer
    section writes as the setup attribute that was read. *)
Theorem extractDtlsParameters_correct (sdp m : json) (setup : string)
    (Hsdp : is_object sdp = true)
    (Hmedia : it_is (array_of media_ok) (find "media" sdp) = true)
    (Hm : List.find carries_transport (array_at "media" sdp) = Some m)
    (Hsetup : find "setup" m = Some (JString setup))
    (Hknown : In setup ["active"; "passive"; "actpass"])
    (Hprint : fingerprint_ok (fingerprint_of sdp m) = true) :
  exists p role, extractDtlsParameters sdp = Ok p /\ acceptsDtlsParameters p = true /\
    find "role" p = Some (JString role) /\ setupOf role = Some setup /\
    array_at "fingerprints" p =
      [jobj [("algorithm", field "type" (fingerprint_of sdp m));
             ("value", field "hash" (fingerprint_of sdp m))]].
Proof.
  destruct sdp as [| | | | | | |o]; try done. rewrite find_object in Hmedia.
  destruct (obj_find "media" o) as [[| | | | | |l|]|] eqn:El; try done. simpl in Hmedia.
  unfold array_at in Hm. rewrite find_object, El in Hm.
  unfold extractDtlsParameters. simpl cget. rewrite El. cbn [result_bind].
  change (elems (JArray l)) with l.
  rewrite run_findTransportMedia by (by apply forallb_Forall). rewrite Hm.
  change (default JNull (Some m)) with m. cbn [result_bind].
  change (match find "fingerprint" m with
          | Some fingerprint => fingerprint
          | None => default JNull (find "fingerprint" (JObject o))
          end) with (fingerprint_of (JObject o) m).
  cbv zeta. rewrite Hsetup. cbn [get_string result_bind].
  destruct (fingerprint_of (JObject o) m) as [| | | | | | |f]; try done. simpl in Hprint.
  apply andb_true_iff in Hprint as [Ht Hh]. unfold text_at in Ht, Hh. unfold field.
  rewrite !find_object.
  destruct (obj_find "type" f) as [[| | | | |ty| |]|] eqn:Et; try done.
  destruct (obj_find "hash" f) as [[| | | | |ha| |]|] eqn:Eh; try done.
  rewrite (bind_of_ok _ _ _ _ _ (run_ref _ _ _ Et)), (bind_of_ok _ _ _ _ _ (run_ref _ _ _ Eh)).
  cbn [fst ret result_bind]. eexists _, (roleOfSetup setup). split; [reflexivity|].
  destruct ty as [|? ?]; [done|]. destruct ha as [|? ?]; [done|].
  destruct Hknown as [<-|[<-|[<-|[]]]]; split_and!; reflexivity.
Qed.

Definition sampleLocalSdp : json :=
  jobj [("fingerprint", jobj [("type", JString "sha-256"); ("hash", JString "82:5A")]);
        ("media", JArray [jobj [("iceUfrag", JString "u"); ("port", JUInt 9);
                                ("setup", JString "actpass")]])].

Lemma extractDtlsParameters_correct_witness :
  exists p role, extractDtlsParameters sampleLocalSdp = Ok p /\ acceptsDtlsParameters p = true /\
    find "role" p = Some (JString role) /\ setupOf role = Some "actpass" /\
    array_at "fingerprints" p =
      [jobj [("algorithm", JString "sha-256"); ("value", JString "82:5A")]].
Proof.
  apply (extractDtlsParameters_correct sampleLocalSdp
    (jobj [("iceUfrag", JString "u"); ("port", JUInt 9); ("setup", JString "actpass")]) "actpass");
    vm_compute; try reflexivity; auto.
Defined.
