(* ===== verification/SdpParser.v ===== *)
(** * The SDP parser

    deps/libsdptransform/src/parser.cpp: the lines of a session description read into
    JSON by the rules of the grammar, and the readers of parameter lists. *)

From Stdlib Require Import Ascii.
From S2P Require Import Prelude Json Regex Strings SdpGrammar.

(** ** Values *)

(** A long of 64 bits. *)
Definition isInt (str : string) : bool := bool_decide (is_Some (extract_signed 64 str)).
Definition isFloat (str : string) : bool := bool_decide (is_Some (extract_float 24 128 str)).

Definition toType (str : string) (type : ascii) : result json :=
  match type with
  | "s"%char => Ok (JString str)
  | "u"%char =>
      match extract_unsigned 64 str with Some ll => Ok (JUInt ll) | None => Ok (JUInt 0) end
  | "d"%char =>
      match extract_signed 64 str with Some ll => Ok (JInt ll) | None => Ok (JInt 0) end
  | "f"%char =>
      match extract_float 53 1024 str with
      | Some _ => let? d := stod str in Ok (JFloat d)
      | None => Ok (JFloat (S754_zero false))
      end
  | _ => Ok JNull
  end.

(** [types[i]] of a std::vector: undefined out of range. *)
Definition type_at (i : nat) (types : list ascii) : result ascii :=
  match types !! i with Some t => Ok t | None => Undef end.

(** ** Lines *)

(** The loop over [names], from the [i]th on; a pattern has as many groups as names. *)
Fixpoint attachNames (c : captures) (types : list ascii) (i : nat) (names : list string) :
    M json unit :=
  match names with
  | [] => ret tt
  | n :: names =>
      do! when (negb (String.eqb (sub (S i) c) ""))
        (let! type := lift (type_at i types) in
         let! v := lift (toType (sub (S i) c) type) in
         set_key n v) in
      attachNames c types (S i) names
  end.

Definition attachProperties (c : captures) (names : list string) (rawName : string)
    (types : list ascii) : M json unit :=
  if negb (String.eqb rawName "") && bool_decide (names = []) then
    let! type := lift (type_at 0 types) in
    let! v := lift (toType (sub 1 c) type) in
    set_key rawName v
  else attachNames c types 0 names.

(** Runs [f] on a new object, and returns the object. *)
Definition on_new {S} (f : M json unit) : M S json := fun s =>
  match f (JObject []) with
  | (Ok _, o) => (Ok o, s)
  | (Throw e, _) => (Throw e, s)
  | (Undef, _) => (Undef, s)
  end.

Definition parseReg (rule : Rule) (content : string) : M json unit :=
  let needsBlank :=
    negb (String.eqb (name rule) "") && negb (bool_decide (names rule = [])) in
  let pushes := negb (String.eqb (push rule) "") in
  let! location := get in
  do! (if pushes && negb (contains (push rule) location) then
         set_key (push rule) (JArray [])
       else if needsBlank && negb (contains (name rule) location) then
         set_key (name rule) (JObject [])
       else ret tt) in
  let c := match regex_search (reg rule) content with Some (_, _, c) => c | None => [] end in
  let attach := attachProperties c (names rule) (name rule) (types rule) in
  if pushes then
    let! object := on_new attach in
    at_key (push rule) (push_back object)
  else if needsBlank then at_key (name rule) attach
  else attach.

(** The first rule that matches *)
Fixpoint firstRule (rules : list Rule) (content : string) : option Rule :=
  match rules with
  | [] => None
  | rule :: rules =>
      match regex_search (reg rule) content with
      | Some _ => Some rule
      | None => firstRule rules content
      end
  end.

Definition parseContent (type : ascii) (content : string) : M json unit :=
  match rulesMap type with
  | None => ret tt
  | Some rules =>
      match firstRule rules content with
      | Some rule => parseReg rule content
      | None => ret tt
      end
  end.

(** A lower case letter, an equals sign and anything; only whether it matches is used. *)
Definition ValidLineRegex : regex :=
  seqs [RBol; RGroup 1 (RChar (code_in 97 122)); lit "="; RGroup 2 (RStar dot)].

(** Removes a carriage return at the end. *)
Definition chomp (line : string) : string :=
  match str_rev line with
  | String a s => if Ascii.eqb a "013"%char then str_rev s else line
  | EmptyString => line
  end.

(** The session and the media sections; [location] is the last section, or the session
    before the first one. *)
Definition at_location {A} (f : M json A) : M (json * list json) A := fun st =>
  let '(session, media) := st in
  match rev media with
  | [] => let '(r, session') := f session in (r, (session', media))
  | location :: before => let '(r, location') := f location in (r, (session, rev before ++ [location']))
  end.

Definition parseLine (line : string) : M (json * list json) unit :=
  let line := chomp line in
  match regex_search ValidLineRegex line with
  | None => ret tt
  | Some _ =>
      match line with
      | String type (String _ content) =>
          do! when (Ascii.eqb type "m"%char)
            (let! st := get in
             put (st.1, st.2 ++ [jobj [("rtp", JArray []); ("fmtp", JArray [])]])) in
          at_location (parseContent type content)
      | _ => ret tt
      end
  end.

Fixpoint parseLines (lines : list string) : M (json * list json) unit :=
  match lines with
  | [] => ret tt
  | line :: lines => do! parseLine line in parseLines lines
  end.

Definition parse (sdp : string) : result json :=
  match parseLines (getlines "010"%char sdp) (JObject [], []) with
  | (Ok _, (session, media)) =>
      match set_key "media" (JArray media) session with
      | (Ok _, session) => Ok session
      | (Throw e, _) => Throw e
      | (Undef, _) => Undef
      end
  | (Throw e, _) => Throw e
  | (Undef, _) => Undef
  end.

(** ** Parameter lists *)

(** ["^\s*([^= ]+)(?:\s*=\s*([^ ]+))?$"] *)
Definition KeyValueRegex : regex :=
  seqs [RBol; RStar space; RGroup 1 (RPlus (none_of "= "));
    ROpt (seqs [RStar space; lit "="; RStar space; RGroup 2 (RPlus (none_of " "))]); REol].

Definition WellKnownParameters (param : string) : option ascii :=
  if String.eqb param "profile-level-id" then Some "s"%char
  else if String.eqb param "packetization-mode" then Some "d"%char
  else if String.eqb param "profile-id" then Some "s"%char
  else None.

Definition paramType (param value : string) : ascii :=
  match WellKnownParameters param with
  | Some type => type
  | None => if isInt value then "d"%char else if isFloat value then "f"%char else "s"%char
  end.

Definition insertParam (str : string) : M json unit :=
  match regex_match KeyValueRegex str with
  | None => ret tt
  | Some c =>
      let! v := lift (toType (sub 2 c) (paramType (sub 1 c) (sub 2 c))) in
      set_key (sub 1 c) v
  end.

(** The loops over the parameters of a list *)
Fixpoint insertParams (params : list string) : M json unit :=
  match params with
  | [] => ret tt
  | param :: params =>
      do! (let param := trim param in
           if String.eqb param "" then ret tt else insertParam param) in
      insertParams params
  end.

Definition parseParams (str : string) : result json :=
  match insertParams (getlines ";"%char str) (JObject []) with
  | (Ok _, obj) => Ok obj
  | (Throw e, _) => Throw e
  | (Undef, _) => Undef
  end.

Fixpoint stois (l : list string) : result (list Z) :=
  match l with
  | [] => Ok []
  | payload :: l => let? z := stoi payload in let? zs := stois l in Ok (z :: zs)
  end.
Definition parsePayloads (str : string) : result (list Z) := stois (getlines " "%char str).

(** The loop over the items of an image attribute *)
Fixpoint imageItems (arr : list json) (items : list string) : result json :=
  match items with
  | [] => Ok (JArray arr)
  | item :: items =>
      let item := trim item in
      if String.eqb item "*" then Ok (JString item)
      else if Nat.ltb (String.length item) 5 then imageItems arr items
      else
        match insertParams
                (getlines ","%char (String.substring 1 (String.length item - 2) item))
                (JObject []) with
        | (Ok _, obj) => imageItems (arr ++ [obj]) items
        | (Throw e, _) => Throw e
        | (Undef, _) => Undef
        end
  end.
Definition parseImageAttributes (str : string) : result json :=
  imageItems [] (getlines " "%char str).

Definition simulcastFormat (format : string) : json :=
  match format with
  | String "~" scid => jobj [("scid", JString scid); ("paused", JBool true)]
  | _ => jobj [("scid", JString format); ("paused", JBool false)]
  end.
Definition nonempty (l : list string) : list string :=
  List.filter (fun s => negb (String.eqb s "")) l.
Definition parseSimulcastStreamList (str : string) : json :=
  JArray (map (fun item => JArray (map simulcastFormat (nonempty (getlines ","%char item))))
    (nonempty (getlines ";"%char str))).
