(* ===== verification/SdpLines.v ===== *)
(** * Lines of a session description: reading back what was written

    The lemmas on matching, on values and on the placeholders of a format from which
    the rules of the grammar are shown to read the lines they write. *)

From Stdlib Require Import Ascii.
From stdpp Require Import pretty.
From S2P Require Import Prelude Json Regex Strings Dtoa JsonDump JsonDumpSpec SdpGrammar.
From S2P Require Import SdpParser SdpWriter.

(** ** Matching piece by piece *)

Definition starts (p : ascii -> bool) (s : string) : bool :=
  match s with String a _ => p a | EmptyString => false end.

Section Pieces.
Context {A : Type} (n : nat).
Implicit Types (k : string -> captures -> option A) (c : captures) (x : A).

Lemma rm_nil s c k x : k s c = Some x -> rmatch n (seqs []) s c k = Some x.
Proof. done. Qed.
Lemma rm_cons r l s c k x :
  rmatch n r s c (fun s' c' => rmatch n (seqs l) s' c' k) = Some x ->
  rmatch n (seqs (r :: l)) s c k = Some x.
Proof. done. Qed.
Lemma rm_bol s c k x : String.length s = n -> k s c = Some x -> rmatch n RBol s c k = Some x.
Proof. intros <- H. simpl. by rewrite Nat.eqb_refl. Qed.

Lemma rm_lit w s c k x : k s c = Some x -> rmatch n (lit w) (w +:+ s) c k = Some x.
Proof.
  intros H. induction w as [|a w IH]; [done|]. simpl. by rewrite Ascii.eqb_refl.
Qed.
Lemma rm_lit_end w c k x : k "" c = Some x -> rmatch n (lit w) w c k = Some x.
Proof. rewrite <- (str_app_nil_r w) at 2. apply rm_lit. Qed.

Lemma rm_star p w s c k x :
  all_chars p w = true -> starts p s = false -> k s c = Some x ->
  rmatch n (RStar (RChar p)) (w +:+ s) c k = Some x.
Proof.
  intros Hw Hs Hk. induction w as [|a w IH]; simpl in *.
  - destruct s as [|b s]; [done|]. simpl in *. by rewrite Hs.
  - apply andb_true_iff in Hw as [Ha Hw]. rewrite Ha.
    replace (shorter (w +:+ s) (String a (w +:+ s))) with true
      by (symmetry; apply Nat.ltb_lt; simpl; lia).
    by rewrite IH.
Qed.

Lemma rm_star_none p s c k x :
  starts p s = false -> k s c = Some x -> rmatch n (RStar (RChar p)) s c k = Some x.
Proof. intros Hs. by apply (rm_star p ""). Qed.

(** A captured run of a class *)
Lemma rm_field i p w s c k x :
  all_chars p w = true -> starts p s = false -> k s ((i, w) :: c) = Some x ->
  rmatch n (RGroup i (RStar (RChar p))) (w +:+ s) c k = Some x.
Proof.
  intros Hw Hs Hk.
  change (rmatch n (RStar (RChar p)) (w +:+ s) c
    (fun s' c' => k s' ((i, consumed (w +:+ s) s') :: c')) = Some x).
  apply rm_star; [done|done|]. by rewrite consumed_app.
Qed.
Lemma rm_field_end i p w c k x :
  all_chars p w = true -> k "" ((i, w) :: c) = Some x ->
  rmatch n (RGroup i (RStar (RChar p))) w c k = Some x.
Proof. intros. rewrite <- (str_app_nil_r w). by apply rm_field. Qed.

Lemma rm_field_plus i p w s c k x :
  w <> "" -> all_chars p w = true -> starts p s = false -> k s ((i, w) :: c) = Some x ->
  rmatch n (RGroup i (RPlus (RChar p))) (w +:+ s) c k = Some x.
Proof.
  intros Hne Hw Hs Hk. destruct w as [|a w]; [done|]. simpl in Hw.
  apply andb_true_iff in Hw as [Ha Hw]. unfold RPlus.
  change (rmatch n (RSeq (RChar p) (RStar (RChar p))) (String a w +:+ s) c
    (fun s' c' => k s' ((i, consumed (String a w +:+ s) s') :: c')) = Some x).
  cbn [rmatch String.append]. rewrite Ha. apply (rm_star p w s); [done|done|].
  change (String a (w +:+ s)) with (String a w +:+ s). by rewrite consumed_app.
Qed.
Lemma rm_field_plus_end i p w c k x :
  w <> "" -> all_chars p w = true -> k "" ((i, w) :: c) = Some x ->
  rmatch n (RGroup i (RPlus (RChar p))) w c k = Some x.
Proof. intros. rewrite <- (str_app_nil_r w). by apply rm_field_plus. Qed.

(** A captured character of a class *)
Lemma rm_char i p a s c k x :
  p a = true -> k s ((i, String a "") :: c) = Some x ->
  rmatch n (RGroup i (RChar p)) (String a "" +:+ s) c k = Some x.
Proof.
  intros Ha Hk. cbn [rmatch String.append]. rewrite Ha.
  change (String a s) with (String a "" +:+ s). by rewrite consumed_app.
Qed.

(** A captured literal *)
Lemma rm_lit_group i w s c k x :
  k s ((i, w) :: c) = Some x -> rmatch n (RGroup i (lit w)) (w +:+ s) c k = Some x.
Proof.
  intros Hk.
  change (rmatch n (lit w) (w +:+ s) c
    (fun s' c' => k s' ((i, consumed (w +:+ s) s') :: c')) = Some x).
  apply rm_lit. by rewrite consumed_app.
Qed.

Lemma rm_opt_some r s c k x :
  rmatch n r s c (fun s' c' => if shorter s' s then k s' c' else None) = Some x ->
  rmatch n (ROpt r) s c k = Some x.
Proof. intros H. cbn [rmatch]. by rewrite H. Qed.
Lemma rm_opt_none r s c k x :
  rmatch n r s c (fun s' c' => if shorter s' s then k s' c' else None) = None ->
  k s c = Some x -> rmatch n (ROpt r) s c k = Some x.
Proof. intros H Hk. cbn [rmatch]. by rewrite H. Qed.
Lemma rm_group i r s c k x :
  rmatch n r s c (fun s' c' => k s' ((i, consumed s s') :: c')) = Some x ->
  rmatch n (RGroup i r) s c k = Some x.
Proof. done. Qed.
Lemma rm_alt_l r1 r2 s c k x : rmatch n r1 s c k = Some x -> rmatch n (RAlt r1 r2) s c k = Some x.
Proof. intros H. cbn [rmatch]. by rewrite H. Qed.
Lemma rm_alt_r r1 r2 s c k x :
  rmatch n r1 s c k = None -> rmatch n r2 s c k = Some x -> rmatch n (RAlt r1 r2) s c k = Some x.
Proof. intros H Hk. cbn [rmatch]. by rewrite H. Qed.
Lemma rm_eol c k x : k "" c = Some x -> rmatch n REol "" c k = Some x.
Proof. done. Qed.
End Pieces.

(** ** Refuting a match from the start of the target *)

(** Whether a target that starts with [s] may match, where [k] says the same of what
    follows. *)
Fixpoint may (r : regex) (s : string) (k : string -> bool) : bool :=
  match r with
  | REps | RBol => k s
  | RChar p => match s with String a s' => p a && k s' | EmptyString => true end
  | RSeq r1 r2 => may r1 s (fun s' => may r2 s' k)
  | RAlt r1 r2 => may r1 s k || may r2 s k
  | RGroup _ r => may r s k
  | RStar _ | ROpt _ | REol => true
  end.

Lemma may_sound {A} n r s t c (k : string -> bool) (k' : string -> captures -> option A) :
  may r s k = false -> (forall s' c', k s' = false -> k' (s' +:+ t) c' = None) ->
  rmatch n r (s +:+ t) c k' = None.
Proof.
  revert s c k k'. induction r as [|p|r1 IH1 r2 IH2|r1 IH1 r2 IH2|r IH|r IH|i r IH| |];
    intros s c k k' Hm Hk; simpl in *; try done.
  - by apply Hk.
  - destruct s as [|a s]; [done|]. cbn [String.append].
    destruct (p a); [simpl in Hm; by apply Hk|done].
  - apply (IH1 _ _ _ _ Hm). intros s' c' H. apply (IH2 _ _ _ _ H Hk).
  - apply orb_false_iff in Hm as [H1 H2]. rewrite (IH1 _ _ _ _ H1 Hk). apply (IH2 _ _ _ _ H2 Hk).
  - apply (IH _ _ _ _ Hm). intros s' c' H. by apply Hk.
  - destruct (Nat.eqb _ _); [by apply Hk|done].
Qed.

(** An optional part that does not start here *)
Lemma rm_opt_skip {A} n r s t c (k : string -> captures -> option A) x :
  may r s (fun _ => true) = false -> k (s +:+ t) c = Some x ->
  rmatch n (ROpt r) (s +:+ t) c k = Some x.
Proof. intros H Hk. apply rm_opt_none; [|done]. by apply (may_sound _ _ _ _ _ _ _ H). Qed.

(** A pattern anchored at the start of the target *)
Definition anchored (R : Rule) : bool :=
  match reg R with RSeq RBol _ => true | _ => false end.

Lemma search_anchored r s x :
  rmatch (String.length s) (RSeq RBol r) s [] (fun s' c => Some (s', c)) = Some x ->
  regex_search (RSeq RBol r) s = Some ("", x.1, x.2).
Proof. intros H. unfold regex_search. destruct s; cbn [search_from]; rewrite H; by destruct x. Qed.

Lemma search_from_later n r pre s :
  (String.length s < n)%nat -> search_from n (RSeq RBol r) pre s = None.
Proof.
  revert pre. induction s as [|a s IH]; intros pre Hl; cbn [search_from rmatch];
    rewrite (proj2 (Nat.eqb_neq _ _)) by lia; [done|]. apply IH. simpl in Hl. lia.
Qed.

Lemma search_refuted r s :
  rmatch (String.length s) (RSeq RBol r) s [] (fun s' c => Some (s', c)) = None ->
  regex_search (RSeq RBol r) s = None.
Proof.
  intros H. unfold regex_search. destruct s as [|a s]; cbn [search_from]; rewrite H; [done|].
  apply search_from_later. simpl. lia.
Qed.

(** Whether the rule does not apply to a content that starts with [s]. *)
Definition rejects (s : string) (R : Rule) : bool :=
  anchored R && negb (may (reg R) s (fun _ => true)).

Lemma rejects_sound s t R : rejects s R = true -> regex_search (reg R) (s +:+ t) = None.
Proof.
  unfold rejects, anchored. intros [Ha Hm%negb_true_iff]%andb_true_iff.
  destruct (reg R) as [| |r1 r2| | | | | |]; try done. destruct r1; try done.
  apply search_refuted. by apply (may_sound _ _ _ _ _ _ _ Hm).
Qed.

Lemma Forall_rejects rules s t :
  forallb (rejects s) rules = true ->
  Forall (fun R => regex_search (reg R) (s +:+ t) = None) rules.
Proof.
  induction rules as [|R rules IH]; [done|]. simpl. intros [HR Hrules]%andb_true_iff.
  apply Forall_cons. split; [by apply rejects_sound|by apply IH].
Qed.

(** The rule at position [i] is the first to match. *)
Lemma firstRule_at (rules : list Rule) i R s x :
  rules !! i = Some R -> Forall (fun R => regex_search (reg R) s = None) (take i rules) ->
  regex_search (reg R) s = Some x -> firstRule rules s = Some R.
Proof.
  intros Hi Hrej Hx. rewrite <- (take_drop_middle rules i R Hi).
  induction (take i rules) as [|R' rs IH]; simpl in *; [by rewrite Hx|].
  apply Forall_cons in Hrej as [HR Hrej]. rewrite HR. by apply IH.
Qed.

(** ** Values *)

Definition text_of (v : json) : string :=
  match v with JString s => s | JInt z | JUInt z => to_string z | _ => "" end.
Definition num_of (v : json) : Z := match v with JInt z | JUInt z => z | _ => 0 end.

(** A value whose text has only characters of the class [p] and reads back as a value of
    type [t]. *)
Definition value_ok (t : ascii) (p : ascii -> bool) (v : json) : bool :=
  one_of "sdu" t && all_chars p (text_of v) &&
  match v with
  | JString s => Ascii.eqb t "s"%char && negb (String.eqb s "")
  | JInt z | JUInt z => (0 <=? z) && (z <? 2 ^ 63)
  | _ => false
  end.

(** The value that is read *)
Definition retype (t : ascii) (v : json) : json :=
  match t with
  | "d"%char => JInt (num_of v)
  | "u"%char => JUInt (num_of v)
  | _ => JString (text_of v)
  end.

Lemma one_of_sdu t : one_of "sdu" t = true -> t = "s"%char \/ t = "d"%char \/ t = "u"%char.
Proof.
  unfold one_of. simpl. rewrite !orb_true_iff, !Ascii.eqb_eq. intros [?|[?|[?|?]]]; by auto.
Qed.

Lemma toType_text t p v :
  value_ok t p v = true -> text_of v <> "" /\ all_chars p (text_of v) = true /\
    arg_text v = Ok (text_of v) /\ toType (text_of v) t = Ok (retype t v).
Proof.
  unfold value_ok. intros [[Ht Hp]%andb_true_iff Hv]%andb_true_iff. apply one_of_sdu in Ht.
  assert (forall z, 0 <= z < 2 ^ 63 -> toType (to_string z) t =
    Ok (match t with "d"%char => JInt z | "u"%char => JUInt z | _ => JString (to_string z) end)) as Hn.
  { intros z Hz. destruct Ht as [->|[->| ->]]; cbn [toType]; [done| |].
    - by rewrite extract_signed_to_string.
    - by rewrite extract_unsigned_to_string by lia. }
  destruct v as [| |z|z| |s| |]; try done; simpl in *.
  - apply andb_true_iff in Hv as [?%Z.leb_le ?%Z.ltb_lt].
    repeat split; [apply to_string_nonempty|done|apply dump_integer_to_string; lia|by apply Hn].
  - apply andb_true_iff in Hv as [?%Z.leb_le ?%Z.ltb_lt].
    repeat split; [apply to_string_nonempty|done|apply dump_integer_to_string; lia|by apply Hn].
  - apply andb_true_iff in Hv as [->%Ascii.eqb_eq Hs%negb_true_iff%String.eqb_neq]. done.
Qed.

(** ** The fields of an object *)

Definition field_text (o : json) (n : string) : string :=
  match find n o with Some v => text_of v | None => "" end.

(** The fields that are present are read back. *)
Fixpoint fields_ok (o : json) (names : list string) (types : list ascii)
    (classes : list (ascii -> bool)) : bool :=
  match names, types, classes with
  | [], _, _ => true
  | n :: names, t :: types, p :: classes =>
      it_none_or (value_ok t p) (find n o) && fields_ok o names types classes
  | _, _, _ => false
  end.

(** The object that is read, added to [m] *)
Fixpoint reread_fields (o : json) (names : list string) (types : list ascii)
    (m : list (string * json)) : list (string * json) :=
  match names, types with
  | n :: names, t :: types =>
      reread_fields o names types
        (match find n o with Some v => obj_insert n (retype t v) m | None => m end)
  | _, _ => m
  end.

Definition subs (c : captures) (k : nat) : list string := map (fun i => sub (S i) c) (seq 0 k).

Lemma attach_fields c o types1 types names classes m :
  fields_ok o names types classes = true ->
  map (fun i => sub (S i) c) (seq (length types1) (length names)) = map (field_text o) names ->
  attachNames c (types1 ++ types) (length types1) names (JObject m) =
  (Ok tt, JObject (reread_fields o names types m)).
Proof.
  revert types1 types classes m. induction names as [|n names IH];
    intros types1 types classes m Hok Hc; [by destruct types|].
  destruct types as [|t types], classes as [|p classes]; try done. simpl in Hok.
  apply andb_true_iff in Hok as [Hn Hok]. injection Hc as Hc0 Hc. cbn [attachNames].
  assert (attachNames c (types1 ++ t :: types) (S (length types1)) names = 
    attachNames c ((types1 ++ [t]) ++ types) (length (types1 ++ [t])) names) as ->.
  { rewrite length_app, <- app_assoc, Nat.add_comm. done. }
  rewrite Hc0. unfold field_text. cbn [reread_fields].
  destruct (find n o) as [v|] eqn:Ev; simpl in Hn.
  - destruct (toType_text _ _ _ Hn) as (Hne & _ & _ & Ht).
    rewrite (proj2 (String.eqb_neq _ _) Hne). cbn [negb]. unfold bind at 1. cbn [when].
    unfold type_at. rewrite list_lookup_middle by done. unfold bind, lift. rewrite Ht.
    cbn [set_key as_object]. apply (IH _ _ classes); [done|].
    by rewrite length_app, Nat.add_comm.
  - cbn. unfold bind, ret. apply (IH _ _ classes); [done|]. by rewrite length_app, Nat.add_comm.
Qed.

(** ** The content of a line *)

(** What is written when every argument has a text *)
Fixpoint fill_text (ps : list (string * string)) (texts : list string) : string :=
  match ps, texts with
  | [], _ => ""
  | (_, str) :: ps, [] => str +:+ fill_text ps []
  | (prefix, str) :: ps, text :: texts =>
      prefix +:+
      (if String.eqb str "%%" then "%"
       else if String.eqb str "%s" || String.eqb str "%d" then text else "") +:+
      fill_text ps texts
  end.

(** The arguments of the first [k] names are the fields of [o]. *)
Definition args_of (R : Rule) (location o : json) (k : nat) : Prop :=
  Forall (fun n => arg_text (lineArg R location n) = Ok (field_text o n)) (take k (names R)).

Lemma fill_fields R location o (ps : list (string * string)) ns :
  Forall (fun n => arg_text (lineArg R location n) = Ok (field_text o n)) (take (length ps) ns) ->
  (length ps <= length ns)%nat ->
  fill ps (map (lineArg R location) ns) = Ok (fill_text ps (map (field_text o) ns)).
Proof.
  revert ns. induction ps as [|[prefix str] ps IH]; intros [|n ns] Hargs Hl; try done; [simpl in Hl; lia|].
  simpl in Hargs. apply Forall_cons in Hargs as [Hn Hargs]. cbn [map fill fill_text].
  rewrite Hn, IH by (done || simpl in Hl; lia). by repeat case_match.
Qed.

Lemma field_arg o n t p : it_none_or (value_ok t p) (find n o) = true ->
  arg_text (default (JString "") (find n o)) = Ok (field_text o n).
Proof.
  unfold field_text. destruct (find n o) as [v|]; [|done]. simpl. intros Hv.
  by apply toType_text in Hv as (_ & _ & ? & _).
Qed.

Lemma fields_ok_name o names types classes n :
  fields_ok o names types classes = true -> n ∈ names ->
  exists t p, it_none_or (value_ok t p) (find n o) = true.
Proof.
  revert types classes. induction names as [|n' names IH]; intros types classes Hok Hn; [by inversion Hn|].
  destruct types as [|t types], classes as [|p classes]; try done. simpl in Hok.
  apply andb_true_iff in Hok as [Hn' Hok]. apply elem_of_cons in Hn as [->|Hn]; eauto.
Qed.

(** For the rules whose line describes the object itself *)
Lemma args_of_self R o classes k :
  name R = "" -> fields_ok o (names R) (types R) classes = true -> args_of R o o k.
Proof.
  intros Hname Hok. apply Forall_forall. intros n Hn%subseteq_take.
  destruct (fields_ok_name _ _ _ _ _ Hok Hn) as (t & p & H). unfold lineArg. rewrite Hname.
  cbn. by eapply field_arg.
Qed.

(** For the rules whose line describes a named object *)
Lemma args_of_named R location o classes k :
  name R <> "" -> find (name R) location = Some o ->
  fields_ok o (names R) (types R) classes = true ->
  forallb (fun n => contains n o) (take k (names R)) = true -> args_of R location o k.
Proof.
  intros Hname Ho Hok Hk. apply Forall_forall. intros n Hn.
  pose proof (proj1 (forallb_forall _ _) Hk n (proj1 (list_elem_of_In _ _) Hn)) as Hc.
  destruct (fields_ok_name _ _ _ _ _ Hok (subseteq_take _ _ _ Hn)) as (t & p & H).
  apply field_arg in H. unfold lineArg. rewrite (proj2 (String.eqb_neq _ _) Hname), Ho.
  unfold contains in Hc. apply bool_decide_eq_true in Hc as [v Hv]. rewrite Hv in *. done.
Qed.

Lemma makeLine_fields type R location o fmt :
  lineFormat R location = Ok fmt -> names R <> [] ->
  (length (placeholders fmt) <= length (names R))%nat ->
  args_of R location o (length (placeholders fmt)) ->
  makeLine type R location = Ok (String type ("=" +:+
    fill_text (placeholders fmt) (map (field_text o) (names R)) +:+ crlf)).
Proof.
  intros Hf Hne Hl Hargs. unfold makeLine. rewrite Hf. cbn [result_bind].
  assert (lineArgs R location = map (lineArg R location) (names R)) as ->
    by (unfold lineArgs; by destruct (names R)).
  by rewrite (fill_fields R location o).
Qed.

(** A field that is present, or absent *)
Lemma field_present o k t p :
  it_none_or (value_ok t p) (find k o) = true -> contains k o = true ->
  field_text o k <> "" /\ all_chars p (field_text o k) = true /\ hasValue o k = true.
Proof.
  unfold contains, field_text, hasValue. intros H [v Hv]%bool_decide_eq_true. rewrite Hv in *.
  simpl in H. destruct (toType_text _ _ _ H) as (Hne & Hp & _ & _). split; [done|split; [done|]].
  unfold value_ok in H. apply andb_true_iff in H as [_ H]. destruct v; try done.
  by apply andb_true_iff in H as [_ H].
Qed.
Lemma field_absent o k : contains k o = false -> field_text o k = "" /\ hasValue o k = false.
Proof.
  unfold contains, field_text, hasValue. intros H%bool_decide_eq_false.
  destruct (find k o) eqn:E; [|done]. by destruct H.
Qed.

(** ** Uniqueness of runs *)

(** A string starts with one longest run of a class. *)
Lemma run_unique p a b s t :
  all_chars p a = true -> all_chars p b = true -> starts p s = false -> starts p t = false ->
  a +:+ s = b +:+ t -> a = b /\ s = t.
Proof.
  revert b. induction a as [|x a IH]; intros [|y b] Ha Hb Hs Ht H; simpl in *.
  - done.
  - subst s. simpl in Hs. apply andb_true_iff in Hb as [Hy _]. congruence.
  - subst t. simpl in Ht. apply andb_true_iff in Ha as [Hx _]. congruence.
  - apply andb_true_iff in Ha as [_ Ha], Hb as [_ Hb]. injection H as -> H.
    by destruct (IH b Ha Hb Hs Ht H) as [-> ->].
Qed.

Lemma rel_lit n w s c s' c' : rel n (lit w) s c s' c' -> c' = c /\ s = w +:+ s'.
Proof.
  revert s. induction w as [|a w IH]; intros s H; simpl in *.
  - by inversion H; subst.
  - apply rel_seq_inv in H as (s1 & c1 & H1 & H2). inversion H1 as [|? b ? ? Hb| | | | | | | | | |]; subst.
    apply Ascii.eqb_eq in Hb as <-. by apply IH in H2 as [-> ->].
Qed.

(** ** Characters that end a line *)

Definition newline : ascii := "010"%char.

Lemma free_of_app d a b : free_of d (a +:+ b) = free_of d a && free_of d b.
Proof. unfold free_of. induction a as [|x a IH]; [done|]. simpl. by rewrite IH, andb_assoc. Qed.
Lemma free_of_class d p w : all_chars p w = true -> p d = false -> free_of d w = true.
Proof.
  unfold free_of. intros Hw Hd. induction w as [|a w IH]; [done|]. simpl in *.
  apply andb_true_iff in Hw as [Ha Hw]. rewrite IH by done.
  destruct (Ascii.eqb_spec a d) as [->|]; [congruence|done].
Qed.

(** ** Reading a line back

    The line that [R] writes for [location] is read by [R] first, and its captures are
    the texts of the fields of [o]. *)
Definition reads (type : ascii) (R : Rule) (location : json) (texts : list string) : Prop :=
  exists content pre suf c rules,
    makeLine type R location = Ok (String type ("=" +:+ content +:+ crlf)) /\
    free_of newline content = true /\
    rulesMap type = Some rules /\ firstRule rules content = Some R /\
    regex_search (reg R) content = Some (pre, suf, c) /\
    subs c (length texts) = texts.

Lemma reads_intro type R location texts rules i s t l x :
  reg R = seqs (RBol :: l) ->
  makeLine type R location = Ok (String type ("=" +:+ (s +:+ t) +:+ crlf)) ->
  rulesMap type = Some rules -> rules !! i = Some R ->
  Forall (fun R => regex_search (reg R) (s +:+ t) = None) (take i rules) ->
  free_of newline (s +:+ t) = true ->
  rmatch (String.length (s +:+ t)) (seqs (RBol :: l)) (s +:+ t) []
    (fun s' c => Some (s', c)) = Some x ->
  subs x.2 (length texts) = texts ->
  reads type R location texts.
Proof.
  intros Hr Hm Hrules Hi Hrej Hfree Hx Hs. apply search_anchored in Hx.
  change (RSeq RBol _) with (seqs (RBol :: l)) in Hx. rewrite <- Hr in Hx.
  exists (s +:+ t), "", x.1, x.2, rules. repeat split; try done. by eapply firstRule_at.
Qed.

(** The same for the only rule of a type *)
Lemma reads_only type R location texts t l x :
  reg R = seqs (RBol :: l) ->
  makeLine type R location = Ok (String type ("=" +:+ t +:+ crlf)) ->
  rulesMap type = Some [R] -> free_of newline t = true ->
  rmatch (String.length t) (seqs (RBol :: l)) t [] (fun s' c => Some (s', c)) = Some x ->
  subs x.2 (length texts) = texts ->
  reads type R location texts.
Proof.
  intros Hr Hm Hrules Hfree Hx Hs.
  by apply (reads_intro type R location texts [R] 0 "" t l x).
Qed.
