(* ===== verification/SdpRules.v ===== *)
(** * The rules read what they write

    For the rules the remote description uses: an object whose fields fit the rule is
    written as a line that the same rule reads back. *)

From Stdlib Require Import Ascii.
From S2P Require Import Prelude Json Regex Strings Dtoa JsonDump JsonDumpSpec SdpGrammar.
From S2P Require Import SdpParser SdpWriter SdpLines.

(** The payload type of a feedback line *)
Lemma rm_payload {A} n i w s c (k : string -> captures -> option A) x :
  w <> "" -> all_chars is_digit w = true -> starts is_digit s = false ->
  k s ((i, w) :: c) = Some x ->
  rmatch n (RGroup i (RAlt (lit "*") (RStar digit))) (w +:+ s) c k = Some x.
Proof.
  intros Hne Hw Hs Hk. destruct w as [|a w]; [done|]. apply rm_group, rm_alt_r.
  - simpl in Hw. apply andb_true_iff in Hw as [Hw _]. cbn.
    by destruct a as [[] [] [] [] [] [] [] []].
  - apply (rm_star n is_digit (String a w)); [done|done|]. by rewrite consumed_app.
Qed.

(** ** Automation *)

(** Discharges the progress an optional part makes. *)
Ltac rm_shorter :=
  match goal with
  | |- (if shorter ?t ?s then _ else None) = Some _ =>
      replace (shorter t s) with true
        by (symmetry; apply Nat.ltb_lt; rewrite ?str_length_app; simpl String.length; lia)
  end.

(** Steps that one rule needs. *)
Ltac rm_extra := fail.

(** Matches the next piece of a pattern against the next piece of a content. *)
Ltac rm_step := cbv beta;
  match goal with
  | |- _ => rm_extra
  | |- (if shorter _ _ then _ else None) = Some _ => rm_shorter
  | |- rmatch _ (seqs []) _ _ _ = _ => apply rm_nil
  | |- rmatch _ (seqs (_ :: _)) _ _ _ = _ => apply rm_cons
  | |- rmatch _ RBol _ _ _ = _ => apply rm_bol; [reflexivity|]
  | |- rmatch _ REol _ _ _ = _ => apply rm_eol
  | |- rmatch _ (lit _) (_ +:+ _) _ _ = _ => apply rm_lit
  | |- rmatch _ (lit _) _ _ _ = _ => apply rm_lit_end
  | |- rmatch _ (RGroup _ (RStar _)) (_ +:+ _) _ _ = _ =>
      apply rm_field; [assumption|reflexivity|]
  | |- rmatch _ (RGroup _ (RStar _)) _ _ _ = _ => apply rm_field_end; [assumption|]
  | |- rmatch _ (RGroup _ (RPlus _)) (_ +:+ _) _ _ = _ =>
      apply rm_field_plus; [assumption|assumption|reflexivity|]
  | |- rmatch _ (RGroup _ (RPlus _)) _ _ _ = _ =>
      apply rm_field_plus_end; [assumption|assumption|]
  | |- rmatch _ (RGroup _ (RAlt (lit "*") _)) _ _ _ = _ =>
      apply rm_payload; [assumption|assumption|reflexivity|]
  | |- rmatch _ (RStar space) _ _ _ = _ =>
      apply rm_star_none; [reflexivity|]
  | |- rmatch _ (ROpt _) "" _ _ = _ => apply rm_opt_none; [reflexivity|]
  | |- rmatch _ (ROpt _) (_ +:+ _) _ _ = _ =>
      first [apply rm_opt_skip; [reflexivity|] | apply rm_opt_some]
  end.

(** Evaluates the format of a line and the texts put into it. *)
Ltac eval_line H :=
  match type of H with
  | context [placeholders ?f] =>
      let v := eval vm_compute in (placeholders f) in change (placeholders f) with v in H
  end;
  match type of H with
  | context [map (field_text ?o) ?ns] =>
      let v := eval cbn in ns in change ns with v in H
  end;
  cbn [map fill_text String.eqb Ascii.eqb Bool.eqb orb] in H;
  repeat match goal with E : field_text _ _ = _ |- _ => rewrite E in H end;
  change (String.append "") with (fun s : string => s) in H; cbv beta in H;
  rewrite ?str_app_nil_r in H.

(** Uses what is known of the fields that are present or absent. *)
Ltac use_fields :=
  repeat match goal with
  | H : _ && _ = true |- _ => apply andb_true_iff in H as [? ?]
  end;
  repeat match goal with
  | H : it_none_or _ (find ?k ?o) = true, Hc : contains ?k ?o = true |- _ =>
      destruct (field_present o k _ _ H Hc) as (? & ? & ?); clear H Hc
  | Hc : contains ?k ?o = false |- _ =>
      destruct (field_absent o k Hc) as (? & ?); clear Hc
  end.

Ltac eval_format :=
  match goal with |- lineFormat ?R _ = _ => unfold lineFormat, R end;
  cbn [format String.eqb push name formatFunc negb result_bind];
  repeat match goal with H : hasValue _ _ = _ |- _ => rewrite H end; reflexivity.

Ltac free_of_newline :=
  rewrite ?free_of_app;
  repeat match goal with
  | H : all_chars ?p ?w = true |- _ => rewrite (free_of_class newline p w H) by reflexivity
  end; reflexivity.

(** ** Classes *)

Definition codec_char (a : ascii) : bool := is_word a || one_of "-." a.
Definition word_char (a : ascii) : bool := is_word a || one_of "-" a.
Definition nonspace_char (a : ascii) : bool := negb (is_space a).

Definition present (o : json) (ks : list string) : bool := forallb (fun k => contains k o) ks.

(** Finishes the proof that a line is read, at position [i] of the rules, from the
    equation [Hm] that gives the line. *)
Ltac read_line_by Hm rules i s skip :=
  eapply (reads_intro _ _ _ _ rules i s);
  [ reflexivity | exact Hm | reflexivity | reflexivity | skip | free_of_newline
  | repeat rm_step; reflexivity
  | repeat match goal with |- context [names ?R] =>
      let v := eval cbn in (names R) in change (names R) with v end;
    cbn [map length];
    repeat match goal with E : field_text _ _ = "" |- _ => rewrite E end; reflexivity ].
Ltac read_only Hm :=
  eapply reads_only;
  [ reflexivity | exact Hm | reflexivity | free_of_newline
  | repeat rm_step; reflexivity
  | repeat match goal with |- context [names ?R] =>
      let v := eval cbn in (names R) in change (names R) with v end;
    cbn [map length];
    repeat match goal with E : field_text _ _ = "" |- _ => rewrite E end; reflexivity ].
Ltac read_line Hm rules i s := read_line_by Hm rules i s ltac:(apply Forall_rejects; reflexivity).

(** The line of a rule that describes the object itself *)
Lemma self_line type R o classes fmt :
  name R = "" -> fields_ok o (names R) (types R) classes = true -> lineFormat R o = Ok fmt ->
  Nat.leb (length (placeholders fmt)) (length (names R)) && negb (bool_decide (names R = [])) = true ->
  makeLine type R o = Ok (String type ("=" +:+
    fill_text (placeholders fmt) (map (field_text o) (names R)) +:+ crlf)).
Proof.
  intros Hn Hok Hf [Hl%Nat.leb_le Hne%negb_true_iff%bool_decide_eq_false]%andb_true_iff.
  apply makeLine_fields; [done|done|done|]. by eapply args_of_self.
Qed.

(** The line of a rule that describes a named object *)
Lemma named_line type R location o classes fmt :
  negb (String.eqb (name R) "") = true -> find (name R) location = Some o ->
  fields_ok o (names R) (types R) classes = true -> lineFormat R location = Ok fmt ->
  forallb (fun n => contains n o) (take (length (placeholders fmt)) (names R)) = true ->
  Nat.leb (length (placeholders fmt)) (length (names R)) && negb (bool_decide (names R = [])) = true ->
  makeLine type R location = Ok (String type ("=" +:+
    fill_text (placeholders fmt) (map (field_text o) (names R)) +:+ crlf)).
Proof.
  intros Hn%negb_true_iff%String.eqb_neq Ho Hok Hf Hp
    [Hl%Nat.leb_le Hne%negb_true_iff%bool_decide_eq_false]%andb_true_iff.
  apply makeLine_fields; [done|done|done|]. by eapply args_of_named.
Qed.

(** The line of a rule that describes a named value *)
Lemma value_line type R location v pre t p :
  names R = [] -> negb (String.eqb (format R) "") = true -> find (name R) location = Some v ->
  value_ok t p v = true ->
  placeholders (format R) = [(pre, "%s")] \/ placeholders (format R) = [(pre, "%d")] ->
  makeLine type R location = Ok (String type ("=" +:+ (pre +:+ text_of v) +:+ crlf)).
Proof.
  intros Hn Hf%negb_true_iff Hv Hok Hp. destruct (toType_text _ _ _ Hok) as (_ & _ & Ha & _).
  unfold makeLine, lineFormat, lineArgs. rewrite Hf, Hn, Hv. cbn [result_bind].
  destruct Hp as [-> | ->]; cbn [fill String.eqb Ascii.eqb Bool.eqb orb]; rewrite Ha; cbn [result_bind];
    by rewrite str_app_nil_r.
Qed.

Ltac self_rule_by type R o Hok rules i s skip :=
  let Hf := fresh in let Hm := fresh in
  eassert (lineFormat R o = Ok _) as Hf by eval_format;
  pose proof (self_line type R o _ _ eq_refl Hok Hf eq_refl) as Hm;
  eval_line Hm; read_line_by Hm rules i s skip.
Ltac self_rule type R o Hok rules i s :=
  self_rule_by type R o Hok rules i s ltac:(apply Forall_rejects; reflexivity).

Ltac self_only type R o Hok :=
  let Hf := fresh in let Hm := fresh in
  eassert (lineFormat R o = Ok _) as Hf by eval_format;
  pose proof (self_line type R o _ _ eq_refl Hok Hf eq_refl) as Hm;
  eval_line Hm; read_only Hm.

(** ** Rules of pushed objects *)

Definition fits (R : Rule) (classes : list (ascii -> bool)) (required : list string) (o : json) : bool :=
  fields_ok o (names R) (types R) classes && present o required.

Definition reads_self (type : ascii) (R : Rule) (o : json) : Prop :=
  reads type R o (map (field_text o) (names R)).

Ltac open_fits Hok :=
  let H := fresh in let Hf := fresh in
  unfold fits; intros [Hok H]%andb_true_iff; pose proof Hok as Hf;
  match type of Hf with fields_ok _ (names ?R) (types ?R) _ = true =>
    unfold R in Hf end;
  cbn [fields_ok names types present forallb] in Hf, H.

Definition rtp_ok : json -> bool :=
  fits rtpRule [is_digit; codec_char; is_digit; nonspace_char] ["payload"; "codec"; "rate"].

Lemma reads_rtp o : rtp_ok o = true -> reads_self "a"%char rtpRule o.
Proof.
  open_fits Hok. destruct (contains "encoding" o) eqn:E; use_fields;
    self_rule "a"%char rtpRule o Hok attributeRules 0%nat "rtpmap:".
Qed.

Definition fmtp_ok : json -> bool := fits fmtpRule [is_digit; is_dot] ["payload"; "config"].

Lemma reads_fmtp o : fmtp_ok o = true -> reads_self "a"%char fmtpRule o.
Proof.
  open_fits Hok. use_fields. self_rule "a"%char fmtpRule o Hok attributeRules 1%nat "fmtp:".
Qed.

(** *** rtcp-fb *)

(** The rule for trr-int, which is tried first, does not apply to another type. *)
Lemma trr_int_refuted w ty rest :
  all_chars is_digit w = true -> all_chars word_char ty = true ->
  ty <> "trr-int" -> starts word_char rest = false ->
  regex_search (reg rtcpFbTrrIntRule) ("rtcp-fb:" +:+ w +:+ " " +:+ ty +:+ rest) = None.
Proof.
  intros Hw Hty Hne Hrest. apply search_refuted.
  destruct (rmatch _ _ _ _ _) as [x|] eqn:E; [|done]. exfalso.
  apply rmatch_sound in E as (s' & c' & E & _).
  change (RSeq RBol _) with (seqs [RBol; lit "rtcp-fb:"; RGroup 1 (RAlt (lit "*") (RStar digit));
    lit " trr-int "; RGroup 2 (RStar digit)]) in E.
  cbn [seqs foldr] in E.
  repeat (apply rel_seq_inv in E as (? & ? & ? & E)).
  repeat match goal with
  | H : rel _ RBol _ _ _ _ |- _ => apply rel_bol_inv in H as (-> & _ & _)
  | H : rel _ (lit _) _ _ _ _ |- _ => apply rel_lit in H as [-> H]
  | H : rel _ (RGroup 1 _) _ _ _ _ |- _ => apply rel_group_inv in H as (? & H & ->)
  end.
  apply (str_app_inj "rtcp-fb:" "rtcp-fb:") in H0 as [_ <-]; [|done]. subst x4.
  assert (exists w', all_chars is_digit w' = true /\
    w +:+ " " +:+ ty +:+ rest = w' +:+ " trr-int " +:+ x6) as (w' & Hw' & H).
  { apply rel_alt_inv in H1 as [H1|H1].
    - apply rel_lit in H1 as [_ H1]. destruct w as [|a w]; simpl in H1; [done|].
      injection H1 as -> _. done.
    - apply rel_star_class in H1 as (_ & w' & H1 & Hw'). eauto. }
  apply (run_unique is_digit) in H as [_ H]; [|done..].
  apply (str_app_inj " " " ") in H as [_ H]; [|done].
  change (ty +:+ rest = "trr-int" +:+ " " +:+ x6) in H.
  by apply (run_unique word_char) in H as [H _].
Qed.

Definition rtcpFb_ok (o : json) : bool :=
  fits rtcpFbRule [is_digit; word_char; word_char]
    ["payload"; "type"] o && negb (String.eqb (field_text o "type") "trr-int").

Lemma reads_rtcpFb o : rtcpFb_ok o = true -> reads_self "a"%char rtcpFbRule o.
Proof.
  unfold rtcpFb_ok. intros [H Hty%negb_true_iff%String.eqb_neq]%andb_true_iff. revert H. open_fits Hok.
  assert (forall rest, starts word_char rest = false ->
    Forall (fun R => regex_search (reg R) ("rtcp-fb:" +:+ field_text o "payload" +:+ " " +:+
      field_text o "type" +:+ rest) = None) (take 5 attributeRules)) as Hskip.
  { intros rest Hrest. use_fields.
    change (take 5 attributeRules) with (take 4 attributeRules ++ [rtcpFbTrrIntRule]).
    apply Forall_app_2; [apply Forall_rejects; reflexivity|]. apply Forall_singleton.
    by apply trr_int_refuted. }
  destruct (contains "subtype" o) eqn:E; use_fields.
  - self_rule_by "a"%char rtcpFbRule o Hok attributeRules 5%nat "rtcp-fb:" ltac:(by apply Hskip).
  - specialize (Hskip "" eq_refl). rewrite str_app_nil_r in Hskip.
    self_rule_by "a"%char rtcpFbRule o Hok attributeRules 5%nat "rtcp-fb:" ltac:(exact Hskip).
Qed.

(** *** extmap *)

Definition encrypt_uri : string := "urn:ietf:params:rtp-hdrext:encrypt".

(** The URI is not taken for the one that announces encryption. *)
Lemma rm_not_encrypted {A} n uri tail l c (k : string -> captures -> option A) x :
  uri <> encrypt_uri -> all_chars nonspace_char uri = true -> starts nonspace_char tail = false ->
  rmatch n (seqs (lit " " :: l)) (" " +:+ uri +:+ tail) c k = Some x ->
  rmatch n (ROpt (seqs [lit " "; RGroup 3 (lit encrypt_uri)])) (" " +:+ uri +:+ tail) c
    (fun s' c' => rmatch n (seqs (lit " " :: l)) s' c' k) = Some x.
Proof.
  intros Hne Huri Htail Hk. apply rm_opt_none; [|done].
  match goal with |- ?t = None => destruct t as [y|] eqn:E; [|done] end. exfalso.
  apply rmatch_sound in E as (s' & c' & E & Hy). cbn [seqs foldr] in E.
  repeat (apply rel_seq_inv in E as (? & ? & ? & E)). inversion E; subst; clear E.
  apply rel_lit in H as [-> H]. apply rel_group_inv in H0 as (? & H0 & ->).
  apply rel_lit in H0 as [-> ->]. destruct (shorter _ _); [|done].
  apply rmatch_sound in Hy as (? & ? & (? & ? & Hl & _)%rel_seq_inv & _).
  apply rel_lit in Hl as [_ ->].
  apply (str_app_inj " " " ") in H as [_ H]; [|done].
  by apply (run_unique nonspace_char) in H as [H _].
Qed.

Lemma rm_not_encrypted_end {A} n uri l c (k : string -> captures -> option A) x :
  uri <> encrypt_uri -> all_chars nonspace_char uri = true ->
  rmatch n (seqs (lit " " :: l)) (" " +:+ uri) c k = Some x ->
  rmatch n (ROpt (seqs [lit " "; RGroup 3 (lit encrypt_uri)])) (" " +:+ uri) c
    (fun s' c' => rmatch n (seqs (lit " " :: l)) s' c' k) = Some x.
Proof.
  intros Hne Huri. rewrite <- (str_app_nil_r uri). by apply rm_not_encrypted;
    rewrite ?str_app_nil_r.
Qed.

Ltac rm_extra ::=
  match goal with |- rmatch _ (ROpt (seqs [_; RGroup 3 _])) _ _ _ = _ =>
    first [ apply rm_not_encrypted; [assumption|assumption|reflexivity|]
          | apply rm_not_encrypted_end; [assumption|assumption|] ] end.

Definition ext_ok (o : json) : bool :=
  fits extRule [is_digit; is_word; is_dot; nonspace_char; nonspace_char] ["value"; "uri"] o &&
  negb (contains "encrypt-uri" o) && negb (String.eqb (field_text o "uri") encrypt_uri).

Lemma reads_ext o : ext_ok o = true -> reads_self "a"%char extRule o.
Proof.
  unfold ext_ok. intros [[H He%negb_true_iff]%andb_true_iff
    Huri%negb_true_iff%String.eqb_neq]%andb_true_iff. revert H. open_fits Hok.
  destruct (contains "direction" o) eqn:E; destruct (contains "config" o) eqn:E'; use_fields;
    self_rule "a"%char extRule o Hok attributeRules 6%nat "extmap:".
Qed.

Ltac rm_extra ::= fail.

(** *** The other rules of pushed objects *)

Definition rtcpFbTrrInt_ok : json -> bool :=
  fits rtcpFbTrrIntRule [is_digit; is_digit] ["payload"; "value"].

Lemma reads_rtcpFbTrrInt o : rtcpFbTrrInt_ok o = true -> reads_self "a"%char rtcpFbTrrIntRule o.
Proof.
  open_fits Hok. use_fields.
  self_rule "a"%char rtcpFbTrrIntRule o Hok attributeRules 4%nat "rtcp-fb:".
Qed.

Definition crypto_ok : json -> bool :=
  fits cryptoRule [is_digit; is_word; nonspace_char; nonspace_char] ["id"; "suite"; "config"].

Lemma reads_crypto o : crypto_ok o = true -> reads_self "a"%char cryptoRule o.
Proof.
  open_fits Hok. destruct (contains "sessionConfig" o) eqn:E; use_fields;
    self_rule "a"%char cryptoRule o Hok attributeRules 8%nat "crypto:".
Qed.

Definition ssrcs_ok : json -> bool :=
  fits ssrcsRule [is_digit; word_char; is_dot] ["id"; "attribute"].

Lemma reads_ssrcs o : ssrcs_ok o = true -> reads_self "a"%char ssrcsRule o.
Proof.
  open_fits Hok. destruct (contains "value" o) eqn:E; use_fields;
    self_rule "a"%char ssrcsRule o Hok attributeRules 23%nat "ssrc:".
Qed.

Definition semantics_char (a : ascii) : bool :=
  one_of "!#$%&'*" a || code_in 43 46 a || is_word a.
Definition ssrcGroups_ok : json -> bool :=
  fits ssrcGroupsRule [semantics_char; is_dot] ["semantics"; "ssrcs"].

Lemma reads_ssrcGroups o : ssrcGroups_ok o = true -> reads_self "a"%char ssrcGroupsRule o.
Proof.
  open_fits Hok. use_fields.
  self_rule "a"%char ssrcGroupsRule o Hok attributeRules 24%nat "ssrc-group:".
Qed.

Definition groups_ok : json -> bool := fits groupsRule [is_word; is_dot] ["type"; "mids"].

Lemma reads_groups o : groups_ok o = true -> reads_self "a"%char groupsRule o.
Proof.
  open_fits Hok. use_fields. self_rule "a"%char groupsRule o Hok attributeRules 26%nat "group:".
Qed.

(** A relay address goes with its port, and the network fields with a generation: a
    line with a network field and no generation is not read back. *)
Definition candidates_ok (o : json) : bool :=
  fits candidatesRule
    [nonspace_char; is_digit; nonspace_char; is_digit; nonspace_char; is_digit; nonspace_char;
     nonspace_char; is_digit; nonspace_char; is_digit; is_digit; is_digit]
    ["foundation"; "component"; "transport"; "priority"; "ip"; "port"; "type"] o &&
  Bool.eqb (contains "raddr" o) (contains "rport" o) &&
  (contains "generation" o || negb (contains "network-id" o || contains "network-cost" o)).

Lemma reads_candidates o : candidates_ok o = true -> reads_self "a"%char candidatesRule o.
Proof.
  unfold candidates_ok. intros [[H Hr%Bool.eqb_prop]%andb_true_iff Hg]%andb_true_iff. revert H.
  open_fits Hok. destruct (contains "raddr" o) eqn:E1; symmetry in Hr;
    destruct (contains "tcptype" o) eqn:E2; destruct (contains "generation" o) eqn:E3;
    destruct (contains "network-id" o) eqn:E4; destruct (contains "network-cost" o) eqn:E5;
    simpl in Hg; try discriminate Hg; use_fields.
  all: self_rule "a"%char candidatesRule o Hok attributeRules 19%nat "candidate:".
Qed.

(** *** Rules behind the unanchored one

    The pattern of x-google-flag is searched for anywhere in a content. *)

Fixpoint no_suffix (r : regex) (s : string) : bool :=
  match s with
  | EmptyString => true
  | String _ s' => negb (may r s (fun _ => true)) && no_suffix r s'
  end.

Lemma flag_refuted s t :
  no_suffix (reg xGoogleFlagRule) s = true -> free_of ":"%char t = true ->
  regex_search (reg xGoogleFlagRule) (s +:+ t) = None.
Proof.
  intros Hs Ht. unfold regex_search. generalize (String.length (s +:+ t)) as n. intros n.
  assert (forall pre, search_from n (reg xGoogleFlagRule) pre t = None) as Hrest.
  { induction t as [|a t IH]; intros pre; [done|]. cbn [search_from].
    match goal with |- match ?m with _ => _ end = None => destruct m as [y|] eqn:E end.
    - exfalso. apply rmatch_sound in E as (s' & c' & (? & ? & H & _)%rel_seq_inv & _).
      apply rel_lit in H as [_ H]. rewrite H in Ht. by rewrite free_of_app in Ht.
    - apply IH. unfold free_of in *. simpl in Ht. by apply andb_true_iff in Ht as [_ ?]. }
  generalize "" as pre. induction s as [|a s IH]; intros pre; [apply Hrest|].
  cbn [no_suffix] in Hs. apply andb_true_iff in Hs as [Ha%negb_true_iff Hs].
  change (String a s +:+ t) with (String a (s +:+ t)). cbn [search_from].
  change (String a (s +:+ t)) with (String a s +:+ t).
  rewrite (may_sound n _ _ _ _ _ _ Ha) by done. by apply IH.
Qed.

Definition plain_char (a : ascii) : bool := is_dot a && negb (Ascii.eqb a ":"%char).
Definition rids_ok : json -> bool :=
  fits ridsRule [is_word; is_word; plain_char] ["id"; "direction"].

Ltac free_of_colon :=
  rewrite ?free_of_app;
  repeat match goal with
  | H : all_chars ?p ?w = true |- _ => rewrite (free_of_class ":"%char p w H) by reflexivity
  end; reflexivity.

(** Skips the first [n] rules, among them the unanchored one. *)
Ltac skip_flag n :=
  change (take n attributeRules)
    with (take 30 attributeRules ++ xGoogleFlagRule :: take (n - 31) (drop 31 attributeRules));
  apply Forall_app_2; [apply Forall_rejects; reflexivity|];
  apply Forall_cons; split;
  [apply flag_refuted; [reflexivity|free_of_colon]|apply Forall_rejects; reflexivity].

Lemma plain_is_dot w : all_chars plain_char w = true -> all_chars is_dot w = true.
Proof.
  induction w as [|a w IH]; [done|]. simpl. unfold plain_char at 1.
  intros [[-> _]%andb_true_iff ?]%andb_true_iff. simpl. auto.
Qed.

Lemma reads_rids o : rids_ok o = true -> reads_self "a"%char ridsRule o.
Proof.
  open_fits Hok. destruct (contains "params" o) eqn:E; use_fields.
  - pose proof (plain_is_dot _ ltac:(eassumption)).
    self_rule_by "a"%char ridsRule o Hok attributeRules 31%nat "rid:" ltac:(skip_flag 31%nat).
  - self_rule_by "a"%char ridsRule o Hok attributeRules 31%nat "rid:" ltac:(skip_flag 31%nat).
Qed.

(** *** Bandwidths and media lines *)

(** No word of the list is found where another one is. *)
Definition words_apart (ws : list string) : bool :=
  forallb (fun w => forallb (fun w' =>
    String.eqb w' w || negb (may (lit w') w (fun _ => true))) ws) ws.

(** A captured word out of a list of words *)
Lemma rm_words {A} n i ws w s c (k : string -> captures -> option A) x :
  words_apart ws = true -> w ∈ ws -> k s ((i, w) :: c) = Some x ->
  rmatch n (RGroup i (alts (map lit ws))) (w +:+ s) c k = Some x.
Proof.
  intros Ha Hw Hk. apply rm_group.
  assert (forall w', w' ∈ ws -> w' = w \/ may (lit w') w (fun _ => true) = false) as Hap.
  { intros w' Hw'. unfold words_apart in Ha. rewrite forallb_forall in Ha.
    specialize (Ha w ltac:(by apply list_elem_of_In)). rewrite forallb_forall in Ha.
    specialize (Ha w' ltac:(by apply list_elem_of_In)).
    apply orb_true_iff in Ha as [->%String.eqb_eq|?%negb_true_iff]; auto. }
  clear Ha. induction ws as [|w0 ws IH]; [by inversion Hw|].
  destruct (decide (w0 = w)) as [->|Hne].
  - assert (rmatch n (lit w) (w +:+ s) c (fun s' c' => k s' ((i, consumed (w +:+ s) s') :: c')) = Some x)
      as H by (apply rm_lit; by rewrite consumed_app).
    destruct ws; [done|]. by apply rm_alt_l.
  - apply elem_of_cons in Hw as [->|Hw]; [done|]. destruct ws as [|w1 ws]; [by inversion Hw|].
    destruct (Hap w0 ltac:(by left)) as [->|Hm]; [done|]. apply rm_alt_r.
    + by apply (may_sound _ _ _ _ _ _ _ Hm).
    + apply IH; [done|]. intros w' ?. apply Hap. by right.
Qed.

Definition text_in (o : json) (k : string) (ws : list string) : bool :=
  existsb (String.eqb (field_text o k)) ws.

Lemma text_in_cases o k ws : text_in o k ws = true -> field_text o k ∈ ws.
Proof.
  unfold text_in. intros (w & Hw & ->%String.eqb_eq)%existsb_exists. by apply list_elem_of_In.
Qed.

Definition bandwidth_ok (o : json) : bool :=
  fits bandwidthRule [is_word; is_digit] ["type"; "limit"] o &&
  text_in o "type" ["TIAS"; "AS"; "CT"; "RR"; "RS"].

Ltac rm_extra ::=
  match goal with |- rmatch _ (RGroup _ (alts _)) _ _ _ = _ =>
    apply (rm_words _ _ ["TIAS"; "AS"; "CT"; "RR"; "RS"]); [reflexivity|assumption|] end.

Lemma reads_bandwidth o : bandwidth_ok o = true -> reads_self "b"%char bandwidthRule o.
Proof.
  unfold bandwidth_ok. intros [H Ht%text_in_cases]%andb_true_iff. revert H. open_fits Hok. use_fields.
  self_only "b"%char bandwidthRule o Hok.
Qed.

Ltac rm_extra ::= fail.

Definition protocol_char (a : ascii) : bool := is_word a || one_of "/" a.
Definition media_ok : json -> bool :=
  fits mediaRule [is_word; is_digit; is_digit; protocol_char; is_dot]
    ["type"; "port"; "protocol"; "payloads"].

Lemma reads_media o : media_ok o = true -> reads_self "m"%char mediaRule o.
Proof.
  open_fits Hok. destruct (contains "numPorts" o) eqn:E; use_fields;
    self_only "m"%char mediaRule o Hok.
Qed.
