(* ===== verification/SdpNamed.v ===== *)
(** * The rules read what they write: named objects and values

    The rules of named objects and of named values, as in SdpRules.v. *)

From Stdlib Require Import Ascii.
From S2P Require Import Prelude Json Regex Strings Dtoa JsonDump JsonDumpSpec SdpGrammar.
From S2P Require Import SdpParser SdpWriter SdpLines SdpRules.

(** ** Named objects *)

(** The line of the object [o] of [location]. *)
Definition reads_named (type : ascii) (R : Rule) (o : json) : Prop :=
  forall location, find (name R) location = Some o ->
    reads type R location (map (field_text o) (names R)).

Lemma at_find k j v : find k j = Some v -> at_ k j = Ok v.
Proof. destruct j; try done. simpl. by intros ->. Qed.

Ltac eval_named_format Ho :=
  match goal with |- lineFormat ?R _ = _ => unfold lineFormat, R in * end;
  cbn [format String.eqb push name formatFunc negb result_bind] in *;
  try rewrite (at_find _ _ _ Ho);
  cbn [result_bind];
  repeat match goal with H : hasValue _ _ = _ |- _ => rewrite H end; reflexivity.

Lemma hasValue_contains o k : hasValue o k = true -> contains k o = true.
Proof. unfold hasValue, contains. destruct (find k o); [|done]. by rewrite bool_decide_true. Qed.

Ltac all_contained :=
  match goal with |- forallb _ ?l = true =>
    let v := eval vm_compute in l in change l with v end;
  cbn [forallb];
  repeat match goal with
  | H : hasValue ?o ?k = true |- _ => rewrite (hasValue_contains o k H); clear H
  end; reflexivity.

(** The equation of the line of the object [o], evaluated. *)
Ltac named_eq type R location o Hok Ho Hm :=
  let Hf := fresh in
  eassert (lineFormat R location = Ok _) as Hf by eval_named_format Ho;
  pose proof (named_line type R location o _ _ eq_refl Ho Hok Hf ltac:(all_contained) eq_refl) as Hm;
  eval_line Hm.
Ltac named_rule type R location o Hok Ho rules i s :=
  let Hm := fresh in named_eq type R location o Hok Ho Hm; read_line Hm rules i s.
Ltac named_only type R location o Hok Ho :=
  let Hm := fresh in named_eq type R location o Hok Ho Hm; read_only Hm.

Definition timing_ok : json -> bool := fits timingRule [is_digit; is_digit] ["start"; "stop"].

Lemma reads_timing o : timing_ok o = true -> reads_named "t"%char timingRule o.
Proof.
  open_fits Hok. intros location Ho. use_fields. named_only "t"%char timingRule location o Hok Ho.
Qed.

(** A captured digit *)
Lemma rm_digit {A} n i w s c (k : string -> captures -> option A) x :
  String.length w = 1%nat -> all_chars is_digit w = true -> k s ((i, w) :: c) = Some x ->
  rmatch n (RGroup i digit) (w +:+ s) c k = Some x.
Proof.
  intros Hl Hw Hk. destruct w as [|a [|]]; try done. simpl in Hw. apply andb_true_iff in Hw as [Ha _].
  by apply rm_char.
Qed.

Definition one_digit (o : json) (k : string) : bool := Nat.eqb (String.length (field_text o k)) 1.

Ltac rm_extra ::=
  match goal with |- rmatch _ (RGroup _ digit) _ _ _ = _ =>
    apply rm_digit; [assumption|assumption|] end.

Definition origin_ok (o : json) : bool :=
  fits originRule [nonspace_char; is_digit; is_digit; nonspace_char; is_digit; nonspace_char]
    ["username"; "sessionId"; "sessionVersion"; "netType"; "ipVer"; "address"] o &&
  one_digit o "ipVer".

Lemma reads_origin o : origin_ok o = true -> reads_named "o"%char originRule o.
Proof.
  unfold origin_ok. intros [H Hd%Nat.eqb_eq]%andb_true_iff. revert H. open_fits Hok.
  intros location Ho. use_fields. named_only "o"%char originRule location o Hok Ho.
Qed.

(** Characters of the address of a connection: the class of the pattern, without the
    line terminators *)
Definition address_char (a : ascii) : bool := negb (one_of "\S/" a) && is_dot a.

Lemma address_class w :
  all_chars address_char w = true -> all_chars (fun a => negb (one_of "\S/" a)) w = true.
Proof. apply all_chars_impl. by intros a [? _]%andb_true_iff. Qed.

Definition connection_ok (o : json) : bool :=
  fits connectionRule [is_digit; address_char; is_digit] ["version"; "ip"] o &&
  one_digit o "version".

Lemma reads_connection o : connection_ok o = true -> reads_named "c"%char connectionRule o.
Proof.
  unfold connection_ok. intros [H Hd%Nat.eqb_eq]%andb_true_iff. revert H. open_fits Hok.
  intros location Ho. destruct (contains "ttl" o) eqn:E; use_fields;
    pose proof (address_class _ ltac:(eassumption));
    named_only "c"%char connectionRule location o Hok Ho.
Qed.

Definition rtcp_ok (o : json) : bool :=
  fits rtcpRule [is_digit; nonspace_char; is_digit; nonspace_char] ["port"] o &&
  Bool.eqb (contains "netType" o) (contains "address" o) &&
  Bool.eqb (contains "ipVer" o) (contains "address" o) &&
  (negb (contains "address" o) || one_digit o "ipVer").

Lemma reads_rtcp o : rtcp_ok o = true -> reads_named "a"%char rtcpRule o.
Proof.
  unfold rtcp_ok. intros [[[H H1%Bool.eqb_prop]%andb_true_iff H2%Bool.eqb_prop]%andb_true_iff
    H3]%andb_true_iff. revert H. open_fits Hok. intros location Ho.
  destruct (contains "address" o) eqn:E; simpl in H3; [apply Nat.eqb_eq in H3|]; use_fields;
    named_rule "a"%char rtcpRule location o Hok Ho attributeRules 3%nat "rtcp:".
Qed.

Definition fingerprint_ok : json -> bool :=
  fits fingerprintRule [nonspace_char; nonspace_char] ["type"; "hash"].

Lemma reads_fingerprint o : fingerprint_ok o = true -> reads_named "a"%char fingerprintRule o.
Proof.
  open_fits Hok. intros location Ho. use_fields.
  named_rule "a"%char fingerprintRule location o Hok Ho attributeRules 18%nat "fingerprint:".
Qed.

Definition sctpmap_ok : json -> bool :=
  fits sctpmapRule [is_digit; nonspace_char; is_digit] ["sctpmapNumber"; "app"].

Lemma reads_sctpmap o : sctpmap_ok o = true -> reads_named "a"%char sctpmapRule o.
Proof.
  open_fits Hok. intros location Ho. destruct (contains "maxMessageSize" o) eqn:E; use_fields;
    named_rule "a"%char sctpmapRule location o Hok Ho attributeRules 29%nat "sctpmap:".
Qed.

(** An optional space that is there *)
Lemma rm_opt_space {A} n s c (k : string -> captures -> option A) x :
  k s c = Some x -> rmatch n (ROpt space) (" " +:+ s) c k = Some x.
Proof.
  intros Hk. apply rm_opt_some. cbn [rmatch space String.append].
  change (is_space " "%char) with true. cbv iota.
  replace (shorter s (String " " s)) with true; [done|].
  symmetry. apply Nat.ltb_lt. simpl. lia.
Qed.

Ltac rm_extra ::=
  match goal with
  | |- rmatch _ (lit "msid-semantic:") ("msid-semantic: " +:+ ?s) _ _ = _ =>
      change ("msid-semantic: " +:+ s) with ("msid-semantic:" +:+ " " +:+ s); apply rm_lit
  | |- rmatch _ (ROpt space) _ _ _ = _ => apply rm_opt_space
  end.

Definition msidSemantic_ok : json -> bool :=
  fits msidSemanticRule [is_word; nonspace_char] ["semantic"; "token"].

Lemma reads_msidSemantic o : msidSemantic_ok o = true -> reads_named "a"%char msidSemanticRule o.
Proof.
  open_fits Hok. intros location Ho. use_fields.
  named_rule "a"%char msidSemanticRule location o Hok Ho attributeRules 25%nat "msid-semantic: ".
Qed.

Definition list_char (a : ascii) : bool := is_word a || one_of "-~;," a.
Definition simulcast_ok (o : json) : bool :=
  fits simulcastRule [is_word; list_char; is_word; list_char] ["dir1"; "list1"] o &&
  text_in o "dir1" ["send"; "recv"] &&
  Bool.eqb (contains "dir2" o) (contains "list2" o) &&
  (negb (contains "dir2" o) || text_in o "dir2" ["send"; "recv"]).

Ltac rm_extra ::=
  match goal with
  | |- rmatch _ (RGroup _ (RAlt (lit "send") _)) _ _ _ = _ =>
      apply (rm_words _ _ ["send"; "recv"]); [reflexivity|assumption|]
  | |- rmatch _ (ROpt space) _ _ _ = _ => apply rm_opt_space
  end.

Lemma reads_simulcast o : simulcast_ok o = true -> reads_named "a"%char simulcastRule o.
Proof.
  unfold simulcast_ok. intros [[[H H1%text_in_cases]%andb_true_iff H2%Bool.eqb_prop]%andb_true_iff
    H3]%andb_true_iff. revert H. open_fits Hok. intros location Ho.
  destruct (contains "dir2" o) eqn:E; cbn [negb orb] in H3; symmetry in H2; [apply text_in_cases in H3|];
    use_fields; named_eq "a"%char simulcastRule location o Hok Ho Hm;
    read_line_by Hm attributeRules 33%nat "simulcast:" ltac:(skip_flag 33%nat).
Qed.

Ltac rm_extra ::= fail.

(** ** Named values *)

(** The line of the value [v] of [location]. *)
Definition reads_value (type : ascii) (R : Rule) (v : json) : Prop :=
  forall location, find (name R) location = Some v -> reads type R location [text_of v].

(** A rule that writes a value behind a prefix *)
Lemma reads_prefixed type R v rules i pre p t :
  reg R = seqs [RBol; lit pre; RGroup 1 (RStar (RChar p))] ->
  names R = [] -> negb (String.eqb (format R) "") = true ->
  placeholders (format R) = [(pre, "%s")] \/ placeholders (format R) = [(pre, "%d")] ->
  rulesMap type = Some rules -> rules !! i = Some R ->
  forallb (rejects pre) (take i rules) = true ->
  free_of newline pre = true -> p newline = false ->
  value_ok t p v = true -> reads_value type R v.
Proof.
  intros Hr Hn Hf Hp Hrules Hi Hrej Hpre Hnl Hv location Hl.
  pose proof (toType_text _ _ _ Hv) as (_ & Hc & _ & _).
  eapply (reads_intro type R location _ rules i pre (text_of v)); [exact Hr| |done|done| | | |].
  - by eapply value_line.
  - by apply Forall_rejects.
  - by rewrite free_of_app, Hpre, (free_of_class _ _ _ Hc Hnl).
  - apply rm_cons, rm_bol; [done|]. apply rm_cons, rm_lit. apply rm_cons, rm_field_end; [done|].
    apply rm_nil. reflexivity.
  - reflexivity.
Qed.

(** A rule that writes one of several words *)
Lemma reads_word type R v rules i ws r :
  reg R = seqs [RBol; RGroup 1 r] -> r = alts (map lit ws) -> words_apart ws = true ->
  names R = [] -> format R = "%s" -> rulesMap type = Some rules -> rules !! i = Some R ->
  forallb (fun w => forallb (rejects w) (take i rules) && free_of newline w) ws = true ->
  is_nonempty_string v = true -> existsb (String.eqb (text_of v)) ws = true -> reads_value type R v.
Proof.
  intros Hr -> Hap Hn Hf Hrules Hi Hws Hv Hin location Hl. destruct v as [| | | | |w| |]; try done.
  cbn [text_of] in *. apply existsb_exists in Hin as (w' & Hin & <-%String.eqb_eq).
  pose proof (proj1 (forallb_forall _ _) Hws _ Hin) as [Hrej Hnl]%andb_true_iff.
  eapply (reads_intro type R location _ rules i w ""); [exact Hr| |done|done| | | |].
  - unfold makeLine, lineFormat, lineArgs. rewrite Hf, Hn, Hl. cbn [result_bind].
    change (placeholders "%s") with [("", "%s")].
    cbn [fill String.eqb Ascii.eqb Bool.eqb orb arg_text result_bind]. reflexivity.
  - by apply Forall_rejects.
  - by rewrite str_app_nil_r.
  - apply rm_cons, rm_bol; [done|]. apply rm_cons.
    apply rm_words; [done|by apply list_elem_of_In|]. apply rm_nil. reflexivity.
  - reflexivity.
Qed.

(** A rule that writes a line of its own *)
Lemma reads_anything type R v t :
  reg R = seqs [RGroup 1 (RStar (RChar is_dot))] -> names R = [] -> format R = "%s" ->
  rulesMap type = Some [R] -> value_ok t is_dot v = true -> reads_value type R v.
Proof.
  intros Hr Hn Hf Hrules Hv location Hl. destruct (toType_text _ _ _ Hv) as (_ & Hc & _ & _).
  assert (regex_search (reg R) (text_of v) = Some ("", "", [(1%nat, text_of v)])) as Hs.
  { rewrite Hr. unfold regex_search.
    assert (forall n, rmatch n (seqs [RGroup 1 (RStar (RChar is_dot))]) (text_of v) []
      (fun s' c => Some (s', c)) = Some ("", [(1%nat, text_of v)])) as H.
    { intros n. apply rm_cons, rm_field_end; [done|]. apply rm_nil. reflexivity. }
    destruct (text_of v); cbn [search_from]; by rewrite H. }
  exists (text_of v), "", "", [(1%nat, text_of v)], [R]. split; [|split; [|split; [|split; [|split]]]].
  - eapply (value_line type R location v ""); [done|by rewrite Hf|done|done|]. rewrite Hf.
    left. reflexivity.
  - by apply (free_of_class _ is_dot).
  - done.
  - cbn [firstRule]. by rewrite Hs.
  - done.
  - reflexivity.
Qed.

Lemma reads_version v :
  value_ok "d"%char is_digit v = true -> reads_value "v"%char versionRule v.
Proof.
  intros Hv location Hl. destruct (toType_text _ _ _ Hv) as (_ & Hc & _ & _).
  eapply (reads_only _ _ _ _ (text_of v)); [reflexivity| |reflexivity| | |].
  - eapply (value_line _ versionRule _ _ "" _ _ eq_refl eq_refl Hl Hv). by right.
  - by apply (free_of_class _ is_digit).
  - apply rm_cons, rm_bol; [done|]. apply rm_cons, rm_field_end; [done|].
    apply rm_cons, rm_eol, rm_nil. reflexivity.
  - reflexivity.
Qed.

Ltac prefixed i pre t :=
  eapply (reads_prefixed _ _ _ attributeRules i pre _ t);
  [reflexivity|reflexivity|reflexivity|first [left; reflexivity|right; reflexivity]
  |reflexivity|reflexivity|reflexivity|reflexivity|reflexivity|assumption].
Ltac one_word i ws :=
  eapply (reads_word _ _ _ attributeRules i ws);
  [reflexivity|reflexivity|reflexivity|reflexivity|reflexivity|reflexivity|reflexivity
  |reflexivity|assumption|assumption].

Lemma reads_control v : value_ok "s"%char is_dot v = true -> reads_value "a"%char controlRule v.
Proof. intros Hv. prefixed 2%nat "control:" "s"%char. Qed.
Lemma reads_setup v : value_ok "s"%char is_word v = true -> reads_value "a"%char setupRule v.
Proof. intros Hv. prefixed 9%nat "setup:" "s"%char. Qed.
Lemma reads_mid v : value_ok "s"%char nonspace_char v = true -> reads_value "a"%char midRule v.
Proof. intros Hv. prefixed 10%nat "mid:" "s"%char. Qed.
Lemma reads_msid v : value_ok "s"%char is_dot v = true -> reads_value "a"%char msidRule v.
Proof. intros Hv. prefixed 11%nat "msid:" "s"%char. Qed.
Lemma reads_ptime v : value_ok "d"%char is_digit v = true -> reads_value "a"%char ptimeRule v.
Proof. intros Hv. prefixed 12%nat "ptime:" "d"%char. Qed.
Lemma reads_maxptime v : value_ok "d"%char is_digit v = true -> reads_value "a"%char maxptimeRule v.
Proof. intros Hv. prefixed 13%nat "maxptime:" "d"%char. Qed.
Lemma reads_iceUfrag v : value_ok "s"%char nonspace_char v = true -> reads_value "a"%char iceUfragRule v.
Proof. intros Hv. prefixed 16%nat "ice-ufrag:" "s"%char. Qed.
Lemma reads_icePwd v : value_ok "s"%char nonspace_char v = true -> reads_value "a"%char icePwdRule v.
Proof. intros Hv. prefixed 17%nat "ice-pwd:" "s"%char. Qed.
Lemma reads_remoteCandidates v : value_ok "s"%char is_dot v = true -> reads_value "a"%char remoteCandidatesRule v.
Proof. intros Hv. prefixed 21%nat "remote-candidates:" "s"%char. Qed.
Lemma reads_iceOptions v : value_ok "s"%char nonspace_char v = true -> reads_value "a"%char iceOptionsRule v.
Proof. intros Hv. prefixed 22%nat "ice-options:" "s"%char. Qed.

Definition word_in (ws : list string) (v : json) : bool :=
  is_nonempty_string v && existsb (String.eqb (text_of v)) ws.

Lemma reads_extmapAllowMixed v :
  word_in ["extmap-allow-mixed"] v = true -> reads_value "a"%char extmapAllowMixedRule v.
Proof. intros [? ?]%andb_true_iff. one_word 7%nat ["extmap-allow-mixed"]. Qed.
Lemma reads_direction v :
  word_in ["sendrecv"; "recvonly"; "sendonly"; "inactive"] v = true -> reads_value "a"%char directionRule v.
Proof. intros [? ?]%andb_true_iff. one_word 14%nat ["sendrecv"; "recvonly"; "sendonly"; "inactive"]. Qed.
Lemma reads_icelite v :
  word_in ["ice-lite"] v = true -> reads_value "a"%char iceliteRule v.
Proof. intros [? ?]%andb_true_iff. one_word 15%nat ["ice-lite"]. Qed.
Lemma reads_endOfCandidates v :
  word_in ["end-of-candidates"] v = true -> reads_value "a"%char endOfCandidatesRule v.
Proof. intros [? ?]%andb_true_iff. one_word 20%nat ["end-of-candidates"]. Qed.
Lemma reads_rtcpMux v :
  word_in ["rtcp-mux"] v = true -> reads_value "a"%char rtcpMuxRule v.
Proof. intros [? ?]%andb_true_iff. one_word 27%nat ["rtcp-mux"]. Qed.
Lemma reads_rtcpRsize v :
  word_in ["rtcp-rsize"] v = true -> reads_value "a"%char rtcpRsizeRule v.
Proof. intros [? ?]%andb_true_iff. one_word 28%nat ["rtcp-rsize"]. Qed.

Lemma reads_name v : value_ok "s"%char is_dot v = true -> reads_value "s"%char nameRule v.
Proof. intros Hv. by apply (reads_anything _ nameRule v "s"%char). Qed.
Lemma reads_description v : value_ok "s"%char is_dot v = true -> reads_value "i"%char descriptionRule v.
Proof. intros Hv. by apply (reads_anything _ descriptionRule v "s"%char). Qed.
Lemma reads_uri v : value_ok "s"%char is_dot v = true -> reads_value "u"%char uriRule v.
Proof. intros Hv. by apply (reads_anything _ uriRule v "s"%char). Qed.
Lemma reads_email v : value_ok "s"%char is_dot v = true -> reads_value "e"%char emailRule v.
Proof. intros Hv. by apply (reads_anything _ emailRule v "s"%char). Qed.
Lemma reads_phone v : value_ok "s"%char is_dot v = true -> reads_value "p"%char phoneRule v.
Proof. intros Hv. by apply (reads_anything _ phoneRule v "s"%char). Qed.
Lemma reads_timezones v : value_ok "s"%char is_dot v = true -> reads_value "z"%char timezonesRule v.
Proof. intros Hv. by apply (reads_anything _ timezonesRule v "s"%char). Qed.
Lemma reads_repeats v : value_ok "s"%char is_dot v = true -> reads_value "r"%char repeatsRule v.
Proof. intros Hv. by apply (reads_anything _ repeatsRule v "s"%char). Qed.
