(* ===== verification/SdpDocument.v ===== *)
(** * Session descriptions: writing and parsing

    The parser reads the text the writer produces line by line; a session whose entries
    fit their rules is read back, up to the types the grammar gives the values. *)

From Stdlib Require Import Ascii.
From S2P Require Import Prelude Json Regex Strings Dtoa JsonDump JsonDumpSpec Validator.
From S2P Require Import SdpGrammar SdpParser SdpWriter SdpLines SdpRules SdpNamed.

(** ** Objects that are written in place *)

Lemma obj_find_before k k1 m :
  str_lt k k1 -> Forall (fun kv => str_lt k1 kv.1) m -> obj_find k m = None.
Proof.
  intros Hk. induction 1 as [|[k2 v2] m H2 _ IH]; [done|]. simpl in *.
  destruct (String.eqb_spec k k2) as [->|]; [|done].
  exfalso. eapply str_lt_irrefl, str_lt_trans; eassumption.
Qed.

Lemma obj_replace_insert k v m :
  sorted_keys m = true -> is_Some (obj_find k m) -> obj_replace k v m = obj_insert k v m.
Proof.
  induction m as [|[k1 v1] m IH]; simpl obj_find; [by intros _ [? ?]|].
  intros Hs Hk. cbn [obj_replace obj_insert]. destruct (String.eqb_spec k k1) as [->|Hne].
  - by rewrite str_compare_refl.
  - apply sorted_keys_cons in Hs as [Hs Hall]. destruct Hk as [x Hx].
    destruct (str_compare_spec k k1) as [?|Hlt|_]; [done| |by rewrite IH].
    exfalso. by rewrite (obj_find_before k k1 m) in Hx.
Qed.

(** [location[k]] for a key that is bound *)
Lemma run_at_bound {A} k m v (f : M json A) r v' :
  sorted_keys m = true -> obj_find k m = Some v -> f v = (r, v') ->
  at_key k f (JObject m) = (r, JObject (obj_insert k v' m)).
Proof.
  intros Hs Hk Hf. unfold at_key. simpl. rewrite Hk. simpl. rewrite Hk. simpl. rewrite Hf.
  by rewrite obj_replace_insert.
Qed.

(** ** The kinds of rules *)

(** How a rule stores what it reads: a value or an object under its name, or objects
    pushed to an array; [Unread] rules are not considered. *)
Inductive kind :=
| Value (ok : json -> bool)
| Named (ok : json -> bool)
| Pushed (ok : json -> bool)
| Unread.

(** What it means that a rule reads back what it writes. *)
Class Readable (type : ascii) (R : Rule) (k : kind) : Prop := readable :
  match k with
  | Value ok =>
      name R <> "" /\ push R = "" /\ names R = [] /\
      exists t p, types R = [t] /\
        forall v, ok v = true -> value_ok t p v = true /\ reads_value type R v
  | Named ok =>
      name R <> "" /\ push R = "" /\ names R <> [] /\ ok JNull = false /\
      exists classes, forall o, ok o = true ->
        fields_ok o (names R) (types R) classes = true /\ reads_named type R o
  | Pushed ok =>
      name R = "" /\ push R <> "" /\ names R <> [] /\
      exists classes, forall o, ok o = true ->
        fields_ok o (names R) (types R) classes = true /\ reads_self type R o
  | Unread => True
  end.

(** The entry of a rule in the object a line belongs to. *)
Definition entry_ok (R : Rule) (k : kind) (location : json) : bool :=
  match k with
  | Value ok | Named ok => it_none_or ok (find (name R) location)
  | Pushed ok => it_none_or (array_of ok) (find (push R) location)
  | Unread =>
      (String.eqb (name R) "" || negb (contains (name R) location)) &&
      (String.eqb (push R) "" || negb (contains (push R) location))
  end.

Definition reread_object (R : Rule) (o : json) : json :=
  JObject (reread_fields o (names R) (types R) []).

(** The entry that is read, added to [m]. *)
Definition reread_entry (R : Rule) (k : kind) (location : json) (m : list (string * json)) :
    list (string * json) :=
  match k with
  | Value _ =>
      match find (name R) location, types R with
      | Some v, t :: _ => obj_insert (name R) (retype t v) m
      | _, _ => m
      end
  | Named _ =>
      match find (name R) location with
      | Some o => obj_insert (name R) (reread_object R o) m
      | None => m
      end
  | Pushed _ =>
      match find (push R) location with
      | Some (JArray (o :: l)) =>
          obj_insert (push R) (JArray (map (reread_object R) (o :: l))) m
      | _ => m
      end
  | Unread => m
  end.

(** ** Documents

    A document is a list of lines, each a type and a content. *)

Definition line_text (l : ascii * string) : string := String l.1 ("=" +:+ l.2 +:+ crlf).
Fixpoint render (doc : list (ascii * string)) : string :=
  match doc with [] => "" | l :: doc => line_text l +:+ render doc end.

Lemma render_app a b : render (a ++ b) = render a +:+ render b.
Proof. induction a as [|l a IH]; [done|]. cbn [app render]. by rewrite IH, str_app_assoc. Qed.

(** A line below the media line of its section *)
Definition inner_line (l : ascii * string) : Prop :=
  code_in 97 122 l.1 = true /\ l.1 <> "m"%char /\ free_of newline l.2 = true.

Fixpoint parseContents (doc : list (ascii * string)) : M json unit :=
  match doc with
  | [] => ret tt
  | (type, content) :: doc => do! parseContent type content in parseContents doc
  end.

(** Parsing [doc] leads from the object [m] to [m']. *)
Definition doc_reads (doc : list (ascii * string)) (m m' : list (string * json)) : Prop :=
  Forall inner_line doc /\ parseContents doc (JObject m) = (Ok tt, JObject m').

Lemma doc_reads_nil m : doc_reads [] m m.
Proof. split; [constructor|done]. Qed.

Lemma parseContents_app a b :
  forall j, parseContents (a ++ b) j = (do! parseContents a in parseContents b) j.
Proof.
  induction a as [|[type content] a IH]; intros j; [done|]. simpl. rewrite run_bind_bind.
  unfold bind at 1 2. by destruct (parseContent type content j) as [[] ?].
Qed.

Lemma doc_reads_app a b m1 m2 m3 :
  doc_reads a m1 m2 -> doc_reads b m2 m3 -> doc_reads (a ++ b) m1 m3.
Proof.
  intros [Ha Hp] [Hb Hq]. split; [by apply Forall_app|].
  rewrite parseContents_app. by rewrite (bind_of_ok _ _ _ _ _ Hp).
Qed.

(** ** Reading one line *)

Lemma bool_decide_names (ns : list string) : ns <> [] -> bool_decide (ns = []) = false.
Proof. intros. by rewrite bool_decide_false. Qed.

Lemma subs_one c t : subs c 1 = [t] -> sub 1 c = t.
Proof. by intros [= ->]. Qed.

(** The line of a named value *)
Lemma parse_value type R t p v location :
  name R <> "" -> push R = "" -> names R = [] -> types R = [t] ->
  value_ok t p v = true -> reads type R location [text_of v] ->
  exists content, makeLine type R location = Ok (line_text (type, content)) /\
    free_of newline content = true /\
    forall m, parseContent type content (JObject m) =
      (Ok tt, JObject (obj_insert (name R) (retype t v) m)).
Proof.
  intros Hn Hp Hns Ht Hv (content & pre & suf & c & rules & Hm & Hf & Hr & H1 & Hs & Hc).
  exists content. split; [done|split; [done|]]. intros m. unfold parseContent. rewrite Hr, H1.
  unfold parseReg. rewrite Hp, Hns, Ht, Hs. run. rewrite (proj2 (String.eqb_neq _ _) Hn). simpl.
  unfold attachProperties. rewrite (proj2 (String.eqb_neq _ _) Hn). simpl.
  rewrite (subs_one _ _ Hc). apply toType_text in Hv as (_ & _ & _ & Hv).
  unfold bind, lift, ret. cbn. by rewrite Hv.
Qed.

(** What [attachProperties] adds for the rules with several fields. *)
Lemma attach_object c R o classes m :
  names R <> [] -> fields_ok o (names R) (types R) classes = true ->
  subs c (length (map (field_text o) (names R))) = map (field_text o) (names R) ->
  attachProperties c (names R) (name R) (types R) (JObject m) =
  (Ok tt, JObject (reread_fields o (names R) (types R) m)).
Proof.
  intros Hns Hok Hc. unfold attachProperties. rewrite bool_decide_names, andb_false_r by done.
  apply (attach_fields c o [] (types R) (names R) classes); [done|].
  by rewrite length_map in Hc.
Qed.

(** The line of a named object, when the name is not bound yet *)
Lemma parse_named type R classes o location :
  name R <> "" -> push R = "" -> names R <> [] ->
  fields_ok o (names R) (types R) classes = true ->
  reads type R location (map (field_text o) (names R)) ->
  exists content, makeLine type R location = Ok (line_text (type, content)) /\
    free_of newline content = true /\
    forall m, sorted_keys m = true -> obj_find (name R) m = None ->
      parseContent type content (JObject m) =
      (Ok tt, JObject (obj_insert (name R) (reread_object R o) m)).
Proof.
  intros Hn Hp Hns Hok (content & pre & suf & c & rules & Hm & Hf & Hr & H1 & Hs & Hc).
  exists content. split; [done|split; [done|]]. intros m Hsm Hk. unfold parseContent. rewrite Hr, H1.
  unfold parseReg. rewrite Hp, Hs, (proj2 (String.eqb_neq _ _) Hn), bool_decide_names by done.
  run. unfold contains. simpl find. rewrite Hk. cbn [negb andb bool_decide].
  rewrite bool_decide_false by (by intros [? ?]). cbn [negb]. rewrite run_bind_set_key.
  erewrite (run_at_bound _ _ (JObject [])).
  - rewrite obj_insert_insert. reflexivity.
  - by apply sorted_keys_insert.
  - by rewrite obj_find_insert, String.eqb_refl.
  - by eapply attach_object.
Qed.

(** The objects pushed so far *)
Definition pushed (k : string) (m : list (string * json)) : option (list json) :=
  match obj_find k m with
  | None => Some []
  | Some (JArray l) => Some l
  | Some _ => None
  end.

(** The line of a pushed object *)
Lemma parse_pushed type R classes o :
  name R = "" -> push R <> "" -> names R <> [] ->
  fields_ok o (names R) (types R) classes = true ->
  reads type R o (map (field_text o) (names R)) ->
  exists content, makeLine type R o = Ok (line_text (type, content)) /\
    free_of newline content = true /\
    forall m l, sorted_keys m = true -> pushed (push R) m = Some l ->
      parseContent type content (JObject m) =
      (Ok tt, JObject (obj_insert (push R) (JArray (l ++ [reread_object R o])) m)).
Proof.
  intros Hn Hp Hns Hok (content & pre & suf & c & rules & Hm & Hf & Hr & H1 & Hs & Hc).
  exists content. split; [done|split; [done|]]. intros m l Hsm Hk. unfold parseContent. rewrite Hr, H1.
  unfold parseReg. rewrite Hs, (proj2 (String.eqb_neq _ _) Hp), Hn. cbn [String.eqb negb andb].
  rewrite run_bind_get.
  assert (exists m', obj_find (push R) m' = Some (JArray l) /\ sorted_keys m' = true /\
    obj_insert (push R) (JArray (l ++ [reread_object R o])) m' =
    obj_insert (push R) (JArray (l ++ [reread_object R o])) m /\
    (if negb (contains (push R) (JObject m)) then set_key (push R) (JArray []) else ret tt)
      (JObject m) = (Ok tt, JObject m')) as (m' & Hk' & Hs' & Hm' & E).
  { unfold contains. simpl find. unfold pushed in Hk. destruct (obj_find (push R) m) as [[]|] eqn:E; simplify_eq.
    - exists m. rewrite bool_decide_true by eauto. done.
    - exists (obj_insert (push R) (JArray []) m). rewrite bool_decide_false by (by apply eq_None_not_Some).
      rewrite obj_find_insert, String.eqb_refl, obj_insert_insert.
      split; [done|split; [by apply sorted_keys_insert|done]]. }
  rewrite (bind_of_ok _ _ _ _ _ E).
  assert (on_new (S := json) (attachProperties c (names R) "" (types R)) (JObject m') =
    (Ok (reread_object R o), JObject m')) as Hnew.
  { unfold on_new. pose proof (attach_object c R o classes [] Hns Hok Hc) as Ha. rewrite Hn in Ha.
    by rewrite Ha. }
  rewrite (bind_of_ok _ _ _ _ _ Hnew).
  by rewrite (run_at_bound _ _ _ (push_back _) (Ok tt) (JArray (l ++ [_])) Hs' Hk' eq_refl), Hm'.
Qed.

(** ** Writing and reading the entries of an object *)

Definition key (R : Rule) : string := if String.eqb (name R) "" then push R else name R.

(** The object read so far holds nothing of the rule. *)
Definition fresh (R : Rule) (k : kind) (m : list (string * json)) : Prop :=
  match k with
  | Named _ => obj_find (name R) m = None
  | Pushed _ => pushed (push R) m = Some []
  | Value _ | Unread => True
  end.

Lemma reread_entry_sorted R k location m :
  sorted_keys m = true -> sorted_keys (reread_entry R k location m) = true.
Proof. intros Hs. destruct k; simpl; repeat case_match; try done; by apply sorted_keys_insert. Qed.

Lemma reread_entry_other R k location m k' :
  match k with Value _ | Named _ => name R <> "" | Pushed _ => name R = "" | Unread => True end ->
  k' <> key R -> obj_find k' (reread_entry R k location m) = obj_find k' m.
Proof.
  unfold key. intros Hk Hne. destruct k; simpl; repeat case_match; try done;
    rewrite obj_find_insert; destruct (String.eqb_spec (name R) ""); try done;
    by rewrite (proj2 (String.eqb_neq _ _) Hne).
Qed.

Lemma pushes_read type R ok l :
  Readable type R (Pushed ok) -> code_in 97 122 type = true -> type <> "m"%char ->
  forallb ok l = true ->
  exists doc, concat_results (makeLine type R) l = Ok (render doc) /\ Forall inner_line doc /\
    forall m done, sorted_keys m = true -> pushed (push R) m = Some done ->
      parseContents doc (JObject m) =
      (Ok tt, JObject (match l with [] => m
        | _ => obj_insert (push R) (JArray (done ++ map (reread_object R) l)) m end)).
Proof.
  intros (Hn & Hp & Hns & classes & Hread) Ht Htm. induction l as [|o l IH]; intros Hl.
  - exists []. split; [done|split; [constructor|done]].
  - simpl in Hl. apply andb_true_iff in Hl as [Ho Hl]. destruct (IH Hl) as (doc & Hdoc & Hin & Hpar).
    destruct (Hread o Ho) as [Hok Hr].
    destruct (parse_pushed type R classes o Hn Hp Hns Hok Hr) as (content & Hm & Hf & Hc).
    exists ((type, content) :: doc). split; [|split].
    + cbn [concat_results]. rewrite Hm, Hdoc. done.
    + by constructor.
    + intros m done Hs Hk. cbn [parseContents]. rewrite (bind_of_ok _ _ _ _ _ (Hc m done Hs Hk)).
      rewrite (Hpar _ (done ++ [reread_object R o])).
      * destruct l; [done|]. rewrite obj_insert_insert, <- app_assoc. done.
      * by apply sorted_keys_insert.
      * unfold pushed. by rewrite obj_find_insert, String.eqb_refl.
Qed.

Lemma entry_reads type R k location m :
  Readable type R k -> code_in 97 122 type = true -> type <> "m"%char ->
  entry_ok R k location = true -> sorted_keys m = true -> fresh R k m ->
  exists doc, writeRule type location R = Ok (render doc) /\
    doc_reads doc m (reread_entry R k location m).
Proof.
  intros Hread Ht Htm Hok Hs Hfresh. unfold writeRule. destruct k as [ok|ok|ok|]; simpl in *.
  - destruct Hread as (Hn & Hp & Hns & t & p & Hty & Hv).
    rewrite (proj2 (String.eqb_neq _ _) Hn), Hp, Hty. cbn [String.eqb].
    destruct (find (name R) location) as [v|] eqn:E; [|exists []; split; [done|apply doc_reads_nil]]. simpl in Hok.
    destruct (Hv v Hok) as [Hvok Hr].
    destruct (parse_value type R t p v location Hn Hp Hns Hty Hvok (Hr _ E)) as (content & Hm & Hf & Hc).
    assert (negb (is_null v) = true) as Hnn by (destruct v; try done; by unfold value_ok in Hvok; rewrite andb_false_r in Hvok).
    simpl. rewrite Hnn. exists [(type, content)]. cbn [render]. rewrite str_app_nil_r. split; [done|].
    split; [by repeat constructor|]. cbn [parseContents]. by rewrite (bind_of_ok _ _ _ _ _ (Hc m)).
  - destruct Hread as (Hn & Hp & Hns & Hnull & classes & Hv).
    rewrite (proj2 (String.eqb_neq _ _) Hn), Hp. cbn [String.eqb].
    destruct (find (name R) location) as [o|] eqn:E; [|exists []; split; [done|apply doc_reads_nil]]. simpl in Hok.
    destruct (Hv o Hok) as [Hfok Hr].
    destruct (parse_named type R classes o location Hn Hp Hns Hfok (Hr _ E)) as (content & Hm & Hf & Hc).
    assert (negb (is_null o) = true) as Hnn by (destruct o; try done; congruence).
    simpl. rewrite Hnn. exists [(type, content)]. cbn [render]. rewrite str_app_nil_r. split; [done|].
    split; [by repeat constructor|]. cbn [parseContents].
    by rewrite (bind_of_ok _ _ _ _ _ (Hc m Hs Hfresh)).
  - pose proof Hread as (Hn & Hp & _). rewrite Hn, (proj2 (String.eqb_neq _ _) Hp). cbn [String.eqb].
    destruct (find (push R) location) as [[]|] eqn:E; simpl in Hok; try done;
      try (exists []; split; [done|apply doc_reads_nil]).
    destruct (pushes_read type R ok l Hread Ht Htm Hok) as (doc & Hdoc & Hin & Hpar).
    exists doc. split; [done|]. split; [done|]. rewrite (Hpar m [] Hs Hfresh). by destruct l.
  - exists []. split; [|apply doc_reads_nil]. apply andb_true_iff in Hok as [H1 H2].
    unfold contains in H1, H2.
    destruct (String.eqb (name R) ""), (find (name R) location); try done;
      destruct (String.eqb (push R) ""), (find (push R) location); try done.
Qed.

(** ** The rules that are considered *)

Lemma word_in_ok ws v : word_in ws v = true -> value_ok "s"%char (fun _ => true) v = true.
Proof.
  unfold word_in, value_ok. intros [Hv _]%andb_true_iff. destruct v as [| | | | |s| |]; try done.
  assert (all_chars (fun _ => true) s = true) as Hs
    by (clear; induction s as [|a s IH]; [done|exact IH]).
  cbn [text_of is_nonempty_string] in *. by rewrite Hs, Hv.
Qed.

Ltac readable_value H :=
  split; [done|split; [done|split; [done|]]];
  eexists _, _; split; [reflexivity|]; intros v Hv; split; [exact Hv|exact (H v Hv)].
Ltac readable_word H :=
  split; [done|split; [done|split; [done|]]];
  eexists _, _; split; [reflexivity|]; intros v Hv; split; [exact (word_in_ok _ v Hv)|exact (H v Hv)].
Ltac fields_of Hv := repeat first [exact Hv|apply andb_true_iff in Hv as [Hv _]].
Ltac readable_named H :=
  split; [done|split; [done|split; [done|split; [reflexivity|]]]];
  eexists; intros o Ho; split; [pose proof Ho as Hv; fields_of Hv|exact (H o Ho)].
Ltac readable_pushed H :=
  split; [done|split; [done|split; [done|]]];
  eexists; intros o Ho; split; [pose proof Ho as Hv; fields_of Hv|exact (H o Ho)].

Definition text_line : kind := Value (value_ok "s"%char is_dot).
Definition number : kind := Value (value_ok "d"%char is_digit).
Definition token : kind := Value (value_ok "s"%char nonspace_char).

#[export] Instance readable_version : Readable "v"%char versionRule number.
Proof. readable_value reads_version. Qed.
#[export] Instance readable_origin : Readable "o"%char originRule (Named origin_ok).
Proof. readable_named reads_origin. Qed.
#[export] Instance readable_name : Readable "s"%char nameRule text_line.
Proof. readable_value reads_name. Qed.
#[export] Instance readable_description : Readable "i"%char descriptionRule text_line.
Proof. readable_value reads_description. Qed.
#[export] Instance readable_uri : Readable "u"%char uriRule text_line.
Proof. readable_value reads_uri. Qed.
#[export] Instance readable_email : Readable "e"%char emailRule text_line.
Proof. readable_value reads_email. Qed.
#[export] Instance readable_phone : Readable "p"%char phoneRule text_line.
Proof. readable_value reads_phone. Qed.
#[export] Instance readable_timezones : Readable "z"%char timezonesRule text_line.
Proof. readable_value reads_timezones. Qed.
#[export] Instance readable_repeats : Readable "r"%char repeatsRule text_line.
Proof. readable_value reads_repeats. Qed.
#[export] Instance readable_timing : Readable "t"%char timingRule (Named timing_ok).
Proof. readable_named reads_timing. Qed.
#[export] Instance readable_connection : Readable "c"%char connectionRule (Named connection_ok).
Proof. readable_named reads_connection. Qed.
#[export] Instance readable_bandwidth : Readable "b"%char bandwidthRule (Pushed bandwidth_ok).
Proof. readable_pushed reads_bandwidth. Qed.
#[export] Instance readable_rtp : Readable "a"%char rtpRule (Pushed rtp_ok).
Proof. readable_pushed reads_rtp. Qed.
#[export] Instance readable_fmtp : Readable "a"%char fmtpRule (Pushed fmtp_ok).
Proof. readable_pushed reads_fmtp. Qed.
#[export] Instance readable_control : Readable "a"%char controlRule text_line.
Proof. readable_value reads_control. Qed.
#[export] Instance readable_rtcp : Readable "a"%char rtcpRule (Named rtcp_ok).
Proof. readable_named reads_rtcp. Qed.
#[export] Instance readable_rtcpFbTrrInt : Readable "a"%char rtcpFbTrrIntRule (Pushed rtcpFbTrrInt_ok).
Proof. readable_pushed reads_rtcpFbTrrInt. Qed.
#[export] Instance readable_rtcpFb : Readable "a"%char rtcpFbRule (Pushed rtcpFb_ok).
Proof. readable_pushed reads_rtcpFb. Qed.
#[export] Instance readable_ext : Readable "a"%char extRule (Pushed ext_ok).
Proof. readable_pushed reads_ext. Qed.
#[export] Instance readable_extmapAllowMixed : Readable "a"%char extmapAllowMixedRule (Value (word_in ["extmap-allow-mixed"])).
Proof. readable_word reads_extmapAllowMixed. Qed.
#[export] Instance readable_crypto : Readable "a"%char cryptoRule (Pushed crypto_ok).
Proof. readable_pushed reads_crypto. Qed.
#[export] Instance readable_setup : Readable "a"%char setupRule (Value (value_ok "s"%char is_word)).
Proof. readable_value reads_setup. Qed.
#[export] Instance readable_mid : Readable "a"%char midRule token.
Proof. readable_value reads_mid. Qed.
#[export] Instance readable_msid : Readable "a"%char msidRule text_line.
Proof. readable_value reads_msid. Qed.
#[export] Instance readable_ptime : Readable "a"%char ptimeRule number.
Proof. readable_value reads_ptime. Qed.
#[export] Instance readable_maxptime : Readable "a"%char maxptimeRule number.
Proof. readable_value reads_maxptime. Qed.
#[export] Instance readable_direction : Readable "a"%char directionRule (Value (word_in ["sendrecv"; "recvonly"; "sendonly"; "inactive"])).
Proof. readable_word reads_direction. Qed.
#[export] Instance readable_icelite : Readable "a"%char iceliteRule (Value (word_in ["ice-lite"])).
Proof. readable_word reads_icelite. Qed.
#[export] Instance readable_iceUfrag : Readable "a"%char iceUfragRule token.
Proof. readable_value reads_iceUfrag. Qed.
#[export] Instance readable_icePwd : Readable "a"%char icePwdRule token.
Proof. readable_value reads_icePwd. Qed.
#[export] Instance readable_fingerprint : Readable "a"%char fingerprintRule (Named fingerprint_ok).
Proof. readable_named reads_fingerprint. Qed.
#[export] Instance readable_candidates : Readable "a"%char candidatesRule (Pushed candidates_ok).
Proof. readable_pushed reads_candidates. Qed.
#[export] Instance readable_endOfCandidates : Readable "a"%char endOfCandidatesRule (Value (word_in ["end-of-candidates"])).
Proof. readable_word reads_endOfCandidates. Qed.
#[export] Instance readable_remoteCandidates : Readable "a"%char remoteCandidatesRule text_line.
Proof. readable_value reads_remoteCandidates. Qed.
#[export] Instance readable_iceOptions : Readable "a"%char iceOptionsRule token.
Proof. readable_value reads_iceOptions. Qed.
#[export] Instance readable_ssrcs : Readable "a"%char ssrcsRule (Pushed ssrcs_ok).
Proof. readable_pushed reads_ssrcs. Qed.
#[export] Instance readable_ssrcGroups : Readable "a"%char ssrcGroupsRule (Pushed ssrcGroups_ok).
Proof. readable_pushed reads_ssrcGroups. Qed.
#[export] Instance readable_msidSemantic : Readable "a"%char msidSemanticRule (Named msidSemantic_ok).
Proof. readable_named reads_msidSemantic. Qed.
#[export] Instance readable_groups : Readable "a"%char groupsRule (Pushed groups_ok).
Proof. readable_pushed reads_groups. Qed.
#[export] Instance readable_rtcpMux : Readable "a"%char rtcpMuxRule (Value (word_in ["rtcp-mux"])).
Proof. readable_word reads_rtcpMux. Qed.
#[export] Instance readable_rtcpRsize : Readable "a"%char rtcpRsizeRule (Value (word_in ["rtcp-rsize"])).
Proof. readable_word reads_rtcpRsize. Qed.
#[export] Instance readable_sctpmap : Readable "a"%char sctpmapRule (Named sctpmap_ok).
Proof. readable_named reads_sctpmap. Qed.
#[export] Instance readable_rids : Readable "a"%char ridsRule (Pushed rids_ok).
Proof. readable_pushed reads_rids. Qed.
#[export] Instance readable_simulcast : Readable "a"%char simulcastRule (Named simulcast_ok).
Proof. readable_named reads_simulcast. Qed.
#[export] Instance readable_unread type R : Readable type R Unread.
Proof. exact I. Qed.

Definition attributeKinds : list (Rule * kind) :=
  [(rtpRule, Pushed rtp_ok);
   (fmtpRule, Pushed fmtp_ok);
   (controlRule, text_line);
   (rtcpRule, Named rtcp_ok);
   (rtcpFbTrrIntRule, Pushed rtcpFbTrrInt_ok);
   (rtcpFbRule, Pushed rtcpFb_ok);
   (extRule, Pushed ext_ok);
   (extmapAllowMixedRule, Value (word_in ["extmap-allow-mixed"]));
   (cryptoRule, Pushed crypto_ok);
   (setupRule, Value (value_ok "s"%char is_word));
   (midRule, token);
   (msidRule, text_line);
   (ptimeRule, number);
   (maxptimeRule, number);
   (directionRule, Value (word_in ["sendrecv"; "recvonly"; "sendonly"; "inactive"]));
   (iceliteRule, Value (word_in ["ice-lite"]));
   (iceUfragRule, token);
   (icePwdRule, token);
   (fingerprintRule, Named fingerprint_ok);
   (candidatesRule, Pushed candidates_ok);
   (endOfCandidatesRule, Value (word_in ["end-of-candidates"]));
   (remoteCandidatesRule, text_line);
   (iceOptionsRule, token);
   (ssrcsRule, Pushed ssrcs_ok);
   (ssrcGroupsRule, Pushed ssrcGroups_ok);
   (msidSemanticRule, Named msidSemantic_ok);
   (groupsRule, Pushed groups_ok);
   (rtcpMuxRule, Value (word_in ["rtcp-mux"]));
   (rtcpRsizeRule, Value (word_in ["rtcp-rsize"]));
   (sctpmapRule, Named sctpmap_ok);
   (xGoogleFlagRule, Unread);
   (ridsRule, Pushed rids_ok);
   (imageattrsRule, Unread);
   (simulcastRule, Named simulcast_ok);
   (simulcast_03Rule, Unread);
   (framerateRule, Unread);
   (sourceFilterRule, Unread);
   (tsRefclkRule, Unread);
   (mediaclkRule, Unread);
   (invalidRule, Unread)].

Definition kindsOf (type : ascii) : list (Rule * kind) :=
  match type with
  | "v"%char => [(versionRule, number)]
  | "o"%char => [(originRule, Named origin_ok)]
  | "s"%char => [(nameRule, text_line)]
  | "i"%char => [(descriptionRule, text_line)]
  | "u"%char => [(uriRule, text_line)]
  | "e"%char => [(emailRule, text_line)]
  | "p"%char => [(phoneRule, text_line)]
  | "z"%char => [(timezonesRule, text_line)]
  | "r"%char => [(repeatsRule, text_line)]
  | "t"%char => [(timingRule, Named timing_ok)]
  | "c"%char => [(connectionRule, Named connection_ok)]
  | "b"%char => [(bandwidthRule, Pushed bandwidth_ok)]
  | "a"%char => attributeKinds
  | _ => []
  end.

Lemma kindsOf_rules : Forall (fun type => rulesMap type = Some (map fst (kindsOf type))) OuterOrder.
Proof. repeat constructor. Qed.

(** The entries of the given types, in the order they are written. *)
Definition entries (order : list ascii) : list (ascii * (Rule * kind)) :=
  flat_map (fun type => map (pair type) (kindsOf type)) order.

Lemma entries_readable : Forall (fun e => Readable e.1 e.2.1 e.2.2) (entries OuterOrder).
Proof. repeat (constructor; [apply _|]). constructor. Qed.

(** ** Writing and reading an object *)

Definition reread_entries (es : list (ascii * (Rule * kind))) (location : json)
    (m : list (string * json)) : list (string * json) :=
  foldl (fun m e => reread_entry e.2.1 e.2.2 location m) m es.

Definition entries_ok (es : list (ascii * (Rule * kind))) (location : json) : bool :=
  forallb (fun e => entry_ok e.2.1 e.2.2 location) es.

Lemma readable_key type R k :
  Readable type R k ->
  match k with Value _ | Named _ => name R <> "" | Pushed _ => name R = "" | Unread => True end.
Proof. destruct k; [intros (? & ?)|intros (? & ?)|intros (? & ?)|]; done. Qed.

Lemma fresh_after type R k type' R' k' location m :
  Readable type R k -> Readable type' R' k' -> key R' <> key R -> fresh R' k' m ->
  fresh R' k' (reread_entry R k location m).
Proof.
  intros H%readable_key H'%readable_key Hne Hf. unfold key in Hne at 1. destruct k'; simpl in *; try done.
  - rewrite (proj2 (String.eqb_neq _ _) H') in Hne. by rewrite reread_entry_other.
  - rewrite H' in Hne. simpl in Hne. unfold pushed. by rewrite reread_entry_other.
Qed.

Lemma entries_read es location m :
  Forall (fun e => Readable e.1 e.2.1 e.2.2) es ->
  forallb (fun e => code_in 97 122 e.1 && negb (Ascii.eqb e.1 "m"%char)) es = true ->
  NoDup (map (fun e => key e.2.1) es) -> entries_ok es location = true ->
  sorted_keys m = true -> Forall (fun e => fresh e.2.1 e.2.2 m) es ->
  exists doc, concat_results (fun e => writeRule e.1 location e.2.1) es = Ok (render doc) /\
    doc_reads doc m (reread_entries es location m).
Proof.
  revert m. induction es as [|[type [R k]] es IH]; intros m Hread Hty Hnd Hok Hs Hfresh.
  { exists []. split; [done|apply doc_reads_nil]. }
  apply Forall_cons in Hread as [HR Hread]. apply Forall_cons in Hfresh as [HRf Hfresh].
  cbn [entries_ok forallb map fst snd] in *. apply andb_true_iff in Hok as [HRok Hok].
  apply andb_true_iff in Hty as [[Ht Htm%negb_true_iff%Ascii.eqb_neq]%andb_true_iff Hty].
  apply NoDup_cons in Hnd as [Hnin Hnd].
  destruct (entry_reads type R k location m) as (doc & Hdoc & Hr); try done.
  destruct (IH (reread_entry R k location m)) as (doc' & Hdoc' & Hr'); try done.
  { by apply reread_entry_sorted. }
  { apply Forall_forall. intros e He. rewrite Forall_forall in Hread, Hfresh.
    eapply fresh_after; [exact HR|by apply Hread| |by apply Hfresh].
    intros Heq. apply Hnin. rewrite <- Heq. apply list_elem_of_fmap. eauto. }
  exists (doc ++ doc'). split; [|by eapply doc_reads_app].
  cbn [concat_results fst snd]. rewrite Hdoc, Hdoc'. cbn [result_bind]. by rewrite render_app.
Qed.

Lemma concat_results_app {A} (f : A -> result string) l1 l2 :
  concat_results f (l1 ++ l2) =
  let? s1 := concat_results f l1 in let? s2 := concat_results f l2 in Ok (s1 +:+ s2).
Proof.
  induction l1 as [|x l1 IH]; simpl; [by destruct (concat_results f l2)|].
  destruct (f x); simpl; try done. rewrite IH.
  destruct (concat_results f l1); simpl; try done. destruct (concat_results f l2); simpl; try done.
  by rewrite str_app_assoc.
Qed.

Lemma concat_results_map {A B} (f : B -> result string) (g : A -> B) l :
  concat_results f (map g l) = concat_results (fun x => f (g x)) l.
Proof. induction l as [|x l IH]; simpl; [done|]. by rewrite IH. Qed.

Lemma writeTypes_entries order location :
  Forall (fun type => rulesMap type = Some (map fst (kindsOf type))) order ->
  writeTypes order location =
  concat_results (fun e => writeRule e.1 location e.2.1) (entries order).
Proof.
  unfold writeTypes, entries. induction 1 as [|type order Ht _ IH]; [done|].
  cbn [concat_results flat_map]. rewrite Ht, IH, concat_results_app, !concat_results_map. done.
Qed.
