(* ===== verification/SdpRoundtrip.v ===== *)
(** * Session descriptions: the round trip

    The text of a session whose entries fit their rules parses to the session, with the
    values in the types of the grammar. *)

From Stdlib Require Import Ascii.
From S2P Require Import Prelude Json Regex Strings Dtoa JsonDump JsonDumpSpec Validator.
From S2P Require Import SdpGrammar SdpParser SdpWriter SdpLines SdpRules SdpNamed SdpDocument.

(** ** Lines of a text *)

Lemma getlines_line w rest :
  free_of newline w = true ->
  getlines newline (w +:+ String newline rest) = w :: getlines newline rest.
Proof. intros Hw. unfold getlines. by rewrite split_go_word. Qed.

Lemma chomp_cr w : chomp (w +:+ String "013" "") = w.
Proof. unfold chomp. rewrite str_rev_app. simpl. by rewrite str_rev_rev. Qed.

Lemma valid_line type content :
  code_in 97 122 type = true ->
  is_Some (regex_search ValidLineRegex (String type ("=" +:+ content))).
Proof.
  intros Ht. unfold regex_search. cbn [search_from String.append].
  match goal with |- context [match rmatch ?n ?r ?s ?c ?k with _ => _ end] =>
    assert (is_Some (rmatch n r s c k)) as [[s' c'] E]; [|by rewrite E] end.
  eapply rmatch_complete; [|by eexists].
  unfold ValidLineRegex. cbn [seqs foldr].
  eapply rel_seq; [by apply rel_bol|]. eapply rel_seq; [apply rel_group, rel_char; exact Ht|].
  eapply rel_seq; [eapply rel_seq; [by apply rel_char|apply rel_eps]|].
  eapply rel_seq; [apply rel_group, rel_star_done|apply rel_eps].
Qed.

(** The effect of a line on the session and the sections *)
Definition lineStep (type : ascii) (content : string) : M (json * list json) unit :=
  do! when (Ascii.eqb type "m"%char)
    (let! st := get in
     put (st.1, st.2 ++ [jobj [("rtp", JArray []); ("fmtp", JArray [])]])) in
  at_location (parseContent type content).

Lemma parseLine_text type content :
  code_in 97 122 type = true ->
  parseLine (String type ("=" +:+ content +:+ String "013" "")) = lineStep type content.
Proof.
  intros Ht. unfold parseLine.
  assert (chomp (String type ("=" +:+ content +:+ String "013" "")) =
    String type ("=" +:+ content)) as ->.
  { rewrite <- str_app_assoc.
    change (String type (("=" +:+ content) +:+ String "013" ""))
      with (String type ("=" +:+ content) +:+ String "013" ""). apply chomp_cr. }
  destruct (valid_line type content Ht) as [x ->]. done.
Qed.

Lemma parse_line_text type content rest st :
  code_in 97 122 type = true -> free_of newline content = true ->
  parseLines (getlines newline (line_text (type, content) +:+ rest)) st =
  (do! lineStep type content in parseLines (getlines newline rest)) st.
Proof.
  intros Ht Hc. rewrite <- parseLine_text by done.
  assert (line_text (type, content) +:+ rest =
    String type ("=" +:+ content +:+ String "013" "") +:+ String newline rest) as ->.
  { unfold line_text, crlf. cbn [String.append fst snd]. do 2 f_equal. by rewrite !str_app_assoc. }
  rewrite getlines_line; [done|]. unfold free_of in *. cbn [all_chars String.append].
  assert (Ascii.eqb type newline = false) as ->.
  { apply Ascii.eqb_neq. intros ->. done. }
  pose proof (free_of_app newline content (String "013" "")) as H. unfold free_of in H.
  by rewrite H, Hc.
Qed.

(** ** The current location *)

Definition get_location (st : json * list json) : json :=
  match rev st.2 with [] => st.1 | location :: _ => location end.
Definition set_location (st : json * list json) (j : json) : json * list json :=
  match rev st.2 with [] => (j, st.2) | _ :: before => (st.1, rev before ++ [j]) end.

Lemma run_at_location {A} (f : M json A) st r j :
  f (get_location st) = (r, j) -> at_location f st = (r, set_location st j).
Proof.
  destruct st as [session media]. unfold at_location, get_location, set_location. cbn [fst snd].
  by destruct (rev media); intros ->.
Qed.

Lemma get_set_location st j : get_location (set_location st j) = j.
Proof.
  destruct st as [session media]. unfold get_location, set_location. cbn [fst snd].
  destruct (rev media) eqn:E; cbn [fst snd]; [by rewrite E|]. by rewrite rev_app_distr.
Qed.

Lemma set_set_location st j j' : set_location (set_location st j) j' = set_location st j'.
Proof.
  destruct st as [session media]. unfold set_location. cbn [fst snd].
  destruct (rev media) eqn:E; cbn [fst snd]; [by rewrite E|]. rewrite rev_app_distr. cbn.
  by rewrite rev_involutive.
Qed.

Lemma set_get_location st : set_location st (get_location st) = st.
Proof.
  destruct st as [session media]. unfold set_location, get_location. cbn [fst snd].
  destruct (rev media) as [|x l] eqn:E; [done|]. f_equal.
  by rewrite <- (rev_involutive media), E.
Qed.

(** The lines of a document below a location *)
Lemma parse_contents doc rest st j :
  Forall inner_line doc -> parseContents doc (get_location st) = (Ok tt, j) ->
  parseLines (getlines newline (render doc +:+ rest)) st =
  parseLines (getlines newline rest) (set_location st j).
Proof.
  intros Hin. revert st. induction Hin as [|[type content] doc (Ht & Htm & Hc) _ IH]; intros st Hp;
    cbn [fst snd] in *.
  - injection Hp as <-. by rewrite set_get_location.
  - cbn [render]. rewrite str_app_assoc, parse_line_text by done.
    cbn [parseContents] in Hp. unfold bind in Hp.
    destruct (parseContent type content (get_location st)) as [[[]| |] j1] eqn:Hj; try done.
    apply run_at_location in Hj. unfold lineStep. rewrite (proj2 (Ascii.eqb_neq _ _) Htm).
    unfold bind at 1 2. cbn [when ret]. rewrite Hj.
    rewrite IH by (by rewrite get_set_location). by rewrite set_set_location.
Qed.

(** ** Sections *)

(** A section before its lines are read *)
Definition section_base : list (string * json) := [("fmtp", JArray []); ("rtp", JArray [])].

Definition reread_media (mLine : json) : json :=
  JObject (reread_entries (entries InnerOrder) mLine
    (reread_fields mLine (names mediaRule) (types mediaRule)
      section_base)).

Definition printable_media (mLine : json) : bool :=
  media_ok mLine && entries_ok (entries InnerOrder) mLine.

Definition reread (session : json) : json :=
  JObject (obj_insert "media"
    (JArray (map reread_media (elems (default (JArray []) (find "media" session)))))
    (reread_entries (entries OuterOrder) session [])).

(** The media line *)
Lemma parse_media mLine :
  media_ok mLine = true ->
  exists content, makeLine "m"%char mediaRule mLine = Ok (line_text ("m"%char, content)) /\
    free_of newline content = true /\
    parseContent "m"%char content (JObject section_base) =
    (Ok tt, JObject (reread_fields mLine (names mediaRule) (types mediaRule) section_base)).
Proof.
  intros Hok. pose proof Hok as Hf. unfold media_ok, fits in Hf. apply andb_true_iff in Hf as [Hf _].
  destruct (reads_media mLine Hok) as (content & pre & suf & c & rules & Hm & Hc & Hr & H1 & Hs & Hsub).
  exists content. split; [done|split; [done|]]. unfold parseContent. rewrite Hr, H1.
  unfold parseReg. rewrite Hs. cbn [push name names mediaRule String.eqb negb andb].
  rewrite run_bind_get. unfold bind at 1. cbn [ret].
  exact (attach_object c mediaRule mLine _ _ ltac:(done) Hf Hsub).
Qed.

Lemma reread_fields_sorted o names types m :
  sorted_keys m = true -> sorted_keys (reread_fields o names types m) = true.
Proof.
  revert types m. induction names as [|n names IH]; intros [|t types] m Hs; cbn [reread_fields]; try done.
  apply IH. destruct (find n o); [by apply sorted_keys_insert|done].
Qed.

Lemma reread_fields_other o names types m k :
  forallb (fun n => negb (String.eqb k n)) names = true ->
  obj_find k (reread_fields o names types m) = obj_find k m.
Proof.
  revert types m. induction names as [|n names IH]; intros [|t types] m Hk; cbn [reread_fields]; try done.
  cbn [forallb] in Hk. apply andb_true_iff in Hk as [Hn Hk]. rewrite IH by done.
  destruct (find n o); [|done]. rewrite obj_find_insert. by destruct (String.eqb k n).
Qed.

(** The section before its lines are read holds nothing of the entry. *)
Definition fresh_section (e : ascii * (Rule * kind)) : bool :=
  forallb (fun n => negb (String.eqb (key e.2.1) n)) (names mediaRule) &&
  match e.2.2 with
  | Named _ => match obj_find (key e.2.1) section_base with None => true | _ => false end
  | Pushed _ => match pushed (key e.2.1) section_base with Some [] => true | _ => false end
  | _ => true
  end.

Lemma entries_fresh o es :
  Forall (fun e => Readable e.1 e.2.1 e.2.2) es -> forallb fresh_section es = true ->
  Forall (fun e => fresh e.2.1 e.2.2
    (reread_fields o (names mediaRule) (types mediaRule) section_base)) es.
Proof.
  induction 1 as [|[type [R k]] es HR _ IH]; cbn [forallb]; [constructor|].
  intros [[Hk Hb]%andb_true_iff Hes]%andb_true_iff. constructor; [|by apply IH].
  apply readable_key in HR. unfold key in *. cbn [fst snd] in *. destruct k; cbn [fresh]; [done| | |done].
  - rewrite (proj2 (String.eqb_neq _ _) HR) in *. rewrite reread_fields_other by done.
    by destruct (obj_find (name R) section_base).
  - rewrite HR in *. unfold pushed in *. cbn [String.eqb] in *. rewrite reread_fields_other by done.
    by destruct (obj_find (push R) section_base) as [[| | | | | |[]|]|].
Qed.

Lemma entries_inner_readable : Forall (fun e => Readable e.1 e.2.1 e.2.2) (entries InnerOrder).
Proof. repeat (constructor; [apply _|]). constructor. Qed.
Lemma kindsOf_inner : Forall (fun type => rulesMap type = Some (map fst (kindsOf type))) InnerOrder.
Proof. repeat constructor. Qed.

(** A section is written as the lines that are read back. *)
Lemma section_reads mLine rest session media :
  printable_media mLine = true ->
  exists text, writeMedia mLine = Ok text /\
    parseLines (getlines newline (text +:+ rest)) (session, media) =
    parseLines (getlines newline rest) (session, media ++ [reread_media mLine]).
Proof.
  intros [Hok He]%andb_true_iff. destruct (parse_media mLine Hok) as (content & Hm & Hc & Hp).
  destruct (entries_read (entries InnerOrder) mLine
    (reread_fields mLine (names mediaRule) (types mediaRule) section_base))
    as (doc & Hd & Hin & Hr); [apply entries_inner_readable|reflexivity| |done| | |].
  { apply (bool_decide_unpack _). reflexivity. }
  { by apply reread_fields_sorted. }
  { apply entries_fresh; [apply entries_inner_readable|reflexivity]. }
  eexists. unfold writeMedia. rewrite Hm, writeTypes_entries, Hd by apply kindsOf_inner.
  split; [reflexivity|]. rewrite str_app_assoc, parse_line_text by done.
  unfold lineStep. cbn [Ascii.eqb Bool.eqb when].
  pose proof (run_at_location (parseContent "m" content) (session, media ++ [JObject section_base])) as H.
  unfold get_location, set_location in H. cbn [fst snd] in H. rewrite rev_app_distr in H. cbn [rev app] in H.
  specialize (H _ _ Hp). rewrite rev_involutive in H.
  rewrite run_bind_bind. change (jobj [("rtp", JArray []); ("fmtp", JArray [])]) with (JObject section_base).
  unfold bind, get, put. cbn [fst snd]. rewrite H.
  erewrite parse_contents; [|done|].
  2:{ unfold get_location. cbn [fst snd]. rewrite rev_app_distr. cbn [rev app]. exact Hr. }
  unfold set_location. cbn [fst snd]. rewrite rev_app_distr. cbn [rev app].
  by rewrite rev_involutive.
Qed.

Lemma sections_read mLines rest session media :
  forallb printable_media mLines = true ->
  exists text, concat_results writeMedia mLines = Ok text /\
    parseLines (getlines newline (text +:+ rest)) (session, media) =
    parseLines (getlines newline rest) (session, media ++ map reread_media mLines).
Proof.
  revert media. induction mLines as [|mLine mLines IH]; intros media.
  - intros _. exists "". by rewrite app_nil_r.
  - cbn [forallb]. intros [Hm Hms]%andb_true_iff.
    destruct (IH (media ++ [reread_media mLine]) Hms) as (text & Ht & Hp).
    destruct (section_reads mLine (text +:+ rest) session media Hm) as (line & Hl & Hq).
    exists (line +:+ text). cbn [concat_results]. rewrite Hl, Ht. split; [done|].
    by rewrite str_app_assoc, Hq, Hp, <- app_assoc.
Qed.

(** ** Sessions *)

Definition printable (session : json) : bool :=
  is_object session && entries_ok (entries OuterOrder) session &&
  it_is (array_of printable_media) (find "media" session).

Lemma writeSession_read session :
  printable session = true ->
  exists text, writeSession session = Ok text /\ parse text = Ok (reread session).
Proof.
  intros [[Ho He]%andb_true_iff Hm]%andb_true_iff.
  destruct (entries_read (entries OuterOrder) session []) as (doc & Hd & Hin & Hr);
    [apply entries_readable|reflexivity| |done|done| |].
  { apply (bool_decide_unpack _). reflexivity. }
  { apply Forall_forall. intros [type [R []]] _; done. }
  unfold writeSession, reread. rewrite writeTypes_entries, Hd by apply kindsOf_rules.
  destruct session as [| | | | | | |m]; try done. unfold at_. cbn [find as_object] in *.
  destruct (obj_find "media" m) as [media|]; [|done]. destruct media as [| | | | | |mLines|]; try done.
  cbn [default elems]. 
  destruct (sections_read mLines "" (JObject (reread_entries (entries OuterOrder) (JObject m) [])) [] Hm)
    as (text & Ht & Hp).
  exists (render doc +:+ text). cbn [result_bind bool_decide elems default]. rewrite Ht. split; [done|].
  unfold parse. change "010"%char with newline.
  rewrite (parse_contents doc text (JObject [], []) _ Hin Hr). unfold set_location. cbn [rev fst snd].
  rewrite str_app_nil_r in Hp. by rewrite Hp.
Qed.

(** C9. Writing a session whose entries fit their rules succeeds, and parsing the text
    gives back what the rules know of it: the entries of the session and of every media
    section, with the values in the types the grammar gives them.  Entries without a rule,
    such as sctpPort and maxMessageSize, are not written and so not read back.  The session has
    no entries of eight rules that are read differently or not at all: xGoogleFlag, imageattrs,
    simulcast_03, framerate, sourceFilter, tsRefclk, mediaclk and invalid. *)
Theorem parse_write session session' :
  is_object session = true -> complete session = (Ok tt, session') ->
  printable session' = true ->
  exists text, write session = (Ok text, session') /\ parse text = Ok (reread session').
Proof.
  intros Ho Hc Hp. destruct (writeSession_read session' Hp) as (text & Hw & Hr). exists text.
  split; [|done]. unfold write. rewrite run_bind_get. rewrite Ho. cbn [negb throw_if].
  unfold bind at 1. cbn [ret]. rewrite (bind_of_ok _ _ _ _ _ Hc), run_bind_get. unfold lift.
  by rewrite Hw.
Qed.

Definition sample_media : json :=
  jobj [("type", JString "video"); ("port", JInt 7); ("protocol", JString "UDP/TLS/RTP/SAVPF");
    ("payloads", JString "101 102"); ("mid", JString "0"); ("iceUfrag", JString "u9Fk");
    ("icePwd", JString "p3wd"); ("setup", JString "active"); ("direction", JString "recvonly");
    ("connection", jobj [("ip", JString "127.0.0.1"); ("version", JInt 4)]);
    ("rtcpMux", JString "rtcp-mux"); ("rtcpRsize", JString "rtcp-rsize");
    ("rtp", JArray [jobj [("payload", JInt 101); ("codec", JString "VP8"); ("rate", JInt 90000)];
                    jobj [("payload", JInt 102); ("codec", JString "rtx"); ("rate", JInt 90000)]]);
    ("fmtp", JArray [jobj [("payload", JInt 102); ("config", JString "apt=101")]]);
    ("rtcpFb", JArray [jobj [("payload", JString "101"); ("type", JString "nack"); ("subtype", JString "pli")]]);
    ("ext", JArray [jobj [("value", JInt 4); ("uri", JString "urn:ietf:params:rtp-hdrext:sdes:mid")]]);
    ("candidates", JArray [jobj [("foundation", JString "udpcandidate"); ("component", JInt 1);
       ("transport", JString "udp"); ("priority", JInt 1076302079); ("ip", JString "10.0.0.1");
       ("port", JInt 40533); ("type", JString "host")]]);
    ("endOfCandidates", JString "end-of-candidates")].
Definition sample_session : json :=
  jobj [("version", JInt 0);
    ("origin", jobj [("address", JString "0.0.0.0"); ("ipVer", JInt 4); ("netType", JString "IN");
       ("sessionId", JInt 10000); ("sessionVersion", JInt 1); ("username", JString "mediasoup-client")]);
    ("name", JString "-"); ("timing", jobj [("start", JInt 0); ("stop", JInt 0)]);
    ("icelite", JString "ice-lite");
    ("fingerprint", jobj [("type", JString "sha-256"); ("hash", JString "A9:F4:E0")]);
    ("groups", JArray [jobj [("type", JString "BUNDLE"); ("mids", JString "0")]]);
    ("msidSemantic", jobj [("semantic", JString "WMS"); ("token", JString "*")]);
    ("media", JArray [sample_media])].

Lemma parse_write_witness :
  exists text, write sample_session = (Ok text, sample_session) /\
    parse text = Ok (reread sample_session) /\
    find "media" (reread sample_session) = Some (JArray [reread_media sample_media]).
Proof.
  destruct (parse_write sample_session sample_session) as (text & H1 & H2).
  - reflexivity.
  - vm_compute. reflexivity.
  - vm_compute. reflexivity.
  - exists text. split; [exact H1|split; [exact H2|reflexivity]].
Defined.
