(* ===== verification/SdpWriterSpec.v ===== *)
(** * What the writer leaves out

    The text of a location depends only on the entries the grammar names, so the SCTP
    port of an application section is not written; and the values of a candidate without
    a generation are written under the wrong names. *)

From Stdlib Require Import Ascii.
From S2P Require Import Prelude Json Regex Strings Dtoa JsonDump JsonDumpSpec Validator.
From S2P Require Import SdpGrammar SdpParser SdpWriter SdpDocument.

(** ** Entries the writer uses *)

(** The keys a line is made of, besides the elements of a pushed array. *)
Definition line_keys (R : Rule) : list string := name R :: names R.

Definition agree (keys : list string) (o o' : json) : Prop :=
  forall k, k ∈ keys -> find k o = find k o'.

(** Named rules and pushed elements take their format from a part of the location. *)
Lemma lineArgs_agree R o o' : agree (line_keys R) o o' -> lineArgs R o = lineArgs R o'.
Proof.
  intros H. assert (find (name R) o = find (name R) o') as Hn by (apply H; left).
  assert (Hns : forall k, k ∈ names R -> find k o = find k o') by (intros k Hk; apply H; by right).
  unfold lineArgs. rewrite Hn. destruct (names R) as [|n ns]; [done|].
  apply map_ext_in. intros k Hk%list_elem_of_In. unfold lineArg. by rewrite Hn, (Hns k Hk).
Qed.

Lemma makeLine_agree type R m m' :
  name R <> "" -> push R = "" -> agree (line_keys R) (JObject m) (JObject m') ->
  makeLine type R (JObject m) = makeLine type R (JObject m').
Proof.
  intros Hn Hp H. unfold makeLine. rewrite (lineArgs_agree _ _ _ H). unfold lineFormat, at_.
  rewrite Hp, (proj2 (String.eqb_neq _ _) Hn). cbn [String.eqb negb].
  assert (obj_find (name R) m = obj_find (name R) m') as -> by (apply (H (name R)); left). done.
Qed.

(** The line of a rule is written for a name that is bound. *)
Lemma writeRule_agree type R m m' :
  name R = "" \/ push R = "" -> agree [push R; name R] (JObject m) (JObject m') ->
  (is_Some (obj_find (name R) m) -> agree (names R) (JObject m) (JObject m')) ->
  writeRule type (JObject m) R = writeRule type (JObject m') R.
Proof.
  intros Hnp H Hns.
  assert (find (name R) (JObject m) = find (name R) (JObject m')) as Hn by (apply H; right; left).
  assert (find (push R) (JObject m) = find (push R) (JObject m')) as Hp by (apply H; left).
  unfold writeRule. rewrite <- Hn, <- Hp. destruct (String.eqb_spec (name R) "") as [|Hne]; [done|].
  destruct Hnp as [|Hpe]; [done|]. cbn [find] in *.
  destruct (obj_find (name R) m) as [v|] eqn:E; [|done].
  rewrite (makeLine_agree type R m m' Hne Hpe); [done|].
  intros k [->|Hk]%elem_of_cons; [|by apply Hns]. cbn [find]. by rewrite E.
Qed.

(** The rules of a media section *)
Definition mediaRules : list Rule := flat_map (fun type => default [] (rulesMap type)) InnerOrder.

Lemma concat_results_ext {A} (f g : A -> result string) l :
  (forall x, x ∈ l -> f x = g x) -> concat_results f l = concat_results g l.
Proof.
  induction l as [|x l IH]; intros H; [done|]. cbn [concat_results].
  rewrite (H x) by left. rewrite IH; [done|]. intros y Hy. apply H. by right.
Qed.

Lemma rules_named_or_pushed : Forall (fun R => name R = "" \/ push R = "") mediaRules.
Proof. repeat (constructor; [first [by left|by right]|]). constructor. Qed.

Lemma writeMedia_agree m m' :
  agree ("" :: names mediaRule) (JObject m) (JObject m') ->
  Forall (fun R => agree [push R; name R] (JObject m) (JObject m') /\
    (is_Some (obj_find (name R) m) -> agree (names R) (JObject m) (JObject m'))) mediaRules ->
  writeMedia (JObject m) = writeMedia (JObject m').
Proof.
  intros Hm Hall. unfold writeMedia.
  assert (makeLine "m" mediaRule (JObject m) = makeLine "m" mediaRule (JObject m')) as ->.
  { unfold makeLine. rewrite (lineArgs_agree mediaRule _ _ Hm). unfold lineFormat.
    cbn [format mediaRule String.eqb push name negb formatFunc result_bind].
    assert (hasValue (JObject m) "numPorts" = hasValue (JObject m') "numPorts") as ->; [|done].
    unfold hasValue. rewrite (Hm "numPorts"); [done|]. by apply (bool_decide_unpack _). }
  assert (writeTypes InnerOrder (JObject m) = writeTypes InnerOrder (JObject m')) as ->; [|done].
  apply concat_results_ext. intros type Ht.
  destruct (rulesMap type) as [rules|] eqn:E; [|done]. apply concat_results_ext. intros R HR.
  assert (R ∈ mediaRules) as HRm.
  { apply list_elem_of_In, in_flat_map. exists type. rewrite E. by split; apply list_elem_of_In. }
  pose proof rules_named_or_pushed as Hr. rewrite Forall_forall in Hr, Hall.
  apply writeRule_agree; [by apply Hr|by apply Hall..].
Qed.

(** ** The SCTP port *)

(** The keys that no rule but the one of [sctpmap] reads. *)
Definition unused (k : string) (R : Rule) : bool :=
  negb (String.eqb k (push R)) && negb (String.eqb k (name R)) &&
  (String.eqb (name R) "sctpmap" || bool_decide (k ∉ names R)).

Lemma writeMedia_unused k v m :
  bool_decide (k ∉ "" :: names mediaRule) = true -> forallb (unused k) mediaRules = true ->
  obj_find "sctpmap" m = None ->
  writeMedia (JObject m) = writeMedia (JObject (obj_insert k v m)).
Proof.
  intros Hm%bool_decide_eq_true Hall%forallb_Forall Hs.
  assert (Hother : forall keys, k ∉ keys -> agree keys (JObject m) (JObject (obj_insert k v m))).
  { intros keys Hk k' Hk'. cbn [find]. rewrite obj_find_insert.
    destruct (String.eqb_spec k' k) as [->|]; done. }
  apply writeMedia_agree; [by apply Hother|]. eapply Forall_impl; [exact Hall|].
  intros R [[H1%negb_true_iff%String.eqb_neq H2%negb_true_iff%String.eqb_neq]%andb_true_iff H3]%andb_true_iff.
  split; [apply Hother; by rewrite !not_elem_of_cons; repeat split; try apply not_elem_of_nil|].
  intros [x Hx]. apply orb_true_iff in H3 as [H3%String.eqb_eq|H3%bool_decide_eq_true];
    [|by apply Hother]. by rewrite H3, Hs in Hx.
Qed.

(** The [sctpPort] and [maxMessageSize] an application section is given have no rule
    in the grammar: whatever their values, the text of the section is the same. *)
Theorem sctpPort_not_written m port size :
  obj_find "sctpmap" m = None ->
  writeMedia (JObject (obj_insert "maxMessageSize" size (obj_insert "sctpPort" port m))) =
  writeMedia (JObject m).
Proof.
  intros Hs. rewrite (writeMedia_unused "sctpPort" port m) by done.
  symmetry. apply writeMedia_unused; [done|done|]. by rewrite obj_find_insert.
Qed.

(** ** Candidates *)

Definition candidate_of (foundation transport ip type : string) (component priority port : Z)
    (extra : list (string * json)) : json :=
  jobj ([("foundation", JString foundation); ("component", JInt component);
    ("transport", JString transport); ("priority", JInt priority); ("ip", JString ip);
    ("port", JInt port); ("type", JString type)] ++ extra).

Lemma arg_text_int n : - 2 ^ 64 < n < 2 ^ 64 -> arg_text (JInt n) = Ok (to_string n).
Proof. apply dump_integer_to_string. Qed.

(** The format of a candidate has no placeholder for a missing generation, so the
    values after it shift: the line carries no network id, the network id as the network
    cost, and never the network cost. *)
Theorem candidate_values_shift foundation transport ip type component priority port id cost :
  0 <= component < 2 ^ 31 -> 0 <= priority < 2 ^ 32 -> 0 <= port < 2 ^ 16 -> 0 <= id < 2 ^ 31 ->
  makeLine "a" candidatesRule
    (candidate_of foundation transport ip type component priority port
      [("network-id", JInt id); ("network-cost", JInt cost)]) =
  Ok ("a=candidate:" +:+ foundation +:+ " " +:+ to_string component +:+ " " +:+ transport +:+
    " " +:+ to_string priority +:+ " " +:+ ip +:+ " " +:+ to_string port +:+ " typ " +:+ type +:+
    " network-id  network-cost " +:+ to_string id +:+ crlf).
Proof.
  intros Hc Hp Ho Hi. unfold makeLine.
  set (o := candidate_of _ _ _ _ _ _ _ _).
  assert (lineFormat candidatesRule o =
    Ok "candidate:%s %d %s %d %s %d typ %s%v%v%v network-id %d network-cost %d") as -> by reflexivity.
  assert (lineArgs candidatesRule o =
    [JString foundation; JInt component; JString transport; JInt priority; JString ip; JInt port;
     JString type; JString ""; JString ""; JString ""; JString ""; JInt id; JInt cost]) as ->
    by reflexivity.
  cbn [result_bind].
  match goal with |- context [placeholders ?f] =>
    let ps := eval vm_compute in (placeholders f) in change (placeholders f) with ps end.
  cbn [fill String.eqb Ascii.eqb Bool.eqb orb].
  rewrite !arg_text_int by lia. cbn [arg_text result_bind].
  rewrite !str_app_assoc. reflexivity.
Qed.

Lemma sctpPort_not_written_witness :
  writeMedia (jobj [("type", JString "application"); ("port", JInt 9);
    ("protocol", JString "UDP/DTLS/SCTP"); ("payloads", JString "webrtc-datachannel");
    ("sctpPort", JInt 5000); ("maxMessageSize", JInt 262144)]) =
  Ok ("m=application 9 UDP/DTLS/SCTP webrtc-datachannel" +:+ crlf).
Proof.
  etransitivity;
    [exact (sctpPort_not_written
       [("payloads", JString "webrtc-datachannel"); ("port", JInt 9);
        ("protocol", JString "UDP/DTLS/SCTP"); ("type", JString "application")]
       (JInt 5000) (JInt 262144) eq_refl)|].
  vm_compute. reflexivity.
Defined.

Lemma candidate_values_shift_witness :
  makeLine "a" candidatesRule
    (candidate_of "1" "udp" "10.0.0.1" "host" 1 2122260223 4000
      [("network-id", JInt 3); ("network-cost", JInt 50)]) =
  Ok ("a=candidate:1 1 udp 2122260223 10.0.0.1 4000 typ host network-id  network-cost 3" +:+ crlf).
Proof. rewrite candidate_values_shift by lia. vm_compute. reflexivity. Defined.
