(* ===== verification/SdpParserSpec.v ===== *)
(** * What the SDP parser gives

    Whatever the text, the parser gives a session whose entries have the shapes and the
    types of the grammar, or fails on a number that is out of range. *)

From Stdlib Require Import Ascii.
From S2P Require Import Prelude Json Regex Strings Validator.
From S2P Require Import SdpGrammar SdpParser SdpWriter SdpDocument.

(** ** Shapes *)

(** A value of the type a rule declares *)
Definition typed (t : ascii) (v : json) : bool :=
  match t with
  | "s"%char => is_string v
  | "u"%char => match v with JUInt n => (0 <=? n) && (n <? 2 ^ 64) | _ => false end
  | "d"%char => match v with JInt n => (- 2 ^ 63 <=? n) && (n <? 2 ^ 63) | _ => false end
  | "f"%char => match v with JFloat _ => true | _ => false end
  | _ => is_null v
  end.

Fixpoint fields_typed (names : list string) (types : list ascii) (o : json) : bool :=
  match names, types with
  | n :: names, t :: types => it_none_or (typed t) (find n o) && fields_typed names types o
  | _, _ => true
  end.
Definition object_typed (R : Rule) (o : json) : bool :=
  is_object o && fields_typed (names R) (types R) o.

(** What a rule stores under its key *)
Definition rule_shape (R : Rule) (v : json) : bool :=
  if negb (String.eqb (push R) "") then array_of (object_typed R) v
  else if bool_decide (names R = []) then match types R with t :: _ => typed t v | [] => true end
  else object_typed R v.

Definition allRules : list Rule :=
  flat_map (fun type => default [] (rulesMap type)) OuterOrder.

Definition rule_at (k : string) : option Rule := List.find (fun R => String.eqb k (key R)) allRules.
Definition shape_at (k : string) (v : json) : bool :=
  match rule_at k with Some R => rule_shape R v | None => true end.

(** Every entry that a rule reads has the shape of the rule. *)
Definition shaped (m : list (string * json)) : Prop :=
  sorted_keys m = true /\ forall k v, obj_find k m = Some v -> shape_at k v = true.

Lemma rule_at_key : Forall (fun R => rule_at (key R) = Some R) allRules.
Proof. repeat (constructor; [reflexivity|]). constructor. Qed.

(** The rules declare a type for every name. *)
Definition well_formed (R : Rule) : bool :=
  match names R with
  | [] => negb (String.eqb (name R) "") && String.eqb (push R) "" && Nat.eqb (length (types R)) 1
  | ns => Nat.leb (length ns) (length (types R)) && xorb (String.eqb (name R) "") (String.eqb (push R) "")
  end.
Lemma rules_well_formed : forallb well_formed allRules = true.
Proof. reflexivity. Qed.

(** ** Outcomes *)

(** Ends in a state that satisfies [Q], or with a number out of range. *)
Definition ends_in {S A} (Q : S -> Prop) (o : result A * S) : Prop :=
  match o with
  | (Ok _, s) => Q s
  | (Throw StdOutOfRange, _) => True
  | _ => False
  end.

Lemma ends_bind {S A B} (P Q : S -> Prop) (m : M S A) (f : A -> M S B) s :
  ends_in P (m s) -> (forall a s', P s' -> ends_in Q (f a s')) -> ends_in Q (bind m f s).
Proof.
  unfold bind. destruct (m s) as [[a|e|] s']; cbn; [auto| |done]. by destruct e.
Qed.

Lemma ends_weaken {S A} (P Q : S -> Prop) (o : result A * S) :
  ends_in P o -> (forall s, P s -> Q s) -> ends_in Q o.
Proof. destruct o as [[a|e|] s]; cbn; auto. Qed.

Lemma stod_outcome s :
  is_Some (extract_float 53 1024 s) -> (exists d, stod s = Ok d) \/ stod s = Throw StdOutOfRange.
Proof.
  unfold extract_float, stod. intros [f H]. destruct (float_field s) as [[neg [[m b] e]]|]; [|done].
  destruct (m =? 0); [eauto|]. destruct (ratio m b e) as [n d].
  destruct (round_ratio 53 1024 neg n d); [|done]. destruct (_ <? _); eauto.
Qed.

Lemma toType_typed str t :
  (exists v, toType str t = Ok v /\ typed t v = true) \/ toType str t = Throw StdOutOfRange.
Proof.
  destruct t as [[] [] [] [] [] [] [] []]; try (left; by eexists); cbn [toType]. 
  - left. destruct (extract_unsigned 64 str) as [n|] eqn:E; [|by eexists].
    exists (JUInt n). split; [done|]. apply extract_unsigned_range in E.
    unfold typed. by rewrite andb_true_iff, Z.leb_le, Z.ltb_lt.
  - destruct (extract_float 53 1024 str) eqn:E; [|left; by eexists].
    destruct (stod_outcome str) as [[d ->]| ->]; [by eexists|left; by eexists|by right].
  - left. destruct (extract_signed 64 str) as [n|] eqn:E; [|by eexists].
    exists (JInt n). split; [done|]. apply extract_signed_range in E.
    unfold typed. by rewrite andb_true_iff, Z.leb_le, Z.ltb_lt.
Qed.

(** ** Fields *)

(** Only the fields of the names change, and they are typed. *)
Lemma attachNames_ends (inv : list (string * json) -> Prop) c types ns :
  (forall i n t v m, ns !! i = Some n -> types !! i = Some t -> typed t v = true -> inv m ->
    inv (obj_insert n v m)) ->
  (length ns <= length types)%nat ->
  forall m, inv m ->
  ends_in (fun j => exists m', j = JObject m' /\ inv m') (attachNames c types 0 ns (JObject m)).
Proof.
  intros Hinv Hlen.
  assert (forall ns' i m, (forall j n, ns' !! j = Some n -> ns !! (i + j)%nat = Some n) -> inv m ->
    ends_in (fun j => exists m', j = JObject m' /\ inv m') (attachNames c types i ns' (JObject m))) as H;
    [|intros m; by apply H].
  induction ns' as [|n ns' IH]; intros i m Hns Hm; cbn [attachNames].
  { cbn. eauto. }
  pose proof (Hns 0%nat n eq_refl) as Hn. rewrite Nat.add_0_r in Hn.
  destruct (types !! i) as [t|] eqn:Et.
  2:{ apply lookup_ge_None in Et. apply lookup_lt_Some in Hn. lia. }
  eapply ends_bind with (P := fun j => exists m', j = JObject m' /\ inv m').
  - destruct (negb _); cbn [when]; [|by cbn; eauto].
    unfold type_at. rewrite Et.
    destruct (toType_typed (sub (S i) c) t) as [(v & Hv & Ht)|Hv].
    + unfold bind, lift. rewrite Hv. cbn. exists (obj_insert n v m). split; [done|]. by eapply Hinv.
    + unfold bind, lift. rewrite Hv. done.
  - intros [] j (m' & -> & Hm'). apply IH; [|done]. intros j n' Hj.
    specialize (Hns (S j) n' Hj). by rewrite Nat.add_succ_r in Hns.
Qed.

Lemma fields_typed_iff ns ts o :
  fields_typed ns ts o = true <->
  forall i n t, ns !! i = Some n -> ts !! i = Some t -> it_none_or (typed t) (find n o) = true.
Proof.
  revert ts. induction ns as [|n ns IH]; intros [|t ts]; cbn [fields_typed]; try (split; by intros).
  rewrite andb_true_iff, IH. split.
  - intros [H1 H2] [|i] n' t' Hn Ht; [by simplify_eq/=|]. by eapply H2.
  - intros H. split; [by eapply (H 0%nat)|]. intros i. apply (H (S i)).
Qed.

(** The object of the fields of a rule *)
Definition typed_fields (R : Rule) (m : list (string * json)) : Prop :=
  fields_typed (names R) (types R) (JObject m) = true.

Lemma fields_typed_insert ns ts i n t v m :
  NoDup ns -> ns !! i = Some n -> ts !! i = Some t -> typed t v = true ->
  fields_typed ns ts (JObject m) = true ->
  fields_typed ns ts (JObject (obj_insert n v m)) = true.
Proof.
  rewrite !fields_typed_iff. intros Hnd Hn Ht Hv H j n' t' Hn' Ht'. cbn [find]. rewrite obj_find_insert.
  destruct (String.eqb_spec n' n) as [->|]; [|by eapply H].
  assert (j = i) as -> by (by eapply NoDup_lookup). by simplify_eq/=.
Qed.

Lemma names_distinct : Forall (fun R => NoDup (names R)) (mediaRule :: allRules).
Proof. apply (bool_decide_unpack _). vm_compute. reflexivity. Qed.

Definition is_obj (P : list (string * json) -> Prop) (j : json) : Prop :=
  exists m, j = JObject m /\ P m.

Lemma attach_typed R c m :
  R ∈ allRules -> names R <> [] -> typed_fields R m ->
  ends_in (is_obj (typed_fields R)) (attachProperties c (names R) (name R) (types R) (JObject m)).
Proof.
  intros HR Hns Hm. pose proof names_distinct as Hnd. apply Forall_cons in Hnd as [_ Hnd].
  rewrite Forall_forall in Hnd. pose proof rules_well_formed as Hwf. apply forallb_Forall in Hwf.
  rewrite Forall_forall in Hwf. specialize (Hwf R HR). unfold well_formed in Hwf.
  unfold attachProperties. rewrite bool_decide_names, andb_false_r by done.
  apply attachNames_ends; [| |done].
  - intros i n t v m' Hn Ht Hv Hf. by eapply fields_typed_insert; try apply Hnd.
  - destruct (names R); [done|]. apply andb_true_iff in Hwf as [?%Nat.leb_le _]. done.
Qed.

(** ** Locations *)

Section location.
(** A property of locations that holds on when an entry of a rule is written. *)
Context (inv : list (string * json) -> Prop).
Context (inv_shaped : forall m, inv m -> shaped m).
Context (inv_insert : forall R v m, R ∈ allRules -> rule_shape R v = true -> inv m ->
  inv (obj_insert (key R) v m)).

Lemma shaped_entry R m v :
  R ∈ allRules -> shaped m -> obj_find (key R) m = Some v -> rule_shape R v = true.
Proof.
  intros HR [_ H] Hv. apply H in Hv. pose proof rule_at_key as Hk. rewrite Forall_forall in Hk.
  unfold shape_at in Hv. by rewrite (Hk R HR) in Hv.
Qed.

Lemma at_bound_ends {A} (Q : json -> Prop) k m v (f : M json A) :
  sorted_keys m = true -> obj_find k m = Some v -> ends_in Q (f v) ->
  ends_in (fun j => exists v', j = JObject (obj_insert k v' m) /\ Q v') (at_key k f (JObject m)).
Proof.
  intros Hs Hk Hf. destruct (f v) as [r v'] eqn:E. rewrite (run_at_bound k m v f r v' Hs Hk E).
  destruct r as [|[]|]; cbn in *; eauto.
Qed.

Lemma rule_cases R :
  R ∈ allRules ->
  (names R = [] /\ name R <> "" /\ push R = "" /\ exists t, types R = [t]) \/
  (names R <> [] /\ name R <> "" /\ push R = "") \/
  (names R <> [] /\ name R = "" /\ push R <> "").
Proof.
  intros HR. pose proof rules_well_formed as Hwf. apply forallb_Forall in Hwf.
  rewrite Forall_forall in Hwf. specialize (Hwf R HR). unfold well_formed in Hwf.
  destruct (names R).
  - left. apply andb_true_iff in Hwf as [[H1%negb_true_iff%String.eqb_neq H2%String.eqb_eq]%andb_true_iff H3%Nat.eqb_eq].
    repeat split; [done..|]. destruct (types R) as [|t [|]]; try done. eauto.
  - right. apply andb_true_iff in Hwf as [_ Hx].
    destruct (String.eqb_spec (name R) ""), (String.eqb_spec (push R) ""); try done; [by right|by left].
Qed.

Lemma parse_value_ends R content m :
  R ∈ allRules -> names R = [] -> name R <> "" -> push R = "" -> (exists t, types R = [t]) -> inv m ->
  ends_in (is_obj inv) (parseReg R content (JObject m)).
Proof.
  intros HR Hns Hn Hp [t Ht] Hm. unfold parseReg. rewrite Hns, Hp. rewrite (proj2 (String.eqb_neq _ _) Hn).
  cbn [String.eqb negb andb]. rewrite run_bind_get. unfold bind at 1. rewrite bool_decide_true by done.
  cbn [negb andb ret]. unfold attachProperties. rewrite (proj2 (String.eqb_neq _ _) Hn), bool_decide_true by done.
  cbn [negb andb]. rewrite Ht. cbn [type_at lookup list_lookup]. unfold bind, lift.
  match goal with |- context [toType ?s t] => destruct (toType_typed s t) as [(v & -> & Hv)| ->] end; [|done].
  cbn. eexists. split; [done|].
  assert (key R = name R) as <- by (unfold key; by rewrite (proj2 (String.eqb_neq _ _) Hn)).
  apply inv_insert; [done| |done]. unfold rule_shape. rewrite Hp, Hns, Ht.
  by rewrite bool_decide_true.
Qed.

(** The entry of a rule, made when it is missing *)
Lemma ensure_entry R v m :
  R ∈ allRules -> rule_shape R v = true -> inv m ->
  exists m' w, (if negb (contains (key R) (JObject m)) then set_key (key R) v else ret tt) (JObject m) =
    (Ok tt, JObject m') /\ inv m' /\ obj_find (key R) m' = Some w /\ rule_shape R w = true.
Proof.
  intros HR Hv Hm. unfold contains. cbn [find].
  destruct (obj_find (key R) m) as [w|] eqn:E; [rewrite bool_decide_true by eauto|rewrite bool_decide_false by (by intros [])].
  - exists m, w. repeat split; [done..|]. by eapply shaped_entry; eauto.
  - exists (obj_insert (key R) v m), v. rewrite obj_find_insert, String.eqb_refl.
    repeat split; [|done]. by apply inv_insert.
Qed.

Lemma parse_named_ends R content m :
  R ∈ allRules -> names R <> [] -> name R <> "" -> push R = "" -> inv m ->
  ends_in (is_obj inv) (parseReg R content (JObject m)).
Proof.
  intros HR Hns Hn Hp Hm. unfold parseReg. rewrite Hp.
  assert (key R = name R) as Hk by (unfold key; by rewrite (proj2 (String.eqb_neq _ _) Hn)).
  rewrite (proj2 (String.eqb_neq _ _) Hn), bool_decide_names by done.
  cbn [String.eqb negb andb]. rewrite run_bind_get.
  assert (Hshape : forall v, rule_shape R v = object_typed R v).
  { intros v. unfold rule_shape. by rewrite Hp, bool_decide_names. }
  destruct (ensure_entry R (JObject []) m HR) as (m' & w & He & Hm' & Hw & Hs); [|done|].
  { rewrite Hshape. unfold object_typed. apply fields_typed_iff. by intros. }
  rewrite Hk in He, Hw. unfold bind at 1. rewrite He.
  rewrite Hshape in Hs. destruct w as [| | | | | | |mo]; try done.
  eapply ends_weaken.
  - eapply at_bound_ends; [apply inv_shaped, Hm'|exact Hw|]. by apply attach_typed.
  - intros j (v & -> & mv & -> & Hmv). exists (obj_insert (name R) (JObject mv) m'). split; [done|].
    rewrite <- Hk. apply inv_insert; [done| |done]. by rewrite Hshape.
Qed.

Lemma on_new_ends {S} (Q : json -> Prop) (f : M json unit) (s : S) :
  ends_in Q (f (JObject [])) ->
  (exists o, on_new f s = (Ok o, s) /\ Q o) \/ on_new f s = (Throw StdOutOfRange, s).
Proof.
  unfold on_new. destruct (f (JObject [])) as [[[]|[]|] o]; cbn; try done; [|by right]. left. eauto.
Qed.

Lemma parse_pushed_ends R content m :
  R ∈ allRules -> names R <> [] -> name R = "" -> push R <> "" -> inv m ->
  ends_in (is_obj inv) (parseReg R content (JObject m)).
Proof.
  intros HR Hns Hn Hp Hm. unfold parseReg.
  assert (key R = push R) as Hk by (unfold key; by rewrite Hn).
  rewrite (proj2 (String.eqb_neq _ _) Hp), Hn. cbn [String.eqb negb andb]. rewrite run_bind_get.
  assert (Hshape : forall v, rule_shape R v = array_of (object_typed R) v).
  { intros v. unfold rule_shape. by rewrite (proj2 (String.eqb_neq _ _) Hp). }
  destruct (ensure_entry R (JArray []) m HR) as (m' & w & He & Hm' & Hw & Hs); [by rewrite Hshape|done|].
  rewrite Hk in He, Hw. unfold bind at 1. rewrite He.
  rewrite Hshape in Hs. destruct w as [| | | | | |l|]; try done.
  match goal with |- context [attachProperties ?c _ _ _] =>
    pose proof (attach_typed R c [] HR Hns) as Ha end.
  rewrite Hn in Ha. apply (on_new_ends (S := json)) with (s := JObject m') in Ha.
  2:{ apply fields_typed_iff. by intros. }
  destruct Ha as [(o & Ho & mo & -> & Hmo)|Ho]; unfold bind at 1; rewrite Ho; [|done].
  eapply ends_weaken.
  - eapply at_bound_ends with (Q := fun v => v = JArray (l ++ [JObject mo]));
      [apply inv_shaped, Hm'|exact Hw|done].
  - intros j (v & -> & ->). eexists. split; [done|].
    rewrite <- Hk. apply inv_insert; [done| |done]. rewrite Hshape. cbn [array_of].
    rewrite forallb_app. cbn [array_of] in Hs. rewrite Hs. cbn. by rewrite Hmo.
Qed.

Lemma parseReg_ends R content m :
  R ∈ allRules -> inv m -> ends_in (is_obj inv) (parseReg R content (JObject m)).
Proof.
  intros HR Hm. destruct (rule_cases R HR) as [(? & ? & ? & ?)|[(? & ? & ?)|(? & ? & ?)]].
  - by apply parse_value_ends.
  - by apply parse_named_ends.
  - by apply parse_pushed_ends.
Qed.

Lemma firstRule_in rules content R : firstRule rules content = Some R -> R ∈ rules.
Proof.
  induction rules as [|R' rules IH]; cbn [firstRule]; [done|].
  destruct (regex_search (reg R') content); [intros [= ->]; left|right; auto].
Qed.

Lemma rulesMap_types type rules :
  rulesMap type = Some rules -> type <> "m"%char -> type ∈ OuterOrder.
Proof.
  destruct type as [[] [] [] [] [] [] [] []]; try done; intros _ _; by apply (bool_decide_unpack _).
Qed.

Lemma parseContent_ends type content m :
  type <> "m"%char -> inv m -> ends_in (is_obj inv) (parseContent type content (JObject m)).
Proof.
  intros Ht Hm. unfold parseContent. destruct (rulesMap type) as [rules|] eqn:E; [|by exists m].
  destruct (firstRule rules content) as [R|] eqn:HR; [|by exists m]. apply parseReg_ends; [|done].
  apply list_elem_of_In, in_flat_map. exists type. rewrite E. split; apply list_elem_of_In.
  - by eapply rulesMap_types.
  - by eapply firstRule_in.
Qed.
End location.

(** ** Sections and sessions *)

Definition rules_shape (o : json) : bool :=
  is_object o && forallb (fun R => it_none_or (rule_shape R) (find (key R) o)) allRules.

(** A media section: its line and arrays of codecs *)
Definition section_shape (o : json) : bool :=
  rules_shape o && fields_typed (names mediaRule) (types mediaRule) o &&
  contains "rtp" o && contains "fmtp" o.

Definition session_shape (session : json) : bool :=
  rules_shape session && it_is (array_of section_shape) (find "media" session).

Definition section (m : list (string * json)) : Prop :=
  shaped m /\ typed_fields mediaRule m /\
  is_Some (obj_find "rtp" m) /\ is_Some (obj_find "fmtp" m).

Lemma shaped_rules m : shaped m -> rules_shape (JObject m) = true.
Proof.
  intros Hm. unfold rules_shape. cbn [is_object andb find]. apply forallb_forall. intros R HR.
  destruct (obj_find (key R) m) eqn:E; [|done]. cbn.
  eapply shaped_entry; [|exact Hm|exact E]. by apply list_elem_of_In.
Qed.

Lemma section_shape_of o : is_obj section o -> section_shape o = true.
Proof.
  intros (m & -> & Hs & Ht & Hr & Hf). unfold section_shape.
  rewrite (shaped_rules m Hs), Ht. unfold contains. cbn [find].
  by rewrite !bool_decide_true.
Qed.

Lemma shaped_insert k v m : shaped m -> shape_at k v = true -> shaped (obj_insert k v m).
Proof.
  intros [Hs H] Hv. split; [by apply sorted_keys_insert|]. intros k' v'. rewrite obj_find_insert.
  destruct (String.eqb_spec k' k) as [->|]; [by intros [= <-]|apply H].
Qed.

Lemma shape_at_key R v : R ∈ allRules -> shape_at (key R) v = rule_shape R v.
Proof.
  intros HR. pose proof rule_at_key as Hk. rewrite Forall_forall in Hk. unfold shape_at.
  by rewrite (Hk R HR).
Qed.

Lemma shaped_insert_rule R v m :
  R ∈ allRules -> rule_shape R v = true -> shaped m -> shaped (obj_insert (key R) v m).
Proof. intros HR Hv Hm. apply shaped_insert; [done|]. by rewrite shape_at_key. Qed.

Lemma is_Some_insert k k' v m : is_Some (obj_find k m) -> is_Some (obj_find k (obj_insert k' v m)).
Proof. rewrite obj_find_insert. destruct (String.eqb k k'); [eauto|done]. Qed.

(** The keys of the rules are not those of the media line. *)
Lemma media_keys :
  forallb (fun R => bool_decide (key R ∉ names mediaRule)) allRules = true.
Proof. reflexivity. Qed.

Lemma section_insert_rule R v m :
  R ∈ allRules -> rule_shape R v = true -> section m -> section (obj_insert (key R) v m).
Proof.
  intros HR Hv (Hs & Ht & Hr & Hf). split; [by apply shaped_insert_rule|].
  split; [|split; by apply is_Some_insert]. pose proof media_keys as Hk. apply forallb_Forall in Hk.
  rewrite Forall_forall in Hk. specialize (Hk R HR). apply bool_decide_eq_true in Hk.
  unfold typed_fields in *. rewrite fields_typed_iff in *. intros i n t Hn Hti. cbn [find].
  rewrite obj_find_insert. destruct (String.eqb_spec n (key R)) as [->|]; [|by eapply Ht].
  by apply list_elem_of_lookup_2 in Hn.
Qed.

Lemma section_insert_field i n t v m :
  names mediaRule !! i = Some n -> types mediaRule !! i = Some t -> typed t v = true ->
  section m -> section (obj_insert n v m).
Proof.
  intros Hn Ht Hv (Hs & Hm & Hr & Hf). split; [|split; [|split; by apply is_Some_insert]].
  - apply shaped_insert; [done|]. clear -Hn. do 5 (destruct i as [|i]; [by injection Hn as <-|]). done.
  - eapply fields_typed_insert; eauto. pose proof names_distinct as Hd. by apply Forall_cons in Hd as [Hd _].
Qed.

Definition state_ok (st : json * list json) : Prop :=
  is_obj shaped st.1 /\ Forall (is_obj section) st.2.

Lemma at_location_ends {A} (f : M json A) st :
  (forall m, shaped m -> ends_in (is_obj shaped) (f (JObject m))) ->
  (forall m, section m -> ends_in (is_obj section) (f (JObject m))) ->
  state_ok st -> ends_in state_ok (at_location f st).
Proof.
  intros H1 H2 [(m & Hm & Hs) Hmedia]. destruct st as [session media]. cbn [fst snd] in *. subst.
  unfold at_location. destruct (rev media) as [|o before] eqn:E.
  - specialize (H1 m Hs). destruct (f (JObject m)) as [[|[]|] j]; cbn in *; try done.
  - assert (media = rev before ++ [o]) as -> by (by rewrite <- (rev_involutive media), E).
    apply Forall_app in Hmedia as [Hb Ho]. apply Forall_cons in Ho as [(mo & -> & Ho) _].
    specialize (H2 mo Ho). destruct (f (JObject mo)) as [[|[]|] j]; cbn in *; try done.
    split; [by exists m|]. apply Forall_app. split; [done|]. by constructor.
Qed.

Lemma new_section_ends content :
  ends_in (is_obj section) (parseContent "m" content (JObject [("fmtp", JArray []); ("rtp", JArray [])])).
Proof.
  assert (section [("fmtp", JArray []); ("rtp", JArray [])]) as Hnew.
  { split; [|split; [done|split; by eexists]]. split; [done|]. intros k v. cbn [obj_find].
    destruct (String.eqb_spec k "fmtp") as [->|]; [by intros [= <-]|].
    destruct (String.eqb_spec k "rtp") as [->|]; [by intros [= <-]|done]. }
  unfold parseContent. cbn [rulesMap firstRule].
  destruct (regex_search (reg mediaRule) content) as [[[pre suf] c]|] eqn:E; [|by eexists].
  unfold parseReg. rewrite E. rewrite run_bind_get. unfold bind at 1.
  cbn [push name names mediaRule String.eqb negb andb ret].
  apply attachNames_ends; [|done|done]. intros. by eapply section_insert_field.
Qed.

Lemma parseLine_ends line st : state_ok st -> ends_in state_ok (parseLine line st).
Proof.
  intros Hst. unfold parseLine. destruct (regex_search ValidLineRegex (chomp line)); [|done].
  destruct (chomp line) as [|type [|eq content]]; try done.
  destruct (Ascii.eqb_spec type "m"%char) as [->|Hne].
  - destruct st as [session media], Hst as [Hs Hm]. unfold bind, get, put. cbn [when fst snd].
    unfold at_location. rewrite rev_app_distr. cbn [rev app].
    pose proof (new_section_ends content) as H.
    change (jobj [("rtp", JArray []); ("fmtp", JArray [])])
      with (JObject [("fmtp", JArray []); ("rtp", JArray [])]).
    destruct (parseContent "m" content _) as [[|[]|] j]; cbn in *; try done.
    split; [done|]. rewrite rev_involutive. apply Forall_app. split; [done|]. by constructor.
  - unfold bind at 1. cbn [when ret]. apply at_location_ends; [..|done]; intros m Hm.
    + apply parseContent_ends; [done|apply shaped_insert_rule|done|done].
    + apply parseContent_ends; [by intros ? []|apply section_insert_rule|done|done].
Qed.

Lemma parseLines_ends lines st : state_ok st -> ends_in state_ok (parseLines lines st).
Proof.
  revert st. induction lines as [|line lines IH]; intros st Hst; [done|]. cbn [parseLines].
  eapply ends_bind; [by apply parseLine_ends|]. auto.
Qed.

(** C10. Whatever the text, the parser returns: a session whose entries have the shape of
    their rules (arrays of objects for the pushed ones, objects for the named ones, values
    of the declared types in range), with an array of media sections of that kind that have
    the arrays [rtp] and [fmtp]; or a number is out of range. *)
Theorem parse_shape sdp :
  match parse sdp with
  | Ok session => session_shape session = true
  | Throw e => e = StdOutOfRange
  | Undef => False
  end.
Proof.
  assert (ends_in state_ok (parseLines (getlines "010"%char sdp) (JObject [], []))) as H.
  { apply parseLines_ends. split; [|constructor]. by exists []. }
  unfold parse. destruct (parseLines _ _) as [[[]|[]|] [session media]]; try done.
  destruct H as [(m & Hm & Hs) Hmedia]. cbn [fst snd] in *. subst.
  change (session_shape (JObject (obj_insert "media" (JArray media) m)) = true).
  unfold session_shape. rewrite shaped_rules by (by apply shaped_insert). cbn [find andb].
  rewrite obj_find_insert. cbn. apply forallb_forall. intros o Ho%list_elem_of_In.
  rewrite Forall_forall in Hmedia. by apply section_shape_of, Hmedia.
Qed.
