(* ===== verification/SdpCapabilities.v ===== *)
(** * Capabilities of a local description

    libmediasoupclient/src/sdp/Utils.cpp: [extractRtpCapabilities], which reads the
    native capabilities from the parsed local offer, and [applyCodecParameters], which
    writes the options of the remote producer into the local answer. *)

From Stdlib Require Import Ascii.
From S2P Require Import Prelude Json Regex Strings OrtcValidate Ortc MediaSection.
From S2P Require Import SdpGrammar SdpParser.

(** ** Maps from payload types

    [std::map<uint8_t, json>]: the entries in the order of their keys. *)

Fixpoint pt_insert (pt : Z) (v : json) (m : list (Z * json)) : list (Z * json) :=
  match m with
  | [] => [(pt, v)]
  | (pt', v') :: m' =>
      if pt =? pt' then (pt, v) :: m'
      else if pt <? pt' then (pt, v) :: m
      else (pt', v') :: pt_insert pt v m'
  end.

Fixpoint pt_find (pt : Z) (m : list (Z * json)) : option json :=
  match m with
  | [] => None
  | (pt', v) :: m => if pt =? pt' then Some v else pt_find pt m
  end.

(** ** extractRtpCapabilities *)

Fixpoint fold_result {A B} (f : A -> B -> result A) (a : A) (l : list B) : result A :=
  match l with
  | [] => Ok a
  | x :: l => let? a := f a x in fold_result f a l
  end.

(** A codec of an rtpmap line *)
Definition codecOf (kind : string) (rtp : json) : result json :=
  let? codec := cget_string "codec" rtp in
  let? payload := cget "payload" rtp in
  let? rate := cget "rate" rtp in
  let codec :=
    [("kind", JString kind); ("mimeType", JString (kind +:+ "/" +:+ codec));
     ("preferredPayloadType", payload); ("clockRate", rate);
     ("parameters", JObject []); ("rtcpFeedback", JArray [])] in
  if String.eqb kind "audio" then
    let? channels :=
      (match find "encoding" rtp with
       | Some (JString encoding) => stoi encoding
       | _ => Ok 1
       end) in
    Ok (jobj (codec ++ [("channels", JInt channels)]))
  else Ok (jobj codec).

Definition addCodec (kind : string) (codecsMap : list (Z * json)) (rtp : json) :
    result (list (Z * json)) :=
  let? codec := codecOf kind rtp in
  let? payload := cget "preferredPayloadType" codec in
  let? pt := get_uint 8 payload in
  Ok (pt_insert pt codec codecsMap).

(** The parameters of an fmtp line *)
Definition addParameters (codecsMap : list (Z * json)) (fmtp : json) : result (list (Z * json)) :=
  let? config := cget_string "config" fmtp in
  let? parameters := parseParams config in
  let? payload := cget "payload" fmtp in
  let? pt := get_uint 8 payload in
  match pt_find pt codecsMap with
  | None => Ok codecsMap
  | Some codec =>
      let? parameters :=
        (match find "profile-id" parameters with
         | Some (JString profileId) =>
             let? n := stoi profileId in
             Ok (snd (set_key "profile-id" (JInt n) parameters))
         | _ => Ok parameters
         end) in
      Ok (pt_insert pt (snd (set_key "parameters" parameters codec)) codecsMap)
  end.

(** The feedback of an rtcp-fb line; the payload type is converted to 8 bits. *)
Definition addFeedback (codecsMap : list (Z * json)) (fb : json) : result (list (Z * json)) :=
  let? payload := cget_string "payload" fb in
  let? n := stoi payload in
  let pt := uint 8 n in
  match pt_find pt codecsMap with
  | None => Ok codecsMap
  | Some codec =>
      let? type := cget "type" fb in
      let feedback :=
        jobj (("type", type) ::
          match find "subtype" fb with Some subtype => [("parameter", subtype)] | None => [] end) in
      match at_key "rtcpFeedback" (push_back feedback) codec with
      | (Ok _, codec) => Ok (pt_insert pt codec codecsMap)
      | (Throw e, _) => Throw e
      | (Undef, _) => Undef
      end
  end.

Definition headerExtensionOf (kind : string) (ext : json) : result (list json) :=
  let? uri := cget "uri" ext in
  let? value := cget "value" ext in
  Ok [jobj [("kind", JString kind); ("uri", uri); ("preferredId", value)]].

(** The codecs and the header extensions read so far *)
Definition Extracted : Type := list (Z * json) * list json.

Definition extractSection (kind : string) (m : json) (st : Extracted) : result Extracted :=
  let '(codecsMap, headerExtensions) := st in
  let? rtps := cget "rtp" m in
  let? codecsMap := fold_result (addCodec kind) codecsMap (elems rtps) in
  let? fmtps := cget "fmtp" m in
  let? codecsMap := fold_result addParameters codecsMap (elems fmtps) in
  let? fbs := cget "rtcpFb" m in
  let? codecsMap := fold_result addFeedback codecsMap (elems fbs) in
  let? exts := cget "ext" m in
  let? new := collect (headerExtensionOf kind) (elems exts) in
  Ok (codecsMap, headerExtensions ++ new).

(** The loop over the sections: the first one of each kind counts. *)
Fixpoint extractSections (gotAudio gotVideo : bool) (media : list json) (st : Extracted) :
    result Extracted :=
  match media with
  | [] => Ok st
  | m :: media =>
      let? kind := cget_string "type" m in
      if String.eqb kind "audio" then
        if gotAudio then extractSections gotAudio gotVideo media st
        else let? st := extractSection kind m st in extractSections true gotVideo media st
      else if String.eqb kind "video" then
        if gotVideo then extractSections gotAudio gotVideo media st
        else let? st := extractSection kind m st in extractSections gotAudio true media st
      else extractSections gotAudio gotVideo media st
  end.

Definition extractRtpCapabilities (sdpObject : json) : result json :=
  let? media := cget "media" sdpObject in
  let? st := extractSections false false (elems media) ([], []) in
  Ok (jobj [("headerExtensions", JArray st.2); ("codecs", JArray (map snd st.1));
    ("fecMechanisms", JArray [])]).

(** ** applyCodecParameters *)

(** What the loop writes after [key=]; numbers are cut to [int]. *)
Definition int_parameter_text (v : json) : string :=
  match v with
  | JString s => s
  | JFloat f => float_text (to_float f)
  | JInt z => to_string (sint 32 z)
  | JUInt n => to_string (sint 32 n)
  | _ => ""
  end.

Definition samePayload (codec r : json) : result bool :=
  let? payload := cget "payload" r in
  let? payloadType := cget "payloadType" codec in
  Ok (json_eq payload payloadType).

(** Runs [f] on the [i]th value that [begin(), end()] go through. *)
Definition at_nth {A} (i : nat) (f : M json A) : M json A := fun j =>
  match elems j !! i with
  | None => (Undef, j)
  | Some v =>
      let '(r, v') := f v in
      (r, match j with
          | JArray l => JArray (<[i := v']> l)
          | JObject m => JObject (zip (m.*1) (<[i := v']> (m.*2)))
          | _ => v'
          end)
  end.

Definition writeConfig (codec : json) : M json unit :=
  let! config := ref "config" in
  let! config := lift (get_string config) in
  let! parameters := lift (parseParams config) in
  let! codecParameters := lift (cget "parameters" codec) in
  let parameters :=
    match find "sprop-stereo" codecParameters with
    | Some (JBool spropStereo) =>
        snd (set_key "stereo" (JInt (if spropStereo then 1 else 0)) parameters)
    | _ => parameters
    end in
  set_key "config" (JString (config_by int_parameter_text parameters)).

Definition applyCodec (codec : json) : M json unit :=
  let! mimeType := lift (cget_string "mimeType" codec) in
  if negb (String.eqb (tolower mimeType) "audio/opus") then ret tt
  else
    let! rtps := ref "rtp" in
    let! it := lift (find_if (samePayload codec) (elems rtps)) in
    match it with
    | None => ret tt
    | Some _ =>
        let! media := get in
        do! when (negb (contains "fmtp" media)) (set_key "fmtp" (JArray [])) in
        let! fmtps := ref "fmtp" in
        let! it := lift (find_index (samePayload codec) (elems fmtps)) in
        do! (match it with
             | None =>
                 let! payloadType := lift (cget "payloadType" codec) in
                 at_key "fmtp"
                   (push_back (jobj [("payload", payloadType); ("config", JString "")]))
             | Some _ => ret tt
             end) in
        at_key "fmtp" (at_nth (default (length (elems fmtps)) it) (writeConfig codec))
    end.

Fixpoint applyCodecs (codecs : list json) : M json unit :=
  match codecs with
  | [] => ret tt
  | codec :: codecs => do! applyCodec codec in applyCodecs codecs
  end.

Definition applyCodecParameters (offerRtpParameters : json) : M json unit :=
  let! codecs := lift (cget "codecs" offerRtpParameters) in
  applyCodecs (elems codecs).
