(* ===== verification/PeerConnection.v ===== *)
(** * The peer connection

    libmediasoupclient/src/PeerConnection.cpp: the calls into webrtc, made synchronous by
    futures.  webrtc itself is a parameter: [Webrtc] lists the operations that are called,
    over the state [World] of everything webrtc keeps. *)

From Stdlib Require Import SpecFloat.
From S2P Require Import Prelude Json.

(** ** Values that are passed to webrtc *)

Inductive Priority := kVeryLow | kLow | kMedium | kHigh.

(** webrtc/src/api/rtp_parameters.h *)
Record RtpEncodingParameters := {
  ssrc : option Z;
  bitrate_priority : spec_float;
  network_priority : Priority;
  max_bitrate_bps : option Z;
  min_bitrate_bps : option Z;
  max_framerate : option spec_float;
  num_temporal_layers : option Z;
  scale_resolution_down_by : option spec_float;
  scalability_mode : option string;
  active : bool;
  rid : string;
  adaptive_ptime : bool
}.

(** webrtc/src/api/data_channel_interface.h *)
Record DataChannelInit := {
  reliable : bool;
  ordered : bool;
  maxRetransmitTime : option Z;
  maxRetransmits : option Z;
  protocol : string;
  init_negotiated : bool;
  init_id : Z;
  priority : option Priority
}.

Inductive RtpTransceiverDirection := kSendRecv | kSendOnly | kRecvOnly | kInactive | kStopped.

Record RtpTransceiverInit := {
  direction : RtpTransceiverDirection;
  stream_ids : list string;
  send_encodings : list RtpEncodingParameters
}.

Inductive MediaType := MEDIA_TYPE_AUDIO | MEDIA_TYPE_VIDEO.

Inductive SdpType := OFFER | PRANSWER | ANSWER.
Definition sdpType2String (type : SdpType) : string :=
  match type with OFFER => "offer" | PRANSWER => "pranswer" | ANSWER => "answer" end.

Inductive IceConnectionState :=
| kIceConnectionNew | kIceConnectionChecking | kIceConnectionConnected | kIceConnectionCompleted
| kIceConnectionFailed | kIceConnectionDisconnected | kIceConnectionClosed.
Definition iceConnectionState2String (s : IceConnectionState) : string :=
  match s with
  | kIceConnectionNew => "new"
  | kIceConnectionChecking => "checking"
  | kIceConnectionConnected => "connected"
  | kIceConnectionCompleted => "completed"
  | kIceConnectionFailed => "failed"
  | kIceConnectionDisconnected => "disconnected"
  | kIceConnectionClosed => "closed"
  end.

(** ** webrtc *)

(** Peer connections, transceivers, tracks and data channels are handles.  An operation
    that may fail gives the message of its [RTCError]. *)
Class Webrtc := {
  World : Type;
  Pc : Type;
  Transceiver : Type;
  Track : Type;
  Channel : Type;
  Description : Type;

  (* The constructor of PeerConnection: threads, factory, configuration *)
  new_pc : World -> option Pc * World;
  close_pc : Pc -> World -> World;
  set_servers : Pc -> list string -> World -> option string * World;
  create_offer : Pc -> bool -> World -> (string + string) * World;
  create_answer : Pc -> World -> (string + string) * World;
  create_description : string -> string -> string + Description;
  set_local_description : Pc -> Description -> World -> option string * World;
  set_remote_description : Pc -> Description -> World -> option string * World;
  local_description : Pc -> World -> option string;
  get_transceivers : Pc -> World -> list Transceiver;
  add_transceiver_of : Pc -> MediaType -> World -> option Transceiver * World;
  add_transceiver : Pc -> Track -> RtpTransceiverInit -> World -> option Transceiver * World;
  remove_track : Pc -> Transceiver -> World -> bool * World;
  create_data_channel : Pc -> string -> DataChannelInit -> World -> option Channel * World;
  get_stats : Pc -> World -> json;
  get_sender_stats : Pc -> Transceiver -> World -> json;
  get_receiver_stats : Pc -> Transceiver -> World -> json;

  (* RtpTransceiverInterface, with its sender and receiver *)
  mid : Transceiver -> World -> option string;
  set_direction : Transceiver -> RtpTransceiverDirection -> World -> World;
  set_track : Transceiver -> option Track -> World -> bool * World;
  get_parameters : Transceiver -> World -> list RtpEncodingParameters;
  set_parameters : Transceiver -> list RtpEncodingParameters -> World -> option string * World;
  receiver_track : Transceiver -> World -> Track;

  (* MediaStreamTrackInterface *)
  track_eq_dec :: EqDecision Track;
  track_kind : Track -> string;
  track_id : Track -> string;
  track_ended : Track -> World -> bool;
  track_enabled : Track -> World -> bool;
  set_enabled : Track -> bool -> World -> World;

  (* DataChannelInterface *)
  channel_id : Channel -> World -> Z;
  close_channel : Channel -> World -> World
}.

Section PeerConnection.
Context `{Webrtc}.

(** A future that carries the message of a rejected promise as MediaSoupClientError. *)
Definition future_get {A} (f : World -> (string + A) * World) : M World A := fun w =>
  match f w with
  | (inl error, w) => (Throw (MediaSoupClientError error), w)
  | (inr a, w) => (Ok a, w)
  end.
Definition future_done (f : World -> option string * World) : M World unit := fun w =>
  match f w with
  | (Some error, w) => (Throw (MediaSoupClientError error), w)
  | (None, w) => (Ok tt, w)
  end.
(** A call that changes the world. *)
Definition call {A} (f : World -> A * World) : M World A := fun w =>
  let '(a, w) := f w in (Ok a, w).
Definition call_ (f : World -> World) : M World unit := fun w => (Ok tt, f w).

Definition PeerConnection_new : M World Pc :=
  let! pc := call new_pc in
  match pc with
  | Some pc => ret pc
  | None => throw (InvalidStateError "thread start errored")
  end.

Definition CreateOffer (pc : Pc) (ice_restart : bool) : M World string :=
  future_get (create_offer pc ice_restart).
Definition CreateAnswer (pc : Pc) : M World string := future_get (create_answer pc).

Definition SetLocalDescription (pc : Pc) (type : SdpType) (sdp : string) : M World unit :=
  match create_description (sdpType2String type) sdp with
  | inl error => throw (MediaSoupClientError error)
  | inr sessionDescription => future_done (set_local_description pc sessionDescription)
  end.
Definition SetRemoteDescription (pc : Pc) (type : SdpType) (sdp : string) : M World unit :=
  match create_description (sdpType2String type) sdp with
  | inl error => throw (MediaSoupClientError error)
  | inr sessionDescription => future_done (set_remote_description pc sessionDescription)
  end.

(** A missing description is dereferenced. *)
Definition GetLocalDescription (pc : Pc) : M World string := fun w =>
  match local_description pc w with Some sdp => (Ok sdp, w) | None => (Undef, w) end.

Definition SetConfiguration (pc : Pc) (servers : list string) : M World bool :=
  let! error := call (set_servers pc servers) in
  ret (match error with None => true | Some _ => false end).

(** A stream id is added to the ones given. *)
Definition AddTransceiver (pc : Pc) (track : Track) (init : RtpTransceiverInit) :
    M World (option Transceiver) :=
  call (add_transceiver pc track
    {| direction := direction init; stream_ids := stream_ids init ++ ["0"];
       send_encodings := send_encodings init |}).

Definition CreateDataChannel (pc : Pc) (label : string) (config : DataChannelInit) :
    M World Channel :=
  let! channel := call (create_data_channel pc label config) in
  match channel with
  | Some channel => ret channel
  | None => throw (MediaSoupClientError "Failed creating data channel")
  end.
End PeerConnection.
