(* ===== verification/Handler.v ===== *)
(** * The handlers

    libmediasoupclient/src/Handler.cpp: what drives the peer connection of a transport and
    its remote SDP.  The state is the handler and the world of webrtc; the listener of the
    handler, its transport, is a parameter. *)

From stdpp Require Import gmap.
From S2P Require Import Prelude Json OrtcValidate Ortc MediaSection SdpWriter RemoteSdp SdpUtils.
From S2P Require Import SdpParser SdpCapabilities PeerConnection.

(** ** Local values *)

Section Local.
Context {S : Type}.

(** Runs [f] on a local JSON value: its result, and the value afterwards. *)
Definition local {A} (f : M json A) (j : json) : M S (A * json) := fun s =>
  match f j with
  | (Ok a, j') => (Ok (a, j'), s)
  | (Throw e, _) => (Throw e, s)
  | (Undef, _) => (Undef, s)
  end.
Definition local_ (f : M json unit) (j : json) : M S json :=
  let! r := local f j in ret r.2.

(** [try { m } catch (e) { undo; throw; }] where the clause catches the exceptions [p]. *)
Definition undoing {A} (p : exn -> bool) (m : M S A) (undo : M S unit) : M S A := fun s =>
  match m s with
  | (Throw e, s') =>
      if p e then
        match undo s' with
        | (Ok _, s'') => (Throw e, s'')
        | (Throw e', s'') => (Throw e', s'')
        | (Undef, s'') => (Undef, s'')
        end
      else (Throw e, s')
  | o => o
  end.
End Local.

Definition SctpNumStreamsOs : Z := 1024.
Definition SctpNumStreamsMis : Z := 1024.

(** ** Encodings *)

Definition priority_value (p : Priority) : Z :=
  match p with kVeryLow => 0 | kLow => 1 | kMedium => 2 | kHigh => 3 end.

Definition set_opt {A} (k : string) (f : A -> json) (o : option A) : M json unit :=
  match o with Some a => set_key k (f a) | None => ret tt end.

Definition fillJsonRtpEncodingParameters (encoding : RtpEncodingParameters) : M json unit :=
  do! set_key "active" (JBool (active encoding)) in
  do! when (negb (String.eqb (rid encoding) "")) (set_key "rid" (JString (rid encoding))) in
  do! set_opt "maxBitrate" JInt (max_bitrate_bps encoding) in
  do! set_opt "maxFramerate" JFloat (max_framerate encoding) in
  do! set_opt "scaleResolutionDownBy" JFloat (scale_resolution_down_by encoding) in
  do! set_opt "scalabilityMode" JString (scalability_mode encoding) in
  set_key "networkPriority" (JInt (priority_value (network_priority encoding))).

Definition set_rid (r : string) (e : RtpEncodingParameters) : RtpEncodingParameters :=
  {| ssrc := ssrc e; bitrate_priority := bitrate_priority e; network_priority := network_priority e;
     max_bitrate_bps := max_bitrate_bps e; min_bitrate_bps := min_bitrate_bps e;
     max_framerate := max_framerate e; num_temporal_layers := num_temporal_layers e;
     scale_resolution_down_by := scale_resolution_down_by e;
     scalability_mode := scalability_mode e; active := active e; rid := r;
     adaptive_ptime := adaptive_ptime e |}.
Definition set_active (b : bool) (e : RtpEncodingParameters) : RtpEncodingParameters :=
  {| ssrc := ssrc e; bitrate_priority := bitrate_priority e; network_priority := network_priority e;
     max_bitrate_bps := max_bitrate_bps e; min_bitrate_bps := min_bitrate_bps e;
     max_framerate := max_framerate e; num_temporal_layers := num_temporal_layers e;
     scale_resolution_down_by := scale_resolution_down_by e;
     scalability_mode := scalability_mode e; active := b; rid := rid e;
     adaptive_ptime := adaptive_ptime e |}.

(** The rids of several encodings; the index is a [uint8_t]. *)
Definition assignRids (encodings : list RtpEncodingParameters) : list RtpEncodingParameters :=
  if Nat.ltb 1 (length encodings) then
    imap (fun i => set_rid ("r" +:+ to_string (uint 8 (Z.of_nat i)))) encodings
  else encodings.

(** The flags of the first encodings: low, medium and high. *)
Fixpoint setActives (flags : list bool) (encodings : list RtpEncodingParameters) :
    list RtpEncodingParameters :=
  match flags, encodings with
  | b :: flags, e :: encodings => set_active b e :: setActives flags encodings
  | _, _ => encodings
  end.

Definition editEncodings (spatialLayer : Z) (encodings : list RtpEncodingParameters) :
    list RtpEncodingParameters :=
  if spatialLayer =? 1 then setActives [true; false; false] encodings
  else if spatialLayer =? 2 then setActives [true; true; false] encodings
  else if spatialLayer =? 3 then setActives [true; true; true] encodings
  else encodings.

(** The first media object with the property; the lambda of the search may throw. *)
Fixpoint findMedia (p : json -> result bool) (l : list json) (i : nat) :
    result (option (nat * json)) :=
  match l with
  | [] => Ok None
  | m :: l => let? b := p m in if b then Ok (Some (i, m)) else findMedia p l (S i)
  end.

(** [sendingRtpParameters["codecs"][0]["mimeType"]], in lower case *)
Definition firstMimeType : M json string :=
  let! v := at_key "codecs" (at_idx 0 (ref "mimeType")) in
  let! mimeType := lift (get_string v) in
  ret (tolower mimeType).

(** [parameters["codecs"] = reduceCodecs(parameters["codecs"], codec)]: the parameters, and
    the codec, whose missing keys the matching may have added. *)
Definition reduceParameters (parameters : json) (codec : option json) :
    result (json * option json) :=
  let '(r, parameters) := ref "codecs" parameters in
  let? codecs := r in
  let '(r, (_, codec)) := reduceCodecs (codecs, codec) in
  let? reduced := r in
  let '(r, parameters) := set_key "codecs" reduced parameters in
  let? _ := r in
  Ok (parameters, codec).

(** The JSON of an encoding that is used as given; [json jsonEncoding = {}] is null. *)
Definition encodingJson (encoding : RtpEncodingParameters) : json :=
  snd (fillJsonRtpEncodingParameters encoding JNull).

(** The encodings of the sent parameters: those of the offer, the one given completed by the
    offer, or those given. *)
Definition sendingEncodings (encodings : list RtpEncodingParameters) (offerMediaObject : json)
    (hackVp9Svc : bool) : result json :=
  match encodings with
  | [] => getRtpEncodings offerMediaObject
  | [encoding] =>
      let? newEncodings := getRtpEncodings offerMediaObject in
      match newEncodings with
      | JArray (front :: rest) =>
          let '(r, front) := fillJsonRtpEncodingParameters encoding front in
          let? _ := r in
          Ok (JArray (if hackVp9Svc then [front] else front :: rest))
      | _ => Undef
      end
  | _ => Ok (JArray (map encodingJson encodings))
  end.

(** Simulcast of VP8 or H264 is written as S1T3. *)
Definition markScalability : M json unit :=
  let! mimeType := firstMimeType in
  let! encodings := ref "encodings" in
  when (Nat.ltb 1 (size encodings) &&
        (String.eqb mimeType "video/vp8" || String.eqb mimeType "video/h264"))
    (at_key "encodings" (for_each (set_key "scalabilityMode" (JString "S1T3")))).

Definition set_negotiated (streamId : option Z) (d : DataChannelInit) : DataChannelInit :=
  {| reliable := reliable d; ordered := ordered d; maxRetransmitTime := maxRetransmitTime d;
     maxRetransmits := maxRetransmits d; protocol := protocol d; init_negotiated := true;
     init_id := default (init_id d) streamId; priority := priority d |}.

Definition SctpNumStreams : json :=
  jobj [("OS", JUInt SctpNumStreamsOs); ("MIS", JUInt SctpNumStreamsMis)].
Definition GetNativeSctpCapabilities : json := jobj [("numStreams", SctpNumStreams)].

(** ** Handler *)

Section Handler.
Context `{Webrtc}.

(** The sending parameters by kind are those of a SendHandler. *)
Record Handler := {
  pc : Pc;
  remoteSdp : RemoteSdp;
  transportReady : bool;
  mapMidTransceiver : gmap string Transceiver;
  hasDataChannelMediaSection : bool;
  nextSendSctpStreamId : Z;
  forcedLocalDtlsRole : string;
  sendingRtpParametersByKind : json;
  sendingRemoteRtpParametersByKind : json
}.

Record SendResult := {
  send_localId : string;
  rtpSender : Transceiver;
  send_rtpParameters : json
}.
Record RecvResult := {
  recv_localId : string;
  rtpReceiver : Transceiver;
  recv_track : Track
}.
Record DataChannel := {
  dataChannel : Channel;
  sctpStreamParameters : json
}.

Definition HM (A : Type) : Type := M (Handler * World) A.

Definition set_remoteSdp (s : RemoteSdp) (h : Handler) : Handler :=
  {| pc := pc h; remoteSdp := s; transportReady := transportReady h;
     mapMidTransceiver := mapMidTransceiver h;
     hasDataChannelMediaSection := hasDataChannelMediaSection h;
     nextSendSctpStreamId := nextSendSctpStreamId h; forcedLocalDtlsRole := forcedLocalDtlsRole h;
     sendingRtpParametersByKind := sendingRtpParametersByKind h;
     sendingRemoteRtpParametersByKind := sendingRemoteRtpParametersByKind h |}.
Definition set_transportReady (h : Handler) : Handler :=
  {| pc := pc h; remoteSdp := remoteSdp h; transportReady := true;
     mapMidTransceiver := mapMidTransceiver h;
     hasDataChannelMediaSection := hasDataChannelMediaSection h;
     nextSendSctpStreamId := nextSendSctpStreamId h; forcedLocalDtlsRole := forcedLocalDtlsRole h;
     sendingRtpParametersByKind := sendingRtpParametersByKind h;
     sendingRemoteRtpParametersByKind := sendingRemoteRtpParametersByKind h |}.
Definition set_mapMidTransceiver (m : gmap string Transceiver) (h : Handler) : Handler :=
  {| pc := pc h; remoteSdp := remoteSdp h; transportReady := transportReady h;
     mapMidTransceiver := m;
     hasDataChannelMediaSection := hasDataChannelMediaSection h;
     nextSendSctpStreamId := nextSendSctpStreamId h; forcedLocalDtlsRole := forcedLocalDtlsRole h;
     sendingRtpParametersByKind := sendingRtpParametersByKind h;
     sendingRemoteRtpParametersByKind := sendingRemoteRtpParametersByKind h |}.
Definition set_hasDataChannelMediaSection (h : Handler) : Handler :=
  {| pc := pc h; remoteSdp := remoteSdp h; transportReady := transportReady h;
     mapMidTransceiver := mapMidTransceiver h; hasDataChannelMediaSection := true;
     nextSendSctpStreamId := nextSendSctpStreamId h; forcedLocalDtlsRole := forcedLocalDtlsRole h;
     sendingRtpParametersByKind := sendingRtpParametersByKind h;
     sendingRemoteRtpParametersByKind := sendingRemoteRtpParametersByKind h |}.
Definition set_nextSendSctpStreamId (n : Z) (h : Handler) : Handler :=
  {| pc := pc h; remoteSdp := remoteSdp h; transportReady := transportReady h;
     mapMidTransceiver := mapMidTransceiver h;
     hasDataChannelMediaSection := hasDataChannelMediaSection h;
     nextSendSctpStreamId := n; forcedLocalDtlsRole := forcedLocalDtlsRole h;
     sendingRtpParametersByKind := sendingRtpParametersByKind h;
     sendingRemoteRtpParametersByKind := sendingRemoteRtpParametersByKind h |}.
Definition set_sending (p r : json) (h : Handler) : Handler :=
  {| pc := pc h; remoteSdp := remoteSdp h; transportReady := transportReady h;
     mapMidTransceiver := mapMidTransceiver h;
     hasDataChannelMediaSection := hasDataChannelMediaSection h;
     nextSendSctpStreamId := nextSendSctpStreamId h; forcedLocalDtlsRole := forcedLocalDtlsRole h;
     sendingRtpParametersByKind := p; sendingRemoteRtpParametersByKind := r |}.

(** Runs [f] on the handler, on its remote SDP, and on webrtc with the peer connection. *)
Definition update (f : Handler -> Handler) : HM unit := fun st => (Ok tt, (f st.1, st.2)).
Definition on_remoteSdp {A} (f : M RemoteSdp A) : HM A := fun st =>
  let '(r, s) := f (remoteSdp st.1) in (r, (set_remoteSdp s st.1, st.2)).
Definition on_pc {A} (f : Pc -> M World A) : HM A := fun st =>
  let '(r, w) := f (pc st.1) st.2 in (r, (st.1, w)).
Definition on_world {A} (f : M World A) : HM A := on_pc (fun _ => f).

(** [this->sendingRtpParametersByKind[kind]] adds a missing kind. *)
Definition sendingByKind (kind : string) : HM json := fun st =>
  let h := st.1 in
  let '(r, p) := ref kind (sendingRtpParametersByKind h) in
  (r, (set_sending p (sendingRemoteRtpParametersByKind h) h, st.2)).
Definition sendingRemoteByKind (kind : string) : HM json := fun st =>
  let h := st.1 in
  let '(r, p) := ref kind (sendingRemoteRtpParametersByKind h) in
  (r, (set_sending (sendingRtpParametersByKind h) p h, st.2)).

(** [transceiver->mid().value()] *)
Definition midOf (t : Transceiver) : HM string := fun st =>
  match mid t st.2 with Some m => (Ok m, st) | None => (Undef, st) end.

(** The transceiver of a local id. *)
Definition transceiverOf (localId : string) : HM Transceiver := fun st =>
  match mapMidTransceiver st.1 !! localId with
  | Some t => (Ok t, st)
  | None => (Throw (MediaSoupClientError "associated RtpTransceiver not found"), st)
  end.

(** The options of the native peer connection are part of [new_pc]. *)
Definition GetNativeRtpCapabilities : M World json :=
  let! pc := PeerConnection_new in
  let! _ := call (add_transceiver_of pc MEDIA_TYPE_AUDIO) in
  let! _ := call (add_transceiver_of pc MEDIA_TYPE_VIDEO) in
  let! offer := CreateOffer pc false in
  let! sdpObject := lift (parse offer) in
  lift (extractRtpCapabilities sdpObject).

Definition forcedRole (dtlsParameters : json) : result string :=
  match find "role" dtlsParameters with
  | Some v =>
      let? role := get_string v in
      Ok (if negb (String.eqb role "auto")
          then (if String.eqb role "server" then "client" else "server") else "")
  | None => Ok ""
  end.

Definition Handler_new (iceParameters iceCandidates dtlsParameters sctpParameters : json)
    (sending sendingRemote : json) : M World Handler :=
  let! forced := lift (forcedRole dtlsParameters) in
  let! c := PeerConnection_new in
  let! s := lift (RemoteSdp_new iceParameters iceCandidates dtlsParameters sctpParameters) in
  ret {| pc := c; remoteSdp := s; transportReady := false; mapMidTransceiver := ∅;
         hasDataChannelMediaSection := false; nextSendSctpStreamId := 0;
         forcedLocalDtlsRole := forced; sendingRtpParametersByKind := sending;
         sendingRemoteRtpParametersByKind := sendingRemote |}.

Definition Handler_Close : HM unit := on_pc (fun pc => call_ (close_pc pc)).

Definition GetTransportStats : HM json := on_pc (fun pc w => (Ok (get_stats pc w), w)).

Definition UpdateIceServers (iceServerUris : json) : HM unit :=
  let! servers := lift (collect (fun uri => let? s := get_string uri in Ok [s])
                                (elems iceServerUris)) in
  let! ok := on_pc (fun pc => SetConfiguration pc servers) in
  throw_if (negb ok) (MediaSoupClientError "failed to update ICE servers").

(** The listener of the handler: it delivers the local DTLS parameters. *)
Context (OnConnect : json -> M World unit).

(** Gives the local SDP object, read from the peer connection when it was empty. *)
Definition SetupTransport (localDtlsRole : string) (localSdpObject : json) : HM json :=
  let! localSdpObject :=
    if empty localSdpObject
    then let! sdp := on_pc GetLocalDescription in lift (parse sdp)
    else ret localSdpObject in
  let! dtlsParameters := lift (extractDtlsParameters localSdpObject) in
  let! dtlsParameters := local_ (set_key "role" (JString localDtlsRole)) dtlsParameters in
  let remoteDtlsRole := if String.eqb localDtlsRole "client" then "server" else "client" in
  do! on_remoteSdp (UpdateDtlsRole remoteDtlsRole) in
  do! on_world (OnConnect dtlsParameters) in
  do! update set_transportReady in
  ret localSdpObject.

(** The guarded call; [role] is used when no role is forced. *)
Definition ensureTransport (role : string) (localSdpObject : json) : HM unit :=
  let! st := get in
  let forced := forcedLocalDtlsRole st.1 in
  when (negb (transportReady st.1))
    (let! _ := SetupTransport (if negb (String.eqb forced "") then forced else role)
                 localSdpObject in ret tt).

(** The remote SDP is written and handed to the peer connection. *)
Definition applyRemote (type : SdpType) : HM unit :=
  let! sdp := on_remoteSdp GetSdp in
  on_pc (fun pc => SetRemoteDescription pc type sdp).

(** ** SendHandler *)

(** The mode of the first encoding. *)
Definition scalabilityModeOf (encodings : list RtpEncodingParameters) : string :=
  match encodings with e :: _ => default "" (scalability_mode e) | [] => "" end.

(** The body of the [try]: the local id, the parameters with it, and whether the offer was
    rewritten for VP9 SVC. *)
Definition negotiate (transceiver : Transceiver) (encodings : list RtpEncodingParameters)
    (idx : nat) (sendingRtpParameters : json) : HM (string * json * bool) :=
  let! offer := on_pc (fun pc => CreateOffer pc false) in
  let! localSdpObject := lift (parse offer) in
  do! ensureTransport "server" localSdpObject in
  let! spatialLayers :=
    lift (let? v := cget "spatialLayers" (parseScalabilityMode (scalabilityModeOf encodings)) in
          get_int32 v) in
  let! r := local firstMimeType sendingRtpParameters in
  let mimeType := r.1 in
  let sendingRtpParameters := r.2 in
  let hackVp9Svc := Nat.eqb (length encodings) 1 && (1 <? spatialLayers)
                    && String.eqb mimeType "video/vp9" in
  let! offer :=
    if hackVp9Svc then
      let! localSdpObject := lift (parse offer) in
      let! localSdpObject :=
        local_ (at_key "media" (at_idx idx
                  (addLegacySimulcast (Z.to_nat (uint 8 spatialLayers))))) localSdpObject in
      let! r := local write localSdpObject in
      ret r.1
    else ret offer in
  do! on_pc (fun pc => SetLocalDescription pc OFFER offer) in
  let! localId := midOf transceiver in
  let! sendingRtpParameters := local_ (set_key "mid" (JString localId)) sendingRtpParameters in
  ret (localId, sendingRtpParameters, hackVp9Svc).

(** [transceiver] is made inactive and loses its track. *)
Definition abandon (transceiver : Transceiver) : HM unit :=
  do! on_world (call_ (set_direction transceiver kInactive)) in
  let! _ := on_world (call (set_track transceiver None)) in
  ret tt.

(** What follows the [try]: the parameters are completed from the local description, and the
    answer is built and applied. *)
Definition completeSend (transceiver : Transceiver) (encodings : list RtpEncodingParameters)
    (codecOptions : option json) (section : nat * string) (sendingRemoteRtpParameters : json)
    (localId : string) (sendingRtpParameters : json) (hackVp9Svc : bool) : HM SendResult :=
  let! localSdp := on_pc GetLocalDescription in
  let! localSdpObject := lift (parse localSdp) in
  let! r := local (at_key "media" (at_idx section.1 get)) localSdpObject in
  let offerMediaObject := r.1 in
  let! cname := lift (getCname offerMediaObject) in
  let! p := local_ (at_key "rtcp" (set_key "cname" (JString cname))) sendingRtpParameters in
  let! newEncodings := lift (sendingEncodings encodings offerMediaObject hackVp9Svc) in
  let! p := local_ (set_key "encodings" newEncodings) p in
  let! p := local_ markScalability p in
  let! p := fun st =>
    let '(r, (s, (p, _))) :=
      RemoteSdp.Send offerMediaObject section.2 codecOptions
        (remoteSdp st.1, (p, sendingRemoteRtpParameters)) in
    (let? _ := r in Ok p, (set_remoteSdp s st.1, st.2)) in
  do! applyRemote ANSWER in
  do! update (fun h => set_mapMidTransceiver (<[localId := transceiver]> (mapMidTransceiver h)) h) in
  ret {| send_localId := localId; rtpSender := transceiver; send_rtpParameters := p |}.

(** A null [encodings] pointer is an empty list. *)
Definition SendHandler_Send (track : option Track) (encodings : list RtpEncodingParameters)
    (codecOptions codec : option json) : HM SendResult :=
  match track with
  | None => throw (TypeError "missing track")
  | Some track =>
      let encodings := assignRids encodings in
      let! sending := sendingByKind (track_kind track) in
      let! reduced := lift (reduceParameters sending codec) in
      let! sendingRemote := sendingRemoteByKind (track_kind track) in
      let! reducedRemote := lift (reduceParameters sendingRemote reduced.2) in
      let! st := get in
      let! section := lift (GetNextMediaSectionIdx (remoteSdp st.1)) in
      let! transceiver := on_pc (fun pc => AddTransceiver pc track
        {| direction := kSendOnly; stream_ids := []; send_encodings := encodings |}) in
      match transceiver with
      | None => throw (MediaSoupClientError "error creating transceiver")
      | Some transceiver =>
          let! r := undoing (fun _ => true) (negotiate transceiver encodings section.1 reduced.1)
                      (abandon transceiver) in
          completeSend transceiver encodings codecOptions section reducedRemote.1
            r.1.1 r.1.2 r.2
      end
  end.

(** The parameters of a sending data channel, completed by their validation. *)
Definition sendingStream (d : DataChannelInit) (streamId : Z) : result json :=
  let base := jobj [("streamId", JUInt streamId); ("ordered", JBool (ordered d));
                    ("protocol", JString (protocol d))] in
  let '(r, p) :=
    (do! set_opt "maxPacketLifeTime" JInt (maxRetransmitTime d) in
     do! set_opt "maxRetransmits" JInt (maxRetransmits d) in
     validateSctpStreamParameters) base in
  let? _ := r in Ok p.

Definition isApplication (m : json) : result bool :=
  let? v := at_ "type" m in
  let? type := get_string v in
  Ok (String.eqb type "application").

(** The first data channel adds the application section to the session. *)
Definition sendApplicationSection : HM unit :=
  let! offer := on_pc (fun pc => CreateOffer pc false) in
  let! localSdpObject := lift (parse offer) in
  let! st := get in
  let! _ := lift (GetNextMediaSectionIdx (remoteSdp st.1)) in
  let! r := local (ref "media") localSdpObject in
  let! it := lift (findMedia isApplication (elems r.1) 0) in
  match it with
  | None => throw (MediaSoupClientError "Missing 'application' media section in SDP offer")
  | Some (_, offerMediaObject) =>
      do! ensureTransport "server" r.2 in
      do! on_pc (fun pc => SetLocalDescription pc OFFER offer) in
      do! on_remoteSdp (SendSctpAssociation offerMediaObject) in
      do! applyRemote ANSWER in
      update set_hasDataChannelMediaSection
  end.

Definition SendHandler_SendDataChannel (label : string) (dataChannelInit : DataChannelInit) :
    HM DataChannel :=
  let! st := get in
  let streamId := uint 16 (nextSendSctpStreamId st.1) in
  let dataChannelInit := set_negotiated (Some streamId) dataChannelInit in
  let! parameters := lift (sendingStream dataChannelInit streamId) in
  let! channel := on_pc (fun pc => CreateDataChannel pc label dataChannelInit) in
  do! update (fun h => set_nextSendSctpStreamId
                         (uint 32 (nextSendSctpStreamId h + 1) mod SctpNumStreamsMis) h) in
  do! when (negb (hasDataChannelMediaSection st.1)) sendApplicationSection in
  ret {| dataChannel := channel; sctpStreamParameters := parameters |}.

(** A new offer is made local, its description is read, and the answer is applied. *)
Definition renegotiate (ice_restart : bool) : HM unit :=
  let! offer := on_pc (fun pc => CreateOffer pc ice_restart) in
  do! on_pc (fun pc => SetLocalDescription pc OFFER offer) in
  let! localSdp := on_pc GetLocalDescription in
  let! _ := lift (parse localSdp) in
  applyRemote ANSWER.

Definition SendHandler_StopSending (localId : string) : HM unit :=
  let! transceiver := transceiverOf localId in
  let! _ := on_world (call (set_track transceiver None)) in
  let! _ := on_pc (fun pc => call (remove_track pc transceiver)) in
  let! m := midOf transceiver in
  do! on_remoteSdp (CloseMediaSection m) in
  renegotiate false.

Definition SendHandler_ReplaceTrack (localId : string) (track : option Track) : HM unit :=
  let! transceiver := transceiverOf localId in
  let! _ := on_world (call (set_track transceiver track)) in
  ret tt.

Definition SendHandler_SetMaxSpatialLayer (localId : string) (spatialLayer : Z) : HM unit :=
  let! transceiver := transceiverOf localId in
  let! st := get in
  let parameters := editEncodings spatialLayer (get_parameters transceiver st.2) in
  on_world (future_done (set_parameters transceiver parameters)).

Definition SendHandler_GetSenderStats (localId : string) : HM json :=
  let! transceiver := transceiverOf localId in
  on_pc (fun pc w => (Ok (get_sender_stats pc transceiver w), w)).

Definition SendHandler_RestartIce (iceParameters : json) : HM unit :=
  do! on_remoteSdp (UpdateIceParameters iceParameters) in
  let! st := get in
  when (transportReady st.1) (renegotiate true).

(** ** RecvHandler *)

(** The mid of the parameters, or the number of known transceivers. *)
Definition receivedId (rtpParameters : json) (known : nat) : string :=
  match find "mid" rtpParameters with
  | Some (JString m) =>
      if negb (String.eqb m "") then m else to_string (Z.of_nat known)
  | _ => to_string (Z.of_nat known)
  end.

(** The cname of the RTCP parameters, converted to the stream id. *)
Definition receivedCname (rtpParameters : json) : result string :=
  let? rtcp := cget "rtcp" rtpParameters in
  let? cname := cget "cname" rtcp in
  get_string cname.

Definition hasMid (localId : string) (m : json) : result bool :=
  let? v := cget "mid" m in
  let? s := get_string v in
  Ok (String.eqb s localId).

(** The answer with the codec parameters of the offer, as text and as object.  A media section
    that is not found is dereferenced. *)
Definition adaptAnswer (rtpParameters : json) (localId answer : string) :
    result (string * json) :=
  let? localSdpObject := parse answer in
  let '(r, localSdpObject) := ref "media" localSdpObject in
  let? media := r in
  let? it := findMedia (hasMid localId) (elems media) 0 in
  match it with
  | None => Undef
  | Some (i, _) =>
      let '(r, localSdpObject) :=
        at_key "media" (at_nth i (applyCodecParameters rtpParameters)) localSdpObject in
      let? _ := r in
      let '(r, localSdpObject) := write localSdpObject in
      let? text := r in
      Ok (text, localSdpObject)
  end.

Definition findTransceiver (localId : string) : HM Transceiver := fun st =>
  match list_find (fun t => mid t st.2 = Some localId) (get_transceivers (pc st.1) st.2) with
  | Some (_, t) => (Ok t, st)
  | None => (Throw (MediaSoupClientError "new RTCRtpTransceiver not found"), st)
  end.

Definition RecvHandler_Receive (id kind : string) (rtpParameters : json) : HM RecvResult :=
  let! st := get in
  let localId := receivedId rtpParameters (base.size (mapMidTransceiver st.1)) in
  let! cname := lift (receivedCname rtpParameters) in
  do! on_remoteSdp (RemoteSdp.Receive localId kind rtpParameters cname id) in
  do! applyRemote OFFER in
  let! answer := on_pc CreateAnswer in
  let! adapted := lift (adaptAnswer rtpParameters localId answer) in
  do! ensureTransport "client" adapted.2 in
  do! on_pc (fun pc => SetLocalDescription pc ANSWER adapted.1) in
  let! transceiver := findTransceiver localId in
  do! update (fun h => set_mapMidTransceiver (<[localId := transceiver]> (mapMidTransceiver h)) h) in
  let! st := get in
  ret {| recv_localId := localId; rtpReceiver := transceiver;
         recv_track := receiver_track transceiver st.2 |}.

(** The remote SDP is offered, and the answer of the peer connection is made local. *)
Definition offerAndAnswer : HM unit :=
  do! applyRemote OFFER in
  let! answer := on_pc CreateAnswer in
  on_pc (fun pc => SetLocalDescription pc ANSWER answer).

Definition receiveApplicationSection : HM unit :=
  do! on_remoteSdp RecvSctpAssociation in
  do! applyRemote OFFER in
  let! answer := on_pc CreateAnswer in
  let! st := get in
  do! when (negb (transportReady st.1))
        (let! localSdpObject := lift (parse answer) in
         ensureTransport "client" localSdpObject) in
  do! on_pc (fun pc => SetLocalDescription pc ANSWER answer) in
  update set_hasDataChannelMediaSection.

Definition receivingStream (d : DataChannelInit) : result json :=
  let '(r, p) := validateSctpStreamParameters
    (jobj [("streamId", JInt (init_id d)); ("ordered", JBool (ordered d))]) in
  let? _ := r in Ok p.

Definition RecvHandler_ReceiveDataChannel (label : string) (dataChannelInit : DataChannelInit) :
    HM DataChannel :=
  let dataChannelInit := set_negotiated None dataChannelInit in
  let! parameters := lift (receivingStream dataChannelInit) in
  let! channel := on_pc (fun pc => CreateDataChannel pc label dataChannelInit) in
  let! st := get in
  do! when (negb (hasDataChannelMediaSection st.1)) receiveApplicationSection in
  ret {| dataChannel := channel; sctpStreamParameters := parameters |}.

Definition RecvHandler_StopReceiving (localId : string) : HM unit :=
  let! transceiver := transceiverOf localId in
  let! m := midOf transceiver in
  do! on_remoteSdp (CloseMediaSection m) in
  offerAndAnswer.

Definition RecvHandler_GetReceiverStats (localId : string) : HM json :=
  let! transceiver := transceiverOf localId in
  on_pc (fun pc w => (Ok (get_receiver_stats pc transceiver w), w)).

Definition RecvHandler_RestartIce (iceParameters : json) : HM unit :=
  do! on_remoteSdp (UpdateIceParameters iceParameters) in
  let! st := get in
  when (transportReady st.1) offerAndAnswer.
End Handler.
