(* ===== verification/Transport.v ===== *)
(** * Transports

    libmediasoupclient/src/Transport.cpp, Producer.cpp, DataProducer.cpp, Consumer.cpp and
    DataConsumer.cpp.  The producers and consumers that a transport creates are objects that the
    application holds too, so they live in a store and the maps of the transport have pointers
    into it.  The callbacks of the listeners that return nothing are recorded as events; those
    that return a value are parameters. *)

From stdpp Require Import gmap.
From S2P Require Import Prelude Json OrtcValidate Ortc MediaSection RemoteSdp.
From S2P Require Import PeerConnection Handler.

(** ** Objects and the maps to them *)

(** [std::unordered_map<std::string, A*>] with the objects that were created; a pointer is a
    position. *)
Record Registry (A : Type) := { objects : list A; byId : gmap string nat }.
Arguments objects {A}.
Arguments byId {A}.

Section Registry.
Context {A : Type}.
Implicit Types r : Registry A.

Definition no_objects : Registry A := {| objects := []; byId := ∅ |}.
Definition register (id : string) (a : A) r : Registry A :=
  {| objects := objects r ++ [a]; byId := <[id := length (objects r)]> (byId r) |}.
Definition unregister (id : string) r : Registry A :=
  {| objects := objects r; byId := delete id (byId r) |}.
Definition set_object (p : nat) (a : A) r : Registry A :=
  {| objects := <[p := a]> (objects r); byId := byId r |}.
(** The pointers of the map, in the order of its iteration. *)
Definition pointers r : list nat := (map_to_list (byId r)).*2.
End Registry.

Fixpoint for_pointers {S} (f : nat -> M S unit) (l : list nat) : M S unit :=
  match l with [] => ret tt | p :: l => do! f p in for_pointers f l end.

(** ** What the listeners are told *)

Inductive DataState := kConnecting | kOpen | kClosing | kClosed.

Inductive event :=
| ConnectionStateChange (state : string)
| ProducerTransportClose (p : nat)
| DataProducerTransportClose (p : nat)
| ConsumerTransportClose (p : nat)
| DataConsumerTransportClose (p : nat)
| DataProducerOpen (p : nat) | DataProducerClose (p : nat)
| DataConsumerConnecting (p : nat) | DataConsumerOpen (p : nat)
| DataConsumerClosing (p : nat) | DataConsumerClose (p : nat).

#[export] Instance event_eq_dec : EqDecision event.
Proof. solve_decision. Defined.

Definition DataProducer_OnStateChange (p : nat) (state : DataState) : list event :=
  match state with
  | kConnecting | kClosing => []
  | kOpen => [DataProducerOpen p]
  | kClosed => [DataProducerClose p]
  end.
Definition DataConsumer_OnStateChange (p : nat) (state : DataState) : list event :=
  match state with
  | kConnecting => [DataConsumerConnecting p]
  | kOpen => [DataConsumerOpen p]
  | kClosing => [DataConsumerClosing p]
  | kClosed => [DataConsumerClose p]
  end.

(** A null JSON value compares equal to [nullptr]. *)
Definition has_sctp (sctpParameters : json) : bool :=
  negb (is_null sctpParameters) && is_object sctpParameters.

(** The members of an encoding that the application may set. *)
Definition normalizeEncoding (entry : RtpEncodingParameters) : RtpEncodingParameters :=
  {| ssrc := None; bitrate_priority := to_double 1; network_priority := network_priority entry;
     max_bitrate_bps := max_bitrate_bps entry; min_bitrate_bps := None;
     max_framerate := max_framerate entry; num_temporal_layers := None;
     scale_resolution_down_by := scale_resolution_down_by entry;
     scalability_mode := scalability_mode entry; active := active entry; rid := "";
     adaptive_ptime := false |}.

(** The stream that ProduceData asks for: -1 and 0 stand for no limit. *)
Definition dataInit (protocol : string) (ordered : bool) (maxRetransmits maxPacketLifeTime : Z) :
    DataChannelInit :=
  {| reliable := false; ordered := ordered;
     maxRetransmitTime := if negb (maxPacketLifeTime =? 0) then Some maxPacketLifeTime else None;
     maxRetransmits := if negb (maxRetransmits =? -1) then Some maxRetransmits else None;
     protocol := protocol; init_negotiated := false; init_id := -1; priority := None |}.

Section Transport.
Context `{Webrtc}.

(** ** Transport *)

Record Transport := {
  transport_id : string;
  transport_closed : bool;
  connectionState : IceConnectionState;
  handler : Handler;
  extendedRtpCapabilities : json;
  maxSctpMessageSize : Z;
  probatorConsumerCreated : bool;
  hasSctpParameters : bool;
  transport_appData : json;
  events : list event
}.

Definition set_handler (h : Handler) (t : Transport) : Transport :=
  {| transport_id := transport_id t; transport_closed := transport_closed t;
     connectionState := connectionState t; handler := h;
     extendedRtpCapabilities := extendedRtpCapabilities t;
     maxSctpMessageSize := maxSctpMessageSize t;
     probatorConsumerCreated := probatorConsumerCreated t;
     hasSctpParameters := hasSctpParameters t; transport_appData := transport_appData t;
     events := events t |}.
Definition set_transport_closed (t : Transport) : Transport :=
  {| transport_id := transport_id t; transport_closed := true;
     connectionState := connectionState t; handler := handler t;
     extendedRtpCapabilities := extendedRtpCapabilities t;
     maxSctpMessageSize := maxSctpMessageSize t;
     probatorConsumerCreated := probatorConsumerCreated t;
     hasSctpParameters := hasSctpParameters t; transport_appData := transport_appData t;
     events := events t |}.
Definition set_connectionState (s : IceConnectionState) (t : Transport) : Transport :=
  {| transport_id := transport_id t; transport_closed := transport_closed t;
     connectionState := s; handler := handler t;
     extendedRtpCapabilities := extendedRtpCapabilities t;
     maxSctpMessageSize := maxSctpMessageSize t;
     probatorConsumerCreated := probatorConsumerCreated t;
     hasSctpParameters := hasSctpParameters t; transport_appData := transport_appData t;
     events := events t |}.
Definition set_probator (t : Transport) : Transport :=
  {| transport_id := transport_id t; transport_closed := transport_closed t;
     connectionState := connectionState t; handler := handler t;
     extendedRtpCapabilities := extendedRtpCapabilities t;
     maxSctpMessageSize := maxSctpMessageSize t; probatorConsumerCreated := true;
     hasSctpParameters := hasSctpParameters t; transport_appData := transport_appData t;
     events := events t |}.
Definition add_events (l : list event) (t : Transport) : Transport :=
  {| transport_id := transport_id t; transport_closed := transport_closed t;
     connectionState := connectionState t; handler := handler t;
     extendedRtpCapabilities := extendedRtpCapabilities t;
     maxSctpMessageSize := maxSctpMessageSize t;
     probatorConsumerCreated := probatorConsumerCreated t;
     hasSctpParameters := hasSctpParameters t; transport_appData := transport_appData t;
     events := events t ++ l |}.

(** A class that derives from Transport. *)
Class Derived (T : Type) := {
  base : T -> Transport;
  set_base : Transport -> T -> T
}.

Definition TM (T A : Type) : Type := M (T * World) A.

Section Base.
Context {T : Type} `{Derived T}.

Definition update_base (f : Transport -> Transport) : TM T unit := fun st =>
  (Ok tt, (set_base (f (base st.1)) st.1, st.2)).
Definition notify (l : list event) : TM T unit := update_base (add_events l).
Definition on_handler {A} (f : HM A) : TM T A := fun st =>
  let '(r, (h, w)) := f (handler (base st.1), st.2) in
  (r, (set_base (set_handler h (base st.1)) st.1, w)).
Definition in_world {A} (f : M World A) : TM T A := fun st =>
  let '(r, w) := f st.2 in (r, (st.1, w)).
Definition isClosed : TM T bool := fun st => (Ok (transport_closed (base st.1)), st).
Definition ensureOpen (msg : string) : TM T unit :=
  let! closed := isClosed in throw_if closed (InvalidStateError msg).

Definition Transport_Close : TM T unit :=
  let! closed := isClosed in
  when (negb closed) (do! update_base set_transport_closed in on_handler Handler_Close).

Definition Transport_GetStats : TM T json :=
  do! ensureOpen "Transport closed" in on_handler GetTransportStats.
(** [restart] is the RestartIce of the handler's class. *)
Definition Transport_RestartIce (restart : json -> HM unit) (iceParameters : json) : TM T unit :=
  do! ensureOpen "Transport closed" in on_handler (restart iceParameters).
Definition Transport_UpdateIceServers (iceServers : json) : TM T unit :=
  do! ensureOpen "Transport closed" in on_handler (UpdateIceServers iceServers).

Definition Transport_OnConnectionStateChange (s : IceConnectionState) : TM T unit :=
  do! update_base (set_connectionState s) in
  notify [ConnectionStateChange (iceConnectionState2String s)].
End Base.

(** The handler's listener: the transport, which forwards to its own listener. *)
Definition Transport_OnConnect (OnConnect : json -> M World unit) (closed : bool)
    (dtlsParameters : json) : M World unit :=
  if closed then throw (InvalidStateError "Transport closed") else OnConnect dtlsParameters.

Definition Transport_new (id : string) (h : Handler) (extended : json) (maxMessageSize : Z)
    (hasSctp : bool) (appData : json) : Transport :=
  {| transport_id := id; transport_closed := false; connectionState := kIceConnectionNew;
     handler := h; extendedRtpCapabilities := extended; maxSctpMessageSize := maxMessageSize;
     probatorConsumerCreated := false; hasSctpParameters := hasSctp;
     transport_appData := appData; events := [] |}.
End Transport.
