(* ===== verification/SendTransport.v ===== *)
(** * The sending transport

    SendTransport of libmediasoupclient/src/Transport.cpp with its producers, Producer.cpp and
    DataProducer.cpp. *)

From stdpp Require Import gmap.
From S2P Require Import Prelude Json OrtcValidate Ortc MediaSection RemoteSdp.
From S2P Require Import PeerConnection Handler Transport.

Section SendTransport.
Context `{Webrtc}.

Record Producer := {
  producer_id : string;
  producer_localId : string;
  producer_rtpSender : Transceiver;
  producer_track : Track;
  producer_rtpParameters : json;
  producer_appData : json;
  producer_closed : bool;
  maxSpatialLayer : Z
}.
Record DataProducer := {
  dataProducer_id : string;
  dataProducer_channel : Channel;
  dataProducer_sctpStreamParameters : json;
  dataProducer_appData : json;
  dataProducer_closed : bool
}.

Definition close_producer (p : Producer) : Producer :=
  {| producer_id := producer_id p; producer_localId := producer_localId p;
     producer_rtpSender := producer_rtpSender p; producer_track := producer_track p;
     producer_rtpParameters := producer_rtpParameters p; producer_appData := producer_appData p;
     producer_closed := true; maxSpatialLayer := maxSpatialLayer p |}.
Definition set_producer_track (t : Track) (p : Producer) : Producer :=
  {| producer_id := producer_id p; producer_localId := producer_localId p;
     producer_rtpSender := producer_rtpSender p; producer_track := t;
     producer_rtpParameters := producer_rtpParameters p; producer_appData := producer_appData p;
     producer_closed := producer_closed p; maxSpatialLayer := maxSpatialLayer p |}.
Definition set_maxSpatialLayer (n : Z) (p : Producer) : Producer :=
  {| producer_id := producer_id p; producer_localId := producer_localId p;
     producer_rtpSender := producer_rtpSender p; producer_track := producer_track p;
     producer_rtpParameters := producer_rtpParameters p; producer_appData := producer_appData p;
     producer_closed := producer_closed p; maxSpatialLayer := n |}.
Definition close_dataProducer (p : DataProducer) : DataProducer :=
  {| dataProducer_id := dataProducer_id p; dataProducer_channel := dataProducer_channel p;
     dataProducer_sctpStreamParameters := dataProducer_sctpStreamParameters p;
     dataProducer_appData := dataProducer_appData p; dataProducer_closed := true |}.

Record SendTransport := {
  send_base : Transport;
  producers : Registry Producer;
  dataProducers : Registry DataProducer;
  canProduceByKind : gmap string bool
}.
Definition set_send_base (b : Transport) (t : SendTransport) : SendTransport :=
  {| send_base := b; producers := producers t; dataProducers := dataProducers t;
     canProduceByKind := canProduceByKind t |}.
Definition set_producers (r : Registry Producer) (t : SendTransport) : SendTransport :=
  {| send_base := send_base t; producers := r; dataProducers := dataProducers t;
     canProduceByKind := canProduceByKind t |}.
Definition set_dataProducers (r : Registry DataProducer) (t : SendTransport) : SendTransport :=
  {| send_base := send_base t; producers := producers t; dataProducers := r;
     canProduceByKind := canProduceByKind t |}.
#[export] Instance SendTransport_derived : Derived SendTransport :=
  {| base := send_base; set_base := set_send_base |}.

Definition SM (A : Type) : Type := TM SendTransport A.

Definition update_producers (f : Registry Producer -> Registry Producer) : SM unit := fun st =>
  (Ok tt, (set_producers (f (producers st.1)) st.1, st.2)).
Definition update_dataProducers (f : Registry DataProducer -> Registry DataProducer) : SM unit :=
  fun st => (Ok tt, (set_dataProducers (f (dataProducers st.1)) st.1, st.2)).

(** The object of a pointer. *)
Definition producerAt (p : nat) : SM Producer := fun st =>
  match objects (producers st.1) !! p with Some a => (Ok a, st) | None => (Undef, st) end.
Definition dataProducerAt (p : nat) : SM DataProducer := fun st =>
  match objects (dataProducers st.1) !! p with Some a => (Ok a, st) | None => (Undef, st) end.

(** ** The callbacks of the producers *)

Definition SendTransport_OnClose (a : Producer) : SM unit :=
  do! update_producers (unregister (producer_id a)) in
  let! closed := isClosed in
  when (negb closed) (on_handler (SendHandler_StopSending (producer_localId a))).
Definition SendTransport_OnCloseData (a : DataProducer) : SM unit :=
  update_dataProducers (unregister (dataProducer_id a)).
Definition SendTransport_OnReplaceTrack (a : Producer) (track : Track) : SM unit :=
  on_handler (SendHandler_ReplaceTrack (producer_localId a) (Some track)).
Definition SendTransport_OnSetMaxSpatialLayer (a : Producer) (layer : Z) : SM unit :=
  on_handler (SendHandler_SetMaxSpatialLayer (producer_localId a) layer).
Definition SendTransport_OnGetStats (a : Producer) : SM json :=
  do! ensureOpen "SendTransport closed" in
  on_handler (SendHandler_GetSenderStats (producer_localId a)).

(** ** Producer *)

Definition Producer_IsPaused (a : Producer) (w : World) : bool :=
  negb (track_enabled (producer_track a) w).

Definition Producer_Close (p : nat) : SM unit :=
  let! a := producerAt p in
  when (negb (producer_closed a))
    (do! update_producers (set_object p (close_producer a)) in SendTransport_OnClose a).

Definition Producer_GetStats (p : nat) : SM json :=
  let! a := producerAt p in
  do! throw_if (producer_closed a) (InvalidStateError "Producer closed") in
  SendTransport_OnGetStats a.

Definition Producer_setEnabled (b : bool) (p : nat) : SM unit :=
  let! a := producerAt p in
  when (negb (producer_closed a)) (in_world (call_ (set_enabled (producer_track a) b))).
Definition Producer_Pause : nat -> SM unit := Producer_setEnabled false.
Definition Producer_Resume : nat -> SM unit := Producer_setEnabled true.

Definition Producer_ReplaceTrack (p : nat) (track : option Track) : SM unit :=
  let! a := producerAt p in
  do! throw_if (producer_closed a) (InvalidStateError "Producer closed") in
  match track with
  | None => throw (TypeError "missing track")
  | Some track =>
      let! st := get in
      do! throw_if (track_ended track st.2) (InvalidStateError "track ended") in
      if bool_decide (track = producer_track a) then ret tt
      else
        do! SendTransport_OnReplaceTrack a track in
        let! st := get in
        let paused := Producer_IsPaused a st.2 in
        do! update_producers (set_object p (set_producer_track track a)) in
        in_world (call_ (set_enabled track (negb paused)))
  end.

Definition Producer_SetMaxSpatialLayer (p : nat) (spatialLayer : Z) : SM unit :=
  let! a := producerAt p in
  do! throw_if (producer_closed a) (InvalidStateError "Producer closed") in
  do! throw_if (negb (String.eqb (track_kind (producer_track a)) "video"))
        (TypeError "not a video Producer") in
  if spatialLayer =? maxSpatialLayer a then ret tt
  else
    do! SendTransport_OnSetMaxSpatialLayer a spatialLayer in
    update_producers (set_object p (set_maxSpatialLayer spatialLayer a)).

Definition Producer_TransportClosed (p : nat) : SM unit :=
  let! a := producerAt p in
  when (negb (producer_closed a))
    (do! update_producers (set_object p (close_producer a)) in
     notify [ProducerTransportClose p]).

(** ** DataProducer *)

Definition DataProducer_Close (p : nat) : SM unit :=
  let! a := dataProducerAt p in
  when (negb (dataProducer_closed a))
    (do! update_dataProducers (set_object p (close_dataProducer a)) in
     do! in_world (call_ (close_channel (dataProducer_channel a))) in
     SendTransport_OnCloseData a).

Definition DataProducer_TransportClosed (p : nat) : SM unit :=
  let! a := dataProducerAt p in
  when (negb (dataProducer_closed a))
    (do! update_dataProducers (set_object p (close_dataProducer a)) in
     do! in_world (call_ (close_channel (dataProducer_channel a))) in
     notify [DataProducerTransportClose p]).

(** ** SendTransport *)

(** The application: its answers to the transport. *)
Context (OnConnect : json -> M World unit).
Context (OnProduce : string -> json -> json -> M World string).
Context (OnProduceData : json -> string -> string -> json -> M World string).

Definition SendTransport_new (id : string)
    (iceParameters iceCandidates dtlsParameters sctpParameters extended : json)
    (canProduce : gmap string bool) (appData : json) : M World SendTransport :=
  let hasSctp := has_sctp sctpParameters in
  let! maxMessageSize := lift (
    if hasSctp then
      match find "maxMessageSize" sctpParameters with
      | Some v => if is_number_integer v then get_uint 64 v else Ok 0
      | None => Undef
      end
    else Ok 0) in
  let! audio := lift (getSendingRtpParameters "audio" extended) in
  let! video := lift (getSendingRtpParameters "video" extended) in
  let! remoteAudio := lift (getSendingRemoteRtpParameters "audio" extended) in
  let! remoteVideo := lift (getSendingRemoteRtpParameters "video" extended) in
  let! h := Handler_new iceParameters iceCandidates dtlsParameters sctpParameters
              (jobj [("audio", audio); ("video", video)])
              (jobj [("audio", remoteAudio); ("video", remoteVideo)]) in
  ret {| send_base := Transport_new id h extended maxMessageSize hasSctp appData;
         producers := no_objects; dataProducers := no_objects; canProduceByKind := canProduce |}.

(** The application is asked for the id of the producer; when it refuses, sending stops. *)
Definition announceProducer (track : Track) (sendResult : SendResult) (appData : json) :
    SM (string * json) :=
  undoing is_MediaSoupClientError
    (let! parameters := local_ validateRtpParameters (send_rtpParameters sendResult) in
     let! id := in_world (OnProduce (track_kind track) parameters appData) in
     ret (id, parameters))
    (on_handler (SendHandler_StopSending (send_localId sendResult))).

(** The producer that [Produce] creates. *)
Definition newProducer (track : option Track)
    (encodings : option (list RtpEncodingParameters)) (codecOptions codec : option json)
    (appData : json) : SM Producer :=
  do! ensureOpen "SendTransport closed" in
  match track with
  | None => throw (TypeError "missing track")
  | Some track =>
      let! st := get in
      do! throw_if (track_ended track st.2) (InvalidStateError "track ended") in
      do! throw_if (bool_decide (canProduceByKind st.1 !! track_kind track = None))
            (UnsupportedError "cannot produce track kind") in
      let! codecOptions :=
        match codecOptions with
        | Some j => let! j := local_ validateProducerCodecOptions j in ret (Some j)
        | None => ret None
        end in
      let! sendResult :=
        on_handler (SendHandler_Send (Transport_OnConnect OnConnect false) (Some track)
                      (map normalizeEncoding (default [] encodings)) codecOptions codec) in
      let! announced := announceProducer track sendResult appData in
      ret {| producer_id := announced.1; producer_localId := send_localId sendResult;
             producer_rtpSender := rtpSender sendResult; producer_track := track;
             producer_rtpParameters := announced.2; producer_appData := appData;
             producer_closed := false; maxSpatialLayer := 0 |}
  end.

Definition SendTransport_Produce (track : option Track)
    (encodings : option (list RtpEncodingParameters)) (codecOptions codec : option json)
    (appData : json) : SM nat :=
  let! producer := newProducer track encodings codecOptions codec appData in
  let! st := get in
  do! update_producers (register (producer_id producer) producer) in
  ret (length (objects (producers st.1))).

(** The data producer that [ProduceData] creates. *)
Definition newDataProducer (label protocol : string) (ordered : bool)
    (maxRetransmits maxPacketLifeTime : Z) (appData : json) : SM DataProducer :=
  let! st := get in
  do! throw_if (negb (hasSctpParameters (send_base st.1)))
        (MediaSoupClientError "SctpParameters are mandatory when using data producer listener") in
  do! throw_if (negb (maxRetransmits =? -1) && negb (maxPacketLifeTime =? 0))
        (MediaSoupClientError "Cannot set both maxRetransmits and maxPacketLifeTime") in
  let! sendResult :=
    on_handler (SendHandler_SendDataChannel
                  (Transport_OnConnect OnConnect (transport_closed (send_base st.1))) label
                  (dataInit protocol ordered maxRetransmits maxPacketLifeTime)) in
  let! id := in_world (OnProduceData (sctpStreamParameters sendResult) label protocol appData) in
  ret {| dataProducer_id := id; dataProducer_channel := dataChannel sendResult;
         dataProducer_sctpStreamParameters := sctpStreamParameters sendResult;
         dataProducer_appData := appData; dataProducer_closed := false |}.

Definition SendTransport_ProduceData (label protocol : string) (ordered : bool)
    (maxRetransmits maxPacketLifeTime : Z) (appData : json) : SM nat :=
  let! dataProducer :=
    newDataProducer label protocol ordered maxRetransmits maxPacketLifeTime appData in
  let! st := get in
  do! update_dataProducers (register (dataProducer_id dataProducer) dataProducer) in
  ret (length (objects (dataProducers st.1))).

Definition SendTransport_Close : SM unit :=
  let! closed := isClosed in
  when (negb closed)
    (do! Transport_Close in
     let! st := get in
     do! for_pointers Producer_TransportClosed (pointers (producers st.1)) in
     let! st := get in
     for_pointers DataProducer_TransportClosed (pointers (dataProducers st.1))).

Definition SendTransport_RestartIce : json -> SM unit :=
  Transport_RestartIce SendHandler_RestartIce.
End SendTransport.
