(* ===== verification/RecvTransport.v ===== *)
(** * The receiving transport

    RecvTransport of libmediasoupclient/src/Transport.cpp with its consumers, Consumer.cpp and
    DataConsumer.cpp. *)

From stdpp Require Import gmap.
From S2P Require Import Prelude Json OrtcValidate Ortc MediaSection RemoteSdp.
From S2P Require Import PeerConnection Handler Transport.

(** Catchable as [std::runtime_error&]: the errors of the library, and neither those of
    nlohmann::json nor the logic errors of the standard library. *)
Definition is_runtime_error (e : exn) : bool := is_MediaSoupClientError e.

Section RecvTransport.
Context `{Webrtc}.

Record Consumer := {
  consumer_id : string;
  consumer_localId : string;
  consumer_producerId : string;
  consumer_rtpReceiver : Transceiver;
  consumer_track : Track;
  consumer_rtpParameters : json;
  consumer_appData : json;
  consumer_closed : bool
}.
Record DataConsumer := {
  dataConsumer_id : string;
  dataProducerId : string;
  dataConsumer_channel : Channel;
  dataConsumer_sctpParameters : json;
  dataConsumer_appData : json;
  dataConsumer_closed : bool
}.

Definition close_consumer (c : Consumer) : Consumer :=
  {| consumer_id := consumer_id c; consumer_localId := consumer_localId c;
     consumer_producerId := consumer_producerId c; consumer_rtpReceiver := consumer_rtpReceiver c;
     consumer_track := consumer_track c; consumer_rtpParameters := consumer_rtpParameters c;
     consumer_appData := consumer_appData c; consumer_closed := true |}.
Definition close_dataConsumer (c : DataConsumer) : DataConsumer :=
  {| dataConsumer_id := dataConsumer_id c; dataProducerId := dataProducerId c;
     dataConsumer_channel := dataConsumer_channel c;
     dataConsumer_sctpParameters := dataConsumer_sctpParameters c;
     dataConsumer_appData := dataConsumer_appData c; dataConsumer_closed := true |}.

Record RecvTransport := {
  recv_base : Transport;
  consumers : Registry Consumer;
  dataConsumers : Registry DataConsumer
}.
Definition set_recv_base (b : Transport) (t : RecvTransport) : RecvTransport :=
  {| recv_base := b; consumers := consumers t; dataConsumers := dataConsumers t |}.
Definition set_consumers (r : Registry Consumer) (t : RecvTransport) : RecvTransport :=
  {| recv_base := recv_base t; consumers := r; dataConsumers := dataConsumers t |}.
Definition set_dataConsumers (r : Registry DataConsumer) (t : RecvTransport) : RecvTransport :=
  {| recv_base := recv_base t; consumers := consumers t; dataConsumers := r |}.
#[export] Instance RecvTransport_derived : Derived RecvTransport :=
  {| base := recv_base; set_base := set_recv_base |}.

Definition RM (A : Type) : Type := TM RecvTransport A.

Definition update_consumers (f : Registry Consumer -> Registry Consumer) : RM unit := fun st =>
  (Ok tt, (set_consumers (f (consumers st.1)) st.1, st.2)).
Definition update_dataConsumers (f : Registry DataConsumer -> Registry DataConsumer) : RM unit :=
  fun st => (Ok tt, (set_dataConsumers (f (dataConsumers st.1)) st.1, st.2)).

Definition consumerAt (p : nat) : RM Consumer := fun st =>
  match objects (consumers st.1) !! p with Some c => (Ok c, st) | None => (Undef, st) end.
Definition dataConsumerAt (p : nat) : RM DataConsumer := fun st =>
  match objects (dataConsumers st.1) !! p with Some c => (Ok c, st) | None => (Undef, st) end.

(** ** The callbacks of the consumers *)

Definition RecvTransport_OnClose (c : Consumer) : RM unit :=
  do! update_consumers (unregister (consumer_id c)) in
  let! closed := isClosed in
  when (negb closed) (on_handler (RecvHandler_StopReceiving (consumer_localId c))).
Definition RecvTransport_OnCloseData (c : DataConsumer) : RM unit :=
  update_dataConsumers (unregister (dataConsumer_id c)).
Definition RecvTransport_OnGetStats (c : Consumer) : RM json :=
  do! ensureOpen "RecvTransport closed" in
  on_handler (RecvHandler_GetReceiverStats (consumer_localId c)).

(** ** Consumer *)

Definition Consumer_IsPaused (c : Consumer) (w : World) : bool :=
  negb (track_enabled (consumer_track c) w).

Definition Consumer_Close (p : nat) : RM unit :=
  let! c := consumerAt p in
  when (negb (consumer_closed c))
    (do! update_consumers (set_object p (close_consumer c)) in RecvTransport_OnClose c).

Definition Consumer_GetStats (p : nat) : RM json :=
  let! c := consumerAt p in
  do! throw_if (consumer_closed c) (InvalidStateError "Consumer closed") in
  RecvTransport_OnGetStats c.

Definition Consumer_setEnabled (b : bool) (p : nat) : RM unit :=
  let! c := consumerAt p in
  when (negb (consumer_closed c)) (in_world (call_ (set_enabled (consumer_track c) b))).
Definition Consumer_Pause : nat -> RM unit := Consumer_setEnabled false.
Definition Consumer_Resume : nat -> RM unit := Consumer_setEnabled true.

Definition Consumer_TransportClosed (p : nat) : RM unit :=
  let! c := consumerAt p in
  when (negb (consumer_closed c))
    (do! update_consumers (set_object p (close_consumer c)) in
     notify [ConsumerTransportClose p]).

(** ** DataConsumer *)

Definition DataConsumer_Close (p : nat) : RM unit :=
  let! c := dataConsumerAt p in
  when (negb (dataConsumer_closed c))
    (do! update_dataConsumers (set_object p (close_dataConsumer c)) in
     do! in_world (call_ (close_channel (dataConsumer_channel c))) in
     RecvTransport_OnCloseData c).

Definition DataConsumer_TransportClosed (p : nat) : RM unit :=
  let! c := dataConsumerAt p in
  when (negb (dataConsumer_closed c))
    (do! update_dataConsumers (set_object p (close_dataConsumer c)) in
     do! in_world (call_ (close_channel (dataConsumer_channel c))) in
     notify [DataConsumerTransportClose p]).

(** ** RecvTransport *)

Context (OnConnect : json -> M World unit).

Definition RecvTransport_new (id : string)
    (iceParameters iceCandidates dtlsParameters sctpParameters extended appData : json) :
    M World RecvTransport :=
  let! h := Handler_new iceParameters iceCandidates dtlsParameters sctpParameters JNull JNull in
  ret {| recv_base := Transport_new id h extended 0 (has_sctp sctpParameters) appData;
         consumers := no_objects; dataConsumers := no_objects |}.

(** [this->recvHandler->Receive] for an open transport. *)
Definition receive (id kind : string) (rtpParameters : json) : RM RecvResult :=
  on_handler (RecvHandler_Receive (Transport_OnConnect OnConnect false) id kind rtpParameters).

(** The consumer for RTP probation; a runtime error is only logged. *)
Definition createProbator (rtpParameters : json) : RM unit := fun st =>
  match (let! probator := lift (generateProbatorRtpParameters rtpParameters) in
         let! _ := receive "probator" "video" probator in
         update_base set_probator) st with
  | (Throw e, st') => (if is_runtime_error e then Ok tt else Throw e, st')
  | o => o
  end.

(** The consumer that [Consume] creates. *)
Definition newConsumer (id producerId kind : string) (rtpParameters : option json)
    (appData : json) : RM Consumer :=
  do! ensureOpen "RecvTransport closed" in
  do! throw_if (String.eqb id "") (TypeError "missing id") in
  do! throw_if (String.eqb producerId "") (TypeError "missing producerId") in
  do! throw_if (negb (String.eqb kind "audio") && negb (String.eqb kind "video"))
        (TypeError "invalid kind") in
  match rtpParameters with
  | None => throw (TypeError "missing rtpParameters")
  | Some rtpParameters =>
      do! throw_if (negb (is_object appData)) (TypeError "appData must be a JSON object") in
      let! st := get in
      let! r := local (canReceive (extendedRtpCapabilities (recv_base st.1))) rtpParameters in
      let rtpParameters := r.2 in
      do! throw_if (negb r.1) (UnsupportedError "cannot consume this Producer") in
      let! recvResult := receive id kind rtpParameters in
      ret {| consumer_id := id; consumer_localId := recv_localId recvResult;
             consumer_producerId := producerId; consumer_rtpReceiver := rtpReceiver recvResult;
             consumer_track := recv_track recvResult; consumer_rtpParameters := rtpParameters;
             consumer_appData := appData; consumer_closed := false |}
  end.

(** The first video consumer is followed by the one for RTP probation. *)
Definition RecvTransport_Consume (id producerId kind : string) (rtpParameters : option json)
    (appData : json) : RM nat :=
  let! consumer := newConsumer id producerId kind rtpParameters appData in
  let! st := get in
  do! update_consumers (register (consumer_id consumer) consumer) in
  do! when (negb (probatorConsumerCreated (recv_base st.1)) && String.eqb kind "video")
        (createProbator (consumer_rtpParameters consumer)) in
  ret (length (objects (consumers st.1))).

(** The data consumer that [ConsumeData] creates; [streamId] is a [uint16_t]. *)
Definition newDataConsumer (id producerId : string) (streamId : Z) (label protocol : string)
    (appData : json) : RM DataConsumer :=
  let dataChannelInit :=
    {| reliable := false; ordered := true; maxRetransmitTime := None; maxRetransmits := None;
       protocol := protocol; init_negotiated := false; init_id := streamId; priority := None |} in
  do! ensureOpen "RecvTransport closed" in
  do! throw_if (String.eqb id "") (TypeError "missing id") in
  do! throw_if (String.eqb producerId "") (TypeError "missing producerId") in
  let! st := get in
  do! throw_if (negb (hasSctpParameters (recv_base st.1)))
        (TypeError "Cannot use DataChannels with this transport. SctpParameters are not set.") in
  let! recvResult :=
    on_handler (RecvHandler_ReceiveDataChannel (Transport_OnConnect OnConnect false) label
                  dataChannelInit) in
  ret {| dataConsumer_id := id; dataProducerId := producerId;
         dataConsumer_channel := dataChannel recvResult;
         dataConsumer_sctpParameters := sctpStreamParameters recvResult;
         dataConsumer_appData := appData; dataConsumer_closed := false |}.

Definition RecvTransport_ConsumeData (id producerId : string) (streamId : Z)
    (label protocol : string) (appData : json) : RM nat :=
  let! dataConsumer := newDataConsumer id producerId streamId label protocol appData in
  let! st := get in
  do! update_dataConsumers (register (dataConsumer_id dataConsumer) dataConsumer) in
  ret (length (objects (dataConsumers st.1))).

Definition RecvTransport_Close : RM unit :=
  let! closed := isClosed in
  when (negb closed)
    (do! Transport_Close in
     let! st := get in
     do! for_pointers Consumer_TransportClosed (pointers (consumers st.1)) in
     let! st := get in
     for_pointers DataConsumer_TransportClosed (pointers (dataConsumers st.1))).

Definition RecvTransport_RestartIce : json -> RM unit :=
  Transport_RestartIce RecvHandler_RestartIce.
End RecvTransport.
