(* ===== verification/Device.v ===== *)
(** * The device

    libmediasoupclient/src/Device.cpp: the entry point, which negotiates the capabilities once
    and creates the transports with them. *)

From stdpp Require Import gmap.
From S2P Require Import Prelude Json OrtcValidate Ortc MediaSection RemoteSdp.
From S2P Require Import PeerConnection Handler Transport SendTransport RecvTransport.

Record Device := {
  loaded : bool;
  device_extended : json;
  canProduce : gmap string bool;
  recvRtpCapabilities : json;
  sctpCapabilities : json
}.

Definition Device_new : Device :=
  {| loaded := false; device_extended := JNull;
     canProduce := <["audio" := false]> {["video" := false]};
     recvRtpCapabilities := JNull; sctpCapabilities := JNull |}.

Definition set_extended (v : json) (d : Device) : Device :=
  {| loaded := loaded d; device_extended := v; canProduce := canProduce d;
     recvRtpCapabilities := recvRtpCapabilities d; sctpCapabilities := sctpCapabilities d |}.
Definition set_canProduce (kind : string) (b : bool) (d : Device) : Device :=
  {| loaded := loaded d; device_extended := device_extended d;
     canProduce := <[kind := b]> (canProduce d);
     recvRtpCapabilities := recvRtpCapabilities d; sctpCapabilities := sctpCapabilities d |}.
Definition set_recvRtpCapabilities (v : json) (d : Device) : Device :=
  {| loaded := loaded d; device_extended := device_extended d; canProduce := canProduce d;
     recvRtpCapabilities := v; sctpCapabilities := sctpCapabilities d |}.
Definition set_sctpCapabilities (v : json) (d : Device) : Device :=
  {| loaded := loaded d; device_extended := device_extended d; canProduce := canProduce d;
     recvRtpCapabilities := recvRtpCapabilities d; sctpCapabilities := v |}.
Definition set_loaded (d : Device) : Device :=
  {| loaded := true; device_extended := device_extended d; canProduce := canProduce d;
     recvRtpCapabilities := recvRtpCapabilities d; sctpCapabilities := sctpCapabilities d |}.

Section Device.
Context `{Webrtc}.

Definition DM (A : Type) : Type := M (Device * World) A.

Definition modify_device (f : Device -> Device) : DM unit := fun st => (Ok tt, (f st.1, st.2)).
Definition ensureLoaded : DM unit :=
  let! st := get in throw_if (negb (loaded st.1)) (InvalidStateError "not loaded").

Definition IsLoaded : DM bool := let! st := get in ret (loaded st.1).
Definition GetRtpCapabilities : DM json :=
  do! ensureLoaded in let! st := get in ret (recvRtpCapabilities st.1).
Definition GetSctpCapabilities : DM json :=
  do! ensureLoaded in let! st := get in ret (sctpCapabilities st.1).

Definition Device_Load (routerRtpCapabilities : json) : DM unit :=
  let! st := get in
  do! throw_if (loaded st.1) (InvalidStateError "already loaded") in
  let! router := local_ validateRtpCapabilities routerRtpCapabilities in
  let! native := on_snd GetNativeRtpCapabilities in
  let! native := local_ validateRtpCapabilities native in
  let! extended := lift (fst (getExtendedRtpCapabilities (native, router))) in
  do! modify_device (set_extended extended) in
  let! audio := lift (canSend "audio" extended) in
  do! modify_device (set_canProduce "audio" audio) in
  let! video := lift (canSend "video" extended) in
  do! modify_device (set_canProduce "video" video) in
  let! recv := lift (getRecvRtpCapabilities extended) in
  do! modify_device (set_recvRtpCapabilities recv) in
  do! (fun st => let '(r, recv) := validateRtpCapabilities (recvRtpCapabilities st.1) in
                 (r, (set_recvRtpCapabilities recv st.1, st.2))) in
  do! modify_device (set_sctpCapabilities GetNativeSctpCapabilities) in
  do! (fun st => let '(r, sctp) := validateSctpCapabilities (sctpCapabilities st.1) in
                 (r, (set_sctpCapabilities sctp st.1, st.2))) in
  modify_device set_loaded.

(** [this->canProduceByKind[kind]] *)
Definition CanProduce (kind : string) : DM bool :=
  do! ensureLoaded in
  do! throw_if (negb (String.eqb kind "audio") && negb (String.eqb kind "video"))
        (TypeError "invalid kind") in
  let! st := get in
  let b := default false (canProduce st.1 !! kind) in
  do! modify_device (set_canProduce kind b) in
  ret b.

(** The arguments of a transport, with the defaults that their validation adds. *)
Record TransportArguments := {
  arg_ice : json; arg_candidates : json; arg_dtls : json; arg_sctp : json
}.
Definition validateArguments (iceParameters iceCandidates dtlsParameters sctpParameters : json) :
    DM TransportArguments :=
  let! ice := local_ validateIceParameters iceParameters in
  let! candidates := local_ validateIceCandidates iceCandidates in
  let! dtls := local_ validateDtlsParameters dtlsParameters in
  let! sctp := if negb (is_null sctpParameters)
               then local_ validateSctpParameters sctpParameters else ret sctpParameters in
  ret {| arg_ice := ice; arg_candidates := candidates; arg_dtls := dtls; arg_sctp := sctp |}.

(** The overloads without SCTP parameters pass a null value. *)
Definition CreateSendTransport (id : string)
    (iceParameters iceCandidates dtlsParameters sctpParameters appData : json) :
    DM SendTransport :=
  do! ensureLoaded in
  do! throw_if (negb (is_object appData)) (TypeError "appData must be a JSON object") in
  let! a := validateArguments iceParameters iceCandidates dtlsParameters sctpParameters in
  let! st := get in
  on_snd (SendTransport_new id (arg_ice a) (arg_candidates a) (arg_dtls a) (arg_sctp a)
            (device_extended st.1) (canProduce st.1) appData).

Definition CreateRecvTransport (id : string)
    (iceParameters iceCandidates dtlsParameters sctpParameters appData : json) :
    DM RecvTransport :=
  do! ensureLoaded in
  do! throw_if (negb (is_object appData)) (TypeError "appData must be a JSON object") in
  let! a := validateArguments iceParameters iceCandidates dtlsParameters sctpParameters in
  let! st := get in
  on_snd (RecvTransport_new id (arg_ice a) (arg_candidates a) (arg_dtls a) (arg_sctp a)
            (device_extended st.1) appData).
End Device.
