(* ===== verification/SdpParams.v ===== *)
(** * Codec parameters: writing and reading

    The configuration of an fmtp line is read back as the parameters it was written
    from. *)

From Stdlib Require Import Ascii.
From S2P Require Import Prelude Json Regex Strings OrtcValidate Ortc MediaSection MediaSectionSpec.
From S2P Require Import SdpGrammar SdpParser SdpLines SdpCapabilities.

(** ** The text of an entry *)

Definition key_char (a : ascii) : bool := negb (is_space a) && negb (one_of "=;" a).
Definition value_char (a : ascii) : bool := negb (is_space a) && negb (Ascii.eqb a ";").

Definition is_token (p : ascii -> bool) (s : string) : bool :=
  negb (String.eqb s "") && all_chars p s.

Lemma key_value_match k t :
  is_token key_char k = true -> is_token value_char t = true ->
  regex_match KeyValueRegex (k +:+ "=" +:+ t) = Some [(2%nat, t); (1%nat, k)].
Proof.
  unfold is_token. intros [Hk Hkc]%andb_true_iff [Ht Htc]%andb_true_iff.
  apply negb_true_iff, String.eqb_neq in Hk, Ht. unfold regex_match, KeyValueRegex.
  apply rm_cons, rm_bol; [done|]. apply rm_cons, rm_star_none.
  { destruct k as [|a k]; [done|]. cbn in *. unfold key_char in Hkc. by destruct (is_space a). }
  apply rm_cons, rm_field_plus; [done| |done|].
  { eapply all_chars_impl; [|exact Hkc]. unfold key_char, none_of. intros a.
    rewrite andb_true_iff, !negb_true_iff. unfold one_of. simpl. intros [Hs Ho].
    apply orb_false_iff in Ho as [-> _]. unfold is_space in Hs. 
    destruct (Ascii.eqb_spec a " "); [by subst|done]. }
  apply rm_cons, rm_opt_some. apply rm_cons, rm_star_none; [done|].
  apply rm_cons, rm_lit. apply rm_cons, rm_star_none.
  { destruct t as [|a t]; [done|]. cbn in *. unfold value_char in Htc. by destruct (is_space a). }
  apply rm_cons, rm_field_plus_end; [done| |].
  { eapply all_chars_impl; [|exact Htc]. unfold value_char. intros a.
    rewrite andb_true_iff, !negb_true_iff. unfold one_of. simpl. intros [Hs _].
    destruct (Ascii.eqb_spec a " "); [by subst|done]. }
  apply rm_nil. unfold shorter. cbn [String.length String.append].
  rewrite (proj2 (Nat.ltb_lt _ _)) by lia.
  apply rm_cons, rm_eol. by apply rm_nil.
Qed.

(** ** Lists of entries *)

Lemma getlines_concat d ws :
  Forall (fun w => free_of d w = true /\ w <> "") ws ->
  getlines d (String.concat (String d "") ws) = ws.
Proof.
  intros H. unfold getlines.
  enough (forall t, t = "" -> split_go d t (String.concat (String d "") ws) = ws) by eauto.
  induction H as [|w ws [Hw Hne] _ IH]; intros t ->; [done|]. destruct ws as [|w' ws].
  - cbn [String.concat]. rewrite <- (str_app_nil_r w) at 1. rewrite split_go_word by done. cbn.
    by destruct w.
  - change (String.concat (String d "") (w :: w' :: ws))
      with (w +:+ String d (String.concat (String d "") (w' :: ws))).
    rewrite split_go_word by done. cbn [split_go String.append]. rewrite Ascii.eqb_refl.
    f_equal. by apply IH.
Qed.

Definition no_space (a : ascii) : bool := negb (is_space a).

Lemma drop_spaces_none s : all_chars no_space s = true -> drop_spaces s = s.
Proof.
  destruct s as [|a s]; [done|]. cbn. intros [Ha _]%andb_true_iff. unfold no_space in Ha.
  by destruct (is_space a).
Qed.
Lemma trim_none s : all_chars no_space s = true -> trim s = s.
Proof.
  intros H. unfold trim. rewrite (drop_spaces_none s H).
  rewrite drop_spaces_none by (by rewrite all_chars_rev). apply str_rev_rev.
Qed.

(** ** Entries that read back *)

Lemma to_string_token z : is_token value_char (to_string z) = true.
Proof.
  assert (forall z, 0 <= z -> all_chars value_char (to_string z) = true) as Hpos.
  { intros y Hy. destruct (to_string_digits y Hy) as [Hd _]. eapply all_chars_impl; [|exact Hd].
    intros a Ha. unfold is_digit, code_in in Ha. apply andb_true_iff in Ha as [H1%N.leb_le H2%N.leb_le].
    unfold value_char, is_space, code_in. destruct (Ascii.eqb_spec a ";") as [->|_]; [done|].
    destruct (N.leb_spec 9 (N_of_ascii a)), (N.leb_spec (N_of_ascii a) 13),
      (N.leb_spec 32 (N_of_ascii a)), (N.leb_spec (N_of_ascii a) 32); try done; lia. }
  unfold is_token. rewrite (proj2 (String.eqb_neq _ _) (to_string_nonempty z)). cbn [negb andb].
  destruct (Z.le_gt_cases 0 z) as [?|?]; [by apply Hpos|].
  rewrite <- (Z.opp_involutive z), to_string_opp by lia. cbn. apply Hpos. lia.
Qed.

(** A parameter that is written as a text of the same type. *)
Definition param_ok (lo hi : Z) (kv : string * json) : bool :=
  is_token key_char kv.1 &&
  match kv.2 with
  | JString s => is_token value_char s && Ascii.eqb (paramType kv.1 s) "s"
  | JInt z => (lo <=? z) && (z <? hi) && negb (bool_decide (WellKnownParameters kv.1 = Some "s"%char))
  | _ => false
  end.

Definition reads_back (text : json -> string) (kv : string * json) : Prop :=
  is_token key_char kv.1 = true /\ is_token value_char (text kv.2) = true /\
  toType (text kv.2) (paramType kv.1 (text kv.2)) = Ok kv.2.

Lemma paramType_int k z :
  - 2 ^ 63 <= z < 2 ^ 63 -> WellKnownParameters k <> Some "s"%char -> paramType k (to_string z) = "d"%char.
Proof.
  intros Hz Hk. unfold paramType. destruct (WellKnownParameters k) as [t|] eqn:E.
  - unfold WellKnownParameters in E. repeat case_match; congruence.
  - unfold isInt. rewrite extract_signed_any by done. by rewrite bool_decide_true by eauto.
Qed.

Lemma param_ok_reads lo hi text kv :
  - 2 ^ 63 <= lo -> hi <= 2 ^ 63 -> (forall s, text (JString s) = s) ->
  (forall z, lo <= z < hi -> text (JInt z) = to_string z) ->
  param_ok lo hi kv = true -> reads_back text kv.
Proof.
  intros Hlo Hhi Hs Hz [Hk Hv]%andb_true_iff. destruct kv as [k [| |z| | |s| |]]; cbn [fst snd] in *; try done.
  - apply andb_true_iff in Hv as [[H1%Z.leb_le H2%Z.ltb_lt]%andb_true_iff Hw%negb_true_iff].
    apply bool_decide_eq_false in Hw. unfold reads_back. cbn [fst snd]. rewrite Hz by done.
    rewrite to_string_token, paramType_int by (done || lia). cbn [toType].
    by rewrite extract_signed_any by lia.
  - apply andb_true_iff in Hv as [Ht Hp%Ascii.eqb_eq]. unfold reads_back. cbn [fst snd].
    by rewrite Hs, Ht, Hp.
Qed.

(** ** The round trip *)

Lemma insertParam_read text k v m :
  reads_back text (k, v) ->
  insertParam (config_entry text (k, v)) (JObject m) = (Ok tt, JObject (obj_insert k v m)).
Proof.
  intros (Hk & Hv & Ht). cbn [fst snd] in *. unfold config_entry, insertParam. cbn [fst snd].
  rewrite (key_value_match k (text v) Hk Hv).
  change (sub 2 [(2%nat, text v); (1%nat, k)]) with (text v).
  change (sub 1 [(2%nat, text v); (1%nat, k)]) with k.
  unfold bind, lift. by rewrite Ht.
Qed.

(** An entry has no blanks and is not empty. *)
Lemma entry_text text kv :
  reads_back text kv ->
  trim (config_entry text kv) = config_entry text kv /\
  String.eqb (config_entry text kv) "" = false /\ free_of ";" (config_entry text kv) = true.
Proof.
  intros (Hk & Hv & _). unfold is_token in Hk, Hv. destruct kv as [k v]. unfold config_entry.
  cbn [fst snd] in *. apply andb_true_iff in Hk as [_ Hk], Hv as [_ Hv]. split; [|split].
  - apply trim_none. rewrite !all_chars_app. rewrite (all_chars_impl key_char no_space k);
      [rewrite (all_chars_impl value_char no_space (text v)); [done| |done]| |done];
      intros a [Ha _]%andb_true_iff; exact Ha.
  - by destruct k.
  - unfold free_of. rewrite !all_chars_app.
    rewrite (all_chars_impl key_char _ k), (all_chars_impl value_char _ (text v)); try done.
    + by intros a [_ Ha]%andb_true_iff.
    + intros a [_ Ha%negb_true_iff]%andb_true_iff. unfold one_of in Ha. simpl in Ha.
      apply orb_false_iff in Ha as [_ Ha]. apply orb_false_iff in Ha as [-> _]. done.
Qed.

Lemma insertParams_read text l m :
  Forall (reads_back text) l ->
  insertParams (map (config_entry text) l) (JObject m) =
  (Ok tt, JObject (foldl (fun m kv => obj_insert kv.1 kv.2 m) m l)).
Proof.
  intros H. revert m. induction H as [|[k v] l Hkv _ IH]; intros m; [done|].
  cbn [map insertParams foldl fst snd].
  destruct (entry_text text (k, v) Hkv) as (Ht & Hne & _). rewrite Ht, Hne.
  rewrite (bind_of_ok _ _ _ _ _ (insertParam_read text k v m Hkv)). apply IH.
Qed.

Lemma insert_last m k v :
  sorted_keys (m ++ [(k, v)]) = true -> sorted_keys m = true /\ obj_insert k v m = m ++ [(k, v)].
Proof.
  induction m as [|[k1 v1] m IH]; [done|]. cbn [app].
  intros [Hs Hall]%sorted_keys_cons. destruct (IH Hs) as [Hm Hi].
  apply Forall_app in Hall as [Hall Hk]. apply Forall_cons in Hk as [Hk _]. cbn in Hk. split.
  - apply sorted_keys_cons. done.
  - cbn [obj_insert]. destruct (str_compare_spec k k1) as [->|Hlt|_].
    + by destruct (str_lt_irrefl k1).
    + destruct (str_lt_irrefl k). by eapply str_lt_trans.
    + by rewrite Hi.
Qed.
Lemma insert_all m : sorted_keys m = true -> foldl (fun m kv => obj_insert kv.1 kv.2 m) [] m = m.
Proof.
  induction m as [|[k v] m IH] using rev_ind; [done|]. intros [Hs Hi]%insert_last.
  rewrite foldl_app. cbn [foldl fst snd]. by rewrite IH.
Qed.

Lemma parseParams_config text m :
  sorted_keys m = true -> Forall (reads_back text) m ->
  parseParams (config_by text (JObject m)) = Ok (JObject m).
Proof.
  intros Hs Hm. unfold parseParams. rewrite config_by_concat. cbn [items].
  rewrite (getlines_concat ";"%char).
  - rewrite insertParams_read by done. by rewrite insert_all.
  - apply Forall_map. eapply Forall_impl; [exact Hm|]. intros kv Hkv.
    destruct (entry_text text kv Hkv) as (_ & Hne%String.eqb_neq & Hf). done.
Qed.

(** The parameters of a codec that are texts without blanks or semicolons, or
    integers, are read by [parseParams] from the configuration the media sections write. *)
Theorem parseParams_config_text m :
  sorted_keys m = true -> forallb (param_ok (- 2 ^ 63) (2 ^ 63)) m = true ->
  parseParams (config_text (JObject m)) = Ok (JObject m).
Proof.
  intros Hs Hm%forallb_Forall. apply parseParams_config; [done|].
  eapply Forall_impl; [exact Hm|]. intros kv. by apply param_ok_reads.
Qed.

Lemma parseParams_config_text_witness :
  parseParams "apt=100;packetization-mode=1;profile-level-id=42e01f;x-google-start-bitrate=1000" =
  Ok (jobj [("apt", JInt 100); ("packetization-mode", JInt 1); ("profile-level-id", JString "42e01f");
    ("x-google-start-bitrate", JInt 1000)]).
Proof.
  apply (parseParams_config_text [("apt", JInt 100); ("packetization-mode", JInt 1);
    ("profile-level-id", JString "42e01f"); ("x-google-start-bitrate", JInt 1000)]);
    vm_compute; reflexivity.
Defined.
