(* ===== verification/SdpCapabilitiesSpec.v ===== *)
(** * Capabilities of a local description: specification *)

From Stdlib Require Import Ascii Sorted.
From S2P Require Import Prelude Json Regex Strings Validator OrtcValidate OrtcContracts OrtcValidated Ortc OrtcMatch.
From S2P Require Import MediaSection MediaSectionSpec.
From S2P Require Import SdpGrammar SdpParser SdpWriter SdpLines SdpDocument SdpCapabilities SdpParams.

(** ** applyCodecParameters *)

(** The parameters of the local answer after those of the remote producer are applied. *)
Definition withStereo (codecParameters : json) (p : list (string * json)) : list (string * json) :=
  match find "sprop-stereo" codecParameters with
  | Some (JBool spropStereo) => obj_insert "stereo" (JInt (if spropStereo then 1 else 0)) p
  | _ => p
  end.

Definition int_param : string * json -> bool := param_ok (- 2 ^ 31) (2 ^ 31).

Lemma int_params_read p :
  sorted_keys p = true -> forallb int_param p = true ->
  parseParams (config_by int_parameter_text (JObject p)) = Ok (JObject p).
Proof.
  intros Hs Hp%forallb_Forall. apply parseParams_config; [done|].
  eapply Forall_impl; [exact Hp|]. intros kv. apply param_ok_reads; [lia|lia|done|].
  intros z Hz. cbn. by rewrite sint_small.
Qed.

Lemma forallb_obj_insert f k v m :
  f (k, v) = true -> forallb f m = true -> forallb f (obj_insert k v m) = true.
Proof.
  intros Hv. induction m as [|[k1 v1] m IH]; cbn [forallb obj_insert]; [by rewrite Hv|].
  intros [H1 Hm]%andb_true_iff. destruct (String.compare k k1); cbn [forallb];
    rewrite ?Hv, ?H1; cbn; auto.
Qed.

Lemma withStereo_ok codecParameters p :
  sorted_keys p = true -> forallb int_param p = true ->
  sorted_keys (withStereo codecParameters p) = true /\
  forallb int_param (withStereo codecParameters p) = true.
Proof.
  intros Hs Hp. unfold withStereo. destruct (find "sprop-stereo" codecParameters) as [[]|]; try done.
  split; [by apply sorted_keys_insert|]. apply forallb_obj_insert; [by destruct b|done].
Qed.

Lemma writeConfig_run codec codecParameters f config p :
  find "parameters" codec = Some codecParameters ->
  obj_find "config" f = Some (JString config) -> parseParams config = Ok (JObject p) ->
  writeConfig codec (JObject f) =
  (Ok tt, JObject (obj_insert "config"
    (JString (config_by int_parameter_text (JObject (withStereo codecParameters p)))) f)).
Proof.
  intros Hc Hf Hp. unfold writeConfig, bind. rewrite (run_ref _ _ _ Hf).
  cbn [lift get_string]. unfold lift. rewrite Hp.
  assert (cget "parameters" codec = Ok codecParameters) as ->.
  { destruct codec; try done. cbn in *. by rewrite Hc. }
  assert (match find "sprop-stereo" codecParameters with
    | Some (JBool spropStereo) =>
        snd (set_key "stereo" (JInt (if spropStereo then 1 else 0)) (JObject p))
    | _ => JObject p
    end = JObject (withStereo codecParameters p)) as ->.
  { unfold withStereo. by destruct (find "sprop-stereo" codecParameters) as [[]|]. }
  done.
Qed.

Lemma find_index_lookup q l i : find_index q l = Ok (Some i) -> is_Some (l !! i).
Proof.
  revert i. induction l as [|x l IH]; intros i; cbn [find_index]; [done|].
  destruct (q x) as [[]| |]; cbn; try done; [intros [= <-]; eauto|].
  destruct (find_index q l) as [[j|]| |]; cbn; try done. intros [= <-]. by apply IH.
Qed.

(** For an opus codec of the remote producer that the answer has, the configuration
    of its fmtp entry is rewritten with the same parameters, and [stereo] set when
    [sprop-stereo] is a boolean; nothing else of the answer changes.  An integer
    [sprop-stereo], the type that [parseParams] and the media sections give it, is
    ignored. *)
Theorem applyCodecParameters_config codec mimeType codecParameters m rtps r fmtps i f config p :
  cget_string "mimeType" codec = Ok mimeType -> tolower mimeType = "audio/opus" ->
  find "parameters" codec = Some codecParameters ->
  sorted_keys m = true -> obj_find "rtp" m = Some (JArray rtps) ->
  find_if (samePayload codec) rtps = Ok (Some r) ->
  obj_find "fmtp" m = Some (JArray fmtps) ->
  find_index (samePayload codec) fmtps = Ok (Some i) ->
  fmtps !! i = Some (JObject f) ->
  obj_find "config" f = Some (JString config) -> parseParams config = Ok (JObject p) ->
  sorted_keys p = true -> forallb int_param p = true ->
  exists config',
    applyCodecParameters (jobj [("codecs", JArray [codec])]) (JObject m) =
    (Ok tt, JObject (obj_insert "fmtp"
      (JArray (<[i := JObject (obj_insert "config" (JString config') f)]> fmtps)) m)) /\
    parseParams config' = Ok (JObject (withStereo codecParameters p)).
Proof.
  intros Hmt Hopus Hps Hsm Hr Hfr Hf Hfi Hi Hc Hp Hsp Hip.
  destruct (withStereo_ok codecParameters p Hsp Hip) as [Hs' Hi'].
  eexists. split; [|exact (int_params_read _ Hs' Hi')].
  unfold applyCodecParameters.
  rewrite (bind_of_ok _ _ _ (JArray [codec]) (JObject m)) by done. cbn [elems applyCodecs].
  enough (applyCodec codec (JObject m) = (Ok tt, JObject (obj_insert "fmtp" (JArray (<[i := JObject
    (obj_insert "config" (JString (config_by int_parameter_text
      (JObject (withStereo codecParameters p)))) f)]> fmtps)) m))) as E by (by rewrite (bind_of_ok _ _ _ _ _ E)).
  unfold applyCodec. rewrite (bind_of_ok _ _ _ mimeType (JObject m)) by (unfold lift; by rewrite Hmt).
  rewrite Hopus. cbn [String.eqb Ascii.eqb Bool.eqb negb].
  rewrite (bind_of_ok _ _ _ _ _ (run_ref _ _ _ Hr)). cbn [elems].
  rewrite (bind_of_ok _ _ _ (Some r) (JObject m)) by (unfold lift; by rewrite Hfr).
  rewrite run_bind_get. unfold contains. cbn [find]. rewrite Hf, bool_decide_true by eauto. cbn [negb when].
  rewrite run_bind_ret. rewrite (bind_of_ok _ _ _ _ _ (run_ref _ _ _ Hf)). cbn [elems].
  rewrite (bind_of_ok _ _ _ (Some i) (JObject m)) by (unfold lift; by rewrite Hfi).
  rewrite run_bind_ret. change (default (length fmtps) (Some i)) with i.
  rewrite (run_at_bound "fmtp" m (JArray fmtps) _ (Ok tt)
    (JArray (<[i := JObject (obj_insert "config" (JString (config_by int_parameter_text
      (JObject (withStereo codecParameters p)))) f)]> fmtps)) Hsm Hf); [done|].
  unfold at_nth. cbn [elems]. rewrite Hi. by rewrite (writeConfig_run _ _ _ _ _ Hps Hc Hp).
Qed.

(** ** Maps from payload types *)

Definition pts (m : list (Z * json)) : list Z := map fst m.

Lemma pts_insert pt v m x : x ∈ pts (pt_insert pt v m) <-> x = pt \/ x ∈ pts m.
Proof.
  unfold pts. induction m as [|[pt' v'] m IH]; cbn [pt_insert map fst].
  - rewrite !elem_of_cons, elem_of_nil. tauto.
  - destruct (Z.eqb_spec pt pt') as [->|]; [cbn; rewrite !elem_of_cons; tauto|].
    destruct (pt <? pt'); cbn [map fst]; rewrite !elem_of_cons, ?IH; tauto.
Qed.

Lemma pt_insert_sorted pt v m :
  StronglySorted Z.lt (pts m) -> StronglySorted Z.lt (pts (pt_insert pt v m)).
Proof.
  induction m as [|[pt' v'] m IH]; [by repeat constructor|].
  intros [Hs Hall]%StronglySorted_inv. cbn [pt_insert].
  destruct (Z.eqb_spec pt pt') as [->|]; [by constructor|].
  destruct (Z.ltb_spec pt pt').
  - constructor; [by constructor|]. constructor; [done|].
    eapply Forall_impl; [exact Hall|]. intros x Hx. by etransitivity.
  - constructor; [by apply IH|]. apply Forall_forall. intros x [->|Hx]%pts_insert; [cbn [fst]; lia|].
    rewrite Forall_forall in Hall. by apply Hall.
Qed.

Lemma pt_insert_Forall (P : Z * json -> Prop) pt v m :
  P (pt, v) -> Forall P m -> Forall P (pt_insert pt v m).
Proof.
  intros Hv. induction 1 as [|[pt' v'] m Hp Hm IH]; cbn [pt_insert]; [by constructor|].
  destruct (pt =? pt'); [by constructor|]. destruct (pt <? pt'); by repeat constructor.
Qed.

Lemma pt_find_Some (P : Z * json -> Prop) pt v m :
  pt_find pt m = Some v -> Forall P m -> P (pt, v) /\ pt ∈ pts m.
Proof.
  intros H. induction 1 as [|[pt' v'] m Hp _ IH]; [done|]. cbn in *.
  destruct (Z.eqb_spec pt pt') as [->|]; [simplify_eq; split; [done|left]|].
  destruct (IH H). split; [done|by right].
Qed.

(** ** What the sections need *)

Definition rtp_ready (kind : string) (rtp : json) : bool :=
  is_object rtp &&
  it_is (fun v => match v with JString s => negb (String.eqb s "") && all_chars is_dot s | _ => false end)
    (find "codec" rtp) &&
  it_is (fun v => match v with JInt z => (0 <=? z) && (z <? 256) | _ => false end) (find "payload" rtp) &&
  it_is is_number_integer (find "rate" rtp) &&
  (negb (String.eqb kind "audio") ||
   match find "encoding" rtp with
   | Some (JString s) => match stoi s with Ok _ => true | _ => false end
   | _ => true
   end).

(** The parameters of an fmtp line can be read, and are valid ones. *)
Definition config_ready (config : string) : bool :=
  match parseParams config with
  | Ok parameters =>
      object_of codecParameterOk parameters &&
      match find "profile-id" parameters with
      | Some (JString s) => match stoi s with Ok _ => true | _ => false end
      | _ => true
      end
  | _ => false
  end.
Definition fmtp_ready (fmtp : json) : bool :=
  is_object fmtp &&
  it_is (fun v => match v with JString s => config_ready s | _ => false end) (find "config" fmtp) &&
  it_is (fun v => match v with JInt z => true | _ => false end) (find "payload" fmtp).

Definition rtcpFb_ready (fb : json) : bool :=
  is_object fb &&
  it_is (fun v => match v with JString s => match stoi s with Ok _ => true | _ => false end | _ => false end)
    (find "payload" fb) &&
  it_is is_string (find "type" fb).

Definition ext_ready (ext : json) : bool :=
  is_object ext && it_is is_nonempty_string (find "uri" ext) &&
  it_is is_number_integer (find "value" ext).

Definition section_ready (kind : string) (m : json) : bool :=
  is_object m && it_is (array_of (rtp_ready kind)) (find "rtp" m) &&
  it_is (array_of fmtp_ready) (find "fmtp" m) && it_is (array_of rtcpFb_ready) (find "rtcpFb" m) &&
  it_is (array_of ext_ready) (find "ext" m).

(** ** Codecs *)

Definition av (kind : string) : Prop := kind = "audio" \/ kind = "video".

Definition codec_ok (e : Z * json) : Prop :=
  exists m, e.2 = JObject m /\ sorted_keys m = true /\ acceptsRtpCodecCapability (JObject m) = true /\
    obj_find "preferredPayloadType" m = Some (JInt e.1) /\
    (exists fbs, obj_find "rtcpFeedback" m = Some (JArray fbs)).

Definition codecs_ok (m : list (Z * json)) : Prop :=
  Forall codec_ok m /\ StronglySorted Z.lt (pts m).

Lemma codecOf_ok kind rtp :
  av kind -> rtp_ready kind rtp = true ->
  exists pt codec, codecOf kind rtp = Ok codec /\ codec_ok (pt, codec) /\ 0 <= pt < 256 /\
    find "payload" rtp = Some (JInt pt).
Proof.
  intros Hk. unfold rtp_ready. rewrite !andb_true_iff. intros [[[[Ho Hc] Hp] Hr] He].
  destruct rtp as [| | | | | | |m]; try done. cbn [find it_is] in *.
  destruct (obj_find "codec" m) as [[| | | | |codec| |]|] eqn:Ec; try done.
  destruct (obj_find "payload" m) as [[| |pt| | | | |]|] eqn:Ep; try done.
  destruct (obj_find "rate" m) as [rate|] eqn:Er; [|done]. cbn in Hc, Hp, Hr.
  apply andb_true_iff in Hc as [Hne%negb_true_iff%String.eqb_neq Hd], Hp as [?%Z.leb_le ?%Z.ltb_lt].
  assert (mimeTypeOk (Some (JString (kind +:+ "/" +:+ codec))) = true) as Hmime.
  { unfold mimeTypeOk. cbn. apply MimeTypeRegex_spec. exists kind, codec.
    by destruct Hk as [-> | ->]; auto. }
  assert (exists n, (if String.eqb kind "audio" then
    match obj_find "encoding" m with Some (JString s) => stoi s | _ => Ok 1 end else Ok 1) = Ok n) as [n Hn].
  { destruct (String.eqb kind "audio"); [|eauto]. cbn in He.
    destruct (obj_find "encoding" m) as [[]|]; eauto. destruct (stoi s); eauto; done. }
  unfold codecOf, cget_string, cget. rewrite Ec, Ep, Er. cbn [result_bind get_string find].
  exists pt. destruct Hk as [-> | ->]; cbn [String.eqb Ascii.eqb Bool.eqb] in *.
  - rewrite Hn. cbn [result_bind]. eexists. split; [done|]. split; [|done].
    eexists. split; [reflexivity|]. split; [done|]. split; [|split; [done|by eexists]].
    change (mimeTypeOk (Some (JString ("audio" +:+ "/" +:+ codec))) && true &&
      is_number_integer rate && true && true = true). by rewrite Hmime, Hr.
  - eexists. split; [done|]. split; [|done].
    eexists. split; [reflexivity|]. split; [done|]. split; [|split; [done|by eexists]].
    change (mimeTypeOk (Some (JString ("video" +:+ "/" +:+ codec))) && true &&
      is_number_integer rate && true && true = true). by rewrite Hmime, Hr.
Qed.

(** The keys that a codec keeps when another one is written *)
Lemma accepts_codec_insert k v m :
  k <> "mimeType" -> k <> "preferredPayloadType" -> k <> "clockRate" ->
  acceptsRtpCodecCapability (JObject m) = true ->
  (k = "parameters" -> parametersOk codecParameterOk (Some v) = true) ->
  (k = "rtcpFeedback" -> rtcpFeedbackOk (Some v) = true) ->
  acceptsRtpCodecCapability (JObject (obj_insert k v m)) = true.
Proof.
  intros H1 H2 H3. unfold acceptsRtpCodecCapability, object_with.
  rewrite !andb_true_iff, !obj_find_insert. intros ((((? & ?) & ?) & ?) & ?) Hp Hf.
  repeat match goal with |- context [String.eqb ?a k] => destruct (String.eqb_spec a k) as [<-|] end;
    try done; repeat split; auto.
Qed.

Lemma addCodec_ok kind codecsMap rtp :
  av kind -> rtp_ready kind rtp = true -> codecs_ok codecsMap ->
  exists pt m', addCodec kind codecsMap rtp = Ok m' /\ codecs_ok m' /\
    find "payload" rtp = Some (JInt pt) /\ forall x, x ∈ pts m' <-> x = pt \/ x ∈ pts codecsMap.
Proof.
  intros Hk Hr [Hall Hs]. destruct (codecOf_ok kind rtp Hk Hr) as (pt & codec & Hc & Hok & Hpt & Hf).
  exists pt, (pt_insert pt codec codecsMap). unfold addCodec. rewrite Hc. cbn [result_bind].
  pose proof Hok as (m & Hm & _ & _ & Hp & _). cbn [fst snd] in *. subst. cbn [cget]. rewrite Hp.
  cbn [result_bind get_uint]. rewrite uint_small by lia. cbn [result_bind].
  split; [done|]. split; [split; [by apply pt_insert_Forall|by apply pt_insert_sorted]|].
  split; [done|]. intros x. apply pts_insert.
Qed.

(** Replacing the codec of a payload type *)
Lemma codecs_ok_replace pt codec codec' m :
  codecs_ok m -> pt_find pt m = Some codec -> codec_ok (pt, codec') ->
  codecs_ok (pt_insert pt codec' m) /\ forall x, x ∈ pts (pt_insert pt codec' m) <-> x ∈ pts m.
Proof.
  intros [Hall Hs] Hf Hc. destruct (pt_find_Some codec_ok pt codec m Hf Hall) as [_ Hin].
  split; [split; [by apply pt_insert_Forall|by apply pt_insert_sorted]|].
  intros x. rewrite pts_insert. split; [by intros [->|]|by right].
Qed.

Lemma addParameters_ok codecsMap fmtp :
  fmtp_ready fmtp = true -> codecs_ok codecsMap ->
  exists m', addParameters codecsMap fmtp = Ok m' /\ codecs_ok m' /\
    forall x, x ∈ pts m' <-> x ∈ pts codecsMap.
Proof.
  unfold fmtp_ready. rewrite !andb_true_iff. intros [[Ho Hc] Hp] Hok.
  destruct fmtp as [| | | | | | |f]; try done. cbn [find it_is] in *.
  destruct (obj_find "config" f) as [[| | | | |config| |]|] eqn:Ec; try done.
  destruct (obj_find "payload" f) as [[| |pt| | | | |]|] eqn:Ep; try done.
  unfold addParameters, cget_string, cget. rewrite Ec, Ep. cbn [result_bind get_string].
  cbn [it_is] in Hc. unfold config_ready in Hc.
  destruct (parseParams config) as [[| | | | | | |p]| |]; try done; cbn [result_bind get_uint].
  destruct (pt_find (uint 8 pt) codecsMap) as [codec|] eqn:E; [|by exists codecsMap].
  apply andb_true_iff in Hc as [Hp' Hprof].
  assert (exists p', match find "profile-id" (JObject p) with
    | Some (JString profileId) => let? n := stoi profileId in
        Ok (snd (set_key "profile-id" (JInt n) (JObject p)))
    | _ => Ok (JObject p) end = Ok (JObject p') /\ forallb codecParameterOk p' = true) as (p' & -> & Hp'').
  { cbn [find] in *. destruct (obj_find "profile-id" p) as [[| | | | |s| |]|]; eauto.
    destruct (stoi s) as [n| |]; try done. cbn. exists (obj_insert "profile-id" (JInt n) p).
    split; [done|]. by apply forallb_obj_insert. }
  cbn [result_bind]. eexists. split; [reflexivity|]. eapply codecs_ok_replace; [done|done|].
  destruct (pt_find_Some codec_ok _ codec codecsMap E (proj1 Hok)) as [(m & Hm & Hs & Ha & Hpt & fbs & Hf) _].
  cbn [fst snd] in *. subst. cbn [set_key as_object snd]. eexists. split; [reflexivity|].
  split; [by apply sorted_keys_insert|]. split; [by apply accepts_codec_insert|].
  rewrite !obj_find_insert. cbn. eauto.
Qed.

Lemma addFeedback_ok codecsMap fb :
  rtcpFb_ready fb = true -> codecs_ok codecsMap ->
  exists m', addFeedback codecsMap fb = Ok m' /\ codecs_ok m' /\
    forall x, x ∈ pts m' <-> x ∈ pts codecsMap.
Proof.
  unfold rtcpFb_ready. rewrite !andb_true_iff. intros [[Ho Hp] Ht] Hok.
  destruct fb as [| | | | | | |f]; try done. cbn [find it_is] in *.
  destruct (obj_find "payload" f) as [[| | | | |payload| |]|] eqn:Ep; try done.
  destruct (obj_find "type" f) as [type|] eqn:Et; [|done]. cbn [it_is] in *.
  unfold addFeedback, cget_string, cget. rewrite Ep, Et. cbn [result_bind get_string].
  destruct (stoi payload) as [n| |]; try done. cbn [result_bind].
  destruct (pt_find (uint 8 n) codecsMap) as [codec|] eqn:E; [|by exists codecsMap].
  destruct (pt_find_Some codec_ok _ codec codecsMap E (proj1 Hok)) as [(m & Hm & Hs & Ha & Hpt & fbs & Hf) _].
  cbn [fst snd] in *. subst. set (feedback := jobj _).
  rewrite (run_at_bound "rtcpFeedback" m _ (push_back feedback) _ _ Hs Hf eq_refl).
  eexists. split; [reflexivity|]. eapply codecs_ok_replace; [done|done|].
  eexists. split; [reflexivity|]. split; [by apply sorted_keys_insert|]. split.
  - apply accepts_codec_insert; try done. intros _. unfold rtcpFeedbackOk. cbn.
    rewrite forallb_app. apply andb_true_iff. split.
    + unfold acceptsRtpCodecCapability, object_with in Ha. rewrite !andb_true_iff in Ha.
      destruct Ha as [_ Ha]. rewrite Hf in Ha. exact Ha.
    + subst feedback. cbn. rewrite andb_true_r.
      destruct (obj_find "subtype" f); cbn; by destruct type.
  - rewrite !obj_find_insert. cbn. eauto.
Qed.

(** ** Sections *)

Definition payload_of (rtp : json) : option Z :=
  match find "payload" rtp with Some (JInt z) => Some z | _ => None end.
(** The payload types of the rtpmap lines *)
Definition payloads (m : json) : list Z :=
  match find "rtp" m with Some rtps => omap payload_of (elems rtps) | None => [] end.

Lemma fold_codecs kind rtps m :
  av kind -> forallb (rtp_ready kind) rtps = true -> codecs_ok m ->
  exists m', fold_result (addCodec kind) m rtps = Ok m' /\ codecs_ok m' /\
    forall x, x ∈ pts m' <-> x ∈ omap payload_of rtps \/ x ∈ pts m.
Proof.
  intros Hk. revert m. induction rtps as [|rtp rtps IH]; intros m Hr Hm.
  { exists m. split; [done|split; [done|]]. intros x. cbn. rewrite elem_of_nil. tauto. }
  cbn [forallb] in Hr. apply andb_true_iff in Hr as [Hr Hrs].
  destruct (addCodec_ok kind m rtp Hk Hr Hm) as (pt & m1 & H1 & Hm1 & Hpt & Hx).
  destruct (IH m1 Hrs Hm1) as (m2 & H2 & Hm2 & Hx2). exists m2. cbn [fold_result]. rewrite H1.
  split; [done|split; [done|]]. intros x. rewrite Hx2, Hx. cbn. unfold payload_of at 2.
  rewrite Hpt. rewrite elem_of_cons. tauto.
Qed.

Lemma fold_updates (f : list (Z * json) -> json -> result (list (Z * json))) ready l m :
  (forall m x, ready x = true -> codecs_ok m ->
    exists m', f m x = Ok m' /\ codecs_ok m' /\ forall x, x ∈ pts m' <-> x ∈ pts m) ->
  forallb ready l = true -> codecs_ok m ->
  exists m', fold_result f m l = Ok m' /\ codecs_ok m' /\ forall x, x ∈ pts m' <-> x ∈ pts m.
Proof.
  intros Hf. revert m. induction l as [|y l IH]; intros m Hl Hm; [by exists m|].
  cbn [forallb] in Hl. apply andb_true_iff in Hl as [Hy Hl].
  destruct (Hf m y Hy Hm) as (m1 & H1 & Hm1 & Hx1). destruct (IH m1 Hl Hm1) as (m2 & H2 & Hm2 & Hx2).
  exists m2. cbn [fold_result]. rewrite H1. split; [done|split; [done|]]. intros x. by rewrite Hx2.
Qed.

Lemma exts_ok kind exts :
  av kind -> forallb ext_ready exts = true ->
  exists new, collect (headerExtensionOf kind) exts = Ok new /\
    forallb acceptsRtpHeaderExtension new = true.
Proof.
  intros Hk. induction exts as [|ext exts IH]; cbn [forallb collect]; [by exists []|].
  intros [He Hes]%andb_true_iff. destruct (IH Hes) as (new & -> & Hn).
  unfold ext_ready in He. rewrite !andb_true_iff in He. destruct He as [[Ho Hu] Hv].
  destruct ext as [| | | | | | |m]; try done. cbn [find] in *. unfold headerExtensionOf, cget.
  destruct (obj_find "uri" m) as [uri|]; [|done]. destruct (obj_find "value" m) as [value|]; [|done].
  cbn [result_bind it_is] in *. eexists. split; [reflexivity|]. cbn [app forallb]. rewrite Hn, andb_true_r.
  change (it_is (fun k => json_eq k (JString "audio") || json_eq k (JString "video")) (Some (JString kind)) &&
    is_nonempty_string uri && is_number_integer value && true && true = true).
  rewrite Hu, Hv. by destruct Hk as [-> | ->].
Qed.

Definition extracted_ok (st : Extracted) : Prop :=
  codecs_ok st.1 /\ forallb acceptsRtpHeaderExtension st.2 = true.

Lemma extractSection_ok kind m st :
  av kind -> section_ready kind m = true -> extracted_ok st ->
  exists st', extractSection kind m st = Ok st' /\ extracted_ok st' /\
    forall x, x ∈ pts st'.1 <-> x ∈ payloads m \/ x ∈ pts st.1.
Proof.
  intros Hk. unfold section_ready. rewrite !andb_true_iff. intros [[[[Ho Hr] Hf] Hb] He] [Hc Hx].
  destruct m as [| | | | | | |o]; try done. destruct st as [m0 exts0]. unfold payloads. cbn [find fst snd] in *.
  unfold extractSection, cget.
  destruct (obj_find "rtp" o) as [[| | | | | |rtps|]|]; try done.
  destruct (obj_find "fmtp" o) as [[| | | | | |fmtps|]|]; try done.
  destruct (obj_find "rtcpFb" o) as [[| | | | | |fbs|]|]; try done.
  destruct (obj_find "ext" o) as [[| | | | | |exts|]|]; try done.
  cbn [result_bind elems it_is array_of] in *.
  destruct (fold_codecs kind rtps m0 Hk Hr Hc) as (m1 & -> & Hm1 & Hx1). cbn [result_bind].
  destruct (fold_updates addParameters fmtp_ready fmtps m1) as (m2 & -> & Hm2 & Hx2);
    [intros; by apply addParameters_ok|done|done|]. cbn [result_bind].
  destruct (fold_updates addFeedback rtcpFb_ready fbs m2) as (m3 & -> & Hm3 & Hx3);
    [intros; by apply addFeedback_ok|done|done|]. cbn [result_bind].
  destruct (exts_ok kind exts Hk He) as (new & -> & Hn). cbn [result_bind].
  eexists. split; [reflexivity|]. split.
  - split; [done|]. cbn [snd]. by rewrite forallb_app, Hx, Hn.
  - intros x. cbn [fst]. by rewrite Hx3, Hx2, Hx1.
Qed.

(** The first section of a kind *)
Definition has_type (kind : string) (m : json) : bool :=
  match find "type" m with Some (JString s) => String.eqb s kind | _ => false end.
Definition first_of (kind : string) (media : list json) : option json :=
  List.find (has_type kind) media.
(** The sections that are read *)
Definition chosen (gotAudio gotVideo : bool) (media : list json) : list json :=
  (if gotAudio then [] else option_list (first_of "audio" media)) ++
  (if gotVideo then [] else option_list (first_of "video" media)).

Definition media_ready (gotAudio gotVideo : bool) (media : list json) : bool :=
  forallb (fun m => is_object m && it_is is_string (find "type" m)) media &&
  (gotAudio || it_none_or (section_ready "audio") (first_of "audio" media)) &&
  (gotVideo || it_none_or (section_ready "video") (first_of "video" media)).

Lemma first_of_cons kind m media :
  first_of kind (m :: media) = if has_type kind m then Some m else first_of kind media.
Proof. done. Qed.

Lemma extractSections_ok media gotAudio gotVideo st :
  media_ready gotAudio gotVideo media = true -> extracted_ok st ->
  exists st', extractSections gotAudio gotVideo media st = Ok st' /\ extracted_ok st' /\
    forall x, x ∈ pts st'.1 <->
      x ∈ pts st.1 \/ x ∈ flat_map payloads (chosen gotAudio gotVideo media).
Proof.
  revert gotAudio gotVideo st. induction media as [|m media IH]; intros gA gV st Hr Hst.
  { exists st. split; [done|split; [done|]]. intros x.
    split; [by left|]. intros [?|Hx]; [done|]. unfold chosen in Hx.
    destruct gA, gV; by apply elem_of_nil in Hx. }
  unfold media_ready in Hr. cbn [forallb] in Hr. rewrite !andb_true_iff in Hr.
  destruct Hr as [[[[Ho Ht] Hm] Ha] Hv]. rewrite !first_of_cons in *.
  destruct m as [| | | | | | |o]; try done. cbn [find] in Ht.
  destruct (obj_find "type" o) as [[| | | | |kind| |]|] eqn:E; try done.
  assert (forall k, has_type k (JObject o) = String.eqb kind k) as Hty.
  { intros k. unfold has_type. cbn [find]. by rewrite E. }
  rewrite !Hty in *. cbn [extractSections]. unfold cget_string, cget. rewrite E. cbn [result_bind get_string].
  unfold chosen. rewrite !first_of_cons, !Hty.
  destruct (String.eqb_spec kind "audio") as [->|Hna]; [|destruct (String.eqb_spec kind "video") as [->|Hnv]].
  - change (String.eqb "audio" "video") with false in *. destruct gA.
    + apply IH; [|done]. unfold media_ready. by rewrite Hm, Hv.
    + cbn [orb it_none_or] in Ha.
      destruct (extractSection_ok "audio" (JObject o) st) as (st1 & -> & Hst1 & Hx1); [by left|done|done|].
      cbn [result_bind]. destruct (IH true gV st1) as (st2 & -> & Hst2 & Hx2); [|done|].
      { unfold media_ready. by rewrite Hm, Hv. }
      exists st2. split; [done|split; [done|]]. intros x. rewrite Hx2, Hx1. unfold chosen.
      rewrite !flat_map_app. change (option_list (Some (JObject o))) with [JObject o].
      cbn [flat_map]. rewrite ?app_nil_r, !elem_of_app, ?elem_of_nil. tauto.
  - destruct gV.
    + apply IH; [|done]. unfold media_ready. by rewrite Hm, Ha.
    + cbn [orb it_none_or] in Hv.
      destruct (extractSection_ok "video" (JObject o) st) as (st1 & -> & Hst1 & Hx1); [by right|done|done|].
      cbn [result_bind]. destruct (IH gA true st1) as (st2 & -> & Hst2 & Hx2); [|done|].
      { unfold media_ready. by rewrite Hm, Ha. }
      exists st2. split; [done|split; [done|]]. intros x. rewrite Hx2, Hx1. unfold chosen.
      rewrite !flat_map_app. change (option_list (Some (JObject o))) with [JObject o].
      cbn [flat_map]. rewrite ?app_nil_r, !elem_of_app, ?elem_of_nil. tauto.
  - apply IH; [|done]. unfold media_ready. by rewrite Hm, Ha, Hv.
Qed.

(** ** The capabilities *)

Definition offer_ready (sdpObject : json) : bool :=
  is_object sdpObject &&
  it_is (fun media => match media with JArray l => media_ready false false l | _ => false end)
    (find "media" sdpObject).

Definition sections_of (sdpObject : json) : list json :=
  chosen false false (elems (default JNull (find "media" sdpObject))).

(** C26. From a parsed local description whose audio and video sections are complete,
    [extractRtpCapabilities] returns capabilities that pass validation, whose codecs have
    increasing, hence distinct, payload types: those of the rtpmap lines of the first
    audio section and of the first video section. *)
Theorem extractRtpCapabilities_correct sdpObject :
  offer_ready sdpObject = true ->
  exists caps codecs,
    extractRtpCapabilities sdpObject = Ok caps /\ acceptsRtpCapabilities caps = true /\
    find "codecs" caps = Some (JArray (map snd codecs)) /\
    Forall (fun e => find "preferredPayloadType" e.2 = Some (JInt e.1)) codecs /\
    StronglySorted Z.lt (map fst codecs) /\
    forall pt, pt ∈ map fst codecs <-> pt ∈ flat_map payloads (sections_of sdpObject).
Proof.
  unfold offer_ready, sections_of. intros [Ho Hm]%andb_true_iff.
  destruct sdpObject as [| | | | | | |o]; try done. cbn [find] in *.
  unfold extractRtpCapabilities, cget. destruct (obj_find "media" o) as [[| | | | | |media|]|]; try done.
  cbn [it_is result_bind elems default] in *.
  destruct (extractSections_ok media false false ([], [])) as ([codecs exts] & -> & [[Hc Hs] He] & Hx);
    [done|repeat constructor|]. cbn [result_bind fst snd] in *.
  eexists _, codecs. split; [reflexivity|]. split; [|split; [reflexivity|split; [|split; [done|]]]].
  - change (forallb acceptsRtpCodecCapability (map snd codecs) && forallb acceptsRtpHeaderExtension exts = true).
    rewrite He, andb_true_r. apply forallb_forall. intros c Hin%list_elem_of_In.
    apply list_elem_of_fmap in Hin as ([pt c'] & -> & Hin). rewrite Forall_forall in Hc.
    destruct (Hc _ Hin) as (m & Hm' & _ & Ha & _). cbn in *. by subst.
  - eapply Forall_impl; [exact Hc|]. intros [pt c] (m & Hm' & _ & _ & Hp & _). cbn in *. by subst.
  - intros pt. rewrite (Hx pt). change (pts []) with (@nil Z). rewrite elem_of_nil. tauto.
Qed.

(** ** Examples *)

Definition text_of_lines (lines : list string) : string :=
  foldr (fun line rest => line +:+ crlf +:+ rest) "" lines.

Definition sample_offer : string := text_of_lines
  ["v=0"; "o=- 12345 1 IN IP4 127.0.0.1"; "s=-"; "t=0 0";
   "m=audio 9 UDP/TLS/RTP/SAVPF 111 0"; "c=IN IP4 0.0.0.0"; "a=mid:0"; "a=sendrecv";
   "a=rtpmap:111 opus/48000/2"; "a=rtcp-fb:111 transport-cc"; "a=fmtp:111 minptime=10;useinbandfec=1";
   "a=rtpmap:0 PCMU/8000"; "a=extmap:1 urn:ietf:params:rtp-hdrext:ssrc-audio-level";
   "m=video 9 UDP/TLS/RTP/SAVPF 98 97 96"; "c=IN IP4 0.0.0.0"; "a=mid:1";
   "a=rtpmap:98 VP9/90000"; "a=fmtp:98 profile-id=0"; "a=rtcp-fb:98 nack pli";
   "a=rtpmap:96 VP8/90000"; "a=rtpmap:97 rtx/90000"; "a=fmtp:97 apt=96";
   "a=extmap:2 urn:ietf:params:rtp-hdrext:toffset";
   "m=video 9 UDP/TLS/RTP/SAVPF 100"; "a=rtpmap:100 H264/90000"].

Definition sample_offer_object : json :=
  match parse sample_offer with Ok session => session | _ => JNull end.

Lemma extractRtpCapabilities_correct_witness :
  exists caps codecs,
    extractRtpCapabilities sample_offer_object = Ok caps /\ acceptsRtpCapabilities caps = true /\
    find "codecs" caps = Some (JArray (map snd codecs)) /\
    StronglySorted Z.lt (map fst codecs) /\ 98 ∈ map fst codecs.
Proof.
  destruct (extractRtpCapabilities_correct sample_offer_object)
    as (caps & codecs & H1 & H2 & H3 & _ & H5 & H6); [vm_compute; reflexivity|].
  exists caps, codecs. split; [exact H1|split; [exact H2|split; [exact H3|split; [exact H5|]]]].
  apply H6. apply list_elem_of_In. vm_compute. tauto.
Defined.

Definition sample_opus (spropStereo : json) : json :=
  jobj [("mimeType", JString "audio/opus"); ("payloadType", JInt 111);
    ("parameters", jobj [("sprop-stereo", spropStereo)])].

Lemma applyCodecParameters_config_witness :
  exists config',
    applyCodecParameters (jobj [("codecs", JArray [sample_opus (JBool true)])])
      (jobj [("rtp", JArray [jobj [("payload", JInt 111)]]);
             ("fmtp", JArray [jobj [("payload", JInt 111); ("config", JString "minptime=10")]])]) =
    (Ok tt, jobj [("rtp", JArray [jobj [("payload", JInt 111)]]);
      ("fmtp", JArray [jobj [("payload", JInt 111); ("config", JString config')]])]) /\
    parseParams config' = Ok (jobj [("minptime", JInt 10); ("stereo", JInt 1)]).
Proof.
  exact (applyCodecParameters_config (sample_opus (JBool true)) "audio/opus"
    (jobj [("sprop-stereo", JBool true)])
    [("fmtp", JArray [jobj [("payload", JInt 111); ("config", JString "minptime=10")]]);
     ("rtp", JArray [jobj [("payload", JInt 111)]])]
    [jobj [("payload", JInt 111)]] (jobj [("payload", JInt 111)])
    [jobj [("payload", JInt 111); ("config", JString "minptime=10")]] 0
    [("config", JString "minptime=10"); ("payload", JInt 111)] "minptime=10" [("minptime", JInt 10)]
    ltac:(vm_compute; reflexivity) ltac:(vm_compute; reflexivity) ltac:(vm_compute; reflexivity)
    ltac:(vm_compute; reflexivity) ltac:(vm_compute; reflexivity) ltac:(vm_compute; reflexivity)
    ltac:(vm_compute; reflexivity) ltac:(vm_compute; reflexivity) ltac:(vm_compute; reflexivity)
    ltac:(vm_compute; reflexivity) ltac:(vm_compute; reflexivity) ltac:(vm_compute; reflexivity)
    ltac:(vm_compute; reflexivity)).
Defined.
