(* ===== verification/HandlerFrame.v ===== *)
(** * What the operations of the handlers leave

    A predicate on the handler that does not depend on the remote SDP, the flags and the
    parameters by kind, and that storing a transceiver keeps, is kept by the operations. *)

From stdpp Require Import gmap.
From S2P Require Import Prelude Json OrtcValidate Ortc MediaSection RemoteSdp SdpUtils SdpParser.
From S2P Require Import SdpCapabilities PeerConnection Handler.

Lemma preserves_local {S A} (P : S -> Prop) (f : M json A) j : preserves P (local f j).
Proof. intros s Hs. unfold local. by destruct (f j) as [[] ?]. Qed.
Lemma preserves_local_ {S} (P : S -> Prop) f j : preserves P (local_ f j : M S json).
Proof. apply preserves_bind; [apply preserves_local|intros ?; apply preserves_ret]. Qed.
Lemma preserves_undoing {S A} (P : S -> Prop) p (m : M S A) u :
  preserves P m -> preserves P u -> preserves P (undoing p m u).
Proof.
  intros Hm Hu st Hst. specialize (Hm st Hst). unfold undoing.
  destruct (m st) as [[a|e|] st']; [done| |done]. specialize (Hu st' Hm).
  destruct (p e); [|done]. by destruct (u st') as [[] ?].
Qed.
#[export] Hint Resolve preserves_local preserves_local_ preserves_undoing : preserve.

Section Frame.
Context `{Webrtc}.
Context (OnConnect : json -> M World unit).

Record independent (Q : Handler -> Prop) : Prop := {
  of_remoteSdp s h : Q h -> Q (set_remoteSdp s h);
  of_transportReady h : Q h -> Q (set_transportReady h);
  of_hasData h : Q h -> Q (set_hasDataChannelMediaSection h);
  of_sending p r h : Q h -> Q (set_sending p r h);
  of_map localId t h :
    Q h -> Q (set_mapMidTransceiver (<[localId := t]> (mapMidTransceiver h)) h)
}.

Context (Q : Handler -> Prop) (HQ : independent Q).

Abbreviation leaves := (preserves (fun st : Handler * World => Q st.1)).

Lemma leaves_on_pc {A} (f : Pc -> M World A) : leaves (on_pc f).
Proof. intros [h w] Hn. unfold on_pc. simpl. by destruct (f (pc h) w). Qed.
Lemma leaves_on_world {A} (f : M World A) : leaves (on_world f).
Proof. apply leaves_on_pc. Qed.
Lemma leaves_on_remoteSdp {A} (f : M RemoteSdp A) : leaves (on_remoteSdp f).
Proof. intros [h w] Hn. unfold on_remoteSdp. simpl. destruct (f (remoteSdp h)). by apply HQ. Qed.
Lemma leaves_update f : (forall h, Q h -> Q (f h)) -> leaves (update f).
Proof. intros Hf [h w] Hn. simpl in *. auto. Qed.
Lemma leaves_store localId t :
  leaves (update (fun h => set_mapMidTransceiver (<[localId := t]> (mapMidTransceiver h)) h)).
Proof. apply leaves_update, HQ. Qed.
Lemma leaves_ready : leaves (update set_transportReady).
Proof. apply leaves_update, HQ. Qed.
Lemma leaves_hasData : leaves (update set_hasDataChannelMediaSection).
Proof. apply leaves_update, HQ. Qed.
Lemma leaves_sendingByKind kind : leaves (sendingByKind kind).
Proof. intros [h w] Hn. unfold sendingByKind. destruct (ref kind _). by apply HQ. Qed.
Lemma leaves_sendingRemoteByKind kind : leaves (sendingRemoteByKind kind).
Proof. intros [h w] Hn. unfold sendingRemoteByKind. destruct (ref kind _). by apply HQ. Qed.
Lemma leaves_midOf t : leaves (midOf t).
Proof. intros [h w] Hn. unfold midOf. by destruct (mid t _). Qed.
Lemma leaves_transceiverOf localId : leaves (transceiverOf localId).
Proof. intros [h w] Hn. unfold transceiverOf. by destruct (_ !! _). Qed.
Lemma leaves_findTransceiver localId : leaves (findTransceiver localId).
Proof. intros [h w] Hn. unfold findTransceiver. by destruct (list_find _ _) as [[]|]. Qed.

#[local] Hint Resolve leaves_on_pc leaves_on_world leaves_on_remoteSdp leaves_sendingByKind
  leaves_sendingRemoteByKind leaves_midOf leaves_transceiverOf
  leaves_findTransceiver leaves_store leaves_ready leaves_hasData : preserve.

Lemma leaves_ensureTransport role j : leaves (ensureTransport OnConnect role j).
Proof.
  unfold ensureTransport, SetupTransport. apply preserves_bind; [preserve|]. intros st.
  apply preserves_when. destruct (empty j); preserve.
Qed.
Lemma leaves_applyRemote type : leaves (applyRemote type).
Proof. unfold applyRemote. preserve. Qed.
#[local] Hint Resolve leaves_ensureTransport leaves_applyRemote : preserve.
Lemma leaves_renegotiate restart : leaves (renegotiate restart).
Proof. unfold renegotiate. preserve. Qed.
Lemma leaves_negotiate t encodings idx p : leaves (negotiate OnConnect t encodings idx p).
Proof.
  unfold negotiate. do 5 (apply preserves_bind; [preserve|intros ?]).
  apply preserves_bind; [destruct (_ && _)|intros ?]; preserve.
Qed.
Lemma leaves_completeSend t encodings options section remote localId p hack :
  leaves (completeSend t encodings options section remote localId p hack).
Proof.
  unfold completeSend. do 8 (apply preserves_bind; [preserve|intros ?]).
  apply preserves_bind; [|intros ?; preserve].
  intros [h w] Hn. destruct (RemoteSdp.Send _ _ _ _) as [? [? []]]. by apply HQ.
Qed.
#[local] Hint Resolve leaves_renegotiate leaves_negotiate leaves_completeSend : preserve.
Lemma leaves_abandon t : leaves (abandon t).
Proof. unfold abandon. preserve. Qed.
#[local] Hint Resolve leaves_abandon : preserve.
Lemma leaves_Send track encodings options codec :
  leaves (SendHandler_Send OnConnect track encodings options codec).
Proof.
  unfold SendHandler_Send. destruct track as [track|]; [|preserve].
  do 7 (apply preserves_bind; [preserve|intros ?]). destruct a5; preserve.
Qed.
Lemma leaves_sendApplicationSection : leaves (sendApplicationSection OnConnect).
Proof.
  unfold sendApplicationSection. do 6 (apply preserves_bind; [preserve|intros ?]).
  destruct a4 as [[]|]; preserve.
Qed.
#[local] Hint Resolve leaves_Send leaves_sendApplicationSection : preserve.


Lemma leaves_StopSending localId : leaves (SendHandler_StopSending localId).
Proof. unfold SendHandler_StopSending. preserve. Qed.
Lemma leaves_ReplaceTrack localId track : leaves (SendHandler_ReplaceTrack localId track).
Proof. unfold SendHandler_ReplaceTrack. preserve. Qed.
Lemma leaves_SetMaxSpatialLayer localId n : leaves (SendHandler_SetMaxSpatialLayer localId n).
Proof. unfold SendHandler_SetMaxSpatialLayer. preserve. Qed.
Lemma leaves_SendRestartIce ice : leaves (SendHandler_RestartIce ice).
Proof. unfold SendHandler_RestartIce. preserve. Qed.
Lemma leaves_UpdateIceServers uris : leaves (UpdateIceServers uris).
Proof. unfold UpdateIceServers. preserve. Qed.
Lemma leaves_HandlerClose : leaves Handler_Close.
Proof. unfold Handler_Close. preserve. Qed.

Lemma leaves_offerAndAnswer : leaves offerAndAnswer.
Proof. unfold offerAndAnswer. preserve. Qed.
#[local] Hint Resolve leaves_offerAndAnswer : preserve.
Lemma leaves_Receive id kind p : leaves (RecvHandler_Receive OnConnect id kind p).
Proof. unfold RecvHandler_Receive. preserve. Qed.
Lemma leaves_receiveApplicationSection : leaves (receiveApplicationSection OnConnect).
Proof. unfold receiveApplicationSection. preserve. Qed.
#[local] Hint Resolve leaves_receiveApplicationSection : preserve.
Lemma leaves_ReceiveDataChannel label d :
  leaves (RecvHandler_ReceiveDataChannel OnConnect label d).
Proof. unfold RecvHandler_ReceiveDataChannel. preserve. Qed.
Lemma leaves_StopReceiving localId : leaves (RecvHandler_StopReceiving localId).
Proof. unfold RecvHandler_StopReceiving. preserve. Qed.
Lemma leaves_RecvRestartIce ice : leaves (RecvHandler_RestartIce ice).
Proof. unfold RecvHandler_RestartIce. preserve. Qed.
End Frame.
