(* ===== verification/HandlerSpec.v ===== *)
(** * The handlers: the proofs

    Whatever webrtc answers, a RecvHandler keeps its remote SDP an implementation of the
    abstract session, and knows its transceivers under their mids as long as webrtc leaves them
    one. *)

From stdpp Require Import gmap.
From S2P Require Import Prelude Json Validator OrtcValidate OrtcContracts OrtcValidated Ortc OrtcMatch OrtcExtended.
From S2P Require Import MediaSection MediaSectionSpec AnswerSection SdpWriter RemoteSdp RemoteSdpInv SdpUtils.
From S2P Require Import SdpParser SdpCapabilities PeerConnection Handler HandlerFrame.

(** ** What is relied on of webrtc *)

(** webrtc/src/api/rtp_transceiver_interface.h: [stopped()] *)
Class Stopping `{Webrtc} := { stopped : Transceiver -> World -> bool }.

(** A transceiver that was stopped and has lost its mid. *)
Definition dissociated `{Stopping} (t : Transceiver) (w : World) : Prop :=
  stopped t w = true /\ mid t w = None.

(** webrtc/src/pc/sdp_offer_answer.cc: a mid that was negotiated stays until the transceiver is
    stopped because its section was rejected, by either side; then it is taken away
    ([RemoveStoppedTransceivers]) and a stopped transceiver gets no other ([AssociateTransceiver]).
    A rollback would also take it away, but the client never asks for one. *)
Definition follows `{Stopping} (w w' : World) : Prop :=
  forall t, (forall m, mid t w = Some m -> mid t w' = Some m \/ dissociated t w') /\
            (dissociated t w -> dissociated t w').
Definition stable `{Stopping} (f : World -> World) : Prop := forall w, follows w (f w).

Class LastingMids `{Stopping} := {
  stable_create_answer pc : stable (fun w => snd (create_answer pc w));
  stable_set_local pc d : stable (fun w => snd (set_local_description pc d w));
  stable_set_remote pc d : stable (fun w => snd (set_remote_description pc d w));
  stable_create_channel pc label d : stable (fun w => snd (create_data_channel pc label d w));
  stable_close_channel c : stable (close_channel c);
  stable_set_servers pc servers : stable (fun w => snd (set_servers pc servers w));
  stable_set_enabled t b : stable (set_enabled t b)
}.

Section Recv.
Context `{LastingMids}.
Context (OnConnect : json -> M World unit).
Context (stable_OnConnect : forall d, stable (fun w => snd (OnConnect d w))).
Context (sctp : json).

(** A transceiver has this mid, unless webrtc has taken it away. *)
Definition known_as (localId : string) (t : Transceiver) (w : World) : Prop :=
  mid t w = Some localId \/ dissociated t w.

Lemma known_follows localId t w w' : follows w w' -> known_as localId t w -> known_as localId t w'.
Proof. intros Hf [Hm|Hd]; destruct (Hf t) as [Hkeep Hgone]; [by apply Hkeep|right; auto]. Qed.
Lemma follows_refl w : follows w w.
Proof. intros t. auto. Qed.

Record recv_inv (v : session) (st : Handler * World) : Prop := {
  recv_implements : implements sctp v (remoteSdp st.1);
  recv_mids localId t : mapMidTransceiver st.1 !! localId = Some t -> known_as localId t st.2
}.

(** ** Steps that leave the session as it is *)

Abbreviation keeps v := (preserves (recv_inv v)).

(** Calls of webrtc. *)
Lemma keeps_on_pc {A} v (f : Pc -> M World A) :
  (forall pc, stable (fun w => snd (f pc w))) -> keeps v (on_pc f).
Proof.
  intros Hf [h w] [Hi Hm]. unfold on_pc. simpl. pose proof (Hf (pc h) w) as Hs.
  cbv beta in Hs. destruct (f (pc h) w) as [r w']. split; [done|]. simpl in *. intros. eapply known_follows; [exact Hs|auto].
Qed.

Lemma stable_future_get {A} (f : World -> (string + A) * World) :
  stable (fun w => snd (f w)) -> stable (fun w => snd (future_get f w)).
Proof. intros Hf w. specialize (Hf w). revert Hf. unfold future_get. by destruct (f w) as [[] ?]. Qed.
Lemma stable_future_done f :
  stable (fun w => snd (f w)) -> stable (fun w => snd (future_done f w)).
Proof. intros Hf w. specialize (Hf w). revert Hf. unfold future_done. by destruct (f w) as [[] ?]. Qed.

Lemma stable_call {A} (f : World -> A * World) :
  stable (fun w => snd (f w)) -> stable (fun w => snd (call f w)).
Proof. intros Hf w. specialize (Hf w). revert Hf. unfold call. by destruct (f w). Qed.

Lemma keeps_CreateAnswer v : keeps v (on_pc CreateAnswer).
Proof. apply keeps_on_pc. intros pc. apply stable_future_get, stable_create_answer. Qed.
Lemma keeps_SetLocal v type sdp : keeps v (on_pc (fun pc => SetLocalDescription pc type sdp)).
Proof.
  apply keeps_on_pc. intros pc. unfold SetLocalDescription.
  destruct (create_description _ sdp); [intros w; apply follows_refl|]. apply stable_future_done, stable_set_local.
Qed.
Lemma keeps_SetRemote v type sdp : keeps v (on_pc (fun pc => SetRemoteDescription pc type sdp)).
Proof.
  apply keeps_on_pc. intros pc. unfold SetRemoteDescription.
  destruct (create_description _ sdp); [intros w; apply follows_refl|]. apply stable_future_done, stable_set_remote.
Qed.
Lemma keeps_GetLocal v : keeps v (on_pc GetLocalDescription).
Proof.
  apply keeps_on_pc. intros pc w. unfold GetLocalDescription.
  destruct (local_description pc w); apply follows_refl.
Qed.
Lemma keeps_OnConnect v d : keeps v (on_world (OnConnect d)).
Proof. apply keeps_on_pc. intros _. apply stable_OnConnect. Qed.

(** Members that the invariant does not mention. *)
Lemma keeps_update v f :
  (forall h, remoteSdp (f h) = remoteSdp h /\ mapMidTransceiver (f h) = mapMidTransceiver h) ->
  keeps v (update f).
Proof. intros Hf [h w] [Hi Hm]. destruct (Hf h) as [Hr Ht]. split; simpl in *; by rewrite ?Hr, ?Ht. Qed.
Lemma keeps_ready v : keeps v (update set_transportReady).
Proof. by apply keeps_update. Qed.
Lemma keeps_hasData v : keeps v (update set_hasDataChannelMediaSection).
Proof. by apply keeps_update. Qed.

(** The remote SDP: calls that do not move the session. *)
Lemma keeps_remote {A} v (m : M RemoteSdp A) :
  (forall s, implements sctp v s -> implements sctp v (snd (m s))) -> keeps v (on_remoteSdp m).
Proof.
  intros Hm [h w] [Hi Hmid]. unfold on_remoteSdp. specialize (Hm _ Hi). simpl in *.
  destruct (m (remoteSdp h)) as [r s]. split; [exact Hm|exact Hmid].
Qed.

Lemma keeps_GetSdp v : keeps v (on_remoteSdp GetSdp).
Proof.
  apply keeps_remote. intros s Hi. assert (view s = v) as <- by apply Hi.
  by destruct (GetSdp_run sctp s Hi) as (s' & -> & ? & _).
Qed.

Lemma keeps_op v o : allowed sctp v o = true -> effect v o = v -> keeps v (on_remoteSdp (perform o)).
Proof.
  intros Ha He. apply keeps_remote. intros s Hi.
  destruct (perform_implements sctp v s o Hi Ha) as [Hi' _]. by rewrite He in Hi'.
Qed.
Lemma keeps_UpdateDtls v role : keeps v (on_remoteSdp (UpdateDtlsRole role)).
Proof. by apply (keeps_op v (OpUpdateDtls role)). Qed.

#[local] Hint Resolve keeps_CreateAnswer keeps_SetLocal keeps_SetRemote keeps_GetLocal keeps_OnConnect keeps_ready
  keeps_hasData keeps_GetSdp keeps_UpdateDtls : preserve.

Lemma keeps_SetupTransport v role j : keeps v (SetupTransport OnConnect role j).
Proof. unfold SetupTransport. destruct (empty j); preserve. Qed.
#[local] Hint Resolve keeps_SetupTransport : preserve.
Lemma keeps_ensureTransport v role j : keeps v (ensureTransport OnConnect role j).
Proof. unfold ensureTransport. apply preserves_bind; [preserve|]. intros st. apply preserves_when. preserve. Qed.
Lemma keeps_applyRemote v type : keeps v (applyRemote type).
Proof. unfold applyRemote. preserve. Qed.
#[local] Hint Resolve keeps_ensureTransport keeps_applyRemote : preserve.
Lemma keeps_offerAndAnswer v : keeps v offerAndAnswer.
Proof. unfold offerAndAnswer. preserve. Qed.
#[local] Hint Resolve keeps_offerAndAnswer : preserve.

(** ** Steps that move the session *)

Definition moves {A} (v v' : session) (m : HM A) : Prop :=
  forall st, recv_inv v st -> recv_inv v' (snd (m st)).

(** A session operation succeeds; what follows keeps the new session. *)
Lemma moves_op {B} v o (f : unit -> HM B) :
  allowed sctp v o = true -> o <> OpGetSdp -> keeps (effect v o) (f tt) ->
  moves v (effect v o) (bind (on_remoteSdp (perform o)) f).
Proof.
  intros Ha Hne Hf [h w] [Hi Hm]. destruct (perform_implements sctp v _ o Hi Ha) as [Hi' Hok].
  specialize (Hok Hne). simpl in *. destruct (perform o (remoteSdp h)) as [r s] eqn:Hs.
  simpl in *. subst r. rewrite (bind_of_ok _ _ _ tt (set_remoteSdp s h, w)).
  - apply Hf. split; [exact Hi'|exact Hm].
  - unfold on_remoteSdp. simpl in *. by rewrite Hs.
Qed.

(** The transceiver that was found has the local id as its mid. *)
Lemma keeps_store {B} v localId (f : Transceiver -> HM B) :
  (forall t, keeps v (f t)) ->
  keeps v (let! t := findTransceiver localId in
           do! update (fun h => set_mapMidTransceiver
                                  (<[localId := t]> (mapMidTransceiver h)) h) in f t).
Proof.
  intros Hf [h w] [Hi Hm]. unfold bind at 1, findTransceiver. simpl in *.
  destruct (list_find _ _) as [[i t]|] eqn:Ht; [|by split].
  apply list_find_Some in Ht as (_ & Ht & _). apply Hf. split; [exact Hi|]. simpl.
  intros localId' t' [[<- <-]|[_ ?]]%lookup_insert_Some; [by left|auto].
Qed.

(** ** The calls *)

Inductive recv_call :=
| CallReceive (id kind : string) (rtpParameters : json)
| CallReceiveDataChannel (label : string) (dataChannelInit : DataChannelInit)
| CallStopReceiving (localId : string)
| CallRestartIce (iceParameters : json).

Definition recv_perform (c : recv_call) : HM unit :=
  match c with
  | CallReceive id kind p => let! _ := RecvHandler_Receive OnConnect id kind p in ret tt
  | CallReceiveDataChannel label d =>
      let! _ := RecvHandler_ReceiveDataChannel OnConnect label d in ret tt
  | CallStopReceiving localId => RecvHandler_StopReceiving localId
  | CallRestartIce ice => RecvHandler_RestartIce ice
  end.

Definition nextId (st : Handler * World) (p : json) : string :=
  receivedId p (base.size (mapMidTransceiver st.1)).

(** Whether a data channel is created, which is up to its parameters and to webrtc. *)
Definition creates (st : Handler * World) (label : string) (d : DataChannelInit) : bool :=
  match receivingStream (set_negotiated None d) with
  | Ok _ => bool_decide (is_Some (fst (create_data_channel (pc st.1) label
                                         (set_negotiated None d) st.2)))
  | _ => false
  end.

(** The session that a call leaves, whether it returns or throws. *)
Definition recv_effect (v : session) (st : Handler * World) (c : recv_call) : session :=
  match c with
  | CallReceive _ _ p =>
      match receivedCname p with Ok _ => place (nextId st p) v | _ => v end
  | CallReceiveDataChannel label d =>
      if negb (hasDataChannelMediaSection st.1) && creates st label d
      then v ++ [("datachannel", true)] else v
  | CallStopReceiving localId =>
      match mapMidTransceiver st.1 !! localId with
      | Some t => if bool_decide (is_Some (mid t st.2)) then close localId v else v
      | None => v
      end
  | CallRestartIce _ => v
  end.

(** What the transport has checked: parameters that passed validation, and a local id that is
    free, respectively still in the session. *)
Definition recv_allowed (v : session) (st : Handler * World) (c : recv_call) : bool :=
  match c with
  | CallReceive id kind p => allowed sctp v (OpReceive (nextId st p) kind p "" id)
  | CallReceiveDataChannel _ _ => hasDataChannelMediaSection st.1 || allowed sctp v OpRecvSctp
  | CallStopReceiving localId => allowed sctp v (OpClose localId)
  | CallRestartIce ice => allowed sctp v (OpUpdateIce ice)
  end.

Lemma Receive_moves v st id kind p :
  recv_inv v st -> recv_allowed v st (CallReceive id kind p) = true ->
  recv_inv (recv_effect v st (CallReceive id kind p))
    (snd (RecvHandler_Receive OnConnect id kind p st)).
Proof.
  intros Hst Ha. unfold RecvHandler_Receive. rewrite run_bind_get.
  fold (nextId st p). unfold recv_effect.
  destruct (receivedCname p) as [cname|e|] eqn:Hc; [|by unfold bind, lift..].
  change (lift (Ok cname)) with (ret cname : HM string). rewrite run_bind_ret.
  apply (moves_op v (OpReceive (nextId st p) kind p cname id)); [exact Ha|done| |exact Hst].
  do 5 (apply preserves_bind; [eauto with preserve|intros ?]). apply keeps_store. intros t. preserve.
Qed.

Lemma ReceiveDataChannel_moves v st label d :
  recv_inv v st -> recv_allowed v st (CallReceiveDataChannel label d) = true ->
  recv_inv (recv_effect v st (CallReceiveDataChannel label d))
    (snd (RecvHandler_ReceiveDataChannel OnConnect label d st)).
Proof.
  intros Hst Ha. unfold RecvHandler_ReceiveDataChannel, recv_effect, creates.
  destruct (receivingStream _) as [p|e|]; [|rewrite andb_false_r; exact Hst..].
  change (lift (Ok p)) with (ret p : HM json). rewrite run_bind_ret.
  pose proof (keeps_on_pc v (fun pc => call (create_data_channel pc label (set_negotiated None d)))
    (fun pc => stable_call _ (stable_create_channel pc label _)) st Hst) as Hw.
  destruct st as [h w]. revert Hw. unfold CreateDataChannel, on_pc, bind at 1, bind at 1, call. simpl.
  destruct (create_data_channel (pc h) label _ w) as [[c|] w'] eqn:Hc; simpl; intros Hw.
  2: { rewrite andb_false_r. exact Hw. }
  rewrite andb_true_r, run_bind_get. simpl in *.
  destruct (hasDataChannelMediaSection h); simpl in *.
  { exact Hw. }
  unfold receiveApplicationSection. rewrite run_bind_bind.
  apply (moves_op v OpRecvSctp); [exact Ha|done| |exact Hw]. preserve.
Qed.

Lemma StopReceiving_moves v st localId :
  recv_inv v st -> recv_allowed v st (CallStopReceiving localId) = true ->
  recv_inv (recv_effect v st (CallStopReceiving localId))
    (snd (RecvHandler_StopReceiving localId st)).
Proof.
  intros Hst Ha. unfold RecvHandler_StopReceiving, recv_effect. unfold bind at 1, transceiverOf.
  destruct (mapMidTransceiver st.1 !! localId) as [t|] eqn:Ht; [|done].
  unfold bind at 1, midOf. destruct (recv_mids _ _ Hst _ _ Ht) as [->|[_ ->]]; [|exact Hst].
  rewrite bool_decide_true by eauto.
  apply (moves_op v (OpClose localId)); [exact Ha|done| |exact Hst]. preserve.
Qed.

Lemma RestartIce_moves v st ice :
  recv_inv v st -> recv_allowed v st (CallRestartIce ice) = true ->
  recv_inv (recv_effect v st (CallRestartIce ice)) (snd (RecvHandler_RestartIce ice st)).
Proof.
  intros Hst Ha. unfold RecvHandler_RestartIce.
  apply (moves_op v (OpUpdateIce ice)); [exact Ha|done| |exact Hst].
  apply preserves_bind; [preserve|]. intros st'. apply preserves_when. preserve.
Qed.

Lemma snd_bind_ret {A} (m : HM A) st : snd (bind m (fun _ => ret tt) st) = snd (m st).
Proof. unfold bind. by destruct (m st) as [[] ?]. Qed.

Lemma recv_perform_moves v st c :
  recv_inv v st -> recv_allowed v st c = true ->
  recv_inv (recv_effect v st c) (snd (recv_perform c st)).
Proof.
  destruct c; intros; unfold recv_perform; rewrite ?snd_bind_ret;
    eauto using Receive_moves, ReceiveDataChannel_moves, StopReceiving_moves, RestartIce_moves.
Qed.

(** ** Reachable states *)

(** A handler built from transport parameters; each call may return or throw, and webrtc may
    change its state in between. *)
Inductive recv_reachable (ice candidates dtls : json) : session -> Handler * World -> Prop :=
| reach_new w w' h :
    Handler_new ice candidates dtls sctp JNull JNull w = (Ok h, w') ->
    recv_reachable ice candidates dtls [] (h, w')
| reach_call v st c :
    recv_reachable ice candidates dtls v st -> recv_allowed v st c = true ->
    fst (recv_perform c st) <> Undef ->
    recv_reachable ice candidates dtls (recv_effect v st c) (snd (recv_perform c st))
| reach_webrtc v h w f :
    recv_reachable ice candidates dtls v (h, w) -> stable f ->
    recv_reachable ice candidates dtls v (h, f w).

Lemma Handler_new_inv ice candidates dtls w w' h :
  acceptsIceParameters ice = true -> array_of acceptsIceCandidate candidates = true ->
  acceptsDtlsParameters dtls = true ->
  Handler_new ice candidates dtls sctp JNull JNull w = (Ok h, w') -> recv_inv [] (h, w').
Proof.
  intros Hi Hc Hd. destruct (RemoteSdp_new_run ice candidates dtls sctp) as (s & Hs & ? & ? & ? & _); try done.
  unfold Handler_new, bind at 1. unfold lift. destruct (forcedRole dtls); [|done..].
  unfold bind at 1. destruct (PeerConnection_new w) as [[c|e|] w1]; [|done..].
  rewrite Hs. intros [= <- <-]. split; [by split_and!|]. simpl. intros ??. by rewrite lookup_empty.
Qed.

Lemma reachable_inv ice candidates dtls v st :
  acceptsIceParameters ice = true -> array_of acceptsIceCandidate candidates = true ->
  acceptsDtlsParameters dtls = true ->
  recv_reachable ice candidates dtls v st -> recv_inv v st.
Proof.
  intros Hi Hc Hd. induction 1 as [w w' h Hnew|v st c _ IH Ha _|v h w f _ IH Hf].
  - by eapply Handler_new_inv.
  - by apply recv_perform_moves.
  - destruct IH as [Himp Hm]. split; [done|]. simpl in *. intros localId t Ht.
    eapply known_follows; [apply Hf|auto].
Qed.


(** Runs the calls: the session and the state at the end, if every call is allowed and none is
    undefined. *)
Fixpoint serve (calls : list recv_call) (v : session) (st : Handler * World) :
    option (session * (Handler * World)) :=
  match calls with
  | [] => Some (v, st)
  | c :: calls =>
      if recv_allowed v st c then
        match recv_perform c st with
        | (Undef, _) => None
        | (_, st') => serve calls (recv_effect v st c) st'
        end
      else None
  end.

Lemma serve_reachable ice candidates dtls calls v st v' st' :
  recv_reachable ice candidates dtls v st -> serve calls v st = Some (v', st') ->
  recv_reachable ice candidates dtls v' st'.
Proof.
  revert v st. induction calls as [|c calls IH]; intros v st Hr; simpl; [by intros [= <- <-]|].
  destruct (recv_allowed v st c) eqn:Ha; [|done].
  pose proof (reach_call ice candidates dtls v st c Hr Ha) as Hc.
  destruct (recv_perform c st) as [[a|e|] st1]; [by apply IH, Hc..|done].
Qed.
End Recv.

(** ** A stack that answers with the offer *)

(** The world is the last remote description; a transceiver is its mid. *)
#[export] Instance Echo : Webrtc := {|
  World := string; Pc := unit; Transceiver := string; Track := string; Channel := Z;
  Description := string;
  new_pc w := (Some tt, w);
  close_pc _ w := w;
  set_servers _ _ w := (None, w);
  create_offer _ _ w := (inr w, w);
  create_answer _ w := (inr w, w);
  create_description _ sdp := inr sdp;
  set_local_description _ _ w := (None, w);
  set_remote_description _ sdp _ := (None, sdp);
  local_description _ w := Some w;
  get_transceivers _ _ := ["0"; "1"; "2"; "3"; "probator"];
  add_transceiver_of _ _ w := (Some "0", w);
  add_transceiver _ _ _ w := (Some "0", w);
  remove_track _ _ w := (true, w);
  create_data_channel _ _ d w := (Some (init_id d), w);
  get_stats _ _ := JArray []; get_sender_stats _ _ _ := JArray [];
  get_receiver_stats _ _ _ := JArray [];
  mid t _ := Some t;
  set_direction _ _ w := w;
  set_track _ _ w := (true, w);
  get_parameters _ _ := [];
  set_parameters _ _ w := (None, w);
  receiver_track t _ := t;
  track_eq_dec := _;
  track_kind _ := "video";
  track_id t := t;
  track_ended _ _ := false;
  track_enabled _ _ := true;
  set_enabled _ _ w := w;
  channel_id c _ := c;
  close_channel _ w := w
|}.

#[export] Instance Echo_stopping : Stopping := {| stopped _ _ := false |}.
#[export] Instance Echo_lasting : LastingMids.
Proof. split; intros; intros w ?; (split; [intros m Hm; by left|by intros [? _]]). Qed.

Definition connected : json -> M World unit := fun _ => ret tt.

(** ** A stack that takes mids away

    The world is the remote descriptions so far.  A transceiver is the mid it was made for; it is
    stopped, and has no mid any more, once a description has its section with port 0. *)
Section Recycling.
Definition rejects (t sdp : string) : bool :=
  match parse sdp with
  | Ok session => existsb (fun media => String.eqb (text "mid" media) t &&
      (number (field "port" media) =? 0)) (array_at "media" session)
  | _ => false
  end.
Definition gone (t : string) (w : list string) : bool := existsb (rejects t) w.

#[local] Instance Recycling : Webrtc := {|
  World := list string; Pc := unit; Transceiver := string; Track := string; Channel := Z;
  Description := string;
  new_pc w := (Some tt, w);
  close_pc _ w := w;
  set_servers _ _ w := (None, w);
  create_offer _ _ w := (inl "no offer", w);
  create_answer _ w := (inr (default "" (head w)), w);
  create_description _ sdp := inr sdp;
  set_local_description _ _ w := (None, w);
  set_remote_description _ sdp w := (None, sdp :: w);
  local_description _ w := head w;
  get_transceivers _ _ := ["0"; "1"; "2"; "3"];
  add_transceiver_of _ _ w := (None, w);
  add_transceiver _ _ _ w := (None, w);
  remove_track _ _ w := (false, w);
  create_data_channel _ _ _ w := (None, w);
  get_stats _ _ := JArray []; get_sender_stats _ _ _ := JArray [];
  get_receiver_stats _ _ _ := JArray [];
  mid t w := if gone t w then None else Some t;
  set_direction _ _ w := w;
  set_track _ _ w := (true, w);
  get_parameters _ _ := [];
  set_parameters _ _ w := (None, w);
  receiver_track t _ := t;
  track_eq_dec := _;
  track_kind _ := "video";
  track_id t := t;
  track_ended _ _ := false;
  track_enabled _ _ := true;
  set_enabled _ _ w := w;
  channel_id c _ := c;
  close_channel _ w := w
|}.
#[local] Instance Recycling_stopping : Stopping := {| stopped := gone |}.

Lemma rejected_follows (sdp : string) (w : list string) : follows w (sdp :: w).
Proof.
  intros t. unfold dissociated, gone. simpl. unfold gone. simpl.
  destruct (rejects t sdp), (existsb (rejects t) w); simpl; split; auto; by intros ? ?.
Qed.
#[local] Instance Recycling_lasting : LastingMids.
Proof. split; intros; intros w; first [apply follows_refl|apply rejected_follows]. Qed.

(** Two consumers, the second of them stopped, and a third one that takes its section. *)
Definition sampleCalls : list recv_call :=
  [CallReceive "a" "video" (normRtpParameters sampleOffer);
   CallReceive "b" "video" (normRtpParameters sampleOffer);
   CallStopReceiving "1";
   CallReceive "c" "video" (normRtpParameters sampleOffer)].

Definition sampleRun : option (session * (Handler * World)) :=
  match Handler_new sampleIce sampleCandidates sampleDtls JNull JNull JNull [] with
  | (Ok h, w) => serve (fun _ => ret tt) JNull sampleCalls [] (h, w)
  | _ => None
  end.

End Recycling.
