(* ===== verification/SendHandlerSpec.v ===== *)
(** * The sending handler: the proofs

    The stream ids of the data channels, and what is left of a producer whose negotiation
    fails. *)

From stdpp Require Import gmap.
From S2P Require Import Prelude Json Validator OrtcValidate OrtcContracts OrtcValidated Ortc.
From S2P Require Import MediaSection MediaSectionSpec AnswerSection SdpWriter RemoteSdp SdpUtils.
From S2P Require Import SdpParser SdpCapabilities PeerConnection Handler HandlerFrame HandlerSpec.

Section Send.
Context `{Webrtc}.
Context (OnConnect : json -> M World unit).

(** ** The calls *)

Inductive send_call :=
| CallSend (track : option Track) (encodings : list RtpEncodingParameters)
    (codecOptions codec : option json)
| CallSendDataChannel (label : string) (dataChannelInit : DataChannelInit)
| CallStopSending (localId : string)
| CallReplaceTrack (localId : string) (track : option Track)
| CallSetMaxSpatialLayer (localId : string) (spatialLayer : Z)
| CallSendRestartIce (iceParameters : json)
| CallUpdateIceServers (iceServers : json)
| CallClose.

Definition send_perform (c : send_call) : HM unit :=
  match c with
  | CallSend track encodings codecOptions codec =>
      let! _ := SendHandler_Send OnConnect track encodings codecOptions codec in ret tt
  | CallSendDataChannel label d =>
      let! _ := SendHandler_SendDataChannel OnConnect label d in ret tt
  | CallStopSending localId => SendHandler_StopSending localId
  | CallReplaceTrack localId track => SendHandler_ReplaceTrack localId track
  | CallSetMaxSpatialLayer localId layer => SendHandler_SetMaxSpatialLayer localId layer
  | CallSendRestartIce ice => SendHandler_RestartIce ice
  | CallUpdateIceServers uris => UpdateIceServers uris
  | CallClose => Handler_Close
  end.

(** Everything but a data channel leaves the next stream id. *)
Lemma independent_next n : independent (fun h => nextSendSctpStreamId h = n).
Proof. by split. Qed.

Lemma leaves_other n c :
  (forall label d, c <> CallSendDataChannel label d) ->
  preserves (fun st => nextSendSctpStreamId st.1 = n) (send_perform c).
Proof.
  intros Hc. pose proof (independent_next n) as HQ. destruct c; unfold send_perform.
  - apply preserves_bind; [by apply (leaves_Send _ _ HQ)|preserve].
  - by destruct (Hc label dataChannelInit).
  - by apply (leaves_StopSending _ HQ).
  - apply (leaves_ReplaceTrack (fun h => nextSendSctpStreamId h = n)).
  - apply (leaves_SetMaxSpatialLayer (fun h => nextSendSctpStreamId h = n)).
  - by apply (leaves_SendRestartIce _ HQ).
  - apply (leaves_UpdateIceServers (fun h => nextSendSctpStreamId h = n)).
  - apply (leaves_HandlerClose (fun h => nextSendSctpStreamId h = n)).
Qed.

(** ** The stream ids *)

Lemma set_opt_object {A} k (f : A -> json) o m :
  exists m', set_opt k f o (JObject m) = (Ok tt, JObject m') /\
    forall k', k' <> k -> obj_find k' m' = obj_find k' m.
Proof.
  destruct o as [a|]; simpl; [|by exists m]. eexists. split; [reflexivity|].
  intros k' Hk. rewrite obj_find_insert. by apply String.eqb_neq in Hk as ->.
Qed.

Lemma sendingStream_id d streamId p :
  sendingStream d streamId = Ok p -> find "streamId" p = Some (JUInt streamId).
Proof.
  unfold sendingStream. cbv zeta. set (base := jobj _).
  destruct (set_opt_object "maxPacketLifeTime" JInt (maxRetransmitTime d)
    [("ordered", JBool (ordered d)); ("protocol", JString (protocol d));
     ("streamId", JUInt streamId)]) as (m1 & H1 & Hf1).
  destruct (set_opt_object "maxRetransmits" JInt (maxRetransmits d) m1) as (m2 & H2 & Hf2).
  rewrite (bind_of_ok _ _ base _ _ H1), (bind_of_ok _ _ _ _ _ H2).
  destruct (validateSctpStreamParameters (JObject m2)) as [[[]|e|] p'] eqn:Hv; simpl; [|done..].
  intros [= <-]. apply (validator_ok_iff (accept := acceptsSctpStreamParameters)
    (norm := normSctpStreamParameters)) in Hv as [_ ->].
  rewrite normSctpStreamParameters_find, Hf2, Hf1 by done. done.
Qed.

(** Whether a call creates a data channel, which is up to its parameters and to webrtc. *)
Definition opens (st : Handler * World) (c : send_call) : bool :=
  match c with
  | CallSendDataChannel label d =>
      let streamId := uint 16 (nextSendSctpStreamId st.1) in
      let d := set_negotiated (Some streamId) d in
      match sendingStream d streamId with
      | Ok _ => bool_decide (is_Some (fst (create_data_channel (pc st.1) label d st.2)))
      | _ => false
      end
  | _ => false
  end.

(** The states that are reached with [k] data channels created. *)
Inductive send_reachable : nat -> Handler * World -> Prop :=
| sent_new ice candidates dtls sctp p remote w w' h :
    Handler_new ice candidates dtls sctp p remote w = (Ok h, w') -> send_reachable 0 (h, w')
| sent_call k st c :
    send_reachable k st -> fst (send_perform c st) <> Undef ->
    send_reachable (if opens st c then S k else k) (snd (send_perform c st))
| sent_webrtc k h w w' : send_reachable k (h, w) -> send_reachable k (h, w').

Lemma SendDataChannel_run label d h w :
  let streamId := uint 16 (nextSendSctpStreamId h) in
  let '(r, st) := SendHandler_SendDataChannel OnConnect label d (h, w) in
  nextSendSctpStreamId st.1 =
    (if opens (h, w) (CallSendDataChannel label d)
     then uint 32 (nextSendSctpStreamId h + 1) mod SctpNumStreamsMis
     else nextSendSctpStreamId h) /\
  (forall c, r = Ok c -> opens (h, w) (CallSendDataChannel label d) = true /\
     find "streamId" (sctpStreamParameters c) = Some (JUInt streamId)).
Proof.
  intros streamId. unfold SendHandler_SendDataChannel, opens. rewrite run_bind_get. cbn [fst snd].
  fold streamId. set (d' := set_negotiated (Some streamId) d).
  destruct (sendingStream d' streamId) as [p|e|] eqn:Hp; [|by unfold bind, lift..].
  change (lift (Ok p)) with (ret p : HM json). rewrite run_bind_ret.
  unfold CreateDataChannel, on_pc, bind at 1, bind at 1, call. simpl.
  destruct (create_data_channel (pc h) label d' w) as [[c|] w'] eqn:Hc; simpl; [|done].
  set (h1 := set_nextSendSctpStreamId
    (uint 32 (nextSendSctpStreamId h + 1) mod SctpNumStreamsMis) h). unfold bind at 1, update. simpl.
  pose proof (preserves_when _ (negb (hasDataChannelMediaSection h)) _
    (leaves_sendApplicationSection OnConnect _ (independent_next (nextSendSctpStreamId h1)))
    (h1, w') eq_refl) as Hk.
  unfold bind. destruct (when _ _ _) as [[[]|e|] st]; simpl in *; (split; [exact Hk|]);
    [|done..]. intros ? [= <-]. split; [done|]. by apply (sendingStream_id d').
Qed.

Lemma send_next k st : send_reachable k st -> nextSendSctpStreamId st.1 = Z.of_nat k mod 1024.
Proof.
  induction 1 as [ice candidates dtls sctp p remote w w' h Hn|k [h w] c _ IH _|k h w w' _ IH].
  - unfold Handler_new in Hn. do 3 (apply bind_ok in Hn as (? & ? & _ & Hn)). by injection Hn as <-.
  - pose proof (fun Hc => leaves_other (Z.of_nat k mod 1024) c Hc (h, w) IH) as Ho.
    destruct c; try (by apply Ho). clear Ho. unfold send_perform. rewrite snd_bind_ret. pose proof (SendDataChannel_run label dataChannelInit h w) as Hr.
    cbv zeta in Hr. destruct (SendHandler_SendDataChannel _ _ _ _) as [r st].
    destruct Hr as [Hr _]. simpl snd. rewrite Hr. simpl in IH.
    destruct (opens _ _); [|exact IH]. rewrite IH. unfold uint, SctpNumStreamsMis.
    pose proof (Z.mod_pos_bound (Z.of_nat k) 1024 ltac:(lia)).
    rewrite (Z.mod_small (_ + 1)) by lia. rewrite Zplus_mod_idemp_l. f_equal. lia.
  - exact IH.
Qed.

(** C25. The data channels of a SendHandler are numbered within the streams it announced: after
    any calls, failed ones included, in which webrtc created [k] channels, the next channel
    that is returned has stream [k mod 1024].  So every id is below the announced number of
    streams, and ids repeat only after as many channels. *)
Theorem SendDataChannel_streamIds (k : nat) (st st' : Handler * World) (label : string)
    (d : DataChannelInit) (c : DataChannel)
    (Hreach : send_reachable k st)
    (Hsend : SendHandler_SendDataChannel OnConnect label d st = (Ok c, st')) :
  find "streamId" (sctpStreamParameters c) = Some (JUInt (Z.of_nat k mod SctpNumStreamsMis)) /\
  0 <= Z.of_nat k mod SctpNumStreamsMis < SctpNumStreamsOs /\
  send_reachable (S k) st'.
Proof.
  destruct st as [h w]. pose proof (send_next _ _ Hreach) as Hn. simpl in Hn.
  pose proof (SendDataChannel_run label d h w) as Hr. cbv zeta in Hr. rewrite Hsend in Hr.
  destruct Hr as [_ Hr]. destruct (Hr c eq_refl) as [Ho ->].
  pose proof (Z.mod_pos_bound (Z.of_nat k) 1024 ltac:(lia)).
  split; [|split; [unfold SctpNumStreamsMis, SctpNumStreamsOs; lia|]].
  - rewrite Hn. unfold uint. by rewrite (Z.mod_small (_ mod 1024)) by lia.
  - pose proof (sent_call k (h, w) (CallSendDataChannel label d) Hreach) as Hc.
    unfold send_perform in Hc. rewrite snd_bind_ret, Ho in Hc. rewrite Hsend in Hc.
    apply Hc. by rewrite (bind_of_ok _ _ _ _ _ Hsend).
Qed.
End Send.

(** An offer with a data channel section. *)
Definition sampleApplication : string := String.concat crlf
  ["v=0"; "o=- 1 1 IN IP4 0.0.0.0"; "s=-"; "t=0 0"; "a=fingerprint:sha-256 82:5A";
   "a=group:BUNDLE 0"; "m=application 9 UDP/DTLS/SCTP webrtc-datachannel"; "c=IN IP4 0.0.0.0";
   "a=setup:actpass"; "a=mid:0"; "a=sctp-port:5000"; "a=max-message-size:262144"; ""].

Definition sampleSctpParameters : json :=
  jobj [("port", JUInt 5000); ("OS", JUInt 1024); ("MIS", JUInt 1024);
        ("maxMessageSize", JUInt 262144)].

Definition sampleInit : DataChannelInit :=
  {| reliable := false; ordered := true; maxRetransmitTime := None; maxRetransmits := None;
     protocol := "chat"; init_negotiated := false; init_id := -1; priority := None |}.

Definition sampleSending : option (Handler * World) :=
  match Handler_new sampleIce sampleCandidates sampleDtls sampleSctpParameters JNull JNull
          sampleApplication with
  | (Ok h, w) => Some (h, w)
  | _ => None
  end.

Lemma SendDataChannel_streamIds_witness :
  exists (st st' : Handler * World) (c : DataChannel), sampleSending = Some st /\
    SendHandler_SendDataChannel connected "a" sampleInit st = (Ok c, st') /\
    find "streamId" (sctpStreamParameters c) = Some (JUInt 0) /\
    send_reachable connected 1 st'.
Proof.
  assert (Hok : match sampleSending with
    | Some st => match fst (SendHandler_SendDataChannel connected "a" sampleInit st) with
                 | Ok _ => true | _ => false end
    | None => false end = true) by (vm_compute; reflexivity).
  destruct sampleSending as [st|] eqn:E; [|discriminate]. unfold sampleSending in E.
  destruct (Handler_new _ _ _ _ _ _ _) as [[h|e|] w] eqn:Hn; try discriminate.
  destruct (SendHandler_SendDataChannel _ _ _ _) as [[c|e|] st'] eqn:Hs; try discriminate.
  exists st, st', c. split; [reflexivity|]. split; [exact Hs|]. injection E as <-.
  destruct (SendDataChannel_streamIds connected 0 _ _ _ _ _
    (sent_new _ _ _ _ _ _ _ _ _ _ Hn) Hs) as (Hid & _ & Hr).
  split; [exact Hid|exact Hr].
Defined.
