(* ===== verification/TransportSpec.v ===== *)
(** * The transports: the proofs

    The maps of a transport know every object that is still open, so closing the transport
    closes all of them and tells each listener once. *)

From stdpp Require Import gmap.
From S2P Require Import Prelude Json OrtcValidate Ortc MediaSection RemoteSdp.
From S2P Require Import MediaSectionSpec OrtcExtended AnswerSection SdpWriter PeerConnection.
From S2P Require Import Handler HandlerFrame HandlerSpec SendHandlerSpec Transport SendTransport RecvTransport.

(** ** Registries *)

Section Registry.
Context {A : Type} (key : A -> string) (closed : A -> bool).
Implicit Types r : Registry A.

Record registry_ok r : Prop := {
  registered_object id p : byId r !! id = Some p ->
    exists a, objects r !! p = Some a /\ key a = id;
  open_registered p a : objects r !! p = Some a -> closed a = false -> byId r !! key a = Some p
}.

Lemma ok_no_objects : registry_ok no_objects.
Proof. split; intros ??; simpl; [by rewrite lookup_empty|done]. Qed.

Lemma ok_register r a :
  registry_ok r -> byId r !! key a = None -> registry_ok (register (key a) a r).
Proof.
  intros [Hreg Hopen] Hfresh. split; simpl.
  - intros id p [[<- <-]|[Hne Hp]]%lookup_insert_Some.
    + exists a. split; [|done]. by rewrite lookup_app_r, Nat.sub_diag by lia.
    + destruct (Hreg _ _ Hp) as (b & Hb & <-). exists b. split; [by apply lookup_app_l_Some|done].
  - intros p b [Hb|[Hl Hb]]%lookup_app_Some Hc.
    + pose proof (Hopen _ _ Hb Hc) as Hp. rewrite lookup_insert_ne; [done|congruence].
    + apply list_lookup_singleton_Some in Hb as [Hl0 <-]. rewrite lookup_insert_eq. f_equal. simpl in *. lia.
Qed.

Lemma ok_set r p a a' :
  registry_ok r -> objects r !! p = Some a -> key a' = key a ->
  (closed a' = false -> closed a = false) -> registry_ok (set_object p a' r).
Proof.
  intros [Hreg Hopen] Ha Hk Hc. pose proof (lookup_lt_Some _ _ _ Ha) as Hl. split; simpl.
  - intros id q Hq. destruct (Hreg _ _ Hq) as (b & Hb & <-). destruct (decide (p = q)) as [<-|Hne].
    + exists a'. rewrite list_lookup_insert_eq by done. split; [done|]. rewrite Hk. congruence.
    + exists b. by rewrite list_lookup_insert_ne.
  - intros q b Hb Hcb. destruct (decide (p = q)) as [<-|Hne].
    + rewrite list_lookup_insert_eq in Hb by done. injection Hb as <-. rewrite Hk. auto.
    + rewrite list_lookup_insert_ne in Hb by done. auto.
Qed.

Lemma ok_close r p a a' :
  registry_ok r -> objects r !! p = Some a -> closed a = false -> key a' = key a ->
  closed a' = true -> registry_ok (unregister (key a) (set_object p a' r)).
Proof.
  intros Hok Ha Hopen Hk Hc'. pose proof (open_registered _ Hok _ _ Ha Hopen) as Hp.
  destruct (ok_set r p a a' Hok Ha Hk) as [Hreg' Hopen']; [by rewrite Hc'|]. split; simpl in *.
  - intros id q [_ Hq]%lookup_delete_Some. auto.
  - intros q b Hb Hcb. pose proof (Hopen' q b Hb Hcb) as Hq. apply lookup_delete_Some.
    split; [|done]. intros Heq. rewrite <- Heq, Hp in Hq. injection Hq as <-.
    rewrite list_lookup_insert_eq in Hb by by eapply lookup_lt_Some. congruence.
Qed.

Lemma pointers_NoDup r : registry_ok r -> NoDup (pointers r).
Proof.
  intros [Hreg _]. unfold pointers. apply NoDup_fmap_2_strong; [|apply NoDup_map_to_list].
  intros [id p] [id' p'] H%elem_of_map_to_list H'%elem_of_map_to_list. simpl. intros <-.
  destruct (Hreg _ _ H) as (a & Ha & <-), (Hreg _ _ H') as (a' & Ha' & <-). congruence.
Qed.

Lemma elem_of_pointers r p :
  p ∈ pointers r <-> exists id, byId r !! id = Some p.
Proof.
  unfold pointers. rewrite list_elem_of_fmap. split.
  - intros ([id q] & -> & H%elem_of_map_to_list). eauto.
  - intros [id H%elem_of_map_to_list]. by exists (id, p).
Qed.

(** The objects that are open. *)
Definition is_open r (p : nat) : bool :=
  match objects r !! p with Some a => negb (closed a) | None => false end.

Lemma open_in_pointers r p : registry_ok r -> is_open r p = true -> p ∈ pointers r.
Proof.
  intros Hok. unfold is_open. destruct (objects r !! p) as [a|] eqn:Ha; [|done].
  intros Hc%negb_true_iff. apply elem_of_pointers. exists (key a). by apply (open_registered r).
Qed.
End Registry.

(** ** The loop that closes the objects of a map *)

Section Loop.
Context {S A : Type} (reg : S -> Registry A) (told : S -> list event).
Context (closed : A -> bool) (close : A -> A) (tell : nat -> event) (f : nat -> M S unit).
Context (same : S -> S -> Prop) `{!PreOrder same}.
Context (close_closed : forall a, closed (close a) = true).
Context (f_closed : forall s p a, objects (reg s) !! p = Some a -> closed a = true ->
  f p s = (Ok tt, s)).
Context (f_open : forall s p a, objects (reg s) !! p = Some a -> closed a = false ->
  exists s', f p s = (Ok tt, s') /\ same s s' /\ reg s' = set_object p (close a) (reg s) /\
    told s' = told s ++ [tell p]).

Lemma is_open_set (r : Registry A) p q a :
  p <> q -> is_open closed (set_object p a r) q = is_open closed r q.
Proof. intros Hne. unfold is_open. simpl. by rewrite list_lookup_insert_ne. Qed.

Lemma close_each l s :
  NoDup l -> Forall (fun p => is_Some (objects (reg s) !! p)) l ->
  exists s', for_pointers f l s = (Ok tt, s') /\ same s s' /\
    told s' = told s ++ map tell (List.filter (is_open closed (reg s)) l) /\
    Forall (fun p => is_open closed (reg s') p = false) l /\
    (forall p, p ∉ l -> is_open closed (reg s') p = is_open closed (reg s) p).
Proof.
  intros Hd. revert s. induction Hd as [|p l Hp Hd IH]; intros s Hl.
  { exists s. rewrite app_nil_r. by split_and!. }
  apply Forall_cons in Hl as [[a Ha] Hl]. cbn [for_pointers].
  destruct (closed a) eqn:Hc.
  - destruct (IH s Hl) as (s' & Hrun & Hs & Ht & Hall & Hother). exists s'.
    rewrite (bind_of_ok _ _ _ _ _ (f_closed s p a Ha Hc)).
    assert (Hf : is_open closed (reg s) p = false) by (unfold is_open; by rewrite Ha, Hc).
    cbn [List.filter]. rewrite Hf. split_and!; try done.
    + constructor; [by rewrite Hother|done].
    + intros q [_ Hq]%not_elem_of_cons. auto.
  - destruct (f_open s p a Ha Hc) as (s1 & H1 & Hs1 & Hr1 & Ht1).
    rewrite (bind_of_ok _ _ _ _ _ H1). destruct (IH s1) as (s' & Hrun & Hs & Ht & Hall & Hother).
    { rewrite Hr1. eapply Forall_impl; [exact Hl|]. intros q [b Hb]. simpl.
      apply lookup_lt_is_Some_2. simpl. rewrite length_insert. by eapply lookup_lt_Some. }
    exists s'. assert (Hf : is_open closed (reg s) p = true) by (unfold is_open; by rewrite Ha, Hc).
    cbn [List.filter]. rewrite Hf, Ht, Ht1, <- app_assoc. split_and!; [done|by etransitivity| | |].
    + simpl. do 3 f_equal. rewrite Hr1. apply List.filter_ext_in. intros q Hq.
      apply is_open_set. intros ->. by apply Hp, list_elem_of_In.
    + constructor; [|done]. rewrite Hother, Hr1 by done. unfold is_open. simpl.
      by rewrite list_lookup_insert_eq, close_closed by by eapply lookup_lt_Some.
    + intros q [Hne Hq]%not_elem_of_cons. rewrite Hother, Hr1 by done. by apply is_open_set.
Qed.

(** Every object that was open is told once, and none is open afterwards. *)
Lemma close_all key s :
  registry_ok key closed (reg s) ->
  exists s' l, for_pointers f (pointers (reg s)) s = (Ok tt, s') /\ same s s' /\
    told s' = told s ++ map tell l /\ NoDup l /\
    (forall p, p ∈ l <-> is_open closed (reg s) p = true) /\
    (forall p, is_open closed (reg s') p = false).
Proof.
  intros Hok. pose proof (pointers_NoDup key closed _ Hok) as Hd.
  destruct (close_each (pointers (reg s)) s Hd) as (s' & Hrun & Hs & Ht & Hall & Hother).
  { apply Forall_forall. intros p [id Hp]%elem_of_pointers.
    destruct (registered_object _ _ _ Hok _ _ Hp) as (a & -> & _). eauto. }
  exists s', (List.filter (is_open closed (reg s)) (pointers (reg s))). split_and!; try done.
  - by apply NoDup_ListNoDup, List.NoDup_filter, NoDup_ListNoDup.
  - intros p. rewrite list_elem_of_In, List.filter_In, <- list_elem_of_In.
    split; [by intros [_ ?]|]. intros Ho. split; [by eapply open_in_pointers|done].
  - intros p. destruct (decide (p ∈ pointers (reg s))) as [Hp|Hp].
    + rewrite Forall_forall in Hall. auto.
    + rewrite Hother by done. apply not_true_iff_false. intros Ho. apply Hp.
      by eapply open_in_pointers.
Qed.
End Loop.

(** ** The sending transport *)

Section Send.
Context `{Webrtc}.
Context (OnConnect : json -> M World unit).
Context (OnProduce : string -> json -> json -> M World string).
Context (OnProduceData : json -> string -> string -> json -> M World string).

Inductive send_op :=
| OpProduce (track : option Track) (encodings : option (list RtpEncodingParameters))
    (codecOptions codec : option json) (appData : json)
| OpProduceData (label protocol : string) (ordered : bool)
    (maxRetransmits maxPacketLifeTime : Z) (appData : json)
| OpSendClose
| OpProducerClose (p : nat)
| OpDataProducerClose (p : nat)
| OpProducerSetEnabled (b : bool) (p : nat)
| OpProducerReplaceTrack (p : nat) (track : option Track)
| OpProducerSetMaxSpatialLayer (p : nat) (spatialLayer : Z)
| OpSendRestartIce (iceParameters : json)
| OpSendUpdateIceServers (iceServers : json)
| OpSendConnectionState (s : IceConnectionState).

Definition send_run (o : send_op) : SM unit :=
  match o with
  | OpProduce track encodings options codec appData =>
      let! _ := SendTransport_Produce OnConnect OnProduce track encodings options codec appData in
      ret tt
  | OpProduceData label protocol ordered n t appData =>
      let! _ := SendTransport_ProduceData OnConnect OnProduceData label protocol ordered n t
                  appData in ret tt
  | OpSendClose => SendTransport_Close
  | OpProducerClose p => Producer_Close p
  | OpDataProducerClose p => DataProducer_Close p
  | OpProducerSetEnabled b p => Producer_setEnabled b p
  | OpProducerReplaceTrack p track => Producer_ReplaceTrack p track
  | OpProducerSetMaxSpatialLayer p n => Producer_SetMaxSpatialLayer p n
  | OpSendRestartIce ice => SendTransport_RestartIce ice
  | OpSendUpdateIceServers uris => Transport_UpdateIceServers uris
  | OpSendConnectionState s => Transport_OnConnectionStateChange s
  end.

(** The application gives a new id to every producer and data producer. *)
Definition fresh_id (st : SendTransport * World) (o : send_op) : bool :=
  match o with
  | OpProduce track encodings options codec appData =>
      match fst (newProducer OnConnect OnProduce track encodings options codec appData st) with
      | Ok a => bool_decide (byId (producers st.1) !! producer_id a = None)
      | _ => true
      end
  | OpProduceData label protocol ordered n t appData =>
      match fst (newDataProducer OnConnect OnProduceData label protocol ordered n t appData st) with
      | Ok a => bool_decide (byId (dataProducers st.1) !! dataProducer_id a = None)
      | _ => true
      end
  | _ => true
  end.

Definition producers_ok (r : Registry Producer) : Prop :=
  registry_ok producer_id producer_closed r.
Definition dataProducers_ok (r : Registry DataProducer) : Prop :=
  registry_ok dataProducer_id dataProducer_closed r.
Definition send_maps_ok (st : SendTransport * World) : Prop :=
  producers_ok (producers st.1) /\ dataProducers_ok (dataProducers st.1).

(** The handler, webrtc and the application do not touch the maps. *)
Section Frame.
Context (r : Registry Producer) (d : Registry DataProducer).

Abbreviation frames :=
  (preserves (fun st : SendTransport * World => producers st.1 = r /\ dataProducers st.1 = d)).

Lemma frames_on_handler {A} (f : HM A) : frames (on_handler f).
Proof. intros [t w] Ht. unfold on_handler. simpl. by destruct (f _) as [? []]. Qed.
Lemma frames_in_world {A} (f : M World A) : frames (in_world f).
Proof. intros [t w] Ht. unfold in_world. simpl. by destruct (f w). Qed.
Lemma frames_update_base f : frames (update_base f).
Proof. by intros [t w]. Qed.
Lemma frames_isClosed : frames isClosed.
Proof. by intros [t w]. Qed.
Lemma frames_producerAt p : frames (producerAt p).
Proof. intros [t w] Ht. unfold producerAt. by destruct (_ !! p). Qed.
#[local] Hint Resolve frames_on_handler frames_in_world frames_update_base frames_isClosed
  frames_producerAt : preserve.

Lemma frames_ensureOpen msg : frames (ensureOpen msg).
Proof. unfold ensureOpen. preserve. Qed.
Lemma frames_notify l : frames (notify l).
Proof. apply frames_update_base. Qed.
#[local] Hint Resolve frames_ensureOpen frames_notify : preserve.

Lemma frames_newProducer track encodings options codec appData :
  frames (newProducer OnConnect OnProduce track encodings options codec appData).
Proof.
  unfold newProducer. apply preserves_bind; [preserve|]. intros _. destruct track; [|preserve].
  do 3 (apply preserves_bind; [preserve|intros ?]).
  apply preserves_bind; [destruct options; preserve|intros ?].
  apply preserves_bind; [preserve|intros ?]. unfold announceProducer. preserve.
Qed.
Lemma frames_newDataProducer label protocol ordered n t appData :
  frames (newDataProducer OnConnect OnProduceData label protocol ordered n t appData).
Proof. unfold newDataProducer. preserve. Qed.
Lemma frames_setEnabled b p : frames (Producer_setEnabled b p).
Proof. unfold Producer_setEnabled. preserve. Qed.
Lemma frames_RestartIce ice : frames (SendTransport_RestartIce ice).
Proof. unfold SendTransport_RestartIce, Transport_RestartIce. preserve. Qed.
Lemma frames_UpdateIceServers uris : frames (Transport_UpdateIceServers uris).
Proof. unfold Transport_UpdateIceServers. preserve. Qed.
Lemma frames_ConnectionState s : frames (Transport_OnConnectionStateChange s).
Proof. unfold Transport_OnConnectionStateChange. preserve. Qed.
Lemma frames_Transport_Close : frames Transport_Close.
Proof. unfold Transport_Close. preserve. Qed.
End Frame.

Lemma framed_maps {A} (m : SM A) :
  (forall r d, preserves (fun st => producers st.1 = r /\ dataProducers st.1 = d) m) ->
  preserves send_maps_ok m.
Proof.
  intros Hm st [H1 H2]. destruct (Hm (producers st.1) (dataProducers st.1) st) as [E1 E2]; [done|].
  split; by rewrite ?E1, ?E2.
Qed.

Lemma snd_done {T A} (m : M T A) st : snd (bind m (fun _ => ret tt) st) = snd (m st).
Proof. unfold bind. by destruct (m st) as [[] ?]. Qed.

Lemma Produce_maps track encodings options codec appData st :
  send_maps_ok st -> fresh_id st (OpProduce track encodings options codec appData) = true ->
  send_maps_ok (snd (SendTransport_Produce OnConnect OnProduce track encodings options codec
                       appData st)).
Proof.
  intros [Hp Hd] Hf. unfold fresh_id in Hf. unfold SendTransport_Produce, bind at 1.
  destruct (frames_newProducer (producers st.1) (dataProducers st.1) track encodings options codec
    appData st) as [E1 E2]; [done|].
  destruct (newProducer _ _ _ _ _ _ _ _) as [[a|e|] st']; simpl in *;
    try (split; by rewrite ?E1, ?E2).
  apply bool_decide_eq_true in Hf. split; simpl; rewrite ?E1, ?E2; [|done]. by apply ok_register.
Qed.

Lemma ProduceData_maps label protocol ordered n t appData st :
  send_maps_ok st -> fresh_id st (OpProduceData label protocol ordered n t appData) = true ->
  send_maps_ok (snd (SendTransport_ProduceData OnConnect OnProduceData label protocol ordered n t
                       appData st)).
Proof.
  intros [Hp Hd] Hf. unfold fresh_id in Hf. unfold SendTransport_ProduceData, bind at 1.
  destruct (frames_newDataProducer (producers st.1) (dataProducers st.1) label protocol ordered n t
    appData st) as [E1 E2]; [done|].
  destruct (newDataProducer _ _ _ _ _ _ _ _ _) as [[a|e|] st']; simpl in *;
    try (split; by rewrite ?E1, ?E2).
  apply bool_decide_eq_true in Hf. split; simpl; rewrite ?E1, ?E2; [done|]. by apply ok_register.
Qed.

(** An operation on the object of a pointer, and on that of a dangling one. *)
Lemma with_producer {A} p (k : Producer -> SM A) st :
  send_maps_ok st ->
  (forall a, objects (producers st.1) !! p = Some a -> send_maps_ok (snd (k a st))) ->
  send_maps_ok (snd (bind (producerAt p) k st)).
Proof.
  intros Hst Hk. unfold bind, producerAt. destruct (objects (producers st.1) !! p); [auto|done].
Qed.
Lemma with_dataProducer {A} p (k : DataProducer -> SM A) st :
  send_maps_ok st ->
  (forall a, objects (dataProducers st.1) !! p = Some a -> send_maps_ok (snd (k a st))) ->
  send_maps_ok (snd (bind (dataProducerAt p) k st)).
Proof.
  intros Hst Hk. unfold bind, dataProducerAt.
  destruct (objects (dataProducers st.1) !! p); [auto|done].
Qed.

Lemma run_update_producers {A} f (k : unit -> SM A) st :
  bind (update_producers f) k st = k tt (set_producers (f (producers st.1)) st.1, st.2).
Proof. reflexivity. Qed.
Lemma run_update_dataProducers {A} f (k : unit -> SM A) st :
  bind (update_dataProducers f) k st = k tt (set_dataProducers (f (dataProducers st.1)) st.1, st.2).
Proof. reflexivity. Qed.
Lemma ProducerClose_maps p : preserves send_maps_ok (Producer_Close p).
Proof.
  intros st Hst. apply with_producer; [done|]. intros a Ha.
  destruct (producer_closed a) eqn:Hc; [done|]. cbn [negb when]. unfold SendTransport_OnClose.
  rewrite !run_update_producers. apply preserves_bind.
  - apply framed_maps. intros r d. apply frames_isClosed.
  - intros b. apply preserves_when, framed_maps. intros r d. apply frames_on_handler.
  - destruct Hst as [Hp Hd]. split; [|done]. by apply (ok_close producer_id producer_closed).
Qed.
Lemma DataProducerClose_maps p : preserves send_maps_ok (DataProducer_Close p).
Proof.
  intros st Hst. apply with_dataProducer; [done|]. intros a Ha.
  destruct (dataProducer_closed a) eqn:Hc; [done|]. cbn [negb when].
  rewrite run_update_dataProducers. destruct Hst as [Hp Hd]. split; [done|].
  by apply (ok_close dataProducer_id dataProducer_closed).
Qed.
Lemma ProducerTransportClosed_maps p : preserves send_maps_ok (Producer_TransportClosed p).
Proof.
  intros st Hst. apply with_producer; [done|]. intros a Ha.
  destruct (producer_closed a) eqn:Hc; [done|]. destruct Hst as [Hp Hd]. split; [|done].
  by apply (ok_set producer_id producer_closed _ _ a).
Qed.
Lemma DataProducerTransportClosed_maps p : preserves send_maps_ok (DataProducer_TransportClosed p).
Proof.
  intros st Hst. apply with_dataProducer; [done|]. intros a Ha.
  destruct (dataProducer_closed a) eqn:Hc; [done|]. destruct Hst as [Hp Hd]. split; [done|].
  by apply (ok_set dataProducer_id dataProducer_closed _ _ a).
Qed.

Lemma ReplaceTrack_maps p track : preserves send_maps_ok (Producer_ReplaceTrack p track).
Proof.
  intros st Hst. apply with_producer; [done|]. intros a Ha. rewrite run_bind_throw_if.
  destruct (producer_closed a) eqn:Hc; [done|]. destruct track as [track|]; [|done].
  rewrite run_bind_get, run_bind_throw_if. destruct (track_ended track st.2); [done|].
  case_bool_decide; [done|].
  pose proof (frames_on_handler (producers st.1) (dataProducers st.1)
    (SendHandler_ReplaceTrack (producer_localId a) (Some track)) st) as [E1 E2]; [done|].
  unfold SendTransport_OnReplaceTrack, bind at 1.
  destruct (on_handler _ st) as [[[]|e|] st']; simpl in *; try (split; by rewrite ?E1, ?E2; apply Hst).
  split; simpl; rewrite ?E1, ?E2; [|apply Hst].
  apply (ok_set producer_id producer_closed _ _ a); [apply Hst|done..].
Qed.
Lemma SetMaxSpatialLayer_maps p n : preserves send_maps_ok (Producer_SetMaxSpatialLayer p n).
Proof.
  intros st Hst. apply with_producer; [done|]. intros a Ha. rewrite !run_bind_throw_if.
  destruct (producer_closed a) eqn:Hc; [done|]. destruct (negb _); [done|].
  destruct (n =? maxSpatialLayer a); [done|].
  pose proof (frames_on_handler (producers st.1) (dataProducers st.1)
    (SendHandler_SetMaxSpatialLayer (producer_localId a) n) st) as [E1 E2]; [done|].
  unfold SendTransport_OnSetMaxSpatialLayer, bind at 1.
  destruct (on_handler _ st) as [[[]|e|] st']; simpl in *; try (split; by rewrite ?E1, ?E2; apply Hst).
  split; simpl; rewrite ?E1, ?E2; [|apply Hst].
  apply (ok_set producer_id producer_closed _ _ a); [apply Hst|done..].
Qed.

Lemma for_pointers_preserves {T} (P : T -> Prop) (f : nat -> M T unit) l :
  (forall p, preserves P (f p)) -> preserves P (for_pointers f l).
Proof.
  intros Hf. induction l; simpl; [apply preserves_ret|by apply preserves_bind].
Qed.
Lemma Close_maps : preserves send_maps_ok SendTransport_Close.
Proof.
  unfold SendTransport_Close. apply preserves_bind; [by intros st|]. intros b.
  apply preserves_when, preserves_bind; [apply framed_maps, frames_Transport_Close|]. intros _.
  apply preserves_bind; [by intros st|]. intros st.
  apply preserves_bind; [apply for_pointers_preserves, ProducerTransportClosed_maps|]. intros _.
  apply preserves_bind; [by intros ?|]. intros st'.
  apply for_pointers_preserves, DataProducerTransportClosed_maps.
Qed.

Lemma send_run_maps o st :
  send_maps_ok st -> fresh_id st o = true -> send_maps_ok (snd (send_run o st)).
Proof.
  intros Hst Hf. destruct o; unfold send_run; rewrite ?snd_done.
  - by apply Produce_maps.
  - by apply ProduceData_maps.
  - by apply Close_maps.
  - by apply ProducerClose_maps.
  - by apply DataProducerClose_maps.
  - apply framed_maps; [|done]. intros. apply frames_setEnabled.
  - by apply ReplaceTrack_maps.
  - by apply SetMaxSpatialLayer_maps.
  - apply framed_maps; [|done]. intros. apply frames_RestartIce.
  - apply framed_maps; [|done]. intros. apply frames_UpdateIceServers.
  - apply framed_maps; [|done]. intros. apply frames_ConnectionState.
Qed.

(** The states of a sending transport: the calls of the application, whether they return or
    throw, and what webrtc does by itself. *)
Inductive send_transport_reachable : SendTransport * World -> Prop :=
| created id ice candidates dtls sctp extended can appData w t w' :
    SendTransport_new id ice candidates dtls sctp extended can appData w = (Ok t, w') ->
    send_transport_reachable (t, w')
| called st o :
    send_transport_reachable st -> fresh_id st o = true -> fst (send_run o st) <> Undef ->
    send_transport_reachable (snd (send_run o st))
| proceeded t w w' : send_transport_reachable (t, w) -> send_transport_reachable (t, w').

Lemma reachable_maps st : send_transport_reachable st -> send_maps_ok st.
Proof.
  induction 1 as [id ice candidates dtls sctp extended can appData w t w' Hn|st o _ IH Hf _|t w w' _ IH].
  - unfold SendTransport_new in Hn. do 6 (apply bind_ok in Hn as (? & ? & _ & Hn)).
    injection Hn as <- _. split; apply ok_no_objects.
  - by apply send_run_maps.
  - exact IH.
Qed.

(** Runs the calls, each from a given state of webrtc. *)
Fixpoint play (l : list (send_op * World)) (st : SendTransport * World) :
    option (SendTransport * World) :=
  match l with
  | [] => Some st
  | (o, w) :: l =>
      if fresh_id (st.1, w) o then
        match send_run o (st.1, w) with
        | (Undef, _) => None
        | (_, st') => play l st'
        end
      else None
  end.

Lemma play_reachable l st st' :
  send_transport_reachable st -> play l st = Some st' -> send_transport_reachable st'.
Proof.
  revert st. induction l as [|[o w] l IH]; intros [t w0] Hst; simpl; [by intros [= <-]|].
  destruct (fresh_id (t, w) o) eqn:Hf; [|done].
  pose proof (called (t, w) o (proceeded _ _ _ Hst) Hf) as Hc.
  destruct (send_run o (t, w)) as [[a|e|] st1]; [by apply IH, Hc..|done].
Qed.

Definition told (st : SendTransport * World) : list event := events (send_base st.1).
Definition is_closed (st : SendTransport * World) : bool := transport_closed (send_base st.1).

Definition same_data (s s' : SendTransport * World) : Prop :=
  dataProducers s'.1 = dataProducers s.1 /\ is_closed s' = is_closed s.
Definition same_media (s s' : SendTransport * World) : Prop :=
  producers s'.1 = producers s.1 /\ is_closed s' = is_closed s.
#[local] Instance same_data_preorder : PreOrder same_data.
Proof. split; [done|]. intros ??? [? ?] [? ?]. split; congruence. Qed.
#[local] Instance same_media_preorder : PreOrder same_media.
Proof. split; [done|]. intros ??? [? ?] [? ?]. split; congruence. Qed.

Lemma close_producers st :
  producers_ok (producers st.1) ->
  exists st' l, for_pointers Producer_TransportClosed (pointers (producers st.1)) st = (Ok tt, st') /\
    same_data st st' /\ told st' = told st ++ map ProducerTransportClose l /\ NoDup l /\
    (forall p, p ∈ l <-> is_open producer_closed (producers st.1) p = true) /\
    (forall p, is_open producer_closed (producers st'.1) p = false).
Proof.
  intros Hok. eapply (close_all (fun st => producers st.1) told producer_closed close_producer
    ProducerTransportClose Producer_TransportClosed same_data); try done.
  - intros s p a Ha Hc. unfold Producer_TransportClosed, bind, producerAt. by rewrite Ha, Hc.
  - intros s p a Ha Hc. unfold Producer_TransportClosed, bind, producerAt. rewrite Ha, Hc. simpl.
    eexists. by split_and!.
Qed.
Lemma close_dataProducers st :
  dataProducers_ok (dataProducers st.1) ->
  exists st' l,
    for_pointers DataProducer_TransportClosed (pointers (dataProducers st.1)) st = (Ok tt, st') /\
    same_media st st' /\ told st' = told st ++ map DataProducerTransportClose l /\ NoDup l /\
    (forall p, p ∈ l <-> is_open dataProducer_closed (dataProducers st.1) p = true) /\
    (forall p, is_open dataProducer_closed (dataProducers st'.1) p = false).
Proof.
  intros Hok. eapply (close_all (fun st => dataProducers st.1) told dataProducer_closed
    close_dataProducer DataProducerTransportClose DataProducer_TransportClosed same_media); try done.
  - intros s p a Ha Hc. unfold DataProducer_TransportClosed, bind, dataProducerAt. by rewrite Ha, Hc.
  - intros s p a Ha Hc. unfold DataProducer_TransportClosed, bind, dataProducerAt. rewrite Ha, Hc.
    simpl. eexists. by split_and!.
Qed.

Lemma run_Transport_Close st :
  is_closed st = false ->
  exists st', Transport_Close st = (Ok tt, st') /\ is_closed st' = true /\ told st' = told st /\
    producers st'.1 = producers st.1 /\ dataProducers st'.1 = dataProducers st.1.
Proof.
  intros Ho. unfold Transport_Close, bind at 1, isClosed. unfold is_closed in Ho. simpl. rewrite Ho.
  simpl. eexists. by split_and!.
Qed.

Lemma run_SendTransport_Close st :
  send_maps_ok st -> is_closed st = false ->
  exists st' media data, SendTransport_Close st = (Ok tt, st') /\ is_closed st' = true /\
    (forall p, is_open producer_closed (producers st'.1) p = false) /\
    (forall p, is_open dataProducer_closed (dataProducers st'.1) p = false) /\
    told st' = told st ++ map ProducerTransportClose media ++ map DataProducerTransportClose data /\
    NoDup media /\ (forall p, p ∈ media <-> is_open producer_closed (producers st.1) p = true) /\
    NoDup data /\
    (forall p, p ∈ data <-> is_open dataProducer_closed (dataProducers st.1) p = true).
Proof.
  intros [Hp Hd] Hopen.
  destruct (run_Transport_Close st Hopen) as (s1 & H1 & Hc1 & Ht1 & Hp1 & Hd1).
  destruct (close_producers s1) as (s2 & media & H2 & [Hd2 Hc2] & Ht2 & Hn2 & Hm2 & Ha2).
  { by rewrite Hp1. }
  destruct (close_dataProducers s2) as (s3 & data & H3 & [Hp3 Hc3] & Ht3 & Hn3 & Hm3 & Ha3).
  { by rewrite Hd2, Hd1. }
  exists s3, media, data. split_and!; try done.
  - unfold SendTransport_Close, bind at 1, isClosed. unfold is_closed in Hopen. simpl. rewrite Hopen.
    simpl. by rewrite (bind_of_ok _ _ _ _ _ H1), run_bind_get, (bind_of_ok _ _ _ _ _ H2), run_bind_get.
  - congruence.
  - intros p. by rewrite Hp3.
  - by rewrite Ht3, Ht2, Ht1, <- app_assoc.
  - intros p. by rewrite Hm2, Hp1.
  - intros p. by rewrite Hm3, Hd2, Hd1.
Qed.

(** C5. Closing a sending transport reaches every object it created.  From every state that the
    application can reach, if it gave its producers different ids, Close returns; afterwards
    no producer and no data producer is open; the listener of each one that was open has been
    told once that the transport closed, and no other listener was told; and from then on
    Produce throws InvalidStateError and Close does nothing. *)
Theorem SendTransport_Close_closes (st : SendTransport * World)
    (Hreach : send_transport_reachable st) (Hopen : is_closed st = false) :
  exists st' media data, SendTransport_Close st = (Ok tt, st') /\
    (forall p, is_open producer_closed (producers st'.1) p = false) /\
    (forall p, is_open dataProducer_closed (dataProducers st'.1) p = false) /\
    told st' = told st ++ map ProducerTransportClose media ++ map DataProducerTransportClose data /\
    NoDup media /\ (forall p, p ∈ media <-> is_open producer_closed (producers st.1) p = true) /\
    NoDup data /\
    (forall p, p ∈ data <-> is_open dataProducer_closed (dataProducers st.1) p = true) /\
    SendTransport_Close st' = (Ok tt, st') /\
    (forall track encodings options codec appData,
       SendTransport_Produce OnConnect OnProduce track encodings options codec appData st' =
       (Throw (InvalidStateError "SendTransport closed"), st')).
Proof.
  destruct (run_SendTransport_Close st (reachable_maps st Hreach) Hopen) as
    (s3 & media & data & Hrun & Hc & ?). destruct_and?.
  exists s3, media, data. split_and!; try done.
  - unfold SendTransport_Close, bind, isClosed. unfold is_closed in Hc. simpl. by rewrite Hc.
  - intros. unfold SendTransport_Produce, newProducer, ensureOpen, bind, isClosed.
    unfold is_closed in Hc. simpl. by rewrite Hc.
Qed.
End Send.

(** ** A transport with a producer and a data producer *)

Definition sampleVideoOffer : string := String.concat crlf
  ["v=0"; "o=- 1 1 IN IP4 0.0.0.0"; "s=-"; "t=0 0"; "a=fingerprint:sha-256 82:5A";
   "a=group:BUNDLE 0"; "m=video 9 UDP/TLS/RTP/SAVPF 96 97"; "c=IN IP4 0.0.0.0";
   "a=rtpmap:96 VP8/90000"; "a=rtpmap:97 rtx/90000"; "a=fmtp:97 apt=96"; "a=setup:actpass";
   "a=mid:0"; "a=extmap:3 " +:+ absSendTimeUri; "a=sendonly"; "a=rtcp-mux";
   "a=ssrc-group:FID 1111 2222"; "a=ssrc:1111 cname:c";
   "a=ssrc:2222 cname:c"; ""].

Definition produced : string -> json -> json -> M World string := fun _ _ _ => ret "p".
Definition dataProduced : json -> string -> string -> json -> M World string :=
  fun _ _ _ _ => ret "d".

Definition sampleTransport : result SendTransport * World :=
  match fst (getExtendedRtpCapabilities (sampleLocal, sampleRemote)) with
  | Ok extended =>
      SendTransport_new "t" sampleIce sampleCandidates sampleDtls sampleSctpParameters extended
        (<["audio" := true]> {["video" := true]}) (JObject []) sampleVideoOffer
  | _ => (Undef, "")
  end.

Definition sampleState : option (SendTransport * World) :=
  match sampleTransport with
  | (Ok t, w) =>
      play connected produced dataProduced
        [(OpProduce (Some "track") None None None (JObject []), w);
         (OpProduceData "label" "protocol" true (-1) 0 (JObject []), sampleApplication)] (t, w)
  | _ => None
  end.

Lemma SendTransport_Close_closes_witness :
  exists st st' media data, sampleState = Some st /\
    SendTransport_Close st = (Ok tt, st') /\
    told st' = told st ++ map ProducerTransportClose media ++ map DataProducerTransportClose data /\
    0%nat ∈ media /\ 0%nat ∈ data.
Proof.
  assert (Hs : match sampleState with
    | Some st => is_closed st = false /\ is_open producer_closed (producers st.1) 0 = true /\
                 is_open dataProducer_closed (dataProducers st.1) 0 = true
    | None => False end) by (vm_compute; split_and!; reflexivity).
  destruct sampleState as [st|] eqn:E; [|destruct Hs]. destruct Hs as (Hc & Hp & Hd).
  unfold sampleState, sampleTransport in E.
  destruct (fst (getExtendedRtpCapabilities _)) as [extended|e|]; try discriminate.
  destruct (SendTransport_new _ _ _ _ _ _ _ _ _) as [[t|e|] w] eqn:Hn; try discriminate.
  destruct (SendTransport_Close_closes connected produced dataProduced st) as
    (st' & media & data & Hrun & _ & _ & Ht & _ & Hm & _ & Hda & _).
  - exact (play_reachable _ _ _ _ _ _ (created _ _ _ _ _ _ _ _ _ _ _ _ _ _ Hn) E).
  - exact Hc.
  - exists st, st', media, data. split; [reflexivity|]. split; [exact Hrun|]. split; [exact Ht|].
    split; [by apply Hm|by apply Hda].
Defined.
