(* ===== verification/RecvTransportSpec.v ===== *)
(** * The receiving transport: the proofs

    While a receiving transport is open, every consumer that is open has an open media section
    of its own in the remote SDP. *)

From stdpp Require Import gmap.
From S2P Require Import Prelude Json Validator OrtcValidate OrtcContracts OrtcValidated Ortc.
From S2P Require Import OrtcExtended.
From S2P Require Import MediaSection MediaSectionSpec AnswerSection SdpWriter RemoteSdp RemoteSdpInv.
From S2P Require Import PeerConnection Handler HandlerFrame HandlerSpec SendHandlerSpec.
From S2P Require Import Transport RecvTransport TransportSpec.

(** ** Sessions *)

Lemma place_open m x v : (m, true) ∈ v -> (m, true) ∈ place x v.
Proof.
  induction v as [|[y []] v IH]; simpl; [by intros ?%not_elem_of_nil|..]; rewrite !elem_of_cons;
    intros [Heq|?]; auto. discriminate.
Qed.
Lemma place_new x v : (x, true) ∈ place x v.
Proof. induction v as [|[y []] v IH]; simpl; rewrite elem_of_cons; auto. Qed.
Lemma place_distinct x v : distinct (place x v) = true -> (x, true) ∉ v.
Proof.
  unfold distinct. rewrite bool_decide_eq_true. induction v as [|[y []] v IH]; simpl.
  - intros _. apply not_elem_of_nil.
  - intros [Hy Hd]%NoDup_cons. rewrite not_elem_of_cons. split; [|auto]. intros [= <-].
    apply Hy, list_elem_of_fmap. exists (x, true). split; [done|apply place_new].
  - intros [Hx _]%NoDup_cons. rewrite not_elem_of_cons. split; [done|]. intros Hin.
    apply Hx, list_elem_of_fmap. by exists (x, true).
Qed.
Lemma close_other m x v : m <> x -> (m, true) ∈ v -> (m, true) ∈ close x v.
Proof.
  intros Hne. destruct v as [|y v]; simpl; [done|]. rewrite !elem_of_cons. intros [Hy|Hin]; [auto|].
  right. apply list_elem_of_fmap. exists (m, true). simpl.
  by rewrite (proj2 (String.eqb_neq m x) Hne).
Qed.

Section Recv.
Context `{LastingMids}.
Context (OnConnect : json -> M World unit).
Context (stable_OnConnect : forall d, stable (fun w => snd (OnConnect d w))).
Context (sctp : json).

Abbreviation connect := (Transport_OnConnect OnConnect false).

(** ** The invariant *)

Definition hst (st : RecvTransport * World) : Handler * World := (handler (recv_base st.1), st.2).
Definition sections (st : RecvTransport * World) : session :=
  view (remoteSdp (handler (recv_base st.1))).
Definition open_consumer (st : RecvTransport * World) (p : nat) (c : Consumer) : Prop :=
  objects (consumers st.1) !! p = Some c /\ consumer_closed c = false.

Record linked (st : RecvTransport * World) : Prop := {
  linked_recv : recv_inv sctp (sections st) (hst st);
  linked_section p c : open_consumer st p c -> (consumer_localId c, true) ∈ sections st;
  linked_transceiver p c : open_consumer st p c ->
    is_Some (mapMidTransceiver (hst st).1 !! consumer_localId c);
  linked_distinct p q c d : open_consumer st p c -> open_consumer st q d ->
    consumer_localId c = consumer_localId d -> p = q
}.

Definition recv_ok (st : RecvTransport * World) : Prop :=
  registry_ok consumer_id consumer_closed (consumers st.1) /\
  (transport_closed (recv_base st.1) = false -> linked st).

Lemma known_independent localId :
  independent (fun h => is_Some (mapMidTransceiver h !! localId)).
Proof.
  split; try done. intros m t h Hk. simpl. destruct (decide (m = localId)) as [->|Hne].
  - rewrite lookup_insert_eq. eauto.
  - by rewrite lookup_insert_ne.
Qed.

Lemma inv_view v st : recv_inv sctp v st -> view (remoteSdp st.1) = v.
Proof. intros [(_ & _ & Hv) _]. exact Hv. Qed.

(** A call of the handler that keeps the sections of the open consumers. *)
Lemma on_handler_state {A} (m : HM A) (st : RecvTransport * World) :
  fst (on_handler m st) = fst (m (hst st)) /\
  hst (snd (on_handler m st)) = snd (m (hst st)) /\
  consumers (snd (on_handler m st)).1 = consumers st.1 /\
  transport_closed (recv_base (snd (on_handler m st)).1) = transport_closed (recv_base st.1) /\
  probatorConsumerCreated (recv_base (snd (on_handler m st)).1) =
    probatorConsumerCreated (recv_base st.1).
Proof. unfold on_handler, hst. simpl. by destruct (m _) as [r [h w]]. Qed.

Lemma linked_on_handler {A} (m : HM A) v st :
  linked st -> recv_inv sctp v (snd (m (hst st))) ->
  (forall p c, open_consumer st p c -> (consumer_localId c, true) ∈ v) ->
  (forall localId, preserves (fun s => is_Some (mapMidTransceiver s.1 !! localId)) m) ->
  linked (snd (on_handler m st)).
Proof.
  intros [Hr Hs Ht Hd] Hr' Hs' Hm. destruct (on_handler_state m st) as (_ & Eh & Ec & _ & _).
  assert (Hsec : sections (snd (on_handler m st)) = v).
  { change (view (remoteSdp (hst (snd (on_handler m st))).1) = v). rewrite Eh. by apply inv_view. }
  split.
  - by rewrite Hsec, Eh.
  - intros p c. unfold open_consumer. rewrite Ec, Hsec. apply Hs'.
  - intros p c. unfold open_consumer. rewrite Ec, Eh. intros Hc. by apply Hm, (Ht p).
  - intros p q c d. unfold open_consumer. rewrite Ec. apply Hd.
Qed.

Lemma recv_ok_on_handler {A} (m : HM A) v st :
  recv_ok st -> (transport_closed (recv_base st.1) = false -> linked st ->
    recv_inv sctp v (snd (m (hst st))) /\
    (forall p c, open_consumer st p c -> (consumer_localId c, true) ∈ v)) ->
  (forall localId, preserves (fun s => is_Some (mapMidTransceiver s.1 !! localId)) m) ->
  recv_ok (snd (on_handler m st)).
Proof.
  intros [Hreg Hl] Hv Hm. destruct (on_handler_state m st) as (_ & _ & Ec & Eo & _). split.
  - by rewrite Ec.
  - rewrite Eo. intros Ho. destruct (Hv Ho (Hl Ho)). by eapply linked_on_handler; eauto.
Qed.

(** ** The calls of the handler *)

Lemma connect_stable d : stable (fun w => snd (connect d w)).
Proof. apply stable_OnConnect. Qed.

Lemma known_Receive id kind p localId :
  preserves (fun s => is_Some (mapMidTransceiver s.1 !! localId))
    (RecvHandler_Receive connect id kind p).
Proof. apply (leaves_Receive connect _ (known_independent localId)). Qed.

(** A consumer that was received has the section that was placed for it. *)
Lemma Receive_result id kind p h r h' :
  RecvHandler_Receive connect id kind p h = (Ok r, h') ->
  recv_localId r = nextId h p /\ is_Some (mapMidTransceiver h'.1 !! recv_localId r) /\
  forall v, recv_effect v h (CallReceive id kind p) = place (recv_localId r) v.
Proof.
  unfold RecvHandler_Receive. rewrite run_bind_get. fold (nextId h p). intros Hr.
  apply bind_ok in Hr as (cname & ? & Hc & Hr). injection Hc as Hc _.
  do 6 (apply bind_ok in Hr as (? & ? & _ & Hr)). apply bind_ok in Hr as (t & s & _ & Hr).
  apply bind_ok in Hr as ([] & s' & Hu & Hr). injection Hu as <-. rewrite run_bind_get in Hr.
  injection Hr as <- <-. simpl. rewrite lookup_insert_eq. unfold recv_effect. rewrite Hc. eauto.
Qed.

Lemma receive_keeps id kind p st :
  linked st -> recv_allowed sctp (sections st) (hst st) (CallReceive id kind p) = true ->
  recv_inv sctp (recv_effect (sections st) (hst st) (CallReceive id kind p))
    (snd (RecvHandler_Receive connect id kind p (hst st))) /\
  (forall q c, open_consumer st q c ->
     (consumer_localId c, true) ∈ recv_effect (sections st) (hst st) (CallReceive id kind p)).
Proof.
  intros Hl Ha. split.
  - apply Receive_moves; [apply connect_stable|apply Hl|done].
  - intros q c Hc. unfold recv_effect. pose proof (linked_section _ Hl q c Hc).
    destruct (receivedCname p); [by apply place_open|done..].
Qed.

Lemma receive_linked id kind p st :
  linked st -> recv_allowed sctp (sections st) (hst st) (CallReceive id kind p) = true ->
  linked (snd (receive OnConnect id kind p st)).
Proof.
  intros Hl Ha. destruct (receive_keeps id kind p st Hl Ha) as [Hi Hs].
  eapply linked_on_handler; [done|exact Hi|exact Hs|]. intros. apply known_Receive.
Qed.

(** ** Consume *)

Definition consumed (id producerId : string) (p appData : json) (r : RecvResult) : Consumer :=
  {| consumer_id := id; consumer_localId := recv_localId r; consumer_producerId := producerId;
     consumer_rtpReceiver := rtpReceiver r; consumer_track := recv_track r;
     consumer_rtpParameters := p; consumer_appData := appData; consumer_closed := false |}.

Lemma run_isClosed {A} (st : RecvTransport * World) (k : bool -> RM A) :
  bind isClosed k st = k (transport_closed (recv_base st.1)) st.
Proof. reflexivity. Qed.

(** [newConsumer] fails without an effect, or receives the validated parameters. *)
Lemma newConsumer_cases id producerId kind params appData st :
  (exists r, newConsumer OnConnect id producerId kind params appData st = (r, st) /\
     forall c, r <> Ok c) \/
  (exists p p', params = Some p /\ transport_closed (recv_base st.1) = false /\
     canReceive (extendedRtpCapabilities (recv_base st.1)) p = (Ok true, p') /\
     newConsumer OnConnect id producerId kind params appData st =
       (let! r := receive OnConnect id kind p' in ret (consumed id producerId p' appData r)) st).
Proof.
  unfold newConsumer, ensureOpen. rewrite run_bind_bind, (run_isClosed st), run_bind_throw_if.
  destruct (transport_closed (recv_base st.1)); [left; by eexists|].
  do 3 (rewrite run_bind_throw_if; destruct (_ : bool); [left; by eexists|]).
  destruct params as [p|]; [|left; by eexists].
  rewrite run_bind_throw_if. destruct (negb (is_object appData)); [left; by eexists|].
  rewrite run_bind_get.
  destruct (canReceive (extendedRtpCapabilities (recv_base st.1)) p) as [[b|e|] p'] eqn:Hc.
  2, 3: left; eexists; split; [by unfold bind, local; rewrite Hc|done].
  rewrite (bind_of_ok _ _ _ (b, p') st) by (unfold local; by rewrite Hc).
  rewrite run_bind_throw_if. destruct b; [|left; by eexists]. right. by exists p, p'.
Qed.

(** What the server guarantees: a new consumer id, RTP parameters with a mid that is not in use,
    and the mid of the probator left free until it is created. *)
Definition consume_allowed (st : RecvTransport * World) (id kind : string) (params : option json) :
    bool :=
  bool_decide (byId (consumers st.1) !! id = None) &&
  match params with
  | None => true
  | Some p =>
      match canReceive (extendedRtpCapabilities (recv_base st.1)) p with
      | (Ok true, p') =>
          recv_allowed sctp (sections st) (hst st) (CallReceive id kind p') &&
          let st1 := snd (RecvHandler_Receive connect id kind p' (hst st)) in
          if negb (probatorConsumerCreated (recv_base st.1)) && String.eqb kind "video" then
            match generateProbatorRtpParameters p' with
            | Ok probator =>
                recv_allowed sctp (view (remoteSdp st1.1)) st1
                  (CallReceive "probator" "video" probator)
            | _ => true
            end
          else true
      | _ => true
      end
  end.

(** The new consumer is linked to the section that was placed for it. *)
Lemma register_linked st st1 c v :
  linked st -> linked st1 -> consumers st1.1 = consumers st.1 ->
  sections st1 = place (consumer_localId c) v -> sections st = v ->
  distinct (place (consumer_localId c) v) = true -> consumer_closed c = false ->
  is_Some (mapMidTransceiver (hst st1).1 !! consumer_localId c) ->
  linked (set_consumers (register (consumer_id c) c (consumers st1.1)) st1.1, st1.2).
Proof.
  intros Hl [Hr1 Hs1 Ht1 Hd1] Ec Es <- Hd Hc Hk.
  assert (Hcase : forall p d, open_consumer
    (set_consumers (register (consumer_id c) c (consumers st1.1)) st1.1, st1.2) p d ->
    (open_consumer st1 p d /\ consumer_localId d <> consumer_localId c) \/
    (p = length (objects (consumers st1.1)) /\ d = c)).
  { intros p d [Hp Ho]. simpl in Hp. apply lookup_app_Some in Hp as [Hp|[Hlen Hp]].
    - left. split; [done|]. intros Heq. apply (place_distinct _ _ Hd). rewrite <- Heq.
      apply (linked_section _ Hl p). unfold open_consumer. by rewrite <- Ec.
    - right. apply list_lookup_singleton_Some in Hp as [Hz ->]. split; [lia|done]. }
  split.
  - exact Hr1.
  - intros p d [[Ho _]|[_ ->]]%Hcase; [by apply (Hs1 p)|]. unfold sections in *. simpl. rewrite Es.
    apply place_new.
  - intros p d [[Ho _]|[_ ->]]%Hcase; [by apply (Ht1 p)|exact Hk].
  - intros p q d e [[Ho Hn]|[-> ->]]%Hcase [[Ho' Hn']|[-> ->]]%Hcase Heq; try congruence.
    by apply (Hd1 p q d e).
Qed.

Lemma createProbator_linked p st :
  linked st ->
  (forall q, generateProbatorRtpParameters p = Ok q ->
     recv_allowed sctp (sections st) (hst st) (CallReceive "probator" "video" q) = true) ->
  linked (snd (createProbator OnConnect p st)).
Proof.
  intros Hl Ha. unfold createProbator.
  assert (Hin : linked (snd ((let! q := lift (generateProbatorRtpParameters p) in
    let! _ := receive OnConnect "probator" "video" q in update_base set_probator) st))).
  { destruct (generateProbatorRtpParameters p) as [q|e|]; [|exact Hl..].
    change (lift (Ok q)) with (ret q : RM json). rewrite run_bind_ret. unfold bind.
    pose proof (receive_linked "probator" "video" q st Hl (Ha q eq_refl)) as Hl1.
    destruct (receive _ _ _ _ _) as [[r|e|] st1]; simpl in *; [by destruct Hl1; split|done..]. }
  by destruct (bind _ _ st) as [[] ?].
Qed.

Lemma createProbator_state p st :
  consumers (snd (createProbator OnConnect p st)).1 = consumers st.1 /\
  transport_closed (recv_base (snd (createProbator OnConnect p st)).1) =
    transport_closed (recv_base st.1).
Proof.
  unfold createProbator.
  destruct (generateProbatorRtpParameters p) as [q|e|]; [|done..].
  change (lift (Ok q)) with (ret q : RM json). rewrite run_bind_ret. unfold bind, receive.
  destruct (on_handler_state (RecvHandler_Receive connect "probator" "video" q) st) as (_ & _ & Ec & Eo & _).
  by destruct (on_handler _ st) as [[] ?].
Qed.

Lemma Consume_ok id producerId kind params appData st :
  recv_ok st -> consume_allowed st id kind params = true ->
  recv_ok (snd (RecvTransport_Consume OnConnect id producerId kind params appData st)).
Proof.
  intros [Hreg Hlink] Ha. unfold RecvTransport_Consume. apply andb_true_iff in Ha as [Hf Ha].
  destruct (newConsumer_cases id producerId kind params appData st) as
    [(r & Hn & Hr)|(p & p' & -> & Ho & Hc & Hn)].
  { unfold bind at 1. rewrite Hn. destruct r; [by destruct (Hr a)|done..]. }
  rewrite Hc in Ha. apply andb_true_iff in Ha as [Ha Hpro]. specialize (Hlink Ho).
  pose proof (receive_linked id kind p' st Hlink Ha) as Hl1.
  pose proof (receive_keeps id kind p' st Hlink Ha) as [Hi1 _].
  destruct (on_handler_state (RecvHandler_Receive connect id kind p') st) as (Er & Eh & Ec & Eo & Ep).
  fold (receive OnConnect id kind p') in *. unfold bind at 1. rewrite Hn. unfold bind at 1.
  destruct (receive OnConnect id kind p' st) as [[r|e|] st1]; cbn [fst snd] in *;
    [|split; [by rewrite Ec|done]..].
  destruct (RecvHandler_Receive connect id kind p' (hst st)) as [r' st'] eqn:Hrun.
  cbn [fst snd] in *. subst r' st'. destruct (Receive_result _ _ _ _ _ _ Hrun) as (Hid & Hk & He).
  rewrite He in Hi1. apply bool_decide_eq_true in Hf.
  cbn [ret]. rewrite run_bind_get. set (c := consumed id producerId p' appData r).
  unfold bind at 1, update_consumers. cbn [fst snd].
  set (st2 := (set_consumers (register (consumer_id c) c (consumers st1.1)) st1.1, st1.2)).
  assert (Hl2 : linked st2).
  { apply (register_linked st st1 c (sections st)); try done; [exact (inv_view _ _ Hi1)|].
    simpl in Ha. rewrite !andb_true_iff in Ha. simpl. rewrite Hid. apply Ha. }
  assert (Hreg2 : registry_ok consumer_id consumer_closed (consumers st2.1)).
  { simpl. rewrite Ec. by apply ok_register. }
  rewrite run_bind_when, Ep. destruct (_ && _); [|by split].
  assert (Hl3 : linked (snd (createProbator OnConnect p' st2))).
  { apply createProbator_linked; [done|]. intros q Hq. by rewrite Hq in Hpro. }
  destruct (createProbator_state p' st2) as [E3 _].
  change (consumer_rtpParameters c) with p'. unfold bind.
  destruct (createProbator OnConnect p' st2) as [[[]|e|] st3]; cbn [fst snd] in *;
    (split; [cbn [ret fst snd]; rewrite E3; exact Hreg2|intros _; exact Hl3]).
Qed.

(** ** The other calls *)

Lemma recv_ok_same st st' :
  recv_ok st -> hst st' = hst st -> consumers st'.1 = consumers st.1 ->
  transport_closed (recv_base st'.1) = transport_closed (recv_base st.1) -> recv_ok st'.
Proof.
  intros [Hreg Hl] Eh Ec Eo. split; [by rewrite Ec|]. rewrite Eo. intros Ho.
  destruct (Hl Ho) as [Hr Hs Ht Hd].
  assert (Es : sections st' = sections st).
  { change (view (remoteSdp (hst st').1) = view (remoteSdp (hst st).1)). by rewrite Eh. }
  split; unfold open_consumer; rewrite ?Eh, ?Es, ?Ec; auto.
Qed.

Lemma recv_ok_world st w :
  recv_ok st -> follows st.2 w -> recv_ok (st.1, w).
Proof.
  intros [Hreg Hl] Hw. split; [done|]. intros Ho. destruct (Hl Ho) as [[Hi Hm] Hs Ht Hd].
  split; try done. split; [done|]. intros localId t Hlk. eapply known_follows; [exact Hw|by apply Hm].
Qed.

Lemma recv_ok_in_world {A} (f : M World A) :
  stable (fun w => snd (f w)) -> preserves recv_ok (in_world f).
Proof.
  intros Hf [t w] Hst. unfold in_world. simpl. pose proof (Hf w) as Hw. cbv beta in Hw.
  destruct (f w) as [r w']. by apply (recv_ok_world (t, w)).
Qed.

Lemma ConsumeData_ok id producerId streamId label protocol appData st :
  recv_ok st ->
  (forall d, recv_allowed sctp (sections st) (hst st) (CallReceiveDataChannel label d) = true) ->
  recv_ok (snd (RecvTransport_ConsumeData OnConnect id producerId streamId label protocol appData st)).
Proof.
  intros Hst Ha. unfold RecvTransport_ConsumeData, newDataConsumer, ensureOpen. cbv zeta.
  rewrite !run_bind_bind, run_isClosed.
  do 3 (rewrite ?run_bind_bind, run_bind_throw_if; split_if; [exact Hst|]).
  rewrite ?run_bind_bind, run_bind_get, ?run_bind_bind, run_bind_throw_if.
  split_if; [exact Hst|]. rewrite ?run_bind_bind. set (d := Build_DataChannelInit _ _ _ _ _ _ _ _).
  assert (Hok : recv_ok (snd (on_handler (RecvHandler_ReceiveDataChannel connect label d) st))).
  { apply (recv_ok_on_handler _ (recv_effect (sections st) (hst st) (CallReceiveDataChannel label d)));
      [done| |intros localId; apply (leaves_ReceiveDataChannel connect _ (known_independent localId))].
    intros Ho Hl. split.
    - apply ReceiveDataChannel_moves; [apply connect_stable|apply Hl|apply Ha].
    - intros p c Hc. unfold recv_effect. pose proof (linked_section _ Hl p c Hc).
      destruct (_ && _); [apply elem_of_app; by left|done]. }
  unfold bind. destruct (on_handler _ st) as [[r|e|] st1]; cbn [fst snd] in *; [|done..].
  by apply (recv_ok_same st1).
Qed.

Lemma ConsumerClose_ok p : preserves recv_ok (Consumer_Close p).
Proof.
  intros st Hst. unfold Consumer_Close, bind at 1, consumerAt.
  destruct (objects (consumers st.1) !! p) as [c|] eqn:Hp; [|done].
  destruct (consumer_closed c) eqn:Hc; [done|]. cbn [negb when]. unfold RecvTransport_OnClose.
  set (st' := (set_consumers (unregister (consumer_id c)
    (set_object p (close_consumer c) (consumers st.1))) st.1, st.2)).
  change (recv_ok (snd (bind isClosed (fun closed => when (negb closed)
    (on_handler (RecvHandler_StopReceiving (consumer_localId c)))) st'))).
  assert (Hopen : forall q d, open_consumer st' q d -> open_consumer st q d /\ q <> p).
  { intros q d [Hq Hd]. simpl in Hq. destruct (decide (p = q)) as [<-|Hne].
    - rewrite list_lookup_insert_eq in Hq by by eapply lookup_lt_Some. by injection Hq as <-.
    - rewrite list_lookup_insert_ne in Hq by done. by split. }
  destruct Hst as [Hreg Hl]. assert (Hst' : recv_ok st').
  { split; [by apply (ok_close consumer_id consumer_closed)|]. intros Ho.
    destruct (Hl Ho) as [Hr Hs Ht Hd]. split; [exact Hr|..].
    - intros q d [Hq _]%Hopen. by apply (Hs q).
    - intros q d [Hq _]%Hopen. by apply (Ht q).
    - intros q q' d d' [Hq _]%Hopen [Hq' _]%Hopen. by apply Hd. }
  rewrite run_isClosed. destruct (transport_closed (recv_base st'.1)) eqn:Ho; [done|].
  specialize (Hl Ho). assert (Hin : (consumer_localId c, true) ∈ sections st)
    by by apply (linked_section _ Hl p).
  apply (recv_ok_on_handler _ (recv_effect (sections st) (hst st)
    (CallStopReceiving (consumer_localId c)))); [done| |].
  2: { intros localId. apply (leaves_StopReceiving _ (known_independent localId)). }
  intros _ Hl'. destruct (linked_transceiver _ Hl p c) as [t Ht]; [done|]. split.
  - apply (StopReceiving_moves sctp (sections st) (hst st)); [apply Hl|].
    apply existsb_exists. exists (consumer_localId c). split; [|apply String.eqb_refl].
    apply in_map_iff. exists (consumer_localId c, true). split; [done|]. by apply list_elem_of_In.
  - intros q d [Hq Hne]%Hopen. unfold recv_effect. rewrite Ht.
    case_bool_decide; [|by apply (linked_section _ Hl q)].
    apply close_other; [|by apply (linked_section _ Hl q)].
    intros Heq. apply Hne. by eapply (linked_distinct _ Hl).
Qed.

Lemma RestartIce_ok ice st :
  recv_ok st -> acceptsIceParameters ice = true -> recv_ok (snd (RecvTransport_RestartIce ice st)).
Proof.
  intros Hst Ha. unfold RecvTransport_RestartIce, Transport_RestartIce, ensureOpen.
  rewrite run_bind_bind, run_isClosed, run_bind_throw_if. split_if; [exact Hst|].
  apply (recv_ok_on_handler _ (sections st)); [done| |].
  - intros _ Hl. split; [|apply Hl].
    apply (RestartIce_moves sctp (sections st) (hst st) ice); [apply Hl|exact Ha].
  - intros localId. apply (leaves_RecvRestartIce _ (known_independent localId)).
Qed.

Lemma keeps_UpdateIceServers v uris : preserves (recv_inv sctp v) (UpdateIceServers uris).
Proof.
  apply preserves_bind; [apply preserves_lift|]. intros servers.
  apply preserves_bind; [|intros; apply preserves_throw_if]. apply keeps_on_pc.
  intros pc w. pose proof (stable_set_servers pc servers w) as Hs. revert Hs.
  unfold SetConfiguration, bind, call. by destruct (set_servers pc servers w).
Qed.
Lemma UpdateIceServers_ok uris : preserves recv_ok (Transport_UpdateIceServers uris).
Proof.
  intros st Hst. unfold Transport_UpdateIceServers, ensureOpen.
  rewrite run_bind_bind, run_isClosed, run_bind_throw_if. split_if; [exact Hst|].
  apply (recv_ok_on_handler _ (sections st)); [done| |].
  - intros _ Hl. split; [|apply Hl]. by apply keeps_UpdateIceServers, Hl.
  - intros localId. apply (leaves_UpdateIceServers (fun h => is_Some (mapMidTransceiver h !! localId))).
Qed.

Lemma setEnabled_ok b p : preserves recv_ok (Consumer_setEnabled b p).
Proof.
  unfold Consumer_setEnabled. apply preserves_bind.
  - intros st Hst. unfold consumerAt. by destruct (_ !! p).
  - intros c. apply preserves_when, recv_ok_in_world. apply stable_set_enabled.
Qed.
Lemma DataConsumerClose_ok p : preserves recv_ok (DataConsumer_Close p).
Proof.
  unfold DataConsumer_Close. apply preserves_bind.
  - intros st Hst. unfold dataConsumerAt. by destruct (_ !! p).
  - intros c. apply preserves_when, preserves_bind; [intros st Hst; by apply (recv_ok_same st)|].
    intros _. apply preserves_bind; [apply recv_ok_in_world, stable_close_channel|].
    intros _ st Hst. by apply (recv_ok_same st).
Qed.

(** A closed transport keeps its map, and its consumers are closed one by one. *)
Definition shut (st : RecvTransport * World) : Prop :=
  registry_ok consumer_id consumer_closed (consumers st.1) /\
  transport_closed (recv_base st.1) = true.

Lemma shut_ok st : shut st -> recv_ok st.
Proof. intros [Hr Hc]. split; [done|]. by rewrite Hc. Qed.
Lemma ConsumerTransportClosed_shut p : preserves shut (Consumer_TransportClosed p).
Proof.
  intros st [Hr Hc]. unfold Consumer_TransportClosed, bind at 1, consumerAt.
  destruct (objects (consumers st.1) !! p) as [c|] eqn:Hp; [|done].
  destruct (consumer_closed c) eqn:Hcc; [done|]. split; [|done].
  by apply (ok_set consumer_id consumer_closed _ _ c).
Qed.
Lemma DataConsumerTransportClosed_shut p : preserves shut (DataConsumer_TransportClosed p).
Proof.
  intros st Hst. unfold DataConsumer_TransportClosed, bind at 1, dataConsumerAt.
  destruct (objects (dataConsumers st.1) !! p) as [c|]; [|done].
  by destruct (dataConsumer_closed c).
Qed.

Lemma run_RecvTransport_Close st :
  recv_ok st -> transport_closed (recv_base st.1) = false ->
  exists st1, Transport_Close st = (Ok tt, st1) /\ shut st1.
Proof.
  intros [Hr _] Ho. unfold Transport_Close. rewrite run_isClosed, Ho. eexists.
  split; [reflexivity|]. by split.
Qed.

Lemma RecvClose_ok : preserves recv_ok RecvTransport_Close.
Proof.
  intros st Hst. unfold RecvTransport_Close. rewrite run_isClosed.
  destruct (transport_closed (recv_base st.1)) eqn:Ho; [done|]. cbn [negb when].
  destruct (run_RecvTransport_Close st Hst Ho) as (st1 & Hclose & Hs).
  rewrite (bind_of_ok _ _ _ _ _ Hclose), run_bind_get. apply shut_ok.
  apply preserves_bind; [apply for_pointers_preserves, ConsumerTransportClosed_shut| |exact Hs].
  intros _. apply preserves_bind; [apply preserves_get|]. intros st'.
  apply for_pointers_preserves, DataConsumerTransportClosed_shut.
Qed.

(** ** Reachable states *)

Inductive recv_op :=
| OpConsume (id producerId kind : string) (rtpParameters : option json) (appData : json)
| OpConsumeData (id producerId : string) (streamId : Z) (label protocol : string) (appData : json)
| OpRecvClose
| OpConsumerClose (p : nat)
| OpDataConsumerClose (p : nat)
| OpConsumerSetEnabled (b : bool) (p : nat)
| OpRecvRestartIce (iceParameters : json)
| OpRecvUpdateIceServers (iceServers : json)
| OpRecvConnectionState (s : IceConnectionState).

Definition recv_run (o : recv_op) : RM unit :=
  match o with
  | OpConsume id producerId kind p appData =>
      let! _ := RecvTransport_Consume OnConnect id producerId kind p appData in ret tt
  | OpConsumeData id producerId streamId label protocol appData =>
      let! _ := RecvTransport_ConsumeData OnConnect id producerId streamId label protocol appData in
      ret tt
  | OpRecvClose => RecvTransport_Close
  | OpConsumerClose p => Consumer_Close p
  | OpDataConsumerClose p => DataConsumer_Close p
  | OpConsumerSetEnabled b p => Consumer_setEnabled b p
  | OpRecvRestartIce ice => RecvTransport_RestartIce ice
  | OpRecvUpdateIceServers uris => Transport_UpdateIceServers uris
  | OpRecvConnectionState s => Transport_OnConnectionStateChange s
  end.

(** What the server and the application guarantee. *)
Definition recv_op_allowed (st : RecvTransport * World) (o : recv_op) : bool :=
  match o with
  | OpConsume id _ kind p _ => consume_allowed st id kind p
  | OpConsumeData _ _ _ _ _ _ =>
      hasDataChannelMediaSection (hst st).1 || allowed sctp (sections st) OpRecvSctp
  | OpRecvRestartIce ice => acceptsIceParameters ice
  | _ => true
  end.

Lemma recv_run_ok o st :
  recv_ok st -> recv_op_allowed st o = true -> recv_ok (snd (recv_run o st)).
Proof.
  intros Hst Ha. destruct o; unfold recv_run; rewrite ?snd_done.
  - by apply Consume_ok.
  - by apply ConsumeData_ok.
  - by apply RecvClose_ok.
  - by apply ConsumerClose_ok.
  - by apply DataConsumerClose_ok.
  - by apply setEnabled_ok.
  - by apply RestartIce_ok.
  - by apply UpdateIceServers_ok.
  - by apply (recv_ok_same st).
Qed.

(** A transport that the device created from validated parameters; each call may return or
    throw, and webrtc may change its state in between. *)
Inductive recv_transport_reachable : RecvTransport * World -> Prop :=
| recv_created id ice candidates dtls extended appData w t w' :
    acceptsIceParameters ice = true -> array_of acceptsIceCandidate candidates = true ->
    acceptsDtlsParameters dtls = true ->
    RecvTransport_new id ice candidates dtls sctp extended appData w = (Ok t, w') ->
    recv_transport_reachable (t, w')
| recv_called st o :
    recv_transport_reachable st -> recv_op_allowed st o = true -> fst (recv_run o st) <> Undef ->
    recv_transport_reachable (snd (recv_run o st))
| recv_proceeded st w :
    recv_transport_reachable st -> follows st.2 w ->
    recv_transport_reachable (st.1, w).

Lemma recv_transport_ok st : recv_transport_reachable st -> recv_ok st.
Proof.
  induction 1 as [id ice candidates dtls extended appData w t w' Hi Hc Hd Hn|st o _ IH Ha _|st w _ IH Hw].
  - unfold RecvTransport_new in Hn. apply bind_ok in Hn as (h & w1 & Hh & Hn).
    unfold ret in Hn. simplify_eq.
    pose proof (Handler_new_inv sctp ice candidates dtls w _ h Hi Hc Hd Hh) as Hinv.
    split; [apply ok_no_objects|]. intros _.
    split; [|by intros p c [? _]..|by intros p q c d [? _]].
    pose proof (inv_view _ _ Hinv) as Hv. unfold sections, hst. simpl in *. by rewrite Hv.
  - by apply recv_run_ok.
  - by apply recv_ok_world.
Qed.

(** C3. While a receiving transport is open, every consumer that is open has a media section of
    its own.  In every state that the application can reach with a server that gives consumers
    new ids and mids that are not in use, the remote SDP reads as a session in which the mid of
    each open consumer is open, hence in the BUNDLE group that webrtc is offered; its
    transceiver is known under that mid, and has it unless webrtc stopped the transceiver and
    took its mid away; and no two open consumers share a section, so closing one leaves the
    others. *)
Theorem RecvTransport_sections (st : RecvTransport * World)
    (Hreach : recv_transport_reachable st)
    (Hopen : transport_closed (recv_base st.1) = false) :
  let h := handler (recv_base st.1) in
  reads (sections st) (remoteSdp h) /\
  (forall p c, open_consumer st p c ->
     (consumer_localId c, true) ∈ sections st /\
     exists t, mapMidTransceiver h !! consumer_localId c = Some t /\
       (mid t st.2 = Some (consumer_localId c) \/
        (stopped t st.2 = true /\ mid t st.2 = None))) /\
  (forall p q c d, open_consumer st p c -> open_consumer st q d ->
     consumer_localId c = consumer_localId d -> p = q).
Proof.
  intros h. destruct (recv_transport_ok st Hreach) as [_ Hl]. specialize (Hl Hopen).
  destruct (linked_recv _ Hl) as [Himp Hm]. split_and!.
  - by eapply implements_reads.
  - intros p c Hc. split; [by apply (linked_section _ Hl p)|].
    destruct (linked_transceiver _ Hl p c Hc) as [t Ht]. exists t. split; [exact Ht|].
    exact (Hm _ _ Ht).
  - apply (linked_distinct _ Hl).
Qed.

(** Runs the calls. *)
Fixpoint recv_play (l : list recv_op) (st : RecvTransport * World) :
    option (RecvTransport * World) :=
  match l with
  | [] => Some st
  | o :: l =>
      if recv_op_allowed st o then
        match recv_run o st with
        | (Undef, _) => None
        | (_, st') => recv_play l st'
        end
      else None
  end.

Lemma recv_play_reachable l st st' :
  recv_transport_reachable st -> recv_play l st = Some st' -> recv_transport_reachable st'.
Proof.
  revert st. induction l as [|o l IH]; intros st Hst; simpl; [by intros [= <-]|].
  destruct (recv_op_allowed st o) eqn:Ha; [|done]. pose proof (recv_called st o Hst Ha) as Hc.
  destruct (recv_run o st) as [[a|e|] st1]; [by apply IH, Hc..|done].
Qed.
End Recv.

(** Two video consumers, the first of them closed, and the probator. *)
Definition sampleReceiving : option (RecvTransport * World) :=
  match fst (getExtendedRtpCapabilities (sampleLocal, sampleRemote)) with
  | Ok extended =>
      match RecvTransport_new "t" sampleIce sampleCandidates sampleDtls JNull extended (JObject []) ""
      with
      | (Ok t, w) =>
          recv_play connected JNull
            [OpConsume "a" "pa" "video" (Some sampleOffer) (JObject []);
             OpConsume "b" "pb" "video" (Some sampleOffer) (JObject []);
             OpConsumerClose 0] (t, w)
      | _ => None
      end
  | _ => None
  end.

Lemma RecvTransport_sections_witness :
  exists st, sampleReceiving = Some st /\
    sections st = [("0", true); ("probator", true); ("2", true)] /\
    reads (sections st) (remoteSdp (handler (recv_base st.1))) /\
    (forall p c, open_consumer st p c -> (consumer_localId c, true) ∈ sections st).
Proof.
  assert (Hs : match sampleReceiving with
    | Some st => sections st = [("0", true); ("probator", true); ("2", true)] /\
                 transport_closed (recv_base st.1) = false
    | None => False end) by (vm_compute; split; reflexivity).
  destruct sampleReceiving as [st|] eqn:E; [|destruct Hs]. destruct Hs as [Hv Ho].
  exists st. split; [reflexivity|]. split; [exact Hv|]. unfold sampleReceiving in E.
  destruct (fst (getExtendedRtpCapabilities _)) as [extended|e|]; try discriminate.
  destruct (RecvTransport_new _ _ _ _ _ _ _ _) as [[t|e|] w] eqn:Hn; try discriminate.
  destruct (RecvTransport_sections connected (fun _ w => follows_refl w) JNull st) as (Hr & Hc & _).
  - refine (recv_play_reachable _ _ _ _ _ (recv_created _ _ _ _ _ _ _ _ _ _ _ _ _ _ Hn) E);
      vm_compute; reflexivity.
  - exact Ho.
  - split; [exact Hr|]. intros p c Hp. apply (Hc p c Hp).
Defined.
