(* ===== verification/DeviceSpec.v ===== *)
(** * The device: the proofs

    Loading a device composes the native capabilities, the validators and the negotiation. *)

From stdpp Require Import gmap.
From S2P Require Import Prelude Json Validator OrtcValidate OrtcContracts OrtcValidated Ortc.
From S2P Require Import OrtcMatch OrtcExtended MediaSection RemoteSdp SdpParser SdpCapabilities.
From S2P Require Import PeerConnection Handler HandlerSpec Transport SendTransport RecvTransport.
From S2P Require Import SdpCapabilitiesSpec Device.

(** What the negotiation of validated capabilities needs besides. *)
Definition negotiates (native router : json) : bool :=
  ready native && ready router &&
  forallb (fun c => is_number_integer (payload_type c)) (codecs_of native) &&
  forallb (fun c => is_number_integer (payload_type c)) (codecs_of router) &&
  forallb known_direction (exts_of router).

(** The device says it can produce a kind exactly when an extended codec has the kind; then the
    parameters to send it with are defined. *)
Definition knows (d : Device) (kind : string) : Prop :=
  canProduce d !! kind =
    Some (bool_decide (is_Some (first_of_kind kind (array_at "codecs" (device_extended d))))) /\
  exists params remote,
    getSendingRtpParameters kind (device_extended d) = Ok params /\
    getSendingRemoteRtpParameters kind (device_extended d) = Ok remote.

Section Load.
Context `{Webrtc}.

Lemma run_validate caps {A} (k : json -> DM A) st :
  acceptsRtpCapabilities caps = true ->
  bind (local_ validateRtpCapabilities caps) k st = k (normRtpCapabilities caps) st.
Proof.
  intros Ha. unfold local_, local, bind, ret.
  by rewrite (validator_ok (accept := acceptsRtpCapabilities) (norm := normRtpCapabilities) _ Ha).
Qed.

(** The negotiation of the members. *)
Lemma negotiates_run native router :
  negotiates native router = true ->
  exists ext recv, fst (getExtendedRtpCapabilities (native, router)) = Ok ext /\
    getRecvRtpCapabilities ext = Ok recv /\ fst (validateRtpCapabilities recv) = Ok tt /\
    forall kind,
      canSend kind ext = Ok (bool_decide (is_Some (first_of_kind kind (array_at "codecs" ext)))) /\
      exists params remote, getSendingRtpParameters kind ext = Ok params /\
        getSendingRemoteRtpParameters kind ext = Ok remote.
Proof.
  unfold negotiates. rewrite !andb_true_iff. intros ((((Hl & Hr) & Hptl) & Hptr) & Hdir).
  destruct (negotiated_run native router Hl Hr) as (caps' & Hrun & _).
  pose proof (ex_intro _ _ Hrun : negotiated native router _) as Hneg.
  destruct (recv_valid _ _ _ Hl Hr Hneg Hptr Hdir) as (recv & Hrecv & Hv).
  eexists _, recv. rewrite Hrun. split_and!; [done..|]. intros kind.
  destruct (run_sendingLists "localParameters" kind _ _ _ (or_introl eq_refl) Hl Hr Hneg Hptl Hdir)
    as (Hs & _ & _ & Hcan). split; [exact Hcan|].
  destruct (run_getSendingRemote kind _ _ _ Hl Hr Hneg Hptl Hdir) as (cs' & xs' & _ & _ & _ & Hg).
  unfold getSendingRtpParameters. rewrite Hs, Hg. by do 2 eexists.
Qed.

(** C21. Loading a device that is not loaded, with router capabilities that are valid and native
    capabilities that can be negotiated with them, succeeds: the device has the extended
    capabilities that the negotiation of the two gives, the receiving capabilities that
    getRecvRtpCapabilities derives from these, validated, the SCTP capabilities of the
    handlers, and for audio and for video it says it can produce exactly when an extended codec
    has the kind.  A second Load throws InvalidStateError and changes nothing. *)
Theorem Device_Load_correct (router native : json) (d : Device) (w w' : World)
    (Hd : loaded d = false) (Hrouter : acceptsRtpCapabilities router = true)
    (Hnative : GetNativeRtpCapabilities w = (Ok native, w'))
    (Hvalid : acceptsRtpCapabilities native = true)
    (Hneg : negotiates (normRtpCapabilities native) (normRtpCapabilities router) = true) :
  exists d' recv, Device_Load router (d, w) = (Ok tt, (d', w')) /\ loaded d' = true /\
    fst (getExtendedRtpCapabilities (normRtpCapabilities native, normRtpCapabilities router)) =
      Ok (device_extended d') /\
    getRecvRtpCapabilities (device_extended d') = Ok recv /\
    recvRtpCapabilities d' = normRtpCapabilities recv /\
    acceptsRtpCapabilities (recvRtpCapabilities d') = true /\
    sctpCapabilities d' = GetNativeSctpCapabilities /\
    knows d' "audio" /\ knows d' "video" /\
    Device_Load router (d', w') = (Throw (InvalidStateError "already loaded"), (d', w')).
Proof.
  destruct (negotiates_run _ _ Hneg) as (ext & recv & Hext & Hrecv & Hv & Hk).
  destruct (Hk "audio") as (Hca & pa & ra & Hpa & Hra).
  destruct (Hk "video") as (Hcv & pv & rv & Hpv & Hrv).
  destruct (validateRtpCapabilities recv) as [r recv'] eqn:Er. simpl in Hv. subst r.
  pose proof (validator_ok_iff (accept := acceptsRtpCapabilities) (norm := normRtpCapabilities)
    recv recv') as [Hiff _]. destruct (Hiff Er) as [Harecv ->].
  unfold Device_Load. rewrite run_bind_get, run_bind_throw_if. cbn [fst]. rewrite Hd.
  rewrite (run_validate router) by done. rewrite (bind_on_snd _ _ _ _ _ _ Hnative).
  rewrite (run_validate native), Hext by done.
  cbn -[GetNativeSctpCapabilities validateRtpCapabilities validateSctpCapabilities].
  unfold bind, lift, modify_device. cbn [fst snd]. rewrite Hca, Hcv, Hrecv. cbn [fst snd recvRtpCapabilities set_recvRtpCapabilities].
  rewrite Er. eexists _, recv. split; [reflexivity|]. split_and!; try done.
  - exact (norm_accept (norm := normRtpCapabilities) _ Harecv).
  - split; [|by exists pa, ra]. simpl canProduce. by rewrite lookup_insert_ne, lookup_insert_eq by done.
  - split; [|by exists pv, rv]. simpl canProduce. by rewrite lookup_insert_eq.
Qed.
End Load.

Definition sampleWorld : @World Echo := sample_offer.
Definition sampleNative : json :=
  match fst (GetNativeRtpCapabilities sampleWorld) with Ok native => native | _ => JNull end.

Lemma Device_Load_correct_witness :
  exists d' recv, Device_Load sampleRemote (Device_new, sampleWorld) =
      (Ok tt, (d', sampleWorld)) /\
    loaded d' = true /\ getRecvRtpCapabilities (device_extended d') = Ok recv /\
    recvRtpCapabilities d' = normRtpCapabilities recv /\ knows d' "audio" /\ knows d' "video".
Proof.
  destruct (Device_Load_correct sampleRemote sampleNative Device_new sampleWorld sampleWorld)
    as (d' & recv & H1 & H2 & _ & H3 & H4 & _ & _ & H5 & H6 & _); [vm_compute; reflexivity..|].
  exists d', recv. auto 10.
Defined.
