(* ===== verification/Fastjson.v ===== *)
(** * Values of the Java code

    Strings that may be null, and the accessors of com.alibaba.fastjson.JSONObject.  fastjson is
    a library: the conversions it makes when a member has not the type that is asked for, and
    its reader and writer of JSON text, are parameters.  A null reference to a JSONObject is
    [JNull]. *)

From S2P Require Import Prelude Json.

(** A reference to a String. *)
Abbreviation jstring := (option string).

Definition jstr (s : jstring) : json :=
  match s with Some s => JString s | None => JNull end.

(** [TextUtils.isEmpty] *)
Definition isEmpty (s : jstring) : bool :=
  match s with Some s => String.eqb s "" | None => true end.
(** [a.equals(b)] for a reference [a] that is not null. *)
Definition equals (a : string) (b : jstring) : bool := bool_decide (b = Some a).

(** com.alibaba.fastjson: [TypeUtils.castTo...] of a value that is not null, [None] when it
    throws a JSONException; [JSON.toJSONString] and [JSON.parseObject]. *)
Class Fastjson := {
  castToString : json -> string;
  castToBoolean : json -> option bool;
  castToLong : json -> option Z;
  castToJSONObject : json -> option json;
  castToJSONArray : json -> option (list json);
  toJSONString : json -> string;
  parseObject : string -> option json
}.

(** [o.get(key)], null when there is no such member. *)
Definition jget (key : string) (o : json) : json :=
  match o with
  | JObject m => default JNull (obj_find key m)
  | _ => JNull
  end.

Section Accessors.
Context `{Fastjson}.

Definition getString (key : string) (o : json) : jstring :=
  match jget key o with
  | JNull => None
  | JString s => Some s
  | v => Some (castToString v)
  end.

Definition cast {A} (r : option A) : result A :=
  match r with Some a => Ok a | None => Throw JSONException end.

(** Unboxing a null reference throws. *)
Definition getBoolean (key : string) (o : json) : result bool :=
  match jget key o with
  | JNull => Throw NullPointerException
  | JBool b => Ok b
  | v => cast (castToBoolean v)
  end.
Definition getLong (key : string) (o : json) : result Z :=
  match jget key o with
  | JNull => Throw NullPointerException
  | JInt z => Ok z
  | v => cast (castToLong v)
  end.
Definition getJSONObject (key : string) (o : json) : result json :=
  match jget key o with
  | JNull => Ok JNull
  | JObject m => Ok (JObject m)
  | v => cast (castToJSONObject v)
  end.
(** [None] for null *)
Definition getJSONArray (key : string) (o : json) : result (option (list json)) :=
  match jget key o with
  | JNull => Ok None
  | JArray l => Ok (Some l)
  | v => let? l := cast (castToJSONArray v) in Ok (Some l)
  end.
End Accessors.

(** A member of a reference that may be null is accessed. *)
Definition deref {S} (o : json) : M S unit := throw_if (is_null o) NullPointerException.
