(* ===== verification/RoomStore.v ===== *)
(** * The state of a room

    com/zeewain/rtc/lv/RoomStore.java and the classes of com/zeewain/rtc/model that it holds.
    SupplierMutableLiveData.postValue changes the object it holds at once and posts it to the
    observers of the user interface, which are not modelled.  Producers and consumers are
    pointers to the objects of the transports; a peer may be known under a null id. *)

From stdpp Require Import gmap.
From S2P Require Import Prelude Json Fastjson.

(** ** DeviceInfo, Peer *)

Record DeviceInfo := { mFlag : jstring; mName : jstring; mVersion : jstring }.

Definition unknownDevice : DeviceInfo :=
  {| mFlag := Some "unknown"; mName := Some "unknown"; mVersion := Some "unknown" |}.
(** [DEVICE] and [CODENAME] are those of android.os.Build. *)
Definition androidDevice (DEVICE CODENAME : string) : DeviceInfo :=
  {| mFlag := Some "android"; mName := Some ("Android " +:+ DEVICE); mVersion := Some CODENAME |}.
Definition DeviceInfo_toJSONObject (d : DeviceInfo) : json :=
  jobj [("flag", jstr (mFlag d)); ("name", jstr (mName d)); ("version", jstr (mVersion d))].

Record Peer := {
  peer_id : jstring;
  peer_displayName : jstring;
  peer_device : DeviceInfo;
  peer_consumers : gset string;
  peer_dataConsumers : gset string
}.

Definition set_peer_consumers (c : gset string) (p : Peer) : Peer :=
  {| peer_id := peer_id p; peer_displayName := peer_displayName p; peer_device := peer_device p;
     peer_consumers := c; peer_dataConsumers := peer_dataConsumers p |}.
Definition set_peer_dataConsumers (c : gset string) (p : Peer) : Peer :=
  {| peer_id := peer_id p; peer_displayName := peer_displayName p; peer_device := peer_device p;
     peer_consumers := peer_consumers p; peer_dataConsumers := c |}.
Definition Peer_setDisplayName (n : jstring) (p : Peer) : Peer :=
  {| peer_id := peer_id p; peer_displayName := n; peer_device := peer_device p;
     peer_consumers := peer_consumers p; peer_dataConsumers := peer_dataConsumers p |}.
Definition Peer_setDevice (d : DeviceInfo) (p : Peer) : Peer :=
  {| peer_id := peer_id p; peer_displayName := peer_displayName p; peer_device := d;
     peer_consumers := peer_consumers p; peer_dataConsumers := peer_dataConsumers p |}.

Definition Peer_new `{Fastjson} (info : json) : result Peer :=
  let? deviceInfo := getJSONObject "device" info in
  Ok {| peer_id := getString "id" info; peer_displayName := getString "displayName" info;
        peer_device :=
          if is_null deviceInfo then unknownDevice
          else {| mFlag := getString "flag" deviceInfo; mName := getString "name" deviceInfo;
                  mVersion := getString "version" deviceInfo |};
        peer_consumers := ∅; peer_dataConsumers := ∅ |}.

(** ** Peers *)

(** A LinkedHashMap: a key that is put again keeps its place. *)
Abbreviation Peers := (list (jstring * Peer)).

Fixpoint getPeer (peerId : jstring) (ps : Peers) : option Peer :=
  match ps with
  | [] => None
  | (k, p) :: ps => if bool_decide (k = peerId) then Some p else getPeer peerId ps
  end.
Fixpoint putPeer (peerId : jstring) (p : Peer) (ps : Peers) : Peers :=
  match ps with
  | [] => [(peerId, p)]
  | (k, q) :: ps =>
      if bool_decide (k = peerId) then (k, p) :: ps else (k, q) :: putPeer peerId p ps
  end.

Definition Peers_addPeer `{Fastjson} (peerId : jstring) (peerInfo : json) (ps : Peers) :
    result Peers :=
  let? p := Peer_new peerInfo in Ok (putPeer peerId p ps).
Definition Peers_removePeer (peerId : jstring) (ps : Peers) : Peers :=
  filter (fun kp => kp.1 <> peerId) ps.

(** The peer is changed if there is one. *)
Definition withPeer (peerId : jstring) (f : Peer -> Peer) (ps : Peers) : Peers :=
  match getPeer peerId ps with
  | None => ps
  | Some p => putPeer peerId (f p) ps
  end.
Definition Peers_setPeerDisplayName (peerId displayName : jstring) : Peers -> Peers :=
  withPeer peerId (Peer_setDisplayName displayName).
Definition Peers_addConsumer (peerId : jstring) (consumerId : string) : Peers -> Peers :=
  withPeer peerId (fun p => set_peer_consumers ({[consumerId]} ∪ peer_consumers p) p).
Definition Peers_removeConsumer (peerId : jstring) (consumerId : string) : Peers -> Peers :=
  withPeer peerId (fun p => set_peer_consumers (peer_consumers p ∖ {[consumerId]}) p).
Definition Peers_addDataConsumer (peerId : jstring) (consumerId : string) : Peers -> Peers :=
  withPeer peerId (fun p => set_peer_dataConsumers ({[consumerId]} ∪ peer_dataConsumers p) p).
Definition Peers_removeDataConsumer (peerId : jstring) (consumerId : string) : Peers -> Peers :=
  withPeer peerId (fun p => set_peer_dataConsumers (peer_dataConsumers p ∖ {[consumerId]}) p).
Definition getAllPeers (ps : Peers) : list Peer := ps.*2.
Definition Peers_clear (_ : Peers) : Peers := [].

(** A Java object that wraps a producer or a consumer: the position of its transport among those
    that were created, and its pointer in that transport. *)
Abbreviation jref := (nat * nat)%type.

(** ** Producers *)

Record ProducersWrapper := { wrapper_producer : jref; wrapper_score : json; wrapper_type : jstring }.
Abbreviation Producers := (gmap string ProducersWrapper).

Definition Producers_addProducer (producerId : string) (producer : jref) (ps : Producers) :
    Producers :=
  <[producerId := {| wrapper_producer := producer; wrapper_score := JNull; wrapper_type := None |}]> ps.
Definition Producers_removeProducer (producerId : string) (ps : Producers) : Producers :=
  delete producerId ps.
(** The producer that setProducerPaused and setProducerResumed pause and resume. *)
Definition Producers_find (producerId : string) (ps : Producers) : option jref :=
  wrapper_producer <$> ps !! producerId.
Definition Producers_setProducerScore (producerId : string) (score : json) (ps : Producers) :
    Producers :=
  alter (fun w => {| wrapper_producer := wrapper_producer w; wrapper_score := score;
                     wrapper_type := wrapper_type w |}) producerId ps.
(** [trackKind] is the kind of the track of a producer, [None] without a track. *)
Definition Producers_filter (trackKind : jref -> jstring) (kind : string) (ps : Producers) :
    option ProducersWrapper :=
  List.find (fun w => equals kind (trackKind (wrapper_producer w))) (map_to_list ps).*2.

Definition Producers_clear (_ : Producers) : Producers := ∅.

(** ** Consumers *)

Record ConsumerWrapper := {
  mType : jstring;
  mLocallyPaused : bool;
  mRemotelyPaused : bool;
  mSpatialLayer : Z;
  mTemporalLayer : Z;
  mConsumer : jref;
  mScore : json;
  mPreferredSpatialLayer : Z;
  mPreferredTemporalLayer : Z
}.
Definition ConsumerWrapper_new (type : jstring) (remotelyPaused : bool) (consumer : jref) :
    ConsumerWrapper :=
  {| mType := type; mLocallyPaused := false; mRemotelyPaused := remotelyPaused;
     mSpatialLayer := -1; mTemporalLayer := -1; mConsumer := consumer; mScore := JNull;
     mPreferredSpatialLayer := -1; mPreferredTemporalLayer := -1 |}.
Abbreviation Consumers := (gmap string ConsumerWrapper).

Definition Consumers_addConsumer (type : jstring) (consumerId : string) (consumer : jref)
    (remotelyPaused : bool) (cs : Consumers) : Consumers :=
  <[consumerId := ConsumerWrapper_new type remotelyPaused consumer]> cs.
Definition Consumers_removeConsumer (consumerId : string) (cs : Consumers) : Consumers :=
  delete consumerId cs.
(** [setConsumerPaused] and [setConsumerResumed] *)
Definition Consumers_setPaused (paused : bool) (consumerId : string) (originator : jstring)
    (cs : Consumers) : Consumers :=
  alter (fun w =>
    let 'Build_ConsumerWrapper t l r s tl c sc ps pt := w in
    if equals "local" originator then Build_ConsumerWrapper t paused r s tl c sc ps pt
    else Build_ConsumerWrapper t l paused s tl c sc ps pt) consumerId cs.
Definition Consumers_setConsumerCurrentLayers (consumerId : string) (spatial temporal : Z)
    (cs : Consumers) : Consumers :=
  alter (fun w => let 'Build_ConsumerWrapper t l r _ _ c sc ps pt := w in
    Build_ConsumerWrapper t l r spatial temporal c sc ps pt) consumerId cs.
Definition Consumers_setConsumerScore (consumerId : string) (score : json) (cs : Consumers) :
    Consumers :=
  alter (fun w => let 'Build_ConsumerWrapper t l r s tl c _ ps pt := w in
    Build_ConsumerWrapper t l r s tl c score ps pt) consumerId cs.

Definition Consumers_clear (_ : Consumers) : Consumers := ∅.

(** A map of data consumers. *)
Abbreviation DataConsumers := (gmap string jref).

(** ** Me *)

Record Me := {
  me_id : jstring;
  me_displayName : jstring;
  mDisplayNameSet : bool;
  me_device : option DeviceInfo;
  mCanSendMic : bool;
  mCanSendCam : bool;
  mCanChangeCam : bool;
  mCamInProgress : bool;
  mShareInProgress : bool;
  mAudioOnly : bool;
  mAudioOnlyInProgress : bool;
  mAudioMuted : bool;
  mRestartIceInProgress : bool
}.
Definition Me_new : Me :=
  Build_Me None None false None false false false false false false false false false.
Definition Me_setId (v : jstring) (m : Me) : Me :=
  let 'Build_Me _ n ns d mic cam ch cp sp ao aop mu ice := m in
  Build_Me v n ns d mic cam ch cp sp ao aop mu ice.
Definition Me_setDisplayName (v : jstring) (m : Me) : Me :=
  let 'Build_Me i _ ns d mic cam ch cp sp ao aop mu ice := m in
  Build_Me i v ns d mic cam ch cp sp ao aop mu ice.
Definition Me_setDisplayNameSet (b : bool) (m : Me) : Me :=
  let 'Build_Me i n _ d mic cam ch cp sp ao aop mu ice := m in
  Build_Me i n b d mic cam ch cp sp ao aop mu ice.
Definition Me_setDevice (v : option DeviceInfo) (m : Me) : Me :=
  let 'Build_Me i n ns _ mic cam ch cp sp ao aop mu ice := m in
  Build_Me i n ns v mic cam ch cp sp ao aop mu ice.
Definition Me_setCanSendMic (b : bool) (m : Me) : Me :=
  let 'Build_Me i n ns d _ cam ch cp sp ao aop mu ice := m in
  Build_Me i n ns d b cam ch cp sp ao aop mu ice.
Definition Me_setCanSendCam (b : bool) (m : Me) : Me :=
  let 'Build_Me i n ns d mic _ ch cp sp ao aop mu ice := m in
  Build_Me i n ns d mic b ch cp sp ao aop mu ice.
Definition Me_setCanChangeCam (b : bool) (m : Me) : Me :=
  let 'Build_Me i n ns d mic cam _ cp sp ao aop mu ice := m in
  Build_Me i n ns d mic cam b cp sp ao aop mu ice.
Definition Me_setCamInProgress (b : bool) (m : Me) : Me :=
  let 'Build_Me i n ns d mic cam ch _ sp ao aop mu ice := m in
  Build_Me i n ns d mic cam ch b sp ao aop mu ice.
Definition Me_setShareInProgress (b : bool) (m : Me) : Me :=
  let 'Build_Me i n ns d mic cam ch cp _ ao aop mu ice := m in
  Build_Me i n ns d mic cam ch cp b ao aop mu ice.
Definition Me_setAudioOnly (b : bool) (m : Me) : Me :=
  let 'Build_Me i n ns d mic cam ch cp sp _ aop mu ice := m in
  Build_Me i n ns d mic cam ch cp sp b aop mu ice.
Definition Me_setAudioOnlyInProgress (b : bool) (m : Me) : Me :=
  let 'Build_Me i n ns d mic cam ch cp sp ao _ mu ice := m in
  Build_Me i n ns d mic cam ch cp sp ao b mu ice.
Definition Me_setAudioMuted (b : bool) (m : Me) : Me :=
  let 'Build_Me i n ns d mic cam ch cp sp ao aop _ ice := m in
  Build_Me i n ns d mic cam ch cp sp ao aop b ice.
Definition Me_setRestartIceInProgress (b : bool) (m : Me) : Me :=
  let 'Build_Me i n ns d mic cam ch cp sp ao aop mu _ := m in
  Build_Me i n ns d mic cam ch cp sp ao aop mu b.
Definition Me_clear (m : Me) : Me :=
  let 'Build_Me i n ns d mic cam ch _ _ _ _ _ _ := m in
  Build_Me i n ns d mic cam ch false false false false false false.

(** ** RoomInfo, Notify *)

Record RoomInfo := {
  mUrl : jstring;
  mRoomId : jstring;
  mActiveSpeakerId : jstring;
  mStatsPeerId : jstring;
  mFaceDetection : bool
}.
Definition RoomInfo_new : RoomInfo := Build_RoomInfo None None None None false.
Definition setUrl (v : jstring) (r : RoomInfo) : RoomInfo :=
  let 'Build_RoomInfo _ i a s f := r in Build_RoomInfo v i a s f.
Definition setRoomId (v : jstring) (r : RoomInfo) : RoomInfo :=
  let 'Build_RoomInfo u _ a s f := r in Build_RoomInfo u v a s f.
Definition setActiveSpeakerId (v : jstring) (r : RoomInfo) : RoomInfo :=
  let 'Build_RoomInfo u i _ s f := r in Build_RoomInfo u i v s f.
Definition setStatsPeerId (v : jstring) (r : RoomInfo) : RoomInfo :=
  let 'Build_RoomInfo u i a _ f := r in Build_RoomInfo u i a v f.
Definition setFaceDetection (v : bool) (r : RoomInfo) : RoomInfo :=
  let 'Build_RoomInfo u i a s _ := r in Build_RoomInfo u i a s v.

Record Notify := {
  notify_type : jstring;
  notify_title : jstring;
  notify_text : jstring;
  notify_timeout : Z
}.
(** The id is random. *)
Definition Notify_new (type title text : jstring) (timeout : Z) : Notify :=
  {| notify_type := type; notify_title := title; notify_text := text;
     notify_timeout :=
       if timeout =? 0 then
         if equals "info" type then 3000 else if equals "error" type then 5000 else timeout
       else timeout |}.

(** ** RoomStore *)

Record RoomStore := {
  roomInfo : RoomInfo;
  me : Me;
  store_producers : Producers;
  peers : Peers;
  store_consumers : Consumers;
  store_dataConsumers : DataConsumers;
  notifies : list Notify            (* posted, the last one first *)
}.
Definition RoomStore_new : RoomStore := Build_RoomStore RoomInfo_new Me_new ∅ [] ∅ ∅ [].

Definition on_roomInfo (f : RoomInfo -> RoomInfo) (s : RoomStore) : RoomStore :=
  let 'Build_RoomStore r m p ps c d n := s in Build_RoomStore (f r) m p ps c d n.
Definition on_me (f : Me -> Me) (s : RoomStore) : RoomStore :=
  let 'Build_RoomStore r m p ps c d n := s in Build_RoomStore r (f m) p ps c d n.
Definition on_producers (f : Producers -> Producers) (s : RoomStore) : RoomStore :=
  let 'Build_RoomStore r m p ps c d n := s in Build_RoomStore r m (f p) ps c d n.
Definition on_peers (f : Peers -> Peers) (s : RoomStore) : RoomStore :=
  let 'Build_RoomStore r m p ps c d n := s in Build_RoomStore r m p (f ps) c d n.
Definition on_consumers (f : Consumers -> Consumers) (s : RoomStore) : RoomStore :=
  let 'Build_RoomStore r m p ps c d n := s in Build_RoomStore r m p ps (f c) d n.
Definition on_dataConsumers (f : DataConsumers -> DataConsumers) (s : RoomStore) : RoomStore :=
  let 'Build_RoomStore r m p ps c d n := s in Build_RoomStore r m p ps c (f d) n.
Definition post_notify (x : Notify) (s : RoomStore) : RoomStore :=
  let 'Build_RoomStore r m p ps c d n := s in Build_RoomStore r m p ps c d (x :: n).

Definition setRoomUrl (roomId url : jstring) : RoomStore -> RoomStore :=
  on_roomInfo (fun r => setUrl url (setRoomId roomId r)).
Definition setRoomActiveSpeaker (peerId : jstring) : RoomStore -> RoomStore :=
  on_roomInfo (setActiveSpeakerId peerId).
Definition setRoomStatsPeerId (peerId : jstring) : RoomStore -> RoomStore :=
  on_roomInfo (setStatsPeerId peerId).
Definition setRoomFaceDetection (enable : bool) : RoomStore -> RoomStore :=
  on_roomInfo (setFaceDetection enable).
Definition setMe (peerId displayName : jstring) (device : option DeviceInfo) :
    RoomStore -> RoomStore :=
  on_me (fun m => Me_setDevice device (Me_setDisplayName displayName (Me_setId peerId m))).
Definition setMediaCapabilities (canSendMic canSendCam : bool) : RoomStore -> RoomStore :=
  on_me (fun m => Me_setCanSendCam canSendCam (Me_setCanSendMic canSendMic m)).
(** The member [mCanChangeCam] is not set. *)
Definition setCanChangeCam (canChangeCam : bool) : RoomStore -> RoomStore :=
  on_me (Me_setCanSendCam canChangeCam).
Definition setDisplayName (displayName : jstring) : RoomStore -> RoomStore :=
  on_me (Me_setDisplayName displayName).
Definition setAudioOnlyState (enabled : bool) : RoomStore -> RoomStore :=
  on_me (Me_setAudioOnly enabled).
Definition setAudioOnlyInProgress (enabled : bool) : RoomStore -> RoomStore :=
  on_me (Me_setAudioOnlyInProgress enabled).
Definition setAudioMutedState (enabled : bool) : RoomStore -> RoomStore :=
  on_me (Me_setAudioMuted enabled).
Definition setRestartIceInProgress (b : bool) : RoomStore -> RoomStore :=
  on_me (Me_setRestartIceInProgress b).
Definition setCamInProgress (b : bool) : RoomStore -> RoomStore := on_me (Me_setCamInProgress b).

Definition addProducer (producerId : string) (producer : jref) : RoomStore -> RoomStore :=
  on_producers (Producers_addProducer producerId producer).
Definition removeProducer (producerId : string) : RoomStore -> RoomStore :=
  on_producers (Producers_removeProducer producerId).
Definition setProducerScore (producerId : string) (score : json) : RoomStore -> RoomStore :=
  on_producers (Producers_setProducerScore producerId score).

Definition addPeer `{Fastjson} (peerId : jstring) (peerInfo : json) (s : RoomStore) :
    result RoomStore :=
  let? ps := Peers_addPeer peerId peerInfo (peers s) in Ok (on_peers (fun _ => ps) s).
Definition setPeerDisplayName (peerId displayName : jstring) : RoomStore -> RoomStore :=
  on_peers (Peers_setPeerDisplayName peerId displayName).
Definition removePeer (peerId : jstring) (s : RoomStore) : RoomStore :=
  let isPeer x := negb (isEmpty peerId) && bool_decide (x = peerId) in
  on_peers (Peers_removePeer peerId)
    (on_roomInfo (fun r =>
       let r := if isPeer (mActiveSpeakerId r) then setActiveSpeakerId None r else r in
       if isPeer (mStatsPeerId r) then setStatsPeerId None r else r) s).

Definition addConsumer (peerId type : jstring) (consumerId : string) (consumer : jref)
    (remotelyPaused : bool) (s : RoomStore) : RoomStore :=
  on_peers (Peers_addConsumer peerId consumerId)
    (on_consumers (Consumers_addConsumer type consumerId consumer remotelyPaused) s).
Definition removeConsumer (peerId : jstring) (consumerId : string) (s : RoomStore) : RoomStore :=
  on_peers (Peers_removeConsumer peerId consumerId)
    (on_consumers (Consumers_removeConsumer consumerId) s).
Definition setConsumerPaused (consumerId : string) (originator : jstring) :
    RoomStore -> RoomStore :=
  on_consumers (Consumers_setPaused true consumerId originator).
Definition setConsumerResumed (consumerId : string) (originator : jstring) :
    RoomStore -> RoomStore :=
  on_consumers (Consumers_setPaused false consumerId originator).
Definition setConsumerCurrentLayers (consumerId : string) (spatial temporal : Z) :
    RoomStore -> RoomStore :=
  on_consumers (Consumers_setConsumerCurrentLayers consumerId spatial temporal).
Definition setConsumerScore (consumerId : string) (score : json) : RoomStore -> RoomStore :=
  on_consumers (Consumers_setConsumerScore consumerId score).

Definition addDataConsumer (peerId : jstring) (id : string) (dataConsumer : jref) (s : RoomStore) :
    RoomStore :=
  on_peers (Peers_addDataConsumer peerId id) (on_dataConsumers (insert id dataConsumer) s).
Definition removeDataConsumer (peerId : jstring) (id : string) (s : RoomStore) : RoomStore :=
  on_peers (Peers_removeDataConsumer peerId id) (on_dataConsumers (delete id) s).

Definition addNotify (type text : jstring) : RoomStore -> RoomStore :=
  post_notify (Notify_new type None text 0).
Definition addNotifyInfo (text : jstring) : RoomStore -> RoomStore := addNotify (Some "info") text.
Definition addNotifyTimeout (text : jstring) (timeout : Z) : RoomStore -> RoomStore :=
  post_notify (Notify_new (Some "info") None text timeout).
Definition addNotifyMessage (title text : jstring) : RoomStore -> RoomStore :=
  post_notify (Notify_new (Some "message") title text 5000).
(** A null reference is appended as its name. *)
Definition addNotifyError (text message : jstring) : RoomStore -> RoomStore :=
  addNotify (Some "error") (Some (default "null" text +:+ default "null" message)).

(** ** Lemmas *)

Lemma getPeer_put_eq k p ps : getPeer k (putPeer k p ps) = Some p.
Proof.
  induction ps as [|[k' q] ps IH]; simpl; [by rewrite bool_decide_true|].
  case_bool_decide; simpl; [by rewrite bool_decide_true|by rewrite bool_decide_false].
Qed.
Lemma getPeer_put_ne k k' p ps : k <> k' -> getPeer k' (putPeer k p ps) = getPeer k' ps.
Proof.
  intros Hne. induction ps as [|[j q] ps IH]; simpl; [by rewrite bool_decide_false|].
  destruct (bool_decide_reflect (j = k)) as [->|Hj]; simpl.
  - by rewrite !bool_decide_false.
  - by rewrite IH.
Qed.
Lemma getPeer_remove k k' ps :
  getPeer k' (Peers_removePeer k ps) = if bool_decide (k' = k) then None else getPeer k' ps.
Proof.
  unfold Peers_removePeer. induction ps as [|[j q] ps IH]; simpl; [by case_bool_decide|].
  destruct (decide (j = k)) as [->|Hj].
  - rewrite filter_cons_False by (simpl; tauto). rewrite IH.
    destruct (bool_decide_reflect (k' = k)) as [->|]; [done|]. by rewrite (bool_decide_false (k = k')).
  - rewrite filter_cons_True by done. simpl. rewrite IH.
    destruct (bool_decide_reflect (k' = k)) as [->|]; [by rewrite bool_decide_false|done].
Qed.
Lemma getPeer_with k k' f ps :
  getPeer k' (withPeer k f ps) =
  if bool_decide (k' = k) then f <$> getPeer k ps else getPeer k' ps.
Proof.
  unfold withPeer. destruct (bool_decide_reflect (k' = k)) as [->|Hne].
  - destruct (getPeer k ps) eqn:E; simpl; [apply getPeer_put_eq|done].
  - destruct (getPeer k ps); [by apply getPeer_put_ne|done].
Qed.
