(* ===== verification/Droid.v ===== *)
(** * The Java API of the media stack

    The classes of org/mediasoup/droid with the native code behind them (src/main/jni): values
    cross the boundary as JSON text, a C++ exception becomes a MediasoupException where the
    native code catches it and ends the process where it does not, and an object that was
    disposed must not be used.  A Java object that wraps a producer or a consumer is the pointer
    of the native object; nothing frees these. *)

From stdpp Require Import gmap.
From S2P Require Import Prelude Json JsonDump JsonParser OrtcValidate Ortc MediaSection RemoteSdp.
From S2P Require Import PeerConnection Handler Transport SendTransport RecvTransport Device Fastjson.

(** ** Calls between the languages *)

Section Calls.
Context {S A : Type}.

(** Native code with [try { ... } catch (const std::exception& e)]. *)
Definition native_try (m : M S A) : M S A := fun s =>
  match m s with
  | (Throw e, s') => (Throw (if is_std_exception e then MediasoupException e else e), s')
  | o => o
  end.
(** Native code without it: nothing may leave it. *)
Definition native_bare (m : M S A) : M S A := fun s =>
  match m s with
  | (Throw _, s') => (Throw ProcessAborted, s')
  | o => o
  end.
(** A Java method that native code calls: the generated code checks that it threw nothing. *)
Definition upcall (m : M S A) : M S A := fun s =>
  match m s with
  | (Throw _, s') => (Throw ProcessAborted, s')
  | o => o
  end.
End Calls.

Definition JavaToNativeString (s : jstring) : result string :=
  match s with Some s => Ok s | None => Throw ProcessAborted end.
(** An argument that is JSON text. *)
Definition json_argument (s : jstring) : result json :=
  let? s := JavaToNativeString s in json_parse s.
(** An argument that may be null. *)
Definition optional_json (d : json) (s : jstring) : result json :=
  match s with None => Ok d | Some s => json_parse s end.
Definition optional_string (s : jstring) : string := default "" s.
Definition nullable_json (s : jstring) : result (option json) :=
  match s with None => Ok None | Some s => let? v := json_parse s in Ok (Some v) end.

(** What else the data channels of webrtc do. *)
Class DataChannels `{Webrtc} := {
  channel_label : Channel -> string;
  channel_protocol : Channel -> string;
  channel_state : Channel -> World -> DataState;
  buffered_amount : Channel -> World -> Z;
  send_data : Channel -> string -> bool -> World -> World
}.

Section Droid.
Context `{Webrtc}.

(** ** Device.java, device_jni.cpp *)

(** [None] when it was disposed *)
Abbreviation JDevice := (option Device).
Definition JDM (A : Type) : Type := M (JDevice * World) A.

Definition checkDeviceExists {A} (m : DM A) : JDM A := fun st =>
  match st.1 with
  | None => (Throw (IllegalStateException "Device has been disposed."), st)
  | Some d => let '(r, (d, w)) := m (d, st.2) in (r, (Some d, w))
  end.

Definition JDevice_new : JDevice := Some Device_new.
Definition JDevice_dispose : JDM unit :=
  do! checkDeviceExists (ret tt) in fun st => (Ok tt, (None, st.2)).
Definition JDevice_load (routerRtpCapabilities : jstring) : JDM unit :=
  checkDeviceExists (native_try
    (let! capabilities := lift (json_argument routerRtpCapabilities) in Device_Load capabilities)).
Definition JDevice_isLoaded : JDM bool := checkDeviceExists (native_bare IsLoaded).
Definition JDevice_getRtpCapabilities : JDM string :=
  checkDeviceExists (native_try (let! v := GetRtpCapabilities in lift (dump v))).
Definition JDevice_getSctpCapabilities : JDM string :=
  checkDeviceExists (native_try (let! v := GetSctpCapabilities in lift (dump v))).
Definition JDevice_canProduce (kind : jstring) : JDM bool :=
  checkDeviceExists (native_try
    (let! kind := lift (JavaToNativeString kind) in CanProduce kind)).

(** A transport and whether it was disposed. *)
Record JTransport (T : Type) := { native : T; freed : bool }.
Arguments native {T}.
Arguments freed {T}.
Definition wrap {T} (t : T) : JTransport T := {| native := t; freed := false |}.

(** [create] is CreateSendTransport or CreateRecvTransport. *)
Definition createTransport {T}
    (create : string -> json -> json -> json -> json -> json -> DM T)
    (id iceParameters iceCandidates dtlsParameters sctpParameters appData : jstring) :
    JDM (JTransport T) :=
  checkDeviceExists (native_try
    (let! iceParameters := lift (JavaToNativeString iceParameters) in
     let! iceCandidates := lift (JavaToNativeString iceCandidates) in
     let! dtlsParameters := lift (JavaToNativeString dtlsParameters) in
     let! appData := lift (optional_json (JObject []) appData) in
     let! sctpParameters := lift (optional_json JNull sctpParameters) in
     let! id := lift (JavaToNativeString id) in
     let! iceParameters := lift (json_parse iceParameters) in
     let! iceCandidates := lift (json_parse iceCandidates) in
     let! dtlsParameters := lift (json_parse dtlsParameters) in
     let! t := create id iceParameters iceCandidates dtlsParameters sctpParameters appData in
     ret (wrap t))).
Definition JDevice_createSendTransport :
    jstring -> jstring -> jstring -> jstring -> jstring -> jstring -> JDM (JTransport SendTransport) :=
  createTransport CreateSendTransport.
Definition JDevice_createRecvTransport :
    jstring -> jstring -> jstring -> jstring -> jstring -> jstring -> JDM (JTransport RecvTransport) :=
  createTransport CreateRecvTransport.

(** ** Transport.java *)

Section Base.
Context {T : Type} {derived : Derived T}.

Definition JTM (A : Type) : Type := M (JTransport T * World) A.

(** Runs on the native transport, whose pointer is null when it was disposed. *)
Definition on_native {A} (m : TM T A) : JTM A := fun st =>
  if freed st.1 then (Undef, st)
  else let '(r, (t, w)) := m (native st.1, st.2) in (r, (wrap t, w)).
Definition checkTransportExists {A} (name : string) (m : TM T A) : JTM A := fun st =>
  if freed st.1 then (Throw (IllegalStateException (name +:+ " has been disposed.")), st)
  else on_native m st.

Definition JTransport_getId : JTM string :=
  on_native (let! st := get in ret (transport_id (base st.1))).
Definition JTransport_getConnectionState : JTM string :=
  on_native (let! st := get in ret (iceConnectionState2String (connectionState (base st.1)))).
Definition JTransport_getAppData : JTM string :=
  on_native (native_bare (let! st := get in lift (dump (transport_appData (base st.1))))).
Definition JTransport_getStats : JTM string :=
  on_native (native_try (let! v := Transport_GetStats in lift (dump v))).
Definition JTransport_isClosed : JTM bool := on_native isClosed.
(** [restart] is the RestartIce of the class. *)
Definition JTransport_restartIce (restart : json -> TM T unit) (iceParameters : jstring) :
    JTM unit :=
  on_native (native_try
    (let! v := lift (optional_json (JObject []) iceParameters) in restart v)).
Definition JTransport_updateIceServers (iceServers : jstring) : JTM unit :=
  on_native (native_try
    (let! v := lift (optional_json (JArray []) iceServers) in Transport_UpdateIceServers v)).
Definition JTransport_close (close : TM T unit) : JTM unit := on_native (native_bare close).
(** The native object is deleted, not closed. *)
Definition JTransport_dispose (name : string) : JTM unit :=
  do! checkTransportExists name (ret tt) in
  fun st => (Ok tt, ({| native := native st.1; freed := true |}, st.2)).
End Base.
Arguments JTM T A : clear implicits.

(** ** SendTransport.java, Producer.java, DataProducer.java *)

Abbreviation JSend := (JTransport SendTransport).
Definition JSM (A : Type) : Type := JTM SendTransport A.

Section Send.
Context (OnConnect : json -> M World unit).
Context (OnProduce : string -> json -> json -> M World string).
Context (OnProduceData : json -> string -> string -> json -> M World string).

Definition JSendTransport_produce (track : option Track) (encodings : list RtpEncodingParameters)
    (codecOptions codec appData : jstring) : JSM nat :=
  checkTransportExists "SendTransport" (native_try
    (let! codecOptions := lift (nullable_json codecOptions) in
     let! codec := lift (nullable_json codec) in
     let! appData := lift (optional_json (JObject []) appData) in
     SendTransport_Produce OnConnect OnProduce track (Some encodings) codecOptions codec appData)).

(** It is not checked whether the transport was disposed. *)
Definition JSendTransport_produceData (label protocol : jstring) (ordered : bool)
    (maxRetransmits maxPacketLifeTime : Z) (appData : jstring) : JSM nat :=
  on_native (native_try
    (let! appData := lift (optional_json (JObject []) appData) in
     SendTransport_ProduceData OnConnect OnProduceData (optional_string label)
       (optional_string protocol) ordered maxRetransmits maxPacketLifeTime appData)).
End Send.

(** An object whose transport was deleted: an open one would call it. *)
Definition object_of {T A B} (objs : T -> list A) (closed : A -> bool) (p : nat)
    (m : A -> M (JTransport T * World) B) : M (JTransport T * World) B := fun st =>
  match objs (native st.1) !! p with
  | Some a => if freed st.1 && negb (closed a) then (Undef, st) else m a st
  | None => (Undef, st)
  end.
(** Reads the object. *)
Definition read_object {T A B} (objs : T -> list A) (p : nat) (f : A -> World -> result B) :
    M (JTransport T * World) B := fun st =>
  match objs (native st.1) !! p with
  | Some a => (f a st.2, st)
  | None => (Undef, st)
  end.
(** The native object runs; the transport may be deleted when the object is closed. *)
Definition in_native {T A} (m : TM T A) : M (JTransport T * World) A := fun st =>
  let '(r, (t, w)) := m (native st.1, st.2) in
  (r, ({| native := t; freed := freed st.1 |}, w)).

Definition all_producers (t : SendTransport) : list Producer := objects (producers t).
Definition all_dataProducers (t : SendTransport) : list DataProducer := objects (dataProducers t).

Definition JProducer_getId (p : nat) : JSM string :=
  read_object all_producers p (fun a _ => Ok (producer_id a)).
Definition JProducer_isClosed (p : nat) : JSM bool :=
  read_object all_producers p (fun a _ => Ok (producer_closed a)).
Definition JProducer_getKind (p : nat) : JSM string :=
  read_object all_producers p (fun a _ => Ok (track_kind (producer_track a))).
Definition JProducer_getTrack (p : nat) : JSM Track :=
  read_object all_producers p (fun a _ => Ok (producer_track a)).
Definition JProducer_isPaused (p : nat) : JSM bool :=
  read_object all_producers p (fun a w => Ok (Producer_IsPaused a w)).
Definition JProducer_getMaxSpatialLayer (p : nat) : JSM Z :=
  read_object all_producers p (fun a _ => Ok (maxSpatialLayer a)).
Definition JProducer_getAppData (p : nat) : JSM string :=
  native_bare (read_object all_producers p (fun a _ => dump (producer_appData a))).
Definition JProducer_getRtpParameters (p : nat) : JSM string :=
  native_bare (read_object all_producers p (fun a _ => dump (producer_rtpParameters a))).
Definition JProducer_getStats (p : nat) : JSM string :=
  object_of all_producers producer_closed p (fun _ =>
    native_try (let! v := in_native (Producer_GetStats p) in lift (dump v))).
Definition JProducer_pause (p : nat) : JSM unit := native_bare (in_native (Producer_Pause p)).
Definition JProducer_resume (p : nat) : JSM unit := native_bare (in_native (Producer_Resume p)).
(** The [jint] is cast to [uint8_t]. *)
Definition JProducer_setMaxSpatialLayer (p : nat) (layer : Z) : JSM unit :=
  object_of all_producers producer_closed p (fun _ =>
    native_try (in_native (Producer_SetMaxSpatialLayer p (uint 8 layer)))).
Definition JProducer_replaceTrack (p : nat) (track : option Track) : JSM unit :=
  object_of all_producers producer_closed p (fun _ =>
    native_try (in_native (Producer_ReplaceTrack p track))).
Definition JProducer_close (p : nat) : JSM unit :=
  object_of all_producers producer_closed p (fun _ => native_bare (in_native (Producer_Close p))).

Definition JDataProducer_getId (p : nat) : JSM string :=
  read_object all_dataProducers p (fun a _ => Ok (dataProducer_id a)).
Definition JDataProducer_getLocalId (p : nat) : JSM string :=
  read_object all_dataProducers p (fun a w => Ok (to_string (channel_id (dataProducer_channel a) w))).
Definition JDataProducer_getSctpStreamParameters (p : nat) : JSM string :=
  native_bare (read_object all_dataProducers p (fun a _ =>
    dump (dataProducer_sctpStreamParameters a))).
Definition JDataProducer_getAppData (p : nat) : JSM string :=
  native_bare (read_object all_dataProducers p (fun a _ => dump (dataProducer_appData a))).
Definition JDataProducer_isClosed (p : nat) : JSM bool :=
  read_object all_dataProducers p (fun a _ => Ok (dataProducer_closed a)).
Definition JDataProducer_close (p : nat) : JSM unit :=
  object_of all_dataProducers dataProducer_closed p (fun _ =>
    native_bare (in_native (DataProducer_Close p))).

Section DataProducer.
Context `{!DataChannels}.
Definition JDataProducer_getReadyState (p : nat) : JSM DataState :=
  read_object all_dataProducers p (fun a w => Ok (channel_state (dataProducer_channel a) w)).
Definition JDataProducer_getLabel (p : nat) : JSM string :=
  read_object all_dataProducers p (fun a _ => Ok (channel_label (dataProducer_channel a))).
Definition JDataProducer_getProtocol (p : nat) : JSM string :=
  read_object all_dataProducers p (fun a _ => Ok (channel_protocol (dataProducer_channel a))).
Definition JDataProducer_getBufferedAmount (p : nat) : JSM Z :=
  read_object all_dataProducers p (fun a w => Ok (buffered_amount (dataProducer_channel a) w)).
Definition JDataProducer_send (p : nat) (data : string) (binary : bool) : JSM unit := fun st =>
  match all_dataProducers (native st.1) !! p with
  | Some a => (Ok tt, (st.1, send_data (dataProducer_channel a) data binary st.2))
  | None => (Undef, st)
  end.
End DataProducer.

(** ** RecvTransport.java, Consumer.java, DataConsumer.java *)

Abbreviation JRecv := (JTransport RecvTransport).
Definition JRM (A : Type) : Type := JTM RecvTransport A.

Section Recv.
Context (OnConnect : json -> M World unit).

Definition JRecvTransport_consume (id producerId kind rtpParameters appData : jstring) : JRM nat :=
  checkTransportExists "RecvTransport" (native_try
    (let! id := lift (JavaToNativeString id) in
     let! producerId := lift (JavaToNativeString producerId) in
     let! kind := lift (JavaToNativeString kind) in
     let! rtpParameters := lift (optional_json (JObject []) rtpParameters) in
     let! appData := lift (optional_json (JObject []) appData) in
     RecvTransport_Consume OnConnect id producerId kind (Some rtpParameters) appData)).

(** The [jlong] is converted to [uint16_t]. *)
Definition JRecvTransport_consumeData (id producerId : jstring) (streamId : Z)
    (label protocol appData : jstring) : JRM nat :=
  checkTransportExists "RecvTransport" (native_try
    (let! id := lift (JavaToNativeString id) in
     let! producerId := lift (JavaToNativeString producerId) in
     let! appData := lift (optional_json (JObject []) appData) in
     RecvTransport_ConsumeData OnConnect id producerId (uint 16 streamId) (optional_string label)
       (optional_string protocol) appData)).
End Recv.

Definition all_consumers (t : RecvTransport) : list Consumer := objects (consumers t).
Definition all_dataConsumers (t : RecvTransport) : list DataConsumer := objects (dataConsumers t).

Definition JConsumer_getId (p : nat) : JRM string :=
  read_object all_consumers p (fun c _ => Ok (consumer_id c)).
Definition JConsumer_getLocalId (p : nat) : JRM string :=
  read_object all_consumers p (fun c _ => Ok (consumer_localId c)).
Definition JConsumer_getProducerId (p : nat) : JRM string :=
  read_object all_consumers p (fun c _ => Ok (consumer_producerId c)).
Definition JConsumer_isClosed (p : nat) : JRM bool :=
  read_object all_consumers p (fun c _ => Ok (consumer_closed c)).
Definition JConsumer_isPaused (p : nat) : JRM bool :=
  read_object all_consumers p (fun c w => Ok (Consumer_IsPaused c w)).
Definition JConsumer_getKind (p : nat) : JRM string :=
  read_object all_consumers p (fun c _ => Ok (track_kind (consumer_track c))).
Definition JConsumer_getTrack (p : nat) : JRM Track :=
  read_object all_consumers p (fun c _ => Ok (consumer_track c)).
Definition JConsumer_getRtpParameters (p : nat) : JRM string :=
  native_bare (read_object all_consumers p (fun c _ => dump (consumer_rtpParameters c))).
Definition JConsumer_getAppData (p : nat) : JRM string :=
  native_bare (read_object all_consumers p (fun c _ => dump (consumer_appData c))).
Definition JConsumer_pause (p : nat) : JRM unit := native_bare (in_native (Consumer_Pause p)).
Definition JConsumer_resume (p : nat) : JRM unit := native_bare (in_native (Consumer_Resume p)).
Definition JConsumer_getStats (p : nat) : JRM string :=
  object_of all_consumers consumer_closed p (fun _ =>
    native_try (let! v := in_native (Consumer_GetStats p) in lift (dump v))).
Definition JConsumer_close (p : nat) : JRM unit :=
  object_of all_consumers consumer_closed p (fun _ => native_bare (in_native (Consumer_Close p))).

Definition JDataConsumer_getId (p : nat) : JRM string :=
  read_object all_dataConsumers p (fun c _ => Ok (dataConsumer_id c)).
Definition JDataConsumer_getLocalId (p : nat) : JRM string :=
  read_object all_dataConsumers p (fun c w => Ok (to_string (channel_id (dataConsumer_channel c) w))).
Definition JDataConsumer_getDataProducerId (p : nat) : JRM string :=
  read_object all_dataConsumers p (fun c _ => Ok (dataProducerId c)).
Definition JDataConsumer_getSctpStreamParameters (p : nat) : JRM string :=
  native_bare (read_object all_dataConsumers p (fun c _ => dump (dataConsumer_sctpParameters c))).
Definition JDataConsumer_getAppData (p : nat) : JRM string :=
  native_bare (read_object all_dataConsumers p (fun c _ => dump (dataConsumer_appData c))).
Definition JDataConsumer_isClosed (p : nat) : JRM bool :=
  read_object all_dataConsumers p (fun c _ => Ok (dataConsumer_closed c)).
Definition JDataConsumer_close (p : nat) : JRM unit :=
  object_of all_dataConsumers dataConsumer_closed p (fun _ =>
    native_bare (in_native (DataConsumer_Close p))).

Section DataConsumer.
Context `{!DataChannels}.
Definition JDataConsumer_getReadyState (p : nat) : JRM DataState :=
  read_object all_dataConsumers p (fun c w => Ok (channel_state (dataConsumer_channel c) w)).
Definition JDataConsumer_getLabel (p : nat) : JRM string :=
  read_object all_dataConsumers p (fun c _ => Ok (channel_label (dataConsumer_channel c))).
Definition JDataConsumer_getProtocol (p : nat) : JRM string :=
  read_object all_dataConsumers p (fun c _ => Ok (channel_protocol (dataConsumer_channel c))).
End DataConsumer.
End Droid.
Arguments native {T}.
Arguments freed {T}.
