(* ===== verification/DroidSpec.v ===== *)
(** * The Java API of the media stack: the proofs

    What the calls of the wrapped transports do to the maps of their objects, to their flags and
    to the events that the listeners are told. *)

From stdpp Require Import gmap.
From S2P Require Import Prelude Json OrtcValidate Ortc MediaSection RemoteSdp.
From S2P Require Import PeerConnection Handler HandlerFrame Transport SendTransport RecvTransport.
From S2P Require Import TransportSpec RecvTransportSpec Device Fastjson Droid.

Lemma native_try_state {S A} (m : M S A) s : snd (native_try m s) = snd (m s).
Proof. unfold native_try. by destruct (m s) as [[] ?]. Qed.
Lemma native_bare_state {S A} (m : M S A) s : snd (native_bare m s) = snd (m s).
Proof. unfold native_bare. by destruct (m s) as [[] ?]. Qed.
Lemma native_try_ok {S A} (m : M S A) s a s' :
  native_try m s = (Ok a, s') -> m s = (Ok a, s').
Proof. unfold native_try. by destruct (m s) as [[] ?]; intros [= <- <-]. Qed.
Lemma preserves_native_try {S A} (P : S -> Prop) (m : M S A) :
  preserves P m -> preserves P (native_try m).
Proof. intros Hm s Hs. rewrite native_try_state. auto. Qed.
Lemma preserves_native_bare {S A} (P : S -> Prop) (m : M S A) :
  preserves P m -> preserves P (native_bare m).
Proof. intros Hm s Hs. rewrite native_bare_state. auto. Qed.
#[export] Hint Resolve preserves_native_try preserves_native_bare : preserve.

(** What a computation does when it returns, and when it does not. *)
Section Outcome.
Context {S A : Type} (done : S -> A -> S -> Prop) (failed : S -> S -> Prop).

Definition outcome (m : M S A) : Prop := forall s,
  match m s with
  | (Ok a, s') => done s a s'
  | (_, s') => failed s s'
  end.

Context (failed_refl : forall s, failed s s).
Lemma outcome_lift {B} (x : result B) (k : B -> M S A) :
  (forall b, outcome (k b)) -> outcome (bind (lift x) k).
Proof. intros Hk s. unfold bind, lift. destruct x; [apply Hk|apply failed_refl..]. Qed.
Lemma outcome_native_try (m : M S A) : outcome m -> outcome (native_try m).
Proof. intros Hm s. specialize (Hm s). unfold native_try. by destruct (m s) as [[] ?]. Qed.
Lemma outcome_native_bare (m : M S A) : outcome m -> outcome (native_bare m).
Proof. intros Hm s. specialize (Hm s). unfold native_bare. by destruct (m s) as [[] ?]. Qed.
End Outcome.

Section Wrapped.
Context `{Webrtc} {T A : Type}.
Context (m : TM T A) (done : T * World -> A -> T * World -> Prop) (failed : T * World -> T * World -> Prop).
Context (jdone : JTransport T * World -> A -> JTransport T * World -> Prop).
Context (jfailed : JTransport T * World -> JTransport T * World -> Prop).
Context (jfailed_refl : forall st, jfailed st st).

Lemma on_native_outcome :
  outcome done failed m ->
  (forall st a st', freed st.1 = false -> done (native st.1, st.2) a st' ->
     jdone st a (wrap st'.1, st'.2)) ->
  (forall st st', freed st.1 = false -> failed (native st.1, st.2) st' ->
     jfailed st (wrap st'.1, st'.2)) ->
  outcome jdone jfailed (on_native m).
Proof.
  intros Hm Hd Hf st. unfold on_native. destruct (freed st.1) eqn:Ef; [apply jfailed_refl|].
  specialize (Hm (native st.1, st.2)).
  destruct (m _) as [[a|e|] [t w]]; [by apply (Hd st a (t, w))|by apply (Hf st (t, w))..].
Qed.

Lemma checked_outcome name :
  outcome jdone jfailed (on_native m) -> outcome jdone jfailed (checkTransportExists name m).
Proof.
  intros Hm st. unfold checkTransportExists. destruct (freed st.1); [apply jfailed_refl|apply Hm].
Qed.
End Wrapped.

Section Send.
Context `{Webrtc}.

(** ** The sending transport *)

Record send_view := {
  seen_producers : Registry Producer;
  seen_dataProducers : Registry DataProducer;
  send_closed : bool;
  send_freed : bool
}.
Definition view_send (t : JTransport SendTransport) : send_view :=
  {| seen_producers := producers (native t); seen_dataProducers := dataProducers (native t);
     send_closed := transport_closed (send_base (native t)); send_freed := freed t |}.
Definition send_told (t : JTransport SendTransport) : list event := events (send_base (native t)).

(** Nothing that the application can see has changed. *)
Definition quiet_send (t t' : JTransport SendTransport) : Prop :=
  view_send t' = view_send t /\ send_told t' = send_told t.

Section Frame.
Context (r : Registry Producer) (d : Registry DataProducer) (c : bool) (l : list event).
Abbreviation frames := (preserves (fun st : SendTransport * World =>
  producers st.1 = r /\ dataProducers st.1 = d /\
  transport_closed (send_base st.1) = c /\ events (send_base st.1) = l)).

Lemma sees_on_handler {A} (f : HM A) : frames (on_handler f).
Proof. intros [t w] Ht. unfold on_handler. simpl. by destruct (f _) as [? []]. Qed.
Lemma sees_in_world {A} (f : M World A) : frames (in_world f).
Proof. intros [t w] Ht. unfold in_world. simpl. by destruct (f w). Qed.
Lemma sees_isClosed : frames isClosed.
Proof. by intros [t w]. Qed.
#[local] Hint Resolve sees_on_handler sees_in_world sees_isClosed : preserve.
Lemma sees_ensureOpen msg : frames (ensureOpen msg).
Proof. unfold ensureOpen. preserve. Qed.
#[local] Hint Resolve sees_ensureOpen : preserve.

Context (OnConnect : json -> M World unit).
Context (OnProduce : string -> json -> json -> M World string).
Context (OnProduceData : json -> string -> string -> json -> M World string).

Lemma sees_newProducer track encodings options codec appData :
  frames (newProducer OnConnect OnProduce track encodings options codec appData).
Proof.
  unfold newProducer. apply preserves_bind; [preserve|]. intros _. destruct track; [|preserve].
  do 3 (apply preserves_bind; [preserve|intros ?]).
  apply preserves_bind; [destruct options; preserve|intros ?].
  apply preserves_bind; [preserve|intros ?]. unfold announceProducer. preserve.
Qed.
Lemma sees_newDataProducer label protocol ordered n t appData :
  frames (newDataProducer OnConnect OnProduceData label protocol ordered n t appData).
Proof. unfold newDataProducer. preserve. Qed.
End Frame.

Definition add_seen_producer (a : Producer) (v : send_view) : send_view :=
  {| seen_producers := register (producer_id a) a (seen_producers v);
     seen_dataProducers := seen_dataProducers v; send_closed := send_closed v;
     send_freed := send_freed v |}.
Definition add_seen_dataProducer (a : DataProducer) (v : send_view) : send_view :=
  {| seen_producers := seen_producers v;
     seen_dataProducers := register (dataProducer_id a) a (seen_dataProducers v);
     send_closed := send_closed v; send_freed := send_freed v |}.
(** The producer at [p] is closed. *)
Definition close_seen_producer (p : nat) (a : Producer) (v : send_view) : send_view :=
  {| seen_producers :=
       unregister (producer_id a) (set_object p (close_producer a) (seen_producers v));
     seen_dataProducers := seen_dataProducers v; send_closed := send_closed v;
     send_freed := send_freed v |}.

Section Calls.
Context (OnConnect : json -> M World unit).
Context (OnProduce : string -> json -> json -> M World string).
Context (OnProduceData : json -> string -> string -> json -> M World string).
Implicit Types (t : JTransport SendTransport) (w : World).


Definition same_send (st st' : SendTransport * World) : Prop :=
  producers st'.1 = producers st.1 /\ dataProducers st'.1 = dataProducers st.1 /\
  transport_closed (send_base st'.1) = transport_closed (send_base st.1) /\
  events (send_base st'.1) = events (send_base st.1).

Definition producer_added (st : SendTransport * World) (p : nat) (st' : SendTransport * World) :
    Prop :=
  transport_closed (send_base st.1) = false /\ p = length (objects (producers st.1)) /\
  exists a, producer_closed a = false /\
    producers st'.1 = register (producer_id a) a (producers st.1) /\
    dataProducers st'.1 = dataProducers st.1 /\
    transport_closed (send_base st'.1) = transport_closed (send_base st.1) /\
    events (send_base st'.1) = events (send_base st.1).

Lemma newProducer_ok track encodings options codec appData st a st' :
  newProducer OnConnect OnProduce track encodings options codec appData st = (Ok a, st') ->
  transport_closed (send_base st.1) = false /\ producer_closed a = false.
Proof.
  unfold newProducer, ensureOpen. rewrite run_bind_bind. unfold bind at 1, isClosed.
  rewrite run_bind_throw_if. simpl.
  destruct (transport_closed (send_base st.1)); [done|]. destruct track; [|done]. intros Hr.
  do 6 (apply bind_ok in Hr as (? & ? & _ & Hr)). by injection Hr as <- _.
Qed.
Lemma newDataProducer_ok label protocol ordered n time appData st a st' :
  newDataProducer OnConnect OnProduceData label protocol ordered n time appData st = (Ok a, st') ->
  dataProducer_closed a = false.
Proof.
  unfold newDataProducer. intros Hr. do 5 (apply bind_ok in Hr as (? & ? & _ & Hr)).
  by injection Hr as <- _.
Qed.

Lemma Produce_outcome track encodings options codec appData :
  outcome producer_added same_send
    (SendTransport_Produce OnConnect OnProduce track encodings options codec appData).
Proof.
  intros st. unfold SendTransport_Produce, bind.
  destruct (sees_newProducer (producers st.1) (dataProducers st.1)
    (transport_closed (send_base st.1)) (events (send_base st.1)) OnConnect OnProduce track
    encodings options codec appData st) as (E1 & E2 & E3 & E4); [done|].
  destruct (newProducer _ _ _ _ _ _ _ st) as [[a|e|] st'] eqn:Hn; simpl in *; [|done..].
  apply newProducer_ok in Hn as [Ho Hc]. unfold producer_added. simpl.
  rewrite E1, E2, E3, E4. eauto 10.
Qed.

Definition dataProducer_added (st : SendTransport * World) (p : nat) (st' : SendTransport * World) :
    Prop :=
  p = length (objects (dataProducers st.1)) /\
  exists a, dataProducer_closed a = false /\
    dataProducers st'.1 = register (dataProducer_id a) a (dataProducers st.1) /\
    producers st'.1 = producers st.1 /\
    transport_closed (send_base st'.1) = transport_closed (send_base st.1) /\
    events (send_base st'.1) = events (send_base st.1).

Lemma ProduceData_outcome label protocol ordered n time appData :
  outcome dataProducer_added same_send
    (SendTransport_ProduceData OnConnect OnProduceData label protocol ordered n time appData).
Proof.
  intros st. unfold SendTransport_ProduceData, bind.
  destruct (sees_newDataProducer (producers st.1) (dataProducers st.1)
    (transport_closed (send_base st.1)) (events (send_base st.1)) OnConnect OnProduceData label
    protocol ordered n time appData st) as (E1 & E2 & E3 & E4); [done|].
  destruct (newDataProducer _ _ _ _ _ _ _ _ st) as [[a|e|] st'] eqn:Hn; simpl in *; [|done..].
  apply newDataProducer_ok in Hn as Hc. unfold dataProducer_added. simpl.
  rewrite E1, E2, E3, E4. eauto 10.
Qed.

(** ** Through the Java API *)

Definition j_producer_added (st : JTransport SendTransport * World) (p : nat)
    (st' : JTransport SendTransport * World) : Prop :=
  send_closed (view_send st.1) = false /\ freed st.1 = false /\
  p = length (objects (seen_producers (view_send st.1))) /\
  send_told st'.1 = send_told st.1 /\
  exists a, producer_closed a = false /\ view_send st'.1 = add_seen_producer a (view_send st.1).
Definition j_quiet (st st' : JTransport SendTransport * World) : Prop := quiet_send st.1 st'.1.
Definition j_dataProducer_added (st : JTransport SendTransport * World) (p : nat)
    (st' : JTransport SendTransport * World) : Prop :=
  freed st.1 = false /\ p = length (objects (seen_dataProducers (view_send st.1))) /\
  send_told st'.1 = send_told st.1 /\
  exists a, dataProducer_closed a = false /\
    view_send st'.1 = add_seen_dataProducer a (view_send st.1).

Lemma same_j_quiet (st : JTransport SendTransport * World) st' :
  freed st.1 = false -> same_send (native st.1, st.2) st' -> j_quiet st (wrap st'.1, st'.2).
Proof.
  intros Hf (E1 & E2 & E3 & E4). split; [|exact E4]. unfold view_send. simpl in *.
  by rewrite E1, E2, E3, Hf.
Qed.

Lemma JSendTransport_produce_outcome track encodings options codec appData :
  outcome j_producer_added j_quiet
    (JSendTransport_produce OnConnect OnProduce track encodings options codec appData).
Proof.
  apply checked_outcome; [done|]. eapply on_native_outcome; [done| | |apply same_j_quiet].
  - apply outcome_native_try. do 3 (apply outcome_lift; [done|intros ?]). apply Produce_outcome.
  - intros st p st' Hf (Ho & Hp & a & Hc & E1 & E2 & E3 & E4). simpl in *.
    split_and!; try done. exists a. split; [done|]. unfold view_send. simpl.
    by rewrite E1, E2, E3, Hf.
Qed.
Lemma JSendTransport_produceData_outcome label protocol ordered n time appData :
  outcome j_dataProducer_added j_quiet
    (JSendTransport_produceData OnConnect OnProduceData label protocol ordered n time appData).
Proof.
  eapply on_native_outcome; [done| | |apply same_j_quiet].
  - apply outcome_native_try, outcome_lift; [done|intros ?]. apply ProduceData_outcome.
  - intros st p st' Hf (Hp & a & Hc & E1 & E2 & E3 & E4). simpl in *.
    split_and!; try done. exists a. split; [done|]. unfold view_send. simpl.
    by rewrite E1, E2, E3, Hf.
Qed.
End Calls.

(** Closing the producer at [p]: it was closed before, or it is now and the map forgets it. *)
Definition j_producer_shut (p : nat) (st st' : JTransport SendTransport * World) : Prop :=
  exists a, objects (seen_producers (view_send st.1)) !! p = Some a /\ producer_closed a = false /\
    freed st.1 = false /\ send_told st'.1 = send_told st.1 /\
    view_send st'.1 = close_seen_producer p a (view_send st.1).

Lemma JProducer_close_outcome p :
  outcome (fun st _ st' => j_producer_shut p st st' \/
      (j_quiet st st' /\ exists a, objects (seen_producers (view_send st.1)) !! p = Some a /\
         producer_closed a = true))
    (fun st st' => j_producer_shut p st st' \/ j_quiet st st') (JProducer_close p).
Proof.
  intros [t w]. unfold JProducer_close, object_of, all_producers. simpl.
  destruct (objects (producers (native t)) !! p) as [a|] eqn:Ha; [|by right].
  destruct (producer_closed a) eqn:Hc.
  { rewrite andb_false_r. unfold native_bare, in_native, Producer_Close, bind, producerAt. simpl.
    rewrite Ha, Hc. simpl. right. split; [|by exists a]. by destruct t. }
  rewrite andb_true_r. destruct (freed t) eqn:Hf; [by right|].
  set (t1 := set_producers (unregister (producer_id a)
    (set_object p (close_producer a) (producers (native t))))
    (set_producers (set_object p (close_producer a) (producers (native t))) (native t))).
  assert (Hrun : forall r st1, in_native (Producer_Close p) (t, w) = (r, st1) ->
    j_producer_shut p (t, w) st1).
  { unfold in_native, Producer_Close, bind at 1, producerAt. simpl. rewrite Ha, Hc. simpl.
    unfold SendTransport_OnClose, bind, update_producers. simpl. fold t1.
    pose proof (preserves_when (fun st : SendTransport * World => producers st.1 = producers t1 /\
      dataProducers st.1 = dataProducers t1 /\
      transport_closed (send_base st.1) = transport_closed (send_base t1) /\
      events (send_base st.1) = events (send_base t1))
      (negb (transport_closed (send_base (native t))))
      (on_handler (SendHandler_StopSending (producer_localId a)))
      (sees_on_handler _ _ _ _ _) (t1, w)) as (E1 & E2 & E3 & E4); [done|].
    destruct (when _ _ (t1, w)) as [r0 [t2 w2]]. intros r st1 [= <- <-]. exists a.
    split_and!; try done. unfold view_send. simpl in *. by rewrite E1, E2, E3. }
  unfold native_bare. destruct (in_native _ _) as [r st1] eqn:E. specialize (Hrun r st1 eq_refl).
  destruct r; by left.
Qed.
End Send.

Section Recv.
Context `{Webrtc}.

(** ** The receiving transport *)

Record recv_view := {
  seen_consumers : Registry Consumer;
  seen_dataConsumers : Registry DataConsumer;
  recv_closed : bool;
  recv_freed : bool
}.
Definition view_recv (t : JTransport RecvTransport) : recv_view :=
  {| seen_consumers := consumers (native t); seen_dataConsumers := dataConsumers (native t);
     recv_closed := transport_closed (recv_base (native t)); recv_freed := freed t |}.
Definition recv_told (t : JTransport RecvTransport) : list event := events (recv_base (native t)).
Definition r_quiet (st st' : JTransport RecvTransport * World) : Prop :=
  view_recv st'.1 = view_recv st.1 /\ recv_told st'.1 = recv_told st.1.

Definition add_seen_consumer (a : Consumer) (v : recv_view) : recv_view :=
  {| seen_consumers := register (consumer_id a) a (seen_consumers v);
     seen_dataConsumers := seen_dataConsumers v;
     recv_closed := recv_closed v; recv_freed := recv_freed v |}.
Definition add_seen_dataConsumer (a : DataConsumer) (v : recv_view) : recv_view :=
  {| seen_consumers := seen_consumers v;
     seen_dataConsumers := register (dataConsumer_id a) a (seen_dataConsumers v);
     recv_closed := recv_closed v; recv_freed := recv_freed v |}.
Definition close_seen_consumer (p : nat) (a : Consumer) (v : recv_view) : recv_view :=
  {| seen_consumers :=
       unregister (consumer_id a) (set_object p (close_consumer a) (seen_consumers v));
     seen_dataConsumers := seen_dataConsumers v;
     recv_closed := recv_closed v; recv_freed := recv_freed v |}.

Section Frame.
Context (r : Registry Consumer) (d : Registry DataConsumer) (c : bool) (l : list event).
Abbreviation frames := (preserves (fun st : RecvTransport * World =>
  consumers st.1 = r /\ dataConsumers st.1 = d /\
  transport_closed (recv_base st.1) = c /\ events (recv_base st.1) = l)).

Lemma recv_sees_on_handler {A} (f : HM A) : frames (on_handler f).
Proof. intros [t w] Ht. unfold on_handler. simpl. by destruct (f _) as [? []]. Qed.
Lemma recv_sees_in_world {A} (f : M World A) : frames (in_world f).
Proof. intros [t w] Ht. unfold in_world. simpl. by destruct (f w). Qed.
Lemma recv_sees_isClosed : frames isClosed.
Proof. by intros [t w]. Qed.
Lemma recv_sees_probator : frames (update_base set_probator).
Proof. by intros [t w]. Qed.
#[local] Hint Resolve recv_sees_on_handler recv_sees_in_world recv_sees_isClosed
  recv_sees_probator : preserve.
Lemma recv_sees_ensureOpen msg : frames (ensureOpen msg).
Proof. unfold ensureOpen. preserve. Qed.
#[local] Hint Resolve recv_sees_ensureOpen : preserve.

Context (OnConnect : json -> M World unit).

Lemma recv_sees_receive id kind p : frames (receive OnConnect id kind p).
Proof. apply recv_sees_on_handler. Qed.
#[local] Hint Resolve recv_sees_receive : preserve.
Lemma recv_sees_createProbator p : frames (createProbator OnConnect p).
Proof.
  intros st Hst. unfold createProbator.
  assert (Hin : frames (let! probator := lift (generateProbatorRtpParameters p) in
    let! _ := receive OnConnect "probator" "video" probator in update_base set_probator)) by preserve.
  specialize (Hin st Hst). by destruct (bind _ _ st) as [[] ?].
Qed.
Lemma recv_sees_newConsumer id producerId kind params appData :
  frames (newConsumer OnConnect id producerId kind params appData).
Proof.
  unfold newConsumer. do 4 (apply preserves_bind; [preserve|intros ?]). destruct params; preserve.
Qed.
Lemma recv_sees_newDataConsumer id producerId streamId label protocol appData :
  frames (newDataConsumer OnConnect id producerId streamId label protocol appData).
Proof. unfold newDataConsumer. preserve. Qed.
End Frame.

Section Calls.
Context (OnConnect : json -> M World unit).

Definition same_recv (st st' : RecvTransport * World) : Prop :=
  consumers st'.1 = consumers st.1 /\ dataConsumers st'.1 = dataConsumers st.1 /\
  transport_closed (recv_base st'.1) = transport_closed (recv_base st.1) /\
  events (recv_base st'.1) = events (recv_base st.1).
Definition consumer_added (st st' : RecvTransport * World) : Prop :=
  transport_closed (recv_base st.1) = false /\
  exists a, consumer_closed a = false /\
    consumers st'.1 = register (consumer_id a) a (consumers st.1) /\
    dataConsumers st'.1 = dataConsumers st.1 /\
    transport_closed (recv_base st'.1) = transport_closed (recv_base st.1) /\
    events (recv_base st'.1) = events (recv_base st.1).

Lemma newConsumer_ok id producerId kind params appData st a st' :
  newConsumer OnConnect id producerId kind params appData st = (Ok a, st') ->
  transport_closed (recv_base st.1) = false /\ consumer_closed a = false.
Proof.
  intros Hn. destruct (newConsumer_cases OnConnect id producerId kind params appData st) as
    [(r & Hr & Hno)|(p & p' & _ & Ho & _ & Hr)]; rewrite Hr in Hn.
  - injection Hn as -> _. by destruct (Hno a).
  - apply bind_ok in Hn as (? & ? & _ & Hn). by injection Hn as <- _.
Qed.

(** The consumer may stay when the one for RTP probation fails. *)
Lemma Consume_outcome id producerId kind params appData :
  outcome (fun st p st' => consumer_added st st' /\ p = length (objects (consumers st.1)))
    (fun st st' => same_recv st st' \/ consumer_added st st')
    (RecvTransport_Consume OnConnect id producerId kind params appData).
Proof.
  intros st. unfold RecvTransport_Consume, bind at 1.
  destruct (recv_sees_newConsumer (consumers st.1) (dataConsumers st.1)
    (transport_closed (recv_base st.1)) (events (recv_base st.1)) OnConnect id producerId kind
    params appData st) as (E1 & E2 & E3 & E4); [done|].
  destruct (newConsumer _ _ _ _ _ _ st) as [[a|e|] st1] eqn:Hn; cbn [fst snd] in *; [|by left..].
  apply newConsumer_ok in Hn as [Ho Hc]. rewrite run_bind_get.
  set (st2 := (set_consumers (register (consumer_id a) a (consumers st1.1)) st1.1, st1.2)).
  change (bind (update_consumers _) ?k st1) with (k tt st2). cbv beta. rewrite run_bind_when.
  assert (Hadd : forall st3 : RecvTransport * World, consumers st3.1 = consumers st2.1 ->
    dataConsumers st3.1 = dataConsumers st2.1 ->
    transport_closed (recv_base st3.1) = transport_closed (recv_base st2.1) ->
    events (recv_base st3.1) = events (recv_base st2.1) -> consumer_added st st3).
  { intros st3 F1 F2 F3 F4. split; [done|]. exists a. simpl in *. split_and!; congruence. }
  rewrite E1. destruct (_ && _); [|by split; [apply Hadd|]].
  pose proof (recv_sees_createProbator (consumers st2.1) (dataConsumers st2.1)
    (transport_closed (recv_base st2.1)) (events (recv_base st2.1)) OnConnect
    (consumer_rtpParameters a) st2) as (F1 & F2 & F3 & F4); [done|].
  unfold bind. destruct (createProbator _ _ st2) as [[[]|e|] st3]; cbn [fst snd] in *;
    [split; [by apply Hadd|done]|right; by apply Hadd..].
Qed.

Definition dataConsumer_added (st st' : RecvTransport * World) : Prop :=
  exists a, dataConsumer_closed a = false /\
    dataConsumers st'.1 = register (dataConsumer_id a) a (dataConsumers st.1) /\
    consumers st'.1 = consumers st.1 /\
    transport_closed (recv_base st'.1) = transport_closed (recv_base st.1) /\
    events (recv_base st'.1) = events (recv_base st.1).
Lemma ConsumeData_outcome id producerId streamId label protocol appData :
  outcome (fun st p st' => dataConsumer_added st st' /\ p = length (objects (dataConsumers st.1)))
    same_recv (RecvTransport_ConsumeData OnConnect id producerId streamId label protocol appData).
Proof.
  intros st. unfold RecvTransport_ConsumeData, bind.
  destruct (recv_sees_newDataConsumer (consumers st.1) (dataConsumers st.1)
    (transport_closed (recv_base st.1)) (events (recv_base st.1)) OnConnect id producerId streamId
    label protocol appData st) as (E1 & E2 & E3 & E4); [done|].
  destruct (newDataConsumer _ _ _ _ _ _ _ st) as [[a|e|] st'] eqn:Hn; simpl in *; [|done..].
  rewrite E2. split; [|done]. exists a. simpl. rewrite E1, E3, E4. split_and!; try done.
  unfold newDataConsumer in Hn. do 6 (apply bind_ok in Hn as (? & ? & _ & Hn)).
  by injection Hn as <- _.
Qed.

Lemma same_r_quiet (st : JTransport RecvTransport * World) st' :
  freed st.1 = false -> same_recv (native st.1, st.2) st' -> r_quiet st (wrap st'.1, st'.2).
Proof.
  intros Hf (E1 & E2 & E3 & E4). split; [|exact E4]. unfold view_recv. simpl in *.
  by rewrite E1, E2, E3, Hf.
Qed.

Definition j_consumer_added (st st' : JTransport RecvTransport * World) : Prop :=
  recv_closed (view_recv st.1) = false /\ freed st.1 = false /\
  recv_told st'.1 = recv_told st.1 /\
  exists a, consumer_closed a = false /\ view_recv st'.1 = add_seen_consumer a (view_recv st.1).
Lemma added_j_consumer (st : JTransport RecvTransport * World) st' :
  freed st.1 = false -> consumer_added (native st.1, st.2) st' ->
  j_consumer_added st (wrap st'.1, st'.2).
Proof.
  intros Hf (Ho & a & Hc & E1 & E2 & E3 & E4). split_and!; try done.
  exists a. split; [done|]. unfold view_recv, add_seen_consumer. simpl in *.
  by rewrite E1, E2, E3, Hf.
Qed.
Lemma JRecvTransport_consume_outcome id producerId kind params appData :
  outcome (fun st p st' => j_consumer_added st st' /\
             p = length (objects (seen_consumers (view_recv st.1))))
    (fun st st' => r_quiet st st' \/ j_consumer_added st st')
    (JRecvTransport_consume OnConnect id producerId kind params appData).
Proof.
  apply checked_outcome; [by left|].
  eapply (on_native_outcome _ _ (fun st st' => same_recv st st' \/ consumer_added st st'));
    [by left| | |].
  - apply outcome_native_try. do 5 (apply outcome_lift; [by left|intros ?]).
    apply Consume_outcome.
  - intros st p st' Hf [Ha Hp]. split; [by apply added_j_consumer|done].
  - intros st st' Hf [Hq|Ha]; [left; by apply same_r_quiet|right; by apply added_j_consumer].
Qed.

Definition j_dataConsumer_added (st st' : JTransport RecvTransport * World) : Prop :=
  recv_told st'.1 = recv_told st.1 /\
  exists a, dataConsumer_closed a = false /\
    view_recv st'.1 = add_seen_dataConsumer a (view_recv st.1).
Lemma JRecvTransport_consumeData_outcome id producerId streamId label protocol appData :
  outcome (fun st p st' => j_dataConsumer_added st st' /\
             p = length (objects (seen_dataConsumers (view_recv st.1)))) r_quiet
    (JRecvTransport_consumeData OnConnect id producerId streamId label protocol appData).
Proof.
  apply checked_outcome; [done|]. eapply on_native_outcome; [done| | |apply same_r_quiet].
  - apply outcome_native_try. do 3 (apply outcome_lift; [done|intros ?]). apply ConsumeData_outcome.
  - intros st p st' Hf [(a & Hc & E1 & E2 & E3 & E4) Hp]. split; [|done]. split; [done|].
    exists a. split; [done|]. unfold view_recv, add_seen_dataConsumer. simpl in *.
    by rewrite E1, E2, E3, Hf.
Qed.

Definition j_consumer_shut (p : nat) (st st' : JTransport RecvTransport * World) : Prop :=
  exists a, objects (seen_consumers (view_recv st.1)) !! p = Some a /\ consumer_closed a = false /\
    freed st.1 = false /\ recv_told st'.1 = recv_told st.1 /\
    view_recv st'.1 = close_seen_consumer p a (view_recv st.1).
Lemma JConsumer_close_outcome p :
  outcome (fun st _ st' => j_consumer_shut p st st' \/
      (r_quiet st st' /\ exists a, objects (seen_consumers (view_recv st.1)) !! p = Some a /\
         consumer_closed a = true))
    (fun st st' => j_consumer_shut p st st' \/ r_quiet st st') (JConsumer_close p).
Proof.
  intros [t w]. unfold JConsumer_close, object_of, all_consumers. simpl.
  destruct (objects (consumers (native t)) !! p) as [a|] eqn:Ha; [|by right].
  destruct (consumer_closed a) eqn:Hc.
  { rewrite andb_false_r. unfold native_bare, in_native, Consumer_Close, bind, consumerAt. simpl.
    rewrite Ha, Hc. simpl. right. split; [|by exists a]. by destruct t. }
  rewrite andb_true_r. destruct (freed t) eqn:Hf; [by right|].
  set (t1 := set_consumers (unregister (consumer_id a)
    (set_object p (close_consumer a) (consumers (native t))))
    (set_consumers (set_object p (close_consumer a) (consumers (native t))) (native t))).
  assert (Hrun : forall r st1, in_native (Consumer_Close p) (t, w) = (r, st1) ->
    j_consumer_shut p (t, w) st1).
  { unfold in_native, Consumer_Close, bind at 1, consumerAt. simpl. rewrite Ha, Hc. simpl.
    unfold RecvTransport_OnClose, bind, update_consumers. simpl. fold t1.
    pose proof (preserves_when _ (negb (transport_closed (recv_base (native t))))
      (on_handler (RecvHandler_StopReceiving (consumer_localId a)))
      (recv_sees_on_handler (consumers t1) (dataConsumers t1) (transport_closed (recv_base t1))
         (events (recv_base t1)) _) (t1, w)) as (E1 & E2 & E3 & E4); [done|].
    destruct (when _ _ (t1, w)) as [r0 [t2 w2]]. intros r st1 [= <- <-]. exists a.
    split_and!; try done. unfold view_recv. simpl in *. by rewrite E1, E2, E3. }
  unfold native_bare. destruct (in_native _ _) as [r st1] eqn:E. specialize (Hrun r st1 eq_refl).
  destruct r; by left.
Qed.
End Calls.

(** ** Closing the receiving transport *)

Definition consumers_ok (r : Registry Consumer) : Prop := registry_ok consumer_id consumer_closed r.
Definition dataConsumers_ok (r : Registry DataConsumer) : Prop :=
  registry_ok dataConsumer_id dataConsumer_closed r.
Definition recv_maps_ok (st : RecvTransport * World) : Prop :=
  consumers_ok (consumers st.1) /\ dataConsumers_ok (dataConsumers st.1).

Lemma ConsumerTransportClosed_maps p : preserves recv_maps_ok (Consumer_TransportClosed p).
Proof.
  intros st [Hc Hd]. unfold Consumer_TransportClosed, bind at 1, consumerAt.
  destruct (objects (consumers st.1) !! p) as [a|] eqn:Ha; [|done].
  destruct (consumer_closed a) eqn:Ho; [done|]. split; [|done].
  by apply (ok_set consumer_id consumer_closed _ _ a).
Qed.
Lemma DataConsumerTransportClosed_maps p : preserves recv_maps_ok (DataConsumer_TransportClosed p).
Proof.
  intros st [Hc Hd]. unfold DataConsumer_TransportClosed, bind at 1, dataConsumerAt.
  destruct (objects (dataConsumers st.1) !! p) as [a|] eqn:Ha; [|done].
  destruct (dataConsumer_closed a) eqn:Ho; [done|]. split; [done|].
  by apply (ok_set dataConsumer_id dataConsumer_closed _ _ a).
Qed.

Definition told_recv (st : RecvTransport * World) : list event := events (recv_base st.1).
Definition shut_recv (st : RecvTransport * World) : bool := transport_closed (recv_base st.1).
Definition same_dataConsumers (s s' : RecvTransport * World) : Prop :=
  dataConsumers s'.1 = dataConsumers s.1 /\ shut_recv s' = shut_recv s.
Definition same_consumers (s s' : RecvTransport * World) : Prop :=
  consumers s'.1 = consumers s.1 /\ shut_recv s' = shut_recv s.
#[local] Instance same_dataConsumers_preorder : PreOrder same_dataConsumers.
Proof. split; [done|]. intros ??? [? ?] [? ?]. split; congruence. Qed.
#[local] Instance same_consumers_preorder : PreOrder same_consumers.
Proof. split; [done|]. intros ??? [? ?] [? ?]. split; congruence. Qed.

Lemma close_consumers st :
  consumers_ok (consumers st.1) ->
  exists st' l, for_pointers Consumer_TransportClosed (pointers (consumers st.1)) st = (Ok tt, st') /\
    same_dataConsumers st st' /\ told_recv st' = told_recv st ++ map ConsumerTransportClose l /\
    NoDup l /\ (forall p, p ∈ l <-> is_open consumer_closed (consumers st.1) p = true) /\
    (forall p, is_open consumer_closed (consumers st'.1) p = false).
Proof.
  intros Hok. eapply (close_all (fun st => consumers st.1) told_recv consumer_closed close_consumer
    ConsumerTransportClose Consumer_TransportClosed same_dataConsumers); try done.
  - intros s p a Ha Hc. unfold Consumer_TransportClosed, bind, consumerAt. by rewrite Ha, Hc.
  - intros s p a Ha Hc. unfold Consumer_TransportClosed, bind, consumerAt. rewrite Ha, Hc. simpl.
    eexists. by split_and!.
Qed.
Lemma close_dataConsumers st :
  dataConsumers_ok (dataConsumers st.1) ->
  exists st' l,
    for_pointers DataConsumer_TransportClosed (pointers (dataConsumers st.1)) st = (Ok tt, st') /\
    same_consumers st st' /\ told_recv st' = told_recv st ++ map DataConsumerTransportClose l /\
    NoDup l /\
    (forall p, p ∈ l <-> is_open dataConsumer_closed (dataConsumers st.1) p = true) /\
    (forall p, is_open dataConsumer_closed (dataConsumers st'.1) p = false).
Proof.
  intros Hok. eapply (close_all (fun st => dataConsumers st.1) told_recv dataConsumer_closed
    close_dataConsumer DataConsumerTransportClose DataConsumer_TransportClosed same_consumers);
    try done.
  - intros s p a Ha Hc. unfold DataConsumer_TransportClosed, bind, dataConsumerAt. by rewrite Ha, Hc.
  - intros s p a Ha Hc. unfold DataConsumer_TransportClosed, bind, dataConsumerAt. rewrite Ha, Hc.
    simpl. eexists. by split_and!.
Qed.

Lemma RecvTransport_Close_run st :
  recv_maps_ok st -> shut_recv st = false ->
  exists st' media data, RecvTransport_Close st = (Ok tt, st') /\ shut_recv st' = true /\
    recv_maps_ok st' /\ (forall p, is_open consumer_closed (consumers st'.1) p = false) /\
    told_recv st' = told_recv st ++ map ConsumerTransportClose media ++
      map DataConsumerTransportClose data /\
    (forall p, p ∈ media <-> is_open consumer_closed (consumers st.1) p = true).
Proof.
  intros Hok Ho. unfold RecvTransport_Close, bind at 1, isClosed. unfold shut_recv in Ho. simpl.
  rewrite Ho. cbn [negb when].
  assert (exists s1, Transport_Close st = (Ok tt, s1) /\ shut_recv s1 = true /\
    told_recv s1 = told_recv st /\ consumers s1.1 = consumers st.1 /\
    dataConsumers s1.1 = dataConsumers st.1) as (s1 & H1 & Hc1 & Ht1 & E1 & D1).
  { unfold Transport_Close, bind at 1, isClosed. simpl. rewrite Ho. eexists. by split_and!. }
  rewrite (bind_of_ok _ _ _ _ _ H1), run_bind_get.
  assert (Hok1 : recv_maps_ok s1) by (destruct Hok; split; congruence).
  destruct (close_consumers s1) as (s2 & media & H2 & [D2 Hc2] & Ht2 & Hn2 & Hm2 & Ha2);
    [apply Hok1|].
  pose proof (for_pointers_preserves _ _ (pointers (consumers s1.1)) ConsumerTransportClosed_maps s1 Hok1)
    as Hok2. rewrite (bind_of_ok _ _ _ _ _ H2), run_bind_get. rewrite H2 in Hok2. simpl in Hok2.
  destruct (close_dataConsumers s2) as (s3 & data & H3 & [E3 Hc3] & Ht3 & Hn3 & Hm3 & Ha3);
    [apply Hok2|].
  pose proof (for_pointers_preserves _ _ (pointers (dataConsumers s2.1))
    DataConsumerTransportClosed_maps s2 Hok2) as Hok3. rewrite H3 in Hok3. simpl in Hok3.
  exists s3, media, data. split_and!; try done; [congruence|..].
  - intros p. by rewrite E3.
  - by rewrite Ht3, Ht2, Ht1, <- app_assoc.
  - intros p. by rewrite Hm2, E1.
Qed.
End Recv.
