(* ===== verification/Capture.v ===== *)
(** * Local media

    com/zeewain/common/utils/PeerConnectionUtils.java: the sources and tracks of the microphone
    and the camera.  The classes of org.webrtc and android that it calls are parameters; its
    callbacks only write log messages. *)

From S2P Require Import Prelude Json PeerConnection.

(** PeerConnectionFactory, CameraEnumerator, CameraVideoCapturer and the sources. *)
Class Capture `{Webrtc} := {
  AudioSource : Type;
  VideoSource : Type;
  Capturer : Type;
  create_factory : World -> World;
  create_audio_source : World -> AudioSource * World;
  create_video_source : World -> VideoSource * World;
  create_audio_track : string -> AudioSource -> World -> Track * World;
  create_video_track : string -> VideoSource -> World -> Track * World;
  camera_names : World -> list string;
  is_front_facing : string -> bool;
  create_capturer : string -> World -> Capturer * World;
  start_capture : Capturer -> VideoSource -> Z -> Z -> Z -> World -> World;
  switch_camera : Capturer -> World -> World;
  dispose_capturer : Capturer -> World -> World;
  dispose_audio_source : AudioSource -> World -> World;
  dispose_video_source : VideoSource -> World -> World;
  dispose_factory : World -> World;
  dispose_track : Track -> World -> World;
  (* SurfaceViewRenderer *)
  Renderer : Type;
  init_renderer : Renderer -> World -> World;
  add_sink : Track -> Renderer -> World -> World
}.

Section Capture.
Context `{Capture}.

(** The camera that is preferred is a static member. *)
Record PeerConnectionUtils := {
  mPreferCameraFace : string;
  mPeerConnectionFactory : bool;
  mAudioSource : option AudioSource;
  mVideoSource : option VideoSource;
  mCamCapture : option Capturer
}.
Definition PeerConnectionUtils_new (face : string) : PeerConnectionUtils :=
  {| mPreferCameraFace := face; mPeerConnectionFactory := false; mAudioSource := None;
     mVideoSource := None; mCamCapture := None |}.

Definition CM (A : Type) : Type := M (PeerConnectionUtils * World) A.

Definition modify_utils (f : PeerConnectionUtils -> PeerConnectionUtils) : CM unit := fun st =>
  (Ok tt, (f st.1, st.2)).
Definition webrtc {A} (f : World -> A * World) : CM A := fun st =>
  let '(a, w) := f st.2 in (Ok a, (st.1, w)).
Definition webrtc_ (f : World -> World) : CM unit := fun st => (Ok tt, (st.1, f st.2)).

Definition setPreferCameraFace (face : string) (u : PeerConnectionUtils) : PeerConnectionUtils :=
  let 'Build_PeerConnectionUtils _ f a v c := u in Build_PeerConnectionUtils face f a v c.
Definition set_factory (b : bool) (u : PeerConnectionUtils) : PeerConnectionUtils :=
  let 'Build_PeerConnectionUtils p _ a v c := u in Build_PeerConnectionUtils p b a v c.
Definition set_audioSource (x : option AudioSource) (u : PeerConnectionUtils) :
    PeerConnectionUtils :=
  let 'Build_PeerConnectionUtils p f _ v c := u in Build_PeerConnectionUtils p f x v c.
Definition set_videoSource (x : option VideoSource) (u : PeerConnectionUtils) :
    PeerConnectionUtils :=
  let 'Build_PeerConnectionUtils p f a _ c := u in Build_PeerConnectionUtils p f a x c.
Definition set_camCapture (x : option Capturer) (u : PeerConnectionUtils) : PeerConnectionUtils :=
  let 'Build_PeerConnectionUtils p f a v _ := u in Build_PeerConnectionUtils p f a v x.

Definition createPeerConnectionFactory : CM unit :=
  do! webrtc_ create_factory in modify_utils (set_factory true).
Definition ensureFactory : CM unit :=
  let! st := get in
  when (negb (mPeerConnectionFactory st.1)) createPeerConnectionFactory.

Definition createAudioSource : CM unit :=
  do! ensureFactory in
  let! source := webrtc create_audio_source in
  modify_utils (set_audioSource (Some source)).

(** The first camera that faces the way that is preferred. *)
Definition selectCamera (face : string) (names : list string) : option string :=
  List.find (fun name =>
    Bool.eqb (is_front_facing name) (String.eqb face "front") && negb (String.eqb name "")) names.
Definition createCamCapture : CM unit :=
  let! st := get in
  match selectCamera (mPreferCameraFace st.1) (camera_names st.2) with
  | Some name =>
      let! capturer := webrtc (create_capturer name) in
      modify_utils (set_camCapture (Some capturer))
  | None => throw (IllegalStateException "Failed to create Camera Capture")
  end.

(** The capturer that exists, or the one that is created now. *)
Definition getCamCapture : CM Capturer :=
  let! st := get in
  do! when (match mCamCapture st.1 with None => true | _ => false end) createCamCapture in
  let! st := get in
  match mCamCapture st.1 with Some c => ret c | None => throw NullPointerException end.

Definition switchCam : CM unit :=
  let! st := get in
  match mCamCapture st.1 with
  | Some c => webrtc_ (switch_camera c)
  | None => ret tt
  end.

Definition createVideoSource (width height fps : Z) : CM unit :=
  do! ensureFactory in
  let! capturer := getCamCapture in
  let! source := webrtc create_video_source in
  do! modify_utils (set_videoSource (Some source)) in
  webrtc_ (start_capture capturer source width height fps).

Definition createAudioTrack (id : string) : CM Track :=
  let! st := get in
  do! when (match mAudioSource st.1 with None => true | _ => false end) createAudioSource in
  let! st := get in
  match mAudioSource st.1 with
  | Some source => webrtc (create_audio_track id source)
  | None => throw NullPointerException
  end.
Definition createVideoTrack (id : string) (width height fps : Z) : CM Track :=
  let! st := get in
  do! when (match mVideoSource st.1 with None => true | _ => false end)
        (createVideoSource width height fps) in
  let! st := get in
  match mVideoSource st.1 with
  | Some source => webrtc (create_video_track id source)
  | None => throw NullPointerException
  end.

(** [if (x != null) { x.dispose(); x = null; }] *)
Definition release {A} (x : option A) (dispose : A -> World -> World) (reset : CM unit) : CM unit :=
  match x with
  | Some a => do! webrtc_ (dispose a) in reset
  | None => ret tt
  end.
Definition utils_dispose : CM unit :=
  let! st := get in
  do! release (mCamCapture st.1) dispose_capturer (modify_utils (set_camCapture None)) in
  do! release (mVideoSource st.1) dispose_video_source (modify_utils (set_videoSource None)) in
  do! release (mAudioSource st.1) dispose_audio_source (modify_utils (set_audioSource None)) in
  when (mPeerConnectionFactory st.1)
    (do! webrtc_ dispose_factory in modify_utils (set_factory false)).
End Capture.
