(* ===== verification/RtcEngine.v ===== *)
(** * The engine

    com/zeewain/rtc/internal/RtcEngineEx.java: joining a room, the transports, the local media
    and the consumers that the server announces.  The engine runs on several threads: the
    application's, the main one, a worker with a queue of tasks, and those of the connection to
    the server, which deliver notifications and the answers of requests.  Every task, call,
    notification and answer is one step.  The server, the connection and the Android classes
    are parameters; the callbacks to the application are recorded in the order they are made. *)

From stdpp Require Import gmap.
From S2P Require Import Prelude Json JsonDump JsonParser OrtcValidate Ortc MediaSection RemoteSdp.
From S2P Require Import PeerConnection Handler Transport SendTransport RecvTransport Device.
From S2P Require Import Fastjson RoomStore Droid Capture.

(** ** The server and the connection to it *)

(** The outcome of a future: an error, or a response with its code and data. *)
Inductive answer :=
| Failed
| Answered (code : Z) (data : json).

Class Services `{Webrtc} := {
  network_available : World -> bool;
  (* a message code of RtcServer.java and its argument *)
  request : string -> json -> World -> answer * World;
  close_client : World -> World;
  host : string;
  build_device : string;
  build_codename : string
}.

(** ** Configuration *)

Record RtcEngineConfig := {
  channelProfile : Z;
  roomId : jstring;
  userId : jstring;
  token : jstring;
  appId : jstring;
  config_displayName : jstring;
  backgroundUrl : jstring
}.
Definition set_backgroundUrl (url : jstring) (c : RtcEngineConfig) : RtcEngineConfig :=
  let 'Build_RtcEngineConfig p r u t a d _ := c in Build_RtcEngineConfig p r u t a d url.

Inductive CAMERA_DIRECTION := CAMERA_REAR | CAMERA_FRONT.
Record CaptureFormat := { width : Z; height : Z; fps : Z }.
Definition CaptureFormat_new : CaptureFormat := {| width := 640; height := 480; fps := 15 |}.
Record CameraConfig := {
  cameraDirection : CAMERA_DIRECTION;
  captureFormat : CaptureFormat;
  followEncodeDimensionRatio : bool
}.
Definition CameraConfig_ofFormat (f : CaptureFormat) : CameraConfig :=
  {| cameraDirection := CAMERA_FRONT; captureFormat := f; followEncodeDimensionRatio := true |}.
Definition CameraConfig_ofDirection (d : CAMERA_DIRECTION) : CameraConfig :=
  {| cameraDirection := d; captureFormat := CaptureFormat_new; followEncodeDimensionRatio := true |}.

(** ErrorCode.java *)
Definition ERR_NOT_READY : Z := 1.
Definition ERR_INVALID_TOKEN : Z := 2.
Definition ERR_CONNECTION_LOST : Z := 3.
Definition ERR_CONFIG_PARAMETER_NOT_MATCH : Z := 4.

(** What the application is told: IRtcEngineEventHandler.java. *)
Inductive app_event :=
| onError (err : Z)
| onJoinChannelSuccess (uid : jstring)
| onLeaveChannel
| onCloseChannel
| onUserJoined (uid : jstring)
| onUserOffline (uid : jstring)
| onUserOnline (users : option (list json))
| onRemoteVideoStateChanged (uid : jstring) (trackId : string) (state : bool)
| onUserMessage (uid : jstring) (message : string).

Section Engine.
Context `{W : Webrtc} `{!Capture} `{!DataChannels} `{!Services} `{!Fastjson}.

(** ** State *)

(** Which listener a producer was given. *)
Inductive media_listener := CamListener | MicListener.
Inductive data_listener := ChatListener | BotListener.

Record Locals := {
  mVideoProducer : option jref;
  mAudioProducer : option jref;
  mChatDataProducer : option jref;
  mBotDataProducer : option jref;
  mLocalVideoTrack : option Track;
  mLocalAudioTrack : option Track;
  mediaListeners : gmap jref media_listener;
  dataListeners : gmap jref data_listener
}.
Definition Locals_new : Locals := Build_Locals None None None None None None ∅ ∅.
Definition set_mVideoProducer (x : option jref) (l : Locals) : Locals :=
  let 'Build_Locals _ a c b vt at_ ml dl := l in Build_Locals x a c b vt at_ ml dl.
Definition set_mAudioProducer (x : option jref) (l : Locals) : Locals :=
  let 'Build_Locals v _ c b vt at_ ml dl := l in Build_Locals v x c b vt at_ ml dl.
Definition set_mChatDataProducer (x : option jref) (l : Locals) : Locals :=
  let 'Build_Locals v a _ b vt at_ ml dl := l in Build_Locals v a x b vt at_ ml dl.
Definition set_mBotDataProducer (x : option jref) (l : Locals) : Locals :=
  let 'Build_Locals v a c _ vt at_ ml dl := l in Build_Locals v a c x vt at_ ml dl.
Definition set_mLocalVideoTrack (x : option Track) (l : Locals) : Locals :=
  let 'Build_Locals v a c b _ at_ ml dl := l in Build_Locals v a c b x at_ ml dl.
Definition set_mLocalAudioTrack (x : option Track) (l : Locals) : Locals :=
  let 'Build_Locals v a c b vt _ ml dl := l in Build_Locals v a c b vt x ml dl.
Definition add_mediaListener (p : jref) (x : media_listener) (l : Locals) : Locals :=
  let 'Build_Locals v a c b vt at_ ml dl := l in Build_Locals v a c b vt at_ (<[p := x]> ml) dl.
Definition add_dataListener (p : jref) (x : data_listener) (l : Locals) : Locals :=
  let 'Build_Locals v a c b vt at_ ml dl := l in Build_Locals v a c b vt at_ ml (<[p := x]> dl).

(** The track is the one that the Consumer object of Java keeps. *)
Record ConsumerHolder := {
  holder_peerId : jstring;
  holder_consumer : jref;
  holder_track : Track
}.
Record DataConsumerHolder := { dataHolder_peerId : jstring; holder_dataConsumer : jref }.
Record Remotes := {
  mConsumers : gmap string ConsumerHolder;
  mDataConsumers : gmap string DataConsumerHolder;
  dataConsumerPeers : gmap jref jstring      (* the peer that a listener knows *)
}.
Definition on_mConsumers (f : gmap string ConsumerHolder -> gmap string ConsumerHolder)
    (r : Remotes) : Remotes :=
  let 'Build_Remotes c d p := r in Build_Remotes (f c) d p.
Definition on_mDataConsumers (f : gmap string DataConsumerHolder -> gmap string DataConsumerHolder)
    (r : Remotes) : Remotes :=
  let 'Build_Remotes c d p := r in Build_Remotes c (f d) p.
Definition add_dataConsumerPeer (p : jref) (peerId : jstring) (r : Remotes) : Remotes :=
  let 'Build_Remotes c d ps := r in Build_Remotes c d (<[p := peerId]> ps).

(** The tasks that are posted to the worker and to the main thread. *)
Inductive task :=
| RunInitUtils
| RunJoin
| RunCreateRoomMediasoup
| RunEnableCamera | RunDisableCamera
| RunEnableAudio | RunDisableAudio
| RunSwitchCamera
| RunEnableChat | RunEnableBot
| RunSendChat (text : jstring) | RunSendBot (text : jstring)
| RunSetupLocal (viewRenderer : Renderer)
| RunThrow (message : string)
| RunDestroy.
Inductive main_task :=
| MainEnableCamera
| MainSetupLocal (viewRenderer : Renderer).
(** The listeners of the futures. *)
Inductive future_listener :=
| InitClientListener | ExitRoomListener | CloseRoomListener | CreateRoomListener
| JoinRoomMediasoupListener | UpdateBackgroundListener (imageUrl : jstring).

Record Threads := {
  mainQueue : list main_task;
  workQueue : list task;
  looperQuit : bool;
  futures : list (future_listener * answer);
  crashed : bool
}.
Definition on_mainQueue (f : list main_task -> list main_task) (t : Threads) : Threads :=
  let 'Build_Threads m w q fs c := t in Build_Threads (f m) w q fs c.
Definition on_workQueue (f : list task -> list task) (t : Threads) : Threads :=
  let 'Build_Threads m w q fs c := t in Build_Threads m (f w) q fs c.
(** The tasks that wait are dropped. *)
Definition quit_looper (t : Threads) : Threads :=
  let 'Build_Threads m _ _ fs c := t in Build_Threads m [] true fs c.
Definition on_futures (f : list (future_listener * answer) -> list (future_listener * answer))
    (t : Threads) : Threads :=
  let 'Build_Threads m w q fs c := t in Build_Threads m w q (f fs) c.
Definition set_crashed (t : Threads) : Threads :=
  let 'Build_Threads m w q fs _ := t in Build_Threads m w q fs true.

Record Engine := {
  config : RtcEngineConfig;
  mClosed : bool;
  serverRoomId : jstring;
  mCameraConfig : CameraConfig;
  mPeerConnectionUtils : option PeerConnectionUtils;
  mStartupClient : bool;                (* whether it is not null *)
  processors : bool;                    (* whether the processors are registered *)
  mDevice : option Device;
  sendTransports : list (JTransport SendTransport);   (* that were created *)
  recvTransports : list (JTransport RecvTransport);
  mSendTransport : option nat;          (* one of them *)
  mRecvTransport : option nat;
  locals : Locals;
  remotes : Remotes;
  mStore : RoomStore;
  threads : Threads;
  told_app : list app_event
}.
Definition set_config (x : RtcEngineConfig) (e : Engine) : Engine :=
  let 'Build_Engine _ cl ri cc u sc pr d ss rs st rt l r s t ta := e in
  Build_Engine x cl ri cc u sc pr d ss rs st rt l r s t ta.
Definition set_mClosed (e : Engine) : Engine :=
  let 'Build_Engine c _ ri cc u sc pr d ss rs st rt l r s t ta := e in
  Build_Engine c true ri cc u sc pr d ss rs st rt l r s t ta.
Definition set_serverRoomId (x : jstring) (e : Engine) : Engine :=
  let 'Build_Engine c cl _ cc u sc pr d ss rs st rt l r s t ta := e in
  Build_Engine c cl x cc u sc pr d ss rs st rt l r s t ta.
Definition set_mCameraConfig (x : CameraConfig) (e : Engine) : Engine :=
  let 'Build_Engine c cl ri _ u sc pr d ss rs st rt l r s t ta := e in
  Build_Engine c cl ri x u sc pr d ss rs st rt l r s t ta.
Definition set_mPeerConnectionUtils (x : option PeerConnectionUtils) (e : Engine) : Engine :=
  let 'Build_Engine c cl ri cc _ sc pr d ss rs st rt l r s t ta := e in
  Build_Engine c cl ri cc x sc pr d ss rs st rt l r s t ta.
Definition set_mStartupClient (x : bool) (e : Engine) : Engine :=
  let 'Build_Engine c cl ri cc u _ pr d ss rs st rt l r s t ta := e in
  Build_Engine c cl ri cc u x pr d ss rs st rt l r s t ta.
Definition set_processors (x : bool) (e : Engine) : Engine :=
  let 'Build_Engine c cl ri cc u sc _ d ss rs st rt l r s t ta := e in
  Build_Engine c cl ri cc u sc x d ss rs st rt l r s t ta.
Definition set_mDevice (x : option Device) (e : Engine) : Engine :=
  let 'Build_Engine c cl ri cc u sc pr _ ss rs st rt l r s t ta := e in
  Build_Engine c cl ri cc u sc pr x ss rs st rt l r s t ta.
Definition on_sendTransports
    (f : list (JTransport SendTransport) -> list (JTransport SendTransport)) (e : Engine) : Engine :=
  let 'Build_Engine c cl ri cc u sc pr d ss rs st rt l r s t ta := e in
  Build_Engine c cl ri cc u sc pr d (f ss) rs st rt l r s t ta.
Definition on_recvTransports
    (f : list (JTransport RecvTransport) -> list (JTransport RecvTransport)) (e : Engine) : Engine :=
  let 'Build_Engine c cl ri cc u sc pr d ss rs st rt l r s t ta := e in
  Build_Engine c cl ri cc u sc pr d ss (f rs) st rt l r s t ta.
Definition set_mSendTransport (x : option nat) (e : Engine) : Engine :=
  let 'Build_Engine c cl ri cc u sc pr d ss rs _ rt l r s t ta := e in
  Build_Engine c cl ri cc u sc pr d ss rs x rt l r s t ta.
Definition set_mRecvTransport (x : option nat) (e : Engine) : Engine :=
  let 'Build_Engine c cl ri cc u sc pr d ss rs st _ l r s t ta := e in
  Build_Engine c cl ri cc u sc pr d ss rs st x l r s t ta.
Definition on_locals (f : Locals -> Locals) (e : Engine) : Engine :=
  let 'Build_Engine c cl ri cc u sc pr d ss rs st rt l r s t ta := e in
  Build_Engine c cl ri cc u sc pr d ss rs st rt (f l) r s t ta.
Definition on_remotes (f : Remotes -> Remotes) (e : Engine) : Engine :=
  let 'Build_Engine c cl ri cc u sc pr d ss rs st rt l r s t ta := e in
  Build_Engine c cl ri cc u sc pr d ss rs st rt l (f r) s t ta.
Definition on_store (f : RoomStore -> RoomStore) (e : Engine) : Engine :=
  let 'Build_Engine c cl ri cc u sc pr d ss rs st rt l r s t ta := e in
  Build_Engine c cl ri cc u sc pr d ss rs st rt l r (f s) t ta.
Definition on_threads (f : Threads -> Threads) (e : Engine) : Engine :=
  let 'Build_Engine c cl ri cc u sc pr d ss rs st rt l r s t ta := e in
  Build_Engine c cl ri cc u sc pr d ss rs st rt l r s (f t) ta.
Definition tell (x : app_event) (e : Engine) : Engine :=
  let 'Build_Engine c cl ri cc u sc pr d ss rs st rt l r s t ta := e in
  Build_Engine c cl ri cc u sc pr d ss rs st rt l r s t (ta ++ [x]).

(** ** Computations of the engine *)

Definition EM (A : Type) : Type := M (Engine * World) A.

Definition modify (f : Engine -> Engine) : EM unit := fun st => (Ok tt, (f st.1, st.2)).
Definition engine : EM Engine := fun st => (Ok st.1, st).
Definition world {A} (f : World -> A * World) : EM A := fun st =>
  let '(a, w) := f st.2 in (Ok a, (st.1, w)).
Definition world_ (f : World -> World) : EM unit := fun st => (Ok tt, (st.1, f st.2)).
Definition emit (x : app_event) : EM unit := modify (tell x).
Definition store (f : RoomStore -> RoomStore) : EM unit := modify (on_store f).
Definition local_state (f : Locals -> Locals) : EM unit := modify (on_locals f).

(** [try { m } catch (...) { h }] for the exceptions of [p]. *)
Definition try_catch {A} (p : exn -> bool) (m : EM A) (h : exn -> EM A) : EM A := fun st =>
  match m st with
  | (Throw e, st') => if p e then h e st' else (Throw e, st')
  | o => o
  end.
Definition is_MediasoupException (e : exn) : bool :=
  match e with MediasoupException _ => true | _ => false end.
(** java.lang.Exception *)
Definition is_Exception (e : exn) : bool :=
  negb (is_std_exception e) && negb (bool_decide (e = ProcessAborted)).
(** [catch (E e) { throw new RuntimeException(e); }] *)
Definition rethrow {A} (p : exn -> bool) (m : EM A) : EM A :=
  try_catch p m (fun _ => throw (RuntimeException "")).
Definition is_checked (e : exn) : bool :=
  is_MediasoupException e || bool_decide (e = ExecutionException).

(** [mWorkHandler.post] and [mMainHandler.post] *)
Definition post (t : task) : EM bool :=
  let! e := engine in
  if looperQuit (threads e) then ret false
  else do! modify (on_threads (on_workQueue (fun q => q ++ [t]))) in ret true.
Definition post_main (t : main_task) : EM bool :=
  do! modify (on_threads (on_mainQueue (fun q => q ++ [t]))) in ret true.
Definition posted (m : EM bool) : EM Z := let! b := m in ret (if b then 0 else -1).

(** ** Calls of the wrapped objects *)

Definition on_device {A} (m : JDM A) : EM A := fun st =>
  let '(r, (d, w)) := m (mDevice st.1, st.2) in (r, (set_mDevice d st.1, w)).

Definition on_utils {A} (m : CM A) : EM A := fun st =>
  match mPeerConnectionUtils st.1 with
  | None => (Throw NullPointerException, st)
  | Some u =>
      let '(r, (u, w)) := m (u, st.2) in (r, (set_mPeerConnectionUtils (Some u) st.1, w))
  end.

Definition producerId_of (p : jref) (e : Engine) : option string :=
  match sendTransports e !! p.1 with
  | Some t => producer_id <$> all_producers (native t) !! p.2
  | None => None
  end.
(** The listeners that enableCameraImpl and enableAudioImpl give to their producers, and those
    of the data producers. *)
Definition camListener (e : Engine) : Engine := on_locals (set_mVideoProducer None) e.
Definition micListener (e : Engine) : Engine :=
  match mAudioProducer (locals e) with
  | Some p =>
      on_locals (set_mAudioProducer None)
        (match producerId_of p e with Some id => on_store (removeProducer id) e | None => e end)
  | None => e
  end.
Definition chatClosed (e : Engine) : Engine := on_locals (set_mChatDataProducer None) e.
Definition botTransportClosed (e : Engine) : Engine := on_locals (set_mBotDataProducer None) e.
Definition botClosed (e : Engine) : Engine :=
  on_store (addNotify (Some "error") (Some "Bot DataProducer closed")) (botTransportClosed e).

Definition send_event (i : nat) (e : Engine) (ev : event) : Engine :=
  match ev with
  | ProducerTransportClose p =>
      match mediaListeners (locals e) !! (i, p) with
      | Some CamListener => camListener e
      | Some MicListener => micListener e
      | None => e
      end
  | DataProducerTransportClose p =>
      match dataListeners (locals e) !! (i, p) with
      | Some ChatListener => chatClosed e
      | Some BotListener => botTransportClosed e
      | None => e
      end
  | DataProducerClose p =>
      match dataListeners (locals e) !! (i, p) with
      | Some ChatListener => chatClosed e
      | Some BotListener => botClosed e
      | None => e
      end
  | _ => e
  end.

(** A call of a sending transport or of an object of it; the listeners are told at once. *)
Definition on_send {A} (i : nat) (m : JSM A) : EM A := fun st =>
  match sendTransports st.1 !! i with
  | None => (Undef, st)
  | Some t =>
      let '(r, (t', w)) := m (t, st.2) in
      let told := drop (length (events (send_base (native t)))) (events (send_base (native t'))) in
      (r, (foldl (send_event i) (on_sendTransports (insert i t') st.1) told, w))
  end.
(** The sending transport, which must not be null. *)
Definition sending : EM nat :=
  let! e := engine in
  match mSendTransport e with Some i => ret i | None => throw NullPointerException end.

Definition consumerId_of (p : jref) (e : Engine) : option string :=
  match recvTransports e !! p.1 with
  | Some t => consumer_id <$> all_consumers (native t) !! p.2
  | None => None
  end.
Definition dataConsumerId_of (p : jref) (e : Engine) : option string :=
  match recvTransports e !! p.1 with
  | Some t => dataConsumer_id <$> all_dataConsumers (native t) !! p.2
  | None => None
  end.
(** The listeners that onNewConsumer and onNewDataConsumer give to their consumers. *)
Definition recv_event (i : nat) (e : Engine) (ev : event) : Engine :=
  match ev with
  | ConsumerTransportClose p =>
      match consumerId_of (i, p) e with
      | Some id => on_remotes (on_mConsumers (delete id)) e
      | None => e
      end
  | DataConsumerClose p =>
      match dataConsumerId_of (i, p) e with
      | Some id => on_remotes (on_mDataConsumers (delete id)) e
      | None => e
      end
  | _ => e
  end.
Definition on_recv {A} (i : nat) (m : JRM A) : EM A := fun st =>
  match recvTransports st.1 !! i with
  | None => (Undef, st)
  | Some t =>
      let '(r, (t', w)) := m (t, st.2) in
      let told := drop (length (events (recv_base (native t)))) (events (recv_base (native t'))) in
      (r, (foldl (recv_event i) (on_recvTransports (insert i t') st.1) told, w))
  end.
Definition receiving : EM nat :=
  let! e := engine in
  match mRecvTransport e with Some i => ret i | None => throw NullPointerException end.

(** ** Requests *)

(** [mService.x(mStartupClient.getChannel(), req)] *)
Definition send_request (e : Engine) (code : string) (req : json) : M World answer := fun w =>
  if mStartupClient e then let '(a, w) := request code req w in (Ok a, w)
  else (Throw NullPointerException, w).
(** [future.get().getData()] *)
Definition get_data {S} (a : answer) : M S json :=
  match a with Failed => throw ExecutionException | Answered _ data => ret data end.
Definition call_server (code : string) (req : json) : EM answer := fun st =>
  let '(r, w) := send_request st.1 code req st.2 in (r, (st.1, w)).
Definition when_answered (l : future_listener) (a : answer) : EM unit :=
  modify (on_threads (on_futures (fun fs => fs ++ [(l, a)]))).

(** [try { return future.get().getCode() == 0 ? 0 : -1; } catch ...] *)
Definition code_of (a : answer) : Z :=
  match a with Answered 0 _ => 0 | _ => -1 end.
(** The guard of the calls that need the network. *)
Definition with_network (m : EM Z) : EM Z := fun st =>
  if network_available st.2 then m st
  else (do! emit (onError ERR_CONNECTION_LOST) in ret (-1)) st.

(** ** The listeners of the transports *)

(** [transport.getId()] in a listener is the id of the transport it belongs to. *)
Definition onConnect (e : Engine) (transportId : string) (dtlsParameters : string) : M World unit :=
  if mClosed e then ret tt
  else
    let! v := lift (cast (parseObject dtlsParameters)) in
    let! _ := send_request e "CONNECT_WEBRTC_TRANSPORT"
                (jobj [("transportId", JString transportId); ("dtlsParameters", v)]) in
    ret tt.
Definition OnConnect (e : Engine) (transportId : string) (dtlsParameters : json) : M World unit :=
  let! text := lift (dump dtlsParameters) in upcall (onConnect e transportId text).

(** fetchProduceId and fetchProduceDataId: the id that the server gave, null if there is none.
    Reading it throws no JSONException. *)
Definition fetchId (e : Engine) (code : string) (req : json) : M World jstring :=
  let! a := send_request e code req in
  match a with
  | Failed => throw (RuntimeException "")
  | Answered _ resp => do! deref resp in ret (getString "id" resp)
  end.

Definition onProduce (e : Engine) (transportId kind rtpParameters appData : string) :
    M World jstring :=
  if mClosed e then ret (Some "")
  else
    let! v := lift (cast (parseObject rtpParameters)) in
    fetchId e "CREATE_USER_PRODUCE"
      (jobj [("transportId", JString transportId); ("kind", JString kind); ("rtpParameters", v);
             ("appData", JString appData); ("roomId", jstr (serverRoomId e));
             ("userId", jstr (userId (config e))); ("messageType", JString "request")]).
Definition OnProduce (e : Engine) (transportId : string) (kind : string)
    (rtpParameters appData : json) : M World string :=
  let! parameters := lift (dump rtpParameters) in
  let! data := lift (dump appData) in
  let! id := upcall (onProduce e transportId kind parameters data) in
  lift (JavaToNativeString id).

Definition onProduceData (e : Engine)
    (transportId sctpStreamParameters label protocol appData : string) : M World jstring :=
  if mClosed e then ret (Some "")
  else
    let! v := lift (cast (parseObject sctpStreamParameters)) in
    let! data := lift (cast (parseObject appData)) in
    fetchId e "CREATE_USER_TEXT_PRODUCE"
      (jobj [("transportId", JString transportId); ("sctpStreamParameters", v);
             ("label", JString label); ("protocol", JString protocol); ("appData", data);
             ("roomId", jstr (serverRoomId e)); ("userId", jstr (userId (config e)));
             ("type", JString "request")]).
Definition OnProduceData (e : Engine) (transportId : string) (sctpStreamParameters : json)
    (label protocol : string) (appData : json) : M World string :=
  let! parameters := lift (dump sctpStreamParameters) in
  let! data := lift (dump appData) in
  let! id := upcall (onProduceData e transportId parameters label protocol data) in
  lift (JavaToNativeString id).

Definition send_id (i : nat) (e : Engine) : string :=
  match sendTransports e !! i with Some t => transport_id (send_base (native t)) | None => "" end.
Definition recv_id (i : nat) (e : Engine) : string :=
  match recvTransports e !! i with Some t => transport_id (recv_base (native t)) | None => "" end.

(** ** Joining and leaving *)

Definition getVideoType (e : Engine) : string :=
  if channelProfile (config e) =? 0 then "rtc_video_call" else "rtc_video_fusion_call".

Definition nativeJoinChannel : EM Z :=
  with_network (
    let! e := engine in
    let! a := call_server "INIT_CLIENT"
      (jobj [("roomId", jstr (roomId (config e))); ("userId", jstr (userId (config e)));
             ("userToken", jstr (token (config e))); ("zeewainAppId", jstr (appId (config e)));
             ("type", JString "normal")]) in
    do! when_answered InitClientListener a in
    ret (code_of a)).

Definition roomRequest (e : Engine) : list (string * json) :=
  [("roomId", jstr (serverRoomId e)); ("userId", jstr (userId (config e)))].

(** nativeLeaveChannel and nativeCloseChannel *)
Definition leave (code : string) (l : future_listener) : EM Z :=
  with_network (
    let! e := engine in
    let! a := call_server code (jobj (roomRequest e ++ [("messageType", JString "request")])) in
    do! when_answered l a in
    ret (code_of a)).
Definition nativeLeaveChannel : EM Z := leave "EXIT_ROOM" ExitRoomListener.
Definition nativeCloseChannel : EM Z := leave "CLOSE_ROOM" CloseRoomListener.

(** The switch falls through from case 1. *)
Definition initClientListener (a : answer) : EM unit :=
  match a with
  | Answered code data =>
      if code =? 0 then
        do! modify (set_processors true) in
        do! deref data in
        do! modify (set_serverRoomId (getString "serverRoomId" data)) in
        let! _ := post RunJoin in ret tt
      else
        do! when (code =? 1)
              (do! emit (onError ERR_INVALID_TOKEN) in
               let! _ := post (RunThrow "Token is invalid") in ret tt) in
        when ((code =? 1) || (code =? 1000))
          (do! emit (onError ERR_CONFIG_PARAMETER_NOT_MATCH) in
           let! _ := post (RunThrow
             "Initialization failed. Room number and APP ID and token does not match.") in ret tt)
  | Failed => emit (onError ERR_NOT_READY)
  end.

Definition leaveListener (a : answer) : EM unit :=
  match a with Answered _ _ => emit onLeaveChannel | Failed => ret tt end.
Definition createRoomListener (a : answer) : EM unit :=
  match a with
  | Answered 0 _ => let! _ := post RunCreateRoomMediasoup in ret tt
  | _ => ret tt
  end.

Definition addPeerOf (peer : json) : EM unit :=
  do! deref peer in
  let! e := engine in
  let! s := lift (addPeer (getString "id" peer) peer (mStore e)) in
  store (fun _ => s).
Fixpoint addPeers (l : list json) : EM unit :=
  match l with
  | [] => ret tt
  | v :: l =>
      let! peer := lift (match v with
                         | JNull => Ok JNull
                         | JObject m => Ok (JObject m)
                         | v => cast (castToJSONObject v)
                         end) in
      do! addPeerOf peer in addPeers l
  end.
Definition joinRoomMediasoupListener (a : answer) : EM unit :=
  match a with
  | Answered _ data =>
      do! deref data in
      let! users := lift (getJSONArray "users" data) in
      match users with
      | None => throw NullPointerException
      | Some l => addPeers l
      end
  | Failed => ret tt
  end.
Definition updateBackgroundListener (imageUrl : jstring) (a : answer) : EM unit :=
  match a with
  | Answered _ _ => modify (fun e => set_config (set_backgroundUrl imageUrl (config e)) e)
  | Failed => ret tt
  end.

Definition run_listener (l : future_listener) (a : answer) : EM unit :=
  match l with
  | InitClientListener => initClientListener a
  | ExitRoomListener | CloseRoomListener => leaveListener a
  | CreateRoomListener => createRoomListener a
  | JoinRoomMediasoupListener => joinRoomMediasoupListener a
  | UpdateBackgroundListener url => updateBackgroundListener url a
  end.

(** The members of a response that createSendTransport and createRecvTransport read. *)
Definition createTransportOf {T}
    (create : jstring -> jstring -> jstring -> jstring -> jstring -> jstring -> JDM T)
    (req : json) : EM T :=
  let! a := call_server "CREATE_WEBRTC_TRANSPORT" req in
  let! resp := get_data a in
  do! deref resp in
  on_device (create (getString "id" resp) (getString "iceParameters" resp)
    (getString "iceCandidates" resp) (getString "dtlsParameters" resp)
    (getString "sctpParameters" resp) None).

(** The SCTP capabilities are sent as text, without the room and the user. *)
Definition createSendTransport : EM unit :=
  let! sctpCapabilities := on_device JDevice_getSctpCapabilities in
  let! t := createTransportOf JDevice_createSendTransport
    (jobj [("forceTcp", JBool false); ("producing", JBool true); ("consuming", JBool false);
           ("sctpCapabilities", JString sctpCapabilities)]) in
  do! modify (fun e => set_mSendTransport (Some (length (sendTransports e)))
                         (on_sendTransports (fun l => l ++ [t]) e)) in
  let! _ := post RunEnableChat in
  let! _ := post RunEnableBot in
  ret tt.
Definition createRecvTransport : EM unit :=
  let! e := engine in
  let! t := createTransportOf JDevice_createRecvTransport
    (jobj [("forceTcp", JBool false); ("producing", JBool false); ("consuming", JBool true);
           ("type", JString "request"); ("userId", jstr (userId (config e)));
           ("roomId", jstr (serverRoomId e))]) in
  modify (fun e => set_mRecvTransport (Some (length (recvTransports e)))
                     (on_recvTransports (fun l => l ++ [t]) e)).

Definition double_1_2 : json := JFloat (S754_finite false 5404319552844595 (-52)).
Definition double_0_2 : json := JFloat (S754_finite false 7205759403792794 (-55)).
Definition double_0_4 : json := JFloat (S754_finite false 7205759403792794 (-54)).

Definition createRoomRequest (e : Engine) : json :=
  jobj (roomRequest e ++ [("videoType", JString (getVideoType e))] ++
    if channelProfile (config e) =? 1 then
      [("frameWidth", JInt 1920); ("frameHeight", JInt 1080);
       ("fusionType", JString "StandardFusion"); ("frameRate", JInt 20);
       ("rtcType", JString "ZWNRTC2"); ("backGroundUrl", jstr (backgroundUrl (config e)))]
    else []).
Definition joinRoomRequest (e : Engine) : json :=
  jobj (roomRequest e ++
    if channelProfile (config e) =? 1 then
      [("userNumber", JInt 2); ("scale", double_1_2); ("fromBottomRatio", double_0_2);
       ("scaleFromLeft", double_0_4); ("scaleFromWidth", JInt 1); ("rotationAngle", JInt 0);
       ("openMedia", JString "video")]
    else []).
Definition joinMediasoupRequest (e : Engine) (rtpCapabilities sctpCapabilities : json) : json :=
  jobj ([("displayName", jstr (config_displayName (config e)));
         ("device", DeviceInfo_toJSONObject (androidDevice build_device build_codename))] ++
        roomRequest e ++
        [("rtpCapabilities", rtpCapabilities); ("sctpCapabilities", sctpCapabilities)]).

Definition loadDevice : EM unit :=
  let! e := engine in
  let! a := call_server "GET_ROUTER_RTPCAPABILITIES"
    (jobj (roomRequest e ++ [("type", JString "request")])) in
  let! routerRtp := get_data a in
  do! deref routerRtp in
  on_device (JDevice_load (Some (toJSONString
    (jobj [("codecs", jget "codecs" routerRtp);
           ("headerExtensions", jget "headerExtensions" routerRtp)])))).

Definition announce : EM unit :=
  let! e := engine in
  let! a := call_server "CREATE_ROOM" (createRoomRequest e) in
  do! when_answered CreateRoomListener a in
  let! a := call_server "JOIN_ROOM" (joinRoomRequest e) in
  let! _ := get_data a in
  let! rtpCapabilities := on_device JDevice_getRtpCapabilities in
  let! sctpCapabilities := on_device JDevice_getSctpCapabilities in
  let! rtp := lift (cast (parseObject rtpCapabilities)) in
  let! sctp := lift (cast (parseObject sctpCapabilities)) in
  let! a := call_server "JOIN_ROOM_MEDIASOUP" (joinMediasoupRequest e rtp sctp) in
  when_answered JoinRoomMediasoupListener a.

Definition joinImpl : EM unit := fun st =>
  if network_available st.2 then
    (do! loadDevice in
     do! createSendTransport in
     do! createRecvTransport in
     announce) st
  else emit (onError ERR_CONNECTION_LOST) st.

(** The members that are put for the other profile go to another object. *)
Definition createRoomMediasoup : EM unit :=
  rethrow (fun e => bool_decide (e = ExecutionException)) (
    let! e := engine in
    let! a := call_server "CREATE_ROOM_MEDIASOUP"
      (jobj (roomRequest e ++ [("videoType", JString (getVideoType e))])) in
    let! data := get_data a in
    deref data).

(** ** Requests of the application *)

(** A request whose code is the result. *)
Definition simple_request (code : string) (members : Engine -> list (string * json)) : EM Z :=
  with_network (
    let! e := engine in
    let! a := call_server code (jobj (members e)) in
    ret (code_of a)).

Definition nativeStartICE (transportId : jstring) : EM Z :=
  simple_request "RESTART_ICE" (fun e => ("transportId", jstr transportId) :: roomRequest e).
Definition nativeChangeDisplayUserName (targetName : jstring) : EM Z :=
  simple_request "CHANGE_DISPLAY_USERNAME" (fun e =>
    ("displayName", jstr targetName) :: roomRequest e).
Definition nativeStartFusion : EM Z := simple_request "START_FUSION" roomRequest.
Definition nativeStopFusion : EM Z := simple_request "STOP_FUSION" roomRequest.
Definition nativeUpdateFusionSetting (userCount : Z)
    (scale fromBottomRatio scaleFromLeft scaleFromWidth : spec_float) (rotationAngle : Z) : EM Z :=
  simple_request "UPDATE_FUSION_SETTING" (fun e =>
    [("userNumber", JInt userCount); ("scale", JFloat scale);
     ("fromBottomRatio", JFloat fromBottomRatio); ("scaleFromLeft", JFloat scaleFromLeft);
     ("scaleFromWidth", JFloat scaleFromWidth); ("rotationAngle", JInt rotationAngle)] ++
    roomRequest e).
Definition nativeUpdateFusionBackground (imageUrl : jstring) : EM Z :=
  with_network (
    let! e := engine in
    let! a := call_server "UPDATE_FUSION_BG_URL"
      (jobj (("backgroundUrl", jstr imageUrl) :: roomRequest e)) in
    do! when_answered (UpdateBackgroundListener imageUrl) a in
    ret (code_of a)).
(** A null reference is appended as its name. *)
Definition nativeGetRoomLink : EM string :=
  let! e := engine in
  ret ("https://" +:+ host +:+ "/media-rtc-demos/?roomId=" +:+ default "null" (roomId (config e)) +:+
       "&videoType=" +:+ getVideoType e).

(** ** The camera and the microphone *)

Definition createVideoTrackImpl : EM Track :=
  let! e := engine in
  let camera := mCameraConfig e in
  do! modify (fun e =>
    match cameraDirection camera with
    | CAMERA_FRONT =>
        set_mPeerConnectionUtils (setPreferCameraFace "front" <$> mPeerConnectionUtils e) e
    | CAMERA_REAR => e
    end) in
  on_utils (createVideoTrack "Cam" (width (captureFormat camera)) (height (captureFormat camera))
              (fps (captureFormat camera))).
Definition enableTrack (t : Track) (b : bool) : EM unit := world_ (set_enabled t b).

(** The local track, created and enabled when there is none. *)
Definition localVideoTrack : EM Track :=
  let! e := engine in
  match mLocalVideoTrack (locals e) with
  | Some t => ret t
  | None =>
      let! t := createVideoTrackImpl in
      do! local_state (set_mLocalVideoTrack (Some t)) in
      do! enableTrack t true in
      ret t
  end.
Definition localAudioTrack : EM Track :=
  let! e := engine in
  match mLocalAudioTrack (locals e) with
  | Some t => ret t
  | None =>
      let! t := on_utils (createAudioTrack "Mic") in
      do! local_state (set_mLocalAudioTrack (Some t)) in
      do! enableTrack t true in
      ret t
  end.

(** [mSendTransport.produce(listener, track, null, null, null)] *)
Definition produceTrack (l : media_listener) (track : Track) : EM jref :=
  let! i := sending in
  let! e := engine in
  let! p := on_send i (JSendTransport_produce (OnConnect e (send_id i e)) (OnProduce e (send_id i e))
                         (Some track) [] None None None) in
  do! local_state (add_mediaListener (i, p) l) in
  ret (i, p).
Definition storeProducer (p : jref) : EM unit :=
  let! id := on_send p.1 (JProducer_getId p.2) in store (addProducer id p).

(** Whether a method has returned early. *)
Inductive exit := Returned | Completed.

(** The early returns of enableCameraImpl and enableAudioImpl. *)
Definition canEnable (kind : string) (current : Locals -> option jref) (m : EM unit) : EM exit :=
  let! e := engine in
  match current (locals e) with
  | Some _ => ret Returned
  | None =>
      let! loaded := on_device JDevice_isLoaded in
      if negb loaded then ret Returned
      else
        let! can := on_device (JDevice_canProduce (Some kind)) in
        if negb can then ret Returned
        else
          let! e := engine in
          match mSendTransport e with
          | None => ret Returned
          | Some _ => do! m in ret Completed
          end
  end.

(** An early return skips the end of the method. *)
Definition enableCameraImpl : EM unit :=
  do! store (setCamInProgress true) in
  let! outcome := try_catch is_MediasoupException
    (canEnable "video" mVideoProducer (
       let! track := localVideoTrack in
       let! p := produceTrack CamListener track in
       do! local_state (set_mVideoProducer (Some p)) in
       storeProducer p))
    (fun _ =>
       let! e := engine in
       do! match mLocalVideoTrack (locals e) with
           | Some t => enableTrack t false
           | None => ret tt
           end in
       ret Completed) in
  match outcome with
  | Returned => ret tt
  | Completed =>
      do! store (setCamInProgress false) in
      let! e := engine in
      when (channelProfile (config e) =? 1) (let! _ := nativeStartFusion in ret tt)
  end.

Definition enableAudioImpl : EM unit :=
  let! _ := try_catch is_Exception
    (canEnable "audio" mAudioProducer (
       let! track := localAudioTrack in
       let! p := produceTrack MicListener track in
       do! local_state (set_mAudioProducer (Some p)) in
       storeProducer p))
    (fun _ =>
       let! e := engine in
       match mLocalAudioTrack (locals e) with
       | Some t => do! enableTrack t false in ret Completed
       | None => throw NullPointerException
       end) in
  ret tt.

(** setProducerPaused and setProducerResumed of the room store, which call the producer. *)
Definition setProducerPaused (producerId : string) : EM unit :=
  let! e := engine in
  match Producers_find producerId (store_producers (mStore e)) with
  | None => ret tt
  | Some p => on_send p.1 (JProducer_pause p.2)
  end.
Definition setProducerResumed (producerId : string) : EM unit :=
  let! e := engine in
  match Producers_find producerId (store_producers (mStore e)) with
  | None => ret tt
  | Some p => on_send p.1 (JProducer_resume p.2)
  end.

(** disableCameraImpl and disableAudioImpl *)
Definition disableImpl (current : Locals -> option jref) (reset : Locals -> Locals) : EM unit :=
  let! e := engine in
  match current (locals e) with
  | None => ret tt
  | Some p =>
      do! on_send p.1 (JProducer_close p.2) in
      let! id := on_send p.1 (JProducer_getId p.2) in
      do! store (removeProducer id) in
      do! try_catch is_Exception
            (let! _ := call_server "CLOSE_USER_PRODUCER" (jobj [("producerId", JString id)]) in
             ret tt)
            (fun _ => ret tt) in
      local_state reset
  end.
Definition disableCameraImpl : EM unit := disableImpl mVideoProducer (set_mVideoProducer None).
Definition disableAudioImpl : EM unit := disableImpl mAudioProducer (set_mAudioProducer None).

Definition nativeEnableCamera : EM Z := posted (post_main MainEnableCamera).
Definition nativeDisableCamera : EM Z := posted (post RunDisableCamera).
Definition nativeEnableAudio : EM Z := posted (post RunEnableAudio).
Definition nativeDisableAudio : EM Z := posted (post RunDisableAudio).
Definition nativeSetupCameraConfig (c : CameraConfig) : EM unit := modify (set_mCameraConfig c).
Definition nativeHasVideoAvailable : EM Z :=
  let! e := engine in ret (match mVideoProducer (locals e) with Some _ => 0 | None => -1 end).
Definition nativeHasAudioAvailable : EM Z :=
  let! e := engine in ret (match mAudioProducer (locals e) with Some _ => 0 | None => -1 end).

Definition nativeSwitchCamera : EM Z :=
  do! store (setCamInProgress true) in
  let! _ := post RunSwitchCamera in
  ret 0.
(** onCameraSwitchDone and onCameraSwitchError *)
Definition onCameraSwitch : EM unit := store (setCamInProgress false).

Definition nativeSetupLocalVideo (viewRenderer : Renderer) : EM Z :=
  posted (post_main (MainSetupLocal viewRenderer)).
Definition setupLocalImpl (viewRenderer : Renderer) : EM unit :=
  let! t := localVideoTrack in world_ (add_sink t viewRenderer).

(** ** Data producers *)

Definition quotes (s : string) : string := String quote (s +:+ String quote "").
Definition dataProducerInfo (s : string) : string :=
  "{" +:+ quotes "info" +:+ ":" +:+ quotes s +:+ "}".

(** A task that logs every exception. *)
Definition logged (m : EM unit) : EM unit := try_catch is_Exception m (fun _ => ret tt).

Definition enableDataProducer (current : Locals -> option jref) (update : jref -> Locals -> Locals)
    (l : data_listener) (label protocol : string) (maxRetransmits maxPacketLifeTime : Z)
    (info : string) : EM unit :=
  let! e := engine in
  match current (locals e) with
  | Some _ => ret tt
  | None =>
      logged (
        let! i := sending in
        let! p := on_send i (JSendTransport_produceData (OnConnect e (send_id i e))
                    (OnProduceData e (send_id i e)) (Some label) (Some protocol) false
                    maxRetransmits maxPacketLifeTime (Some (dataProducerInfo info))) in
        local_state (fun s => update (i, p) (add_dataListener (i, p) l s)))
  end.
Definition enableChatImpl : EM unit :=
  enableDataProducer mChatDataProducer (fun p => set_mChatDataProducer (Some p)) ChatListener
    "chat" "low" 1 0 "my-chat-DataProducer".
Definition enableBotImpl : EM unit :=
  enableDataProducer mBotDataProducer (fun p => set_mBotDataProducer (Some p)) BotListener
    "bot" "medium" (-1) 2000 "my-bot-DataProducer".

(** The text is a null reference or its UTF-8 bytes. *)
Definition sendImpl (current : Locals -> option jref) (text : jstring) : EM unit :=
  let! e := engine in
  match current (locals e) with
  | None => ret tt
  | Some p =>
      logged (match text with
              | Some s => on_send p.1 (JDataProducer_send p.2 s false)
              | None => throw NullPointerException
              end)
  end.
Definition nativeSendChatMessage (text : jstring) : EM Z := posted (post (RunSendChat text)).
Definition nativeSendBotMessage (text : jstring) : EM Z := posted (post (RunSendBot text)).

(** ** Consumers *)

Definition onNewConsumer (jsonData : json) : EM unit :=
  try_catch is_MediasoupException (
    do! deref jsonData in
    let! producerPaused := lift (getBoolean "producerPaused" jsonData) in
    let userId := getString "userId" jsonData in
    let id := getString "id" jsonData in
    let! i := receiving in
    let! e := engine in
    let! p := on_recv i (JRecvTransport_consume (OnConnect e (recv_id i e)) id
      (getString "producerId" jsonData) (getString "kind" jsonData)
      (getString "rtpParameters" jsonData) (getString "appData" jsonData)) in
    let! track := on_recv i (JConsumer_getTrack p) in
    let! consumerId := on_recv i (JConsumer_getId p) in
    do! modify (on_remotes (on_mConsumers (insert consumerId
          {| holder_peerId := userId; holder_consumer := (i, p); holder_track := track |}))) in
    do! store (addConsumer userId (getString "type" jsonData) consumerId (i, p) producerPaused) in
    when (String.eqb (track_kind track) "video")
      (emit (onRemoteVideoStateChanged userId (default "" id) true)))
  (fun _ => ret tt).

Definition onNewDataConsumer (jsonData : json) : EM unit :=
  logged (
    do! deref jsonData in
    let peerId := getString "peerId" jsonData in
    let! sctpStreamParameters := lift (getJSONObject "sctpStreamParameters" jsonData) in
    do! deref sctpStreamParameters in
    let! streamId := lift (getLong "streamId" sctpStreamParameters) in
    let! i := receiving in
    let! e := engine in
    let! p := on_recv i (JRecvTransport_consumeData (OnConnect e (recv_id i e))
      (getString "id" jsonData) (getString "dataProducerId" jsonData) streamId
      (getString "label" jsonData) (getString "protocol" jsonData) (getString "appData" jsonData)) in
    let! id := on_recv i (JDataConsumer_getId p) in
    do! modify (on_remotes (fun r => add_dataConsumerPeer (i, p) peerId (on_mDataConsumers
          (insert id {| dataHolder_peerId := peerId; holder_dataConsumer := (i, p) |}) r))) in
    store (addDataConsumer peerId id (i, p))).

Definition onUserConsumerClosed (jsonData : json) : EM unit :=
  do! deref jsonData in
  let kind := getString "kind" jsonData in
  match getString "consumerId" jsonData with
  | None => throw NullPointerException
  | Some consumerId =>
      let! e := engine in
      match mConsumers (remotes e) !! consumerId with
      | None => ret tt
      | Some holder =>
          do! modify (on_remotes (on_mConsumers (delete consumerId))) in
          let (i, p) := holder_consumer holder in
          do! on_recv i (JConsumer_close p) in
          do! modify (on_remotes (on_mConsumers (delete consumerId))) in
          let! id := on_recv i (JConsumer_getId p) in
          do! store (removeConsumer (holder_peerId holder) id) in
          match kind with
          | None => throw NullPointerException
          | Some kind =>
              when (String.eqb kind "video")
                (emit (onRemoteVideoStateChanged (holder_peerId holder) id false))
          end
      end
  end.

Definition handleNotification (method : string) (jsonData : json) : EM unit :=
  match method with
  | "ROOM_JOINED" => let! e := engine in emit (onJoinChannelSuccess (userId (config e)))
  | "USER_JOINED" =>
      do! deref jsonData in
      do! emit (onUserJoined (getString "id" jsonData)) in
      let! e := engine in
      let! s := lift (addPeer (getString "id" jsonData) jsonData (mStore e)) in
      store (fun _ => s)
  | "USER_LEFT" =>
      do! deref jsonData in
      do! emit (onUserOffline (getString "userId" jsonData)) in
      store (removePeer (getString "id" jsonData))
  | "USERS_ONLINE" =>
      do! deref jsonData in
      let! users := lift (getJSONArray "users" jsonData) in
      emit (onUserOnline users)
  | "ROOM_CLOSED" => emit onCloseChannel
  | "USER_CONSUMER_CLOSED" => onUserConsumerClosed jsonData
  | "CREATE_USER_CONSUMER" => onNewConsumer jsonData
  | "CREATE_USER_TEXT_CONSUMER" => onNewDataConsumer jsonData
  | _ => ret tt
  end.

(** The processors that registerReceiver registers: their message codes, and whether they
    answer. *)
Definition answers (code : string) : option bool :=
  if bool_decide (code ∈ ["CREATE_USER_CONSUMER"; "CREATE_USER_TEXT_CONSUMER"]) then Some true
  else if bool_decide (code ∈
    ["ROOM_JOINED"; "USER_JOINED"; "USER_LEFT"; "USERS_ONLINE"; "ROOM_CLOSED";
     "USER_CONSUMER_CLOSED"; "CONSUMER_LAYERS_CHANGED"; "CONSUMER_SCORE"; "PRODUCER_SCORE"])
  then Some false
  else None.
(** The answer of the processor, null for most. *)
Definition process (code : string) (param : json) : EM json :=
  let! e := engine in
  if processors e then
    match answers code with
    | None => ret JNull
    | Some answered =>
        do! handleNotification code param in
        let! e := engine in
        ret (if answered then jobj (roomRequest e ++ [("messageType", JString "response")])
             else JNull)
    end
  else ret JNull.

(** OnMessage of the listener of a data consumer; the message is the text of the buffer. *)
Definition onMessage (p : jref) (message : string) : EM unit :=
  logged (
    let! label := on_recv p.1 (JDataConsumer_getLabel p.2) in
    let! e := engine in
    when (String.eqb label "chat")
      (emit (onUserMessage (default None (dataConsumerPeers (remotes e) !! p)) message))).

(** The video of a consumer is shown if it is the user's. *)
Definition showConsumer (viewRenderer : Renderer) (uid : jstring) (id : string) : EM unit :=
  let! e := engine in
  match mConsumers (remotes e) !! id with
  | None => ret tt
  | Some holder =>
      match holder_peerId holder with
      | None => throw NullPointerException
      | Some peerId =>
          if equals peerId uid then
            let (i, p) := holder_consumer holder in
            let! kind := on_recv i (JConsumer_getKind p) in
            if bool_decide (String.index 0 "video" kind <> None) then
              do! world_ (init_renderer viewRenderer) in
              world_ (add_sink (holder_track holder) viewRenderer)
            else ret tt
          else ret tt
      end
  end.
Fixpoint showConsumers (viewRenderer : Renderer) (uid : jstring) (ids : list string) : EM unit :=
  match ids with
  | [] => ret tt
  | id :: ids => do! showConsumer viewRenderer uid id in showConsumers viewRenderer uid ids
  end.
Definition nativeSetupRemoteVideo (viewRenderer : Renderer) (uid : jstring) : EM Z :=
  let! e := engine in
  match getPeer uid (peers (mStore e)) with
  | None => throw NullPointerException
  | Some peer =>
      do! showConsumers viewRenderer uid (elements (peer_consumers peer)) in
      ret 0
  end.

(** ** Destroying the engine *)

Definition nativeDestroy : EM unit :=
  let! e := engine in
  if mClosed e then ret tt
  else
    do! modify set_mClosed in
    let! _ := post RunDestroy in
    ret tt.

Definition disposeTransportDevice : EM unit :=
  let! e := engine in
  do! match mSendTransport e with
      | Some i =>
          do! on_send i (JTransport_close SendTransport_Close) in
          do! on_send i (JTransport_dispose "SendTransport") in
          modify (set_mSendTransport None)
      | None => ret tt
      end in
  let! e := engine in
  do! match mRecvTransport e with
      | Some i =>
          do! on_recv i (JTransport_close RecvTransport_Close) in
          do! on_recv i (JTransport_dispose "RecvTransport") in
          modify (set_mRecvTransport None)
      | None => ret tt
      end in
  on_device JDevice_dispose.

Definition releaseTrack (t : option Track) : EM unit :=
  match t with
  | Some t => do! enableTrack t false in world_ (dispose_track t)
  | None => ret tt
  end.
(** The video of a consumer that is left, and its entry. *)
Definition releaseConsumer (id : string) (holder : ConsumerHolder) : EM unit :=
  let track := holder_track holder in
  do! when (String.eqb (track_kind track) "video") (releaseTrack (Some track)) in
  modify (on_remotes (on_mConsumers (delete id))).
Fixpoint releaseConsumers (l : list (string * ConsumerHolder)) : EM unit :=
  match l with
  | [] => ret tt
  | (id, holder) :: l => do! releaseConsumer id holder in releaseConsumers l
  end.

Definition destroyImpl : EM unit :=
  let! e := engine in
  do! when (mStartupClient e)
        (do! world_ close_client in
         do! modify (set_mStartupClient false) in
         modify (set_processors false)) in
  do! disposeTransportDevice in
  let! e := engine in
  do! releaseTrack (mLocalAudioTrack (locals e)) in
  do! releaseTrack (mLocalVideoTrack (locals e)) in
  do! releaseConsumers (map_to_list (mConsumers (remotes e))) in
  let! e := engine in
  do! match mPeerConnectionUtils e with Some _ => on_utils utils_dispose | None => ret tt end in
  modify (on_threads quit_looper).

(** ** Steps *)

Definition run_task (t : task) : EM unit :=
  match t with
  | RunInitUtils => modify (set_mPeerConnectionUtils (Some (PeerConnectionUtils_new "")))
  | RunJoin => rethrow is_checked joinImpl
  | RunCreateRoomMediasoup => createRoomMediasoup
  | RunEnableCamera => enableCameraImpl
  | RunDisableCamera => disableCameraImpl
  | RunEnableAudio => enableAudioImpl
  | RunDisableAudio => disableAudioImpl
  | RunSwitchCamera => on_utils switchCam
  | RunEnableChat => enableChatImpl
  | RunEnableBot => enableBotImpl
  | RunSendChat text => sendImpl mChatDataProducer text
  | RunSendBot text => sendImpl mBotDataProducer text
  | RunSetupLocal viewRenderer => setupLocalImpl viewRenderer
  | RunThrow message => throw (RuntimeException message)
  | RunDestroy => destroyImpl
  end.
Definition run_main (t : main_task) : EM unit :=
  match t with
  | MainEnableCamera => let! _ := post RunEnableCamera in ret tt
  | MainSetupLocal viewRenderer =>
      do! world_ (init_renderer viewRenderer) in
      let! _ := post (RunSetupLocal viewRenderer) in ret tt
  end.

(** The calls of the application: RtcEngineImpl.java.  The link of the room is left out of the
    result, and a method without a result gives 0. *)
Inductive api_call :=
| ApiGetRoomLink
| ApiJoinChannel | ApiLeaveChannel | ApiCloseChannel
| ApiSetupCameraConfig (c : CameraConfig)
| ApiEnableVideo | ApiDisableVideo | ApiEnableAudio | ApiDisableAudio
| ApiHasVideoAvailable | ApiHasAudioAvailable
| ApiSwitchCamera
| ApiSetupLocalVideo (viewRenderer : Renderer)
| ApiSetupRemoteVideo (viewRenderer : Renderer) (uid : jstring)
| ApiSendChatMessage (text : jstring) | ApiSendBotMessage (text : jstring)
| ApiRestartICE (transportId : jstring)
| ApiChangeDisplayUserName (targetName : jstring)
| ApiStartFusion | ApiStopFusion
| ApiUpdateFusionSetting (userCount : Z)
    (scale fromBottomRatio scaleFromLeft scaleFromWidth : spec_float) (rotationAngle : Z)
| ApiUpdateFusionBackground (imageUrl : jstring)
| ApiDestroy.

Definition api (c : api_call) : EM Z :=
  match c with
  | ApiGetRoomLink => let! _ := nativeGetRoomLink in ret 0
  | ApiJoinChannel => nativeJoinChannel
  | ApiLeaveChannel => nativeLeaveChannel
  | ApiCloseChannel => nativeCloseChannel
  | ApiSetupCameraConfig c => do! nativeSetupCameraConfig c in ret 0
  | ApiEnableVideo => nativeEnableCamera
  | ApiDisableVideo => nativeDisableCamera
  | ApiEnableAudio => nativeEnableAudio
  | ApiDisableAudio => nativeDisableAudio
  | ApiHasVideoAvailable => nativeHasVideoAvailable
  | ApiHasAudioAvailable => nativeHasAudioAvailable
  | ApiSwitchCamera => nativeSwitchCamera
  | ApiSetupLocalVideo viewRenderer => nativeSetupLocalVideo viewRenderer
  | ApiSetupRemoteVideo viewRenderer uid => nativeSetupRemoteVideo viewRenderer uid
  | ApiSendChatMessage text => nativeSendChatMessage text
  | ApiSendBotMessage text => nativeSendBotMessage text
  | ApiRestartICE transportId => nativeStartICE transportId
  | ApiChangeDisplayUserName targetName => nativeChangeDisplayUserName targetName
  | ApiStartFusion => nativeStartFusion
  | ApiStopFusion => nativeStopFusion
  | ApiUpdateFusionSetting n a b c d r => nativeUpdateFusionSetting n a b c d r
  | ApiUpdateFusionBackground imageUrl => nativeUpdateFusionBackground imageUrl
  | ApiDestroy => do! nativeDestroy in ret 0
  end.

Inductive action :=
| Call (c : api_call)
| RunMain                                   (* the next task of the main thread *)
| RunWork                                   (* the next task of the worker *)
| Deliver (i : nat)                         (* the listener of a future that is done *)
| Notified (code : string) (param : json)   (* a message of the server *)
| DataProducerState (p : jref) (s : DataState)
| DataConsumerState (p : jref) (s : DataState)
| Message (p : jref) (message : string)
| SendConnectionState (i : nat) (s : IceConnectionState)
| RecvConnectionState (i : nat) (s : IceConnectionState)
| CameraSwitched.

(** An exception that nothing catches ends the process. *)
Definition uncaught (m : EM unit) : EM unit := fun st =>
  match m st with
  | (Throw _, st') => (Ok tt, (on_threads set_crashed st'.1, st'.2))
  | o => o
  end.
(** The caller catches it, unless the process has ended. *)
Definition caught {A} (m : EM A) : EM unit := fun st =>
  match m st with
  | (Throw e, st') =>
      (Ok tt, (if bool_decide (e = ProcessAborted) then on_threads set_crashed st'.1 else st'.1,
               st'.2))
  | (Ok _, st') => (Ok tt, st')
  | (Undef, st') => (Undef, st')
  end.

Definition run_work : EM unit :=
  let! e := engine in
  match workQueue (threads e) with
  | [] => ret tt
  | t :: q => do! modify (on_threads (on_workQueue (fun _ => q))) in uncaught (run_task t)
  end.
Definition run_main_thread : EM unit :=
  let! e := engine in
  match mainQueue (threads e) with
  | [] => ret tt
  | t :: q => do! modify (on_threads (on_mainQueue (fun _ => q))) in uncaught (run_main t)
  end.
Definition deliver (i : nat) : EM unit :=
  let! e := engine in
  match futures (threads e) !! i with
  | None => ret tt
  | Some (l, a) =>
      do! modify (on_threads (on_futures (delete i))) in caught (run_listener l a)
  end.

Definition act (a : action) : EM unit :=
  match a with
  | Call c => caught (api c)
  | RunMain => run_main_thread
  | RunWork => run_work
  | Deliver i => deliver i
  | Notified code param => caught (process code param)
  | DataProducerState p s =>
      caught (on_send p.1 (in_native (notify (DataProducer_OnStateChange p.2 s))))
  | DataConsumerState p s =>
      caught (on_recv p.1 (in_native (notify (DataConsumer_OnStateChange p.2 s))))
  | Message p message => caught (onMessage p message)
  | SendConnectionState i s =>
      caught (on_send i (on_native (Transport_OnConnectionStateChange s)))
  | RecvConnectionState i s =>
      caught (on_recv i (on_native (Transport_OnConnectionStateChange s)))
  | CameraSwitched => onCameraSwitch
  end.

Definition Engine_new (c : RtcEngineConfig) : Engine :=
  Build_Engine c false None (CameraConfig_ofFormat CaptureFormat_new) None true false JDevice_new
    [] [] None None Locals_new (Build_Remotes ∅ ∅ ∅) RoomStore_new
    (Build_Threads [] [RunInitUtils] false [] false) [].
End Engine.
