(* ===== verification/RtcEngineInv.v ===== *)
(** * The engine: the invariant

    What the engine, the room store and the transports agree on between two steps, as a
    predicate on the part of the state that it depends on. *)

From stdpp Require Import gmap.
From S2P Require Import Prelude Json JsonDump JsonParser OrtcValidate Ortc MediaSection RemoteSdp.
From S2P Require Import PeerConnection Handler Transport SendTransport RecvTransport TransportSpec.
From S2P Require Import Device Fastjson RoomStore Droid DroidSpec Capture RtcEngine.

(** ** Ids over several maps *)

Section Ids.
Context {A : Type} (key : A -> string).
Implicit Types l : list (Registry A).

(** No two objects have the same id. *)
Definition distinct_ids l : Prop := forall i j r r' p q a b,
  l !! i = Some r -> l !! j = Some r' -> objects r !! p = Some a -> objects r' !! q = Some b ->
  key a = key b -> i = j /\ p = q.
(** Objects stay where they are and keep their ids. *)
Definition kept l l' : Prop := forall i r p a,
  l !! i = Some r -> objects r !! p = Some a ->
  exists r' a', l' !! i = Some r' /\ objects r' !! p = Some a' /\ key a' = key a.

#[export] Instance kept_preorder : PreOrder kept.
Proof.
  split.
  - intros l i r p a Hr Ha. eauto.
  - intros l1 l2 l3 H1 H2 i r p a Hr Ha. destruct (H1 i r p a Hr Ha) as (r2 & a2 & Hr2 & Ha2 & <-).
    by apply (H2 i r2 p a2).
Qed.
Lemma distinct_kept l l' : kept l l' -> distinct_ids l' -> distinct_ids l.
Proof.
  intros Hk Hd i j r r' p q a b Hr Hr' Ha Hb Heq.
  destruct (Hk i r p a Hr Ha) as (s & a' & Hs & Ha' & Ea).
  destruct (Hk j r' q b Hr' Hb) as (s' & b' & Hs' & Hb' & Eb).
  eapply Hd; eauto. congruence.
Qed.

Lemma kept_insert l i r r' :
  l !! i = Some r ->
  (forall p a, objects r !! p = Some a -> exists a', objects r' !! p = Some a' /\ key a' = key a) ->
  kept l (<[i := r']> l).
Proof.
  intros Hr Hk j s p a Hs Ha. destruct (decide (i = j)) as [<-|Hne].
  - simplify_eq. destruct (Hk p a Ha) as (a' & Ha' & Eq). exists r', a'.
    by rewrite list_lookup_insert_eq by by eapply lookup_lt_Some.
  - exists s, a. by rewrite list_lookup_insert_ne.
Qed.
Lemma kept_app l r : kept l (l ++ [r]).
Proof. intros i s p a Hs Ha. exists s, a. split; [by apply lookup_app_l_Some|done]. Qed.

Lemma kept_register l i r a :
  l !! i = Some r -> kept l (<[i := register (key a) a r]> l).
Proof.
  intros Hr. eapply kept_insert; [done|]. intros p b Hb. exists b. split; [|done].
  by apply lookup_app_l_Some.
Qed.
Lemma kept_close l i r p a a' :
  l !! i = Some r -> objects r !! p = Some a -> key a' = key a ->
  kept l (<[i := unregister (key a) (set_object p a' r)]> l).
Proof.
  intros Hr Ha Hk. eapply kept_insert; [done|]. intros q b Hb. simpl.
  destruct (decide (p = q)) as [<-|Hne].
  - simplify_eq. exists a'. by rewrite list_lookup_insert_eq by by eapply lookup_lt_Some.
  - exists b. by rewrite list_lookup_insert_ne.
Qed.

(** An object that was added has an id that its map did not know. *)
Lemma fresh_of_distinct closed l i r a :
  distinct_ids (<[i := register (key a) a r]> l) -> l !! i = Some r ->
  registry_ok key closed r -> byId r !! key a = None.
Proof.
  intros Hd Hr Hok. destruct (byId r !! key a) as [p|] eqn:Hp; [|done].
  destruct (registered_object _ _ _ Hok _ _ Hp) as (b & Hb & Heq).
  assert (Hl : (<[i := register (key a) a r]> l) !! i = Some (register (key a) a r))
    by by apply list_lookup_insert_eq; eapply lookup_lt_Some.
  destruct (Hd i i _ _ p (length (objects r)) b a Hl Hl) as [_ ->]; simpl.
  - by apply lookup_app_l_Some.
  - by rewrite lookup_app_r, Nat.sub_diag by lia.
  - done.
  - apply lookup_lt_Some in Hb. lia.
Qed.
End Ids.

(** The peers without their data consumers. *)
Definition strip (p : Peer) : Peer := set_peer_dataConsumers ∅ p.
Definition stripped (ps : Peers) : Peers := (fun kp => (kp.1, strip kp.2)) <$> ps.

Lemma getPeer_stripped k ps : getPeer k (stripped ps) = strip <$> getPeer k ps.
Proof. induction ps as [|[j p] ps IH]; simpl; [done|]. by case_bool_decide. Qed.
Lemma stripped_with k d ps :
  stripped (withPeer k (fun p => set_peer_dataConsumers (d p) p) ps) = stripped ps.
Proof.
  unfold withPeer. destruct (getPeer k ps) as [p|] eqn:Hp; [|done].
  induction ps as [|[j q] ps IH]; simpl in *; [done|]. destruct (bool_decide_reflect (j = k)).
  - by injection Hp as ->.
  - simpl. f_equal. auto.
Qed.

#[export] Instance media_listener_eq_dec : EqDecision media_listener.
Proof. solve_decision. Defined.
#[export] Instance data_listener_eq_dec : EqDecision data_listener.
Proof. solve_decision. Defined.

Section Invariant.
Context `{W : Webrtc} `{!Capture} `{!DataChannels} `{!Services} `{!Fastjson}.

(** ** What the invariant depends on *)

Record summary := {
  sends : list send_view;
  recvs : list recv_view;
  sendNow : option nat;
  recvNow : option nat;
  video : option jref;
  audio : option jref;
  chat : option jref;
  bot : option jref;
  mediaHeard : gmap jref media_listener;
  dataHeard : gmap jref data_listener;
  holders : gmap string ConsumerHolder;
  wrappers : gmap string jref;
  published : gmap string jref;
  members : Peers;
  alive : bool;
  ended : bool;
  stopped : bool
}.
Definition summarize (e : Engine) : summary :=
  {| sends := view_send <$> sendTransports e; recvs := view_recv <$> recvTransports e;
     sendNow := mSendTransport e; recvNow := mRecvTransport e;
     video := mVideoProducer (locals e); audio := mAudioProducer (locals e);
     chat := mChatDataProducer (locals e); bot := mBotDataProducer (locals e);
     mediaHeard := mediaListeners (locals e); dataHeard := dataListeners (locals e);
     holders := mConsumers (remotes e);
     wrappers := mConsumer <$> store_consumers (mStore e);
     published := wrapper_producer <$> store_producers (mStore e);
     members := stripped (peers (mStore e));
     alive := match mDevice e with Some _ => true | None => false end;
     ended := mClosed e; stopped := looperQuit (threads e) |}.

(** The members that the listeners reset. *)
Definition media_of (l : media_listener) : summary -> option jref :=
  match l with CamListener => video | MicListener => audio end.
Definition data_of (l : data_listener) : summary -> option jref :=
  match l with ChatListener => chat | BotListener => bot end.

Definition unique (s : summary) : Prop :=
  distinct_ids producer_id (seen_producers <$> sends s) /\
  distinct_ids dataProducer_id (seen_dataProducers <$> sends s) /\
  distinct_ids consumer_id (seen_consumers <$> recvs s) /\
  distinct_ids dataConsumer_id (seen_dataConsumers <$> recvs s).
Definition grown (s s' : summary) : Prop :=
  kept producer_id (seen_producers <$> sends s) (seen_producers <$> sends s') /\
  kept dataProducer_id (seen_dataProducers <$> sends s) (seen_dataProducers <$> sends s') /\
  kept consumer_id (seen_consumers <$> recvs s) (seen_consumers <$> recvs s') /\
  kept dataConsumer_id (seen_dataConsumers <$> recvs s) (seen_dataConsumers <$> recvs s').

Definition open_send (v : send_view) : Prop := send_closed v = false /\ send_freed v = false.
Definition open_recv (v : recv_view) : Prop := recv_closed v = false /\ recv_freed v = false.

(** A reference to a producer that is open, has the listener and is in the store. *)
Definition live_producer (s : summary) (l : media_listener) (p : jref) : Prop :=
  exists v a, sends s !! p.1 = Some v /\ open_send v /\
    objects (seen_producers v) !! p.2 = Some a /\ producer_closed a = false /\
    mediaHeard s !! p = Some l /\ published s !! producer_id a = Some p.
Definition live_dataProducer (s : summary) (l : data_listener) (p : jref) : Prop :=
  exists v a, sends s !! p.1 = Some v /\ open_send v /\
    objects (seen_dataProducers v) !! p.2 = Some a /\ dataProducer_closed a = false /\
    dataHeard s !! p = Some l.
(** A holder of a consumer that is open and has this id. *)
Definition live_consumer (s : summary) (id : string) (h : ConsumerHolder) : Prop :=
  exists v c, recvs s !! (holder_consumer h).1 = Some v /\ open_recv v /\
    objects (seen_consumers v) !! (holder_consumer h).2 = Some c /\ consumer_closed c = false /\
    consumer_id c = id /\ consumer_track c = holder_track h.

Record summary_ok (s : summary) : Prop := {
  ok_sends i v : sends s !! i = Some v ->
    producers_ok (seen_producers v) /\ dataProducers_ok (seen_dataProducers v);
  ok_recvs i v : recvs s !! i = Some v ->
    consumers_ok (seen_consumers v) /\ dataConsumers_ok (seen_dataConsumers v);
  ok_sendNow i : sendNow s = Some i -> exists v, sends s !! i = Some v /\ open_send v;
  ok_recvNow i : recvNow s = Some i -> exists v, recvs s !! i = Some v /\ open_recv v;
  ok_media l p : media_of l s = Some p -> live_producer s l p;
  ok_data l p : data_of l s = Some p -> live_dataProducer s l p;
  ok_holders id h : holders s !! id = Some h -> live_consumer s id h;
  ok_wrappers : alive s = true -> wrappers s = holder_consumer <$> holders s;
  ok_members k p id : alive s = true -> getPeer k (members s) = Some p -> id ∈ peer_consumers p ->
    exists h, holders s !! id = Some h /\ holder_peerId h = k;
  ok_unique : unique s
}.

(** A destroy that was asked for waits in the queue until it is done. *)
Definition is_destroy (t : task) : bool := match t with RunDestroy => true | _ => false end.
Definition destroyed (s : summary) : Prop :=
  alive s = false /\ sendNow s = None /\ recvNow s = None /\ holders s = ∅.
Definition queue_ok (s : summary) (q : list task) : Prop :=
  if ended s then
    (stopped s = true /\ q = [] /\ destroyed s) \/
    (stopped s = false /\ alive s = true /\ List.filter is_destroy q = [RunDestroy])
  else stopped s = false /\ alive s = true /\ List.filter is_destroy q = [].

Definition tasks (e : Engine) : list task := workQueue (threads e).
Definition engine_ok (e : Engine) : Prop :=
  summary_ok (summarize e) /\ queue_ok (summarize e) (tasks e).

(** ** Changes of the summary *)

Definition put_sends (x : list send_view) (s : summary) : summary :=
  let 'Build_summary _ rs sn rn v a c b mh dh hs ws ps ms al en st := s in
  Build_summary x rs sn rn v a c b mh dh hs ws ps ms al en st.
Definition put_recvs (x : list recv_view) (s : summary) : summary :=
  let 'Build_summary ss _ sn rn v a c b mh dh hs ws ps ms al en st := s in
  Build_summary ss x sn rn v a c b mh dh hs ws ps ms al en st.
Definition put_sendNow (x : option nat) (s : summary) : summary :=
  let 'Build_summary ss rs _ rn v a c b mh dh hs ws ps ms al en st := s in
  Build_summary ss rs x rn v a c b mh dh hs ws ps ms al en st.
Definition put_recvNow (x : option nat) (s : summary) : summary :=
  let 'Build_summary ss rs sn _ v a c b mh dh hs ws ps ms al en st := s in
  Build_summary ss rs sn x v a c b mh dh hs ws ps ms al en st.
Definition put_media (l : media_listener) (x : option jref) (s : summary) : summary :=
  let 'Build_summary ss rs sn rn v a c b mh dh hs ws ps ms al en st := s in
  match l with
  | CamListener => Build_summary ss rs sn rn x a c b mh dh hs ws ps ms al en st
  | MicListener => Build_summary ss rs sn rn v x c b mh dh hs ws ps ms al en st
  end.
Definition put_data (l : data_listener) (x : option jref) (s : summary) : summary :=
  let 'Build_summary ss rs sn rn v a c b mh dh hs ws ps ms al en st := s in
  match l with
  | ChatListener => Build_summary ss rs sn rn v a x b mh dh hs ws ps ms al en st
  | BotListener => Build_summary ss rs sn rn v a c x mh dh hs ws ps ms al en st
  end.
Definition put_mediaHeard (x : gmap jref media_listener) (s : summary) : summary :=
  let 'Build_summary ss rs sn rn v a c b _ dh hs ws ps ms al en st := s in
  Build_summary ss rs sn rn v a c b x dh hs ws ps ms al en st.
Definition put_dataHeard (x : gmap jref data_listener) (s : summary) : summary :=
  let 'Build_summary ss rs sn rn v a c b mh _ hs ws ps ms al en st := s in
  Build_summary ss rs sn rn v a c b mh x hs ws ps ms al en st.
Definition put_holders (x : gmap string ConsumerHolder) (s : summary) : summary :=
  let 'Build_summary ss rs sn rn v a c b mh dh _ ws ps ms al en st := s in
  Build_summary ss rs sn rn v a c b mh dh x ws ps ms al en st.
Definition put_wrappers (x : gmap string jref) (s : summary) : summary :=
  let 'Build_summary ss rs sn rn v a c b mh dh hs _ ps ms al en st := s in
  Build_summary ss rs sn rn v a c b mh dh hs x ps ms al en st.
Definition put_published (x : gmap string jref) (s : summary) : summary :=
  let 'Build_summary ss rs sn rn v a c b mh dh hs ws _ ms al en st := s in
  Build_summary ss rs sn rn v a c b mh dh hs ws x ms al en st.
Definition put_members (x : Peers) (s : summary) : summary :=
  let 'Build_summary ss rs sn rn v a c b mh dh hs ws ps _ al en st := s in
  Build_summary ss rs sn rn v a c b mh dh hs ws ps x al en st.
End Invariant.
