(* ===== verification/RtcEngineCalm.v ===== *)
(** * The engine: what leaves the invariant alone

    Most computations of the engine do not touch what the invariant depends on, apart from the
    tasks that they post. *)

From stdpp Require Import gmap.
From S2P Require Import Prelude Json JsonDump JsonParser OrtcValidate Ortc MediaSection RemoteSdp.
From S2P Require Import PeerConnection Handler Transport SendTransport RecvTransport TransportSpec.
From S2P Require Import Device Fastjson RoomStore Droid DroidSpec Capture RtcEngine RtcEngineInv.

Section Calm.
Context `{W : Webrtc} `{!Capture} `{!DataChannels} `{!Services} `{!Fastjson}.

Definition calm_at (st st' : Engine * World) : Prop :=
  summarize st'.1 = summarize st.1 /\
  (queue_ok (summarize st.1) (tasks st.1) -> queue_ok (summarize st.1) (tasks st'.1)).

#[export] Instance calm_preorder : PreOrder calm_at.
Proof.
  split; [done|]. intros st1 st2 st3 [E1 Q1] [E2 Q2]. split; [congruence|]. rewrite E1 in Q2. auto.
Qed.

Section Of.
Context (st0 : Engine * World).
Abbreviation calms := (preserves (calm_at st0)).

Lemma calms_step {A} (m : EM A) : (forall st, calm_at st (snd (m st))) -> calms m.
Proof. intros Hm st Hst. by transitivity st. Qed.

Lemma calms_modify f :
  (forall e, summarize (f e) = summarize e) -> (forall e, tasks (f e) = tasks e) ->
  calms (modify f).
Proof. intros Hs Ht. apply calms_step. intros st. split; simpl; [done|]. by rewrite Ht. Qed.
Lemma calms_engine : calms engine.
Proof. by apply calms_step. Qed.
Lemma calms_world {A} (f : World -> A * World) : calms (world f).
Proof. apply calms_step. intros st. unfold world. by destruct (f st.2). Qed.
Lemma calms_world_ f : calms (world_ f).
Proof. by apply calms_step. Qed.
Lemma calms_emit x : calms (emit x).
Proof. by apply calms_modify; intros []. Qed.
Lemma calms_call_server code req : calms (call_server code req).
Proof. apply calms_step. intros st. unfold call_server. by destruct (send_request _ _ _ _). Qed.
Lemma calms_when_answered l a : calms (when_answered l a).
Proof. by apply calms_modify; intros [???????????????[]]. Qed.
Lemma calms_post_main t : calms (post_main t).
Proof. apply preserves_bind; [|intros ?; apply preserves_ret]. by apply calms_modify; intros [???????????????[]]. Qed.
Lemma calms_get_data a : calms (get_data a).
Proof. destruct a; [apply preserves_throw|apply preserves_ret]. Qed.

Lemma calms_post t : is_destroy t = false -> calms (post t).
Proof.
  intros Ht. apply calms_step. intros st. unfold post, bind. simpl.
  destruct (looperQuit (threads st.1)) eqn:Hq; [done|]. simpl.
  assert (Hs : summarize (on_threads (on_workQueue (fun q => q ++ [t])) st.1) = summarize st.1)
    by by destruct st.1 as [???????????????[]].
  split; [done|]. simpl.
  assert (Hw : tasks (on_threads (on_workQueue (fun q => q ++ [t])) st.1) = tasks st.1 ++ [t])
    by by destruct st.1 as [???????????????[]].
  rewrite Hw. unfold queue_ok. rewrite List.filter_app. simpl. rewrite Ht, app_nil_r.
  change (stopped (summarize st.1)) with (looperQuit (threads st.1)). rewrite Hq.
  destruct (mClosed st.1); [|done]. intros [[? _]|?]; [done|by right].
Qed.

Lemma calms_try_catch {A} p (m : EM A) h :
  calms m -> (forall e, calms (h e)) -> calms (try_catch p m h).
Proof.
  intros Hm Hh st Hst. specialize (Hm st Hst). unfold try_catch.
  destruct (m st) as [[a|e|] st']; [done| |done]. destruct (p e); [by apply Hh|done].
Qed.
Lemma calms_with_network (m : EM Z) : calms m -> calms (with_network m).
Proof.
  intros Hm st Hst. unfold with_network. destruct (network_available st.2); [by apply Hm|].
  apply preserves_bind; [apply calms_emit|intros ?; apply preserves_ret|done].
Qed.
Lemma calms_posted (m : EM bool) : calms m -> calms (posted m).
Proof. intros Hm. apply preserves_bind; [done|intros ?; apply preserves_ret]. Qed.

(** ** Calls of the wrapped objects *)

Lemma calms_on_utils {A} (m : CM A) : calms (on_utils m).
Proof.
  apply calms_step. intros st. unfold on_utils. destruct (mPeerConnectionUtils st.1); [|done].
  destruct (m _) as [r [u w]]. split; simpl; by destruct st.1.
Qed.
Lemma calms_on_device {A} (m : DM A) : calms (on_device (checkDeviceExists m)).
Proof.
  apply calms_step. intros st. unfold on_device, checkDeviceExists. simpl.
  destruct (mDevice st.1) as [d|] eqn:Hd.
  - destruct (m (d, st.2)) as [r [d' w]]. split; [|by destruct st.1].
    unfold summarize. simpl. by destruct st.1; simpl in *; subst.
  - split; [|by destruct st.1]. by destruct st.1; simpl in *; subst.
Qed.

Lemma calms_on_send {A} i (m : JSM A) :
  (forall st, j_quiet st (snd (m st))) -> calms (on_send i m).
Proof.
  intros Hm. apply calms_step. intros st. unfold on_send.
  destruct (sendTransports st.1 !! i) as [t|] eqn:Ht; [|done].
  destruct (Hm (t, st.2)) as [Hv Hl]. destruct (m (t, st.2)) as [r [t' w]]. simpl in *.
  unfold send_told in Hl. rewrite Hl, drop_all. simpl.
  assert (E : view_send <$> <[i := t']> (sendTransports st.1) = view_send <$> sendTransports st.1).
  { rewrite list_fmap_insert, Hv. apply list_insert_id. by rewrite list_lookup_fmap, Ht. }
  split; [|by destruct st.1]. destruct st as [e ?]. destruct e. unfold summarize. simpl in *.
  by rewrite E.
Qed.
Lemma calms_on_recv {A} i (m : JRM A) :
  (forall st, r_quiet st (snd (m st))) -> calms (on_recv i m).
Proof.
  intros Hm. apply calms_step. intros st. unfold on_recv.
  destruct (recvTransports st.1 !! i) as [t|] eqn:Ht; [|done].
  destruct (Hm (t, st.2)) as [Hv Hl]. destruct (m (t, st.2)) as [r [t' w]]. simpl in *.
  unfold recv_told in Hl. rewrite Hl, drop_all. simpl.
  assert (E : view_recv <$> <[i := t']> (recvTransports st.1) = view_recv <$> recvTransports st.1).
  { rewrite list_fmap_insert, Hv. apply list_insert_id. by rewrite list_lookup_fmap, Ht. }
  split; [|by destruct st.1]. destruct st as [e ?]. destruct e. unfold summarize. simpl in *.
  by rewrite E.
Qed.
Lemma read_quiet {A B} objs p (f : A -> World -> result B) (st : JTransport SendTransport * World) :
  j_quiet st (snd (read_object objs p f st)).
Proof. unfold read_object. by destruct (_ !! p). Qed.
Lemma read_recv_quiet {A B} objs p (f : A -> World -> result B)
    (st : JTransport RecvTransport * World) :
  r_quiet st (snd (read_object objs p f st)).
Proof. unfold read_object. by destruct (_ !! p). Qed.
Lemma calms_read_send {A B} i objs p (f : A -> World -> result B) :
  calms (on_send i (read_object objs p f)).
Proof. apply calms_on_send. intros st. apply read_quiet. Qed.
Lemma calms_read_recv {A B} i objs p (f : A -> World -> result B) :
  calms (on_recv i (read_object objs p f)).
Proof. apply calms_on_recv. intros st. apply read_recv_quiet. Qed.
Lemma calms_send i p data binary : calms (on_send i (JDataProducer_send p data binary)).
Proof. apply calms_on_send. intros st. unfold JDataProducer_send. by destruct (_ !! p). Qed.

#[local] Hint Resolve calms_engine calms_world calms_world_ calms_emit calms_call_server
  calms_when_answered calms_post_main calms_get_data calms_try_catch calms_with_network
  calms_posted calms_on_utils calms_on_device calms_read_send calms_read_recv calms_send : preserve.
#[local] Hint Extern 1 (preserves _ (post _)) => apply calms_post; reflexivity : preserve.
#[local] Hint Extern 1 (preserves _ (modify _)) =>
  apply calms_modify; [by intros []|by intros []] : preserve.

Lemma calms_deref o : calms (deref o).
Proof. apply preserves_throw_if. Qed.
Lemma calms_local_tracks f :
  (forall l, f l = set_mLocalVideoTrack (mLocalVideoTrack (f l))
               (set_mLocalAudioTrack (mLocalAudioTrack (f l)) l)) -> calms (local_state f).
Proof.
  intros Hf. apply calms_modify; intros []; [|done]. unfold summarize. simpl. rewrite Hf.
  by match goal with |- context [mVideoProducer (set_mLocalVideoTrack _ (set_mLocalAudioTrack _ ?l))] =>
    destruct l end.
Qed.
Lemma calms_enableTrack t b : calms (enableTrack t b).
Proof. apply calms_world_. Qed.
Lemma calms_camInProgress b : calms (store (setCamInProgress b)).
Proof. apply calms_modify; by intros [??????????????[]]. Qed.
#[local] Hint Resolve calms_deref calms_enableTrack calms_camInProgress : preserve.

(** ** Requests *)

Lemma calms_leave code l : calms (leave code l).
Proof. apply calms_with_network. preserve. Qed.
Lemma calms_simple_request code members : calms (simple_request code members).
Proof. apply calms_with_network. preserve. Qed.
Lemma calms_nativeJoinChannel : calms nativeJoinChannel.
Proof. apply calms_with_network. preserve. Qed.
Lemma calms_updateBackground url : calms (nativeUpdateFusionBackground url).
Proof. apply calms_with_network. preserve. Qed.
Lemma calms_initClientListener a : calms (initClientListener a).
Proof. destruct a; simpl; [preserve|]. destruct (code =? 0); preserve. Qed.
Lemma calms_createRoomListener a : calms (createRoomListener a).
Proof. destruct a as [|[] ?]; simpl; preserve. Qed.
Lemma calms_createTransportOf {T} create req :
  (forall a b c d e f, exists m, create a b c d e f = checkDeviceExists m) ->
  calms (createTransportOf (T := T) create req).
Proof.
  intros Hc. unfold createTransportOf. do 3 (apply preserves_bind; [preserve|intros ?]).
  match goal with |- context [create ?a ?b ?c ?d ?e ?f] => destruct (Hc a b c d e f) as [m ->] end.
  preserve.
Qed.
Lemma calms_loadDevice : calms loadDevice.
Proof. unfold loadDevice. preserve. Qed.
Lemma calms_announce : calms announce.
Proof. unfold announce. preserve. Qed.
Lemma calms_createRoomMediasoup : calms createRoomMediasoup.
Proof. unfold createRoomMediasoup, rethrow. apply calms_try_catch; preserve. Qed.

(** ** Local media *)

Lemma calms_localVideoTrack : calms localVideoTrack.
Proof.
  unfold localVideoTrack. apply preserves_bind; [preserve|]. intros e.
  destruct (mLocalVideoTrack (locals e)); [preserve|]. apply preserves_bind.
  - unfold createVideoTrackImpl. apply preserves_bind; [preserve|intros ?].
    apply preserves_bind; [|intros ?; preserve].
    destruct (cameraDirection _); preserve.
  - intros t. apply preserves_bind; [|intros ?; preserve]. apply calms_local_tracks. by intros [].
Qed.
Lemma calms_localAudioTrack : calms localAudioTrack.
Proof.
  unfold localAudioTrack. apply preserves_bind; [preserve|]. intros e.
  destruct (mLocalAudioTrack (locals e)); [preserve|]. apply preserves_bind; [preserve|].
  intros t. apply preserves_bind; [|intros ?; preserve]. apply calms_local_tracks. by intros [].
Qed.
Lemma calms_setupLocal viewRenderer : calms (setupLocalImpl viewRenderer).
Proof. apply preserves_bind; [apply calms_localVideoTrack|intros ?; preserve]. Qed.
Lemma calms_sendImpl current text : calms (sendImpl current text).
Proof.
  apply preserves_bind; [preserve|]. intros e. destruct (current (locals e)); [|preserve].
  apply calms_try_catch; [|preserve]. destruct text; preserve.
Qed.
Lemma calms_nativeSwitchCamera : calms nativeSwitchCamera.
Proof. unfold nativeSwitchCamera. preserve. Qed.

(** ** Messages and views *)

Lemma calms_onMessage p message : calms (onMessage p message).
Proof. unfold onMessage. preserve. Qed.
Lemma calms_showConsumer viewRenderer uid id : calms (showConsumer viewRenderer uid id).
Proof.
  apply preserves_bind; [preserve|]. intros e. destruct (mConsumers _ !! id); [|preserve].
  destruct (holder_peerId c); [|preserve]. destruct (equals _ _); [|preserve].
  destruct (holder_consumer c). apply preserves_bind; [preserve|]. intros kind.
  case_bool_decide; preserve.
Qed.
Lemma calms_nativeSetupRemoteVideo viewRenderer uid :
  calms (nativeSetupRemoteVideo viewRenderer uid).
Proof.
  apply preserves_bind; [preserve|]. intros e. destruct (getPeer _ _); [|preserve].
  apply preserves_bind; [|intros ?; preserve].
  induction (elements _); simpl; [preserve|].
  apply preserves_bind; [apply calms_showConsumer|done].
Qed.
Lemma calms_run_main t : calms (run_main t).
Proof. destruct t; simpl; preserve. Qed.
End Of.
End Calm.

#[export] Hint Resolve calms_engine calms_world calms_world_ calms_emit calms_call_server
  calms_when_answered calms_post_main calms_get_data calms_try_catch calms_with_network
  calms_posted calms_on_utils calms_on_device calms_read_send calms_read_recv calms_send
  calms_deref calms_enableTrack calms_camInProgress calms_leave calms_simple_request
  calms_nativeJoinChannel calms_updateBackground calms_initClientListener calms_createRoomListener
  calms_loadDevice calms_announce calms_createRoomMediasoup calms_localVideoTrack
  calms_localAudioTrack calms_setupLocal calms_sendImpl calms_nativeSwitchCamera calms_onMessage
  calms_nativeSetupRemoteVideo calms_run_main : preserve.
#[export] Hint Extern 1 (preserves _ (post _)) => apply calms_post; reflexivity : preserve.
#[export] Hint Extern 1 (preserves _ (modify _)) =>
  apply calms_modify; [by intros []|by intros []] : preserve.
