(* ===== verification/RtcEngineMoves.v ===== *)
(** * The engine: the moves that keep the invariant

    Each lemma is about one change of the part of the state that the invariant depends on. *)

From stdpp Require Import gmap.
From S2P Require Import Prelude Json JsonDump JsonParser OrtcValidate Ortc MediaSection RemoteSdp.
From S2P Require Import PeerConnection Handler Transport SendTransport RecvTransport TransportSpec.
From S2P Require Import Device Fastjson RoomStore Droid DroidSpec Capture RtcEngine RtcEngineInv.

(** The views after one of them was changed. *)
Lemma views_insert {A B} (f : A -> B) (l : list A) i x :
  f <$> <[i := x]> l = <[i := f x]> (f <$> l).
Proof. apply list_fmap_insert. Qed.
Lemma lookup_insert_cases {A} (l : list A) i j x y :
  <[i := x]> l !! j = Some y -> (j = i /\ y = x) \/ (j <> i /\ l !! j = Some y).
Proof. intros [(-> & -> & _)|[Hne Hj]]%list_lookup_insert_Some; auto. Qed.
Lemma registered_new {A} (key : A -> string) a (r : Registry A) :
  objects (register (key a) a r) !! length (objects r) = Some a.
Proof. simpl. by rewrite lookup_app_r, Nat.sub_diag by lia. Qed.
Lemma registered_old {A} (key : A -> string) a (r : Registry A) p b :
  objects r !! p = Some b -> objects (register (key a) a r) !! p = Some b.
Proof. apply lookup_app_l_Some. Qed.

Section Moves.
Context `{W : Webrtc} `{!Capture} `{!DataChannels} `{!Services} `{!Fastjson}.

#[export] Instance grown_preorder : PreOrder grown.
Proof.
  split.
  - intros s. split_and!; apply kept_preorder.
  - intros s1 s2 s3 (G1 & G2 & G3 & G4) (K1 & K2 & K3 & K4).
    split_and!; by eapply kept_preorder.
Qed.
Lemma unique_grown s s' : grown s s' -> unique s' -> unique s.
Proof.
  intros (G1 & G2 & G3 & G4) (U1 & U2 & U3 & U4). split_and!; by eapply distinct_kept.
Qed.

(** ** What stays *)

(** The objects of the open sending transports stay, but for the producers [gone]. *)
Definition still_send (gone : jref -> Prop) (vs vs' : list send_view) : Prop := forall i v,
  vs !! i = Some v -> open_send v -> exists v', vs' !! i = Some v' /\ open_send v' /\
    (forall p a, ~ gone (i, p) -> objects (seen_producers v) !! p = Some a ->
       objects (seen_producers v') !! p = Some a) /\
    (forall p a, objects (seen_dataProducers v) !! p = Some a ->
       objects (seen_dataProducers v') !! p = Some a).
Definition still_recv (gone : jref -> Prop) (vs vs' : list recv_view) : Prop := forall i v,
  vs !! i = Some v -> open_recv v -> exists v', vs' !! i = Some v' /\ open_recv v' /\
    (forall p a, ~ gone (i, p) -> objects (seen_consumers v) !! p = Some a ->
       objects (seen_consumers v') !! p = Some a).

Lemma still_send_refl vs : still_send (fun _ => False) vs vs.
Proof. intros i v Hv Ho. by exists v. Qed.
Lemma still_recv_refl vs : still_recv (fun _ => False) vs vs.
Proof. intros i v Hv Ho. by exists v. Qed.
Lemma still_send_app vs v : still_send (fun _ => False) vs (vs ++ [v]).
Proof. intros i v' Hv Ho. exists v'. split; [by apply lookup_app_l_Some|done]. Qed.
Lemma still_recv_app vs v : still_recv (fun _ => False) vs (vs ++ [v]).
Proof. intros i v' Hv Ho. exists v'. split; [by apply lookup_app_l_Some|done]. Qed.
Lemma still_send_insert gone vs i v v' :
  vs !! i = Some v -> (open_send v -> open_send v') ->
  (forall p a, ~ gone (i, p) -> objects (seen_producers v) !! p = Some a ->
     objects (seen_producers v') !! p = Some a) ->
  (forall p a, objects (seen_dataProducers v) !! p = Some a ->
     objects (seen_dataProducers v') !! p = Some a) ->
  still_send gone vs (<[i := v']> vs).
Proof.
  intros Hi Ho Hp Hd j u Hu Hou. destruct (decide (i = j)) as [<-|Hne].
  - simplify_eq. exists v'. rewrite list_lookup_insert_eq by by eapply lookup_lt_Some. auto.
  - exists u. by rewrite list_lookup_insert_ne.
Qed.
Lemma still_recv_insert gone vs i v v' :
  vs !! i = Some v -> (open_recv v -> open_recv v') ->
  (forall p a, ~ gone (i, p) -> objects (seen_consumers v) !! p = Some a ->
     objects (seen_consumers v') !! p = Some a) ->
  still_recv gone vs (<[i := v']> vs).
Proof.
  intros Hi Ho Hp j u Hu Hou. destruct (decide (i = j)) as [<-|Hne].
  - simplify_eq. exists v'. rewrite list_lookup_insert_eq by by eapply lookup_lt_Some. auto.
  - exists u. by rewrite list_lookup_insert_ne.
Qed.

Lemma live_producer_still gone s s' l p :
  live_producer s l p -> still_send gone (sends s) (sends s') -> ~ gone p ->
  mediaHeard s' !! p = mediaHeard s !! p ->
  (forall v a, sends s !! p.1 = Some v -> objects (seen_producers v) !! p.2 = Some a ->
     published s' !! producer_id a = published s !! producer_id a) ->
  live_producer s' l p.
Proof.
  intros (v & a & Hv & Ho & Ha & Hc & Hl & Hp) Hs Hg Em Ep.
  destruct (Hs _ _ Hv Ho) as (v' & Hv' & Ho' & Hk & _). exists v', a. rewrite Em, (Ep v a Hv Ha).
  destruct p. by split_and!; auto.
Qed.
Lemma live_dataProducer_still gone s s' l p :
  live_dataProducer s l p -> still_send gone (sends s) (sends s') ->
  dataHeard s' !! p = dataHeard s !! p -> live_dataProducer s' l p.
Proof.
  intros (v & a & Hv & Ho & Ha & Hc & Hl) Hs Em.
  destruct (Hs _ _ Hv Ho) as (v' & Hv' & Ho' & _ & Hk). exists v', a. rewrite Em.
  by split_and!; auto.
Qed.
Lemma live_consumer_still gone s s' id h :
  live_consumer s id h -> still_recv gone (recvs s) (recvs s') -> ~ gone (holder_consumer h) ->
  live_consumer s' id h.
Proof.
  intros (v & c & Hv & Ho & Hc & Hcl & Hid & Ht) Hs Hg.
  destruct (Hs _ _ Hv Ho) as (v' & Hv' & Ho' & Hk). exists v', c.
  destruct (holder_consumer h). by split_and!; auto.
Qed.

(** Two references to producers with the same id are the same. *)
Lemma same_producer s v v' (p q : jref) a b :
  distinct_ids producer_id (seen_producers <$> sends s) ->
  sends s !! p.1 = Some v -> sends s !! q.1 = Some v' ->
  objects (seen_producers v) !! p.2 = Some a -> objects (seen_producers v') !! q.2 = Some b ->
  producer_id a = producer_id b -> p = q.
Proof.
  intros U Hv Hv' Ha Hb Heq.
  destruct (U p.1 q.1 (seen_producers v) (seen_producers v') p.2 q.2 a b) as [E1 E2];
    rewrite ?list_lookup_fmap, ?Hv, ?Hv'; try done.
  destruct p, q. simpl in *. by subst.
Qed.
Lemma same_consumer s v v' (p q : jref) a b :
  unique s -> recvs s !! p.1 = Some v -> recvs s !! q.1 = Some v' ->
  objects (seen_consumers v) !! p.2 = Some a -> objects (seen_consumers v') !! q.2 = Some b ->
  consumer_id a = consumer_id b -> p = q.
Proof.
  intros (_ & _ & U & _) Hv Hv' Ha Hb Heq.
  destruct (U p.1 q.1 (seen_consumers v) (seen_consumers v') p.2 q.2 a b) as [E1 E2];
    rewrite ?list_lookup_fmap, ?Hv, ?Hv'; try done.
  destruct p, q. simpl in *. by subst.
Qed.

(** ** The moves *)

(** A change of the sending transports and of what belongs to them. *)
Record send_move (gone : jref -> Prop) (s s' : summary) : Prop := {
  send_moved : still_send gone (sends s) (sends s');
  send_views i v : sends s' !! i = Some v ->
    producers_ok (seen_producers v) /\ dataProducers_ok (seen_dataProducers v);
  send_now i : sendNow s' = Some i -> exists v, sends s' !! i = Some v /\ open_send v;
  send_rest : recvs s' = recvs s /\ recvNow s' = recvNow s /\ holders s' = holders s /\
    wrappers s' = wrappers s /\ members s' = members s /\ alive s' = alive s
}.
Lemma send_move_ok gone s s' :
  summary_ok s -> send_move gone s s' -> unique s' ->
  (forall l p, media_of l s' = Some p -> live_producer s' l p) ->
  (forall l p, data_of l s' = Some p -> live_dataProducer s' l p) -> summary_ok s'.
Proof.
  intros Hs [Hm Hv Hn (E1 & E2 & E3 & E4 & E5 & E6)] Hu Hmedia Hdata.
  split; rewrite ?E1, ?E2, ?E3, ?E4, ?E5, ?E6; try done; try apply Hs.
  intros id h Hh. unfold live_consumer. rewrite E1. by apply (ok_holders _ Hs).
Qed.

Lemma send_now_still gone s s' :
  summary_ok s -> still_send gone (sends s) (sends s') -> sendNow s' = sendNow s ->
  forall i, sendNow s' = Some i -> exists v, sends s' !! i = Some v /\ open_send v.
Proof.
  intros Hs Hstill E i. rewrite E. intros Hi. destruct (ok_sendNow _ Hs i Hi) as (v & Hv & Ho).
  destruct (Hstill i v Hv Ho) as (v' & ? & ? & _). eauto.
Qed.

(** A change of the receiving transports and of what belongs to them. *)
Record recv_move (gone : jref -> Prop) (s s' : summary) : Prop := {
  recv_moved : still_recv gone (recvs s) (recvs s');
  recv_views i v : recvs s' !! i = Some v ->
    consumers_ok (seen_consumers v) /\ dataConsumers_ok (seen_dataConsumers v);
  recv_now i : recvNow s' = Some i -> exists v, recvs s' !! i = Some v /\ open_recv v;
  recv_rest : sends s' = sends s /\ sendNow s' = sendNow s /\
    (forall l, media_of l s' = media_of l s) /\ (forall l, data_of l s' = data_of l s) /\
    mediaHeard s' = mediaHeard s /\ dataHeard s' = dataHeard s /\ published s' = published s
}.
Lemma recv_move_ok gone s s' :
  summary_ok s -> recv_move gone s s' -> unique s' ->
  (forall id h, holders s' !! id = Some h -> live_consumer s' id h) ->
  (alive s' = true -> wrappers s' = holder_consumer <$> holders s') ->
  (forall k p id, alive s' = true -> getPeer k (members s') = Some p -> id ∈ peer_consumers p ->
     exists h, holders s' !! id = Some h /\ holder_peerId h = k) -> summary_ok s'.
Proof.
  intros Hs [Hm Hv Hn (E1 & E2 & E3 & E4 & E5 & E6 & E7)] Hu Hh Hw Hk.
  split; rewrite ?E1, ?E2, ?E5, ?E6, ?E7; try done; try apply Hs.
  - intros l p. rewrite E3. unfold live_producer. rewrite E1, E5, E7. apply (ok_media _ Hs).
  - intros l p. rewrite E4. unfold live_dataProducer. rewrite E1, E6. apply (ok_data _ Hs).
Qed.

Lemma move_new_send s v :
  summary_ok s -> open_send v -> seen_producers v = no_objects ->
  seen_dataProducers v = no_objects ->
  let s' := put_sendNow (Some (length (sends s))) (put_sends (sends s ++ [v]) s) in
  unique s' -> summary_ok s'.
Proof.
  intros Hs Ho Hp Hd s' Hu.
  assert (E : sends s' = sends s ++ [v] /\ mediaHeard s' = mediaHeard s /\
    dataHeard s' = dataHeard s /\ published s' = published s) by by destruct s.
  destruct E as (E1 & E2 & E3 & E4).
  assert (Hstill : still_send (fun _ => False) (sends s) (sends s'))
    by (rewrite E1; apply still_send_app).
  apply (send_move_ok (fun _ => False) s); [done| |done|..].
  - split; [done|..].
    + intros i u. rewrite E1. intros [Hi|[_ Hi]]%lookup_app_Some; [by apply (ok_sends _ Hs i)|].
      apply list_lookup_singleton_Some in Hi as [_ <-]. rewrite Hp, Hd. split; apply ok_no_objects.
    + intros i Hi. assert (i = length (sends s)) as -> by (destruct s; simpl in *; congruence).
      exists v. split; [|done]. rewrite E1. by rewrite lookup_app_r, Nat.sub_diag by lia.
    + by destruct s.
  - intros l p Hl. eapply live_producer_still; eauto; [|by rewrite E2|by rewrite E4].
    apply (ok_media _ Hs). by destruct s, l.
  - intros l p Hl. eapply live_dataProducer_still; eauto; [|by rewrite E3].
    apply (ok_data _ Hs). by destruct s, l.
Qed.
Lemma move_new_recv s v :
  summary_ok s -> open_recv v -> seen_consumers v = no_objects ->
  seen_dataConsumers v = no_objects ->
  let s' := put_recvNow (Some (length (recvs s))) (put_recvs (recvs s ++ [v]) s) in
  unique s' -> summary_ok s'.
Proof.
  intros Hs Ho Hp Hd s' Hu.
  assert (E : recvs s' = recvs s ++ [v] /\ holders s' = holders s /\ wrappers s' = wrappers s /\
    members s' = members s /\ alive s' = alive s) by by destruct s.
  destruct E as (E1 & E2 & E3 & E4 & E5).
  assert (Hstill : still_recv (fun _ => False) (recvs s) (recvs s'))
    by (rewrite E1; apply still_recv_app).
  apply (recv_move_ok (fun _ => False) s); rewrite ?E2, ?E3, ?E4, ?E5; [done| |done|..|apply Hs].
  - split; [done|..].
    + intros i u. rewrite E1. intros [Hi|[_ Hi]]%lookup_app_Some; [by apply (ok_recvs _ Hs i)|].
      apply list_lookup_singleton_Some in Hi as [_ <-]. rewrite Hp, Hd. split; apply ok_no_objects.
    + intros i Hi. assert (i = length (recvs s)) as -> by (destruct s; simpl in *; congruence).
      exists v. split; [|done]. rewrite E1. by rewrite lookup_app_r, Nat.sub_diag by lia.
    + destruct s. split_and!; try done; by intros [].
  - intros id h Hh. eapply live_consumer_still; eauto. by apply (ok_holders _ Hs).
  - apply Hs.
Qed.

(** The fields of a summary after a move of the producers. *)
Lemma media_of_put l l' x s :
  media_of l (put_media l' x s) = if decide (l = l') then x else media_of l s.
Proof. by destruct s, l, l'. Qed.
Lemma data_of_put l l' x s :
  data_of l (put_data l' x s) = if decide (l = l') then x else data_of l s.
Proof. by destruct s, l, l'. Qed.

Lemma old_producer s v (p : jref) i a :
  sends s !! i = Some v -> live_producer s a p ->
  p <> (i, length (objects (seen_producers v))).
Proof.
  intros Hv (v' & b & Hv' & _ & Hb & _) ->. simpl in *. simplify_eq. apply lookup_lt_Some in Hb. lia.
Qed.

Lemma add_producer_views s i v a :
  summary_ok s -> sends s !! i = Some v ->
  distinct_ids producer_id (seen_producers <$> <[i := add_seen_producer a v]> (sends s)) ->
  forall j u, <[i := add_seen_producer a v]> (sends s) !! j = Some u ->
    producers_ok (seen_producers u) /\ dataProducers_ok (seen_dataProducers u).
Proof.
  intros Hs Hv Hd j u [[-> ->]|[_ Hj]]%lookup_insert_cases; [|by apply (ok_sends _ Hs j)].
  destruct (ok_sends _ Hs i v Hv) as [Hp Hdp]. split; [|done]. apply ok_register; [done|].
  eapply (fresh_of_distinct producer_id producer_closed (seen_producers <$> sends s) i); [| |done].
  - by rewrite views_insert in Hd.
  - by rewrite list_lookup_fmap, Hv.
Qed.

Definition publish (l : media_listener) (i : nat) (v : send_view) (a : Producer) (s : summary) :
    summary :=
  let p := (i, length (objects (seen_producers v))) in
  put_published (<[producer_id a := p]> (published s))
    (put_media l (Some p)
       (put_mediaHeard (<[p := l]> (mediaHeard s))
          (put_sends (<[i := add_seen_producer a v]> (sends s)) s))).

Lemma move_publish s l i v a :
  summary_ok s -> sends s !! i = Some v -> open_send v -> producer_closed a = false ->
  unique (publish l i v a s) -> summary_ok (publish l i v a s).
Proof.
  intros Hs Hv Ho Hc Hu. set (s' := publish l i v a s) in *.
  set (p := (i, length (objects (seen_producers v)))).
  assert (E : sends s' = <[i := add_seen_producer a v]> (sends s) /\
    mediaHeard s' = <[p := l]> (mediaHeard s) /\ dataHeard s' = dataHeard s /\
    published s' = <[producer_id a := p]> (published s) /\ sendNow s' = sendNow s /\
    (forall k, media_of k s' = if decide (k = l) then Some p else media_of k s) /\
    (forall k, data_of k s' = data_of k s))
    by (unfold s', publish; destruct s; split_and!; try (by destruct l); intros []; by destruct l).
  destruct E as (E1 & E2 & E3 & E4 & E5 & E6 & E7).
  assert (Hstill : still_send (fun _ => False) (sends s) (sends s')).
  { rewrite E1. eapply still_send_insert; eauto. intros q b _. apply registered_old. }
  assert (Hnew : sends s' !! i = Some (add_seen_producer a v)).
  { rewrite E1. apply list_lookup_insert_eq. by eapply lookup_lt_Some. }
  apply (send_move_ok (fun _ => False) s); [done| |done|..].
  - split; [done|..].
    + intros j u. rewrite E1. apply (add_producer_views s i v a Hs Hv). rewrite <- E1. apply Hu.
    + by eapply send_now_still.
    + by destruct s, l.
  - intros k q. rewrite E6. destruct (decide (k = l)) as [->|Hne].
    + intros [= <-]. exists (add_seen_producer a v), a. rewrite E2, E4, !lookup_insert_eq.
      split_and!; try done. apply registered_new.
    + intros Hq. pose proof (ok_media _ Hs k q Hq) as Hlive.
      pose proof (old_producer s v q i k Hv Hlive) as Hqp.
      eapply live_producer_still; eauto; [by rewrite E2, lookup_insert_ne by done|].
      intros u b Hub Hb. rewrite E4, lookup_insert_ne; [done|]. intros Heq. apply Hqp.
      destruct Hlive as (u0 & b0 & Hu0 & Ho0 & _). assert (u0 = u) as -> by congruence.
      destruct (Hstill _ _ Hub Ho0) as (u' & Hu' & _ & Hk & _).
      apply (same_producer s' u' (add_seen_producer a v) q p b a); auto; [apply Hu|].
      apply registered_new.
  - intros k q. rewrite E7. intros Hq. eapply live_dataProducer_still; eauto; [|by rewrite E3].
    by apply (ok_data _ Hs).
Qed.

Definition unpublish (l : media_listener) (p : jref) (v : send_view) (a : Producer) (s : summary) :
    summary :=
  put_media l None
    (put_published (delete (producer_id a) (published s))
       (put_sends (<[p.1 := close_seen_producer p.2 a v]> (sends s)) s)).

Lemma close_producer_views s i p v a :
  summary_ok s -> sends s !! i = Some v -> objects (seen_producers v) !! p = Some a ->
  producer_closed a = false ->
  forall j u, <[i := close_seen_producer p a v]> (sends s) !! j = Some u ->
    producers_ok (seen_producers u) /\ dataProducers_ok (seen_dataProducers u).
Proof.
  intros Hs Hv Ha Hc j u [[-> ->]|[_ Hj]]%lookup_insert_cases; [|by apply (ok_sends _ Hs j)].
  destruct (ok_sends _ Hs i v Hv) as [Hp Hd]. split; [|done].
  by apply (ok_close producer_id producer_closed).
Qed.

Lemma move_unpublish s l p v a :
  summary_ok s -> media_of l s = Some p -> sends s !! p.1 = Some v ->
  objects (seen_producers v) !! p.2 = Some a ->
  unique (unpublish l p v a s) -> summary_ok (unpublish l p v a s).
Proof.
  intros Hs Hp Hv Ha Hu. set (s' := unpublish l p v a s) in *.
  destruct (ok_media _ Hs l p Hp) as (v0 & a0 & Hv0 & Ho & Ha0 & Hc & Hl & _).
  assert (v0 = v) as -> by congruence. assert (a0 = a) as -> by congruence.
  assert (E : sends s' = <[p.1 := close_seen_producer p.2 a v]> (sends s) /\
    mediaHeard s' = mediaHeard s /\ dataHeard s' = dataHeard s /\
    published s' = delete (producer_id a) (published s) /\ sendNow s' = sendNow s /\
    (forall k, media_of k s' = if decide (k = l) then None else media_of k s) /\
    (forall k, data_of k s' = data_of k s))
    by (unfold s', unpublish; destruct s; split_and!; try (by destruct l); intros []; by destruct l).
  destruct E as (E1 & E2 & E3 & E4 & E5 & E6 & E7).
  assert (Hstill : still_send (eq p) (sends s) (sends s')).
  { rewrite E1. eapply still_send_insert; eauto. intros q b Hq Hb. simpl.
    rewrite list_lookup_insert_ne; [done|]. intros <-. apply Hq. by destruct p. }
  apply (send_move_ok (eq p) s); [done| |done|..].
  - split; [done|..].
    + intros j u. rewrite E1. by apply close_producer_views.
    + by eapply send_now_still.
    + by destruct s, l.
  - intros k q. rewrite E6. destruct (decide (k = l)) as [->|Hne]; [done|]. intros Hq.
    pose proof (ok_media _ Hs k q Hq) as Hlive.
    assert (Hpq : p <> q) by (intros <-; destruct Hlive as (?&?&?&?&?&?&?&?); congruence).
    eapply live_producer_still; eauto; [by rewrite E2|].
    intros u b Hub Hb. rewrite E4, lookup_delete_ne; [done|]. intros Heq. apply Hpq.
    apply (same_producer s v u p q a b); auto. apply Hs.
  - intros k q. rewrite E7. intros Hq. eapply live_dataProducer_still; eauto; [|by rewrite E3].
    by apply (ok_data _ Hs).
Qed.

Definition publish_data (l : data_listener) (i : nat) (v : send_view) (a : DataProducer)
    (s : summary) : summary :=
  let p := (i, length (objects (seen_dataProducers v))) in
  put_data l (Some p)
    (put_dataHeard (<[p := l]> (dataHeard s))
       (put_sends (<[i := add_seen_dataProducer a v]> (sends s)) s)).

Lemma add_dataProducer_views s i v a :
  summary_ok s -> sends s !! i = Some v ->
  distinct_ids dataProducer_id (seen_dataProducers <$> <[i := add_seen_dataProducer a v]> (sends s)) ->
  forall j u, <[i := add_seen_dataProducer a v]> (sends s) !! j = Some u ->
    producers_ok (seen_producers u) /\ dataProducers_ok (seen_dataProducers u).
Proof.
  intros Hs Hv Hd j u [[-> ->]|[_ Hj]]%lookup_insert_cases; [|by apply (ok_sends _ Hs j)].
  destruct (ok_sends _ Hs i v Hv) as [Hp Hdp]. split; [done|]. apply ok_register; [done|].
  eapply (fresh_of_distinct dataProducer_id dataProducer_closed (seen_dataProducers <$> sends s) i);
    [| |done].
  - by rewrite views_insert in Hd.
  - by rewrite list_lookup_fmap, Hv.
Qed.

Lemma move_publish_data s l i v a :
  summary_ok s -> sends s !! i = Some v -> open_send v -> dataProducer_closed a = false ->
  unique (publish_data l i v a s) -> summary_ok (publish_data l i v a s).
Proof.
  intros Hs Hv Ho Hc Hu. set (s' := publish_data l i v a s) in *.
  set (p := (i, length (objects (seen_dataProducers v)))).
  assert (E : sends s' = <[i := add_seen_dataProducer a v]> (sends s) /\
    mediaHeard s' = mediaHeard s /\ dataHeard s' = <[p := l]> (dataHeard s) /\
    published s' = published s /\ sendNow s' = sendNow s /\
    (forall k, media_of k s' = media_of k s) /\
    (forall k, data_of k s' = if decide (k = l) then Some p else data_of k s))
    by (unfold s', publish_data; destruct s; split_and!; try (by destruct l); intros []; by destruct l).
  destruct E as (E1 & E2 & E3 & E4 & E5 & E6 & E7).
  assert (Hstill : still_send (fun _ => False) (sends s) (sends s')).
  { rewrite E1. eapply still_send_insert; eauto. intros q b. apply registered_old. }
  assert (Hnew : sends s' !! i = Some (add_seen_dataProducer a v)).
  { rewrite E1. apply list_lookup_insert_eq. by eapply lookup_lt_Some. }
  apply (send_move_ok (fun _ => False) s); [done| |done|..].
  - split; [done|..].
    + intros j u. rewrite E1. apply (add_dataProducer_views s i v a Hs Hv). rewrite <- E1. apply Hu.
    + by eapply send_now_still.
    + by destruct s, l.
  - intros k q. rewrite E6. intros Hq. eapply live_producer_still; eauto; [|by rewrite E2|by rewrite E4].
    by apply (ok_media _ Hs).
  - intros k q. rewrite E7. destruct (decide (k = l)) as [->|Hne].
    + intros [= <-]. exists (add_seen_dataProducer a v), a. rewrite E3, lookup_insert_eq.
      split_and!; try done. apply registered_new.
    + intros Hq. destruct (ok_data _ Hs k q Hq) as (u & b & Hlive).
      eapply live_dataProducer_still; eauto; [by exists u, b|].
      rewrite E3, lookup_insert_ne; [done|]. intros <-. destruct Hlive as (Hu' & _ & Hb & _).
      simpl in *. assert (u = v) as -> by congruence. apply lookup_lt_Some in Hb. lia.
Qed.

Lemma move_forget_data s l : summary_ok s -> summary_ok (put_data l None s).
Proof.
  intros Hs. apply (send_move_ok (fun _ => False) s); [done| | |..].
  - split; [destruct s, l; apply still_send_refl| | |by destruct s, l];
      intros i; [pose proof (ok_sends _ Hs i)|pose proof (ok_sendNow _ Hs i)]; by destruct s, l.
  - pose proof (ok_unique _ Hs). by destruct s, l.
  - intros k p Hp. assert (Hp' : media_of k s = Some p) by by destruct s, l, k.
    pose proof (ok_media _ Hs k p Hp'). by destruct s, l.
  - intros k p. rewrite data_of_put. destruct (decide (k = l)); [done|]. intros Hp.
    pose proof (ok_data _ Hs k p Hp). by destruct s, l.
Qed.

(** ** The moves of the consumers *)

Lemma recv_now_still gone s s' :
  summary_ok s -> still_recv gone (recvs s) (recvs s') -> recvNow s' = recvNow s ->
  forall i, recvNow s' = Some i -> exists v, recvs s' !! i = Some v /\ open_recv v.
Proof.
  intros Hs Hstill E i. rewrite E. intros Hi. destruct (ok_recvNow _ Hs i Hi) as (v & Hv & Ho).
  destruct (Hstill i v Hv Ho) as (v' & ? & ? & _). eauto.
Qed.

(** Only the maps of a receiving transport grow. *)
Lemma move_put_recvs s i v v' :
  summary_ok s -> recvs s !! i = Some v -> (open_recv v -> open_recv v') ->
  (forall p a, objects (seen_consumers v) !! p = Some a ->
     objects (seen_consumers v') !! p = Some a) ->
  consumers_ok (seen_consumers v') -> dataConsumers_ok (seen_dataConsumers v') ->
  unique (put_recvs (<[i := v']> (recvs s)) s) -> summary_ok (put_recvs (<[i := v']> (recvs s)) s).
Proof.
  intros Hs Hv Ho Hk Hc Hd Hu. set (s' := put_recvs _ s) in *.
  assert (E : recvs s' = <[i := v']> (recvs s) /\ holders s' = holders s /\
    wrappers s' = wrappers s /\ members s' = members s /\ alive s' = alive s /\
    recvNow s' = recvNow s) by by destruct s.
  destruct E as (E1 & E2 & E3 & E4 & E5 & E6).
  assert (Hstill : still_recv (fun _ => False) (recvs s) (recvs s'))
    by (rewrite E1; eapply still_recv_insert; eauto).
  apply (recv_move_ok (fun _ => False) s); rewrite ?E2, ?E3, ?E4, ?E5; [done| |done|..|apply Hs].
  - split; [done| |by eapply recv_now_still|destruct s; split_and!; try done; by intros []].
    intros j u. rewrite E1. intros [[-> ->]|[_ Hj]]%lookup_insert_cases; [done|].
    by apply (ok_recvs _ Hs j).
  - intros id h Hh. eapply live_consumer_still; eauto. by apply (ok_holders _ Hs).
  - apply Hs.
Qed.

Lemma fresh_consumer s i v c :
  summary_ok s -> recvs s !! i = Some v ->
  distinct_ids consumer_id (seen_consumers <$> <[i := add_seen_consumer c v]> (recvs s)) ->
  consumers_ok (seen_consumers (add_seen_consumer c v)) /\ holders s !! consumer_id c = None.
Proof.
  intros Hs Hv Hd. rewrite views_insert in Hd. split.
  - apply ok_register; [by apply (ok_recvs _ Hs i)|].
    eapply (fresh_of_distinct consumer_id consumer_closed (seen_consumers <$> recvs s) i);
      [exact Hd|by rewrite list_lookup_fmap, Hv|by apply (ok_recvs _ Hs i)].
  - destruct (holders s !! consumer_id c) as [h|] eqn:Hh; [|done].
    destruct (ok_holders _ Hs _ _ Hh) as (u & d & Hu & _ & Hdo & _ & Hid & _).
    assert (Hl : (seen_consumers <$> recvs s) !! i = Some (seen_consumers v))
      by by rewrite list_lookup_fmap, Hv.
    assert (Hl' : (seen_consumers <$> recvs s) !! (holder_consumer h).1 = Some (seen_consumers u))
      by by rewrite list_lookup_fmap, Hu.
    destruct (kept_register consumer_id _ i _ c Hl _ _ _ _ Hl' Hdo) as (r' & d' & Hr' & Hd' & Heq).
    destruct (Hd _ i r' (register (consumer_id c) c (seen_consumers v)) (holder_consumer h).2
      (length (objects (seen_consumers v))) d' c Hr') as [Ei Ep]; [|done|apply registered_new|congruence|].
    + apply list_lookup_insert_eq. by eapply lookup_lt_Some.
    + rewrite Ei, Hv in Hu. simplify_eq. rewrite Ep in Hdo. apply lookup_lt_Some in Hdo. lia.
Qed.

Definition take_consumer (k : jstring) (i : nat) (v : recv_view) (c : Consumer) (s : summary) :
    summary :=
  let p := (i, length (objects (seen_consumers v))) in
  let h := {| holder_peerId := k; holder_consumer := p; holder_track := consumer_track c |} in
  put_members (Peers_addConsumer k (consumer_id c) (members s))
    (put_wrappers (<[consumer_id c := p]> (wrappers s))
       (put_holders (<[consumer_id c := h]> (holders s))
          (put_recvs (<[i := add_seen_consumer c v]> (recvs s)) s))).

Lemma move_take_consumer s k i v c :
  summary_ok s -> recvs s !! i = Some v -> open_recv v -> consumer_closed c = false ->
  unique (take_consumer k i v c s) -> summary_ok (take_consumer k i v c s).
Proof.
  intros Hs Hv Ho Hc Hu. set (s' := take_consumer k i v c s) in *. unfold take_consumer in s'.
  set (p := (i, length (objects (seen_consumers v)))) in s'.
  set (h := Build_ConsumerHolder _ _ _) in s'.
  assert (E : recvs s' = <[i := add_seen_consumer c v]> (recvs s) /\
    holders s' = <[consumer_id c := h]> (holders s) /\
    wrappers s' = <[consumer_id c := p]> (wrappers s) /\
    members s' = Peers_addConsumer k (consumer_id c) (members s) /\ alive s' = alive s /\
    recvNow s' = recvNow s) by by destruct s.
  destruct E as (E1 & E2 & E3 & E4 & E5 & E6).
  destruct (fresh_consumer s i v c Hs Hv) as [Hreg Hf]; [rewrite <- E1; apply Hu|].
  assert (Hstill : still_recv (fun _ => False) (recvs s) (recvs s')).
  { rewrite E1. eapply still_recv_insert; eauto. intros q b _. apply registered_old. }
  apply (recv_move_ok (fun _ => False) s); rewrite ?E2, ?E3, ?E4, ?E5; [done| |done|..].
  - split; [done| |by eapply recv_now_still|destruct s; split_and!; try done; by intros []].
    intros j u. rewrite E1. intros [[-> ->]|[_ Hj]]%lookup_insert_cases; [|by apply (ok_recvs _ Hs j)].
    split; [done|]. by destruct (ok_recvs _ Hs i v Hv).
  - intros id g [[<- <-]|[Hne Hg]]%lookup_insert_Some.
    + exists (add_seen_consumer c v), c. rewrite E1, list_lookup_insert_eq by by eapply lookup_lt_Some.
      split_and!; try done. apply registered_new.
    + eapply live_consumer_still; eauto. by apply (ok_holders _ Hs).
  - intros Ha. by rewrite fmap_insert, (ok_wrappers _ Hs Ha).
  - intros k' q id Ha. unfold Peers_addConsumer. rewrite getPeer_with.
    assert (Hold : forall q, getPeer k' (members s) = Some q -> id ∈ peer_consumers q ->
      exists g, <[consumer_id c := h]> (holders s) !! id = Some g /\ holder_peerId g = k').
    { intros q' Hq Hid. destruct (ok_members _ Hs k' q' id Ha Hq Hid) as (g & Hg & <-).
      exists g. rewrite lookup_insert_ne; [done|]. intros <-. congruence. }
    case_bool_decide as Hk; [subst k'|apply Hold].
    intros (q' & Hq & ->)%fmap_Some. simpl. rewrite elem_of_union, elem_of_singleton.
    intros [->|Hid]; [|by apply (Hold q')]. exists h. by rewrite lookup_insert_eq.
Qed.

Definition drop_consumer (id : string) (h : ConsumerHolder) (v : recv_view) (c : Consumer)
    (s : summary) : summary :=
  put_members (Peers_removeConsumer (holder_peerId h) id (members s))
    (put_wrappers (delete id (wrappers s))
       (put_holders (delete id (holders s))
          (put_recvs (<[(holder_consumer h).1 :=
             close_seen_consumer (holder_consumer h).2 c v]> (recvs s)) s))).

Lemma move_drop_consumer s id h v c :
  summary_ok s -> holders s !! id = Some h -> recvs s !! (holder_consumer h).1 = Some v ->
  objects (seen_consumers v) !! (holder_consumer h).2 = Some c ->
  unique (drop_consumer id h v c s) -> summary_ok (drop_consumer id h v c s).
Proof.
  intros Hs Hh Hv Hc Hu. set (s' := drop_consumer id h v c s) in *.
  destruct (ok_holders _ Hs id h Hh) as (v0 & c0 & Hv0 & Ho & Hc0 & Hcl & Hid & _).
  assert (v0 = v) as -> by congruence. assert (c0 = c) as -> by congruence.
  assert (E : recvs s' = <[(holder_consumer h).1 :=
      close_seen_consumer (holder_consumer h).2 c v]> (recvs s) /\
    holders s' = delete id (holders s) /\ wrappers s' = delete id (wrappers s) /\
    members s' = Peers_removeConsumer (holder_peerId h) id (members s) /\ alive s' = alive s /\
    recvNow s' = recvNow s) by by destruct s.
  destruct E as (E1 & E2 & E3 & E4 & E5 & E6).
  assert (Hstill : still_recv (eq (holder_consumer h)) (recvs s) (recvs s')).
  { rewrite E1. eapply still_recv_insert; eauto. intros q b Hq Hb. simpl.
    rewrite list_lookup_insert_ne; [done|]. intros <-. apply Hq. by destruct (holder_consumer h). }
  apply (recv_move_ok (eq (holder_consumer h)) s); rewrite ?E2, ?E3, ?E4, ?E5; [done| |done|..].
  - split; [done| |by eapply recv_now_still|destruct s; split_and!; try done; by intros []].
    intros j u. rewrite E1. intros [[-> ->]|[_ Hj]]%lookup_insert_cases; [|by apply (ok_recvs _ Hs j)].
    destruct (ok_recvs _ Hs _ _ Hv). split; [|done]. by apply (ok_close consumer_id consumer_closed).
  - intros id' g [Hne Hg]%lookup_delete_Some. pose proof (ok_holders _ Hs id' g Hg) as Hlive.
    eapply live_consumer_still; eauto. intros Heq.
    destruct Hlive as (u & d & Hu' & _ & Hd & _ & Hid' & _). apply Hne.
    rewrite <- Heq in Hu', Hd. congruence.
  - intros Ha. by rewrite fmap_delete, (ok_wrappers _ Hs Ha).
  - intros k q id' Ha. unfold Peers_removeConsumer. rewrite getPeer_with.
    case_bool_decide as Hk.
    + subst k. intros (q' & Hq & ->)%fmap_Some. simpl. rewrite elem_of_difference, elem_of_singleton.
      intros [Hin Hne]. destruct (ok_members _ Hs _ q' id' Ha Hq Hin) as (g & Hg & <-). exists g.
      by rewrite lookup_delete_ne.
    + intros Hq Hin. destruct (ok_members _ Hs k q id' Ha Hq Hin) as (g & Hg & <-). exists g.
      rewrite lookup_delete_ne; [done|]. intros <-. congruence.
Qed.

(** A peer joins without consumers, or leaves. *)
Lemma move_members s ms :
  summary_ok s ->
  (forall k p id, getPeer k ms = Some p -> id ∈ peer_consumers p ->
     exists q, getPeer k (members s) = Some q /\ id ∈ peer_consumers q) ->
  summary_ok (put_members ms s).
Proof.
  intros Hs Hm. assert (Hu : unique (put_members ms s)) by (pose proof (ok_unique _ Hs); by destruct s).
  apply (recv_move_ok (fun _ => False) s); [done| |done|..].
  - split; [destruct s; apply still_recv_refl| | |destruct s; split_and!; try done; by intros []];
      intros i; [pose proof (ok_recvs _ Hs i)|pose proof (ok_recvNow _ Hs i)]; by destruct s.
  - pose proof (ok_holders _ Hs). by destruct s.
  - pose proof (ok_wrappers _ Hs). by destruct s.
  - intros k p id Ha Hp Hid. destruct (Hm k p id) as (q & Hq & Hin); [by destruct s|done|].
    destruct (ok_members _ Hs k q id) as (h & Hh & Hk); [by destruct s|done..|].
    exists h. by destruct s.
Qed.
End Moves.
