(* ===== verification/RtcEngineSound.v ===== *)
(** * The engine: the steps keep the invariant

    A computation is sound if it keeps the invariant whenever it survives, that is, unless it is
    undefined or ends the process, and the ids that the server gave are different. *)

From stdpp Require Import gmap.
From S2P Require Import Prelude Json JsonDump JsonParser OrtcValidate Ortc MediaSection RemoteSdp.
From S2P Require Import PeerConnection Handler Transport SendTransport RecvTransport TransportSpec.
From S2P Require Import Device Fastjson RoomStore Droid DroidSpec Capture RtcEngine RtcEngineInv.
From S2P Require Import RtcEngineCalm RtcEngineMoves.

Create HintDb sound.

Section Sound.
Context `{W : Webrtc} `{!Capture} `{!DataChannels} `{!Services} `{!Fastjson}.

Definition survives {A} (r : result A) : Prop :=
  match r with Ok _ => True | Throw e => e <> ProcessAborted | Undef => False end.

Record sound {A} (m : EM A) : Prop := {
  sound_grown st : grown (summarize st.1) (summarize (snd (m st)).1);
  sound_keeps st : engine_ok st.1 -> unique (summarize (snd (m st)).1) ->
    survives (fst (m st)) -> engine_ok (snd (m st)).1
}.

Lemma calm_keeps (st st' : Engine * World) : calm_at st st' -> engine_ok st.1 -> engine_ok st'.1.
Proof. intros [E Hq] [Hs Hok]. unfold engine_ok. rewrite E. auto. Qed.
Lemma calm_grown (st st' : Engine * World) :
  calm_at st st' -> grown (summarize st.1) (summarize st'.1).
Proof. intros [-> _]. reflexivity. Qed.

Lemma sound_calm {A} (m : EM A) : (forall st0, preserves (calm_at st0) m) -> sound m.
Proof.
  intros Hm. assert (Hc : forall st, calm_at st (snd (m st))) by (intros st; by apply Hm).
  split; intros st; [by apply calm_grown|]. intros Hok _ _. by apply (calm_keeps st).
Qed.
(** The result of the first computation is known to satisfy [Q]. *)
Lemma sound_bind_of {A B} (Q : A -> Prop) (m : EM A) (k : A -> EM B) :
  sound m -> (forall st a st', m st = (Ok a, st') -> Q a) -> (forall a, Q a -> sound (k a)) ->
  sound (bind m k).
Proof.
  intros Hm HQ Hk. split; intros st; pose proof (sound_grown _ Hm st) as Gm;
    pose proof (sound_keeps _ Hm st) as Sm; specialize (HQ st); unfold bind;
    destruct (m st) as [[a|e|] st1]; cbn [fst snd] in *; try done;
    specialize (Hk a (HQ a st1 eq_refl)).
  - etransitivity; [exact Gm|apply Hk].
  - intros Hok Hu Hv. apply Hk; try done. apply Sm; [done| |done].
    eapply unique_grown; [apply Hk|exact Hu].
Qed.
Lemma sound_bind {A B} (m : EM A) (k : A -> EM B) :
  sound m -> (forall a, sound (k a)) -> sound (bind m k).
Proof. intros Hm Hk. by apply (sound_bind_of (fun _ => True)). Qed.
Lemma sound_ret {A} (a : A) : sound (ret a).
Proof. apply sound_calm. intros st0. apply preserves_ret. Qed.
Lemma sound_throw {A} e : sound (A := A) (throw e).
Proof. apply sound_calm. intros st0. apply preserves_throw. Qed.
Lemma sound_when b (m : EM unit) : sound m -> sound (when b m).
Proof. destruct b; [done|]. intros _. apply sound_ret. Qed.
Lemma sound_try_catch {A} p (m : EM A) h :
  p ProcessAborted = false -> sound m -> (forall e, sound (h e)) -> sound (try_catch p m h).
Proof.
  intros Hp [Gm Sm] Hh. split; intros st; specialize (Gm st); specialize (Sm st); unfold try_catch;
    destruct (m st) as [[a|e|] st1]; cbn [fst snd] in *; try done.
  - destruct (p e); [|done]. etransitivity; [exact Gm|apply Hh].
  - destruct (p e) eqn:He; [|auto]. intros Hok Hu Hv. apply (Hh e); try done. apply Sm; [done| |].
    + eapply unique_grown; [apply Hh|exact Hu].
    + simpl. congruence.
Qed.

(** A computation that leaves the invariant alone, does not survive, or moves the summary. *)
Definition moves (move : summary -> summary -> Prop) {A} (st : Engine * World)
    (o : result A * (Engine * World)) : Prop :=
  calm_at st (snd o) \/
  (~ survives (fst o) /\ grown (summarize st.1) (summarize (snd o).1)) \/
  exists st1, calm_at st st1 /\ move (summarize st1.1) (summarize (snd o).1) /\
    tasks (snd o).1 = tasks st1.1.

Lemma sound_move {A} (m : EM A) (move : summary -> summary -> Prop) :
  (forall s s', move s s' -> grown s s') ->
  (forall s s', summary_ok s -> move s s' -> unique s' -> summary_ok s') ->
  (forall s s' q, move s s' -> queue_ok s q -> queue_ok s' q) ->
  (forall st, moves move st (m st)) -> sound m.
Proof.
  intros Hg Hok Hq Hm. split; intros st; destruct (Hm st) as [Hc|[[Hn G]|(st1 & Hc & Hmove & Ht)]].
  - by apply calm_grown.
  - done.
  - etransitivity; [by apply calm_grown|by apply Hg].
  - intros He _ _. by apply (calm_keeps st).
  - done.
  - intros He Hu _. destruct (calm_keeps st st1 Hc He) as [Hs1 Hq1]. split; [by eapply Hok|].
    rewrite Ht. by eapply Hq.
Qed.
End Sound.

#[export] Hint Resolve sound_ret sound_throw sound_when : sound.
#[export] Hint Extern 5 (sound _) => apply sound_calm; intros ?; solve [preserve] : sound.
(** Goes through a sequence of sound computations. *)
Ltac sounds :=
  first [ solve [eauto 3 with sound]
        | apply sound_bind; [sounds|intros ?; sounds]
        | idtac ].
