(* ===== verification/RtcEngineSteps.v ===== *)
(** * The engine: its operations are sound *)

From stdpp Require Import gmap.
From S2P Require Import Prelude Json JsonDump JsonParser OrtcValidate Ortc MediaSection RemoteSdp.
From S2P Require Import PeerConnection Handler Transport SendTransport RecvTransport TransportSpec.
From S2P Require Import Device Fastjson RoomStore Droid DroidSpec Capture RtcEngine RtcEngineInv.
From S2P Require Import RtcEngineCalm RtcEngineMoves RtcEngineSound.

Section Steps.
Context `{W : Webrtc} `{!Capture} `{!DataChannels} `{!Services} `{!Fastjson}.

(** ** Growth *)

Lemma grown_insert_send s s' i v v' :
  sends s !! i = Some v -> sends s' = <[i := v']> (sends s) -> recvs s' = recvs s ->
  (forall p a, objects (seen_producers v) !! p = Some a ->
     exists a', objects (seen_producers v') !! p = Some a' /\ producer_id a' = producer_id a) ->
  (forall p a, objects (seen_dataProducers v) !! p = Some a ->
     objects (seen_dataProducers v') !! p = Some a) -> grown s s'.
Proof.
  intros Hv E1 E2 Hp Hd. unfold grown. rewrite E1, E2, !views_insert. split_and!.
  - eapply kept_insert; [|exact Hp]. by rewrite list_lookup_fmap, Hv.
  - eapply kept_insert; [by rewrite list_lookup_fmap, Hv|]. eauto.
  - apply kept_preorder.
  - apply kept_preorder.
Qed.
Lemma grown_insert_recv s s' i v v' :
  recvs s !! i = Some v -> recvs s' = <[i := v']> (recvs s) -> sends s' = sends s ->
  (forall p a, objects (seen_consumers v) !! p = Some a ->
     exists a', objects (seen_consumers v') !! p = Some a' /\ consumer_id a' = consumer_id a) ->
  (forall p a, objects (seen_dataConsumers v) !! p = Some a ->
     objects (seen_dataConsumers v') !! p = Some a) -> grown s s'.
Proof.
  intros Hv E1 E2 Hp Hd. unfold grown. rewrite E1, E2, !views_insert. split_and!.
  - apply kept_preorder.
  - apply kept_preorder.
  - eapply kept_insert; [|exact Hp]. by rewrite list_lookup_fmap, Hv.
  - eapply kept_insert; [by rewrite list_lookup_fmap, Hv|]. eauto.
Qed.
(** An object that is replaced by one with the same id. *)
Lemma set_object_kept {A} (key : A -> string) (r : Registry A) p a a' q b :
  objects r !! p = Some a -> key a' = key a -> objects r !! q = Some b ->
  exists b', <[p := a']> (objects r) !! q = Some b' /\ key b' = key b.
Proof.
  intros Ha Hk Hb. destruct (decide (p = q)) as [<-|Hne].
  - simplify_eq. exists a'. by rewrite list_lookup_insert_eq by by eapply lookup_lt_Some.
  - exists b. by rewrite list_lookup_insert_ne.
Qed.

(** ** Calls of the transports that tell nothing *)

Lemma run_on_send {A} i (m : JSM A) st t r t' w :
  sendTransports st.1 !! i = Some t -> m (t, st.2) = (r, (t', w)) -> send_told t' = send_told t ->
  on_send i m st = (r, (on_sendTransports (insert i t') st.1, w)).
Proof.
  intros Ht Hm Hl. unfold on_send. rewrite Ht, Hm. unfold send_told in Hl. by rewrite Hl, drop_all.
Qed.
Lemma run_on_recv {A} i (m : JRM A) st t r t' w :
  recvTransports st.1 !! i = Some t -> m (t, st.2) = (r, (t', w)) -> recv_told t' = recv_told t ->
  on_recv i m st = (r, (on_recvTransports (insert i t') st.1, w)).
Proof.
  intros Ht Hm Hl. unfold on_recv. rewrite Ht, Hm. unfold recv_told in Hl. by rewrite Hl, drop_all.
Qed.
Lemma sends_at e i t :
  sendTransports e !! i = Some t -> sends (summarize e) !! i = Some (view_send t).
Proof. intros Ht. simpl. by rewrite list_lookup_fmap, Ht. Qed.
Lemma recvs_at e i t :
  recvTransports e !! i = Some t -> recvs (summarize e) !! i = Some (view_recv t).
Proof. intros Ht. simpl. by rewrite list_lookup_fmap, Ht. Qed.
Lemma sum_sends e i t :
  summarize (on_sendTransports (insert i t) e) =
  put_sends (<[i := view_send t]> (sends (summarize e))) (summarize e).
Proof. destruct e. unfold summarize. simpl. by rewrite views_insert. Qed.
Lemma sum_recvs e i t :
  summarize (on_recvTransports (insert i t) e) =
  put_recvs (<[i := view_recv t]> (recvs (summarize e))) (summarize e).
Proof. destruct e. unfold summarize. simpl. by rewrite views_insert. Qed.
Lemma calm_sends (st : Engine * World) i t t' w :
  sendTransports st.1 !! i = Some t -> view_send t' = view_send t ->
  calm_at st (on_sendTransports (insert i t') st.1, w).
Proof.
  intros Ht Hv. split; [|by destruct st as [[] ?]]. simpl. rewrite sum_sends, Hv.
  rewrite list_insert_id by by apply sends_at. by destruct st as [[] ?].
Qed.
Lemma calm_recvs (st : Engine * World) i t t' w :
  recvTransports st.1 !! i = Some t -> view_recv t' = view_recv t ->
  calm_at st (on_recvTransports (insert i t') st.1, w).
Proof.
  intros Ht Hv. split; [|by destruct st as [[] ?]]. simpl. rewrite sum_recvs, Hv.
  rewrite list_insert_id by by apply recvs_at. by destruct st as [[] ?].
Qed.

(** ** Creating the transports *)

Definition new_send (t : JTransport SendTransport) : Prop :=
  view_send t = {| seen_producers := no_objects; seen_dataProducers := no_objects;
                   send_closed := false; send_freed := false |}.
Definition new_recv (t : JTransport RecvTransport) : Prop :=
  view_recv t = {| seen_consumers := no_objects; seen_dataConsumers := no_objects;
                   recv_closed := false; recv_freed := false |}.

Lemma SendTransport_new_fresh id ice candidates dtls sctp extended can appData w t w' :
  SendTransport_new id ice candidates dtls sctp extended can appData w = (Ok t, w') ->
  new_send (wrap t).
Proof.
  unfold SendTransport_new. intros Hr. do 6 (apply bind_ok in Hr as (? & ? & _ & Hr)).
  by injection Hr as <- _.
Qed.
Lemma RecvTransport_new_fresh id ice candidates dtls sctp extended appData w t w' :
  RecvTransport_new id ice candidates dtls sctp extended appData w = (Ok t, w') ->
  new_recv (wrap t).
Proof.
  unfold RecvTransport_new. intros Hr. apply bind_ok in Hr as (? & ? & _ & Hr).
  by injection Hr as <- _.
Qed.

(** The transport that [createTransportOf] returns is the one that the device created. *)
Lemma createTransportOf_ok {T} create (Q : JTransport T -> Prop) req st t st' :
  (forall id ice candidates dtls sctp appData d t d',
     create id ice candidates dtls sctp appData d = (Ok t, d') -> Q (wrap t)) ->
  createTransportOf (createTransport create) req st = (Ok t, st') -> Q t.
Proof.
  intros Hc. unfold createTransportOf. intros Hr. do 3 (apply bind_ok in Hr as (? & ? & _ & Hr)).
  unfold on_device in Hr. destruct (createTransport _ _ _ _ _ _ _ _) as [r [d w]] eqn:Hd.
  injection Hr as -> _. unfold createTransport, checkDeviceExists in Hd.
  destruct (_.1) as [d0|]; [|done]. destruct (native_try _ _) as [r [d1 w1]] eqn:Hn.
  injection Hd as -> _ _. apply native_try_ok in Hn.
  do 10 (apply bind_ok in Hn as (? & ? & ?H & Hn)). injection Hn as <- _. by eapply Hc.
Qed.

Lemma CreateSendTransport_fresh id ice candidates dtls sctp appData d t d' :
  CreateSendTransport id ice candidates dtls sctp appData d = (Ok t, d') -> new_send (wrap t).
Proof.
  unfold CreateSendTransport. intros Hr. do 4 (apply bind_ok in Hr as (? & ? & _ & Hr)).
  unfold on_snd in Hr. destruct (SendTransport_new _ _ _ _ _ _ _ _ _) as [r w] eqn:Hn.
  injection Hr as -> _. by eapply SendTransport_new_fresh.
Qed.
Lemma CreateRecvTransport_fresh id ice candidates dtls sctp appData d t d' :
  CreateRecvTransport id ice candidates dtls sctp appData d = (Ok t, d') -> new_recv (wrap t).
Proof.
  unfold CreateRecvTransport. intros Hr. do 4 (apply bind_ok in Hr as (? & ? & _ & Hr)).
  unfold on_snd in Hr. destruct (RecvTransport_new _ _ _ _ _ _ _ _) as [r w] eqn:Hn.
  injection Hr as -> _. by eapply RecvTransport_new_fresh.
Qed.


(** A queue stays well-formed when nothing that it depends on changes. *)
Lemma queue_ok_same s s' q :
  ended s' = ended s -> stopped s' = stopped s -> alive s' = alive s ->
  (destroyed s -> destroyed s') -> queue_ok s q -> queue_ok s' q.
Proof.
  unfold queue_ok. intros -> -> -> Hd. destruct (ended s); [|done].
  intros [(? & ? & ?)|?]; [left; auto|by right].
Qed.

(** The device must not be disposed. *)
Lemma on_device_ok {A} (m : DM A) st a st' :
  on_device (checkDeviceExists m) st = (Ok a, st') -> alive (summarize st'.1) = true.
Proof.
  unfold on_device, checkDeviceExists. simpl. destruct (mDevice st.1) as [d|].
  - destruct (m (d, st.2)) as [r [d' w]]. intros [= _ <-]. by destruct st as [[] ?].
  - by intros [= ].
Qed.
Lemma createTransportOf_alive {T} create req st t st' :
  createTransportOf (T := JTransport T) (createTransport create) req st = (Ok t, st') ->
  alive (summarize st'.1) = true.
Proof.
  unfold createTransportOf. intros Hr. do 3 (apply bind_ok in Hr as (? & ? & _ & Hr)).
  by eapply on_device_ok.
Qed.

Lemma sound_addSendTransport req :
  sound (let! t := createTransportOf JDevice_createSendTransport req in
         modify (fun e => set_mSendTransport (Some (length (sendTransports e)))
                            (on_sendTransports (fun l => l ++ [t]) e))).
Proof.
  apply (sound_move _ (fun s s' => alive s = true /\ exists t, new_send t /\
    s' = put_sendNow (Some (length (sends s))) (put_sends (sends s ++ [view_send t]) s))).
  - intros s s' (_ & t & _ & ->). unfold grown.
    destruct s; simpl. rewrite !fmap_app. split_and!; try apply kept_app; apply kept_preorder.
  - intros s s' Hs (_ & t & Ht & ->) Hu. unfold new_send in Ht. rewrite Ht in *. by apply move_new_send.
  - intros s s' q (Ha & t & _ & ->). apply queue_ok_same; try by destruct s.
    intros (? & _). congruence.
  - intros st. unfold bind.
    pose proof (calms_createTransportOf st JDevice_createSendTransport req) as Hc.
    specialize (Hc ltac:(intros; eexists; reflexivity) st ltac:(reflexivity)).
    destruct (createTransportOf _ _ st) as [[t|e|] st1] eqn:Hr; [|by left..].
    right; right. exists st1. split; [done|]. split; [|by destruct st1 as [[] ?]].
    split; [by eapply createTransportOf_alive|]. exists t. split.
    + eapply createTransportOf_ok; [|exact Hr]. apply CreateSendTransport_fresh.
    + destruct st1 as [[] ?]. unfold summarize. simpl. by rewrite fmap_app, length_fmap.
Qed.
Lemma sound_addRecvTransport req :
  sound (let! t := createTransportOf JDevice_createRecvTransport req in
         modify (fun e => set_mRecvTransport (Some (length (recvTransports e)))
                            (on_recvTransports (fun l => l ++ [t]) e))).
Proof.
  apply (sound_move _ (fun s s' => alive s = true /\ exists t, new_recv t /\
    s' = put_recvNow (Some (length (recvs s))) (put_recvs (recvs s ++ [view_recv t]) s))).
  - intros s s' (_ & t & _ & ->). unfold grown.
    destruct s; simpl. rewrite !fmap_app. split_and!; try apply kept_app; apply kept_preorder.
  - intros s s' Hs (_ & t & Ht & ->) Hu. unfold new_recv in Ht. rewrite Ht in *. by apply move_new_recv.
  - intros s s' q (Ha & t & _ & ->). apply queue_ok_same; try by destruct s.
    intros (? & _). congruence.
  - intros st. unfold bind.
    pose proof (calms_createTransportOf st JDevice_createRecvTransport req) as Hc.
    specialize (Hc ltac:(intros; eexists; reflexivity) st ltac:(reflexivity)).
    destruct (createTransportOf _ _ st) as [[t|e|] st1] eqn:Hr; [|by left..].
    right; right. exists st1. split; [done|]. split; [|by destruct st1 as [[] ?]].
    split; [by eapply createTransportOf_alive|]. exists t. split.
    + eapply createTransportOf_ok; [|exact Hr]. apply CreateRecvTransport_fresh.
    + destruct st1 as [[] ?]. unfold summarize. simpl. by rewrite fmap_app, length_fmap.
Qed.

(** The sequence of a first part and the rest. *)
Lemma sound_assoc {A B C} (m : EM A) (f : A -> EM B) (g : B -> EM C) :
  sound (let! b := (let! a := m in f a) in g b) -> sound (let! a := m in let! b := f a in g b).
Proof. intros [G S]. split; intros st; rewrite <- run_bind_bind; [apply G|apply S]. Qed.

Lemma sound_createSendTransport : sound createSendTransport.
Proof.
  unfold createSendTransport. apply sound_bind; [sounds|]. intros caps. apply sound_assoc.
  apply sound_bind; [apply sound_addSendTransport|]. intros _. sounds.
Qed.
Lemma sound_createRecvTransport : sound createRecvTransport.
Proof. apply sound_bind; [sounds|]. intros e. apply sound_addRecvTransport. Qed.
Lemma sound_joinImpl : sound joinImpl.
Proof.
  assert (Hj : sound (do! loadDevice in do! createSendTransport in do! createRecvTransport in
    announce)).
  { apply sound_bind; [sounds|]. intros _. apply sound_bind; [apply sound_createSendTransport|].
    intros _. apply sound_bind; [apply sound_createRecvTransport|]. intros _. sounds. }
  assert (He : sound (emit (onError ERR_CONNECTION_LOST))) by sounds.
  split; intros st; unfold joinImpl; destruct (network_available st.2);
    [apply Hj|apply He|apply Hj|apply He].
Qed.

(** ** The producers *)

Definition set_local (l : media_listener) : option jref -> Locals -> Locals :=
  match l with CamListener => set_mVideoProducer | MicListener => set_mAudioProducer end.
Lemma sum_local l x e : summarize (on_locals (set_local l x) e) = put_media l x (summarize e).
Proof. by destruct l, e as [????????????[]]. Qed.
Lemma sum_mediaListener p l e :
  summarize (on_locals (add_mediaListener p l) e) =
  put_mediaHeard (<[p := l]> (mediaHeard (summarize e))) (summarize e).
Proof. by destruct e as [????????????[]]. Qed.
Lemma sum_addProducer id p e :
  summarize (on_store (addProducer id p) e) =
  put_published (<[id := p]> (published (summarize e))) (summarize e).
Proof.
  destruct e as [??????????????[]]. unfold summarize. simpl.
  unfold Producers_addProducer. by rewrite fmap_insert.
Qed.
Lemma sum_removeProducer id e :
  summarize (on_store (removeProducer id) e) =
  put_published (delete id (published (summarize e))) (summarize e).
Proof.
  destruct e as [??????????????[]]. unfold summarize. simpl.
  unfold Producers_removeProducer. by rewrite fmap_delete.
Qed.

Definition publishes (l : media_listener) (s s' : summary) : Prop := exists i v a,
  sends s !! i = Some v /\ open_send v /\ producer_closed a = false /\ s' = publish l i v a s.

Lemma publishes_grown l s s' : publishes l s s' -> grown s s'.
Proof.
  intros (i & v & a & Hv & _ & _ & ->).
  apply (grown_insert_send _ _ i v (add_seen_producer a v)); try done; try by destruct s, l.
  intros p b Hb. exists b. split; [by apply registered_old|done].
Qed.
Lemma publishes_queue l s s' q : publishes l s s' -> queue_ok s q -> queue_ok s' q.
Proof.
  intros (i & v & a & _ & _ & _ & ->). apply queue_ok_same; unfold destroyed; by destruct s, l.
Qed.

Lemma run_getId i (st : Engine * World) t a p :
  sendTransports st.1 !! i = Some t -> objects (seen_producers (view_send t)) !! p = Some a ->
  on_send i (JProducer_getId p) st = (Ok (producer_id a), st).
Proof.
  intros Ht Ha. rewrite (run_on_send i _ st t (Ok (producer_id a)) t st.2).
  - f_equal. destruct st as [[] w]. simpl in *. by rewrite list_insert_id.
  - done.
  - unfold JProducer_getId, read_object, all_producers. simpl in *. by rewrite Ha.
  - done.
Qed.

Definition produce_and_store (l : media_listener) (track : Track) : EM unit :=
  let! p := produceTrack l track in
  do! local_state (set_local l (Some p)) in
  storeProducer p.

Lemma produce_moves l track st : moves (publishes l) st (produce_and_store l track st).
Proof.
  unfold produce_and_store, produceTrack. rewrite run_bind_bind.
  unfold sending. rewrite run_bind_bind. unfold bind at 1, engine. simpl.
  destruct (mSendTransport st.1) as [i|]; [|by left]. rewrite run_bind_ret, run_bind_bind.
  unfold bind at 1, engine. simpl. rewrite run_bind_bind.
  set (m := JSendTransport_produce _ _ _ _ _ _ _).
  destruct (sendTransports st.1 !! i) as [t|] eqn:Ht.
  2: { left. unfold bind at 1, on_send. by rewrite Ht. }
  assert (Hout : outcome j_producer_added j_quiet m) by apply JSendTransport_produce_outcome.
  specialize (Hout (t, st.2)). destruct (m (t, st.2)) as [r [t' w]] eqn:Hm.
  destruct r as [p|e|].
  - destruct Hout as (Hc & Hf & -> & Hl & a & Ha & Hv). simpl in *.
    set (p := length (objects (producers (native t)))).
    rewrite (bind_of_ok _ _ _ _ _ (run_on_send _ _ _ _ _ _ _ Ht Hm Hl)).
    right; right. exists st. split; [done|].
    set (st1 := (on_sendTransports (insert i t') st.1, w)).
    set (st2 := (on_locals (set_local l (Some (i, p)))
                   (on_locals (add_mediaListener (i, p) l) st1.1), w)).
    fold p st1. rewrite ?run_bind_bind.
    change (bind (local_state (add_mediaListener (i, p) l)) ?k st1) with
      (k tt (on_locals (add_mediaListener (i, p) l) st1.1, w)). cbv beta. rewrite run_bind_ret.
    change (bind (local_state ?f) ?k ?s) with (k tt (on_locals f s.1, s.2)). cbv beta.
    fold st2. unfold storeProducer. cbn [fst snd].
    assert (Ht2 : sendTransports st2.1 !! i = Some t').
    { simpl. destruct st as [[] ?]. simpl in *. apply list_lookup_insert_eq.
      by eapply lookup_lt_Some. }
    rewrite (bind_of_ok _ _ _ _ _ (run_getId i st2 t' a p Ht2 ltac:(rewrite Hv; apply registered_new))).
    cbn [store modify snd fst]. split; [|by destruct st as [[] ?]].
    exists i, (view_send t), a. split; [by apply sends_at|]. split; [by split|]. split; [done|].
    unfold store, modify. cbn [snd fst]. rewrite sum_addProducer. unfold st2. cbn [fst].
    rewrite sum_local, sum_mediaListener. unfold st1. cbn [fst]. rewrite sum_sends, Hv.
    by destruct st as [[] ?], l.
  - left. unfold bind at 1. destruct Hout as [Hv Hl].
    rewrite (run_on_send _ _ _ _ _ _ _ Ht Hm Hl). by eapply calm_sends.
  - left. unfold bind at 1. destruct Hout as [Hv Hl].
    rewrite (run_on_send _ _ _ _ _ _ _ Ht Hm Hl). by eapply calm_sends.
Qed.
Lemma sound_produce_and_store l track : sound (produce_and_store l track).
Proof.
  apply (sound_move _ (publishes l)).
  - apply publishes_grown.
  - intros s s' Hs (i & v & a & Hv & Ho & Hc & ->). by apply move_publish.
  - apply publishes_queue.
  - apply produce_moves.
Qed.

Lemma sound_canEnable kind current m : sound m -> sound (canEnable kind current m).
Proof.
  intros Hm. unfold canEnable. apply sound_bind; [sounds|]. intros e.
  destruct (current (locals e)); [sounds|]. apply sound_bind; [sounds|]. intros loaded.
  destruct (negb loaded); [sounds|]. apply sound_bind; [sounds|]. intros can.
  destruct (negb can); [sounds|]. apply sound_bind; [sounds|]. intros e'.
  destruct (mSendTransport e'); [|sounds]. apply sound_bind; [done|intros ?; sounds].
Qed.
Lemma sound_enableCameraImpl : sound enableCameraImpl.
Proof.
  unfold enableCameraImpl. apply sound_bind; [sounds|]. intros _. apply sound_bind.
  - apply sound_try_catch; [done| |].
    + apply sound_canEnable, sound_bind; [sounds|]. intros track.
      apply (sound_produce_and_store CamListener).
    + intros _. apply sound_bind; [sounds|]. intros e.
      destruct (mLocalVideoTrack (locals e)); sounds.
  - intros []; [sounds|]. apply sound_bind; [sounds|]. intros _. apply sound_bind; [sounds|].
    intros e. apply sound_when. unfold nativeStartFusion. sounds.
Qed.
Lemma sound_enableAudioImpl : sound enableAudioImpl.
Proof.
  unfold enableAudioImpl. apply sound_bind; [|intros ?; sounds].
  apply sound_try_catch; [done| |].
  - apply sound_canEnable, sound_bind; [sounds|]. intros track.
    apply (sound_produce_and_store MicListener).
  - intros _. apply sound_bind; [sounds|]. intros e. destruct (mLocalAudioTrack (locals e)); sounds.
Qed.

(** ** Closing a producer *)

Definition unpublishes (l : media_listener) (s s' : summary) : Prop :=
  exists p v a, media_of l s = Some p /\ sends s !! p.1 = Some v /\
    objects (seen_producers v) !! p.2 = Some a /\
    (s' = unpublish l p v a s \/ (producer_closed a = true /\ grown s s' /\
       ended s' = ended s /\ stopped s' = stopped s /\ alive s' = alive s /\
       (destroyed s -> destroyed s'))).

Lemma grown_close_send s s' i p v a :
  sends s !! i = Some v -> objects (seen_producers v) !! p = Some a ->
  sends s' = <[i := close_seen_producer p a v]> (sends s) -> recvs s' = recvs s -> grown s s'.
Proof.
  intros Hv Ha E1 E2. eapply grown_insert_send; eauto. intros q b Hb. by eapply set_object_kept.
Qed.
Lemma unpublishes_grown l s s' : unpublishes l s s' -> grown s s'.
Proof.
  intros (p & v & a & Hp & Hv & Ha & [->|(_ & Hg & _)]); [|done].
  eapply grown_close_send; eauto; by destruct s, l.
Qed.
Lemma unpublishes_ok l s s' : summary_ok s -> unpublishes l s s' -> unique s' -> summary_ok s'.
Proof.
  intros Hs (p & v & a & Hp & Hv & Ha & [->|(Hc & _)]) Hu; [by apply move_unpublish|].
  destruct (ok_media _ Hs l p Hp) as (v0 & a0 & Hv0 & _ & Ha0 & Hc0 & _). congruence.
Qed.
Lemma unpublishes_queue l s s' q : unpublishes l s s' -> queue_ok s q -> queue_ok s' q.
Proof.
  intros (p & v & a & _ & _ & _ & [->|(_ & _ & ? & ? & ? & ?)]).
  - apply queue_ok_same; unfold destroyed; by destruct s, l.
  - by apply queue_ok_same.
Qed.

Lemma JProducer_close_survives p st :
  survives (fst (JProducer_close p st)) -> exists u, fst (JProducer_close p st) = Ok u.
Proof.
  unfold JProducer_close, object_of, native_bare. destruct (_ !! p); [|done].
  destruct (_ && _); [done|]. destruct (in_native _ st) as [[] ?]; simpl; intros Hs;
    [eauto|by destruct Hs|done].
Qed.

Lemma calm_of {A} (m : EM A) st : (forall st0, preserves (calm_at st0) m) -> calm_at st (snd (m st)).
Proof. intros Hm. by apply Hm. Qed.

(** What follows in disableImpl: the producer leaves the store. *)
Definition forgetProducer (l : media_listener) (p : jref) : EM unit :=
  let! id := on_send p.1 (JProducer_getId p.2) in
  do! store (removeProducer id) in
  do! try_catch is_Exception
        (let! _ := call_server "CLOSE_USER_PRODUCER" (jobj [("producerId", JString id)]) in ret tt)
        (fun _ => ret tt) in
  local_state (set_local l None).
Lemma run_forgetProducer l p (st : Engine * World) t a :
  sendTransports st.1 !! p.1 = Some t -> objects (seen_producers (view_send t)) !! p.2 = Some a ->
  exists w, forgetProducer l p st =
    (Ok tt, (on_locals (set_local l None) (on_store (removeProducer (producer_id a)) st.1), w)).
Proof.
  intros Ht Ha. unfold forgetProducer. rewrite (bind_of_ok _ _ _ _ _ (run_getId _ _ _ _ _ Ht Ha)).
  unfold bind at 1. cbn [store modify]. unfold store, modify, bind, try_catch, call_server, send_request.
  simpl. destruct (mStartupClient _); [|eexists; reflexivity].
  destruct (request _ _ _). eexists. reflexivity.
Qed.

Definition closeProducer (l : media_listener) (p : jref) : EM unit :=
  do! on_send p.1 (JProducer_close p.2) in forgetProducer l p.

(** The close of the producer at [p], as the engine sees it. *)
Lemma run_closeNative (p : jref) (st : Engine * World) t :
  sendTransports st.1 !! p.1 = Some t -> exists r t' w,
    on_send p.1 (JProducer_close p.2) st = (r, (on_sendTransports (insert p.1 t') st.1, w)) /\
    (survives r -> r = Ok tt) /\
    (j_producer_shut p.2 (t, st.2) (t', w) \/ j_quiet (t, st.2) (t', w) /\
       (r = Ok tt -> exists a, objects (seen_producers (view_send t)) !! p.2 = Some a /\
          producer_closed a = true)).
Proof.
  intros Ht. pose proof (JProducer_close_outcome p.2 (t, st.2)) as Hout.
  pose proof (JProducer_close_survives p.2 (t, st.2)) as Hsv.
  destruct (JProducer_close p.2 (t, st.2)) as [r [t' w]] eqn:Hm.
  assert (Hl : send_told t' = send_told t).
  { destruct r; destruct Hout as [(? & _ & _ & _ & ? & _)|Hout]; try done;
      [destruct Hout as [[_ ?] _]|destruct Hout as [_ ?]..]; done. }
  exists r, t', w. split; [by apply (run_on_send _ _ _ _ _ _ _ Ht Hm Hl)|]. split.
  - intros Hs. destruct (Hsv Hs) as [[] Hr]. by destruct r.
  - destruct r as [[]|e|]; (destruct Hout as [?|Hq]; [by left|right]);
      [destruct Hq as [? ?]; by split|by split..].
Qed.
Lemma closeProducer_outcome l p (st : Engine * World) t :
  sendTransports st.1 !! p.1 = Some t -> media_of l (summarize st.1) = Some p ->
  let o := closeProducer l p st in
  ~ survives (fst o) /\ grown (summarize st.1) (summarize (snd o).1) \/
  unpublishes l (summarize st.1) (summarize (snd o).1) /\ tasks (snd o).1 = tasks st.1.
Proof.
  intros Ht Hmedia. destruct (run_closeNative p st t Ht) as (r & t' & w & Hrun & Hsv & Hout).
  unfold closeProducer, bind. rewrite Hrun.
  set (st1 := (on_sendTransports (insert p.1 t') st.1, w)) in *.
  assert (Ht1 : sendTransports st1.1 !! p.1 = Some t').
  { simpl. destruct st as [[] ?]. simpl in *. apply list_lookup_insert_eq. by eapply lookup_lt_Some. }
  assert (Hsum : summarize st1.1 =
    put_sends (<[p.1 := view_send t']> (sends (summarize st.1))) (summarize st.1)) by apply sum_sends.
  pose proof (sends_at _ _ _ Ht) as Hat.
  assert (Hgrown : grown (summarize st.1) (summarize st1.1)).
  { destruct Hout as [(a & Ha & _ & _ & _ & Hv)|[[Hv _] _]]; simpl in Hv; rewrite Hsum, Hv.
    - eapply grown_close_send; [exact Hat|exact Ha|done..].
    - rewrite list_insert_id by done. by destruct (summarize st.1). }
  destruct r as [[]|e|]; [right|left; split; [|exact Hgrown]; simpl; intros Hs; by specialize (Hsv Hs)..].
  destruct Hout as [(a & Ha & _ & _ & _ & Hv)|[[Hv _] Hcl]]; simpl in Hv; try simpl in Ha.
  - destruct (run_forgetProducer l p st1 t' (close_producer a) Ht1) as [w' ->].
    { rewrite Hv. simpl. apply list_lookup_insert_eq. by eapply lookup_lt_Some. }
    cbn [fst snd]. split; [|by destruct st as [[] ?]].
    exists p, (view_send t), a. split_and!; try done. left.
    rewrite sum_local, sum_removeProducer, Hsum, Hv. by destruct st as [[] ?], l.
  - destruct (Hcl eq_refl) as (a & Ha & Hc).
    destruct (run_forgetProducer l p st1 t' a Ht1) as [w' ->]; [by rewrite Hv|].
    cbn [fst snd]. split; [|by destruct st as [[] ?]].
    exists p, (view_send t), a. split_and!; try done. right.
    rewrite sum_local, sum_removeProducer, Hsum, Hv, list_insert_id by done.
    split; [done|]. unfold destroyed. destruct (summarize st.1), l; split_and!; done.
Qed.

Definition local_producer (l : media_listener) : Locals -> option jref :=
  match l with CamListener => mVideoProducer | MicListener => mAudioProducer end.
Definition disableMedia (l : media_listener) : EM unit :=
  disableImpl (local_producer l) (set_local l None).
Lemma run_disableMedia l p (st : Engine * World) :
  local_producer l (locals st.1) = Some p -> disableMedia l st = closeProducer l p st.
Proof. intros Hp. unfold disableMedia, disableImpl. unfold bind at 1, engine. by rewrite Hp. Qed.

Lemma disable_moves l (st : Engine * World) : moves (unpublishes l) st (disableMedia l st).
Proof.
  destruct (local_producer l (locals st.1)) as [p|] eqn:Hp.
  2: { left. unfold disableMedia, disableImpl, bind, engine. by rewrite Hp. }
  rewrite (run_disableMedia l p st Hp).
  destruct (sendTransports st.1 !! p.1) as [t|] eqn:Ht.
  2: { left. unfold closeProducer, bind at 1, on_send. by rewrite Ht. }
  destruct (closeProducer_outcome l p st t Ht) as [?|?]; [by destruct l|by right; left|].
  right; right. by exists st.
Qed.
Lemma sound_disableCameraImpl : sound disableCameraImpl.
Proof.
  apply (sound_move _ (unpublishes CamListener));
    [apply unpublishes_grown|apply unpublishes_ok|apply unpublishes_queue|].
  by apply (disable_moves CamListener).
Qed.
Lemma sound_disableAudioImpl : sound disableAudioImpl.
Proof.
  apply (sound_move _ (unpublishes MicListener));
    [apply unpublishes_grown|apply unpublishes_ok|apply unpublishes_queue|].
  by apply (disable_moves MicListener).
Qed.

(** ** The data producers *)

Definition set_data (l : data_listener) : option jref -> Locals -> Locals :=
  match l with ChatListener => set_mChatDataProducer | BotListener => set_mBotDataProducer end.
Lemma sum_data l p x e :
  summarize (on_locals (fun s => set_data l x (add_dataListener p l s)) e) =
  put_data l x (put_dataHeard (<[p := l]> (dataHeard (summarize e))) (summarize e)).
Proof. by destruct l, e as [????????????[]]. Qed.

Definition publishes_data (l : data_listener) (s s' : summary) : Prop := exists i v a,
  sendNow s = Some i /\ sends s !! i = Some v /\ dataProducer_closed a = false /\
  s' = publish_data l i v a s.
Lemma publishes_data_grown l s s' : publishes_data l s s' -> grown s s'.
Proof.
  intros (i & v & a & _ & Hv & _ & ->).
  apply (grown_insert_send _ _ i v (add_seen_dataProducer a v)); try done; try by destruct s, l.
  - intros p b Hb. eauto.
  - intros p b. apply registered_old.
Qed.
Lemma publishes_data_ok l s s' :
  summary_ok s -> publishes_data l s s' -> unique s' -> summary_ok s'.
Proof.
  intros Hs (i & v & a & Hi & Hv & Hc & ->) Hu. destruct (ok_sendNow _ Hs i Hi) as (v' & Hv' & Ho).
  assert (v' = v) as -> by congruence. by apply move_publish_data.
Qed.
Lemma publishes_data_queue l s s' q : publishes_data l s s' -> queue_ok s q -> queue_ok s' q.
Proof.
  intros (i & v & a & _ & _ & _ & ->). apply queue_ok_same; unfold destroyed; by destruct s, l.
Qed.

Lemma sound_enableDataProducer current l label protocol n time info :
  sound (enableDataProducer current (fun p => set_data l (Some p)) l label protocol n time info).
Proof.
  unfold enableDataProducer. apply sound_bind; [sounds|]. intros e.
  destruct (current (locals e)); [sounds|]. apply sound_try_catch; [done| |intros ?; sounds].
  apply (sound_move _ (publishes_data l));
    [apply publishes_data_grown|apply publishes_data_ok|apply publishes_data_queue|].
  intros st. unfold sending. rewrite run_bind_bind. unfold bind at 1, engine. simpl.
  destruct (mSendTransport st.1) as [i|] eqn:Hi; [|by left]. rewrite run_bind_ret.
  set (m := JSendTransport_produceData _ _ _ _ _ _ _ _).
  destruct (sendTransports st.1 !! i) as [t|] eqn:Ht.
  2: { left. unfold bind at 1, on_send. by rewrite Ht. }
  assert (Hout : outcome j_dataProducer_added j_quiet m) by apply JSendTransport_produceData_outcome.
  specialize (Hout (t, st.2)). destruct (m (t, st.2)) as [r [t' w]] eqn:Hm.
  destruct r as [p|ex|].
  - destruct Hout as (Hf & -> & Hl & a & Ha & Hv). simpl in Hv.
    rewrite (bind_of_ok _ _ _ _ _ (run_on_send _ _ _ _ _ _ _ Ht Hm Hl)).
    right; right. exists st. split; [done|]. unfold local_state, modify. cbn [fst snd].
    split; [|by destruct st as [[] ?]]. exists i, (view_send t), a.
    split; [by destruct st as [[] ?]|]. split; [by apply sends_at|]. split; [done|].
    rewrite sum_data, sum_sends, Hv. by destruct st as [[] ?], l.
  - left. unfold bind at 1. destruct Hout as [Hv Hl].
    rewrite (run_on_send _ _ _ _ _ _ _ Ht Hm Hl). by eapply calm_sends.
  - left. unfold bind at 1. destruct Hout as [Hv Hl].
    rewrite (run_on_send _ _ _ _ _ _ _ Ht Hm Hl). by eapply calm_sends.
Qed.

(** A data channel of webrtc changes its state. *)
Lemma send_event_state i e p ds :
  let e' := foldl (send_event i) e (DataProducer_OnStateChange p ds) in
  tasks e' = tasks e /\
  (summarize e' = summarize e \/ exists l, summarize e' = put_data l None (summarize e)).
Proof.
  destruct ds; simpl; [auto..|].
  destruct (dataListeners (locals e) !! (i, p)) as [[]|]; [| |auto]; (split; [by destruct e|right]);
    [exists ChatListener|exists BotListener]; by destruct e as [????????????[]?[]].
Qed.
(** The events that a call tells. *)
Lemma run_on_send_told {A} i (m : JSM A) st t r t' w l :
  sendTransports st.1 !! i = Some t -> m (t, st.2) = (r, (t', w)) ->
  send_told t' = send_told t ++ l ->
  on_send i m st = (r, (foldl (send_event i) (on_sendTransports (insert i t') st.1) l, w)).
Proof.
  intros Ht Hm Hl. unfold on_send. rewrite Ht, Hm. unfold send_told in Hl. by rewrite Hl, drop_app_length.
Qed.
Lemma run_on_recv_told {A} i (m : JRM A) st t r t' w l :
  recvTransports st.1 !! i = Some t -> m (t, st.2) = (r, (t', w)) ->
  recv_told t' = recv_told t ++ l ->
  on_recv i m st = (r, (foldl (recv_event i) (on_recvTransports (insert i t') st.1) l, w)).
Proof.
  intros Ht Hm Hl. unfold on_recv. rewrite Ht, Hm. unfold recv_told in Hl. by rewrite Hl, drop_app_length.
Qed.

Lemma sound_dataProducerState p ds :
  sound (on_send p.1 (in_native (notify (DataProducer_OnStateChange p.2 ds)))).
Proof.
  apply (sound_move _ (fun s s' => exists l, s' = put_data l None s)).
  - intros s s' [l ->]. unfold grown. destruct s, l; split_and!; apply kept_preorder.
  - intros s s' Hs [l ->] _. by apply move_forget_data.
  - intros s s' q [l ->]. apply queue_ok_same; unfold destroyed; by destruct s, l.
  - intros st. destruct (sendTransports st.1 !! p.1) as [t|] eqn:Ht.
    2: { left. unfold on_send. by rewrite Ht. }
    erewrite run_on_send_told by (done || reflexivity).
    match goal with |- context [insert p.1 ?t'] =>
      pose proof (calm_sends st p.1 t t' st.2 Ht eq_refl) as Hc; set (t1 := t') in * end.
    destruct (send_event_state p.1 (on_sendTransports (insert p.1 t1) st.1) p.2 ds) as
      [Htasks [Hev|[l Hev]]].
    + left. destruct Hc as [Hs Hq]. split; simpl in *; [by rewrite Hev|by rewrite Htasks].
    + right; right. exists (on_sendTransports (insert p.1 t1) st.1, st.2). eauto.
Qed.

Lemma calms_sendConnectionState st0 i s :
  preserves (calm_at st0) (on_send i (on_native (Transport_OnConnectionStateChange s))).
Proof.
  apply calms_step. intros st. destruct (sendTransports st.1 !! i) as [t|] eqn:Ht.
  2: { unfold on_send. by rewrite Ht. }
  unfold on_send. rewrite Ht. unfold on_native. simpl. destruct (freed t) eqn:Hf.
  - rewrite drop_all. simpl. by eapply calm_sends.
  - simpl. rewrite drop_app_length. simpl. eapply calm_sends; [done|]. unfold view_send. simpl.
    by rewrite Hf.
Qed.
Lemma calms_recvConnectionState st0 i s :
  preserves (calm_at st0) (on_recv i (on_native (Transport_OnConnectionStateChange s))).
Proof.
  apply calms_step. intros st. destruct (recvTransports st.1 !! i) as [t|] eqn:Ht.
  2: { unfold on_recv. by rewrite Ht. }
  unfold on_recv. rewrite Ht. unfold on_native. simpl. destruct (freed t) eqn:Hf.
  - rewrite drop_all. simpl. by eapply calm_recvs.
  - simpl. rewrite drop_app_length. simpl. eapply calm_recvs; [done|]. unfold view_recv. simpl.
    by rewrite Hf.
Qed.
Lemma calms_dataConsumerState st0 p ds :
  preserves (calm_at st0) (on_recv p.1 (in_native (notify (DataConsumer_OnStateChange p.2 ds)))).
Proof.
  apply calms_step. intros st. destruct (recvTransports st.1 !! p.1) as [t|] eqn:Ht.
  2: { unfold on_recv. by rewrite Ht. }
  erewrite run_on_recv_told by (done || reflexivity). cbn [snd].
  match goal with |- context [insert p.1 ?t'] =>
    pose proof (calm_recvs st p.1 t t' st.2 Ht eq_refl) as Hc; set (t1 := t') in * end.
  etransitivity; [exact Hc|]. destruct ds; simpl; try done.
  destruct (dataConsumerId_of _ _); [|done]. split; simpl; by destruct st as [[?????????????[]] ?].
Qed.
End Steps.
