(* ===== verification/RtcEngineConsumers.v ===== *)
(** * The engine: the consumers and the peers *)

From stdpp Require Import gmap.
From S2P Require Import Prelude Json JsonDump JsonParser OrtcValidate Ortc MediaSection RemoteSdp.
From S2P Require Import PeerConnection Handler Transport SendTransport RecvTransport TransportSpec.
From S2P Require Import Device Fastjson RoomStore Droid DroidSpec Capture RtcEngine RtcEngineInv.
From S2P Require Import RtcEngineCalm RtcEngineMoves RtcEngineSound RtcEngineSteps.

Lemma stripped_commutes k f ps :
  (forall p, strip (f p) = f (strip p)) ->
  stripped (withPeer k f ps) = withPeer k f (stripped ps).
Proof.
  intros Hf. unfold withPeer. rewrite getPeer_stripped. destruct (getPeer k ps) as [p|] eqn:Hp; [|done].
  simpl. induction ps as [|[j q] ps IH]; simpl in *; [done|].
  destruct (bool_decide_reflect (j = k)) as [->|Hne]; simpl.
  - injection Hp as ->. by rewrite Hf.
  - f_equal. auto.
Qed.

Section Consumers.
Context `{W : Webrtc} `{!Capture} `{!DataChannels} `{!Services} `{!Fastjson}.

Lemma sum_holders f e :
  summarize (on_remotes (on_mConsumers f) e) = put_holders (f (holders (summarize e))) (summarize e).
Proof. by destruct e as [?????????????[]]. Qed.
Lemma sum_addConsumer k type id p paused e :
  summarize (on_store (addConsumer k type id p paused) e) =
  put_members (Peers_addConsumer k id (members (summarize e)))
    (put_wrappers (<[id := p]> (wrappers (summarize e))) (summarize e)).
Proof.
  destruct e as [??????????????[]]. unfold summarize. simpl. unfold Consumers_addConsumer.
  rewrite fmap_insert. unfold Peers_addConsumer. by rewrite stripped_commutes.
Qed.
Lemma sum_removeConsumer k id e :
  summarize (on_store (removeConsumer k id) e) =
  put_members (Peers_removeConsumer k id (members (summarize e)))
    (put_wrappers (delete id (wrappers (summarize e))) (summarize e)).
Proof.
  destruct e as [??????????????[]]. unfold summarize. simpl. unfold Consumers_removeConsumer.
  rewrite fmap_delete. unfold Peers_removeConsumer. by rewrite stripped_commutes.
Qed.

(** ** A new consumer *)

Definition takes (s s' : summary) : Prop := exists k i v c,
  recvNow s = Some i /\ recvs s !! i = Some v /\ consumer_closed c = false /\
  (s' = take_consumer k i v c s \/ s' = put_recvs (<[i := add_seen_consumer c v]> (recvs s)) s).

Lemma takes_grown s s' : takes s s' -> grown s s'.
Proof.
  intros (k & i & v & c & _ & Hv & _ & [->| ->]);
    apply (grown_insert_recv _ _ i v (add_seen_consumer c v)); try done; try (by destruct s);
    intros p b Hb; exists b; (split; [by apply registered_old|done]).
Qed.
Lemma takes_ok s s' : summary_ok s -> takes s s' -> unique s' -> summary_ok s'.
Proof.
  intros Hs (k & i & v & c & Hi & Hv & Hc & Hs') Hu. destruct (ok_recvNow _ Hs i Hi) as (v' & Hv' & Ho).
  assert (v' = v) as -> by congruence. destruct Hs' as [->| ->]; [by apply move_take_consumer|].
  destruct (fresh_consumer s i v c Hs Hv) as [Hreg _].
  { destruct s. apply Hu. }
  destruct (ok_recvs _ Hs i v Hv) as [_ Hd]. apply (move_put_recvs s i v); try done.
  intros p b. apply registered_old.
Qed.
Lemma takes_queue s s' q : takes s s' -> queue_ok s q -> queue_ok s' q.
Proof.
  intros (k & i & v & c & Hi & _ & _ & [->| ->]); apply queue_ok_same; try by destruct s.
  all: intros (_ & _ & Hn & _); congruence.
Qed.

Lemma run_read_recv {B} i (st : Engine * World) t p (f : Consumer -> World -> result B) c :
  recvTransports st.1 !! i = Some t -> objects (seen_consumers (view_recv t)) !! p = Some c ->
  on_recv i (read_object all_consumers p f) st = (f c st.2, st).
Proof.
  intros Ht Hc. rewrite (run_on_recv i _ st t (f c st.2) t st.2).
  - f_equal. destruct st as [[] w]. simpl in *. by rewrite list_insert_id.
  - done.
  - unfold read_object, all_consumers. simpl in *. by rewrite Hc.
  - done.
Qed.

(** What onNewConsumer does with a consumer of the transport [i]. *)
Definition keepConsumer (userId type : jstring) (paused : bool) (id : jstring) (i p : nat) : EM unit :=
  let! track := on_recv i (JConsumer_getTrack p) in
  let! consumerId := on_recv i (JConsumer_getId p) in
  do! modify (on_remotes (on_mConsumers (insert consumerId
        {| holder_peerId := userId; holder_consumer := (i, p); holder_track := track |}))) in
  do! store (addConsumer userId type consumerId (i, p) paused) in
  when (String.eqb (track_kind track) "video")
    (emit (onRemoteVideoStateChanged userId (default "" id) true)).

Lemma run_keepConsumer userId type paused id i p (st : Engine * World) t c :
  recvTransports st.1 !! i = Some t -> objects (seen_consumers (view_recv t)) !! p = Some c ->
  exists st', keepConsumer userId type paused id i p st = (Ok tt, st') /\
    tasks st'.1 = tasks st.1 /\
    summarize st'.1 =
      put_members (Peers_addConsumer userId (consumer_id c) (members (summarize st.1)))
        (put_wrappers (<[consumer_id c := (i, p)]> (wrappers (summarize st.1)))
          (put_holders (<[consumer_id c := {| holder_peerId := userId; holder_consumer := (i, p);
             holder_track := consumer_track c |}]> (holders (summarize st.1))) (summarize st.1))).
Proof.
  intros Ht Hc. unfold keepConsumer, JConsumer_getTrack, JConsumer_getId.
  erewrite (bind_of_ok _ _ _ _ _ (run_read_recv i st t p _ c Ht Hc)).
  erewrite (bind_of_ok _ _ _ _ _ (run_read_recv i st t p _ c Ht Hc)).
  unfold bind, store, modify. cbn [fst snd].
  set (h := Build_ConsumerHolder _ _ _).
  set (e1 := on_store _ _).
  assert (Hsum : summarize e1 =
    put_members (Peers_addConsumer userId (consumer_id c) (members (summarize st.1)))
      (put_wrappers (<[consumer_id c := (i, p)]> (wrappers (summarize st.1)))
        (put_holders (<[consumer_id c := h]> (holders (summarize st.1))) (summarize st.1)))).
  { unfold e1. rewrite sum_addConsumer, sum_holders. by destruct st as [[] ?]. }
  assert (Htasks : tasks e1 = tasks st.1) by by destruct st as [[] ?].
  destruct (String.eqb _ _); eexists; (split; [reflexivity|]); cbn [fst].
  - split; [by rewrite <- Htasks; destruct e1|]. rewrite <- Hsum. by destruct e1.
  - done.
Qed.

Lemma consume_moves m userId type paused id st i t :
  mRecvTransport st.1 = Some i -> recvTransports st.1 !! i = Some t ->
  outcome (fun st p st' => j_consumer_added st st' /\
             p = length (objects (seen_consumers (view_recv st.1))))
    (fun st st' => r_quiet st st' \/ j_consumer_added st st') m ->
  moves takes st ((let! p := on_recv i m in keepConsumer userId type paused id i p) st).
Proof.
  intros Hi Ht Hout. specialize (Hout (t, st.2)). destruct (m (t, st.2)) as [r [t' w]] eqn:Hm.
  assert (Hfail : r_quiet (t, st.2) (t', w) \/ j_consumer_added (t, st.2) (t', w) ->
    forall r : result unit, moves takes st (r, (on_recvTransports (insert i t') st.1, w))).
  { intros [[Hv _]|(_ & _ & _ & c & Hc & Hv)] r0; [left; by eapply calm_recvs|].
    right; right. exists st. split; [done|]. split; [|by destruct st as [[] ?]]. exists None, i, (view_recv t), c.
    split_and!; [by destruct st as [[] ?]|by apply recvs_at|done|right].
    cbn [fst snd] in *. by rewrite sum_recvs, Hv. }
  assert (Hl : recv_told t' = recv_told t).
  { destruct r; [destruct Hout as [(_ & _ & ? & _) _]; done|
      destruct Hout as [[_ ?]|(_ & _ & ? & _)]; done..]. }
  pose proof (run_on_recv _ _ _ _ _ _ _ Ht Hm Hl) as Hrun. unfold bind. rewrite Hrun.
  destruct r as [p|e|].
  - destruct Hout as [(_ & _ & _ & c & Hc & Hv) ->]. cbn [fst] in Hv.
    destruct (run_keepConsumer userId type paused id i
      (length (objects (seen_consumers (view_recv t)))) (on_recvTransports (insert i t') st.1, w) t' c)
      as (st' & Hst' & Htasks & Hsum).
    + destruct st as [[] ?]. simpl in *. apply list_lookup_insert_eq. by eapply lookup_lt_Some.
    + rewrite Hv. apply registered_new.
    + cbn [fst]. rewrite Hst'. right; right. exists st. split; [done|]. cbn [fst snd].
      split; [|rewrite Htasks; by destruct st as [[] ?]].
      exists userId, i, (view_recv t), c.
      split_and!; [by destruct st as [[] ?]|by apply recvs_at|done|left].
      rewrite Hsum. cbn [fst]. rewrite sum_recvs, Hv. by destruct st as [[] ?].
  - by apply Hfail.
  - by apply Hfail.
Qed.

Lemma sound_onNewConsumer jsonData : sound (onNewConsumer jsonData).
Proof.
  unfold onNewConsumer. apply sound_try_catch; [done| |intros ?; sounds].
  apply sound_bind; [sounds|]. intros _. apply sound_bind; [sounds|]. intros paused.
  apply (sound_move _ takes); [apply takes_grown|apply takes_ok|apply takes_queue|].
  intros st. unfold receiving. rewrite run_bind_bind. unfold bind at 1, engine. cbn [fst snd].
  destruct (mRecvTransport st.1) as [i|] eqn:Hi; [|by left]. rewrite run_bind_ret.
  change (bind (fun st : Engine * World => (Ok st.1, st)) ?k st) with (k st.1 st). cbv beta.
  destruct (recvTransports st.1 !! i) as [t|] eqn:Ht.
  2: { left. unfold bind at 1, on_recv. by rewrite Ht. }
  eapply (consume_moves _ (getString "userId" jsonData) (getString "type" jsonData) paused
    (getString "id" jsonData) st i t Hi Ht). apply JRecvTransport_consume_outcome.
Qed.

(** ** A new data consumer *)

Definition takes_data (s s' : summary) : Prop := exists i v a,
  recvs s !! i = Some v /\ s' = put_recvs (<[i := add_seen_dataConsumer a v]> (recvs s)) s.
Lemma takes_data_ok s s' : summary_ok s -> takes_data s s' -> unique s' -> summary_ok s'.
Proof.
  intros Hs (i & v & a & Hv & ->) Hu. destruct (ok_recvs _ Hs i v Hv) as [Hc Hd].
  apply (move_put_recvs s i v); try done. apply ok_register; [done|].
  eapply (fresh_of_distinct dataConsumer_id dataConsumer_closed (seen_dataConsumers <$> recvs s) i);
    [|by rewrite list_lookup_fmap, Hv|done].
  destruct Hu as (_ & _ & _ & Hu). destruct s. simpl in *. by rewrite views_insert in Hu.
Qed.
Lemma sound_consumeData i m :
  outcome (fun st p st' => j_dataConsumer_added st st' /\
             p = length (objects (seen_dataConsumers (view_recv st.1)))) r_quiet m ->
  sound (on_recv i m).
Proof.
  intros Hout. apply (sound_move _ takes_data).
  - intros s s' (j & v & a & Hv & ->).
    apply (grown_insert_recv _ _ j v (add_seen_dataConsumer a v)); try done; try (by destruct s).
    + eauto.
    + intros p b. apply registered_old.
  - apply takes_data_ok.
  - intros s s' q (j & v & a & _ & ->). apply queue_ok_same; unfold destroyed; by destruct s.
  - intros st. destruct (recvTransports st.1 !! i) as [t|] eqn:Ht.
    2: { left. unfold on_recv. by rewrite Ht. }
    specialize (Hout (t, st.2)). destruct (m (t, st.2)) as [r [t' w]] eqn:Hm. destruct r as [p|e|].
    + destruct Hout as [[Hl (a & _ & Hv)] _]. rewrite (run_on_recv _ _ _ _ _ _ _ Ht Hm Hl).
      right; right. exists st. split; [done|]. cbn [fst snd] in *. split; [|by destruct st as [[] ?]].
      exists i, (view_recv t), a. split; [by apply recvs_at|]. by rewrite sum_recvs, Hv.
    + destruct Hout as [Hv Hl]. rewrite (run_on_recv _ _ _ _ _ _ _ Ht Hm Hl).
      left. by eapply calm_recvs.
    + destruct Hout as [Hv Hl]. rewrite (run_on_recv _ _ _ _ _ _ _ Ht Hm Hl).
      left. by eapply calm_recvs.
Qed.
Lemma calms_addDataConsumer st0 k id p :
  preserves (calm_at st0) (store (addDataConsumer k id p)).
Proof.
  apply calms_modify; intros [??????????????[]]; [|done]. unfold summarize. simpl.
  unfold Peers_addDataConsumer. by rewrite stripped_with.
Qed.
Lemma calms_remotes st0 f :
  (forall r, mConsumers (f r) = mConsumers r) -> preserves (calm_at st0) (modify (on_remotes f)).
Proof. intros Hf. apply calms_modify; intros []; [|done]. unfold summarize. simpl. by rewrite Hf. Qed.

Lemma sound_onNewDataConsumer jsonData : sound (onNewDataConsumer jsonData).
Proof.
  unfold onNewDataConsumer. apply sound_try_catch; [done| |intros ?; sounds].
  do 4 (apply sound_bind; [sounds|intros ?]).
  apply sound_bind.
  { unfold receiving. apply sound_bind; [sounds|]. intros e. destruct (mRecvTransport e); sounds. }
  intros i. apply sound_bind; [sounds|]. intros e. apply sound_bind.
  { apply sound_consumeData, JRecvTransport_consumeData_outcome. }
  intros p. unfold JDataConsumer_getId. apply sound_bind; [sounds|]. intros id.
  apply sound_bind; [|intros _]; apply sound_calm; intros st0.
  - apply calms_remotes. by intros [].
  - apply calms_addDataConsumer.
Qed.

(** ** A consumer that the server has closed *)

Definition drops (s s' : summary) : Prop := exists id h v c,
  holders s !! id = Some h /\ recvs s !! (holder_consumer h).1 = Some v /\
  objects (seen_consumers v) !! (holder_consumer h).2 = Some c /\
  (s' = drop_consumer id h v c s \/
   ((consumer_closed c = true \/ consumer_id c <> id) /\ grown s s' /\ ended s' = ended s /\
    stopped s' = stopped s /\ alive s' = alive s)).

Lemma grown_close_recv s s' i p v c :
  recvs s !! i = Some v -> objects (seen_consumers v) !! p = Some c ->
  recvs s' = <[i := close_seen_consumer p c v]> (recvs s) -> sends s' = sends s -> grown s s'.
Proof.
  intros Hv Hc E1 E2. eapply grown_insert_recv; eauto. intros q b Hb. by eapply set_object_kept.
Qed.
Lemma drops_grown s s' : drops s s' -> grown s s'.
Proof.
  intros (id & h & v & c & _ & Hv & Hc & [->|(_ & Hg & _)]); [|done].
  eapply grown_close_recv; eauto; by destruct s.
Qed.
Lemma drops_ok s s' : summary_ok s -> drops s s' -> unique s' -> summary_ok s'.
Proof.
  intros Hs (id & h & v & c & Hh & Hv & Hc & [->|(Hno & _)]) Hu; [by apply move_drop_consumer|].
  destruct (ok_holders _ Hs id h Hh) as (v0 & c0 & Hv0 & _ & Hc0 & Hcl & Hid & _).
  assert (v0 = v) as -> by congruence. assert (c0 = c) as -> by congruence.
  destruct Hno; congruence.
Qed.
Lemma drops_queue s s' q : drops s s' -> queue_ok s q -> queue_ok s' q.
Proof.
  intros (id & h & v & c & Hh & _ & _ & Hs').
  assert (Hd : ~ destroyed s) by (intros (_ & _ & _ & E); by rewrite E, lookup_empty in Hh).
  destruct Hs' as [->|(_ & _ & ? & ? & ?)]; apply queue_ok_same; try done; by destruct s.
Qed.

Lemma JConsumer_close_survives p st :
  survives (fst (JConsumer_close p st)) -> exists u, fst (JConsumer_close p st) = Ok u.
Proof.
  unfold JConsumer_close, object_of, native_bare. destruct (_ !! p); [|done].
  destruct (_ && _); [done|]. destruct (in_native _ st) as [[] ?]; simpl; intros Hs;
    [eauto|by destruct Hs|done].
Qed.

(** What follows in onUserConsumerClosed when the consumer is closed. *)
Definition forgetConsumer (consumerId : string) (kind : jstring) (h : ConsumerHolder) (i p : nat) :
    EM unit :=
  do! modify (on_remotes (on_mConsumers (delete consumerId))) in
  let! id := on_recv i (JConsumer_getId p) in
  do! store (removeConsumer (holder_peerId h) id) in
  match kind with
  | None => throw NullPointerException
  | Some kind =>
      when (String.eqb kind "video")
        (emit (onRemoteVideoStateChanged (holder_peerId h) id false))
  end.
Lemma run_forgetConsumer id kind h i p (st : Engine * World) t c :
  recvTransports st.1 !! i = Some t -> objects (seen_consumers (view_recv t)) !! p = Some c ->
  exists st', snd (forgetConsumer id kind h i p st) = st' /\ tasks st'.1 = tasks st.1 /\
  summarize st'.1 =
    put_members (Peers_removeConsumer (holder_peerId h) (consumer_id c) (members (summarize st.1)))
      (put_wrappers (delete (consumer_id c) (wrappers (summarize st.1)))
        (put_holders (delete id (holders (summarize st.1))) (summarize st.1))).
Proof.
  intros Ht Hc. unfold forgetConsumer, JConsumer_getId.
  unfold bind at 1, modify at 1. cbn [fst snd].
  set (st1 := (on_remotes (on_mConsumers (delete id)) st.1, st.2)).
  assert (Ht1 : recvTransports st1.1 !! i = Some t) by by destruct st as [[] ?].
  rewrite (bind_of_ok _ _ _ _ _ (run_read_recv i st1 t p _ c Ht1 Hc)).
  unfold bind, store, modify. cbn [fst snd]. set (e1 := on_store _ _).
  assert (Hsum : summarize e1 =
    put_members (Peers_removeConsumer (holder_peerId h) (consumer_id c) (members (summarize st.1)))
      (put_wrappers (delete (consumer_id c) (wrappers (summarize st.1)))
        (put_holders (delete id (holders (summarize st.1))) (summarize st.1)))).
  { unfold e1. rewrite sum_removeConsumer. unfold st1. cbn [fst]. rewrite sum_holders.
    by destruct st as [[] ?]. }
  assert (Htasks : tasks e1 = tasks st.1) by by destruct st as [[] ?].
  eexists. split; [reflexivity|]. rewrite <- Hsum, <- Htasks. destruct kind as [kind|]; [|done].
  destruct (String.eqb kind "video"); [|done]. by destruct e1.
Qed.

Lemma run_close_consumer i p (st : Engine * World) t :
  recvTransports st.1 !! i = Some t ->
  exists r t' w, on_recv i (JConsumer_close p) st = (r, (on_recvTransports (insert i t') st.1, w)) /\
    grown (summarize st.1) (summarize (on_recvTransports (insert i t') st.1)) /\
    (survives r -> exists u c c', r = Ok u /\
       objects (seen_consumers (view_recv t)) !! p = Some c /\
       objects (seen_consumers (view_recv t')) !! p = Some c' /\ consumer_id c' = consumer_id c /\
       (consumer_closed c = true \/ view_recv t' = close_seen_consumer p c (view_recv t))).
Proof.
  intros Ht. pose proof (JConsumer_close_outcome p (t, st.2)) as Hout.
  pose proof (JConsumer_close_survives p (t, st.2)) as Hsv.
  destruct (JConsumer_close p (t, st.2)) as [r [t' w]] eqn:Hm. exists r, t', w.
  assert (Hcase : j_consumer_shut p (t, st.2) (t', w) \/ r_quiet (t, st.2) (t', w))
    by (destruct r; [destruct Hout as [?|[? _]]; auto|auto..]).
  assert (Hl : recv_told t' = recv_told t) by by destruct Hcase as [(? & _ & _ & _ & ? & _)|[_ ?]].
  pose proof (recvs_at _ _ _ Ht) as Hat. split; [exact (run_on_recv _ _ _ _ _ _ _ Ht Hm Hl)|]. split.
  - rewrite sum_recvs. destruct Hcase as [(c & Hc & _ & _ & _ & Hv)|[Hv _]]; cbn [fst] in *.
    + eapply grown_close_recv; [exact Hat|exact Hc|..]; rewrite ?Hv; by destruct (summarize st.1).
    + rewrite Hv, list_insert_id by done. by destruct (summarize st.1).
  - intros Hs. destruct (Hsv Hs) as [u Hu]. simpl in Hu. subst r.
    destruct Hout as [(c & Hc & _ & _ & _ & Hv)|[[Hv _] (c & Hc & Hcl)]]; cbn [fst] in *.
    + exists u, c, (close_consumer c). split_and!; try done; [|by right]. rewrite Hv. simpl.
      apply list_lookup_insert_eq. by eapply lookup_lt_Some.
    + exists u, c, c. rewrite Hv. split_and!; auto.
Qed.

Lemma consumerClosed_moves id h kind st :
  mConsumers (remotes st.1) !! id = Some h ->
  moves drops st
    ((do! modify (on_remotes (on_mConsumers (delete id))) in
      do! on_recv (holder_consumer h).1 (JConsumer_close (holder_consumer h).2) in
      forgetConsumer id kind h (holder_consumer h).1 (holder_consumer h).2) st).
Proof.
  intros Hh. destruct (holder_consumer h) as [i p] eqn:Hp. cbn [fst snd].
  change (bind (modify ?f) ?k st) with (k tt (f st.1, st.2)). cbv beta.
  set (st1 := (on_remotes (on_mConsumers (delete id)) st.1, st.2)).
  assert (Hsum1 : summarize st1.1 = put_holders (delete id (holders (summarize st.1))) (summarize st.1))
    by apply sum_holders.
  assert (Hg1 : grown (summarize st.1) (summarize st1.1)) by (rewrite Hsum1; by destruct (summarize st.1)).
  assert (Hrecv : recvTransports st1.1 = recvTransports st.1) by by destruct st as [[] ?].
  destruct (recvTransports st.1 !! i) as [t|] eqn:Ht; rewrite <- Hrecv in Ht.
  2: { right; left. unfold bind, on_recv. rewrite Ht. split; [by intros []|exact Hg1]. }
  destruct (run_close_consumer i p st1 t Ht) as (r & t' & w & Hrun & Hg2 & Hsv).
  set (st2 := (on_recvTransports (insert i t') st1.1, w)) in *. unfold bind at 1. rewrite Hrun.
  destruct r as [u|e|]; [|right; left; split; [intros Hs; by destruct (Hsv Hs) as (? & ? & ? & ? & _)|];
    etransitivity; [exact Hg1|exact Hg2]..].
  right; right. exists st. split; [done|].
  destruct (Hsv I) as (_ & c & c' & _ & Hc & Hc' & Hid & Hcase).
  assert (Ht2 : recvTransports st2.1 !! i = Some t').
  { simpl. rewrite Hrecv in Ht. destruct st as [[] ?]. simpl in *. apply list_lookup_insert_eq.
    by eapply lookup_lt_Some. }
  destruct (run_forgetConsumer id kind h i p st2 t' c' Ht2 Hc') as (st3 & -> & Htasks & Hsum3).
  split; [|rewrite Htasks; by destruct st as [[] ?]].
  exists id, h, (view_recv t), c. rewrite Hp. cbn [fst snd].
  split_and!; [by destruct st as [[] ?]|apply recvs_at; congruence|done|].
  assert (Hsum2 : summarize st2.1 = put_recvs (<[i := view_recv t']> (recvs (summarize st.1)))
    (put_holders (delete id (holders (summarize st.1))) (summarize st.1))).
  { unfold st2. cbn [fst]. rewrite sum_recvs, Hsum1. by destruct (summarize st.1). }
  assert (Hg3 : grown (summarize st.1) (summarize st3.1)).
  { etransitivity; [exact Hg1|]. etransitivity; [exact Hg2|]. change (grown (summarize st2.1) (summarize st3.1)).
    rewrite Hsum3. by destruct (summarize st2.1). }
  assert (Hend : ended (summarize st3.1) = ended (summarize st.1) /\
    stopped (summarize st3.1) = stopped (summarize st.1) /\
    alive (summarize st3.1) = alive (summarize st.1))
    by (rewrite Hsum3, Hsum2; by destruct (summarize st.1)).
  destruct (decide (consumer_id c = id)) as [Heq|Hne]; [|right; tauto].
  destruct Hcase as [Hcl|Hv]; [right; tauto|left]. rewrite Hsum3, Hsum2, Hid, Hv, Heq.
  unfold drop_consumer. rewrite Hp. destruct (summarize st.1). simpl. by rewrite delete_delete_eq.
Qed.

Lemma sound_onUserConsumerClosed jsonData : sound (onUserConsumerClosed jsonData).
Proof.
  unfold onUserConsumerClosed. apply sound_bind; [sounds|]. intros _.
  destruct (getString "consumerId" jsonData) as [id|]; [|sounds].
  apply (sound_move _ drops); [apply drops_grown|apply drops_ok|apply drops_queue|].
  intros st. unfold bind at 1, engine. destruct (mConsumers (remotes st.1) !! id) as [h|] eqn:Hh; [|by left].
  pose proof (consumerClosed_moves id h (getString "kind" jsonData) st Hh) as Hm.
  destruct (holder_consumer h) as [i p]. exact Hm.
Qed.

(** ** Peers *)

Lemma sum_peers f e :
  summarize (on_store (on_peers f) e) = put_members (stripped (f (peers (mStore e)))) (summarize e).
Proof. by destruct e as [??????????????[]]. Qed.
Lemma members_eq e : members (summarize e) = stripped (peers (mStore e)).
Proof. done. Qed.

(** The peers of the store change, but no consumer is attached. *)
Definition regroups (s s' : summary) : Prop := exists ms, s' = put_members ms s /\
  forall k p id, getPeer k ms = Some p -> id ∈ peer_consumers p ->
    exists q, getPeer k (members s) = Some q /\ id ∈ peer_consumers q.

Lemma sound_regroup {A} (m : EM A) : (forall st, moves regroups st (m st)) -> sound m.
Proof.
  apply sound_move.
  - intros s s' (ms & -> & _). unfold grown. destruct s; split_and!; apply kept_preorder.
  - intros s s' Hs (ms & -> & Hm) _. by apply move_members.
  - intros s s' q (ms & -> & _). apply queue_ok_same; unfold destroyed; by destruct s.
Qed.

Lemma addPeer_moves k info st :
  moves regroups st ((let! e := engine in let! s := lift (addPeer k info (mStore e)) in
                      store (fun _ => s)) st).
Proof.
  unfold bind at 1, engine. unfold addPeer, Peers_addPeer, Peer_new, bind, lift.
  destruct (getJSONObject "device" info) as [d|e|]; simpl; [|by left..].
  right; right. exists st. split; [done|]. split; [|by destruct st as [[] ?]]. eexists. split.
  - transitivity (summarize (on_store (on_peers (fun _ => putPeer k
      {| peer_id := getString "id" info; peer_displayName := getString "displayName" info;
         peer_device := if is_null d then unknownDevice else
           {| mFlag := getString "flag" d; mName := getString "name" d; mVersion := getString "version" d |};
         peer_consumers := ∅; peer_dataConsumers := ∅ |} (peers (mStore st.1)))) st.1)).
    + by destruct st as [[??????????????[]] ?].
    + by rewrite sum_peers.
  - intros k' p id. rewrite getPeer_stripped, members_eq, getPeer_stripped.
    destruct (decide (k = k')) as [<-|Hne].
    + rewrite getPeer_put_eq. intros [= <-]. simpl. by intros ?%elem_of_empty.
    + rewrite getPeer_put_ne by done. eauto.
Qed.
Lemma sound_addPeerOf peer : sound (addPeerOf peer).
Proof.
  unfold addPeerOf. apply sound_bind; [sounds|]. intros _. apply sound_regroup, addPeer_moves.
Qed.
Lemma sound_addPeers l : sound (addPeers l).
Proof.
  induction l as [|v l IH]; [apply sound_ret|]. cbn [addPeers]. apply sound_bind; [sounds|].
  intros peer. apply sound_bind; [apply sound_addPeerOf|]. done.
Qed.
Lemma sound_removePeer k : sound (store (removePeer k)).
Proof.
  apply sound_regroup. intros st. right; right. exists st. split; [done|].
  split; [|by destruct st as [[] ?]]. exists (stripped (Peers_removePeer k (peers (mStore st.1)))).
  split; [by destruct st as [[??????????????[]] ?]|].
  intros k' p id. rewrite getPeer_stripped, members_eq, getPeer_stripped, getPeer_remove.
  case_bool_decide; [done|eauto].
Qed.

(** ** The messages of the server and the answers *)

Lemma sound_joinRoomMediasoupListener a : sound (joinRoomMediasoupListener a).
Proof.
  destruct a as [|code data]; simpl; [sounds|]. do 2 (apply sound_bind; [sounds|intros ?]).
  destruct a0; [apply sound_addPeers|sounds].
Qed.
Lemma sound_run_listener l a : sound (run_listener l a).
Proof.
  destruct l; simpl; [sounds| | |sounds|apply sound_joinRoomMediasoupListener|].
  1, 2: destruct a; simpl; sounds.
  destruct a; simpl; sounds.
Qed.
Lemma sound_userJoined jsonData :
  sound (do! deref jsonData in
         do! emit (onUserJoined (getString "id" jsonData)) in
         let! e := engine in
         let! s := lift (addPeer (getString "id" jsonData) jsonData (mStore e)) in
         store (fun _ => s)).
Proof.
  do 2 (apply sound_bind; [sounds|intros _]). apply sound_regroup, addPeer_moves.
Qed.
Lemma sound_userLeft jsonData :
  sound (do! deref jsonData in
         do! emit (onUserOffline (getString "userId" jsonData)) in
         store (removePeer (getString "id" jsonData))).
Proof. do 2 (apply sound_bind; [sounds|intros _]). apply sound_removePeer. Qed.
Lemma sound_handleNotification method jsonData : sound (handleNotification method jsonData).
Proof.
  unfold handleNotification. repeat case_match;
    first [apply sound_ret|apply sound_userJoined|apply sound_userLeft|
      apply sound_onUserConsumerClosed|apply sound_onNewConsumer|apply sound_onNewDataConsumer|
      by sounds].
Qed.
Lemma sound_process code param : sound (process code param).
Proof.
  unfold process. apply sound_bind; [sounds|]. intros e. destruct (processors e); [|sounds].
  destruct (answers code); [|sounds]. apply sound_bind; [apply sound_handleNotification|].
  intros _. sounds.
Qed.
End Consumers.
