(* ===== verification/RtcEngineDestroy.v ===== *)
(** * The engine: destroying it *)

From stdpp Require Import gmap.
From S2P Require Import Prelude Json JsonDump JsonParser OrtcValidate Ortc MediaSection RemoteSdp.
From S2P Require Import PeerConnection Handler Transport SendTransport RecvTransport TransportSpec.
From S2P Require Import Device Fastjson RoomStore Droid DroidSpec Capture RtcEngine RtcEngineInv.
From S2P Require Import RtcEngineCalm RtcEngineMoves RtcEngineSound RtcEngineSteps RtcEngineConsumers.

Section Destroy.
Context `{W : Webrtc} `{!Capture} `{!DataChannels} `{!Services} `{!Fastjson}.

(** ** What the listeners do when the sending transport closes *)

(** The id of the producer of a reference. *)
Definition names (s : summary) (q : jref) (id : string) : Prop := exists v a,
  sends s !! q.1 = Some v /\ objects (seen_producers v) !! q.2 = Some a /\ producer_id a = id.

Record silenced (i : nat) (ps ds : list nat) (s s' : summary) : Prop := {
  silenced_rest : sends s' = sends s /\ recvs s' = recvs s /\ sendNow s' = sendNow s /\
    recvNow s' = recvNow s /\ mediaHeard s' = mediaHeard s /\ dataHeard s' = dataHeard s /\
    holders s' = holders s /\ wrappers s' = wrappers s /\ members s' = members s /\
    alive s' = alive s /\ ended s' = ended s /\ stopped s' = stopped s;
  silenced_media l : media_of l s' = media_of l s \/ media_of l s' = None;
  silenced_data l : data_of l s' = data_of l s \/ data_of l s' = None;
  silenced_producer l p : p ∈ ps -> mediaHeard s !! (i, p) = Some l -> media_of l s' = None;
  silenced_dataProducer l p : p ∈ ds -> dataHeard s !! (i, p) = Some l -> data_of l s' = None;
  silenced_published id : published s' !! id = published s !! id \/
    exists q, media_of MicListener s = Some q /\ media_of MicListener s' = None /\ names s q id
}.

Lemma silenced_refl i s : silenced i [] [] s s.
Proof. split; try done; auto; intros l p Hp; by apply not_elem_of_nil in Hp. Qed.
Lemma silenced_trans i ps ds ps' ds' s1 s2 s3 :
  silenced i ps ds s1 s2 -> silenced i ps' ds' s2 s3 -> silenced i (ps ++ ps') (ds ++ ds') s1 s3.
Proof.
  intros [R1 M1 D1 P1 Q1 U1] [R2 M2 D2 P2 Q2 U2].
  assert (Hn : forall q id, names s2 q id -> names s1 q id).
  { intros q id. unfold names. by destruct R1 as (-> & _). }
  split.
  - destruct_and!. split_and!; congruence.
  - intros l. destruct (M2 l) as [-> | ->]; auto.
  - intros l. destruct (D2 l) as [-> | ->]; auto.
  - intros l p [Hp|Hp]%elem_of_app Hl.
    + specialize (P1 l p Hp Hl). destruct (M2 l) as [-> | ->]; done.
    + eapply P2; [done|]. by destruct R1 as (_ & _ & _ & _ & -> & _).
  - intros l p [Hp|Hp]%elem_of_app Hl.
    + specialize (Q1 l p Hp Hl). destruct (D2 l) as [-> | ->]; done.
    + eapply Q2; [done|]. by destruct R1 as (_ & _ & _ & _ & _ & -> & _).
  - intros id. destruct (U2 id) as [-> | (q & Hq & Hq' & Hid)].
    + destruct (U1 id) as [-> | (q & Hq & Hq' & Hid)]; [auto|]. right. exists q.
      split_and!; try done. destruct (M2 MicListener) as [-> | ->]; done.
    + destruct (M1 MicListener) as [E|E]; [|congruence]. right. exists q.
      rewrite <- E. auto.
Qed.

Lemma names_of e q id :
  producerId_of q e = Some id -> names (summarize e) q id.
Proof.
  unfold producerId_of, names. destruct (sendTransports e !! q.1) as [t|] eqn:Ht; [|done].
  intros (a & Ha & ->)%fmap_Some. exists (view_send t), a. split; [by apply sends_at|done].
Qed.

Lemma silenced_same i ps ds s :
  (forall l p, p ∈ ps -> mediaHeard s !! (i, p) = Some l -> media_of l s = None) ->
  (forall l p, p ∈ ds -> dataHeard s !! (i, p) = Some l -> data_of l s = None) ->
  silenced i ps ds s s.
Proof. intros Hp Hd. split; auto. by split_and!. Qed.
Lemma silenced_cam i p s :
  mediaHeard s !! (i, p) = Some CamListener -> silenced i [p] [] s (put_media CamListener None s).
Proof.
  intros Hl. split.
  - by destruct s.
  - intros l. rewrite media_of_put. destruct (decide _); auto.
  - intros l. left. by destruct s, l.
  - intros l q ->%list_elem_of_singleton. rewrite Hl. intros [= <-]. by destruct s.
  - intros l q Hq. by apply not_elem_of_nil in Hq.
  - intros id. left. by destruct s.
Qed.
Lemma silenced_mic i p s q pub :
  mediaHeard s !! (i, p) = Some MicListener -> audio s = Some q ->
  (forall id, pub !! id = published s !! id \/ names s q id) ->
  silenced i [p] [] s (put_media MicListener None (put_published pub s)).
Proof.
  intros Hl Ha Hpub. split.
  - by destruct s.
  - intros l. rewrite media_of_put. destruct (decide _); [auto|left]. by destruct s, l.
  - intros l. left. by destruct s, l.
  - intros l r ->%list_elem_of_singleton. rewrite Hl. intros [= <-]. by destruct s.
  - intros l r Hr. by apply not_elem_of_nil in Hr.
  - intros id. destruct (Hpub id) as [E|E]; [left; by destruct s|]. right. exists q.
    split_and!; [done|by destruct s|done].
Qed.
Lemma silenced_dataListener i p l s :
  dataHeard s !! (i, p) = Some l -> silenced i [] [p] s (put_data l None s).
Proof.
  intros Hl. split.
  - by destruct s, l.
  - intros k. left. by destruct s, l, k.
  - intros k. rewrite data_of_put. destruct (decide _); auto.
  - intros k r Hr. by apply not_elem_of_nil in Hr.
  - intros k r ->%list_elem_of_singleton. rewrite Hl. intros [= <-]. rewrite data_of_put.
    by rewrite decide_True.
  - intros id. left. by destruct s, l.
Qed.

Lemma silence_producer i e p :
  let e' := send_event i e (ProducerTransportClose p) in
  silenced i [p] [] (summarize e) (summarize e') /\ threads e' = threads e.
Proof.
  simpl. assert (Hsame : forall l, mediaListeners (locals e) !! (i, p) = l ->
    (forall k, l = Some k -> media_of k (summarize e) = None) ->
    silenced i [p] [] (summarize e) (summarize e)).
  { intros l Hl Hk. apply silenced_same; [|by intros ?? ?%not_elem_of_nil].
    intros k q ->%list_elem_of_singleton. simpl. rewrite Hl. apply Hk. }
  destruct (mediaListeners (locals e) !! (i, p)) as [[]|] eqn:Hl.
  - split; [|by destruct e]. unfold camListener.
    change (set_mVideoProducer None) with (set_local CamListener None). rewrite sum_local.
    by apply silenced_cam.
  - unfold micListener. destruct (mAudioProducer (locals e)) as [q|] eqn:Hq.
    2: { split; [|done]. eapply Hsame; [reflexivity|]. by intros k [= <-]. }
    destruct (producerId_of q e) as [id|] eqn:Hid; (split; [|by destruct e]).
    + change (set_mAudioProducer None) with (set_local MicListener None).
      rewrite sum_local, sum_removeProducer. apply (silenced_mic _ _ _ q); try done.
      intros id'. destruct (decide (id' = id)) as [->|Hne]; [right; by apply names_of|left].
      by rewrite lookup_delete_ne.
    + change (set_mAudioProducer None) with (set_local MicListener None). rewrite sum_local.
      replace (summarize e) with (put_published (published (summarize e)) (summarize e)) at 2
        by by destruct e. apply (silenced_mic _ _ _ q); auto.
  - split; [|done]. by apply (Hsame None).
Qed.
Lemma silence_dataProducer i e p :
  let e' := send_event i e (DataProducerTransportClose p) in
  silenced i [] [p] (summarize e) (summarize e') /\ threads e' = threads e.
Proof.
  simpl. destruct (dataListeners (locals e) !! (i, p)) as [l|] eqn:Hl.
  - pose proof (silenced_dataListener i p l (summarize e) Hl) as Hs.
    destruct l; (split; [|by destruct e]); by destruct e as [????????????[]].
  - split; [|done]. apply silenced_same; [by intros ?? ?%not_elem_of_nil|].
    intros k q ->%list_elem_of_singleton. simpl. congruence.
Qed.

Lemma silence_all i e ps ds :
  let e' := foldl (send_event i) e (map ProducerTransportClose ps ++ map DataProducerTransportClose ds) in
  silenced i ps ds (summarize e) (summarize e') /\ threads e' = threads e.
Proof.
  cbv zeta. revert e. induction ps as [|p ps IH]; intros e; cbn [map app foldl].
  - revert e. induction ds as [|d ds IH]; intros e; cbn [map app foldl]; [split; [apply silenced_refl|done]|].
    destruct (silence_dataProducer i e d) as [H1' T1]. cbv zeta in *.
    destruct (IH (send_event i e (DataProducerTransportClose d))) as [H2' T2]. split; [|congruence].
    exact (silenced_trans _ _ _ _ _ _ _ _ H1' H2').
  - destruct (silence_producer i e p) as [H1' T1]. cbv zeta in *.
    destruct (IH (send_event i e (ProducerTransportClose p))) as [H2' T2]. split; [|congruence].
    exact (silenced_trans _ _ _ _ _ _ _ _ H1' H2').
Qed.

(** ** Closing the transports *)

(** A view after its transport was closed and disposed. *)
Definition dead_send (v : send_view) : Prop :=
  send_closed v = true /\ send_freed v = true /\ producers_ok (seen_producers v) /\
  dataProducers_ok (seen_dataProducers v) /\
  (forall p, is_open producer_closed (seen_producers v) p = false) /\
  (forall p, is_open dataProducer_closed (seen_dataProducers v) p = false).
Definition dead_recv (v : recv_view) : Prop :=
  recv_closed v = true /\ recv_freed v = true /\ consumers_ok (seen_consumers v) /\
  dataConsumers_ok (seen_dataConsumers v) /\
  (forall p, is_open consumer_closed (seen_consumers v) p = false).

Definition free_send (v : send_view) : send_view :=
  {| seen_producers := seen_producers v; seen_dataProducers := seen_dataProducers v;
     send_closed := send_closed v; send_freed := true |}.
Definition free_recv (v : recv_view) : recv_view :=
  {| seen_consumers := seen_consumers v; seen_dataConsumers := seen_dataConsumers v;
     recv_closed := recv_closed v; recv_freed := true |}.

Definition disposeSend (i : nat) : EM unit :=
  do! on_send i (JTransport_close SendTransport_Close) in
  do! on_send i (JTransport_dispose "SendTransport") in
  modify (set_mSendTransport None).
Definition disposeRecv (i : nat) : EM unit :=
  do! on_recv i (JTransport_close RecvTransport_Close) in
  do! on_recv i (JTransport_dispose "RecvTransport") in
  modify (set_mRecvTransport None).

Lemma run_close_send (t : JTransport SendTransport) w :
  freed t = false -> send_closed (view_send t) = false ->
  producers_ok (producers (native t)) -> dataProducers_ok (dataProducers (native t)) ->
  exists t' w' media data, JTransport_close SendTransport_Close (t, w) = (Ok tt, (t', w')) /\
    freed t' = false /\
    dead_send (free_send (view_send t')) /\
    send_told t' = send_told t ++ map ProducerTransportClose media ++
      map DataProducerTransportClose data /\
    (forall p, p ∈ media <-> is_open producer_closed (producers (native t)) p = true) /\
    (forall p, p ∈ data <-> is_open dataProducer_closed (dataProducers (native t)) p = true).
Proof.
  intros Hf Hc Hp Hd.
  destruct (run_SendTransport_Close (native t, w)) as
    ([t1 w1] & media & data & Hrun & Hc1 & Ho1 & Ho2 & Ht & _ & Hm & _ & Hda); [done|done|].
  pose proof (Close_maps (native t, w) (conj Hp Hd)) as [Hp1 Hd1]. rewrite Hrun in Hp1, Hd1.
  exists (wrap t1), w1, media, data. unfold JTransport_close, on_native. simpl. rewrite Hf.
  unfold native_bare. rewrite Hrun. by split_and!.
Qed.
Lemma run_close_recv (t : JTransport RecvTransport) w :
  freed t = false -> recv_closed (view_recv t) = false ->
  consumers_ok (consumers (native t)) -> dataConsumers_ok (dataConsumers (native t)) ->
  exists t' w' media data, JTransport_close RecvTransport_Close (t, w) = (Ok tt, (t', w')) /\
    freed t' = false /\
    dead_recv (free_recv (view_recv t')) /\
    recv_told t' = recv_told t ++ map ConsumerTransportClose media ++
      map DataConsumerTransportClose data.
Proof.
  intros Hf Hc Hp Hd.
  destruct (RecvTransport_Close_run (native t, w)) as
    ([t1 w1] & media & data & Hrun & Hc1 & [Hp1 Hd1] & Ho1 & Ht & _); [done|done|].
  exists (wrap t1), w1, media, data. unfold JTransport_close, on_native. simpl. rewrite Hf.
  unfold native_bare. rewrite Hrun. by split_and!.
Qed.

(** The receiving side: only the holders change besides the transport. *)
Lemma tell_consumers i e l :
  let e' := foldl (recv_event i) e l in
  threads e' = threads e /\ exists hs, summarize e' = put_holders hs (summarize e).
Proof.
  cbv zeta. revert e. induction l as [|ev l IH]; intros e; cbn [foldl].
  { split; [done|]. exists (holders (summarize e)). by destruct e. }
  destruct (IH (recv_event i e ev)) as [-> (hs & ->)].
  assert (E : threads (recv_event i e ev) = threads e /\
    exists hs, summarize (recv_event i e ev) = put_holders hs (summarize e)).
  { assert (Hid : exists hs, summarize e = put_holders hs (summarize e))
      by (exists (holders (summarize e)); by destruct e).
    destruct ev; try (by split); simpl.
    - destruct (consumerId_of (i, p) e); [|by split]. split; [by destruct e|].
      rewrite sum_holders. eauto.
    - destruct (dataConsumerId_of (i, p) e); [|by split]. split; [by destruct e|].
      destruct Hid as [hs' Hid]. exists hs'.
      transitivity (summarize e); [by destruct e as [?????????????[]]|done]. }
  destruct E as [-> (hs' & ->)]. split; [done|]. exists hs. by destruct e.
Qed.

Lemma run_dispose_send i (st : Engine * World) t :
  sendTransports st.1 !! i = Some t -> freed t = false ->
  exists t', on_send i (JTransport_dispose "SendTransport") st =
    (Ok tt, (on_sendTransports (insert i t') st.1, st.2)) /\ view_send t' = free_send (view_send t).
Proof.
  intros Ht Hf. exists {| native := native t; freed := true |}. split; [|done].
  apply (run_on_send i _ st t); try done.
  unfold JTransport_dispose, bind, checkTransportExists, on_native. simpl. by rewrite Hf.
Qed.
Lemma run_dispose_recv i (st : Engine * World) t :
  recvTransports st.1 !! i = Some t -> freed t = false ->
  exists t', on_recv i (JTransport_dispose "RecvTransport") st =
    (Ok tt, (on_recvTransports (insert i t') st.1, st.2)) /\ view_recv t' = free_recv (view_recv t).
Proof.
  intros Ht Hf. exists {| native := native t; freed := true |}. split; [|done].
  apply (run_on_recv i _ st t); try done.
  unfold JTransport_dispose, bind, checkTransportExists, on_native. simpl. by rewrite Hf.
Qed.

(** The listeners of the open producers are told, and the transport is gone. *)
Definition silences (i : nat) (s s' : summary) : Prop := exists v v1 ps ds s2,
  sends s !! i = Some v /\ dead_send (free_send v1) /\
  (forall p, p ∈ ps <-> is_open producer_closed (seen_producers v) p = true) /\
  (forall p, p ∈ ds <-> is_open dataProducer_closed (seen_dataProducers v) p = true) /\
  silenced i ps ds (put_sends (<[i := v1]> (sends s)) s) s2 /\
  s' = put_sendNow None (put_sends (<[i := free_send v1]> (sends s2)) s2).

Lemma run_disposeSend i (st : Engine * World) :
  summary_ok (summarize st.1) -> mSendTransport st.1 = Some i ->
  exists st', disposeSend i st = (Ok tt, st') /\ threads st'.1 = threads st.1 /\
    silences i (summarize st.1) (summarize st'.1).
Proof.
  intros Hok Hi. destruct (ok_sendNow _ Hok i Hi) as (v0 & Hv0 & Hc & Hf).
  simpl in Hv0. rewrite list_lookup_fmap in Hv0. apply fmap_Some in Hv0 as (t & Ht & ->).
  destruct (ok_sends _ Hok i (view_send t) (sends_at _ _ _ Ht)) as [Hp Hd].
  destruct (run_close_send t st.2 Hf Hc Hp Hd) as
    (t1 & w1 & media & data & Hrun & Hf1 & Hdead & Hl & Hm & Hda).
  pose proof (run_on_send_told i _ st t _ t1 w1 _ Ht Hrun Hl) as Hsend.
  set (e1 := on_sendTransports (insert i t1) st.1) in *.
  destruct (silence_all i e1 media data) as [Hsil Hthr]. set (e2 := foldl (send_event i) e1 _) in *.
  assert (Ht2 : sends (summarize e2) !! i = Some (view_send t1)).
  { destruct (silenced_rest _ _ _ _ _ Hsil) as (-> & _). apply sends_at. unfold e1.
    destruct st as [[] ?]. simpl in *. apply list_lookup_insert_eq. by eapply lookup_lt_Some. }
  simpl in Ht2. rewrite list_lookup_fmap in Ht2. apply fmap_Some in Ht2 as (t2 & Ht2 & Hv2).
  destruct (run_dispose_send i (e2, w1) t2 Ht2) as (t3 & Hdis & Hv3).
  { by change (send_freed (view_send t2) = false); rewrite <- Hv2. }
  eexists. split; [|split].
  - unfold disposeSend. rewrite (bind_of_ok _ _ _ _ _ Hsend), (bind_of_ok _ _ _ _ _ Hdis). reflexivity.
  - cbn [fst]. transitivity (threads e2); [by destruct e2|]. rewrite Hthr. by destruct st as [[] ?].
  - exists (view_send t), (view_send t1), media, data, (summarize e2).
    split; [by apply sends_at|]. split; [done|]. split; [done|]. split; [done|].
    rewrite <- sum_sends. split; [exact Hsil|]. cbn [fst]. rewrite Hv2, <- Hv3, <- sum_sends.
    by destruct e2.
Qed.

Lemma run_disposeRecv i (st : Engine * World) v :
  recvs (summarize st.1) !! i = Some v -> open_recv v -> consumers_ok (seen_consumers v) ->
  dataConsumers_ok (seen_dataConsumers v) ->
  exists st' v1 hs, disposeRecv i st = (Ok tt, st') /\ threads st'.1 = threads st.1 /\
    dead_recv (free_recv v1) /\
    summarize st'.1 = put_recvNow None (put_holders hs
      (put_recvs (<[i := free_recv v1]> (recvs (summarize st.1))) (summarize st.1))).
Proof.
  intros Hv [Hc Hf] Hp Hd. simpl in Hv. rewrite list_lookup_fmap in Hv.
  apply fmap_Some in Hv as (t & Ht & ->).
  destruct (run_close_recv t st.2 Hf Hc Hp Hd) as
    (t1 & w1 & media & data & Hrun & Hf1 & Hdead & Hl).
  pose proof (run_on_recv_told i _ st t _ t1 w1 _ Ht Hrun Hl) as Hrecv.
  set (e1 := on_recvTransports (insert i t1) st.1) in *.
  set (evs := map ConsumerTransportClose media ++ _) in *.
  destruct (tell_consumers i e1 evs) as (Hthr & hs & Hsum).
  set (e2 := foldl (recv_event i) e1 evs) in *.
  assert (Ht2 : recvs (summarize e2) !! i = Some (view_recv t1)).
  { rewrite Hsum. transitivity (recvs (summarize e1) !! i); [by destruct e1|]. apply recvs_at.
    unfold e1. destruct st as [[] ?]. simpl in *. apply list_lookup_insert_eq.
    by eapply lookup_lt_Some. }
  simpl in Ht2. rewrite list_lookup_fmap in Ht2. apply fmap_Some in Ht2 as (t2 & Ht2 & Hv2).
  destruct (run_dispose_recv i (e2, w1) t2 Ht2) as (t3 & Hdis & Hv3).
  { by change (recv_freed (view_recv t2) = false); rewrite <- Hv2. }
  eexists _, (view_recv t1), hs. split; [|split; [|split; [done|]]].
  - unfold disposeRecv. rewrite (bind_of_ok _ _ _ _ _ Hrecv), (bind_of_ok _ _ _ _ _ Hdis). reflexivity.
  - cbn [fst]. transitivity (threads e2); [by destruct e2|]. rewrite Hthr. by destruct st as [[] ?].
  - cbn [fst]. transitivity (put_recvNow None (summarize (on_recvTransports (insert i t3) e2)));
      [by destruct e2|]. rewrite sum_recvs, Hsum, Hv3, <- Hv2. unfold e1. rewrite sum_recvs.
    destruct (summarize st.1). simpl. by rewrite list_insert_insert_eq.
Qed.

(** ** The rest of the task *)

Lemma run_releaseTrack t (st : Engine * World) :
  exists w, releaseTrack t st = (Ok tt, (st.1, w)).
Proof. destruct t, st; eexists; reflexivity. Qed.
Lemma run_releaseConsumers l (st : Engine * World) :
  exists st', releaseConsumers l st = (Ok tt, st') /\ threads st'.1 = threads st.1 /\
    summarize st'.1 =
      put_holders (foldl (fun m x => delete x.1 m) (holders (summarize st.1)) l) (summarize st.1).
Proof.
  revert st. induction l as [|[id h] l IH]; intros st; cbn [releaseConsumers].
  { eexists. split; [reflexivity|]. split; [done|]. by destruct st as [[] ?]. }
  assert (exists w, releaseConsumer id h st =
    (Ok tt, (on_remotes (on_mConsumers (delete id)) st.1, w))) as [w Hw].
  { unfold releaseConsumer, bind. destruct (String.eqb _ _); eexists; reflexivity. }
  rewrite (bind_of_ok _ _ _ _ _ Hw).
  destruct (IH (on_remotes (on_mConsumers (delete id)) st.1, w)) as (st' & Hst' & Ht & Hsum).
  exists st'. split; [done|]. split; [rewrite Ht; by destruct st as [[] ?]|].
  rewrite Hsum. cbn [fst]. rewrite sum_holders. by destruct (summarize st.1).
Qed.
Lemma delete_all {A} (m : gmap string A) :
  foldl (fun m x => delete x.1 m) m (map_to_list m) = ∅.
Proof.
  assert (Hgen : forall (l : list (string * A)) (m' : gmap string A) id,
    (forall a, m' !! id = Some a -> id ∈ l.*1) ->
    foldl (fun m x => delete x.1 m) m' l !! id = None).
  { induction l as [|[k a] l IH]; intros m' id Hin; simpl.
    - destruct (m' !! id) eqn:E; [|done]. destruct (not_elem_of_nil id). by eapply Hin.
    - apply IH. intros b [Hne Hb]%lookup_delete_Some. specialize (Hin b Hb). simpl in Hin.
      apply elem_of_cons in Hin as [->|?]; done. }
  apply map_eq. intros id. rewrite lookup_empty. apply Hgen. intros a Ha.
  apply list_elem_of_fmap. exists (id, a). split; [done|]. by apply elem_of_map_to_list.
Qed.
Lemma run_utils_dispose (st : PeerConnectionUtils * World) :
  exists st', utils_dispose st = (Ok tt, st').
Proof.
  unfold utils_dispose. rewrite run_bind_get. unfold release, bind, webrtc_, modify_utils.
  destruct (mCamCapture st.1), (mVideoSource st.1), (mAudioSource st.1), (mPeerConnectionFactory st.1);
    eexists; reflexivity.
Qed.

Definition put_dead (s : summary) : summary :=
  let 'Build_summary ss rs sn rn v a c b mh dh hs ws ps ms _ en st := s in
  Build_summary ss rs sn rn v a c b mh dh hs ws ps ms false en st.
Definition put_stopped (s : summary) : summary :=
  let 'Build_summary ss rs sn rn v a c b mh dh hs ws ps ms al en _ := s in
  Build_summary ss rs sn rn v a c b mh dh hs ws ps ms al en true.

(** The changes of disposeTransportDevice. *)
Definition disposes_send (s s' : summary) : Prop :=
  match sendNow s with Some i => silences i s s' | None => s' = s end.
Definition disposes_recv (s s' : summary) : Prop :=
  match recvNow s with
  | Some i => exists v1 hs, dead_recv (free_recv v1) /\
      s' = put_recvNow None (put_holders hs (put_recvs (<[i := free_recv v1]> (recvs s)) s))
  | None => s' = s
  end.

Lemma silences_rest i s s' :
  silences i s s' -> recvs s' = recvs s /\ recvNow s' = recvNow s /\ alive s' = alive s /\
    sendNow s' = None /\ holders s' = holders s /\ ended s' = ended s /\ stopped s' = stopped s.
Proof.
  intros (v & v1 & ps & ds & s2 & _ & _ & _ & _ & Hs & ->).
  destruct (silenced_rest _ _ _ _ _ Hs) as (_ & E1 & _ & E2 & _ & _ & E3 & _ & _ & E4 & E5 & E6).
  destruct s, s2. simpl in *. by subst.
Qed.
Lemma disposes_send_rest s s' :
  disposes_send s s' -> recvs s' = recvs s /\ recvNow s' = recvNow s /\ alive s' = alive s /\
    sendNow s' = None /\ holders s' = holders s /\ ended s' = ended s /\ stopped s' = stopped s.
Proof.
  unfold disposes_send. destruct (sendNow s) eqn:Hs; [apply silences_rest|]. by intros ->.
Qed.

Lemma run_disposeTransportDevice (st : Engine * World) :
  summary_ok (summarize st.1) -> alive (summarize st.1) = true ->
  exists st' s1 s2, disposeTransportDevice st = (Ok tt, st') /\ threads st'.1 = threads st.1 /\
    disposes_send (summarize st.1) s1 /\ disposes_recv s1 s2 /\ summarize st'.1 = put_dead s2.
Proof.
  intros Hok Ha. unfold disposeTransportDevice. unfold bind at 1, engine at 1. cbn [fst snd].
  assert (exists st1, match mSendTransport st.1 with Some i => disposeSend i | None => ret tt end st =
    (Ok tt, st1) /\ threads st1.1 = threads st.1 /\
    disposes_send (summarize st.1) (summarize st1.1)) as (st1 & H1' & T1 & D1).
  { unfold disposes_send. change (sendNow (summarize st.1)) with (mSendTransport st.1).
    destruct (mSendTransport st.1) as [i|] eqn:Hi; [by apply run_disposeSend|by exists st]. }
  rewrite (bind_of_ok _ _ _ _ _ H1'). unfold bind at 1, engine at 1. cbn [fst snd].
  destruct (disposes_send_rest _ _ D1) as (E1 & E2 & E3 & E4 & _).
  assert (exists st2, match mRecvTransport st1.1 with Some i => disposeRecv i | None => ret tt end st1 =
    (Ok tt, st2) /\ threads st2.1 = threads st1.1 /\
    disposes_recv (summarize st1.1) (summarize st2.1)) as (st2 & H2' & T2 & D2).
  { unfold disposes_recv. change (recvNow (summarize st1.1)) with (mRecvTransport st1.1) in *.
    destruct (mRecvTransport st1.1) as [i|] eqn:Hi; [|by exists st1].
    destruct (ok_recvNow _ Hok i) as (v & Hv & Ho); [by rewrite <- E2|].
    destruct (ok_recvs _ Hok i v Hv) as [Hc Hd]. rewrite <- E1 in Hv.
    destruct (run_disposeRecv i st1 v Hv Ho Hc Hd) as (st2 & v1 & hs & H2' & T2 & D2 & S2).
    exists st2. eauto 10. }
  rewrite (bind_of_ok _ _ _ _ _ H2').
  assert (Ha2 : alive (summarize st2.1) = true).
  { rewrite <- Ha, <- E3. unfold disposes_recv in D2. destruct (recvNow (summarize st1.1)).
    - destruct D2 as (v1 & hs & _ & ->). by destruct (summarize st1.1).
    - by rewrite D2. }
  exists (set_mDevice None st2.1, st2.2), (summarize st1.1), (summarize st2.1).
  split_and!; try done.
  - unfold on_device, JDevice_dispose, bind, checkDeviceExists. simpl in *.
    by destruct (mDevice st2.1).
  - transitivity (threads st2.1); [by destruct st2 as [[] ?]|congruence].
  - by destruct st2 as [[] ?].
Qed.

Lemma run_destroyImpl (st : Engine * World) :
  summary_ok (summarize st.1) -> alive (summarize st.1) = true ->
  exists st' s1 s2, destroyImpl st = (Ok tt, st') /\
    threads st'.1 = quit_looper (threads st.1) /\
    disposes_send (summarize st.1) s1 /\ disposes_recv s1 s2 /\
    summarize st'.1 = put_stopped (put_holders ∅ (put_dead s2)).
Proof.
  intros Hok Ha. unfold destroyImpl. unfold bind at 1, engine at 1. cbn [fst snd].
  set (m := when (mStartupClient st.1) _).
  assert (exists st0, m st = (Ok tt, st0) /\ threads st0.1 = threads st.1 /\
    summarize st0.1 = summarize st.1) as (st0 & H0' & T0 & S0).
  { unfold m. destruct (mStartupClient st.1); eexists; (split; [reflexivity|]); by destruct st as [[] ?]. }
  rewrite (bind_of_ok _ _ _ _ _ H0'). rewrite <- S0 in Hok, Ha.
  destruct (run_disposeTransportDevice st0 Hok Ha) as (st1 & s1 & s2 & H1' & T1 & D1 & D2 & S1).
  rewrite S0 in D1. rewrite (bind_of_ok _ _ _ _ _ H1'). unfold bind at 1, engine at 1. cbn [fst snd].
  destruct (run_releaseTrack (mLocalAudioTrack (locals st1.1)) st1) as [w2 H2'].
  rewrite (bind_of_ok _ _ _ _ _ H2').
  destruct (run_releaseTrack (mLocalVideoTrack (locals st1.1)) (st1.1, w2)) as [w3 H3'].
  rewrite (bind_of_ok _ _ _ _ _ H3').
  destruct (run_releaseConsumers (map_to_list (mConsumers (remotes st1.1))) (st1.1, w3)) as
    (st4 & H4' & T4 & S4).
  rewrite (bind_of_ok _ _ _ _ _ H4'). unfold bind at 1, engine at 1. cbn [fst snd] in *.
  change (mConsumers (remotes st1.1)) with (holders (summarize st1.1)) in S4.
  rewrite delete_all in S4.
  set (u := match mPeerConnectionUtils st4.1 with Some _ => _ | None => _ end).
  assert (exists st5, u st4 = (Ok tt, st5) /\ threads st5.1 = threads st4.1 /\
    summarize st5.1 = summarize st4.1) as (st5 & H5' & T5 & S5).
  { unfold u. destruct (mPeerConnectionUtils st4.1) as [x|] eqn:Hx; [|by exists st4].
    destruct (run_utils_dispose (x, st4.2)) as [[x' w'] Hd]. unfold on_utils. rewrite Hx, Hd.
    eexists. split; [reflexivity|]. by destruct st4 as [[] ?]. }
  rewrite (bind_of_ok _ _ _ _ _ H5').
  exists (on_threads quit_looper st5.1, st5.2), s1, s2. split; [done|]. cbn [fst].
  split; [transitivity (quit_looper (threads st5.1)); [by destruct st5 as [[] ?]|congruence]|].
  split; [done|]. split; [done|]. rewrite <- S1, <- S4, <- S5. by destruct st5 as [[???????????????[]] ?].
Qed.

(** ** The invariant afterwards *)

(** What [silences] leaves, in terms of the fields. *)
Lemma silences_fields i s s' :
  silences i s s' -> exists v v1, sends s !! i = Some v /\ dead_send (free_send v1) /\
    sends s' = <[i := free_send v1]> (sends s) /\
    mediaHeard s' = mediaHeard s /\ dataHeard s' = dataHeard s /\
    (forall l p, media_of l s' = Some p -> media_of l s = Some p /\
       (is_open producer_closed (seen_producers v) p.2 = true -> mediaHeard s !! p = Some l -> p.1 <> i)) /\
    (forall l p, data_of l s' = Some p -> data_of l s = Some p /\
       (is_open dataProducer_closed (seen_dataProducers v) p.2 = true -> dataHeard s !! p = Some l ->
        p.1 <> i)) /\
    (forall id, published s' !! id = published s !! id \/
       exists q, media_of MicListener s = Some q /\ media_of MicListener s' = None /\ names s' q id).
Proof.
  intros (v & v1 & ps & ds & s2 & Hv & Hdead & Hps & Hds & [R M D P Q U] & ->). exists v, v1.
  destruct R as (E1 & E2 & E3 & E4 & E5 & E6 & _).
  assert (F : sends (put_sends (<[i:=v1]> (sends s)) s) = <[i := v1]> (sends s) /\
    mediaHeard (put_sends (<[i:=v1]> (sends s)) s) = mediaHeard s /\
    dataHeard (put_sends (<[i:=v1]> (sends s)) s) = dataHeard s /\
    published (put_sends (<[i:=v1]> (sends s)) s) = published s /\
    (forall l, media_of l (put_sends (<[i:=v1]> (sends s)) s) = media_of l s) /\
    (forall l, data_of l (put_sends (<[i:=v1]> (sends s)) s) = data_of l s))
    by (destruct s; split_and!; try done; by intros []).
  destruct F as (F1 & F2 & F3 & F4 & F5 & F6). rewrite F1 in E1. rewrite F2 in E5. rewrite F3 in E6.
  set (s' := put_sendNow None _).
  assert (G : sends s' = <[i := free_send v1]> (sends s2) /\ mediaHeard s' = mediaHeard s2 /\
    dataHeard s' = dataHeard s2 /\ published s' = published s2 /\
    (forall l, media_of l s' = media_of l s2) /\ (forall l, data_of l s' = data_of l s2))
    by (unfold s'; destruct s2; split_and!; try done; by intros []).
  destruct G as (G1 & G2 & G3 & G4 & G5 & G6).
  assert (Hs' : sends s' = <[i := free_send v1]> (sends s)).
  { rewrite G1, E1. by rewrite list_insert_insert_eq. }
  split_and!; try done; try congruence.
  - intros l p Hp. rewrite G5 in Hp. specialize (M l). rewrite F5, Hp in M.
    destruct M as [M|M]; [|done]. split; [done|]. intros Ho Hl Hi. destruct p as [j p]. simpl in *.
    subst j. specialize (P l p (proj2 (Hps p) Ho)). rewrite F2, Hp in P. by specialize (P Hl).
  - intros l p Hp. rewrite G6 in Hp. specialize (D l). rewrite F6, Hp in D.
    destruct D as [D|D]; [|done]. split; [done|]. intros Ho Hl Hi. destruct p as [j p]. simpl in *.
    subst j. specialize (Q l p (proj2 (Hds p) Ho)). rewrite F3, Hp in Q. by specialize (Q Hl).
  - intros id. rewrite G4, G5. specialize (U id). rewrite F4, F5 in U.
    destruct U as [U|(q & Hq & Hq' & w & a & Hw & Ha & Hid)]; [by left|right].
    exists q. split; [done|]. split; [done|]. rewrite F1 in Hw. unfold names. rewrite Hs'.
    apply lookup_insert_cases in Hw as [[Hq1 ->]|[Hne Hw]].
    + exists (free_send v1), a. rewrite Hq1, list_lookup_insert_eq by by eapply lookup_lt_Some. done.
    + exists w, a. by rewrite list_lookup_insert_ne.
Qed.

Lemma silences_media i s s' :
  summary_ok s -> silences i s s' -> distinct_ids producer_id (seen_producers <$> sends s') ->
  forall l p, media_of l s' = Some p -> live_producer s' l p.
Proof.
  intros Hs Hsil Hu l p Hp.
  destruct (silences_fields i s s' Hsil) as (v & v1 & Hv & _ & E1 & E2 & _ & Hmedia & _ & Hpub).
  destruct (Hmedia l p Hp) as [Hp0 Hi].
  destruct (ok_media _ Hs l p Hp0) as (u & a & Hu' & Ho & Ha & Hc & Hl & Hpa).
  assert (Hne : p.1 <> i).
  { intros Heq. assert (u = v) as -> by congruence. apply Hi; [|done|done].
    unfold is_open. by rewrite Ha, Hc. }
  assert (Hu2 : sends s' !! p.1 = Some u) by by rewrite E1, list_lookup_insert_ne.
  exists u, a. rewrite E2. split_and!; try done.
  destruct (Hpub (producer_id a)) as [-> | (q & Hq & Hq' & w & b & Hw & Hb & Hid)]; [done|].
  assert (q = p) as -> by by eapply (same_producer s').
  destruct (ok_media _ Hs _ _ Hq) as (? & ? & _ & _ & _ & _ & Hmic & _).
  assert (l = MicListener) as -> by congruence. congruence.
Qed.
Lemma silences_data i s s' :
  summary_ok s -> silences i s s' ->
  forall l p, data_of l s' = Some p -> live_dataProducer s' l p.
Proof.
  intros Hs Hsil l p Hp.
  destruct (silences_fields i s s' Hsil) as (v & v1 & Hv & _ & E1 & _ & E3 & _ & Hdata & _).
  destruct (Hdata l p Hp) as [Hp0 Hi].
  destruct (ok_data _ Hs l p Hp0) as (u & a & Hu' & Ho & Ha & Hc & Hl).
  assert (Hne : p.1 <> i).
  { intros Heq. assert (u = v) as -> by congruence. apply Hi; [|done|done].
    unfold is_open. by rewrite Ha, Hc. }
  exists u, a. rewrite E1, E3, list_lookup_insert_ne by done. by split_and!.
Qed.

Lemma disposes_recv_fields s s' :
  disposes_recv s s' -> (forall l, media_of l s' = media_of l s) /\
    (forall l, data_of l s' = data_of l s) /\ sends s' = sends s /\ sendNow s' = sendNow s /\
    recvNow s' = None /\ mediaHeard s' = mediaHeard s /\ dataHeard s' = dataHeard s /\
    published s' = published s /\ ended s' = ended s /\
    (forall i v, recvs s' !! i = Some v -> recvs s !! i = Some v \/ dead_recv v).
Proof.
  unfold disposes_recv. destruct (recvNow s) as [i|] eqn:Hi.
  - intros (v1 & hs & Hdead & ->). destruct s; simpl in *; split_and!; try done; try (by intros []).
    intros j v [[-> ->]|[_ Hj]]%lookup_insert_cases; auto.
  - intros ->. split_and!; auto.
Qed.

Lemma destroys_ok s s1 s2 :
  summary_ok s -> disposes_send s s1 -> disposes_recv s1 s2 ->
  let s' := put_stopped (put_holders ∅ (put_dead s2)) in
  unique s' -> summary_ok s' /\ destroyed s' /\ stopped s' = true /\ ended s' = ended s.
Proof.
  intros Hs D1 D2 s' Hu.
  destruct (disposes_send_rest _ _ D1) as (R1 & R2 & R3 & R4 & _ & R5 & _).
  destruct (disposes_recv_fields _ _ D2) as (M & D & E1 & E2 & E3 & E4 & E5 & E6 & E7 & Hr).
  assert (F : sends s' = sends s2 /\ recvs s' = recvs s2 /\ sendNow s' = sendNow s2 /\
    recvNow s' = recvNow s2 /\ mediaHeard s' = mediaHeard s2 /\ dataHeard s' = dataHeard s2 /\
    published s' = published s2 /\ holders s' = ∅ /\ alive s' = false /\ stopped s' = true /\
    ended s' = ended s2 /\ (forall l, media_of l s' = media_of l s2) /\
    (forall l, data_of l s' = data_of l s2))
    by (unfold s'; destruct s2; split_and!; try done; by intros []).
  destruct F as (F1 & F2 & F3 & F4 & F5 & F6 & F7 & F8 & F9 & F10 & F11 & F12 & F13).
  assert (Hu1 : distinct_ids producer_id (seen_producers <$> sends s1))
    by (rewrite <- E1, <- F1; apply Hu).
  assert (Hlive : (forall l p, media_of l s1 = Some p -> live_producer s1 l p) /\
    (forall l p, data_of l s1 = Some p -> live_dataProducer s1 l p) /\
    (forall i v, sends s1 !! i = Some v ->
       producers_ok (seen_producers v) /\ dataProducers_ok (seen_dataProducers v))).
  { unfold disposes_send in D1. destruct (sendNow s) as [i|] eqn:Hi; [|subst s1; split_and!; apply Hs].
    split_and!; [by eapply silences_media|by eapply silences_data|].
    destruct (silences_fields i s s1 D1) as (v & v1 & _ & (_ & _ & Hp & Hd & _) & E & _).
    intros j u. rewrite E. intros [[-> ->]|[_ Hj]]%lookup_insert_cases; [done|].
    by apply (ok_sends _ Hs j). }
  destruct Hlive as (L1 & L2 & L3).
  split; [|unfold destroyed; rewrite F3, F4, F8, F9, F10, F11, E2, E3, E7, R4; by split_and!].
  split; rewrite ?F3, ?F4, ?F8, ?F9, ?E2, ?E3, ?R4; try done.
  - intros i v. rewrite F1, E1. apply L3.
  - intros i v. rewrite F2. intros [Hv|(_ & _ & Hc & Hd & _)]%Hr; [|done].
    rewrite R1 in Hv. by apply (ok_recvs _ Hs i).
  - intros l p. rewrite F12, M. unfold live_producer. rewrite F1, F5, F7, E1, E4, E6. apply L1.
  - intros l p. rewrite F13, D. unfold live_dataProducer. rewrite F1, F6, E1, E5. apply L2.
Qed.
End Destroy.
