(* ===== verification/RtcEngineQueue.v ===== *)
(** * The engine: the queue of the worker

    A task only adds tasks at the end of the queue. *)

From stdpp Require Import gmap.
From S2P Require Import Prelude Json JsonDump JsonParser OrtcValidate Ortc MediaSection RemoteSdp.
From S2P Require Import PeerConnection Handler Transport SendTransport RecvTransport Device Fastjson.
From S2P Require Import RoomStore Droid Capture RtcEngine RtcEngineInv.

Section Queue.
Context `{W : Webrtc} `{!Capture} `{!DataChannels} `{!Services} `{!Fastjson}.
Context (q0 : list task).

Definition queued (st : Engine * World) : Prop := exists l, tasks st.1 = q0 ++ l.
Abbreviation keeps := (preserves queued).

Lemma keeps_step {A} (m : EM A) : (forall st, tasks (snd (m st)).1 = tasks st.1) -> keeps m.
Proof. intros Hm st [l Hl]. exists l. by rewrite Hm. Qed.
Lemma keeps_modify f : (forall e, tasks (f e) = tasks e) -> keeps (modify f).
Proof. intros Hf. apply keeps_step. intros st. apply Hf. Qed.
Lemma keeps_engine : keeps engine.
Proof. by apply keeps_step. Qed.
Lemma keeps_world_ f : keeps (world_ f).
Proof. by apply keeps_step. Qed.
Lemma keeps_call_server code req : keeps (call_server code req).
Proof. apply keeps_step. intros st. unfold call_server. by destruct (send_request _ _ _ _). Qed.
Lemma keeps_when_answered l a : keeps (when_answered l a).
Proof. by apply keeps_modify; intros [???????????????[]]. Qed.
Lemma keeps_get_data a : keeps (get_data a).
Proof. destruct a; [apply preserves_throw|apply preserves_ret]. Qed.
Lemma keeps_deref o : keeps (deref o).
Proof. apply preserves_throw_if. Qed.
Lemma keeps_post t : keeps (post t).
Proof.
  intros [e w] [l Hl]. unfold post, bind, engine. simpl. destruct (looperQuit (threads e)); [by exists l|].
  exists (l ++ [t]). destruct e as [???????????????[]]. unfold tasks in *. simpl in *.
  by rewrite Hl, app_assoc.
Qed.
Lemma keeps_on_device {A} (m : JDM A) : keeps (on_device m).
Proof. apply keeps_step. intros [[] w]. unfold on_device. simpl. by destruct (m _) as [? []]. Qed.
Lemma keeps_on_utils {A} (m : CM A) : keeps (on_utils m).
Proof.
  apply keeps_step. intros [e w]. unfold on_utils. simpl. destruct (mPeerConnectionUtils e); [|done].
  destruct (m _) as [? []]. by destruct e.
Qed.
Lemma send_event_tasks i e ev : tasks (send_event i e ev) = tasks e.
Proof.
  destruct ev; try done; simpl.
  - destruct (mediaListeners _ !! _) as [[]|]; [by destruct e| |done]. unfold micListener.
    destruct (mAudioProducer _); [|done]. destruct (producerId_of _ _); by destruct e.
  - destruct (dataListeners _ !! _) as [[]|]; by destruct e.
  - destruct (dataListeners _ !! _) as [[]|]; by destruct e.
Qed.
Lemma keeps_on_send {A} i (m : JSM A) : keeps (on_send i m).
Proof.
  apply keeps_step. intros [e w]. unfold on_send. simpl. destruct (sendTransports e !! i); [|done].
  destruct (m _) as [r [t w']]. simpl. set (l := drop _ _).
  transitivity (tasks (on_sendTransports (insert i t) e)); [|by destruct e].
  generalize (on_sendTransports (insert i t) e). induction l as [|ev l IH]; intros e'; [done|]. simpl.
  by rewrite IH, send_event_tasks.
Qed.
#[local] Hint Resolve keeps_engine keeps_world_ keeps_call_server keeps_when_answered keeps_get_data
  keeps_deref keeps_post keeps_on_device keeps_on_utils keeps_on_send : preserve.
#[local] Hint Extern 1 (preserves _ (modify _)) => apply keeps_modify; by intros [] : preserve.
#[local] Hint Extern 1 (preserves _ (store _)) => apply keeps_modify; by intros [] : preserve.
#[local] Hint Extern 1 (preserves _ (local_state _)) => apply keeps_modify; by intros [] : preserve.
#[local] Hint Extern 1 (preserves _ (emit _)) => apply keeps_modify; by intros [] : preserve.
#[local] Hint Extern 1 (preserves _ (enableTrack _ _)) => apply keeps_world_ : preserve.

Lemma keeps_try_catch {A} p (m : EM A) h : keeps m -> (forall e, keeps (h e)) -> keeps (try_catch p m h).
Proof.
  intros Hm Hh st Hst. specialize (Hm st Hst). unfold try_catch.
  destruct (m st) as [[a|e|] st']; [done| |done]. destruct (p e); [by apply Hh|done].
Qed.
Lemma keeps_joinImpl : keeps joinImpl.
Proof.
  intros st Hst. unfold joinImpl. destruct (network_available st.2).
  - revert st Hst. change (keeps (do! loadDevice in do! createSendTransport in
      do! createRecvTransport in announce)).
    unfold loadDevice, createSendTransport, createRecvTransport, createTransportOf, announce. preserve.
  - revert st Hst. change (keeps (emit (onError ERR_CONNECTION_LOST))). preserve.
Qed.
Lemma keeps_localVideoTrack : keeps localVideoTrack.
Proof.
  unfold localVideoTrack. apply preserves_bind; [preserve|]. intros e.
  destruct (mLocalVideoTrack (locals e)); [preserve|]. unfold createVideoTrackImpl.
  apply preserves_bind; [|intros ?; preserve]. apply preserves_bind; [preserve|]. intros e'.
  apply preserves_bind; [|intros ?; preserve]. destruct (cameraDirection _); preserve.
Qed.
Lemma keeps_localAudioTrack : keeps localAudioTrack.
Proof.
  unfold localAudioTrack. apply preserves_bind; [preserve|]. intros e.
  destruct (mLocalAudioTrack (locals e)); preserve.
Qed.
#[local] Hint Resolve keeps_localVideoTrack keeps_localAudioTrack : preserve.
Lemma keeps_sending : keeps sending.
Proof. apply preserves_bind; [preserve|]. intros e. destruct (mSendTransport e); preserve. Qed.
#[local] Hint Resolve keeps_sending : preserve.
Lemma keeps_produceTrack l track : keeps (produceTrack l track).
Proof. unfold produceTrack. preserve. Qed.
Lemma keeps_storeProducer p : keeps (storeProducer p).
Proof. unfold storeProducer. preserve. Qed.
#[local] Hint Resolve keeps_produceTrack keeps_storeProducer : preserve.
Lemma keeps_canEnable kind current m : keeps m -> keeps (canEnable kind current m).
Proof.
  intros Hm. unfold canEnable. apply preserves_bind; [preserve|]. intros e.
  destruct (current _); [preserve|]. apply preserves_bind; [preserve|]. intros loaded.
  destruct (negb loaded); [preserve|]. apply preserves_bind; [preserve|]. intros can.
  destruct (negb can); [preserve|]. apply preserves_bind; [preserve|]. intros e'.
  destruct (mSendTransport e'); preserve.
Qed.
Lemma keeps_with_network (m : EM Z) : keeps m -> keeps (with_network m).
Proof.
  intros Hm st Hst. unfold with_network. destruct (network_available st.2); [by apply Hm|].
  revert st Hst. change (keeps (do! emit (onError ERR_CONNECTION_LOST) in ret (-1))). preserve.
Qed.
Lemma keeps_enableCameraImpl : keeps enableCameraImpl.
Proof.
  unfold enableCameraImpl. apply preserves_bind; [preserve|]. intros _. apply preserves_bind.
  - apply keeps_try_catch; [apply keeps_canEnable; preserve|]. intros _.
    apply preserves_bind; [preserve|]. intros e. destruct (mLocalVideoTrack _); preserve.
  - intros []; [preserve|]. apply preserves_bind; [preserve|]. intros _.
    apply preserves_bind; [preserve|]. intros e. apply preserves_when, preserves_bind; [|preserve].
    apply keeps_with_network. preserve.
Qed.
Lemma keeps_enableAudioImpl : keeps enableAudioImpl.
Proof.
  unfold enableAudioImpl. apply preserves_bind; [|preserve].
  apply keeps_try_catch; [apply keeps_canEnable; preserve|]. intros _.
  apply preserves_bind; [preserve|]. intros e. destruct (mLocalAudioTrack _); preserve.
Qed.
Lemma keeps_disableImpl current reset : keeps (disableImpl current reset).
Proof.
  apply preserves_bind; [preserve|]. intros e. destruct (current _); [|preserve].
  do 3 (apply preserves_bind; [preserve|intros ?]). apply preserves_bind; [|intros ?; preserve].
  apply keeps_try_catch; preserve.
Qed.
Lemma keeps_enableDataProducer current update l label protocol n t info :
  keeps (enableDataProducer current update l label protocol n t info).
Proof.
  apply preserves_bind; [preserve|]. intros e. destruct (current _); [preserve|].
  apply keeps_try_catch; preserve.
Qed.
Lemma keeps_run_task t : is_destroy t = false -> keeps (run_task t).
Proof.
  intros Ht. destruct t; simpl; try done; try (by preserve).
  - apply keeps_try_catch; [apply keeps_joinImpl|preserve].
  - apply keeps_try_catch; preserve.
  - apply keeps_enableCameraImpl.
  - apply keeps_disableImpl.
  - apply keeps_enableAudioImpl.
  - apply keeps_disableImpl.
  - apply keeps_enableDataProducer.
  - apply keeps_enableDataProducer.
  - apply preserves_bind; [preserve|]. intros e. destruct (mChatDataProducer _); [|preserve].
    apply keeps_try_catch; [destruct text|]; preserve.
  - apply preserves_bind; [preserve|]. intros e. destruct (mBotDataProducer _); [|preserve].
    apply keeps_try_catch; [destruct text|]; preserve.
Qed.
End Queue.
