(* ===== verification/RtcEngineSample.v ===== *)
(** * The engine: a run

    Android, the server and fastjson as functions that are enough for a call with one peer. *)

From stdpp Require Import gmap.
From S2P Require Import Prelude Json JsonDump JsonParser OrtcValidate Ortc OrtcExtended MediaSection RemoteSdp.
From S2P Require Import MediaSectionSpec AnswerSection SdpCapabilitiesSpec PeerConnection Handler.
From S2P Require Import HandlerSpec SendHandlerSpec Transport SendTransport RecvTransport TransportSpec.
From S2P Require Import SdpWriter.
From S2P Require Import Device Fastjson RoomStore Droid DroidSpec Capture RtcEngine RtcEngineInv.

Definition text_of (v : json) : string := match dump v with Ok s => s | _ => "" end.

#[export] Instance EchoJson : Fastjson := {|
  castToString := text_of;
  castToBoolean _ := None;
  castToLong _ := None;
  castToJSONObject _ := None;
  castToJSONArray _ := None;
  toJSONString := text_of;
  parseObject s := match json_parse s with Ok (JObject m) => Some (JObject m) | _ => None end
|}.
#[export] Instance EchoCapture : Capture := {|
  AudioSource := unit; VideoSource := unit; Capturer := string;
  create_factory w := w;
  create_audio_source w := (tt, w);
  create_video_source w := (tt, w);
  create_audio_track id _ w := (id, w);
  create_video_track id _ w := (id, w);
  camera_names _ := ["back"; "front"];
  is_front_facing name := String.eqb name "front";
  create_capturer name w := (name, w);
  start_capture _ _ _ _ _ w := w;
  switch_camera _ w := w;
  dispose_capturer _ w := w;
  dispose_audio_source _ w := w;
  dispose_video_source _ w := w;
  dispose_factory w := w;
  dispose_track _ w := w;
  Renderer := unit;
  init_renderer _ w := w;
  add_sink _ _ w := w
|}.
#[export] Instance EchoChannels : DataChannels := {|
  channel_label _ := "chat"; channel_protocol _ := ""; channel_state _ _ := kOpen;
  buffered_amount _ _ := 0; send_data _ _ _ w := w
|}.

Definition sampleUser : json :=
  jobj [("id", JString "peer"); ("displayName", JString "Peer"); ("device", JNull)].
Definition sampleAnswer (code : string) (req : json) : json :=
  match code with
  | "INIT_CLIENT" => jobj [("serverRoomId", JString "room")]
  | "GET_ROUTER_RTPCAPABILITIES" => sampleRemote
  | "CREATE_WEBRTC_TRANSPORT" =>
      jobj [("id", JString "transport"); ("iceParameters", sampleIce);
            ("iceCandidates", sampleCandidates); ("dtlsParameters", sampleDtls);
            ("sctpParameters", sampleSctpParameters)]
  | "JOIN_ROOM_MEDIASOUP" => jobj [("users", JArray [sampleUser])]
  | "CREATE_USER_PRODUCE" => jobj [("id", JString "producer")]
  | "CREATE_USER_TEXT_PRODUCE" => jobj [("id", jget "label" req)]
  | _ => JObject []
  end.
#[export] Instance EchoServices : Services := {|
  network_available _ := true;
  request code req w :=
    (match code, jget "userToken" req with
     | "INIT_CLIENT", JString "forged" => Answered 1 JNull
     | _, _ => Answered 0 (sampleAnswer code req)
     end, w);
  close_client w := w;
  host := "host"; build_device := "device"; build_codename := "codename"
|}.

Definition sampleConfig (token : string) : RtcEngineConfig :=
  {| channelProfile := 0; roomId := Some "1"; userId := Some "me"; token := Some token;
     appId := Some "app"; config_displayName := Some "Me"; backgroundUrl := None |}.

(** The server announces the video of the peer. *)
Definition sampleConsumer : json :=
  jobj [("type", JString "simple"); ("userId", JString "peer"); ("producerPaused", JBool false);
        ("id", JString "consumer"); ("producerId", JString "remote"); ("kind", JString "video");
        ("rtpParameters", sampleOffer); ("appData", JObject [])].
(** The offers of webrtc: the sections of the data channels and of the camera. *)
Definition offerLines : list string :=
  ["v=0"; "o=- 1 1 IN IP4 0.0.0.0"; "s=-"; "t=0 0"; "a=fingerprint:sha-256 82:5A";
   "m=application 9 UDP/DTLS/SCTP webrtc-datachannel"; "c=IN IP4 0.0.0.0";
   "a=setup:actpass"; "a=mid:data"; "a=sctp-port:5000"; "a=max-message-size:262144"].
Definition cameraLines : list string :=
  ["m=video 9 UDP/TLS/RTP/SAVPF 96 97"; "c=IN IP4 0.0.0.0";
   "a=rtpmap:96 VP8/90000"; "a=rtpmap:97 rtx/90000"; "a=fmtp:97 apt=96"; "a=setup:actpass";
   "a=mid:0"; "a=extmap:3 " +:+ absSendTimeUri; "a=sendonly"; "a=rtcp-mux";
   "a=ssrc-group:FID 1111 2222"; "a=ssrc:1111 cname:c"; "a=ssrc:2222 cname:c"].
Definition chatOffer : string := String.concat crlf (offerLines ++ [""]).
Definition cameraOffer : string := String.concat crlf (offerLines ++ cameraLines ++ [""]).

(** Each action in a state of webrtc: joining, a camera, a consumer. *)
Definition sampleCall : list (action * World) :=
  [(RunWork, ""); (Call ApiJoinChannel, ""); (Deliver 0, ""); (RunWork, sample_offer);
   (Deliver 1, ""); (RunWork, chatOffer); (RunWork, chatOffer);
   (Call ApiEnableVideo, ""); (RunMain, ""); (RunWork, cameraOffer);
   (Notified "CREATE_USER_CONSUMER" sampleConsumer, "")].
