(* ===== verification/RtcEngineSpec.v ===== *)
(** * The engine: the theorems *)

From stdpp Require Import gmap.
From S2P Require Import Prelude Json JsonDump JsonParser OrtcValidate Ortc MediaSection RemoteSdp.
From S2P Require Import PeerConnection Handler HandlerSpec Transport SendTransport RecvTransport TransportSpec.
From S2P Require Import Device Fastjson RoomStore Droid DroidSpec Capture RtcEngine RtcEngineInv.
From S2P Require Import RtcEngineCalm RtcEngineMoves RtcEngineSound RtcEngineSteps RtcEngineConsumers.
From S2P Require Import SdpCapabilitiesSpec RtcEngineSample RtcEngineDestroy RtcEngineQueue JsonParserSpec.

(** The ids of the objects of several maps. *)
Definition all_ids {A} (key : A -> string) (l : list (Registry A)) : list string :=
  mjoin ((fun r => key <$> objects r) <$> l).

Lemma all_ids_distinct {A} (key : A -> string) (l : list (Registry A)) :
  NoDup (all_ids key l) -> distinct_ids key l.
Proof.
  assert (Hin : forall (l : list (Registry A)) i r p a, l !! i = Some r -> objects r !! p = Some a ->
    key a ∈ all_ids key l).
  { clear l. induction l as [|x l IH]; intros i r p a Hr Ha; [done|]. cbn. apply elem_of_app.
    destruct i as [|i]; [left|right; by eapply IH]. injection Hr as ->.
    apply list_elem_of_fmap. exists a. split; [done|]. by eapply list_elem_of_lookup_2. }
  induction l as [|x l IH]; intros Hd; [by intros []|]. cbn in Hd.
  apply NoDup_app in Hd as (Hx & Hno & Hl). specialize (IH Hl).
  assert (Hx' : forall p a, objects x !! p = Some a -> key a ∈ key <$> objects x).
  { intros p a Ha. apply list_elem_of_fmap. exists a. split; [done|]. by eapply list_elem_of_lookup_2. }
  intros [|i] [|j] r r' p q a b Hr Hr' Ha Hb Heq; simpl in Hr, Hr'.
  - injection Hr as ->. injection Hr' as ->. split; [done|].
    eapply (NoDup_lookup _ p q (key a) Hx); rewrite list_lookup_fmap; [by rewrite Ha|].
    by rewrite Hb, Heq.
  - injection Hr as ->. destruct (Hno (key a)); [by eapply Hx'|]. rewrite Heq. by eapply Hin.
  - injection Hr' as ->. destruct (Hno (key b)); [by eapply Hx'|]. rewrite <- Heq. by eapply Hin.
  - destruct (IH i j r r' p q a b Hr Hr' Ha Hb Heq). split; congruence.
Qed.

Section Spec.
Context `{W : Webrtc} `{!Capture} `{!DataChannels} `{!Services} `{!Fastjson}.

(** ** The states of the engine *)

(** The server never gives an id twice. *)
Definition server_ids_distinct (e : Engine) : bool :=
  let s := summarize e in
  bool_decide (NoDup (all_ids producer_id (seen_producers <$> sends s))) &&
  bool_decide (NoDup (all_ids dataProducer_id (seen_dataProducers <$> sends s))) &&
  bool_decide (NoDup (all_ids consumer_id (seen_consumers <$> recvs s))) &&
  bool_decide (NoDup (all_ids dataConsumer_id (seen_dataConsumers <$> recvs s))).

Lemma server_ids_unique e : server_ids_distinct e = true -> unique (summarize e).
Proof.
  unfold server_ids_distinct. rewrite !andb_true_iff, !bool_decide_eq_true.
  intros [[[? ?] ?] ?]. split_and!; by apply all_ids_distinct.
Qed.

Definition has_crashed (st : Engine * World) : bool := crashed (threads st.1).

(** The application, the threads, the server and webrtc act in any order while the process
    runs. *)
Inductive engine_reachable : Engine * World -> Prop :=
| engine_started c w : engine_reachable (Engine_new c, w)
| engine_acted st a :
    engine_reachable st -> has_crashed st = false -> fst (act a st) <> Undef ->
    server_ids_distinct (snd (act a st)).1 = true -> engine_reachable (snd (act a st))
| engine_proceeded e w w' : engine_reachable (e, w) -> engine_reachable (e, w').

(** ** Steps *)

(** The invariant holds afterwards unless the process has crashed. *)
Definition safe (m : EM unit) : Prop := forall st,
  engine_ok st.1 -> unique (summarize (snd (m st)).1) -> fst (m st) <> Undef ->
  has_crashed (snd (m st)) = false -> engine_ok (snd (m st)).1.

Lemma crashed_set e : crashed (threads (on_threads set_crashed e)) = true.
Proof. by destruct e as [???????????????[]]. Qed.
Lemma sum_crashed e : summarize (on_threads set_crashed e) = summarize e.
Proof. by destruct e as [???????????????[]]. Qed.
Lemma safe_caught {A} (m : EM A) : sound m -> safe (caught m).
Proof.
  intros Hm st Hok. pose proof (sound_keeps _ Hm st Hok) as Hk. unfold caught, has_crashed.
  destruct (m st) as [[a|e|] st1]; cbn [fst snd] in *;
    [intros; by apply Hk| |done].
  case_bool_decide as He; cbn [fst]; [by rewrite crashed_set|auto].
Qed.
Lemma safe_uncaught (m : EM unit) : sound m -> safe (uncaught m).
Proof.
  intros Hm st Hok. pose proof (sound_keeps _ Hm st Hok) as Hk. unfold uncaught, has_crashed.
  destruct (m st) as [[a|e|] st1]; cbn [fst snd] in *;
    [intros; by apply Hk| |done]. by rewrite crashed_set.
Qed.
Lemma safe_sound (m : EM unit) : sound m -> (forall st, survives (fst (m st))) -> safe m.
Proof. intros Hm Hs st Hok Hu _ _. by apply (sound_keeps _ Hm st). Qed.
(** Something that leaves the invariant alone comes first. *)
Lemma safe_after (m : EM unit) (st1 : Engine * World) :
  safe m -> forall st, calm_at st st1 -> engine_ok st.1 ->
  unique (summarize (snd (m st1)).1) -> fst (m st1) <> Undef ->
  has_crashed (snd (m st1)) = false -> engine_ok (snd (m st1)).1.
Proof. intros Hm st Hc Hok. apply Hm. by apply (calm_keeps st). Qed.

(** *** The calls of the application *)

Lemma summary_ok_ended s s' :
  summary_ok s -> sends s' = sends s -> recvs s' = recvs s -> sendNow s' = sendNow s ->
  recvNow s' = recvNow s -> (forall l, media_of l s' = media_of l s) ->
  (forall l, data_of l s' = data_of l s) -> mediaHeard s' = mediaHeard s ->
  dataHeard s' = dataHeard s -> holders s' = holders s -> wrappers s' = wrappers s ->
  published s' = published s -> members s' = members s -> alive s' = alive s -> summary_ok s'.
Proof.
  intros Hs E1 E2 E3 E4 E5 E6 E7 E8 E9 E10 E11 E12 E13.
  split; unfold live_producer, live_dataProducer, live_consumer, unique;
    rewrite ?E1, ?E2, ?E3, ?E4, ?E7, ?E8, ?E9, ?E10, ?E11, ?E12, ?E13; try apply Hs.
  - intros l p. rewrite E5. apply (ok_media _ Hs).
  - intros l p. rewrite E6. apply (ok_data _ Hs).
Qed.

Lemma sound_nativeDestroy : sound nativeDestroy.
Proof.
  assert (Hrun : forall st, mClosed st.1 = true /\ snd (nativeDestroy st) = st \/
    mClosed st.1 = false /\ (snd (nativeDestroy st)).1 =
      (if looperQuit (threads st.1) then set_mClosed st.1
       else on_threads (on_workQueue (fun q => q ++ [RunDestroy])) (set_mClosed st.1))).
  { intros [e w]. unfold nativeDestroy, bind, engine, post, modify. simpl.
    destruct (mClosed e); [by left|right]. split; [done|]. simpl.
    destruct e as [???????????????[?? [] ??]]; reflexivity. }
  split; intros st; destruct (Hrun st) as [[Hc ->]|[Hc ->]]; try done.
  - destruct st as [[???????????????[?? [] ??]] ?]; done.
  - intros [Hs Hq] _ _. unfold queue_ok in Hq. change (ended (summarize st.1)) with (mClosed st.1) in Hq.
    rewrite Hc in Hq. destruct Hq as (Hq & Ha & Hf).
    change (stopped (summarize st.1)) with (looperQuit (threads st.1)) in Hq. rewrite Hq. split.
    + eapply summary_ok_ended; [exact Hs|..]; try (intros []); by destruct st as [[???????????????[]] ?].
    + unfold queue_ok, tasks in *. destruct st as [[???????????????[]] ?]. simpl in *.
      right. split_and!; try done. by rewrite List.filter_app, Hf.
Qed.
Lemma sound_api c : sound (api c).
Proof.
  destruct c; simpl; unfold nativeSetupCameraConfig; try (by sounds);
    try (apply sound_calm; intros st0; by eauto with preserve).
  apply sound_bind; [apply sound_nativeDestroy|intros _; sounds].
Qed.

(** *** The tasks *)

Lemma sound_run_task t : is_destroy t = false -> sound (run_task t).
Proof.
  intros Ht. destruct t; simpl; try done; try (by sounds).
  - unfold rethrow. apply sound_try_catch; [done|apply sound_joinImpl|intros ?; sounds].
  - apply sound_enableCameraImpl.
  - apply sound_disableCameraImpl.
  - apply sound_enableAudioImpl.
  - apply sound_disableAudioImpl.
  - apply (sound_enableDataProducer mChatDataProducer ChatListener).
  - apply (sound_enableDataProducer mBotDataProducer BotListener).
Qed.

Definition popped (q : list task) (st : Engine * World) : Engine * World :=
  (on_threads (on_workQueue (fun _ => q)) st.1, st.2).
Lemma popped_sum q st : summarize (popped q st).1 = summarize st.1 /\ tasks (popped q st).1 = q /\
  threads (popped q st).1 = on_workQueue (fun _ => q) (threads st.1).
Proof. by destruct st as [[???????????????[]] ?]. Qed.
Lemma run_work_cons t q (st : Engine * World) :
  tasks st.1 = t :: q -> run_work st = uncaught (run_task t) (popped q st).
Proof. intros Ht. unfold run_work, bind at 1, engine. unfold tasks in Ht. cbn [fst]. by rewrite Ht. Qed.

Lemma run_main_cons t q (st : Engine * World) :
  mainQueue (threads st.1) = t :: q ->
  run_main_thread st = uncaught (run_main t) (on_threads (on_mainQueue (fun _ => q)) st.1, st.2).
Proof. intros Ht. unfold run_main_thread, bind at 1, engine. cbn [fst]. by rewrite Ht. Qed.
Lemma deliver_some i l a (st : Engine * World) :
  futures (threads st.1) !! i = Some (l, a) ->
  deliver i st = caught (run_listener l a) (on_threads (on_futures (delete i)) st.1, st.2).
Proof. intros Hf. unfold deliver, bind at 1, engine. cbn [fst]. by rewrite Hf. Qed.

(** Taking a task that is not the destroy leaves the invariant. *)
Lemma calm_popped t q (st : Engine * World) : tasks st.1 = t :: q -> is_destroy t = false -> calm_at st (popped q st).
Proof.
  intros Ht Hd. destruct (popped_sum q st) as (E1 & E2 & _). split; [done|]. rewrite E2, Ht.
  unfold queue_ok. simpl. rewrite Hd. destruct (mClosed _); [|done].
  intros [(_ & ? & _)|?]; [done|by right].
Qed.

Lemma destroy_head q (st : Engine * World) :
  engine_ok st.1 -> tasks st.1 = RunDestroy :: q ->
  ended (summarize st.1) = true /\ alive (summarize st.1) = true /\ List.filter is_destroy q = [].
Proof.
  intros [_ Hq] Ht. unfold queue_ok in Hq. rewrite Ht in Hq. simpl in Hq. simpl.
  destruct (mClosed st.1); [|by destruct Hq as (_ & _ & ?)].
  destruct Hq as [(_ & ? & _)|(_ & ? & Hf)]; [done|]. by injection Hf.
Qed.

(** The task of a destroy, from every state that satisfies the invariant. *)
Lemma run_destroy_task q (st : Engine * World) :
  engine_ok st.1 -> tasks st.1 = RunDestroy :: q ->
  exists st' s1 s2, act RunWork st = (Ok tt, st') /\
    threads st'.1 = quit_looper (threads st.1) /\
    disposes_send (summarize st.1) s1 /\ disposes_recv s1 s2 /\
    summarize st'.1 = put_stopped (put_holders ∅ (put_dead s2)).
Proof.
  intros Hok Ht. destruct (destroy_head q st Hok Ht) as (_ & Ha & _).
  destruct (popped_sum q st) as (E1 & _ & E3). destruct Hok as [Hs _].
  destruct (run_destroyImpl (popped q st)) as (st' & s1 & s2 & Hrun & Hthr & D1 & D2 & Hsum);
    [by rewrite E1..|].
  exists st', s1, s2. simpl. rewrite (run_work_cons _ _ _ Ht). unfold uncaught. simpl. rewrite Hrun.
  rewrite E1 in D1. rewrite Hthr, E3. split_and!; try done. by destruct (threads st.1).
Qed.
Lemma destroy_task_ok q (st : Engine * World) :
  engine_ok st.1 -> tasks st.1 = RunDestroy :: q ->
  unique (summarize (snd (act RunWork st)).1) -> engine_ok (snd (act RunWork st)).1.
Proof.
  intros Hok Ht Hu. destruct (run_destroy_task q st Hok Ht) as (st' & s1 & s2 & Hrun & Hthr & D1 & D2 & Hsum).
  rewrite Hrun in *. cbn [fst snd] in *. rewrite Hsum in Hu.
  destruct (destroys_ok _ s1 s2 (proj1 Hok) D1 D2 Hu) as (Hs & Hd & Hst & He).
  unfold engine_ok. rewrite Hsum. split; [done|]. unfold queue_ok. rewrite He.
  destruct (destroy_head q st Hok Ht) as (-> & _). left. split_and!; try done.
  unfold tasks. rewrite Hthr. by destruct (threads st.1).
Qed.

Lemma act_safe a : safe (act a).
Proof.
  destruct a; cbn [act].
  - apply safe_caught, sound_api.
  - intros st Hok. destruct (mainQueue (threads st.1)) as [|t q] eqn:Hq.
    { assert (run_main_thread st = (Ok tt, st)) as -> by (unfold run_main_thread, bind, engine;
        cbn [fst]; by rewrite Hq). done. }
    rewrite (run_main_cons t q st Hq).
    assert (Hm : sound (run_main t)) by sounds.
    apply (safe_after (uncaught (run_main t)) _ (safe_uncaught _ Hm) st); [|done].
    split; by destruct st as [[???????????????[]] ?].
  - intros st Hok. destruct (tasks st.1) as [|t q] eqn:Ht.
    { assert (run_work st = (Ok tt, st)) as -> by (unfold run_work, bind, engine, tasks in *;
        cbn [fst]; by rewrite Ht). done. }
    destruct (is_destroy t) eqn:Hd.
    + destruct t; try done. intros Hu _ _. by apply (destroy_task_ok q).
    + rewrite (run_work_cons _ _ _ Ht).
      apply (safe_after (uncaught (run_task t)) _ (safe_uncaught _ (sound_run_task t Hd)) st); [|done].
      by eapply calm_popped.
  - intros st Hok. destruct (futures (threads st.1) !! i) as [[l a]|] eqn:Hf.
    2: { assert (deliver i st = (Ok tt, st)) as -> by (unfold deliver, bind, engine;
           cbn [fst]; by rewrite Hf). done. }
    rewrite (deliver_some i l a st Hf).
    apply (safe_after (caught (run_listener l a)) _ (safe_caught _ (sound_run_listener l a)) st); [|done].
    split; by destruct st as [[???????????????[]] ?].
  - apply safe_caught, sound_process.
  - apply safe_caught, sound_dataProducerState.
  - apply safe_caught, sound_calm. intros st0. apply calms_dataConsumerState.
  - apply safe_caught. sounds.
  - apply safe_caught, sound_calm. intros st0. apply calms_sendConnectionState.
  - apply safe_caught, sound_calm. intros st0. apply calms_recvConnectionState.
  - apply safe_sound; [sounds|done].
Qed.

Lemma engine_new_ok c : engine_ok (Engine_new c).
Proof.
  split; [|by split_and!]. by split; try done; intros [].
Qed.
Lemma reachable_ok st : engine_reachable st -> has_crashed st = false -> engine_ok st.1.
Proof.
  induction 1 as [c w|st a _ IH Hc Hu Hids|e w w' _ IH]; intros Hcr.
  - apply engine_new_ok.
  - apply act_safe; auto. by apply server_ids_unique.
  - auto.
Qed.

(** ** The theorems *)

Definition open_recvTransport (e : Engine) (i : nat) (t : JTransport RecvTransport) : Prop :=
  recvTransports e !! i = Some t /\ freed t = false /\
  transport_closed (recv_base (native t)) = false.
Definition open_sendTransport (e : Engine) (i : nat) (t : JTransport SendTransport) : Prop :=
  sendTransports e !! i = Some t /\ freed t = false /\
  transport_closed (send_base (native t)) = false.

Lemma sends_inv e i v : sends (summarize e) !! i = Some v ->
  exists t, sendTransports e !! i = Some t /\ v = view_send t.
Proof. simpl. rewrite list_lookup_fmap. intros (t & Ht & ->)%fmap_Some. eauto. Qed.
Lemma recvs_inv e i v : recvs (summarize e) !! i = Some v ->
  exists t, recvTransports e !! i = Some t /\ v = view_recv t.
Proof. simpl. rewrite list_lookup_fmap. intros (t & Ht & ->)%fmap_Some. eauto. Qed.

Lemma live_producer_engine e l p :
  live_producer (summarize e) l p -> exists t a, open_sendTransport e p.1 t /\
    all_producers (native t) !! p.2 = Some a /\ producer_closed a = false /\
    wrapper_producer <$> store_producers (mStore e) !! producer_id a = Some p.
Proof.
  intros (v & a & Hv & [Hc Hf] & Ha & Hcl & _ & Hp).
  apply sends_inv in Hv as (t & Ht & ->). exists t, a. split_and!; try done.
  simpl in Hp. by rewrite lookup_fmap in Hp.
Qed.


(** *** Joining *)

Lemma sends_length e : length (sends (summarize e)) = length (sendTransports e).
Proof. apply length_fmap. Qed.
Lemma recvs_length e : length (recvs (summarize e)) = length (recvTransports e).
Proof. apply length_fmap. Qed.
(** A computation that is calm and returns. *)
Lemma calm_ok {A} (m : EM A) st a st' :
  (forall st0, preserves (calm_at st0) m) -> m st = (Ok a, st') -> summarize st'.1 = summarize st.1.
Proof. intros Hm Hr. pose proof (calm_of m st Hm) as [E _]. by rewrite Hr in E. Qed.

Lemma createSendTransport_ok st st' :
  createSendTransport st = (Ok tt, st') -> exists t, new_send t /\
    summarize st'.1 = put_sendNow (Some (length (sendTransports st.1)))
      (put_sends (sends (summarize st.1) ++ [view_send t]) (summarize st.1)).
Proof.
  unfold createSendTransport. intros Hr. apply bind_ok in Hr as (caps & st1 & R1 & Hr).
  assert (E1 : summarize st1.1 = summarize st.1)
    by (eapply calm_ok; [|exact R1]; intros; by eauto with preserve).
  apply bind_ok in Hr as (t & st2 & R2 & Hr). exists t.
  assert (E2 : summarize st2.1 = summarize st1.1).
  { eapply calm_ok; [|exact R2]. intros st0. apply calms_createTransportOf.
    intros; eexists; reflexivity. }
  split; [eapply createTransportOf_ok; [|exact R2]; apply CreateSendTransport_fresh|].
  apply bind_ok in Hr as ([] & st3 & R3 & Hr). unfold modify in R3. injection R3 as <-.
  pose proof (fun Hm => calm_ok _ _ _ _ Hm Hr) as E3. cbn [fst] in E3.
  rewrite E3 by (intros; by eauto with preserve).
  assert (El : length (sendTransports st2.1) = length (sendTransports st.1))
    by (by rewrite <- !sends_length, E2, E1).
  rewrite El, <- E1, <- E2. destruct st2 as [[] ?]. unfold summarize. simpl. by rewrite fmap_app.
Qed.

Lemma createRecvTransport_ok st st' :
  createRecvTransport st = (Ok tt, st') -> exists t, new_recv t /\
    summarize st'.1 = put_recvNow (Some (length (recvTransports st.1)))
      (put_recvs (recvs (summarize st.1) ++ [view_recv t]) (summarize st.1)).
Proof.
  unfold createRecvTransport. unfold bind at 1, engine. intros Hr.
  apply bind_ok in Hr as (t & st2 & R2 & Hr). exists t.
  assert (E2 : summarize st2.1 = summarize st.1).
  { eapply calm_ok; [|exact R2]. intros st0. apply calms_createTransportOf.
    intros; eexists; reflexivity. }
  split; [eapply createTransportOf_ok; [|exact R2]; apply CreateRecvTransport_fresh|].
  unfold modify in Hr. injection Hr as <-.
  assert (El : length (recvTransports st2.1) = length (recvTransports st.1))
    by (by rewrite <- !recvs_length, E2).
  rewrite El, <- E2. destruct st2 as [[] ?]. unfold summarize. simpl. by rewrite fmap_app.
Qed.

(** The transports after the creation of [v]. *)
Lemma joined_send (e e' : Engine) t :
  sends (summarize e') = sends (summarize e) ++ [view_send t] -> new_send t ->
  (forall i, view_send <$> sendTransports e' !! i = view_send <$> (sendTransports e ++ [t]) !! i) /\
  exists t', open_sendTransport e' (length (sendTransports e)) t'.
Proof.
  simpl. intros E Ht.
  assert (Hi : forall i, view_send <$> sendTransports e' !! i =
                         view_send <$> (sendTransports e ++ [t]) !! i).
  { intros i. by rewrite <- !list_lookup_fmap, fmap_app, E. }
  split; [exact Hi|]. specialize (Hi (length (sendTransports e))).
  rewrite list_lookup_middle in Hi by done. simpl in Hi.
  apply fmap_Some in Hi as (t' & Ht' & Hv). unfold new_send in Ht. rewrite Ht in Hv.
  exists t'. injection Hv. intros. by split_and!.
Qed.

Lemma joined_recv (e e' : Engine) t :
  recvs (summarize e') = recvs (summarize e) ++ [view_recv t] -> new_recv t ->
  (forall i, view_recv <$> recvTransports e' !! i = view_recv <$> (recvTransports e ++ [t]) !! i) /\
  exists t', open_recvTransport e' (length (recvTransports e)) t'.
Proof.
  simpl. intros E Ht.
  assert (Hi : forall i, view_recv <$> recvTransports e' !! i =
                         view_recv <$> (recvTransports e ++ [t]) !! i).
  { intros i. by rewrite <- !list_lookup_fmap, fmap_app, E. }
  split; [exact Hi|]. specialize (Hi (length (recvTransports e))).
  rewrite list_lookup_middle in Hi by done. simpl in Hi.
  apply fmap_Some in Hi as (t' & Ht' & Hv). unfold new_recv in Ht. rewrite Ht in Hv.
  exists t'. injection Hv. intros. by split_and!.
Qed.

(** The capabilities of the device are only there when it is loaded. *)
Lemma getRtpCapabilities_loaded (st st' : Engine * World) v :
  on_device JDevice_getRtpCapabilities st = (Ok v, st') ->
  exists d, mDevice st.1 = Some d /\ loaded d = true /\ mDevice st'.1 = Some d.
Proof.
  unfold on_device, JDevice_getRtpCapabilities, checkDeviceExists. simpl.
  destruct (mDevice st.1) as [d|]; [|by intros [= ]].
  unfold native_try, GetRtpCapabilities, ensureLoaded, bind, get, throw_if. simpl.
  destruct (loaded d) eqn:Hl; simpl; [|by intros [= ]]. intros Hr. exists d.
  destruct (dump _); simpl in Hr; injection Hr as _ <-; by destruct st as [[] ?].
Qed.

Lemma getSctpCapabilities_device (st st' : Engine * World) v :
  on_device JDevice_getSctpCapabilities st = (Ok v, st') -> mDevice st'.1 = mDevice st.1.
Proof.
  unfold on_device, JDevice_getSctpCapabilities, checkDeviceExists. simpl.
  destruct (mDevice st.1) as [d|] eqn:Hd; [|by intros [= ]].
  unfold native_try, GetSctpCapabilities, ensureLoaded, bind, get, throw_if. simpl.
  destruct (loaded d); simpl; [|by intros [= ]]. intros Hr.
  destruct (dump _); simpl in Hr; injection Hr as _ <-; by destruct st as [[] ?].
Qed.
Lemma call_server_device (st st' : Engine * World) code req a :
  call_server code req st = (Ok a, st') -> st'.1 = st.1.
Proof. unfold call_server. destruct (send_request _ _ _ _). by intros [= _ <-]. Qed.
Lemma lift_ok {S A} (r : result A) (st st' : S) a : lift r st = (Ok a, st') -> st' = st.
Proof. by destruct r; intros [= ]. Qed.

Lemma announce_loaded (st st' : Engine * World) :
  announce st = (Ok tt, st') -> exists d, mDevice st'.1 = Some d /\ loaded d = true.
Proof.
  unfold announce. unfold bind at 1, engine. intros Hr.
  do 4 (apply bind_ok in Hr as (? & ? & _ & Hr)).
  apply bind_ok in Hr as (? & st1 & (d & _ & Hl & E1)%getRtpCapabilities_loaded & Hr).
  apply bind_ok in Hr as (? & st2 & E2%getSctpCapabilities_device & Hr).
  apply bind_ok in Hr as (? & st3 & ->%lift_ok & Hr).
  apply bind_ok in Hr as (? & st4 & ->%lift_ok & Hr).
  apply bind_ok in Hr as (? & st5 & E5%call_server_device & Hr).
  unfold when_answered, modify in Hr. injection Hr as <-. exists d. split; [|done].
  rewrite E5. simpl. destruct st2 as [[] ?]. simpl in *. congruence.
Qed.

(** C14. Joining connects the engine.  A join that returns while there is a network leaves the
    device loaded and gives the engine a new send transport and a new receive transport, both
    open and in place of those it had; the transports that exist already, with their producers
    and consumers, are as they were. *)
Theorem join_connects (st st' : Engine * World)
    (Hnet : network_available st.2 = true) (Hjoin : joinImpl st = (Ok tt, st')) :
  (exists d, mDevice st'.1 = Some d /\ loaded d = true) /\
  mSendTransport st'.1 = Some (length (sendTransports st.1)) /\
  (exists t, open_sendTransport st'.1 (length (sendTransports st.1)) t) /\
  (forall i, (i < length (sendTransports st.1))%nat ->
     view_send <$> sendTransports st'.1 !! i = view_send <$> sendTransports st.1 !! i) /\
  mRecvTransport st'.1 = Some (length (recvTransports st.1)) /\
  (exists t, open_recvTransport st'.1 (length (recvTransports st.1)) t) /\
  (forall i, (i < length (recvTransports st.1))%nat ->
     view_recv <$> recvTransports st'.1 !! i = view_recv <$> recvTransports st.1 !! i).
Proof.
  unfold joinImpl in Hjoin. rewrite Hnet in Hjoin.
  apply bind_ok in Hjoin as ([] & st1 & Hload & Hjoin).
  assert (E1 : summarize st1.1 = summarize st.1)
    by (eapply calm_ok; [|exact Hload]; intros; by eauto with preserve).
  apply bind_ok in Hjoin as ([] & st2 & (t & Ht & E2)%createSendTransport_ok & Hjoin).
  apply bind_ok in Hjoin as ([] & st3 & (u & Hu & E3)%createRecvTransport_ok & Hjoin).
  pose proof (announce_loaded _ _ Hjoin) as Hd.
  assert (E4 : summarize st'.1 = summarize st3.1)
    by (eapply calm_ok; [|exact Hjoin]; intros; by eauto with preserve).
  assert (Ls : length (sendTransports st1.1) = length (sendTransports st.1))
    by (by rewrite <- !sends_length, E1).
  assert (Lr : length (recvTransports st2.1) = length (recvTransports st.1)).
  { rewrite <- !recvs_length, E2, <- E1. by destruct (summarize st1.1). }
  rewrite Ls, E1 in E2. rewrite Lr, E2 in E3. rewrite E3 in E4.
  destruct (joined_send st.1 st'.1 t) as [Hs Hs']; [by rewrite E4|done|].
  destruct (joined_recv st.1 st'.1 u) as [Hr Hr']; [by rewrite E4|done|].
  split_and!; try done.
  - change (sendNow (summarize st'.1) = Some (length (sendTransports st.1))). by rewrite E4.
  - intros i Hi. by rewrite Hs, lookup_app_l.
  - change (recvNow (summarize st'.1) = Some (length (recvTransports st.1))). by rewrite E4.
  - intros i Hi. by rewrite Hr, lookup_app_l.
Qed.

(** A device that is loaded cannot be loaded again. *)
Lemma JDevice_load_twice d (w : World) text :
  loaded d = true -> exists e d', JDevice_load text (Some d, w) = (Throw e, d').
Proof.
  intros Hl. unfold JDevice_load, checkDeviceExists, native_try, bind, lift, json_argument. simpl.
  destruct text as [text|]; simpl; [|by eexists _, _].
  pose proof (json_parse_ends text) as He. destruct (json_parse text); [|by eexists _, _|done].
  unfold Device_Load, bind, get, throw_if. simpl. rewrite Hl. simpl. by eexists _, _.
Qed.
Lemma loadDevice_twice (st : Engine * World) d :
  mDevice st.1 = Some d -> loaded d = true -> exists e st', loadDevice st = (Throw e, st').
Proof.
  intros Hd Hl. unfold loadDevice. unfold bind at 1, engine. unfold bind at 1.
  unfold call_server, send_request. destruct (mStartupClient st.1); [|by eexists _, _].
  destruct (request _ _ _) as [[|code data] w]; [by eexists _, _|].
  unfold get_data, Fastjson.deref, throw_if, bind, ret. simpl. destruct (is_null data); [by eexists _, _|].
  unfold on_device. simpl. rewrite Hd. set (text := Some _).
  destruct (JDevice_load_twice d w text Hl) as (e & [d' w'] & ->). by eexists _, _.
Qed.

(** C16. An engine joins once.  When the device is loaded, that is after a join, and there is a
    network, the task of another join ends the process whatever the server answers, also when the
    channel was left in between. *)
Theorem rejoin_ends_process (st : Engine * World) (q : list task) (d : Device)
    (Hnext : workQueue (threads st.1) = RunJoin :: q)
    (Hdevice : mDevice st.1 = Some d) (Hloaded : loaded d = true)
    (Hnet : network_available st.2 = true) :
  exists st', act RunWork st = (Ok tt, st') /\ has_crashed st' = true.
Proof.
  cbn [act]. rewrite (run_work_cons _ _ _ Hnext). unfold uncaught. simpl.
  destruct (loadDevice_twice (popped q st) d) as (e & st1 & Hload);
    [by destruct st as [[] ?]|done|].
  unfold rethrow, try_catch, joinImpl. simpl. rewrite Hnet. unfold bind at 1. rewrite Hload.
  destruct (is_checked e); (eexists; split; [reflexivity|apply crashed_set]).
Qed.

(** *** Destroying *)

(** What is left of a transport that was closed and disposed. *)
Definition closed_sendTransport (e : Engine) (i : nat) : Prop := exists t,
  sendTransports e !! i = Some t /\ freed t = true /\
  transport_closed (send_base (native t)) = true /\
  (forall a, a ∈ all_producers (native t) -> producer_closed a = true) /\
  (forall a, a ∈ all_dataProducers (native t) -> dataProducer_closed a = true).
Definition closed_recvTransport (e : Engine) (i : nat) : Prop := exists t,
  recvTransports e !! i = Some t /\ freed t = true /\
  transport_closed (recv_base (native t)) = true /\
  (forall c, c ∈ all_consumers (native t) -> consumer_closed c = true).

Lemma none_open {A} (closed : A -> bool) (r : Registry A) a :
  (forall p, is_open closed r p = false) -> a ∈ objects r -> closed a = true.
Proof.
  intros Ho [p Hp]%list_elem_of_lookup_1. specialize (Ho p). unfold is_open in Ho. rewrite Hp in Ho.
  by apply negb_false_iff in Ho.
Qed.

Lemma destroyed_send (st : Engine * World) s1 s2 e' i :
  disposes_send (summarize st.1) s1 -> disposes_recv s1 s2 ->
  summarize e' = put_stopped (put_holders ∅ (put_dead s2)) -> mSendTransport st.1 = Some i ->
  engine_ok st.1 ->
  closed_sendTransport e' i /\
  (forall l p, media_of l (summarize e') = Some p -> p.1 <> i) /\
  (forall l p, data_of l (summarize e') = Some p -> p.1 <> i).
Proof.
  intros D1 D2 Hsum Hi [Hs _].
  destruct (disposes_recv_fields _ _ D2) as (M & D & E1 & _).
  assert (F : sends (summarize e') = sends s2 /\ (forall l, media_of l (summarize e') = media_of l s2) /\
    (forall l, data_of l (summarize e') = data_of l s2))
    by (rewrite Hsum; destruct s2; split_and!; try done; by intros []).
  destruct F as (F1 & F2 & F3). unfold disposes_send in D1.
  change (sendNow (summarize st.1)) with (mSendTransport st.1) in D1. rewrite Hi in D1.
  destruct (silences_fields _ _ _ D1) as (v & v1 & Hv & Hdead & Es & _ & _ & Hm & Hd & _).
  split_and!.
  - assert (Hat : sends (summarize e') !! i = Some (free_send v1)).
    { rewrite F1, E1, Es. apply list_lookup_insert_eq. by eapply lookup_lt_Some. }
    apply sends_inv in Hat as (t & Ht & Hvt). destruct Hdead as (Hc & Hf & _ & _ & Ho & Hod).
    rewrite Hvt in *. exists t. split_and!; try done; intros a; by apply none_open.
  - intros l p Hp. rewrite F2, M in Hp. destruct (Hm l p Hp) as [Hp0 Hne]. intros Heq.
    destruct (ok_media _ Hs l p Hp0) as (u & a & Hu & _ & Ha & Hc & Hl & _).
    assert (u = v) as -> by congruence. apply Hne; [|done|done]. unfold is_open. by rewrite Ha, Hc.
  - intros l p Hp. rewrite F3, D in Hp. destruct (Hd l p Hp) as [Hp0 Hne]. intros Heq.
    destruct (ok_data _ Hs l p Hp0) as (u & a & Hu & _ & Ha & Hc & Hl).
    assert (u = v) as -> by congruence. apply Hne; [|done|done]. unfold is_open. by rewrite Ha, Hc.
Qed.
Lemma destroyed_recv (st : Engine * World) s1 s2 e' i :
  disposes_send (summarize st.1) s1 -> disposes_recv s1 s2 ->
  summarize e' = put_stopped (put_holders ∅ (put_dead s2)) -> mRecvTransport st.1 = Some i ->
  engine_ok st.1 -> closed_recvTransport e' i.
Proof.
  intros D1 D2 Hsum Hi [Hs _]. destruct (disposes_send_rest _ _ D1) as (R1 & R2 & _).
  destruct (ok_recvNow _ Hs i Hi) as (v & Hv & _).
  unfold disposes_recv in D2. rewrite R2 in D2.
  change (recvNow (summarize st.1)) with (mRecvTransport st.1) in D2. rewrite Hi in D2.
  destruct D2 as (v1 & hs & Hdead & ->).
  assert (Hat : recvs (summarize e') !! i = Some (free_recv v1)).
  { rewrite Hsum. rewrite <- R1 in Hv. destruct s1. simpl in *. apply list_lookup_insert_eq.
    by eapply lookup_lt_Some. }
  apply recvs_inv in Hat as (t & Ht & Hvt). destruct Hdead as (Hc & Hf & _ & _ & Ho).
  rewrite Hvt in *. exists t. split_and!; try done. intros c. by apply none_open.
Qed.

Lemma destroy_state (st : Engine * World) q :
  engine_ok st.1 -> tasks st.1 = RunDestroy :: q ->
  exists st' s1 s2, act RunWork st = (Ok tt, st') /\ has_crashed st' = has_crashed st /\
    disposes_send (summarize st.1) s1 /\ disposes_recv s1 s2 /\
    summarize st'.1 = put_stopped (put_holders ∅ (put_dead s2)) /\
    mSendTransport st'.1 = None /\ mRecvTransport st'.1 = None /\ mDevice st'.1 = None /\
    mConsumers (remotes st'.1) = ∅ /\ mClosed st'.1 = true /\
    looperQuit (threads st'.1) = true /\ workQueue (threads st'.1) = [].
Proof.
  intros Hok Hnext.
  destruct (run_destroy_task q st Hok Hnext) as (st' & s1 & s2 & Hact & Hthr & D1 & D2 & Hsum).
  destruct (destroy_head q st Hok Hnext) as (He & _ & _). exists st', s1, s2.
  destruct (disposes_send_rest _ _ D1) as (_ & _ & _ & R4 & _ & R5 & _).
  destruct (disposes_recv_fields _ _ D2) as (_ & _ & _ & E2 & E3 & _ & _ & _ & E7 & _).
  assert (F : sendNow (summarize st'.1) = None /\ recvNow (summarize st'.1) = None /\
    alive (summarize st'.1) = false /\ holders (summarize st'.1) = ∅ /\
    ended (summarize st'.1) = true).
  { rewrite Hsum. destruct s2. simpl in *. split_and!; congruence. }
  destruct F as (F1 & F2 & F3 & F4 & F5). simpl in F1, F2, F3, F4, F5.
  assert (Hq : looperQuit (threads st'.1) = true /\ workQueue (threads st'.1) = [] /\
    has_crashed st' = has_crashed st)
    by (unfold has_crashed; rewrite Hthr; by destruct (threads st.1)).
  destruct Hq as (Hq1 & Hq2 & Hq3). split_and!; try done. by destruct (mDevice st'.1).
Qed.


(** The worker runs [n] tasks, as long as the process does not crash. *)
Fixpoint work (n : nat) (st : Engine * World) : option (Engine * World) :=
  match n with
  | O => Some st
  | S n =>
      match act RunWork st with
      | (Ok _, st') =>
          if negb (has_crashed st') && server_ids_distinct st'.1 then work n st' else None
      | _ => None
      end
  end.

Lemma work_step st n st' :
  engine_reachable st -> has_crashed st = false -> work (S n) st = Some st' ->
  exists st1, act RunWork st = (Ok tt, st1) /\ engine_reachable st1 /\ has_crashed st1 = false /\
    work n st1 = Some st'.
Proof.
  intros Hr Hc. cbn [work]. pose proof (engine_acted st RunWork Hr Hc) as Hstep.
  destruct (act RunWork st) as [[[]|e|] st1]; try done. cbn [fst snd] in Hstep.
  destruct (has_crashed st1) eqn:Hcr; [done|].
  destruct (server_ids_distinct st1.1) eqn:Hids; [|done]. simpl. intros Hw. exists st1.
  split_and!; auto.
Qed.
Lemma work_last n st st' :
  work (n + 1) st = Some st' -> exists st0, work n st = Some st0 /\ act RunWork st0 = (Ok tt, st').
Proof.
  revert st. induction n as [|n IH]; intros st.
  - cbn [work plus]. destruct (act RunWork st) as [[[]|e|] st1] eqn:E; try done.
    destruct (_ && _); [|done]. intros [= <-]. by exists st.
  - cbn [plus]. change (work (S ?n) st) with (match act RunWork st with
      | (Ok _, st') => if negb (has_crashed st') && server_ids_distinct st'.1 then work n st' else None
      | _ => None end).
    destruct (act RunWork st) as [[[]|e|] st1]; try done. destruct (_ && _); [apply IH|done].
Qed.
Lemma step_queue t q st st1 :
  tasks st.1 = t :: q -> is_destroy t = false -> act RunWork st = (Ok tt, st1) ->
  has_crashed st1 = false -> exists l, tasks st1.1 = q ++ l.
Proof.
  intros Ht Hd Hact Hc. cbn [act] in Hact. rewrite (run_work_cons _ _ _ Ht) in Hact.
  pose proof (keeps_run_task q t Hd (popped q st)) as Hk. unfold uncaught in Hact.
  assert (Hq : queued q (popped q st)).
  { exists []. destruct (popped_sum q st) as (_ & -> & _). by rewrite app_nil_r. }
  specialize (Hk Hq). destruct (run_task t _) as [[[]|e|] st2]; simplify_eq; [done|].
  unfold has_crashed in Hc. cbn [fst] in Hc. by rewrite crashed_set in Hc.
Qed.

(** The worker gets to a task that waits behind others. *)
Lemma work_reaches q1 t q2 st st' :
  engine_reachable st -> has_crashed st = false -> tasks st.1 = q1 ++ t :: q2 ->
  List.filter is_destroy q1 = [] -> work (length q1) st = Some st' ->
  engine_reachable st' /\ has_crashed st' = false /\ exists q, tasks st'.1 = t :: q.
Proof.
  revert q2 st. induction q1 as [|x q1 IH]; intros q2 st Hr Hc Ht Hf Hw.
  - injection Hw as <-. eauto.
  - destruct (work_step _ _ _ Hr Hc Hw) as (st1 & Hact & Hr1 & Hc1 & Hw1). simpl in Ht, Hf.
    destruct (is_destroy x) eqn:Hd; [done|]. destruct (step_queue _ _ _ _ Ht Hd Hact Hc1) as [l Hl].
    rewrite <- app_assoc in Hl. by apply (IH (q2 ++ l) st1).
Qed.

Lemma split_destroy (q : list task) :
  List.filter is_destroy q = [RunDestroy] ->
  exists q1 q2, q = q1 ++ RunDestroy :: q2 /\ List.filter is_destroy q1 = [].
Proof.
  induction q as [|t q IH]; simpl; [done|]. destruct (is_destroy t) eqn:Ht.
  - intros [= -> _]. by exists [], q.
  - intros (q1 & q2 & -> & Hq)%IH. exists (t :: q1), q2. simpl. by rewrite Ht.
Qed.

Lemma reachable_distinct st : engine_reachable st -> server_ids_distinct st.1 = true.
Proof. by induction 1. Qed.
Lemma distinct_sum e e' :
  summarize e' = summarize e -> server_ids_distinct e' = server_ids_distinct e.
Proof. unfold server_ids_distinct. by intros ->. Qed.

(** The tasks and the events of a join that is answered with a code that is not 0. *)
Definition rejections (code : Z) : list task :=
  (if code =? 1 then [RunThrow "Token is invalid"] else []) ++
  (if (code =? 1) || (code =? 1000) then
     [RunThrow "Initialization failed. Room number and APP ID and token does not match."]
   else []).
Definition rejected (code : Z) : list app_event :=
  (if code =? 1 then [onError ERR_INVALID_TOKEN] else []) ++
  (if (code =? 1) || (code =? 1000) then [onError ERR_CONFIG_PARAMETER_NOT_MATCH] else []).
Lemma run_rejection (st : Engine * World) code data :
  looperQuit (threads st.1) = false -> code <> 0 ->
  exists st1, initClientListener (Answered code data) st = (Ok tt, st1) /\
    summarize st1.1 = summarize st.1 /\ has_crashed st1 = has_crashed st /\
    serverRoomId st1.1 = serverRoomId st.1 /\
    told_app st1.1 = told_app st.1 ++ rejected code /\ tasks st1.1 = tasks st.1 ++ rejections code.
Proof.
  intros Hl Hz%Z.eqb_neq. unfold initClientListener, rejected, rejections. rewrite Hz.
  destruct st as [[???????????????[????] ?] ?]; simpl in Hl; subst.
  destruct (code =? 1), (code =? 1000); (eexists; split; [reflexivity|]); split_and!; try done; simpl;
    by rewrite <- ?app_assoc, ?app_nil_r.
Qed.

(** C17. A join that the server answers with a code other than 0, while the engine is not closed.
    For the code 1 the application is told of an invalid token and, because the switch falls
    through, of parameters that do not match; for the code 1000 only of the latter.  The tasks that
    throw are posted behind those that wait, and when the worker gets to the first of them the
    process ends.  For every other code the application is told nothing and no task is posted. *)
Theorem join_rejected (st : Engine * World) (i : nat) (code : Z) (data : json)
    (Hreach : engine_reachable st) (Hrun : has_crashed st = false) (Hopen : mClosed st.1 = false)
    (Hanswer : futures (threads st.1) !! i = Some (InitClientListener, Answered code data))
    (Hcode : code <> 0) :
  exists st1, act (Deliver i) st = (Ok tt, st1) /\ has_crashed st1 = false /\
    told_app st1.1 = told_app st.1 ++
      (if code =? 1 then [onError ERR_INVALID_TOKEN; onError ERR_CONFIG_PARAMETER_NOT_MATCH]
       else if code =? 1000 then [onError ERR_CONFIG_PARAMETER_NOT_MATCH] else []) /\
    serverRoomId st1.1 = serverRoomId st.1 /\
    (code = 1 \/ code = 1000 ->
     forall st2, work (length (workQueue (threads st.1))) st1 = Some st2 ->
       exists st3, act RunWork st2 = (Ok tt, st3) /\ has_crashed st3 = true) /\
    (code <> 1 -> code <> 1000 -> workQueue (threads st1.1) = workQueue (threads st.1)).
Proof.
  destruct (reachable_ok st Hreach Hrun) as [_ Hq]. unfold queue_ok in Hq. simpl in Hq.
  rewrite Hopen in Hq. destruct Hq as (Hl & _ & Hf).
  set (st0 := (on_threads (on_futures (delete i)) st.1, st.2)).
  assert (Hact : forall o, run_listener InitClientListener (Answered code data) st0 = (Ok tt, o) ->
    act (Deliver i) st = (Ok tt, o)).
  { intros o Ho. cbn [act]. rewrite (deliver_some _ _ _ _ Hanswer). unfold caught. fold st0. by rewrite Ho. }
  assert (E0 : threads st0.1 = on_futures (delete i) (threads st.1) /\ told_app st0.1 = told_app st.1 /\
    serverRoomId st0.1 = serverRoomId st.1 /\ tasks st0.1 = tasks st.1 /\
    summarize st0.1 = summarize st.1 /\ has_crashed st0 = has_crashed st)
    by (unfold st0; by destruct st as [[???????????????[]] ?]).
  destruct E0 as (T0 & A0 & I0 & Q0 & S0 & C0).
  destruct (run_rejection st0 code data) as (st1 & Hr & S1 & C1 & I1 & A1 & Q1);
    [rewrite T0; by destruct (threads st.1)|done|].
  specialize (Hact st1 Hr). exists st1. rewrite A0 in A1. rewrite Q0 in Q1.
  split_and!; [done|congruence| |congruence| |].
  { rewrite A1. unfold rejected. by destruct (code =? 1), (code =? 1000). }
  2: { intros E1%Z.eqb_neq E2%Z.eqb_neq. unfold rejections in Q1. rewrite E1, E2 in Q1.
       by rewrite app_nil_r in Q1. }
  intros Hends. assert (Hr1 : engine_reachable st1).
  { pose proof (engine_acted st (Deliver i) Hreach Hrun) as Hs. rewrite Hact in Hs. apply Hs; [done|].
    cbn [snd]. rewrite (distinct_sum st.1) by congruence. by apply reachable_distinct. }
  assert (Hhead : exists t q, rejections code = RunThrow t :: q)
    by (destruct Hends as [-> | ->]; eexists _, _; reflexivity).
  destruct Hhead as (text & q & Hq). rewrite Hq in Q1. intros st2 Hw.
  destruct (work_reaches _ _ _ _ _ Hr1 ltac:(congruence) Q1 Hf Hw) as (_ & _ & q2 & Ht2).
  cbn [act]. rewrite (run_work_cons _ _ _ Ht2). eexists. split; [reflexivity|]. apply crashed_set.
Qed.

Lemma uncaught_ok (m : EM unit) st st' :
  uncaught m st = (Ok tt, st') -> has_crashed st' = false -> m st = (Ok tt, st').
Proof.
  unfold uncaught, has_crashed. destruct (m st) as [[[]|e|] st1]; [done| |done].
  intros [= <-]. cbn [fst]. by rewrite crashed_set.
Qed.

(** *** Turning the camera and the microphone off *)

Definition disable_task (l : media_listener) : task :=
  match l with CamListener => RunDisableCamera | MicListener => RunDisableAudio end.
Lemma run_disable_task l : run_task (disable_task l) = disableMedia l.
Proof. by destruct l. Qed.

Lemma unpublish_fields l p v a s :
  sends (unpublish l p v a s) = <[p.1 := close_seen_producer p.2 a v]> (sends s) /\
  (forall l', media_of l' (unpublish l p v a s) = if decide (l' = l) then None else media_of l' s) /\
  published (unpublish l p v a s) = delete (producer_id a) (published s) /\
  holders (unpublish l p v a s) = holders s.
Proof. destruct s, l; split_and!; try done; by intros []. Qed.


(** *** Runs *)

(** Each action comes with the state of webrtc that it finds. *)
Fixpoint engine_play (l : list (action * World)) (st : Engine * World) :
    option (Engine * World) :=
  match l with
  | [] => Some st
  | (a, w) :: l =>
      match act a (st.1, w) with
      | (Ok _, st') =>
          if negb (has_crashed st') && server_ids_distinct st'.1 then engine_play l st' else None
      | _ => None
      end
  end.
Lemma engine_play_reachable l st st' :
  engine_reachable st -> has_crashed st = false -> engine_play l st = Some st' ->
  engine_reachable st' /\ has_crashed st' = false.
Proof.
  revert st. induction l as [|[a w] l IH]; intros [e w0] Hr Hc; cbn [engine_play].
  - by intros [= <-].
  - pose proof (engine_acted (e, w) a (engine_proceeded _ _ _ Hr) Hc) as Hs. cbn [fst].
    destruct (act a (e, w)) as [[[]|x|] st1]; try done. cbn [fst snd] in Hs.
    destruct (has_crashed st1) eqn:Hc1; [done|]. destruct (server_ids_distinct st1.1); [|done].
    simpl. apply IH; auto.
Qed.
End Spec.

(** ** A run *)

Definition sampleEngine (token : string) (l : list (action * World)) : option (Engine * World) :=
  engine_play l (Engine_new (sampleConfig token), "").
Lemma sampleEngine_reachable token l st :
  sampleEngine token l = Some st -> engine_reachable st /\ has_crashed st = false.
Proof. apply engine_play_reachable; [constructor|done]. Qed.


Lemma join_connects_witness : exists st st' : Engine * World,
  sampleEngine "token" (firstn 3 sampleCall) = Some st /\
  joinImpl (st.1, sample_offer) = (Ok tt, st') /\ mSendTransport st'.1 = Some 0%nat /\
  exists t, open_sendTransport st'.1 0 t.
Proof.
  assert (Hs : match sampleEngine "token" (firstn 3 sampleCall) with
    | Some st => fst (joinImpl (st.1, sample_offer)) = Ok tt /\ sendTransports st.1 = []
    | None => False end) by (vm_compute; split; reflexivity).
  destruct (sampleEngine "token" (firstn 3 sampleCall)) as [st|]; [|destruct Hs].
  destruct Hs as [Hj Hn].
  destruct (joinImpl (st.1, sample_offer)) as [r st'] eqn:E. cbn [fst] in Hj. subst r.
  assert (Hnet : network_available (snd (st.1, sample_offer)) = true) by reflexivity.
  destruct (join_connects (st.1, sample_offer) st' Hnet E) as (_ & Hn' & Ht & _).
  cbn [fst] in Hn', Ht. rewrite Hn in Hn', Ht. exists st, st'. split; [reflexivity|].
  split; [exact E|]. split; [exact Hn'|exact Ht].
Defined.

Lemma rejoin_ends_process_witness : exists st st' : Engine * World,
  sampleEngine "token" (sampleCall ++ [(Call ApiLeaveChannel, ""); (Call ApiJoinChannel, "");
                                       (Deliver 2, "")]) = Some st /\
  act RunWork st = (Ok tt, st') /\ has_crashed st' = true.
Proof.
  set (l := sampleCall ++ _).
  assert (Hs : match sampleEngine "token" l with
    | Some st => workQueue (threads st.1) = [RunJoin] /\
        exists d, mDevice st.1 = Some d /\ loaded d = true
    | None => False end) by (vm_compute; split; [reflexivity|eexists; split; reflexivity]).
  destruct (sampleEngine "token" l) as [st|]; [|destruct Hs].
  destruct Hs as (Hq & d & Hd & Hl).
  assert (Hnet : network_available st.2 = true) by reflexivity.
  destruct (rejoin_ends_process st [] d Hq Hd Hl Hnet) as (st' & Hact & Hc).
  exists st, st'. split; [reflexivity|]. split; [exact Hact|exact Hc].
Defined.



Lemma join_rejected_witness : exists st st1 : Engine * World,
  sampleEngine "forged" (firstn 2 sampleCall) = Some st /\
  act (Deliver 0) st = (Ok tt, st1) /\
  told_app st1.1 = [onError ERR_INVALID_TOKEN; onError ERR_CONFIG_PARAMETER_NOT_MATCH] /\
  exists st3, act RunWork st1 = (Ok tt, st3) /\ has_crashed st3 = true.
Proof.
  assert (Hs : match sampleEngine "forged" (firstn 2 sampleCall) with
    | Some st => mClosed st.1 = false /\ told_app st.1 = [] /\ workQueue (threads st.1) = [] /\
        futures (threads st.1) !! 0%nat = Some (InitClientListener, Answered 1 JNull)
    | None => False end) by (vm_compute; split_and!; reflexivity).
  destruct (sampleEngine "forged" (firstn 2 sampleCall)) as [st|] eqn:E; [|destruct Hs].
  destruct Hs as (Ho & Ht & Hq & Hf). destruct (sampleEngine_reachable _ _ _ E) as [Hr Hc].
  destruct (join_rejected st 0 1 JNull Hr Hc Ho Hf ltac:(lia)) as
    (st1 & Hact & _ & Htold & _ & Hw & _). rewrite Ht in Htold. rewrite Hq in Hw.
  exists st, st1. split; [reflexivity|]. split; [exact Hact|]. split; [exact Htold|].
  apply Hw; [left|]; reflexivity.
Defined.

